(* ===== verification/_CoqProject ===== *)
-Q . S2P
Prelude.v
Buffer.v
Frames.v
FramesProofs.v
Packet.v
TransportParameters.v
RangeSet.v
Streams.v
Channel.v
StreamManager.v
StreamNetwork.v
Congestion.v
NewReno.v
Recovery.v
RecoveryProofs.v
Crypto.v
Protection.v
Retry.v
Hq.v
TlsInterface.v
Handshake.v
Codec.v
HandshakeProofs.v
KeySchedule.v
TlsCore.v
TlsClient.v
TlsServer.v
TlsRuns.v
TlsReceive.v
KeyDerivation.v
TlsSafety.v
TlsHonest.v
TlsTickets.v
TlsAgreement.v
TlsResumption.v
TlsServerProofs.v
TlsStates.v
TlsEdges.v
Spaces.v
CryptoStream.v
Acks.v
KeyUpdate.v
ConnState.v
ConnRecv.v
ConnSend.v
ConnMonotone.v
ConnRuns.v
ConnProofs.v
SendLoop.v
SendSize.v
ConnInvariants.v
ConnDelivery.v
Json.v
Qlog.v
DocumentRoot.v
TlsInstance.v
Endpoints.v
Sockets.v
ServerEndpoint.v
ClientEndpoint.v
EndpointRuns.v
EndpointProofs.v
CommandLine.v
