(* ===== verification/Prelude.v ===== *)
(** * A verification of dsquic

    dsquic ([src/src/dsquic/] in the repository) is a sans-IO implementation
    of QUIC version 1 in Python: a [Connection] object is fed datagrams and
    clock readings and is drained of datagrams, timers and events; everything
    below it is a pure or stateful component without I/O.  This library
    translates those components into executable definitions and proves what
    makes each of them, and the connection that composes them, correct.

    ** The program and the files that model it

    - Bytes.  [buffer.py] (varints, the cursor [Buffer]) is [Buffer]; the
      [int.to_bytes], slicing and dictionary operations it and the others use
      are in this file.
    - Wire formats.  [frames.py] is [Frames] (proofs in [FramesProofs]),
      [packet.py] is [Packet], [transport_parameters.py] is
      [TransportParameters], [hq.py] is [Hq].
    - Streams.  [streams.py] is [RangeSet] (the class of that name), [Streams]
      ([SendStream], [RecvStream]) and [StreamManager]; [Channel] joins the
      two halves of a stream by a network that loses, repeats and reorders,
      [StreamNetwork] joins two stream managers with all their streams and
      credit the same way, and maps each stream of it to a [Channel].
    - Loss recovery.  [congestion.py] is the class [CongestionController] with
      its laws in [Congestion]; [new_reno.py] is the instance in [NewReno];
      [recovery.py] is [Recovery], proved in [RecoveryProofs] against the
      class and not against NewReno.
    - Cryptography.  The [cryptography] package is not part of the repository:
      it is the class [Primitives] of [Crypto], its documented behaviour the
      class [PrimitiveLaws], and [toy_primitives] an instance that satisfies
      the laws and that witnesses evaluate.  [Crypto] also has the HKDF
      functions of [tls.py]; [protection.py] is [Protection], [retry.py] is
      [Retry].
    - TLS 1.3.  [tls.py] is [Handshake] (messages, extensions and their
      encodings; [Codec] is the theory of such encodings, [HandshakeProofs]
      applies it), [KeySchedule] (the class of that name, session tickets,
      PSK offers), [TlsCore] (the state and the reassembly both roles share,
      over the class [Machine]; the key exchange, signatures and certificate
      chains of the [cryptography] package are the class [TlsPrimitives] with
      its laws [TlsLaws]), [TlsClient] and [TlsServer].  [TlsRuns] has sample
      configurations and runs the two against each other, [TlsReceive] proves
      that the cut of the bytes does not matter and how to do induction over
      what [receive] handles, [KeyDerivation] states the key schedule as pure
      functions.  [TlsHonest] has the effect of every handler on what an honest
      peer sends, [TlsTickets] the tickets honest endpoints issue, keep and
      offer; [TlsAgreement] and [TlsResumption] put the two sides together.
      [TlsSafety], [TlsServerProofs], [TlsStates] and [TlsEdges] have the
      theorems against any peer.
    - The connection.  [connection.py] is [Spaces] (the class [_Space] and the
      methods that work on one packet number space; proofs in [CryptoStream],
      [Acks], [KeyUpdate]), [ConnState] (the [Connection] object, its
      configuration, events and the interface [Tls]), [ConnRecv] (the receive
      path, TLS events, frame handlers, closing) and [ConnSend] (packet and
      datagram building, budgets and pacing, timers, the application
      interface).  [ConnMonotone] proves that every method only moves a
      connection forward, [ConnRuns] runs two connections against each other,
      [ConnProofs] has the theorems; [SendLoop] bounds the loop of
      [datagrams_to_send], [SendSize] the datagrams it returns, and
      [ConnInvariants] lifts the invariants of loss detection and of the stream
      manager to the connection.  [ConnDelivery] joins the two paths: what one
      connection builds, the other handles.  The connection knows TLS only as the
      class [Tls] of [TlsInterface]; [TlsInstance] makes the two state machines
      of [tls.py] an instance of it.
    - The trace.  [qlog.py] and the event dictionaries of [connection.py] are
      [Qlog], over the text of [json.dumps] in [Json].
    - The endpoints.  The decisions of [endpoints/] are [Endpoints]
      ([endpoints/__init__.py]: how long to sleep, ECN codepoints),
      [ServerEndpoint] (the class [Server] of [endpoints/server.py]: the table
      of sessions, Retry and address tokens, requests, reaping),
      [DocumentRoot] (its [resolve], over a file system with links) and
      [ClientEndpoint] ([endpoints/client.py]: [fetch] and the modes built on
      it); there a socket is the list of what was sent and an input of what
      arrived.  [Sockets] has what the endpoints do to the options of a socket,
      [CommandLine] the PEM files, the key log, and [main] of both endpoints on
      parsed arguments.  [EndpointRuns] runs the endpoints against each other,
      [EndpointProofs] has the theorems.

    ** How the code is represented

    An object is a record with the attributes of the class; a method that
    raises or reads and writes several attributes runs in the state and
    exception monad [M] of this file, in which a state change made before an
    exception is kept, as in Python; other methods are functions.  Every
    exception the code can raise at a modelled point is a value of [exn],
    including those no caller expects ([KeyError], [AssertionError],
    [ValueError] of the library).  Python integers are [Z], bytes are lists of
    [byte], dictionaries whose order matters are association lists.  Clock
    readings, RTTs and rates are rationals: the floats of the code without
    rounding.  [os.urandom] is an argument.  The calls that only write the
    qlog trace are not threaded through the methods of the connection; [Qlog]
    has the events they log.

    Recursion: the loops over a buffer ([parse_frames], PADDING, ACK ranges,
    transport parameters, versions, the packets of a datagram) take as fuel
    the number of bytes, each round consuming at least one; the totality
    theorems of [Frames], [Packet] and [TransportParameters] and
    [receive_loop_terminates] show the fuel is enough.  The loop of
    [datagrams_to_send] takes its fuel as an argument: what is proved of it
    holds for every fuel, and [sending_terminates] says that more than the work
    queued is enough and makes no difference (it assumes, as the class
    [PythonPrimitives], that the library raises no exception of this model's
    own).  The walk of [realpath] takes the names to go and those of every link
    once, which [walk_ends] shows to be enough; the system's own walk follows
    40 links and no more.  The loop of TLS [receive]
    takes the length of the buffer, the splitting of bytes that of the data;
    the loops of [fetch] and [serve] wait for the network and run over the
    list of the rounds that happen.

    ** What is proved

    - Round trips: varints, frames, long headers, packet numbers, transport
      parameters, packet protection, Retry packets, tokens, requests; and on
      arbitrary input the parsers return well-formed values or one of the
      exceptions their callers handle.
    - Streams: whatever two endpoints do and whatever the network does to
      their frames, each reader holds a prefix of what was written to its
      stream and, once everything got through, all of it; no frame of this
      sender is ever refused, before the handshake or after it, unless a 0-RTT
      client remembers limits above the server's; connection and stream flow
      control accounts are exact, and no call sends past the limit in force;
      [RangeSet] implements finite union.
    - Recovery: each packet sent is outstanding, acknowledged, lost or dropped,
      once; ACKs take exactly the packets they name; timers are armed when
      they must be and make progress; the window has a floor and is reduced
      once per period.
    - Keys: protection authenticates; key updates keep both directions at one
      generation, move only on proof of the peer's update, and are followed.
    - The CRYPTO stream reaches TLS in order and in full; acknowledgements
      name what was received.
    - TLS: handshake messages round trip and the parser accepts nothing but
      encodings; two honest endpoints agree on the keys of RFC 8446, the
      protocol, the parameters and the next session ticket, in a full handshake
      and from an offered ticket, whether the server resumes from it, takes the
      0-RTT data or falls back; a connected client has authenticated its
      server and a connected server has checked the client's Finished, however
      the peer's bytes are chosen; the states follow the handshake automata;
      0-RTT is accepted only under the conditions of the RFCs; tickets open to
      what was sealed.
    - The connection: over everything it sends packet numbers are used once, nothing committed is taken
      back, a finished connection is silent, how the amplification limit is
      kept; sending ends and its datagrams have a bounded size; the accounts of
      loss detection and streams stay exact inside it; a packet built by one
      connection makes the other do exactly what handling its frames does; whole
      handshakes and requests run by evaluation.
    - The endpoints: every connection a server accepts is counted once; address
      validation commits no state before a token validates, and the Retry's
      token admits its client and no other; the server sleeps exactly until it
      has something to do; a fetch issues its requests in order as far as
      credit goes, returns only when as many streams as paths have ended, and
      waits no longer than its deadline;
      no stored token is offered twice; where links do not loop nothing outside
      the document root is served, and nothing outside the output directory written; datagrams keep
      their ECN codepoints across IPv4, IPv6 and dual-stack sockets; the key log
      reads back; whole fetches and the client's command run by evaluation over
      the real handshake, with Retry, resumption, 0-RTT and version negotiation.
    - The trace: a qlog file reads back, record by record, as the events that
      were logged.
    - Where the code departs from its documentation: exceptions that escape
      (malformed or short tokens and headers, and a request with a null
      character, stop the server, a stream the server opens spoils a fetch,
      [KeyError] and [ValueError] out of the
      connection and of TLS), the amplification limit, [close] after
      termination, a client left ready for a forged resumption, links of the document root
      that loop (one stops the server, and one that goes on with [..] lets a
      request out of the root), Initials with a
      long token larger than a datagram may be, early data sent again past
      smaller limits after it was rejected, options of the client that are
      accepted and ignored, and bodies that overwrite each other.

    ** What is not modelled

    At which point of a method a qlog event or a line of the key log is
    written; of [endpoints/] the parsing of the command line, which is
    [argparse]'s, name resolution, the creation of sockets, files and
    selectors, what the file system raises when a body is written, and the
    KeyboardInterrupt that ends the server; [h3.py], [qpack.py] and [masque.py]
    hold no code.  Floats are rationals without rounding; the text [json.dumps] gives a
    float is the class [FloatText].

    This file has what the others share: exceptions and the monad, bytes and
    integers, dictionaries and sorting as Python has them, list and slice
    lemmas, the tactics and hint databases. *)

From stdpp Require Export base list numbers strings sets pretty.
From Stdlib Require Export ZArith Lia Strings.Byte Sorting.Sorted.

#[global] Open Scope Z_scope.

(** ** Exceptions and effects *)

(** Every exception class the modelled code raises.  Messages are kept where
    the code builds them, because the connection forwards some of them to the
    peer.  [OutOfFuel] is the one constructor no Python code raises: it marks
    a loop whose fuel ran out. *)
Inductive exn : Type :=
| BufferReadError (msg : string)
| ValueError (msg : string)
| OverflowError
| IndexError
| KeyError
| AssertionError
| RuntimeError (msg : string)
| FrameParseError (msg : string)
| HeaderParseError (msg : string)
| UnsupportedVersion (version : Z)
| StreamLimitReached (msg : string)
| StreamError (error_code : Z) (reason : string)
| AckOfUnsentPacket (msg : string)
| InvalidTag
| InvalidSignature
| VerificationError (msg : string)
| TokenError (msg : string)
| HqError (msg : string)
| ConnectionError_ (error_code : Z) (reason : string) (frame_type : option Z)
| VersionNegotiationRequired (versions : list Z)
| TimeoutError
| TlsAlert (alert : Z) (reason : string)
| HandshakeParseError (msg : string)
| TicketError (msg : string)
| OSError
| SystemExit (code : Z)
| OutOfFuel.

(** The outcome of a Python expression: a value or a raised exception. *)
Inductive result (A : Type) : Type :=
| Ok (a : A)
| Raise (e : exn).
Arguments Ok {A} a.
Arguments Raise {A} e.

#[export] Instance result_ret : MRet result := λ A a, Ok a.
#[export] Instance result_bind : MBind result := λ A B k m,
  match m with Ok a => k a | Raise e => Raise e end.

(** Methods mutate [self] and may raise; what they wrote before raising
    stays written, so the state is threaded through both outcomes. *)
Definition M (S A : Type) : Type := S → result A * S.

#[export] Instance M_ret S : MRet (M S) := λ A a s, (Ok a, s).
#[export] Instance M_bind S : MBind (M S) := λ A B k m s,
  match m s with
  | (Ok a, s') => k a s'
  | (Raise e, s') => (Raise e, s')
  end.

Definition raise {S A} (e : exn) : M S A := λ s, (Raise e, s).
Definition get {S} : M S S := λ s, (Ok s, s).
Definition gets {S A} (f : S → A) : M S A := λ s, (Ok (f s), s).
Definition put {S} (s : S) : M S unit := λ _, (Ok tt, s).
Definition modify {S} (f : S → S) : M S unit := λ s, (Ok tt, f s).
Definition lift {S A} (r : result A) : M S A := λ s, (r, s).

(** Run a computation on a part of the state (a sub-object). *)
Definition zoom {S T A} (view : S → T) (set : T → S → S) (m : M T A) : M S A := λ s,
  let '(r, t) := m (view s) in (r, set t s).

(** [for x in l: f(x)] *)
Fixpoint each {S A} (f : A → M S unit) (l : list A) : M S unit :=
  match l with
  | [] => mret tt
  | x :: l' => _ ← f x; each f l'
  end.

(** [if b: m] *)
Definition when {S} (b : bool) (m : M S unit) : M S unit := if b then m else mret tt.

(** [try: m except ...]: the handler says what to do with the exceptions it
    names; the state is the one the exception left. *)
Definition catch {S A} (m : M S A) (handler : exn → option (M S A)) : M S A := λ s,
  match m s with
  | (Raise e, s') => match handler e with Some h => h s' | None => (Raise e, s') end
  | r => r
  end.

Definition is_ok {A} (r : result A) : bool :=
  match r with Ok _ => true | Raise _ => false end.

(** ** Bytes and Python integers *)

Abbreviation bytes := (list byte).

(** The integer a byte stands for, and the byte of an integer modulo 256. *)
Definition Zb (b : byte) : Z := Z.of_N (Byte.to_N b).
Definition bZ (z : Z) : byte := default x00 (Byte.of_N (Z.to_N (z mod 256))).

(** Python's [len] as an integer. *)
Definition len {A} (l : list A) : Z := Z.of_nat (length l).

(** [bytes(n)]: [n] zero bytes. *)
Definition zeros (n : Z) : bytes := replicate (Z.to_nat n) x00.

(** [l[i:j]] for non-negative bounds: out-of-range bounds are clipped. *)
Definition slice {A} (i j : Z) (l : list A) : list A :=
  take (Z.to_nat (j - i)) (drop (Z.to_nat i) l).

(** [bytes([v])], which raises outside [0, 255]. *)
Definition byte_literal (v : Z) : result bytes :=
  if (0 <=? v) && (v <? 256) then Ok [bZ v]
  else Raise (ValueError "bytes must be in range(0, 256)").

(** The big-endian digits of [v] modulo 256^n. *)
Fixpoint be_bytes (n : nat) (v : Z) : bytes :=
  match n with
  | O => []
  | S k => be_bytes k (v / 256) ++ [bZ v]
  end.

(** [v.to_bytes(n, "big")]. *)
Definition to_bytes (n : nat) (v : Z) : result bytes :=
  if (0 <=? v) && (v <? 256 ^ Z.of_nat n) then Ok (be_bytes n v) else Raise OverflowError.

(** [int.from_bytes(l, "big")]. *)
Definition from_bytes (l : bytes) : Z := fold_left (λ acc b, acc * 256 + Zb b) l 0.

(** Hexadecimal digits, as the [:x] format specifier prints them. *)
Definition hex_digit (d : Z) : string :=
  default "0" (["0"; "1"; "2"; "3"; "4"; "5"; "6"; "7"; "8"; "9"; "a"; "b"; "c"; "d"; "e"; "f"]
    !! Z.to_nat d).
Fixpoint hex_pad (n : nat) (v : Z) : string :=
  match n with
  | O => ""
  | S k => hex_pad k (v / 16) +:+ hex_digit (v mod 16)
  end.
Definition hex (v : Z) : string :=
  hex_pad (Z.to_nat (Z.max 1 (Z.log2 v / 4 + 1))) v.

(** ** Insertion-ordered dictionaries

    A Python [dict] iterates in insertion order, and several loops of the
    program depend on it, so a dictionary is an association list: assignment
    replaces in place or appends, deletion removes. *)

Section dict.
Context {K V : Type} `{EqDecision K}.

Fixpoint d_get (k : K) (d : list (K * V)) : option V :=
  match d with
  | [] => None
  | (k', v) :: d' => if decide (k = k') then Some v else d_get k d'
  end.

Fixpoint d_set (k : K) (v : V) (d : list (K * V)) : list (K * V) :=
  match d with
  | [] => [(k, v)]
  | (k', v') :: d' => if decide (k = k') then (k, v) :: d' else (k', v') :: d_set k v d'
  end.

Fixpoint d_del (k : K) (d : list (K * V)) : list (K * V) :=
  match d with
  | [] => []
  | (k', v') :: d' => if decide (k = k') then d' else (k', v') :: d_del k d'
  end.
End dict.

(** ** Sorting with a key

    [sorted(l, key=f)]: stable insertion sort on an integer key. *)

Section sort.
Context {A : Type} (key : A → Z).

Fixpoint insert_by (x : A) (l : list A) : list A :=
  match l with
  | [] => [x]
  | y :: l' => if key x <=? key y then x :: y :: l' else y :: insert_by x l'
  end.

Fixpoint sort_by (l : list A) : list A :=
  match l with
  | [] => []
  | x :: l' => insert_by x (sort_by l')
  end.
End sort.

(** Sum of an integer measure over a list. *)
Definition sum_by {A} (f : A → Z) (l : list A) : Z := foldr (λ x acc, f x + acc) 0 l.

(** Map a fallible function over a list, stopping at the first exception. *)
Fixpoint mapM_result {A B} (f : A → result B) (l : list A) : result (list B) :=
  match l with
  | [] => Ok []
  | x :: l' => y ← f x; ys ← mapM_result f l'; Ok (y :: ys)
  end.

(** ** Automation *)

Create HintDb wire.
Create HintDb quic.
Create Rewrite HintDb lens.

(** Turn boolean tests in the context and goal into propositions. *)
Ltac bool_cases :=
  repeat match goal with
  | H : _ && _ = true |- _ => apply andb_true_iff in H as [? ?]
  | H : _ || _ = false |- _ => apply orb_false_iff in H as [? ?]
  | H : negb _ = true |- _ => apply negb_true_iff in H
  | H : negb _ = false |- _ => apply negb_false_iff in H
  | H : (_ <? _) = true |- _ => apply Z.ltb_lt in H
  | H : (_ <? _) = false |- _ => apply Z.ltb_ge in H
  | H : (_ <=? _) = true |- _ => apply Z.leb_le in H
  | H : (_ <=? _) = false |- _ => apply Z.leb_gt in H
  | H : (_ =? _) = true |- _ => apply Z.eqb_eq in H
  | H : (_ =? _) = false |- _ => apply Z.eqb_neq in H
  | H : (_ >? _) = _ |- _ => rewrite Z.gtb_ltb in H
  | H : (_ >=? _) = _ |- _ => rewrite Z.geb_leb in H
  end.

(** Split on the innermost test a goal or hypothesis is stuck on. *)
Ltac case_test :=
  match goal with
  | |- context [if ?c then _ else _] =>
      lazymatch type of c with
      | bool => let E := fresh "E" in destruct c eqn:E; bool_cases
      | _ => let E := fresh "E" in destruct c as [E | E]
      end
  end.
Ltac case_test_in H :=
  match type of H with
  | context [if ?c then _ else _] =>
      lazymatch type of c with
      | bool => let E := fresh "E" in destruct c eqn:E; bool_cases
      | _ => let E := fresh "E" in destruct c as [E | E]
      end
  end.

(** Right-nest appends. *)
Ltac app_norm :=
  repeat match goal with
  | |- context [(?a ++ ?b) ++ ?c] => rewrite <- (app_assoc a b c)
  | |- context [(?x :: ?a) ++ ?b] => change ((x :: a) ++ b) with (x :: (a ++ b))
  | |- context [[] ++ ?b] => change ([] ++ b) with b
  | |- context [?b ++ []] => rewrite (app_nil_r b)
  end.

(** Run one bind of either monad. *)
Ltac bind_case H :=
  match type of H with
  | context [mbind _ ?m] => let E := fresh "E" in destruct m eqn:E; cbn [mbind result_bind] in H
  end.

(** ** Monad laws *)

Lemma result_bind_ok {A B} (k : A → result B) a : (Ok a ≫= k) = k a.
Proof. reflexivity. Qed.

Lemma result_bind_inv {A B} (m : result A) (k : A → result B) b :
  (m ≫= k) = Ok b → ∃ a, m = Ok a ∧ k a = Ok b.
Proof. destruct m; cbn; [eauto | discriminate]. Qed.

Lemma outcome_pair {A B} (p : A * B) a : p.1 = a → p = (a, p.2).
Proof. by destruct p as [? ?]; intros <-. Qed.

Lemma M_bind_ok {S A B} (m : M S A) (k : A → M S B) s a s' :
  m s = (Ok a, s') → (m ≫= k) s = k a s'.
Proof. intros E. unfold mbind, M_bind. by rewrite E. Qed.

Lemma M_bind_raise {S A B} (m : M S A) (k : A → M S B) s e s' :
  m s = (Raise e, s') → (m ≫= k) s = (Raise e, s').
Proof. intros E. unfold mbind, M_bind. by rewrite E. Qed.

(** Inversion of a bind: it succeeded in both halves, or raised in one. *)
Lemma M_bind_inv {S A B} (m : M S A) (k : A → M S B) s r s' :
  (m ≫= k) s = (r, s') →
  (∃ a s1, m s = (Ok a, s1) ∧ k a s1 = (r, s')) ∨
  (∃ e, m s = (Raise e, s') ∧ r = Raise e).
Proof.
  unfold mbind, M_bind. destruct (m s) as [[a|e] s1] eqn:E; intros H.
  - left; eauto.
  - right. exists e. by simplify_eq.
Qed.

Lemma M_bind_ok_inv {S A B} (m : M S A) (k : A → M S B) s b s' :
  (m ≫= k) s = (Ok b, s') → ∃ a s1, m s = (Ok a, s1) ∧ k a s1 = (Ok b, s').
Proof. intros [H | (e & _ & [=])]%M_bind_inv; done. Qed.

(** ** State relations

    [preserves R m]: whatever [m] returns or raises, the state it leaves is
    related to the one it started from. *)

Definition preserves {S A} (R : S → S → Prop) (m : M S A) : Prop := ∀ s, R s (m s).2.

Section preserves.
Context {S : Type} {R : S → S → Prop} `{!PreOrder R}.

Lemma preserves_ret {A} (a : A) : preserves R (mret a).
Proof. intros s. cbn. reflexivity. Qed.
Lemma preserves_raise {A} e : preserves R (raise e : M S A).
Proof. intros s. cbn. reflexivity. Qed.
Lemma preserves_get : preserves R get.
Proof. intros s. cbn. reflexivity. Qed.
Lemma preserves_lift {A} (r : result A) : preserves R (lift r).
Proof. intros s. cbn. reflexivity. Qed.
Lemma preserves_modify f : (∀ s, R s (f s)) → preserves R (modify f).
Proof. intros H s. apply H. Qed.
Lemma preserves_bind {A B} (m : M S A) (k : A → M S B) :
  preserves R m → (∀ a, preserves R (k a)) → preserves R (m ≫= k).
Proof.
  intros Hm Hk s. unfold mbind, M_bind. pose proof (Hm s) as H. destruct (m s) as [[a|e] s']; [|done].
  cbn in H. etransitivity; [done|]. apply Hk.
Qed.
Lemma preserves_each {A} (f : A → M S unit) l : (∀ x, preserves R (f x)) → preserves R (each f l).
Proof.
  intros H. induction l as [|x l IH]; cbn [each]; [apply preserves_ret|]. by apply preserves_bind.
Qed.
Lemma preserves_when b m : preserves R m → preserves R (when b m).
Proof. intros H. destruct b; [done|apply preserves_ret]. Qed.
Lemma preserves_catch {A} (m : M S A) h :
  preserves R m → (∀ e m', h e = Some m' → preserves R m') → preserves R (catch m h).
Proof.
  intros Hm Hh s. unfold catch. pose proof (Hm s) as H. destruct (m s) as [[a|e] s']; [done|]. cbn in H.
  destruct (h e) as [m'|] eqn:E; [|done]. etransitivity; [done|]. by eapply Hh.
Qed.
End preserves.

(** ** Bytes *)

Lemma Zb_range b : 0 <= Zb b < 256.
Proof. unfold Zb. pose proof (Byte.to_N_bounded b). lia. Qed.

Lemma Zb_bZ z : Zb (bZ z) = z mod 256.
Proof.
  unfold Zb, bZ. pose proof (Z.mod_pos_bound z 256 ltac:(lia)) as H.
  destruct (Byte.of_N (Z.to_N (z mod 256))) as [b|] eqn:E; cbn.
  - apply Byte.to_of_N in E. rewrite E. lia.
  - apply Byte.of_N_None_iff in E. lia.
Qed.

Lemma Zb_inj a b : Zb a = Zb b → a = b.
Proof.
  unfold Zb. intros H%N2Z.inj. apply (f_equal Byte.of_N) in H.
  rewrite !Byte.of_to_N in H. by simplify_eq.
Qed.

Lemma bZ_Zb b : bZ (Zb b) = b.
Proof. apply Zb_inj. rewrite Zb_bZ. apply Z.mod_small, Zb_range. Qed.

Lemma Zb_bZ_small z : 0 <= z < 256 → Zb (bZ z) = z.
Proof. intros H. rewrite Zb_bZ. by apply Z.mod_small. Qed.

#[export] Instance byte_eq_dec : EqDecision byte.
Proof.
  refine (λ a b, match decide (Zb a = Zb b) with left H => left _ | right H => right _ end).
  - by apply Zb_inj.
  - intros ->. by apply H.
Defined.

Lemma len_nonneg {A} (l : list A) : 0 <= len l.
Proof. unfold len. lia. Qed.
Lemma len_nil {A} : len (@nil A) = 0.
Proof. reflexivity. Qed.
Lemma len_cons {A} (x : A) l : len (x :: l) = 1 + len l.
Proof. unfold len. cbn. lia. Qed.
Lemma len_app {A} (l k : list A) : len (l ++ k) = len l + len k.
Proof. unfold len. rewrite length_app. lia. Qed.
Lemma len_zeros n : len (zeros n) = Z.max 0 n.
Proof. unfold len, zeros. rewrite length_replicate. lia. Qed.
#[export] Hint Rewrite @len_nil @len_cons @len_app len_zeros : lens.

Lemma len_0_nil {A} (l : list A) : len l = 0 → l = [].
Proof. destruct l; [done|]. rewrite len_cons. pose proof (len_nonneg l). lia. Qed.

Lemma length_len {A} (l : list A) : Z.of_nat (length l) = len l.
Proof. reflexivity. Qed.
Lemma Z_to_nat_len {A} (l : list A) : Z.to_nat (len l) = length l.
Proof. unfold len. lia. Qed.

(** ** Slices *)

Lemma len_slice {A} i j (l : list A) :
  0 <= i → len (slice i j l) = Z.max 0 (Z.min (j - i) (len l - i)).
Proof. intros Hi. unfold slice, len. rewrite length_take, length_drop. lia. Qed.

Lemma slice_app_mid {A} (a b c : list A) :
  slice (len a) (len a + len b) (a ++ b ++ c) = b.
Proof.
  unfold slice. rewrite Z_to_nat_len, drop_app_length.
  replace (len a + len b - len a) with (len b) by lia.
  by rewrite Z_to_nat_len, take_app_length.
Qed.

Lemma slice_lookup {A} i j (l : list A) (k : nat) :
  0 <= i → Z.of_nat k < j - i → slice i j l !! k = l !! (Z.to_nat i + k)%nat.
Proof. intros Hi Hk. unfold slice. rewrite lookup_take_lt by lia. by rewrite lookup_drop. Qed.

Lemma slice_lookup_ge {A} i j (l : list A) (k : nat) :
  j - i <= Z.of_nat k → slice i j l !! k = None.
Proof. intros Hk. unfold slice. apply lookup_take_ge. lia. Qed.

Lemma slice_ge {A} i j (l : list A) : j <= i → slice i j l = [].
Proof. intros. unfold slice. by replace (Z.to_nat (j - i)) with 0%nat by lia. Qed.

(** Adjacent slices glue. *)
Lemma slice_glue {A} i j k (l : list A) :
  0 <= i → i <= j <= k → slice i j l ++ slice j k l = slice i k l.
Proof.
  intros. unfold slice.
  replace (Z.to_nat (k - i)) with (Z.to_nat (j - i) + Z.to_nat (k - j))%nat by lia.
  rewrite <- take_take_drop, drop_drop. do 3 f_equal. lia.
Qed.

Lemma slice_full {A} (l : list A) : slice 0 (len l) l = l.
Proof. unfold slice. rewrite Z.sub_0_r, Z_to_nat_len. cbn. by rewrite firstn_all. Qed.

(** ** Big-endian integers *)

Lemma len_be_bytes n v : len (be_bytes n v) = Z.of_nat n.
Proof. revert v. induction n; intros; cbn -[Z.of_nat]; autorewrite with lens; [done|]. rewrite IHn. lia. Qed.

Lemma from_bytes_snoc l b : from_bytes (l ++ [b]) = from_bytes l * 256 + Zb b.
Proof. unfold from_bytes. by rewrite fold_left_app. Qed.

Lemma from_bytes_be n v : from_bytes (be_bytes n v) = v mod 256 ^ Z.of_nat n.
Proof.
  revert v. induction n as [|n IH]; intros v.
  - cbn. by rewrite Z.mod_1_r.
  - cbn [be_bytes]. rewrite from_bytes_snoc, IH, Zb_bZ, Nat2Z.inj_succ, Z.pow_succ_r by lia.
    rewrite (Z.rem_mul_r v 256) by lia. lia.
Qed.

Lemma from_bytes_be_small n v : 0 <= v < 256 ^ Z.of_nat n → from_bytes (be_bytes n v) = v.
Proof. intros. rewrite from_bytes_be. by apply Z.mod_small. Qed.

Lemma from_bytes_range l : 0 <= from_bytes l < 256 ^ len l.
Proof.
  induction l as [|b l IH] using rev_ind; [done|].
  pose proof (len_nonneg l). pose proof (Zb_range b). rewrite from_bytes_snoc.
  replace (len (l ++ [b])) with (Z.succ (len l)) by (autorewrite with lens; lia).
  rewrite Z.pow_succ_r by done. lia.
Qed.

Lemma be_bytes_from l : be_bytes (length l) (from_bytes l) = l.
Proof.
  induction l as [|b l IH] using rev_ind; [done|].
  rewrite length_app, Nat.add_comm. cbn [length Nat.add be_bytes].
  rewrite from_bytes_snoc. pose proof (Zb_range b).
  replace ((from_bytes l * 256 + Zb b) / 256) with (from_bytes l)
    by (rewrite Z.add_comm, Z.div_add by lia; rewrite Z.div_small by lia; lia).
  rewrite IH. do 2 f_equal. apply Zb_inj. rewrite Zb_bZ.
  rewrite Z.add_comm, Z_mod_plus_full. by apply Z.mod_small.
Qed.

Lemma to_bytes_ok n v : 0 <= v < 256 ^ Z.of_nat n → to_bytes n v = Ok (be_bytes n v).
Proof. intros H. unfold to_bytes. destruct (_ && _) eqn:E; [done|].
  apply andb_false_iff in E as [E|E]; bool_cases; lia. Qed.

Lemma to_bytes_inv n v bs : to_bytes n v = Ok bs → 0 <= v < 256 ^ Z.of_nat n ∧ bs = be_bytes n v.
Proof. unfold to_bytes. case_test; [|done]. intros [= <-]. done. Qed.

Lemma byte_literal_ok v : 0 <= v < 256 → byte_literal v = Ok [bZ v].
Proof. intros H. unfold byte_literal. destruct (_ && _) eqn:E; [done|].
  apply andb_false_iff in E as [E|E]; bool_cases; lia. Qed.

Lemma byte_literal_inv v bs : byte_literal v = Ok bs → 0 <= v < 256 ∧ bs = [bZ v].
Proof. unfold byte_literal. case_test; [|done]. intros [= <-]. done. Qed.

(** ** Bit operations as arithmetic *)

(** Setting bits above [k] on a number below [2^k] adds them. *)
Lemma land_high v c k : 0 <= k → 0 <= v < 2 ^ k → Z.land v (c * 2 ^ k) = 0.
Proof.
  intros Hk Hv. apply Z.bits_inj'. intros n Hn. rewrite Z.land_spec, Z.bits_0.
  destruct (Z.lt_ge_cases n k).
  - rewrite Z.mul_pow2_bits_low by done. apply andb_false_r.
  - rewrite <- (Z.mod_small v (2 ^ k)) by done. by rewrite Z.mod_pow2_bits_high.
Qed.

Lemma lor_add_high v c k : 0 <= k → 0 <= v < 2 ^ k → Z.lor v (c * 2 ^ k) = v + c * 2 ^ k.
Proof. intros. symmetry. apply Z.add_nocarry_lor. by apply land_high. Qed.

Lemma shiftl_lor_byte a b : 0 <= b < 256 → Z.lor (a ≪ 8) b = a * 256 + b.
Proof.
  intros. rewrite Z.shiftl_mul_pow2, Z.lor_comm by lia.
  rewrite (lor_add_high b a 8) by lia. lia.
Qed.

Lemma land_ones_mod v k m : 0 <= k → m = Z.ones k → Z.land v m = v mod 2 ^ k.
Proof. intros ? ->. by apply Z.land_ones. Qed.

(** A single-bit test. *)
Lemma land_bit_zero v k : 0 <= k → Z.land v (2 ^ k) = 0 ↔ Z.testbit v k = false.
Proof.
  intros Hk. split.
  - intros H. apply (f_equal (λ x, Z.testbit x k)) in H.
    rewrite Z.land_spec, Z.pow2_bits_true, Z.bits_0, andb_true_r in H by done. done.
  - intros H. apply Z.bits_inj'. intros n Hn. rewrite Z.land_spec, Z.bits_0.
    destruct (decide (n = k)) as [->|]; [by rewrite H|].
    rewrite Z.pow2_bits_false by done. apply andb_false_r.
Qed.

(** ** Dictionaries *)

Section dict_lemmas.
Context {K V : Type} `{EqDecision K}.
Implicit Types d : list (K * V).

Lemma d_get_set_eq k v d : d_get k (d_set k v d) = Some v.
Proof. induction d as [|[k' v'] d IH]; cbn; repeat case_decide; cbn; try case_decide; congruence. Qed.

Lemma d_get_set_ne k k' v d : k ≠ k' → d_get k' (d_set k v d) = d_get k' d.
Proof. intros. induction d as [|[k1 v1] d IH]; cbn; repeat case_decide; cbn; repeat case_decide; congruence. Qed.

Lemma d_get_elem k v d : d_get k d = Some v → (k, v) ∈ d.
Proof. induction d as [|[k' v'] d IH]; cbn; [done|]. case_decide; set_solver. Qed.

Lemma d_get_None k d : d_get k d = None ↔ k ∉ d.*1.
Proof. induction d as [|[k' v'] d IH]; cbn; [set_solver|]. case_decide; set_solver. Qed.

Lemma d_elem_get k v d : NoDup d.*1 → (k, v) ∈ d → d_get k d = Some v.
Proof.
  induction d as [|[k' v'] d IH]; cbn; [set_solver|].
  intros [Hk Hd]%NoDup_cons [[= -> ->]|Hin]%elem_of_cons; [by case_decide|].
  case_decide as E; [|by apply IH]. subst. destruct Hk. apply list_elem_of_fmap. by exists (k', v).
Qed.

Lemma d_set_keys_old k v d : k ∈ d.*1 → (d_set k v d).*1 = d.*1.
Proof.
  induction d as [|[k' v'] d IH]; cbn; [by intros ?%elem_of_nil|].
  case_decide; [by subst|]. intros [?|?]%elem_of_cons; [done|]. cbn. by rewrite IH.
Qed.

Lemma d_set_new k v d : k ∉ d.*1 → d_set k v d = d ++ [(k, v)].
Proof.
  induction d as [|[k' v'] d IH]; cbn; [done|]. intros [Hne Hd]%not_elem_of_cons.
  rewrite decide_False by done. by rewrite IH.
Qed.

Lemma d_set_NoDup k v d : NoDup d.*1 → NoDup (d_set k v d).*1.
Proof.
  intros Hd. destruct (decide (k ∈ d.*1)).
  - by rewrite d_set_keys_old.
  - rewrite d_set_new, fmap_app by done. cbn. apply NoDup_app. repeat split; [done|set_solver|].
    apply NoDup_singleton.
Qed.

Lemma d_set_elem k v d x : x ∈ d_set k v d → x = (k, v) ∨ x ∈ d.
Proof. induction d as [|[k' v'] d IH]; cbn; [set_solver|]. case_decide; set_solver. Qed.

Lemma d_set_Forall (P : K * V → Prop) k v d : P (k, v) → Forall P d → Forall P (d_set k v d).
Proof. rewrite !Forall_forall. intros ? ? x [->|?]%d_set_elem; auto. Qed.

(** Overwriting a key: the dictionary is a split around the old binding. *)
Lemma d_get_split k v d :
  d_get k d = Some v →
  ∃ d1 d2, d = d1 ++ (k, v) :: d2 ∧ ∀ v', d_set k v' d = d1 ++ (k, v') :: d2.
Proof.
  induction d as [|[k' v'] d IH]; cbn; [done|]. case_decide as E.
  - intros [= ->]. subst. exists [], d. split; [done|]. done.
  - intros (d1 & d2 & -> & H)%IH. exists ((k', v') :: d1), d2. split; [done|].
    intros v1. cbn. rewrite H. done.
Qed.
End dict_lemmas.

(** ** Sums *)

Lemma sum_by_app {A} (f : A → Z) l k : sum_by f (l ++ k) = sum_by f l + sum_by f k.
Proof. induction l; cbn; [done|]. unfold sum_by in *. cbn. lia. Qed.
Lemma sum_by_cons {A} (f : A → Z) x l : sum_by f (x :: l) = f x + sum_by f l.
Proof. done. Qed.
Lemma sum_by_perm {A} (f : A → Z) l k : l ≡ₚ k → sum_by f l = sum_by f k.
Proof. induction 1; rewrite ?sum_by_cons in *; lia. Qed.
Lemma sum_by_nonneg {A} (f : A → Z) l : (∀ x, x ∈ l → 0 <= f x) → 0 <= sum_by f l.
Proof.
  induction l as [|x l IH]; intros H; [done|]. rewrite sum_by_cons.
  pose proof (H x ltac:(set_solver)). assert (0 <= sum_by f l) by (apply IH; set_solver). lia.
Qed.
Lemma sum_by_filter {A} (f : A → Z) (p : A → bool) l :
  sum_by f (List.filter p l) = sum_by (λ x, if p x then f x else 0) l.
Proof. unfold sum_by. induction l as [|x l IH]; cbn; [done|]. destruct (p x); cbn; lia. Qed.
Lemma sum_by_keys {K V} `{EqDecision K} (f : K * V → Z) (g : K → Z) (d : list (K * V)) :
  NoDup d.*1 → (∀ k v, d_get k d = Some v → f (k, v) = g k) → sum_by f d = sum_by g d.*1.
Proof.
  intros Hd H. assert (H' : ∀ k v, (k, v) ∈ d → f (k, v) = g k) by (intros k v Hk; apply H; by apply d_elem_get).
  clear H Hd. induction d as [|[k v] d IH]; [done|]. cbn [fmap list_fmap]. rewrite !sum_by_cons, IH, (H' k v).
  - done.
  - by left.
  - intros k' v' Hk. apply H'. by right.
Qed.

Lemma sum_by_subset {A} `{EqDecision A} (g : A → Z) (l k : list A) :
  NoDup l → (∀ x, 0 <= g x) → (∀ x, x ∈ l → x ∉ k → g x = 0) → sum_by g l <= sum_by g k.
Proof.
  revert k. induction l as [|x l IH]; intros k Hl Hg H.
  { change (sum_by g []) with 0. apply sum_by_nonneg. auto. }
  apply NoDup_cons in Hl as [Hx Hl]. rewrite sum_by_cons. destruct (decide (x ∈ k)) as [Hin|Hin].
  - apply elem_of_Permutation in Hin as [k' Hk]. rewrite (sum_by_perm _ _ _ Hk), sum_by_cons.
    assert (sum_by g l <= sum_by g k'); [|lia]. apply IH; [done|done|]. intros y Hy Hy'. apply H; [by right|].
    rewrite Hk. intros [->|]%elem_of_cons; done.
  - rewrite (H x) by (done || by left). apply IH; [done|done|]. intros y Hy. apply H. by right.
Qed.

Lemma sum_by_le {A} (f g : A → Z) l : (∀ x, f x <= g x) → sum_by f l <= sum_by g l.
Proof. intros H. induction l as [|x l IH]; [done|]. rewrite !sum_by_cons. specialize (H x). lia. Qed.

(** ** Sorting *)

Section sort_lemmas.
Context {A : Type} (key : A → Z).

Lemma insert_by_perm x l : insert_by key x l ≡ₚ x :: l.
Proof. induction l as [|y l IH]; cbn; [done|]. case_test; [done|]. rewrite IH. apply Permutation_swap. Qed.

Lemma sort_by_perm l : sort_by key l ≡ₚ l.
Proof. induction l as [|x l IH]; cbn; [done|]. by rewrite insert_by_perm, IH. Qed.

Lemma insert_by_sorted x l :
  StronglySorted (λ a b, key a <= key b) l → StronglySorted (λ a b, key a <= key b) (insert_by key x l).
Proof.
  induction 1 as [|y l Hs IH Hy]; cbn; [by repeat constructor|]. case_test.
  - constructor; [by constructor|]. constructor; [done|]. eapply Forall_impl; [done|]. cbn. lia.
  - constructor; [done|]. rewrite insert_by_perm. constructor; [lia|done].
Qed.

Lemma sort_by_sorted l : StronglySorted (λ a b, key a <= key b) (sort_by key l).
Proof. induction l; cbn; [constructor|]. by apply insert_by_sorted. Qed.

(** A list already sorted is left alone. *)
Lemma sort_by_id l : StronglySorted (λ a b, key a <= key b) l → sort_by key l = l.
Proof.
  induction 1 as [|x l Hs IH Hx]; cbn; [done|]. rewrite IH.
  destruct l as [|y l]; [done|]. cbn. apply Forall_cons in Hx as [Hx _].
  by rewrite (proj2 (Z.leb_le _ _)).
Qed.
End sort_lemmas.

(** ** Fallible maps *)

Lemma mapM_result_app {A B} (f : A → result B) l k :
  mapM_result f (l ++ k) = (ys ← mapM_result f l; zs ← mapM_result f k; Ok (ys ++ zs)).
Proof.
  induction l as [|x l IH]; cbn.
  - by destruct (mapM_result f k).
  - destruct (f x); cbn; [|done]. rewrite IH. destruct (mapM_result f l); cbn; [|done].
    by destruct (mapM_result f k).
Qed.

Lemma mapM_result_cons_inv {A B} (f : A → result B) x l ys :
  mapM_result f (x :: l) = Ok ys → ∃ y ys', f x = Ok y ∧ mapM_result f l = Ok ys' ∧ ys = y :: ys'.
Proof.
  cbn. destruct (f x) as [y|]; cbn; [|done]. destruct (mapM_result f l) as [ys'|]; cbn; [|done].
  intros [= <-]. eauto.
Qed.

Lemma fold_be_acc l a : fold_left (λ acc b, acc * 256 + Zb b) l a = a * 256 ^ len l + from_bytes l.
Proof.
  induction l as [|b l IH] using rev_ind; [rewrite len_nil, Z.pow_0_r; cbn; lia|].
  rewrite from_bytes_snoc, fold_left_app. cbn [fold_left]. rewrite IH.
  replace (len (l ++ [b])) with (Z.succ (len l)) by (autorewrite with lens; lia).
  rewrite Z.pow_succ_r by apply len_nonneg. lia.
Qed.

Lemma from_bytes_cons b l : from_bytes (b :: l) = Zb b * 256 ^ len l + from_bytes l.
Proof. unfold from_bytes at 1. cbn [fold_left]. by rewrite fold_be_acc. Qed.
