(* ===== verification/Buffer.v ===== *)
(** * Varints and the sequential byte reader (buffer.py)

    [encode_varint] and the [Buffer] reader class of [src/dsquic/buffer.py],
    RFC 9000 section 16.  A reader is a record of the immutable data and the
    position; its methods are computations of the state monad [M Buffer], so
    a raised exception keeps the position reached so far.  [mkbuf pre rest] is
    the reader that has consumed [pre] and still holds [rest]: the equations
    proved here rewrite such readers and carry every round trip of the
    development. *)

From S2P Require Import Prelude.

(** ** Model *)

Definition VARINT_MAX : Z := 2 ^ 62 - 1.
Definition MAX_IN_1_BYTE : Z := 0x3F.
Definition MAX_IN_2_BYTES : Z := 0x3FFF.
Definition MAX_IN_4_BYTES : Z := 0x3FFFFFFF.

Definition encode_varint (value : Z) : result bytes :=
  if negb ((0 <=? value) && (value <=? VARINT_MAX)) then
    Raise (ValueError ("varint out of range: " +:+ pretty value))
  else if value <=? MAX_IN_1_BYTE then to_bytes 1 value
  else if value <=? MAX_IN_2_BYTES then to_bytes 2 (Z.lor value 0x4000)
  else if value <=? MAX_IN_4_BYTES then to_bytes 4 (Z.lor value 0x80000000)
  else to_bytes 8 (Z.lor value 0xC000000000000000).

Record Buffer : Type := mkBuffer { _data : bytes; _position : Z }.

(** [Buffer(data)]. *)
Definition new_buffer (data : bytes) : Buffer := mkBuffer data 0.

Definition position (b : Buffer) : Z := _position b.
Definition remaining (b : Buffer) : Z := len (_data b) - _position b.
Definition is_empty (b : Buffer) : bool := _position b =? len (_data b).

Definition pull_bytes (length : Z) : M Buffer bytes :=
  b ← get;
  if length <? 0 then raise (ValueError ("negative length: " +:+ pretty length))
  else if length >? remaining b then
    raise (BufferReadError ("cannot pull " +:+ pretty length +:+ " bytes, "
                            +:+ pretty (remaining b) +:+ " remaining"))
  else
    let start := _position b in
    let stop := start + length in
    _ ← put (mkBuffer (_data b) stop);
    mret (slice start stop (_data b)).

Definition peek_uint8 : M Buffer Z :=
  b ← get;
  if remaining b <? 1 then raise (BufferReadError "cannot peek, buffer is empty")
  else match _data b !! Z.to_nat (_position b) with
       | Some x => mret (Zb x)
       | None => raise IndexError
       end.

Definition pull_uint8 : M Buffer Z :=
  l ← pull_bytes 1;
  match l with
  | x :: _ => mret (Zb x)
  | [] => raise IndexError
  end.

Definition pull_uint16 : M Buffer Z := l ← pull_bytes 2; mret (from_bytes l).
Definition pull_uint24 : M Buffer Z := l ← pull_bytes 3; mret (from_bytes l).
Definition pull_uint32 : M Buffer Z := l ← pull_bytes 4; mret (from_bytes l).

Definition pull_varint : M Buffer Z :=
  first ← pull_uint8;
  let length := 1 ≪ (first ≫ 6) in
  let value := Z.land first 0x3F in
  rest ← pull_bytes (length - 1);
  mret (fold_left (λ value byte, Z.lor (value ≪ 8) (Zb byte)) rest value).

(** ** Well-formed readers

    The class invariant: the position stays inside the data. *)

Definition buf_ok (b : Buffer) : Prop := 0 <= _position b <= len (_data b).

(** The reader that consumed [pre] and has [rest] left. *)
Definition mkbuf (pre rest : bytes) : Buffer := mkBuffer (pre ++ rest) (len pre).

(** What a reader still holds. *)
Definition unread (b : Buffer) : bytes := drop (Z.to_nat (_position b)) (_data b).

(** The Hoare triple of a reader.  From any well-formed reader, [p] consumes a
    prefix of what is left whatever its outcome (so the position never moves
    back nor past the end, and the data never change); when it returns, the
    value and the number of bytes consumed satisfy [Q]; when it raises, the
    exception satisfies [E]. *)
Definition reads {A} (p : M Buffer A) (E : exn → Prop) (Q : A → Z → Prop) : Prop :=
  ∀ pre rest, ∃ bs rest',
    rest = bs ++ rest' ∧ (p (mkbuf pre rest)).2 = mkbuf (pre ++ bs) rest' ∧
    match (p (mkbuf pre rest)).1 with
    | Ok a => Q a (len bs)
    | Raise e => E e
    end.

(** The only exception a read past the end raises. *)
Definition short_read (e : exn) : Prop := match e with BufferReadError _ => True | _ => False end.

(** The length of a varint's shortest form. *)
Definition varint_size (v : Z) : Z :=
  if v <=? MAX_IN_1_BYTE then 1
  else if v <=? MAX_IN_2_BYTES then 2
  else if v <=? MAX_IN_4_BYTES then 4 else 8.

(** ** Readers as split byte strings *)

Lemma mkbuf_ok pre rest : buf_ok (mkbuf pre rest).
Proof. unfold buf_ok, mkbuf. cbn. rewrite len_app. pose proof (len_nonneg pre). pose proof (len_nonneg rest). lia. Qed.
#[export] Hint Resolve mkbuf_ok : wire.

Lemma buf_ok_split b : buf_ok b → ∃ pre rest, b = mkbuf pre rest.
Proof.
  destruct b as [d p]. unfold buf_ok, mkbuf. cbn. intros H.
  exists (take (Z.to_nat p) d), (drop (Z.to_nat p) d).
  rewrite firstn_skipn. f_equal. unfold len in *. rewrite length_take. lia.
Qed.

Lemma new_buffer_mkbuf data : new_buffer data = mkbuf [] data.
Proof. reflexivity. Qed.

Lemma remaining_mkbuf pre rest : remaining (mkbuf pre rest) = len rest.
Proof. unfold remaining, mkbuf. cbn. rewrite len_app. lia. Qed.

Lemma is_empty_mkbuf pre rest : is_empty (mkbuf pre rest) = (len rest =? 0).
Proof. unfold is_empty, mkbuf. cbn. rewrite len_app. apply eq_iff_eq_true. rewrite !Z.eqb_eq. lia. Qed.

Lemma position_mkbuf pre rest : position (mkbuf pre rest) = len pre.
Proof. reflexivity. Qed.
#[export] Hint Rewrite remaining_mkbuf is_empty_mkbuf position_mkbuf : lens.

Lemma unread_mkbuf pre rest : unread (mkbuf pre rest) = rest.
Proof. unfold unread, mkbuf. cbn. by rewrite Z_to_nat_len, drop_app_length. Qed.

Lemma mkbuf_data pre rest : _data (mkbuf pre rest) = pre ++ rest.
Proof. reflexivity. Qed.
Lemma mkbuf_position pre rest : _position (mkbuf pre rest) = len pre.
Proof. reflexivity. Qed.

(** ** Reads *)

Lemma pull_bytes_app pre bs rest n :
  n = len bs → pull_bytes n (mkbuf pre (bs ++ rest)) = (Ok bs, mkbuf (pre ++ bs) rest).
Proof.
  intros ->. unfold pull_bytes, mbind, M_bind, get. cbn [fst snd].
  pose proof (len_nonneg bs). pose proof (len_nonneg rest).
  rewrite (proj2 (Z.ltb_ge _ _)) by done.
  rewrite remaining_mkbuf, len_app, Z.gtb_ltb, (proj2 (Z.ltb_ge _ _)) by lia.
  unfold put, mret, M_ret, mkbuf. cbn. rewrite slice_app_mid. do 2 f_equal.
  - by rewrite <- app_assoc.
  - by rewrite len_app.
Qed.

Lemma pull_bytes_short pre rest n :
  len rest < n → ∃ msg, pull_bytes n (mkbuf pre rest) = (Raise (BufferReadError msg), mkbuf pre rest).
Proof.
  intros H. unfold pull_bytes, mbind, M_bind, get. cbn [fst snd]. pose proof (len_nonneg rest).
  rewrite (proj2 (Z.ltb_ge _ _)) by lia.
  rewrite remaining_mkbuf, Z.gtb_ltb, (proj2 (Z.ltb_lt _ _)) by lia. eexists. reflexivity.
Qed.

(** Either the read succeeds on a prefix of what is left, or nothing moves. *)
Lemma pull_bytes_cases pre rest n :
  0 <= n →
  (∃ bs rest', rest = bs ++ rest' ∧ len bs = n ∧
     pull_bytes n (mkbuf pre rest) = (Ok bs, mkbuf (pre ++ bs) rest')) ∨
  (len rest < n ∧ ∃ msg, pull_bytes n (mkbuf pre rest) = (Raise (BufferReadError msg), mkbuf pre rest)).
Proof.
  intros Hn. destruct (Z.lt_ge_cases (len rest) n) as [H|H].
  - right. split; [done|]. by apply pull_bytes_short.
  - left. exists (take (Z.to_nat n) rest), (drop (Z.to_nat n) rest).
    assert (len (take (Z.to_nat n) rest) = n) by (unfold len in *; rewrite length_take; lia).
    rewrite firstn_skipn. repeat split; [done|].
    rewrite <- (firstn_skipn (Z.to_nat n) rest) at 1. by apply pull_bytes_app.
Qed.

Lemma pull_uint8_cons pre x rest :
  pull_uint8 (mkbuf pre (x :: rest)) = (Ok (Zb x), mkbuf (pre ++ [x]) rest).
Proof.
  unfold pull_uint8. change (x :: rest) with ([x] ++ rest).
  by erewrite M_bind_ok by (by apply pull_bytes_app).
Qed.

Lemma pull_uint8_nil pre : ∃ msg, pull_uint8 (mkbuf pre []) = (Raise (BufferReadError msg), mkbuf pre []).
Proof.
  destruct (pull_bytes_short pre [] 1 ltac:(done)) as [msg E].
  exists msg. unfold pull_uint8. by erewrite M_bind_raise by exact E.
Qed.

Lemma peek_uint8_cons pre x rest :
  peek_uint8 (mkbuf pre (x :: rest)) = (Ok (Zb x), mkbuf pre (x :: rest)).
Proof.
  unfold peek_uint8. erewrite M_bind_ok by done. rewrite remaining_mkbuf, len_cons.
  rewrite (proj2 (Z.ltb_ge _ _)) by (pose proof (len_nonneg rest); lia).
  cbn. rewrite Z_to_nat_len, lookup_app_r, Nat.sub_diag by done. reflexivity.
Qed.

(** [n]-byte big-endian reads invert [to_bytes n]. *)
Lemma pull_be_app pre rest n v :
  0 <= v < 256 ^ Z.of_nat n →
  (l ← pull_bytes (Z.of_nat n); mret (from_bytes l)) (mkbuf pre (be_bytes n v ++ rest))
  = (Ok v, mkbuf (pre ++ be_bytes n v) rest).
Proof.
  intros H. erewrite M_bind_ok by (apply pull_bytes_app; by rewrite len_be_bytes).
  unfold mret, M_ret. by rewrite from_bytes_be_small.
Qed.

Lemma pull_uint16_app pre rest v :
  0 <= v < 2 ^ 16 →
  pull_uint16 (mkbuf pre (be_bytes 2 v ++ rest)) = (Ok v, mkbuf (pre ++ be_bytes 2 v) rest).
Proof. intros. by apply (pull_be_app _ _ 2). Qed.
Lemma pull_uint24_app pre rest v :
  0 <= v < 2 ^ 24 →
  pull_uint24 (mkbuf pre (be_bytes 3 v ++ rest)) = (Ok v, mkbuf (pre ++ be_bytes 3 v) rest).
Proof. intros. by apply (pull_be_app _ _ 3). Qed.
Lemma pull_uint32_app pre rest v :
  0 <= v < 2 ^ 32 →
  pull_uint32 (mkbuf pre (be_bytes 4 v ++ rest)) = (Ok v, mkbuf (pre ++ be_bytes 4 v) rest).
Proof. intros. by apply (pull_be_app _ _ 4). Qed.

(** ** Varints *)

(** Byte folding as the code writes it is big-endian reading. *)
Lemma fold_varint_acc l a :
  fold_left (λ value byte, Z.lor (value ≪ 8) (Zb byte)) l a = a * 256 ^ len l + from_bytes l.
Proof.
  rewrite <- fold_be_acc. revert a. induction l as [|b l IH]; intros a; [done|]. cbn [fold_left].
  rewrite IH. by rewrite shiftl_lor_byte by apply Zb_range.
Qed.

(** One decoding step, for any of the four forms. *)
Lemma pull_varint_form pre x ys rest :
  len ys = 2 ^ (Zb x / 64) - 1 →
  pull_varint (mkbuf pre (x :: ys ++ rest))
  = (Ok (Zb x mod 64 * 256 ^ len ys + from_bytes ys), mkbuf (pre ++ x :: ys) rest).
Proof.
  intros Hl. unfold pull_varint. erewrite M_bind_ok by apply pull_uint8_cons.
  pose proof (Zb_range x). rewrite Z.shiftr_div_pow2 by lia. change (2 ^ 6) with 64.
  rewrite Z.shiftl_1_l. erewrite M_bind_ok by (apply pull_bytes_app; lia).
  unfold mret, M_ret. rewrite fold_varint_acc, (land_ones_mod _ 6) by done.
  change (2 ^ 6) with 64. by rewrite <- app_assoc.
Qed.

(** The shortest form of [v], as a term to rewrite with. *)
Definition varint_form (t : Z) (v : Z) : bytes :=
  be_bytes (Z.to_nat (2 ^ t)) (v + t * (64 * 256 ^ (2 ^ t - 1))).
Definition varint_bytes (v : Z) : bytes :=
  varint_form (if v <=? MAX_IN_1_BYTE then 0 else if v <=? MAX_IN_2_BYTES then 1
               else if v <=? MAX_IN_4_BYTES then 2 else 3) v.

Lemma pull_varint_form_app pre rest t v :
  0 <= t < 4 → 0 <= v < 64 * 256 ^ (2 ^ t - 1) →
  pull_varint (mkbuf pre (varint_form t v ++ rest)) = (Ok v, mkbuf (pre ++ varint_form t v) rest).
Proof.
  intros Ht Hv. unfold varint_form. assert (Hp : 0 < 2 ^ t) by (apply Z.pow_pos_nonneg; lia).
  set (W := 256 ^ (2 ^ t - 1)) in *. set (n := Z.to_nat (2 ^ t)). set (w := v + t * (64 * W)).
  assert (HW : 0 < W) by (apply Z.pow_pos_nonneg; lia).
  assert (Hn : Z.of_nat n = 2 ^ t) by (unfold n; lia).
  assert (Hpow : 256 ^ Z.of_nat n = 256 * W).
  { rewrite Hn. unfold W. rewrite <- Z.pow_succ_r by lia. f_equal; lia. }
  pose proof (from_bytes_be_small n w ltac:(rewrite Hpow; unfold w; nia)) as Hf.
  pose proof (len_be_bytes n w) as Hlen.
  destruct (be_bytes n w) as [|x ys].
  { rewrite len_nil in Hlen. lia. }
  rewrite len_cons in Hlen. rewrite from_bytes_cons in Hf.
  assert (Hys : len ys = 2 ^ t - 1) by lia. rewrite Hys in Hf. fold W in Hf.
  pose proof (from_bytes_range ys) as Hr. rewrite Hys in Hr. fold W in Hr.
  assert (Hx : Zb x = t * 64 + v / W).
  { assert (Hd : w / W = Zb x) by (symmetry; apply Z.div_unique_pos with (from_bytes ys); lia).
    rewrite <- Hd. unfold w. rewrite Z.mul_assoc, Z.div_add by lia. lia. }
  assert (0 <= v / W < 64).
  { split; [apply Z.div_pos; lia|]. apply Z.div_lt_upper_bound; lia. }
  assert (Zb x / 64 = t) by (symmetry; apply Z.div_unique_pos with (v / W); lia).
  assert (Hm : Zb x mod 64 = v / W) by (symmetry; apply Z.mod_unique_pos with t; lia).
  cbn [app]. rewrite pull_varint_form by (rewrite H0; lia). rewrite Hm, Hys. fold W.
  do 3 f_equal. assert (from_bytes ys = w - Zb x * W) by lia.
  pose proof (Z.div_mod v W ltac:(lia)). unfold w in *. lia.
Qed.

Lemma varint_bytes_form v :
  0 <= v <= VARINT_MAX →
  ∃ t, 0 <= t < 4 ∧ 0 <= v < 64 * 256 ^ (2 ^ t - 1) ∧
       varint_bytes v = varint_form t v ∧ varint_size v = 2 ^ t ∧
       (0 < t → 64 * 256 ^ (2 ^ (t - 1) - 1) <= v).
Proof.
  unfold varint_bytes, varint_size, VARINT_MAX, MAX_IN_1_BYTE, MAX_IN_2_BYTES, MAX_IN_4_BYTES.
  intros Hv. repeat case_test.
  - exists 0. change (64 * 256 ^ (2 ^ 0 - 1)) with 64. repeat split; lia.
  - exists 1. change (64 * 256 ^ (2 ^ 1 - 1)) with 0x4000. change (64 * 256 ^ (2 ^ (1 - 1) - 1)) with 64. repeat split; lia.
  - exists 2. change (64 * 256 ^ (2 ^ 2 - 1)) with 0x40000000. change (64 * 256 ^ (2 ^ (2 - 1) - 1)) with 0x4000. repeat split; lia.
  - exists 3. change (64 * 256 ^ (2 ^ 3 - 1)) with (2 ^ 62). change (64 * 256 ^ (2 ^ (3 - 1) - 1)) with 0x40000000. repeat split; lia.
Qed.

Lemma encode_varint_ok v : 0 <= v <= VARINT_MAX → encode_varint v = Ok (varint_bytes v).
Proof.
  unfold encode_varint, varint_bytes, varint_form, VARINT_MAX, MAX_IN_1_BYTE, MAX_IN_2_BYTES, MAX_IN_4_BYTES.
  intros Hv. destruct (negb _) eqn:E.
  { apply negb_true_iff, andb_false_iff in E as [E|E]; bool_cases; lia. }
  repeat case_test.
  - rewrite Z.mul_0_l, Z.add_0_r. apply (to_bytes_ok 1).
    change (256 ^ Z.of_nat 1) with 256. lia.
  - rewrite (lor_add_high v 1 14 ltac:(lia) ltac:(lia) : Z.lor v 0x4000 = v + 0x4000). apply (to_bytes_ok 2).
    change (256 ^ Z.of_nat 2) with 0x10000. lia.
  - rewrite (lor_add_high v 2 30 ltac:(lia) ltac:(lia) : Z.lor v 0x80000000 = v + 0x80000000). apply (to_bytes_ok 4).
    change (256 ^ Z.of_nat 4) with 0x100000000. lia.
  - rewrite (lor_add_high v 3 62 ltac:(lia) ltac:(lia) : Z.lor v 0xC000000000000000 = v + 0xC000000000000000). apply (to_bytes_ok 8).
    change (256 ^ Z.of_nat 8) with 0x10000000000000000. lia.
Qed.
#[export] Hint Resolve encode_varint_ok : wire.

Lemma encode_varint_inv v bs : encode_varint v = Ok bs → 0 <= v <= VARINT_MAX ∧ bs = varint_bytes v.
Proof.
  intros H. assert (0 <= v <= VARINT_MAX).
  { unfold encode_varint in H. destruct (negb _) eqn:E; [done|]. bool_cases. lia. }
  split; [done|]. rewrite encode_varint_ok in H by done. by simplify_eq.
Qed.

Lemma len_varint_bytes v : 0 <= v <= VARINT_MAX → len (varint_bytes v) = varint_size v.
Proof.
  intros (t & Ht & _ & -> & -> & _)%varint_bytes_form. unfold varint_form. rewrite len_be_bytes.
  assert (0 < 2 ^ t) by (apply Z.pow_pos_nonneg; lia). lia.
Qed.

Lemma varint_size_pos v : 1 <= varint_size v <= 8.
Proof. unfold varint_size. repeat case_test; lia. Qed.

Lemma pull_varint_app pre rest v :
  0 <= v <= VARINT_MAX →
  pull_varint (mkbuf pre (varint_bytes v ++ rest)) = (Ok v, mkbuf (pre ++ varint_bytes v) rest).
Proof. intros (t & Ht & Hv & -> & _ & _)%varint_bytes_form. by apply pull_varint_form_app. Qed.

(** ** The reader logic *)

Lemma reads_ret {A} E (Q : A → Z → Prop) a : Q a 0 → reads (mret a) E Q.
Proof. intros H pre rest. exists [], rest. by rewrite app_nil_r. Qed.

Lemma reads_raise {A} (E : exn → Prop) e (Q : A → Z → Prop) : E e → reads (raise e) E Q.
Proof. intros H pre rest. exists [], rest. by rewrite app_nil_r. Qed.

Lemma reads_bind {A B} (p : M Buffer A) (k : A → M Buffer B) E Q R :
  reads p E Q → (∀ a n, 0 <= n → Q a n → reads (k a) E (λ b m, R b (n + m))) → reads (p ≫= k) E R.
Proof.
  intros Hp Hk pre rest. destruct (Hp pre rest) as (bs & rest' & -> & Hb & Hr).
  destruct (p (mkbuf pre (bs ++ rest'))) as [[a|e] b'] eqn:Ep; cbn in *.
  - erewrite M_bind_ok by exact Ep. rewrite Hb.
    destruct (Hk a (len bs) (len_nonneg bs) Hr (pre ++ bs) rest') as (bs2 & rest2 & -> & Hb2 & Hr2).
    exists (bs ++ bs2), rest2. rewrite <- !app_assoc in *. split; [done|]. split; [done|].
    destruct (k a _).1; [|done]. by rewrite len_app.
  - erewrite M_bind_raise by exact Ep. exists bs, rest'. by rewrite Hb.
Qed.

Lemma reads_weaken {A} (p : M Buffer A) (E E' : exn → Prop) (Q Q' : A → Z → Prop) :
  reads p E Q → (∀ e, E e → E' e) → (∀ a n, 0 <= n → Q a n → Q' a n) → reads p E' Q'.
Proof.
  intros Hp HE HQ pre rest. destruct (Hp pre rest) as (bs & rest' & -> & Hb & Hr).
  exists bs, rest'. split; [done|]. split; [done|]. destruct (p _).1; [|by apply HE].
  apply HQ; [apply len_nonneg | done].
Qed.

(** What a triple says of one run. *)
Lemma reads_ok {A} (p : M Buffer A) E Q pre rest a b :
  reads p E Q → p (mkbuf pre rest) = (Ok a, b) →
  ∃ bs rest', rest = bs ++ rest' ∧ b = mkbuf (pre ++ bs) rest' ∧ Q a (len bs).
Proof.
  intros Hp Ep. destruct (Hp pre rest) as (bs & rest' & -> & Hb & Hr). rewrite Ep in *. cbn in *.
  exists bs, rest'. tauto.
Qed.

Lemma reads_raised {A} (p : M Buffer A) E Q pre rest e b :
  reads p E Q → p (mkbuf pre rest) = (Raise e, b) → E e.
Proof. intros Hp Ep. destruct (Hp pre rest) as (bs & rest' & -> & Hb & Hr). by rewrite Ep in Hr. Qed.

Section reads_primitives.
Context (E : exn → Prop) (HE : ∀ e, short_read e → E e).

Lemma reads_pull_bytes k : 0 <= k → reads (pull_bytes k) E (λ l n, len l = k ∧ n = k).
Proof.
  intros Hn pre rest. destruct (pull_bytes_cases pre rest k Hn) as [(bs & rest' & -> & Hl & ->)|[_ [msg ->]]].
  - exists bs, rest'. by cbn.
  - exists [], rest. rewrite app_nil_r. cbn. repeat split. by apply HE.
Qed.

Lemma reads_pull_uint8 : reads pull_uint8 E (λ v n, 0 <= v < 256 ∧ n = 1).
Proof.
  intros pre [|x rest].
  - destruct (pull_uint8_nil pre) as [msg ->]. exists [], []. rewrite (app_nil_r pre). cbn. repeat split. by apply HE.
  - rewrite pull_uint8_cons. exists [x], rest. cbn. repeat split; apply Zb_range.
Qed.

Lemma reads_pull_be k :
  reads (l ← pull_bytes (Z.of_nat k); mret (from_bytes l)) E (λ v n, 0 <= v < 256 ^ Z.of_nat k ∧ n = Z.of_nat k).
Proof.
  eapply reads_bind; [apply reads_pull_bytes; lia|]. cbn. intros l n _ [Hl ->]. apply reads_ret.
  split; [|lia]. rewrite <- Hl. apply from_bytes_range.
Qed.

Lemma reads_pull_uint16 : reads pull_uint16 E (λ v n, 0 <= v < 2 ^ 16 ∧ n = 2).
Proof. exact (reads_pull_be 2). Qed.
Lemma reads_pull_uint24 : reads pull_uint24 E (λ v n, 0 <= v < 2 ^ 24 ∧ n = 3).
Proof. exact (reads_pull_be 3). Qed.
Lemma reads_pull_uint32 : reads pull_uint32 E (λ v n, 0 <= v < 2 ^ 32 ∧ n = 4).
Proof. exact (reads_pull_be 4). Qed.

Lemma reads_pull_varint : reads pull_varint E (λ v n, 0 <= v <= VARINT_MAX ∧ 1 <= n <= 8).
Proof.
  eapply reads_bind; [apply reads_pull_uint8|]. cbn. intros x n1 _ [Hx ->].
  rewrite Z.shiftr_div_pow2 by lia. change (2 ^ 6) with 64. rewrite Z.shiftl_1_l.
  assert (Ht : 0 <= x / 64 < 4) by (split; [apply Z.div_pos | apply Z.div_lt_upper_bound]; lia).
  assert (0 < 2 ^ (x / 64) <= 8).
  { split; [apply Z.pow_pos_nonneg; lia|]. change 8 with (2 ^ 3). apply Z.pow_le_mono_r; lia. }
  eapply reads_bind; [apply reads_pull_bytes; lia|].
  cbn. intros l n _ [Hl ->]. apply reads_ret. rewrite fold_varint_acc, (land_ones_mod _ 6) by done.
  change (2 ^ 6) with 64. pose proof (Z.mod_pos_bound x 64 ltac:(lia)). pose proof (from_bytes_range l).
  assert (0 < 256 ^ len l <= 256 ^ 7).
  { split; [apply Z.pow_pos_nonneg; [lia|apply len_nonneg]|]. apply Z.pow_le_mono_r; lia. }
  unfold VARINT_MAX. change (2 ^ 62 - 1) with (64 * 256 ^ 7 - 1). split; nia.
Qed.
End reads_primitives.

(** Apply the triple of the next primitive of a bind; the [E] side condition
    is [short_read e → E e]. *)
Ltac reads_prim :=
  first [ apply reads_pull_varint | apply reads_pull_uint8 | apply reads_pull_uint16
        | apply reads_pull_uint24 | apply reads_pull_uint32
        | apply reads_pull_bytes; [|lia] ]; [try by intros []].
Ltac reads_step :=
  eapply reads_bind; [reads_prim|]; cbn beta;
  let a := fresh "v" in let n := fresh "n" in let H := fresh "H" in
  intros a n ? H; destruct_and? H.

(** Every successful varint read, spelled out: it consumed [2^t] bytes for
    some [t] below 4 and its value fits the remaining bits. *)
Lemma pull_varint_consumed pre rest v b :
  pull_varint (mkbuf pre rest) = (Ok v, b) →
  ∃ t bs rest', 0 <= t < 4 ∧ rest = bs ++ rest' ∧ len bs = 2 ^ t ∧
    0 <= v < 64 * 256 ^ (2 ^ t - 1) ∧ b = mkbuf (pre ++ bs) rest'.
Proof.
  destruct rest as [|x rest].
  { destruct (pull_uint8_nil pre) as [msg E]. unfold pull_varint. by erewrite M_bind_raise by exact E. }
  intros H. pose proof (Zb_range x). set (t := Zb x / 64).
  assert (Ht : 0 <= t < 4) by (split; [apply Z.div_pos | apply Z.div_lt_upper_bound]; lia).
  assert (Hp : 0 < 2 ^ t) by (apply Z.pow_pos_nonneg; lia).
  destruct (pull_bytes_cases (pre ++ [x]) rest (2 ^ t - 1) ltac:(lia)) as [(ys & rest' & -> & Hl & _)|[_ [msg E]]].
  - rewrite pull_varint_form in H by done. simplify_eq. exists t, (x :: ys), rest'.
    rewrite len_cons, Hl. split; [done|]. split; [done|]. split; [lia|]. split; [|done].
    pose proof (from_bytes_range ys) as Hr. rewrite Hl in Hr.
    pose proof (Z.mod_pos_bound (Zb x) 64 ltac:(lia)). nia.
  - exfalso. unfold pull_varint in H. erewrite M_bind_ok in H by apply pull_uint8_cons.
    rewrite Z.shiftr_div_pow2, Z.shiftl_1_l in H by lia. change (2 ^ 6) with 64 in H. fold t in H.
    by erewrite M_bind_raise in H by exact E.
Qed.

Lemma varint_size_minimal v t :
  0 <= t < 4 → 0 <= v < 64 * 256 ^ (2 ^ t - 1) → varint_size v <= 2 ^ t.
Proof.
  intros Ht Hv. unfold varint_size, MAX_IN_1_BYTE, MAX_IN_2_BYTES, MAX_IN_4_BYTES.
  assert (t = 0 ∨ t = 1 ∨ t = 2 ∨ t = 3) as [->|[->|[->| ->]]] by lia.
  - change (64 * 256 ^ (2 ^ 0 - 1)) with 64 in Hv. repeat case_test; lia.
  - change (64 * 256 ^ (2 ^ 1 - 1)) with 0x4000 in Hv. repeat case_test; lia.
  - change (64 * 256 ^ (2 ^ 2 - 1)) with 0x40000000 in Hv. repeat case_test; lia.
  - repeat case_test; lia.
Qed.

(** ** Properties *)

(** Every integer a varint can carry encodes, and the reader gets it
    back from the front of any buffer, stopping exactly at its last byte. *)
Theorem varint_roundtrip pre rest v (Hv : 0 <= v <= VARINT_MAX) :
  ∃ bs, encode_varint v = Ok bs ∧
        pull_varint (mkbuf pre (bs ++ rest)) = (Ok v, mkbuf (pre ++ bs) rest).
Proof. exists (varint_bytes v). auto using encode_varint_ok, pull_varint_app. Qed.

Lemma varint_roundtrip_witness :
  ∃ bs, encode_varint 15293 = Ok bs ∧
        pull_varint (mkbuf [] (bs ++ [x2a])) = (Ok 15293, mkbuf ([] ++ bs) [x2a]).
Proof. apply (varint_roundtrip [] [x2a] 15293). by vm_compute. Defined.

(** [encode_varint] emits the shortest form: whatever bytes the reader
    accepted as [v], the encoder's output for [v] is no longer, and the
    encoder succeeds on every value a reader can return. *)
Theorem encode_varint_shortest pre bs rest v
  (H : pull_varint (mkbuf pre (bs ++ rest)) = (Ok v, mkbuf (pre ++ bs) rest)) :
  ∃ enc, encode_varint v = Ok enc ∧ len enc <= len bs.
Proof.
  pose proof (reads_ok _ _ _ _ _ _ _ (reads_pull_varint short_read (λ _ H, H)) H) as (_ & _ & _ & _ & Hv & _).
  exists (varint_bytes v). split; [by apply encode_varint_ok|].
  apply pull_varint_consumed in H as (t & bs' & rest' & Ht & Happ & Hl & Hb & Heq).
  rewrite len_varint_bytes by done. apply (f_equal _position) in Heq. cbn in Heq.
  rewrite !len_app in Heq. pose proof (varint_size_minimal v t Ht Hb). lia.
Qed.

Lemma encode_varint_shortest_witness :
  ∃ enc, encode_varint 37 = Ok enc ∧ len enc <= len [x40; x25].
Proof. apply (encode_varint_shortest [] [x40; x25] [] 37). reflexivity. Defined.
