(* ===== verification/Frames.v ===== *)
(** * Frames (frames.py)

    The 21 frame classes of [src/dsquic/frames.py] (RFC 9000 section 19 and
    RFC 9221), their [encode] methods, the per-type parsers, the dispatch
    table [_FRAME_PARSERS] and [parse_frames].  Classes with several fields
    are records, [Frame] is the tagged union of the module.  Encoders are
    fallible ([encode_varint] and [bytes([n])] raise); parsers run in the
    reader monad of [Buffer].  The loops of [_parse_padding], [_parse_ack]
    and [parse_frames] take fuel that bounds the bytes left to read: every
    round consumes at least one, so the fuel given is never exhausted. *)

From S2P Require Import Prelude Buffer.

(** ** Constants *)

Definition PADDING_TYPE : Z := 0x00.
Definition PING_TYPE : Z := 0x01.
Definition ACK_TYPE : Z := 0x02.
Definition ACK_ECN_TYPE : Z := 0x03.
Definition RESET_STREAM_TYPE : Z := 0x04.
Definition STOP_SENDING_TYPE : Z := 0x05.
Definition CRYPTO_TYPE : Z := 0x06.
Definition NEW_TOKEN_TYPE : Z := 0x07.
Definition STREAM_TYPE_BASE : Z := 0x08.
Definition STREAM_OFF_BIT : Z := 0x04.
Definition STREAM_LEN_BIT : Z := 0x02.
Definition STREAM_FIN_BIT : Z := 0x01.
Definition MAX_DATA_TYPE : Z := 0x10.
Definition MAX_STREAM_DATA_TYPE : Z := 0x11.
Definition MAX_STREAMS_BIDI_TYPE : Z := 0x12.
Definition MAX_STREAMS_UNI_TYPE : Z := 0x13.
Definition DATA_BLOCKED_TYPE : Z := 0x14.
Definition STREAM_DATA_BLOCKED_TYPE : Z := 0x15.
Definition STREAMS_BLOCKED_BIDI_TYPE : Z := 0x16.
Definition STREAMS_BLOCKED_UNI_TYPE : Z := 0x17.
Definition NEW_CONNECTION_ID_TYPE : Z := 0x18.
Definition RETIRE_CONNECTION_ID_TYPE : Z := 0x19.
Definition PATH_CHALLENGE_TYPE : Z := 0x1A.
Definition PATH_RESPONSE_TYPE : Z := 0x1B.
Definition CONNECTION_CLOSE_TRANSPORT_TYPE : Z := 0x1C.
Definition CONNECTION_CLOSE_APP_TYPE : Z := 0x1D.
Definition HANDSHAKE_DONE_TYPE : Z := 0x1E.
Definition DATAGRAM_TYPE : Z := 0x30.
Definition DATAGRAM_LEN_TYPE : Z := 0x31.

(** Transport error codes (RFC 9000 section 20.1). *)
Definition NO_ERROR : Z := 0x00.
Definition INTERNAL_ERROR : Z := 0x01.
Definition CONNECTION_REFUSED : Z := 0x02.
Definition FLOW_CONTROL_ERROR : Z := 0x03.
Definition STREAM_LIMIT_ERROR : Z := 0x04.
Definition STREAM_STATE_ERROR : Z := 0x05.
Definition FINAL_SIZE_ERROR : Z := 0x06.
Definition FRAME_ENCODING_ERROR : Z := 0x07.
Definition TRANSPORT_PARAMETER_ERROR : Z := 0x08.
Definition PROTOCOL_VIOLATION : Z := 0x0A.
Definition CRYPTO_BUFFER_EXCEEDED : Z := 0x0D.
Definition KEY_UPDATE_ERROR : Z := 0x0E.
Definition AEAD_LIMIT_REACHED : Z := 0x0F.
Definition CRYPTO_ERROR_BASE : Z := 0x100.

(** ** Frame data *)

Record EcnCounts : Type := mkEcnCounts { ect0 : Z; ect1 : Z; ce : Z }.

Record Ack : Type := mkAck {
  ack_largest : Z;
  ack_delay : Z;
  ack_ranges : list (Z * Z);  (* inclusive (low, high), highest first *)
  ack_ecn : option EcnCounts }.

Record ResetStream : Type := mkResetStream {
  rst_stream_id : Z; rst_error_code : Z; rst_final_size : Z }.

Record Crypto : Type := mkCrypto { cr_offset : Z; cr_data : bytes }.

Record Stream : Type := mkStream {
  st_id : Z; st_offset : Z; st_data : bytes; st_fin : bool }.

Record NewConnectionId : Type := mkNewConnectionId {
  nci_sequence : Z; nci_retire_prior_to : Z; nci_connection_id : bytes; nci_reset_token : bytes }.

(** [cc_frame_type = None] is the application variant (0x1d). *)
Record ConnectionClose : Type := mkConnectionClose {
  cc_error_code : Z; cc_reason : bytes; cc_frame_type : option Z }.

Inductive Frame : Type :=
| FPadding (length : Z)
| FPing
| FAck (a : Ack)
| FResetStream (r : ResetStream)
| FStopSending (stream_id error_code : Z)
| FCrypto (c : Crypto)
| FNewToken (token : bytes)
| FStream (s : Stream)
| FMaxData (maximum : Z)
| FMaxStreamData (stream_id maximum : Z)
| FMaxStreams (maximum : Z) (bidirectional : bool)
| FDataBlocked (limit : Z)
| FStreamDataBlocked (stream_id limit : Z)
| FStreamsBlocked (limit : Z) (bidirectional : bool)
| FNewConnectionId (n : NewConnectionId)
| FRetireConnectionId (sequence : Z)
| FPathChallenge (data : bytes)
| FPathResponse (data : bytes)
| FConnectionClose (c : ConnectionClose)
| FHandshakeDone
| FDatagram (data : bytes).

(** ** Encoding *)

(** A run of varints, and a length-prefixed byte string. *)
Fixpoint encode_varints (vs : list Z) : result bytes :=
  match vs with
  | [] => Ok []
  | v :: vs' => a ← encode_varint v; b ← encode_varints vs'; Ok (a ++ b)
  end.

Definition with_length (data : bytes) : result bytes :=
  n ← encode_varint (len data); Ok (n ++ data).

(** The range loop of [Ack.encode], with [previous_low] threaded. *)
Fixpoint encode_ack_ranges (previous_low : Z) (ranges : list (Z * Z)) : result bytes :=
  match ranges with
  | [] => Ok []
  | (low, high) :: ranges' =>
      gap ← encode_varint (previous_low - high - 2);
      length ← encode_varint (high - low);
      rest ← encode_ack_ranges low ranges';
      Ok (gap ++ length ++ rest)
  end.

Definition Ack_encode (a : Ack) : result bytes :=
  match ack_ranges a with
  | [] => Raise IndexError
  | (first_low, first_high) :: ranges =>
      if negb (first_high =? ack_largest a) then
        Raise (ValueError "first range must end at the largest acknowledged")
      else
        head ← encode_varints [if ack_ecn a is Some _ then ACK_ECN_TYPE else ACK_TYPE;
                               ack_largest a; ack_delay a; len (ack_ranges a) - 1;
                               first_high - first_low];
        tail ← encode_ack_ranges first_low ranges;
        ecn ← match ack_ecn a with
              | Some e => encode_varints [ect0 e; ect1 e; ce e]
              | None => Ok []
              end;
        Ok (head ++ tail ++ ecn)
  end.

Definition Stream_encode (s : Stream) : result bytes :=
  let frame_type := Z.lor STREAM_TYPE_BASE STREAM_LEN_BIT in
  let frame_type := if negb (st_offset s =? 0) then Z.lor frame_type STREAM_OFF_BIT else frame_type in
  let frame_type := if st_fin s then Z.lor frame_type STREAM_FIN_BIT else frame_type in
  head ← encode_varints [frame_type; st_id s];
  off ← (if negb (st_offset s =? 0) then encode_varint (st_offset s) else Ok []);
  body ← with_length (st_data s);
  Ok (head ++ off ++ body).

Definition Crypto_encode (c : Crypto) : result bytes :=
  head ← encode_varints [CRYPTO_TYPE; cr_offset c];
  body ← with_length (cr_data c);
  Ok (head ++ body).

Definition NewConnectionId_encode (n : NewConnectionId) : result bytes :=
  head ← encode_varints [NEW_CONNECTION_ID_TYPE; nci_sequence n; nci_retire_prior_to n];
  l ← byte_literal (len (nci_connection_id n));
  Ok (head ++ l ++ nci_connection_id n ++ nci_reset_token n).

Definition ConnectionClose_encode (c : ConnectionClose) : result bytes :=
  head ← match cc_frame_type c with
         | None => encode_varints [CONNECTION_CLOSE_APP_TYPE; cc_error_code c]
         | Some t => encode_varints [CONNECTION_CLOSE_TRANSPORT_TYPE; cc_error_code c; t]
         end;
  body ← with_length (cc_reason c);
  Ok (head ++ body).

Definition Padding_encode (length : Z) : result bytes :=
  if length <? 0 then Raise (ValueError "negative count") else Ok (zeros length).
Definition Ping_encode : result bytes := byte_literal PING_TYPE.
Definition ResetStream_encode (r : ResetStream) : result bytes :=
  encode_varints [RESET_STREAM_TYPE; rst_stream_id r; rst_error_code r; rst_final_size r].
Definition StopSending_encode (stream_id error_code : Z) : result bytes :=
  encode_varints [STOP_SENDING_TYPE; stream_id; error_code].
Definition NewToken_encode (token : bytes) : result bytes :=
  t ← encode_varint NEW_TOKEN_TYPE; body ← with_length token; Ok (t ++ body).
Definition MaxData_encode (maximum : Z) : result bytes := encode_varints [MAX_DATA_TYPE; maximum].
Definition MaxStreamData_encode (stream_id maximum : Z) : result bytes :=
  encode_varints [MAX_STREAM_DATA_TYPE; stream_id; maximum].
Definition MaxStreams_encode (maximum : Z) (bidirectional : bool) : result bytes :=
  encode_varints [if bidirectional then MAX_STREAMS_BIDI_TYPE else MAX_STREAMS_UNI_TYPE; maximum].
Definition DataBlocked_encode (limit : Z) : result bytes := encode_varints [DATA_BLOCKED_TYPE; limit].
Definition StreamDataBlocked_encode (stream_id limit : Z) : result bytes :=
  encode_varints [STREAM_DATA_BLOCKED_TYPE; stream_id; limit].
Definition StreamsBlocked_encode (limit : Z) (bidirectional : bool) : result bytes :=
  encode_varints [if bidirectional then STREAMS_BLOCKED_BIDI_TYPE else STREAMS_BLOCKED_UNI_TYPE; limit].
Definition RetireConnectionId_encode (sequence : Z) : result bytes :=
  encode_varints [RETIRE_CONNECTION_ID_TYPE; sequence].
Definition PathChallenge_encode (data : bytes) : result bytes :=
  t ← encode_varint PATH_CHALLENGE_TYPE; Ok (t ++ data).
Definition PathResponse_encode (data : bytes) : result bytes :=
  t ← encode_varint PATH_RESPONSE_TYPE; Ok (t ++ data).
Definition HandshakeDone_encode : result bytes := encode_varint HANDSHAKE_DONE_TYPE.
Definition Datagram_encode (data : bytes) : result bytes :=
  t ← encode_varint DATAGRAM_LEN_TYPE; body ← with_length data; Ok (t ++ body).

(** [frame.encode()], dispatched on the class. *)
Definition encode (f : Frame) : result bytes :=
  match f with
  | FPadding length => Padding_encode length
  | FPing => Ping_encode
  | FAck a => Ack_encode a
  | FResetStream r => ResetStream_encode r
  | FStopSending stream_id error_code => StopSending_encode stream_id error_code
  | FCrypto c => Crypto_encode c
  | FNewToken token => NewToken_encode token
  | FStream s => Stream_encode s
  | FMaxData maximum => MaxData_encode maximum
  | FMaxStreamData stream_id maximum => MaxStreamData_encode stream_id maximum
  | FMaxStreams maximum bidirectional => MaxStreams_encode maximum bidirectional
  | FDataBlocked limit => DataBlocked_encode limit
  | FStreamDataBlocked stream_id limit => StreamDataBlocked_encode stream_id limit
  | FStreamsBlocked limit bidirectional => StreamsBlocked_encode limit bidirectional
  | FNewConnectionId n => NewConnectionId_encode n
  | FRetireConnectionId sequence => RetireConnectionId_encode sequence
  | FPathChallenge data => PathChallenge_encode data
  | FPathResponse data => PathResponse_encode data
  | FConnectionClose c => ConnectionClose_encode c
  | FHandshakeDone => HandshakeDone_encode
  | FDatagram data => Datagram_encode data
  end.

(** RFC 9000 section 13.2. *)
Definition is_ack_eliciting (f : Frame) : bool :=
  match f with
  | FAck _ | FPadding _ | FConnectionClose _ => false
  | _ => true
  end.

(** ** Parsing *)

Fixpoint padding_loop (fuel : nat) (length : Z) : M Buffer Z :=
  match fuel with
  | O => raise OutOfFuel
  | S fuel' =>
      b ← get;
      if is_empty b then mret length
      else
        next ← peek_uint8;
        if next =? PADDING_TYPE then _ ← pull_uint8; padding_loop fuel' (length + 1)
        else mret length
  end.

(** Fuel for a loop that reads at least one byte a round. *)
Definition read_fuel (b : Buffer) : nat := S (Z.to_nat (remaining b)).

Definition parse_padding (_frame_type : Z) : M Buffer Frame :=
  b ← get;
  length ← padding_loop (read_fuel b) 1;
  mret (FPadding length).

Definition parse_ping (_frame_type : Z) : M Buffer Frame := mret FPing.

Definition ack_below_zero : exn := FrameParseError "ACK range extends below packet number 0".

(** The [for _ in range(range_count)] loop; ranges are appended, so they are
    returned in wire order. *)
Fixpoint ack_ranges_loop (fuel : nat) (count low : Z) : M Buffer (list (Z * Z)) :=
  if count <=? 0 then mret []
  else match fuel with
  | O => raise OutOfFuel
  | S fuel' =>
      gap ← pull_varint;
      length ← pull_varint;
      let high := low - gap - 2 in
      let low := high - length in
      if low <? 0 then raise ack_below_zero
      else rest ← ack_ranges_loop fuel' (count - 1) low; mret ((low, high) :: rest)
  end.

Definition ack_ranges_from (count low : Z) : M Buffer (list (Z * Z)) :=
  b ← get; ack_ranges_loop (read_fuel b) count low.

Definition parse_ack (frame_type : Z) : M Buffer Frame :=
  largest ← pull_varint;
  delay ← pull_varint;
  range_count ← pull_varint;
  first_range ← pull_varint;
  let low := largest - first_range in
  if low <? 0 then raise ack_below_zero
  else
    rest ← ack_ranges_from range_count low;
    let ranges := (low, largest) :: rest in
    if frame_type =? ACK_ECN_TYPE then
      e0 ← pull_varint; e1 ← pull_varint; c ← pull_varint;
      mret (FAck (mkAck largest delay ranges (Some (mkEcnCounts e0 e1 c))))
    else mret (FAck (mkAck largest delay ranges None)).

Definition parse_reset_stream (_frame_type : Z) : M Buffer Frame :=
  stream_id ← pull_varint; error_code ← pull_varint; final_size ← pull_varint;
  mret (FResetStream (mkResetStream stream_id error_code final_size)).

Definition parse_stop_sending (_frame_type : Z) : M Buffer Frame :=
  stream_id ← pull_varint; error_code ← pull_varint; mret (FStopSending stream_id error_code).

(** [buf.pull_bytes(buf.pull_varint())]. *)
Definition pull_with_length : M Buffer bytes := n ← pull_varint; pull_bytes n.

(** [buf.pull_bytes(buf.remaining)]. *)
Definition pull_rest : M Buffer bytes := b ← get; pull_bytes (remaining b).

Definition parse_crypto (_frame_type : Z) : M Buffer Frame :=
  offset ← pull_varint; data ← pull_with_length; mret (FCrypto (mkCrypto offset data)).

Definition parse_new_token (_frame_type : Z) : M Buffer Frame :=
  token ← pull_with_length; mret (FNewToken token).

Definition parse_stream (frame_type : Z) : M Buffer Frame :=
  stream_id ← pull_varint;
  offset ← (if negb (Z.land frame_type STREAM_OFF_BIT =? 0) then pull_varint else mret 0);
  data ← (if negb (Z.land frame_type STREAM_LEN_BIT =? 0) then pull_with_length else pull_rest);
  let fin := negb (Z.land frame_type STREAM_FIN_BIT =? 0) in
  mret (FStream (mkStream stream_id offset data fin)).

Definition parse_max_data (_frame_type : Z) : M Buffer Frame :=
  maximum ← pull_varint; mret (FMaxData maximum).

Definition parse_max_stream_data (_frame_type : Z) : M Buffer Frame :=
  stream_id ← pull_varint; maximum ← pull_varint; mret (FMaxStreamData stream_id maximum).

Definition parse_max_streams (frame_type : Z) : M Buffer Frame :=
  maximum ← pull_varint; mret (FMaxStreams maximum (frame_type =? MAX_STREAMS_BIDI_TYPE)).

Definition parse_data_blocked (_frame_type : Z) : M Buffer Frame :=
  limit ← pull_varint; mret (FDataBlocked limit).

Definition parse_stream_data_blocked (_frame_type : Z) : M Buffer Frame :=
  stream_id ← pull_varint; limit ← pull_varint; mret (FStreamDataBlocked stream_id limit).

Definition parse_streams_blocked (frame_type : Z) : M Buffer Frame :=
  limit ← pull_varint; mret (FStreamsBlocked limit (frame_type =? STREAMS_BLOCKED_BIDI_TYPE)).

Definition parse_new_connection_id (_frame_type : Z) : M Buffer Frame :=
  sequence ← pull_varint;
  retire_prior_to ← pull_varint;
  n ← pull_uint8;
  connection_id ← pull_bytes n;
  reset_token ← pull_bytes 16;
  mret (FNewConnectionId (mkNewConnectionId sequence retire_prior_to connection_id reset_token)).

Definition parse_retire_connection_id (_frame_type : Z) : M Buffer Frame :=
  sequence ← pull_varint; mret (FRetireConnectionId sequence).

Definition parse_path_challenge (_frame_type : Z) : M Buffer Frame :=
  data ← pull_bytes 8; mret (FPathChallenge data).

Definition parse_path_response (_frame_type : Z) : M Buffer Frame :=
  data ← pull_bytes 8; mret (FPathResponse data).

Definition parse_connection_close (frame_type : Z) : M Buffer Frame :=
  error_code ← pull_varint;
  closing ← (if frame_type =? CONNECTION_CLOSE_TRANSPORT_TYPE
             then t ← pull_varint; mret (Some t) else mret None);
  reason ← pull_with_length;
  mret (FConnectionClose (mkConnectionClose error_code reason closing)).

Definition parse_handshake_done (_frame_type : Z) : M Buffer Frame := mret FHandshakeDone.

Definition parse_datagram (frame_type : Z) : M Buffer Frame :=
  if frame_type =? DATAGRAM_LEN_TYPE then data ← pull_with_length; mret (FDatagram data)
  else data ← pull_rest; mret (FDatagram data).

(** The dispatch table: each listed type value and its parser, in the
    table's order. *)
Definition FRAME_PARSERS : list (Z * (Z → M Buffer Frame)) :=
  [(PADDING_TYPE, parse_padding); (PING_TYPE, parse_ping);
   (ACK_TYPE, parse_ack); (ACK_ECN_TYPE, parse_ack);
   (RESET_STREAM_TYPE, parse_reset_stream); (STOP_SENDING_TYPE, parse_stop_sending);
   (CRYPTO_TYPE, parse_crypto); (NEW_TOKEN_TYPE, parse_new_token)] ++
  ((λ flags, (Z.lor STREAM_TYPE_BASE flags, parse_stream)) <$> [0; 1; 2; 3; 4; 5; 6; 7]) ++
  [(MAX_DATA_TYPE, parse_max_data); (MAX_STREAM_DATA_TYPE, parse_max_stream_data);
   (MAX_STREAMS_BIDI_TYPE, parse_max_streams); (MAX_STREAMS_UNI_TYPE, parse_max_streams);
   (DATA_BLOCKED_TYPE, parse_data_blocked);
   (STREAM_DATA_BLOCKED_TYPE, parse_stream_data_blocked);
   (STREAMS_BLOCKED_BIDI_TYPE, parse_streams_blocked);
   (STREAMS_BLOCKED_UNI_TYPE, parse_streams_blocked);
   (NEW_CONNECTION_ID_TYPE, parse_new_connection_id);
   (RETIRE_CONNECTION_ID_TYPE, parse_retire_connection_id);
   (PATH_CHALLENGE_TYPE, parse_path_challenge); (PATH_RESPONSE_TYPE, parse_path_response);
   (CONNECTION_CLOSE_TRANSPORT_TYPE, parse_connection_close);
   (CONNECTION_CLOSE_APP_TYPE, parse_connection_close);
   (HANDSHAKE_DONE_TYPE, parse_handshake_done);
   (DATAGRAM_TYPE, parse_datagram); (DATAGRAM_LEN_TYPE, parse_datagram)].

(** One round of the [while] loop: the type, its shortest-form check, the
    table lookup and the frame's parser. *)
Definition parse_one : M Buffer Frame :=
  b ← get;
  let start := position b in
  frame_type ← pull_varint;
  b' ← get;
  shortest ← lift (encode_varint frame_type);
  if negb (position b' - start =? len shortest) then
    raise (FrameParseError ("frame type 0x" +:+ hex frame_type +:+ " not in shortest varint form"))
  else match d_get frame_type FRAME_PARSERS with
  | None => raise (FrameParseError ("unknown frame type 0x" +:+ hex frame_type))
  | Some parser => parser frame_type
  end.

Fixpoint parse_loop (fuel : nat) : M Buffer (list Frame) :=
  b ← get;
  if is_empty b then mret []
  else match fuel with
  | O => raise OutOfFuel
  | S fuel' => frame ← parse_one; frames ← parse_loop fuel'; mret (frame :: frames)
  end.

Definition parse_frames (payload : bytes) : result (list Frame) :=
  match payload with
  | [] => Raise (FrameParseError "packet payload contains no frames")
  | _ => (parse_loop (length payload) (new_buffer payload)).1
  end.
