(* ===== verification/FramesProofs.v ===== *)
(** * Correctness of the frame codec

    The frames a packet can carry ([wf_frame]), the round trip of [encode]
    through [parse_frames], and what [parse_frames] guarantees on arbitrary
    bytes: it returns for every input, yields only well-formed frames, and
    raises only the two exceptions the connection turns into
    FRAME_ENCODING_ERROR. *)

From S2P Require Import Prelude Buffer Frames.

(** ** Well-formed frames *)

Definition varint_ok (v : Z) : Prop := 0 <= v <= VARINT_MAX.

(** Ranges below [low] in wire order: each is non-empty, starts at packet
    number 0 or above, and leaves a gap of at least one packet number below
    the range before it. *)
Fixpoint ack_chain (low : Z) (ranges : list (Z * Z)) : Prop :=
  match ranges with
  | [] => True
  | (l, h) :: ranges' => 0 <= l <= h ∧ h + 2 <= low ∧ ack_chain l ranges'
  end.

Definition wf_ecn (e : EcnCounts) : Prop := varint_ok (ect0 e) ∧ varint_ok (ect1 e) ∧ varint_ok (ce e).

Definition wf_ack (a : Ack) : Prop :=
  varint_ok (ack_largest a) ∧ varint_ok (ack_delay a) ∧ from_option wf_ecn True (ack_ecn a) ∧
  ∃ low rest, ack_ranges a = (low, ack_largest a) :: rest ∧ 0 <= low <= ack_largest a ∧
              ack_chain low rest ∧ len rest <= VARINT_MAX.

Definition wf_frame (f : Frame) : Prop :=
  match f with
  | FPadding n => 1 <= n
  | FPing | FHandshakeDone => True
  | FAck a => wf_ack a
  | FResetStream r => varint_ok (rst_stream_id r) ∧ varint_ok (rst_error_code r) ∧ varint_ok (rst_final_size r)
  | FStopSending i e => varint_ok i ∧ varint_ok e
  | FCrypto c => varint_ok (cr_offset c) ∧ varint_ok (len (cr_data c))
  | FNewToken t => varint_ok (len t)
  | FStream s => varint_ok (st_id s) ∧ varint_ok (st_offset s) ∧ varint_ok (len (st_data s))
  | FMaxData m => varint_ok m
  | FMaxStreamData i m => varint_ok i ∧ varint_ok m
  | FMaxStreams m _ => varint_ok m
  | FDataBlocked l => varint_ok l
  | FStreamDataBlocked i l => varint_ok i ∧ varint_ok l
  | FStreamsBlocked l _ => varint_ok l
  | FNewConnectionId n =>
      varint_ok (nci_sequence n) ∧ varint_ok (nci_retire_prior_to n) ∧
      len (nci_connection_id n) < 256 ∧ len (nci_reset_token n) = 16
  | FRetireConnectionId s => varint_ok s
  | FPathChallenge d | FPathResponse d => len d = 8
  | FConnectionClose c =>
      varint_ok (cc_error_code c) ∧ from_option varint_ok True (cc_frame_type c) ∧ varint_ok (len (cc_reason c))
  | FDatagram d => varint_ok (len d)
  end.

Definition is_padding (f : Frame) : bool := match f with FPadding _ => true | _ => false end.

(** No two PADDING frames in a row: the parser merges contiguous ones. *)
Fixpoint padding_separated (fs : list Frame) : Prop :=
  match fs with
  | f :: ((g :: _) as fs') => (is_padding f && is_padding g = false) ∧ padding_separated fs'
  | _ => True
  end.

(** The exceptions [parse_frames] may raise. *)
Definition frame_error (e : exn) : Prop :=
  match e with BufferReadError _ | FrameParseError _ => True | _ => False end.

(** ** Encoding well-formed frames *)

Lemma encode_varints_ok vs :
  Forall varint_ok vs → encode_varints vs = Ok (concat (varint_bytes <$> vs)).
Proof.
  induction 1 as [|v vs Hv Hvs IH]; [done|]. cbn [encode_varints].
  rewrite encode_varint_ok by exact Hv. cbn. by rewrite IH.
Qed.

Lemma with_length_ok data : varint_ok (len data) → with_length data = Ok (varint_bytes (len data) ++ data).
Proof. intros H. unfold with_length. by rewrite encode_varint_ok. Qed.

(** The bytes of an ACK's range list. *)
Fixpoint ack_ranges_bytes (previous_low : Z) (ranges : list (Z * Z)) : bytes :=
  match ranges with
  | [] => []
  | (low, high) :: ranges' =>
      varint_bytes (previous_low - high - 2) ++ varint_bytes (high - low) ++ ack_ranges_bytes low ranges'
  end.

Lemma ack_gap_ok low prev l h :
  varint_ok prev → low <= prev → 0 <= l <= h → h + 2 <= low → varint_ok (low - h - 2) ∧ varint_ok (h - l) ∧ varint_ok l.
Proof. unfold varint_ok. lia. Qed.

Lemma encode_ack_ranges_ok low ranges :
  varint_ok low → ack_chain low ranges → encode_ack_ranges low ranges = Ok (ack_ranges_bytes low ranges).
Proof.
  revert low. induction ranges as [|[l h] ranges IH]; intros low Hlow; cbn; [done|].
  intros (Hlh & Hgap & Hc). destruct (ack_gap_ok low low l h) as (? & ? & ?); [done..|].
  rewrite !encode_varint_ok by done. cbn. by rewrite IH.
Qed.

(** The bytes of each frame, as terms to rewrite with. *)
Definition stream_type (s : Stream) : Z :=
  0x0A + (if st_offset s =? 0 then 0 else 4) + (if st_fin s then 1 else 0).

Definition frame_type_of (f : Frame) : Z :=
  match f with
  | FPadding _ => PADDING_TYPE
  | FPing => PING_TYPE
  | FAck a => if ack_ecn a is Some _ then ACK_ECN_TYPE else ACK_TYPE
  | FResetStream _ => RESET_STREAM_TYPE
  | FStopSending _ _ => STOP_SENDING_TYPE
  | FCrypto _ => CRYPTO_TYPE
  | FNewToken _ => NEW_TOKEN_TYPE
  | FStream s => stream_type s
  | FMaxData _ => MAX_DATA_TYPE
  | FMaxStreamData _ _ => MAX_STREAM_DATA_TYPE
  | FMaxStreams _ b => if b then MAX_STREAMS_BIDI_TYPE else MAX_STREAMS_UNI_TYPE
  | FDataBlocked _ => DATA_BLOCKED_TYPE
  | FStreamDataBlocked _ _ => STREAM_DATA_BLOCKED_TYPE
  | FStreamsBlocked _ b => if b then STREAMS_BLOCKED_BIDI_TYPE else STREAMS_BLOCKED_UNI_TYPE
  | FNewConnectionId _ => NEW_CONNECTION_ID_TYPE
  | FRetireConnectionId _ => RETIRE_CONNECTION_ID_TYPE
  | FPathChallenge _ => PATH_CHALLENGE_TYPE
  | FPathResponse _ => PATH_RESPONSE_TYPE
  | FConnectionClose c => if cc_frame_type c is Some _ then CONNECTION_CLOSE_TRANSPORT_TYPE else CONNECTION_CLOSE_APP_TYPE
  | FHandshakeDone => HANDSHAKE_DONE_TYPE
  | FDatagram _ => DATAGRAM_LEN_TYPE
  end.

Definition vb := varint_bytes.
Definition lb (d : bytes) : bytes := varint_bytes (len d) ++ d.

Definition frame_body (f : Frame) : bytes :=
  match f with
  | FPadding n => zeros (n - 1)
  | FPing | FHandshakeDone => []
  | FAck a =>
      match ack_ranges a with
      | [] => []
      | (l, h) :: rs =>
          vb (ack_largest a) ++ vb (ack_delay a) ++ vb (len rs) ++ vb (h - l) ++ ack_ranges_bytes l rs ++
          match ack_ecn a with Some e => vb (ect0 e) ++ vb (ect1 e) ++ vb (ce e) | None => [] end
      end
  | FResetStream r => vb (rst_stream_id r) ++ vb (rst_error_code r) ++ vb (rst_final_size r)
  | FStopSending i e => vb i ++ vb e
  | FCrypto c => vb (cr_offset c) ++ lb (cr_data c)
  | FNewToken t => lb t
  | FStream s => vb (st_id s) ++ (if st_offset s =? 0 then [] else vb (st_offset s)) ++ lb (st_data s)
  | FMaxData m => vb m
  | FMaxStreamData i m => vb i ++ vb m
  | FMaxStreams m _ => vb m
  | FDataBlocked l => vb l
  | FStreamDataBlocked i l => vb i ++ vb l
  | FStreamsBlocked l _ => vb l
  | FNewConnectionId n =>
      vb (nci_sequence n) ++ vb (nci_retire_prior_to n) ++ [bZ (len (nci_connection_id n))] ++
      nci_connection_id n ++ nci_reset_token n
  | FRetireConnectionId s => vb s
  | FPathChallenge d | FPathResponse d => d
  | FConnectionClose c =>
      vb (cc_error_code c) ++ match cc_frame_type c with Some t => vb t | None => [] end ++ lb (cc_reason c)
  | FDatagram d => lb d
  end.

Definition frame_bytes (f : Frame) : bytes := vb (frame_type_of f) ++ frame_body f.

(** ** Encoding computes [frame_bytes] *)

#[local] Arguments encode_varints : simpl never.
#[local] Arguments varint_bytes : simpl never.
#[local] Arguments encode_varint : simpl never.
#[local] Arguments with_length : simpl never.
#[local] Arguments byte_literal : simpl never.

Lemma stream_type_lor s :
  (let t := Z.lor STREAM_TYPE_BASE STREAM_LEN_BIT in
   let t := if negb (st_offset s =? 0) then Z.lor t STREAM_OFF_BIT else t in
   if st_fin s then Z.lor t STREAM_FIN_BIT else t) = stream_type s.
Proof. unfold stream_type. by destruct (st_offset s =? 0), (st_fin s). Qed.

Lemma frame_type_small f : 0 <= frame_type_of f < 64.
Proof.
  destruct f; cbn; try (split; [done | reflexivity]).
  - by destruct (ack_ecn a).
  - unfold stream_type. destruct (_ =? _), (st_fin s); lia.
  - by destruct bidirectional.
  - by destruct bidirectional.
  - by destruct (cc_frame_type c).
Qed.

Ltac vok := first [assumption | unfold varint_ok, VARINT_MAX in *; first [done | lia]].

Lemma frame_type_varint f : varint_ok (frame_type_of f).
Proof. pose proof (frame_type_small f). vok. Qed.

Ltac varint_list := repeat apply Forall_cons_2; try apply Forall_nil_2; try vok.
Ltac varints_ok := rewrite encode_varints_ok by varint_list.

Lemma zeros_succ n : 1 <= n → zeros n = x00 :: zeros (n - 1).
Proof. intros. unfold zeros. replace (Z.to_nat n) with (S (Z.to_nat (n - 1))) by lia. done. Qed.

Lemma encode_ack_ok a : wf_ack a → encode (FAck a) = Ok (frame_bytes (FAck a)).
Proof.
  intros (Hl & Hd & He & low & rest & Hr & Hlow & Hc & Hn). unfold frame_bytes. cbn.
  unfold Ack_encode. rewrite Hr. rewrite Z.eqb_refl. cbn [negb].
  replace (len ((low, ack_largest a) :: rest) - 1) with (len rest) by (rewrite len_cons; lia).
  pose proof (len_nonneg rest).
  rewrite encode_varints_ok; [|varint_list; by destruct (ack_ecn a)].
  rewrite result_bind_ok, encode_ack_ranges_ok, result_bind_ok by vok.
  destruct (ack_ecn a) as [e|]; cbn in He.
  - destruct He as (? & ? & ?). varints_ok. cbn. unfold vb. by app_norm.
  - cbn. unfold vb. by app_norm.
Qed.

Ltac unfold_encode :=
  unfold Padding_encode, Ping_encode, ResetStream_encode, StopSending_encode, NewToken_encode, MaxData_encode,
    MaxStreamData_encode, MaxStreams_encode, DataBlocked_encode, StreamDataBlocked_encode, StreamsBlocked_encode,
    RetireConnectionId_encode, PathChallenge_encode, PathResponse_encode, HandshakeDone_encode, Datagram_encode in *.

Lemma encode_ok f : wf_frame f → encode f = Ok (frame_bytes f).
Proof.
  destruct f; intros Hf; try (by apply encode_ack_ok);
    unfold frame_bytes; cbn in *; destruct_and?; unfold vb, lb; unfold_encode;
    try (varints_ok; cbn; by app_norm).
  - rewrite (proj2 (Z.ltb_ge _ _)) by lia. by rewrite zeros_succ.
  - done.
  - unfold Crypto_encode. varints_ok. rewrite with_length_ok by done. cbn. by app_norm.
  - by rewrite with_length_ok.
  - unfold Stream_encode. rewrite stream_type_lor, with_length_ok by done.
    rewrite encode_varints_ok; [|varint_list; exact (frame_type_varint (FStream s))].
    destruct (st_offset s =? 0) eqn:E0; cbn; [by app_norm|].
    rewrite encode_varint_ok by done. cbn. by app_norm.
  - rewrite encode_varints_ok; [|varint_list; by destruct bidirectional].
    cbn. by app_norm.
  - rewrite encode_varints_ok; [|varint_list; by destruct bidirectional].
    cbn. by app_norm.
  - unfold NewConnectionId_encode. varints_ok. pose proof (len_nonneg (nci_connection_id n)).
    rewrite byte_literal_ok by lia. cbn. by app_norm.
  - done.
  - done.
  - unfold ConnectionClose_encode. destruct (cc_frame_type c); varints_ok; cbn;
      rewrite with_length_ok by done; cbn; by app_norm.
  - done.
  - by rewrite with_length_ok.
Qed.

(** ** Parsing what was encoded *)

Ltac rd_varint := erewrite M_bind_ok by (apply pull_varint_app; vok).
Ltac rd_bytes := erewrite M_bind_ok by (apply pull_bytes_app; first [done | lia]).

Lemma pull_with_length_app pre d rest :
  varint_ok (len d) → pull_with_length (mkbuf pre (lb d ++ rest)) = (Ok d, mkbuf (pre ++ lb d) rest).
Proof.
  intros H. unfold pull_with_length, lb. rewrite <- app_assoc. rd_varint.
  rewrite pull_bytes_app by done. by rewrite <- app_assoc.
Qed.
Ltac rd_lb := erewrite M_bind_ok by (apply pull_with_length_app; vok).

Lemma read_fuel_mkbuf pre rest : read_fuel (mkbuf pre rest) = S (length rest).
Proof. unfold read_fuel. by rewrite remaining_mkbuf, Z_to_nat_len. Qed.

Lemma padding_loop_app fuel n pre k rest :
  (k < fuel)%nat → head rest ≠ Some x00 →
  padding_loop fuel n (mkbuf pre (replicate k x00 ++ rest))
  = (Ok (n + Z.of_nat k), mkbuf (pre ++ replicate k x00) rest).
Proof.
  revert n pre k. induction fuel as [|fuel IH]; intros n pre k Hk Hr; [lia|]. cbn [padding_loop].
  erewrite M_bind_ok by done. rewrite is_empty_mkbuf. destruct k as [|k].
  - cbn [replicate app]. rewrite app_nil_r, Z.add_0_r. destruct rest as [|x rest]; [done|].
    rewrite len_cons. rewrite (proj2 (Z.eqb_neq _ _)) by (pose proof (len_nonneg rest); lia).
    erewrite M_bind_ok by apply peek_uint8_cons. destruct (Zb x =? PADDING_TYPE) eqn:E; [|done].
    apply Z.eqb_eq in E. cbn in Hr. by rewrite (Zb_inj x x00) in Hr.
  - cbn [replicate app]. rewrite len_cons.
    rewrite (proj2 (Z.eqb_neq _ _)) by (pose proof (len_nonneg (replicate k x00 ++ rest)); lia).
    erewrite M_bind_ok by apply peek_uint8_cons. change (Zb x00 =? PADDING_TYPE) with true. cbn match.
    erewrite M_bind_ok by apply pull_uint8_cons. rewrite IH by (done || lia).
    rewrite <- app_assoc. by replace (n + 1 + Z.of_nat k) with (n + Z.of_nat (S k)) by lia.
Qed.

Lemma parse_padding_app t pre n rest :
  1 <= n → head rest ≠ Some x00 →
  parse_padding t (mkbuf pre (zeros (n - 1) ++ rest)) = (Ok (FPadding n), mkbuf (pre ++ zeros (n - 1)) rest).
Proof.
  intros Hn Hr. unfold parse_padding, zeros. erewrite M_bind_ok by done. rewrite read_fuel_mkbuf.
  erewrite M_bind_ok by (apply padding_loop_app; [|done]; rewrite length_app, length_replicate; lia).
  unfold mret, M_ret. by replace (1 + Z.of_nat (Z.to_nat (n - 1))) with n by lia.
Qed.

Lemma ack_ranges_loop_app fuel pre low ranges rest :
  varint_ok low → ack_chain low ranges → (length ranges <= fuel)%nat →
  ack_ranges_loop fuel (len ranges) low (mkbuf pre (ack_ranges_bytes low ranges ++ rest))
  = (Ok ranges, mkbuf (pre ++ ack_ranges_bytes low ranges) rest).
Proof.
  revert pre low fuel. induction ranges as [|[l h] ranges IH]; intros pre low fuel Hlow Hc Hf.
  - cbn [ack_ranges_bytes app]. rewrite app_nil_r. by destruct fuel.
  - destruct fuel as [|fuel]; [cbn in Hf; lia|]. destruct Hc as (Hlh & Hgap & Hc).
    destruct (ack_gap_ok low low l h) as (? & ? & ?); [done..|].
    cbn [ack_ranges_loop ack_ranges_bytes]. rewrite len_cons, <- !app_assoc.
    rewrite (proj2 (Z.leb_gt _ _)) by (pose proof (len_nonneg ranges); lia).
    rd_varint. rd_varint.
    replace (low - (low - h - 2) - 2) with h by lia. replace (h - (h - l)) with l by lia.
    rewrite (proj2 (Z.ltb_ge _ _)) by lia. replace (1 + len ranges - 1) with (len ranges) by lia.
    erewrite M_bind_ok by (apply IH; [done..|cbn in Hf; lia]).
    unfold mret, M_ret. by rewrite <- !app_assoc.
Qed.

Lemma ack_ranges_bytes_len low ranges :
  varint_ok low → ack_chain low ranges → (length ranges <= length (ack_ranges_bytes low ranges))%nat.
Proof.
  revert low. induction ranges as [|[l h] ranges IH]; intros low Hlow; [done|]. cbn. intros (Hlh & Hgap & Hc).
  destruct (ack_gap_ok low low l h) as (? & H1 & ?); [done..|].
  pose proof (len_varint_bytes (h - l) H1). pose proof (varint_size_pos (h - l)).
  specialize (IH l ltac:(done) Hc). unfold len in *. rewrite !length_app. lia.
Qed.

Lemma parse_ack_app a pre rest :
  wf_ack a →
  parse_ack (frame_type_of (FAck a)) (mkbuf pre (frame_body (FAck a) ++ rest))
  = (Ok (FAck a), mkbuf (pre ++ frame_body (FAck a)) rest).
Proof.
  destruct a as [largest delay ranges ecn].
  intros (Hl & Hd & He & low & rs & Hr & Hlow & Hc & Hn). cbn in *. subst ranges. cbn.
  pose proof (len_nonneg rs). unfold parse_ack, vb. rewrite <- !app_assoc. do 4 rd_varint.
  replace (largest - (largest - low)) with low by lia. rewrite (proj2 (Z.ltb_ge _ _)) by lia.
  erewrite M_bind_ok.
  2: { unfold ack_ranges_from. erewrite M_bind_ok by done. rewrite read_fuel_mkbuf.
       apply ack_ranges_loop_app; [vok|done|]. rewrite length_app.
       pose proof (ack_ranges_bytes_len low rs ltac:(vok) Hc). lia. }
  destruct ecn as [[e0 e1 c]|]; cbn in He |- *.
  - destruct He as (? & ? & ?). cbn in *. rewrite <- !app_assoc. do 3 rd_varint.
    unfold mret, M_ret. by rewrite <- !app_assoc.
  - rewrite app_nil_r. unfold mret, M_ret. by rewrite <- !app_assoc.
Qed.

Ltac rd_done := unfold mret, M_ret; by rewrite <- ?app_assoc, ?app_nil_r.

Lemma parse_stream_app s pre rest :
  wf_frame (FStream s) →
  parse_stream (stream_type s) (mkbuf pre (frame_body (FStream s) ++ rest))
  = (Ok (FStream s), mkbuf (pre ++ frame_body (FStream s)) rest).
Proof.
  destruct s as [i o d f]. cbn. intros (Hi & Ho & Hd). unfold parse_stream, vb. rewrite <- !app_assoc.
  rd_varint. unfold stream_type. cbn. destruct (o =? 0) eqn:E; [apply Z.eqb_eq in E; subst o|].
  - destruct f; cbn; (erewrite M_bind_ok by done); rd_lb; rd_done.
  - destruct f; cbn; rd_varint; rd_lb; rd_done.
Qed.

Lemma parse_connection_close_app c pre rest :
  wf_frame (FConnectionClose c) →
  parse_connection_close (frame_type_of (FConnectionClose c)) (mkbuf pre (frame_body (FConnectionClose c) ++ rest))
  = (Ok (FConnectionClose c), mkbuf (pre ++ frame_body (FConnectionClose c)) rest).
Proof.
  destruct c as [e r t]. cbn. intros (He & Ht & Hr). unfold parse_connection_close, vb. rewrite <- !app_assoc.
  rd_varint. destruct t as [t|]; cbn in Ht |- *.
  - erewrite M_bind_ok by (rd_varint; reflexivity). rd_lb. rd_done.
  - erewrite M_bind_ok by done. rd_lb. rd_done.
Qed.

Lemma parse_new_connection_id_app n pre rest t :
  wf_frame (FNewConnectionId n) →
  parse_new_connection_id t (mkbuf pre (frame_body (FNewConnectionId n) ++ rest))
  = (Ok (FNewConnectionId n), mkbuf (pre ++ frame_body (FNewConnectionId n)) rest).
Proof.
  destruct n as [s r i k]. cbn. intros (Hs & Hr & Hi & Hk). unfold parse_new_connection_id, vb.
  rewrite <- !app_assoc. do 2 rd_varint. cbn [app]. erewrite M_bind_ok by apply pull_uint8_cons.
  rewrite Zb_bZ_small by (pose proof (len_nonneg i); lia). rewrite <- !app_assoc. do 2 rd_bytes. rd_done.
Qed.

(** The table sends the type of every well-formed frame to a parser that
    reads its body back and stops at its end. *)
Lemma parse_body_app f pre rest :
  wf_frame f → (is_padding f = true → head rest ≠ Some x00) →
  ∃ parser, d_get (frame_type_of f) FRAME_PARSERS = Some parser ∧
    parser (frame_type_of f) (mkbuf pre (frame_body f ++ rest)) = (Ok f, mkbuf (pre ++ frame_body f) rest).
Proof.
  intros Hf Hp.
  destruct f as [ | | |[]| | | | | | | | | | | | | | | | | ];
    try (eexists; split; [reflexivity|]; cbn in Hf |- *; destruct_and?;
         unfold vb, parse_reset_stream, parse_stop_sending, parse_max_data, parse_max_stream_data,
           parse_data_blocked, parse_stream_data_blocked, parse_retire_connection_id;
         rewrite <- ?app_assoc; repeat rd_varint; rd_done).
  - exists parse_padding. split; [done|]. apply parse_padding_app; auto.
  - exists parse_ack. split; [cbn; by destruct (ack_ecn a) | by apply parse_ack_app].
  - exists parse_crypto. split; [done|]. destruct c. cbn in *. destruct_and?. unfold parse_crypto, vb.
    rewrite <- app_assoc. rd_varint. rd_lb. rd_done.
  - exists parse_new_token. split; [done|]. unfold parse_new_token. cbn. rd_lb. rd_done.
  - exists parse_stream. split; [|by apply parse_stream_app].
    cbn. unfold stream_type. by destruct (_ =? _), (st_fin s).
  - exists parse_max_streams. split; [by destruct bidirectional|]. unfold parse_max_streams. cbn.
    rd_varint. by destruct bidirectional.
  - exists parse_streams_blocked. split; [by destruct bidirectional|]. unfold parse_streams_blocked. cbn.
    rd_varint. by destruct bidirectional.
  - exists parse_new_connection_id. split; [done|]. by apply parse_new_connection_id_app.
  - exists parse_path_challenge. split; [done|]. unfold parse_path_challenge. cbn. rd_bytes. rd_done.
  - exists parse_path_response. split; [done|]. unfold parse_path_response. cbn. rd_bytes. rd_done.
  - exists parse_connection_close. split; [cbn; by destruct (cc_frame_type c)|]. by apply parse_connection_close_app.
  - exists parse_datagram. split; [done|]. unfold parse_datagram. cbn. rd_lb. rd_done.
Qed.

Lemma parse_one_app f pre rest :
  wf_frame f → (is_padding f = true → head rest ≠ Some x00) →
  parse_one (mkbuf pre (frame_bytes f ++ rest)) = (Ok f, mkbuf (pre ++ frame_bytes f) rest).
Proof.
  intros Hf Hp. destruct (parse_body_app f (pre ++ vb (frame_type_of f)) rest Hf Hp) as (p & Hd & Hr).
  pose proof (frame_type_varint f) as Ht. unfold frame_bytes, parse_one, vb in *.
  rewrite <- !app_assoc. erewrite M_bind_ok by done. rd_varint. erewrite M_bind_ok by done.
  erewrite M_bind_ok by (unfold lift; by rewrite encode_varint_ok).
  rewrite !position_mkbuf, len_app, Z.add_simpl_l, Z.eqb_refl. cbn [negb]. rewrite Hd, Hr.
  by rewrite <- app_assoc.
Qed.

(** ** Whole payloads *)

Definition frames_bytes (fs : list Frame) : bytes := concat (frame_bytes <$> fs).

Lemma frame_bytes_head f : ∃ tl, frame_bytes f = bZ (frame_type_of f) :: tl.
Proof.
  pose proof (frame_type_small f). unfold frame_bytes, vb, varint_bytes, varint_form.
  rewrite (proj2 (Z.leb_le _ _)) by (unfold MAX_IN_1_BYTE; lia). cbn. rewrite Z.add_0_r. by eexists.
Qed.

Lemma padding_type_iff f : frame_type_of f = 0 ↔ is_padding f = true.
Proof.
  destruct f; cbn; try done.
  - by destruct (ack_ecn a).
  - unfold stream_type. split; [|done]. destruct (_ =? _), (st_fin s); lia.
  - by destruct bidirectional.
  - by destruct bidirectional.
  - by destruct (cc_frame_type c).
Qed.

Lemma head_not_padding f rest : is_padding f = false → head (frame_bytes f ++ rest) ≠ Some x00.
Proof.
  intros Hp. destruct (frame_bytes_head f) as [tl ->]. cbn. intros [= H].
  apply (f_equal Zb) in H. rewrite Zb_bZ_small in H by (pose proof (frame_type_small f); lia).
  change (Zb x00) with 0 in H. apply padding_type_iff in H. congruence.
Qed.

Lemma parse_loop_app fs pre fuel :
  Forall wf_frame fs → padding_separated fs → (length fs <= fuel)%nat →
  parse_loop fuel (mkbuf pre (frames_bytes fs)) = (Ok fs, mkbuf (pre ++ frames_bytes fs) []).
Proof.
  revert pre fuel. induction fs as [|f fs IH]; intros pre fuel Hwf Hsep Hf.
  - change (frames_bytes []) with (@nil byte). rewrite app_nil_r.
    destruct fuel; cbn [parse_loop]; (erewrite M_bind_ok by done); by rewrite is_empty_mkbuf.
  - destruct fuel as [|fuel]; [cbn in Hf; lia|]. apply Forall_cons in Hwf as [Hwf1 Hwf].
    unfold frames_bytes. cbn [fmap list_fmap concat]. fold (frames_bytes fs).
    cbn [parse_loop]. erewrite M_bind_ok by done. rewrite is_empty_mkbuf, len_app.
    destruct (frame_bytes_head f) as [tl Htl]. pose proof (len_nonneg tl). pose proof (len_nonneg (frames_bytes fs)).
    rewrite (proj2 (Z.eqb_neq _ _)) by (rewrite Htl, len_cons; lia).
    erewrite M_bind_ok.
    2: { apply parse_one_app; [done|]. intros Hp. destruct fs as [|g fs]; [by cbn|].
         destruct Hsep as [Hs _]. rewrite Hp in Hs. cbn in Hs. by apply head_not_padding. }
    erewrite M_bind_ok.
    2: { apply IH; [done| |cbn in Hf; lia]. destruct fs; [done|]. apply Hsep. }
    unfold mret, M_ret. by rewrite <- app_assoc.
Qed.

Lemma frames_bytes_length fs : (length fs <= length (frames_bytes fs))%nat.
Proof.
  induction fs as [|f fs IH]; [done|]. unfold frames_bytes in *. cbn. rewrite length_app.
  destruct (frame_bytes_head f) as [tl ->]. cbn. lia.
Qed.

Lemma mapM_encode_ok fs : Forall wf_frame fs → mapM_result encode fs = Ok (frame_bytes <$> fs).
Proof. induction 1 as [|f fs Hf Hfs IH]; [done|]. cbn [mapM_result]. rewrite encode_ok by done. cbn. by rewrite IH. Qed.

Lemma parse_frames_bytes fs :
  Forall wf_frame fs → padding_separated fs → fs ≠ [] → parse_frames (frames_bytes fs) = Ok fs.
Proof.
  intros Hwf Hsep Hne. pose proof (frames_bytes_length fs) as Hl.
  pose proof (parse_loop_app fs [] (length (frames_bytes fs)) Hwf Hsep Hl) as H.
  unfold parse_frames. rewrite new_buffer_mkbuf, H.
  destruct (frames_bytes fs) eqn:E; [|done]. destruct fs; [done|cbn in Hl; lia].
Qed.

(** ** Arbitrary payloads *)

Ltac reads_finish :=
  first [ apply reads_ret | apply reads_raise ]; cbn; unfold varint_ok; intuition (first [done | lia]).

Lemma reads_with_length_gen E :
  (∀ e, short_read e → E e) → reads pull_with_length E (λ d n, varint_ok (len d) ∧ 1 <= n).
Proof.
  intros HE. unfold pull_with_length. eapply reads_bind; [by apply reads_pull_varint|]. cbn. intros v n _ [Hv Hn].
  eapply reads_weaken; [apply (reads_pull_bytes E); [done|lia]|done|]. cbn. unfold varint_ok. intros l m _ [-> ->]. lia.
Qed.

Lemma reads_with_length : reads pull_with_length frame_error (λ d n, varint_ok (len d) ∧ 1 <= n).
Proof. apply reads_with_length_gen. by intros []. Qed.

Lemma reads_rest : reads pull_rest frame_error (λ d n, len d = n).
Proof.
  intros pre rest. exists rest, []. unfold pull_rest. erewrite M_bind_ok by done.
  rewrite remaining_mkbuf. pose proof (pull_bytes_app pre rest [] (len rest) eq_refl) as H.
  rewrite app_nil_r in *. by rewrite H.
Qed.

(** What a parser promises of the frame it returns, given that the payload
    is no longer than a varint can say (a datagram never is). *)
Definition parsed (f : Frame) (n : Z) : Prop := n <= VARINT_MAX → wf_frame f.

Lemma reads_padding_loop fuel k :
  1 <= k →
  ∀ pre rest, (length rest < fuel)%nat → ∃ bs rest' m,
    rest = bs ++ rest' ∧ 1 <= m ∧ padding_loop fuel k (mkbuf pre rest) = (Ok m, mkbuf (pre ++ bs) rest').
Proof.
  revert k. induction fuel as [|fuel IH]; intros k Hk pre rest Hf; [lia|]. cbn [padding_loop].
  erewrite M_bind_ok by done. rewrite is_empty_mkbuf. destruct rest as [|x rest].
  - exists [], [], k. by rewrite (app_nil_r pre).
  - rewrite len_cons, (proj2 (Z.eqb_neq _ _)) by (pose proof (len_nonneg rest); lia).
    erewrite M_bind_ok by apply peek_uint8_cons. case_test.
    + erewrite M_bind_ok by apply pull_uint8_cons. cbn in Hf.
      destruct (IH (k + 1) ltac:(lia) (pre ++ [x]) rest ltac:(lia)) as (bs & rest' & m & -> & Hm & ->).
      exists (x :: bs), rest', m. by rewrite <- app_assoc.
    + exists [], (x :: rest), k. by rewrite (app_nil_r pre).
Qed.

Lemma reads_ack_ranges_loop fuel count low pre rest :
  varint_ok low → count <= VARINT_MAX → (length rest < fuel)%nat →
  ∃ bs rest', rest = bs ++ rest' ∧
    (ack_ranges_loop fuel count low (mkbuf pre rest)).2 = mkbuf (pre ++ bs) rest' ∧
    match (ack_ranges_loop fuel count low (mkbuf pre rest)).1 with
    | Ok rs => ack_chain low rs ∧ len rs = Z.max 0 count
    | Raise e => frame_error e
    end.
Proof.
  revert count low pre rest. induction fuel as [|fuel IH]; intros count low pre rest Hlow Hc Hf; [lia|].
  cbn [ack_ranges_loop]. case_test.
  { exists [], rest. rewrite app_nil_r. repeat split; try done. rewrite len_nil. lia. }
  destruct (reads_pull_varint frame_error ltac:(by intros []) pre rest) as (b1 & r1 & -> & Hb1 & H1).
  destruct (pull_varint (mkbuf pre (b1 ++ r1))) as [[gap|e] s1] eqn:E1; cbn in Hb1, H1; subst s1.
  2: { erewrite M_bind_raise by exact E1. by exists b1, r1. }
  erewrite M_bind_ok by exact E1. destruct H1 as [Hgap Hn1].
  destruct (reads_pull_varint frame_error ltac:(by intros []) (pre ++ b1) r1) as (b2 & r2 & -> & Hb2 & H2).
  destruct (pull_varint (mkbuf (pre ++ b1) (b2 ++ r2))) as [[ln|e] s2] eqn:E2; cbn in Hb2, H2; subst s2.
  2: { erewrite M_bind_raise by exact E2. exists (b1 ++ b2), r2. rewrite <- !app_assoc. by cbn. }
  erewrite M_bind_ok by exact E2. destruct H2 as [Hln Hn2]. case_test.
  { exists (b1 ++ b2), r2. rewrite <- !app_assoc. by cbn. }
  destruct (IH (count - 1) (low - gap - 2 - ln) ((pre ++ b1) ++ b2) r2) as (b3 & r3 & -> & Hb3 & H3).
  { unfold varint_ok in *. lia. } { lia. }
  { unfold len in *. rewrite !length_app in Hf. lia. }
  exists (b1 ++ b2 ++ b3), r3. rewrite <- !app_assoc in *. split; [done|].
  destruct (ack_ranges_loop _ _ _ _) as [[rs|e] s3] eqn:E3; cbn in Hb3, H3; subst s3.
  - erewrite M_bind_ok by exact E3. cbn. destruct H3 as [H3 H4]. rewrite len_cons.
    repeat split; try done; lia.
  - erewrite M_bind_raise by exact E3. by cbn.
Qed.

Lemma reads_parse_padding t : reads (parse_padding t) frame_error parsed.
Proof.
  intros pre rest. unfold parse_padding. erewrite M_bind_ok by done. rewrite read_fuel_mkbuf.
  destruct (reads_padding_loop (S (length rest)) 1 ltac:(lia) pre rest ltac:(lia)) as (bs & rest' & m & -> & Hm & E).
  erewrite M_bind_ok by exact E. exists bs, rest'. repeat split. by intros _.
Qed.


Lemma reads_ack_ranges count low :
  varint_ok low → count <= VARINT_MAX →
  reads (ack_ranges_from count low) frame_error (λ rs _, ack_chain low rs ∧ len rs = Z.max 0 count).
Proof.
  intros Hl Hc pre rest. unfold ack_ranges_from. erewrite M_bind_ok by done. rewrite read_fuel_mkbuf.
  apply reads_ack_ranges_loop; [done..|lia].
Qed.

Lemma reads_parse_ack t : reads (parse_ack t) frame_error parsed.
Proof.
  unfold parse_ack. do 4 reads_step. case_test; [by apply reads_raise|].
  eapply reads_bind; [apply reads_ack_ranges; unfold varint_ok; lia|]. cbn. intros rs m _ [Hrs Hlen].
  assert (Hwf : ∀ e, from_option wf_ecn True e → wf_frame (FAck (mkAck v v0 ((v - v2, v) :: rs) e))).
  { intros e He. cbn. unfold wf_ack, varint_ok. cbn. repeat split; try lia; [done|].
    exists (v - v2), rs. repeat split; try done; lia. }
  case_test; [do 3 reads_step|]; apply reads_ret; intros _; apply Hwf; by cbn.
Qed.

Ltac reads_frame :=
  repeat reads_step; apply reads_ret; intros ?; cbn; unfold varint_ok; intuition lia.

Lemma reads_parse_stream t : reads (parse_stream t) frame_error parsed.
Proof.
  unfold parse_stream. reads_step.
  eapply (reads_bind _ _ _ (λ o n, varint_ok o)).
  { case_test; [eapply (reads_weaken _ frame_error); [reads_prim|done|cbn; unfold varint_ok; tauto]|by apply reads_ret]. }
  intros o n1 Hn1 Ho. eapply (reads_bind _ _ _ (λ d n, n <= VARINT_MAX → varint_ok (len d))).
  { case_test; (eapply reads_weaken; [first [apply reads_with_length | apply reads_rest]|done|]).
    - by intros d m _ [Hd _] _.
    - cbn. intros d m Hm Hd Hle. unfold varint_ok. lia. }
  intros d n2 Hn2 Hd. apply reads_ret. intros Hn. cbn. split; [done|]. split; [done|]. apply Hd. lia.
Qed.

Lemma reads_parse_connection_close t : reads (parse_connection_close t) frame_error parsed.
Proof.
  unfold parse_connection_close. reads_step.
  eapply (reads_bind _ _ _ (λ o n, from_option varint_ok True o)).
  { case_test; [reads_step|]; by apply reads_ret. }
  intros o n1 Hn1 Ho. eapply reads_bind; [apply reads_with_length|]. cbn. intros d n2 Hn2 [Hd _].
  apply reads_ret. intros Hn. by cbn.
Qed.

Lemma reads_parse_datagram t : reads (parse_datagram t) frame_error parsed.
Proof.
  unfold parse_datagram. case_test; (eapply reads_bind; [first [apply reads_with_length | apply reads_rest]|]);
    cbn; intros d m Hm Hd; apply reads_ret; intros Hn; cbn; unfold varint_ok in *; lia.
Qed.

Lemma reads_parse_crypto t : reads (parse_crypto t) frame_error parsed.
Proof.
  unfold parse_crypto. reads_step. eapply reads_bind; [apply reads_with_length|]. cbn. intros d m _ [Hd _].
  apply reads_ret. by intros _.
Qed.

Lemma reads_parse_new_token t : reads (parse_new_token t) frame_error parsed.
Proof.
  unfold parse_new_token. eapply reads_bind; [apply reads_with_length|]. cbn. intros d m _ [Hd _].
  apply reads_ret. by intros _.
Qed.

(** Every parser of the table is sound. *)
Lemma reads_table t parser :
  d_get t FRAME_PARSERS = Some parser → reads (parser t) frame_error parsed.
Proof.
  intros H%d_get_elem.
  assert (Ha : Forall (λ p, ∀ t, reads (p.2 t) frame_error parsed) FRAME_PARSERS).
  { repeat apply Forall_cons_2; try apply Forall_nil_2; cbn [snd]; intros t';
      first [ apply reads_parse_padding | apply reads_parse_ack | apply reads_parse_stream
            | apply reads_parse_connection_close | apply reads_parse_datagram
            | apply reads_parse_crypto | apply reads_parse_new_token | by apply reads_ret | reads_frame ]. }
  rewrite Forall_forall in Ha. apply (Ha _ H).
Qed.


Lemma reads_parse_one : reads parse_one frame_error (λ f n, 1 <= n ∧ parsed f n).
Proof.
  intros pre rest. unfold parse_one. erewrite M_bind_ok by done. rewrite position_mkbuf.
  destruct (reads_pull_varint frame_error ltac:(by intros []) pre rest) as (b1 & r1 & -> & Hb1 & H1).
  destruct (pull_varint (mkbuf pre (b1 ++ r1))) as [[t|e] s1] eqn:E1; cbn in Hb1, H1; subst s1.
  2: { erewrite M_bind_raise by exact E1. by exists b1, r1. }
  destruct H1 as [Ht Hn1]. erewrite M_bind_ok by exact E1. erewrite M_bind_ok by done.
  erewrite M_bind_ok by (unfold lift; by rewrite encode_varint_ok). case_test.
  { by exists b1, r1. }
  destruct (d_get t FRAME_PARSERS) as [p|] eqn:Hp; [|by exists b1, r1].
  destruct (reads_table t p Hp (pre ++ b1) r1) as (b2 & r2 & -> & Hb2 & H2).
  exists (b1 ++ b2), r2. rewrite <- !app_assoc in *. split; [done|]. split; [done|].
  destruct (p t _).1; [|done]. rewrite len_app. pose proof (len_nonneg b2).
  split; [lia|]. intros Hn. apply H2. lia.
Qed.

(** The loop returns on every input its fuel covers. *)
Lemma parse_loop_sound fuel pre rest :
  (length rest <= fuel)%nat →
  match (parse_loop fuel (mkbuf pre rest)).1 with
  | Ok fs => (len rest <= VARINT_MAX → Forall wf_frame fs) ∧ (rest ≠ [] → fs ≠ [])
  | Raise e => frame_error e
  end.
Proof.
  revert pre rest. induction fuel as [|fuel IH]; intros pre rest Hf; cbn [parse_loop];
    (erewrite M_bind_ok by done); rewrite is_empty_mkbuf.
  { destruct rest; [|cbn in Hf; lia]. cbn. by split. }
  destruct rest as [|x rest]; [by split|].
  rewrite len_cons, (proj2 (Z.eqb_neq _ _)) by (pose proof (len_nonneg rest); lia). rewrite <- len_cons with (x := x).
  destruct (reads_parse_one pre (x :: rest)) as (bs & rest' & Hr & Hb & H). rewrite Hr in *.
  destruct (parse_one (mkbuf pre (bs ++ rest'))) as [[f|e] s1] eqn:E1; cbn in Hb, H; subst s1.
  2: { by erewrite M_bind_raise by exact E1. }
  destruct H as [Hn Hwf]. erewrite M_bind_ok by exact E1.
  rewrite length_app in Hf. unfold len in Hn.
  specialize (IH (pre ++ bs) rest' ltac:(lia)).
  destruct (parse_loop fuel _) as [[fs|e] s2] eqn:E2; cbn in IH.
  2: { by erewrite M_bind_raise by exact E2. }
  erewrite M_bind_ok by exact E2. cbn. split; [|done]. intros Hl. rewrite len_app in Hl.
  pose proof (len_nonneg bs). pose proof (len_nonneg rest').
  constructor; [apply Hwf; lia | apply IH; lia].
Qed.

(** ** Properties *)

(** C11: encoding any non-empty list of well-formed frames (adjacent PADDING
    merged) and parsing the concatenation gives the same list back. *)
Theorem frames_roundtrip fs
  (Hwf : Forall wf_frame fs) (Hsep : padding_separated fs) (Hne : fs ≠ []) :
  ∃ encoded, mapM_result encode fs = Ok encoded ∧ parse_frames (concat encoded) = Ok fs.
Proof. exists (frame_bytes <$> fs). split; [by apply mapM_encode_ok | by apply parse_frames_bytes]. Qed.

(** C26: [parse_frames] returns on every payload: either a non-empty list of
    frames, all of them well formed, or one of the two exceptions the
    connection maps to FRAME_ENCODING_ERROR; nothing else can escape, and the
    loops never run out of fuel. *)
Theorem parse_frames_total payload (Hlen : len payload <= VARINT_MAX) :
  match parse_frames payload with
  | Ok fs => fs ≠ [] ∧ Forall wf_frame fs
  | Raise e => frame_error e
  end.
Proof.
  unfold parse_frames. destruct payload as [|x payload]; [done|].
  pose proof (parse_loop_sound (length (x :: payload)) [] (x :: payload) ltac:(done)) as H.
  rewrite new_buffer_mkbuf. destruct (parse_loop _ _).1; [|done].
  split; [by apply H | by apply H].
Qed.

(** A packet payload with an ACK of two ranges, a STREAM frame with FIN and
    trailing padding. *)
Definition sample_frames : list Frame :=
  [FAck (mkAck 100 3 [(90, 100); (70, 80)] (Some (mkEcnCounts 7 0 1)));
   FStream (mkStream 4 1000 [x01; x02] true); FPadding 3].

Lemma sample_frames_wf : Forall wf_frame sample_frames.
Proof.
  repeat apply Forall_cons_2; try apply Forall_nil_2; cbn; unfold wf_ack, varint_ok, VARINT_MAX; cbn;
    repeat split; try lia; try done.
  exists 90, [(70, 80)]. cbn. repeat split; try lia; done.
Qed.

Lemma frames_roundtrip_witness :
  ∃ encoded, mapM_result encode sample_frames = Ok encoded ∧ parse_frames (concat encoded) = Ok sample_frames.
Proof. apply (frames_roundtrip sample_frames sample_frames_wf); [by cbn | done]. Defined.

Lemma parse_frames_total_witness :
  match parse_frames [x02; x05; x00; x00; x09] with
  | Ok fs => fs ≠ [] ∧ Forall wf_frame fs
  | Raise e => frame_error e
  end.
Proof. apply (parse_frames_total [x02; x05; x00; x00; x09]). by vm_compute. Defined.
