(* ===== verification/Packet.v ===== *)
(** * Packet headers and packet numbers (packet.py)

    Long and short headers, Version Negotiation and packet-number truncation
    of [src/dsquic/packet.py] (RFC 9000 sections 12 and 17, RFC 8999).  The
    byte [os.urandom(1)] returns is an argument of
    [build_version_negotiation].  Header parsers run in the reader monad of
    [Buffer]; [parse_long_header] and [parse_short_header] start it on the
    whole datagram. *)

From S2P Require Import Prelude Buffer Frames FramesProofs.

(** ** Constants and data *)

Definition HEADER_FORM_LONG : Z := 0x80.
Definition FIXED_BIT : Z := 0x40.
Definition QUIC_V1 : Z := 0x00000001.
Definition VERSION_NEGOTIATION : Z := 0x00000000.
Definition SUPPORTED_VERSIONS : list Z := [QUIC_V1].
Definition MAX_CID_LENGTH : Z := 20.
Definition MAX_PACKET_NUMBER : Z := 2 ^ 62 - 1.
Definition MIN_VERSION_NEGOTIATION_DATAGRAM : Z := 1200.
Definition VERSION_END : Z := 5.

Inductive PacketType : Type := INITIAL | ZERO_RTT | HANDSHAKE | RETRY.

#[export] Instance PacketType_eq_dec : EqDecision PacketType.
Proof. solve_decision. Defined.

Definition PacketType_value (t : PacketType) : Z :=
  match t with INITIAL => 0 | ZERO_RTT => 1 | HANDSHAKE => 2 | RETRY => 3 end.

(** [PacketType(v)], which raises on a value outside the enumeration. *)
Definition PacketType_of (v : Z) : result PacketType :=
  if v =? 0 then Ok INITIAL else if v =? 1 then Ok ZERO_RTT
  else if v =? 2 then Ok HANDSHAKE else if v =? 3 then Ok RETRY
  else Raise (ValueError (pretty v +:+ " is not a valid PacketType")).

Record LongHeader : Type := mkLongHeader {
  lh_packet_type : PacketType;
  lh_version : Z;
  lh_destination_cid : bytes;
  lh_source_cid : bytes;
  lh_token : bytes;
  lh_length : Z;
  lh_pn_offset : Z }.

Record Retry : Type := mkRetry {
  rt_version : Z; rt_destination_cid : bytes; rt_source_cid : bytes; rt_token : bytes }.

Record ShortHeader : Type := mkShortHeader { sh_destination_cid : bytes; sh_pn_offset : Z }.

Record VersionNegotiation : Type := mkVersionNegotiation {
  vn_destination_cid : bytes; vn_source_cid : bytes; vn_versions : list Z }.

Record LongHeaderTemplate : Type := mkLongHeaderTemplate {
  lt_packet_type : PacketType;
  lt_version : Z;
  lt_destination_cid : bytes;
  lt_source_cid : bytes;
  lt_token : bytes }.

(** A flag test on a byte, Python's truthiness of [v & bit]. *)
Definition has_bit (v bit : Z) : bool := negb (Z.land v bit =? 0).

(** [buf.pull_bytes(buf.pull_uint8())], a connection ID on the wire. *)
Definition pull_cid : M Buffer bytes := n ← pull_uint8; pull_bytes n.

(** ** Long and short headers *)

Definition read_long_header : M Buffer LongHeader :=
  first ← pull_uint8;
  if negb (has_bit first HEADER_FORM_LONG) then raise (HeaderParseError "not a long header")
  else if negb (has_bit first FIXED_BIT) then raise (HeaderParseError "fixed bit is zero")
  else
    version ← pull_uint32;
    if version =? 0 then raise (HeaderParseError "version negotiation parsing not implemented")
    else
      destination_cid ← pull_cid;
      source_cid ← pull_cid;
      if (len destination_cid >? MAX_CID_LENGTH) || (len source_cid >? MAX_CID_LENGTH) then
        raise (HeaderParseError "connection ID longer than 20 bytes")
      else if negb (version =? QUIC_V1) then raise (UnsupportedVersion version)
      else
        packet_type ← lift (PacketType_of (Z.land first 0x30 ≫ 4));
        if decide (packet_type = RETRY) then
          raise (HeaderParseError "a Retry packet has no Length field; use parse_retry")
        else
          token ← (if decide (packet_type = INITIAL) then pull_with_length else mret []);
          length ← pull_varint;
          pn_offset ← gets position;
          mret (mkLongHeader packet_type version destination_cid source_cid token length pn_offset).

Definition parse_long_header (data : bytes) : result LongHeader :=
  (read_long_header (new_buffer data)).1.

Definition read_short_header (cid_length : Z) : M Buffer ShortHeader :=
  first ← pull_uint8;
  if has_bit first HEADER_FORM_LONG then raise (HeaderParseError "not a short header")
  else if negb (has_bit first FIXED_BIT) then raise (HeaderParseError "fixed bit is zero")
  else
    destination_cid ← pull_bytes cid_length;
    pn_offset ← gets position;
    mret (mkShortHeader destination_cid pn_offset).

Definition parse_short_header (data : bytes) (cid_length : Z) : result ShortHeader :=
  (read_short_header cid_length (new_buffer data)).1.

(** [data[-n:]]: the last [n] bytes; the whole when [n] is 0, and a drop of
    [-n] when [n] is negative. *)
Definition last_bytes (n : Z) (l : bytes) : bytes :=
  if 0 <? n then drop (Z.to_nat (len l - n)) l else drop (Z.to_nat (- n)) l.

Definition build_long_header (template : LongHeaderTemplate)
    (payload_length packet_number packet_number_length : Z) : result bytes :=
  let first := Z.lor (Z.lor HEADER_FORM_LONG FIXED_BIT)
                     (PacketType_value (lt_packet_type template) ≪ 4) in
  let first := Z.lor first (packet_number_length - 1) in
  head ← byte_literal first;
  version ← to_bytes 4 (lt_version template);
  dl ← byte_literal (len (lt_destination_cid template));
  sl ← byte_literal (len (lt_source_cid template));
  token ← (if decide (lt_packet_type template = INITIAL)
           then with_length (lt_token template) else Ok []);
  length ← encode_varint (packet_number_length + payload_length);
  pn ← to_bytes 8 packet_number;
  Ok (head ++ version ++ dl ++ lt_destination_cid template ++ sl ++ lt_source_cid template
      ++ token ++ length ++ last_bytes packet_number_length pn).

(** ** Version Negotiation *)

Definition build_version_negotiation (urandom : byte) (destination_cid source_cid : bytes) : result bytes :=
  first ← byte_literal (Z.lor (Zb urandom) HEADER_FORM_LONG);
  zero ← to_bytes 4 VERSION_NEGOTIATION;
  dl ← byte_literal (len destination_cid);
  sl ← byte_literal (len source_cid);
  versions ← mapM_result (to_bytes 4) SUPPORTED_VERSIONS;
  Ok (first ++ zero ++ dl ++ destination_cid ++ sl ++ source_cid ++ concat versions).

(** [data[0]], for data known to be non-empty. *)
Definition first_byte (data : bytes) : Z := match data with b :: _ => Zb b | [] => 0 end.

Definition is_version_negotiation (data : bytes) : bool :=
  if (len data <? VERSION_END) || negb (has_bit (first_byte data) HEADER_FORM_LONG) then false
  else from_bytes (slice 1 VERSION_END data) =? VERSION_NEGOTIATION.

Fixpoint versions_loop (fuel : nat) : M Buffer (list Z) :=
  b ← get;
  if is_empty b then mret []
  else match fuel with
  | O => raise OutOfFuel
  | S fuel' => v ← pull_uint32; vs ← versions_loop fuel'; mret (v :: vs)
  end.

Definition parse_version_negotiation (data : bytes) : result VersionNegotiation :=
  let p : M Buffer VersionNegotiation :=
    destination_cid ← pull_cid;
    source_cid ← pull_cid;
    b ← get;
    versions ← versions_loop (read_fuel b);
    mret (mkVersionNegotiation destination_cid source_cid versions) in
  (p (new_buffer (drop 5 data))).1.

Definition version_negotiation_response (urandom : byte) (datagram : bytes) : result (option bytes) :=
  if len datagram <? MIN_VERSION_NEGOTIATION_DATAGRAM then Ok None
  else if negb (has_bit (first_byte datagram) HEADER_FORM_LONG) then Ok None
  else
    let version := from_bytes (slice 1 5 datagram) in
    if (version =? VERSION_NEGOTIATION) || bool_decide (version ∈ SUPPORTED_VERSIONS) then Ok None
    else
      match ((peer_destination ← pull_cid; peer_source ← pull_cid;
              mret (peer_destination, peer_source)) (new_buffer (drop 5 datagram))).1 with
      | Raise (BufferReadError _) => Ok None
      | Raise e => Raise e
      | Ok (peer_destination, peer_source) =>
          if (len peer_destination >? MAX_CID_LENGTH) || (len peer_source >? MAX_CID_LENGTH) then Ok None
          else
            packet ← build_version_negotiation urandom peer_source peer_destination;
            Ok (Some packet)
      end.

(** ** Routing *)

Definition destination_connection_id (data : bytes) (cid_length : Z) : option bytes :=
  match data with
  | [] => None
  | _ =>
    if has_bit (first_byte data) HEADER_FORM_LONG then
      let offset := 1 + 4 in
      match data !! Z.to_nat offset with
      | None => None
      | Some b =>
          let length := Zb b in
          if (length >? MAX_CID_LENGTH) || (len data <? offset + 1 + length) then None
          else Some (slice (offset + 1) (offset + 1 + length) data)
      end
    else if len data <? 1 + cid_length then None
    else Some (slice 1 (1 + cid_length) data)
  end.

(** ** Packet numbers *)

(** [n.bit_length()]. *)
Definition bit_length (n : Z) : Z := if n =? 0 then 0 else Z.log2 (Z.abs n) + 1.

(** How many bytes [encode_packet_number] keeps. *)
Definition packet_number_bytes (full_pn : Z) (largest_acked : option Z) : Z :=
  let num_unacked := match largest_acked with None => full_pn + 1 | Some l => full_pn - l end in
  Z.min 4 (Z.max 1 ((bit_length num_unacked + 1 + 7) / 8)).

Definition encode_packet_number (full_pn : Z) (largest_acked : option Z) : result bytes :=
  pn ← to_bytes 8 full_pn;
  Ok (last_bytes (packet_number_bytes full_pn largest_acked) pn).

Definition decode_packet_number (largest_pn truncated_pn pn_nbits : Z) : Z :=
  let expected_pn := largest_pn + 1 in
  let pn_win := 1 ≪ pn_nbits in
  let pn_hwin := pn_win / 2 in
  let pn_mask := pn_win - 1 in
  let candidate_pn := Z.lor (Z.land expected_pn (Z.lnot pn_mask)) truncated_pn in
  if (candidate_pn <=? expected_pn - pn_hwin) && (candidate_pn <? (1 ≪ 62) - pn_win) then
    candidate_pn + pn_win
  else if (candidate_pn >? expected_pn + pn_hwin) && (candidate_pn >=? pn_win) then
    candidate_pn - pn_win
  else candidate_pn.

(** ** Packet-number arithmetic *)

Lemma land_lnot_ones e n : 0 <= n → Z.land e (Z.lnot (Z.ones n)) = e - e mod 2 ^ n.
Proof.
  intros Hn. rewrite <- Z.ldiff_land, Z.ldiff_ones_r by done.
  rewrite Z.shiftl_mul_pow2, Z.shiftr_div_pow2 by done.
  pose proof (Z.div_mod e (2 ^ n) ltac:(apply Z.pow_nonzero; lia)). lia.
Qed.

(** The candidate: the expected number with its low bits replaced. *)
Lemma candidate_pn_eq e n t :
  0 <= n → 0 <= t < 2 ^ n →
  Z.lor (Z.land e (Z.lnot ((1 ≪ n) - 1))) t = e - e mod 2 ^ n + t.
Proof.
  intros Hn Ht. rewrite Z.shiftl_1_l. replace (2 ^ n - 1) with (Z.ones n) by (rewrite Z.ones_equiv; lia).
  rewrite land_lnot_ones by done.
  pose proof (Z.div_mod e (2 ^ n) ltac:(apply Z.pow_nonzero; lia)) as Hd.
  replace (e - e mod 2 ^ n) with (e / 2 ^ n * 2 ^ n) by lia.
  rewrite Z.lor_comm, lor_add_high by done. lia.
Qed.

(** Decoding recovers any packet number inside the window. *)
Lemma decode_in_window largest full n :
  1 <= n → -1 <= largest → 0 <= full < 2 ^ 62 →
  largest + 1 - 2 ^ (n - 1) < full <= largest + 1 + 2 ^ (n - 1) →
  decode_packet_number largest (full mod 2 ^ n) n = full.
Proof.
  intros Hn Hl Hf Hw. unfold decode_packet_number.
  assert (Hp : 2 ^ n = 2 * 2 ^ (n - 1)) by (rewrite <- Z.pow_succ_r by lia; f_equal; lia).
  assert (0 < 2 ^ (n - 1)) by (apply Z.pow_pos_nonneg; lia).
  rewrite candidate_pn_eq by (try apply Z.mod_pos_bound; lia). rewrite !Z.shiftl_1_l.
  replace (2 ^ n / 2) with (2 ^ (n - 1)) by (rewrite Hp, Z.mul_comm, Z.div_mul; lia).
  set (e := largest + 1) in *. set (h := 2 ^ (n - 1)) in *. set (w := 2 ^ n) in *.
  pose proof (Z.div_mod e w ltac:(lia)). pose proof (Z.div_mod full w ltac:(lia)).
  pose proof (Z.mod_pos_bound e w ltac:(lia)). pose proof (Z.mod_pos_bound full w ltac:(lia)).
  assert (full / w = e / w - 1 ∨ full / w = e / w ∨ full / w = e / w + 1) as Hq.
  { assert (-1 <= full / w - e / w <= 1) by nia. lia. }
  repeat case_test; destruct Hq as [Hq|[Hq|Hq]]; rewrite Hq in *; try nia;
    match goal with H : _ && _ = false |- _ => apply andb_false_iff in H as [?|?] end; bool_cases; nia.
Qed.

Lemma bit_length_spec u : 0 < u → 2 ^ (bit_length u - 1) <= u < 2 ^ bit_length u.
Proof.
  intros Hu. unfold bit_length. rewrite (proj2 (Z.eqb_neq _ _)), Z.abs_eq by lia.
  replace (Z.log2 u + 1 - 1) with (Z.log2 u) by lia. rewrite Z.add_1_r. by apply Z.log2_spec.
Qed.

(** The truncation keeps at least one bit more than the unacknowledged
    distance needs. *)
Lemma packet_number_bytes_spec full la :
  let u := match la with None => full + 1 | Some l => full - l end in
  let n := packet_number_bytes full la in
  0 < u < 2 ^ 31 → 1 <= n <= 4 ∧ u < 2 ^ (8 * n - 1).
Proof.
  intros u n Hu. subst n. unfold packet_number_bytes. fold u.
  pose proof (bit_length_spec u ltac:(lia)) as Hb. set (k := bit_length u) in *.
  assert (0 <= k <= 31).
  { unfold k, bit_length. destruct (u =? 0); [lia|].
    rewrite Z.abs_eq by lia. pose proof (Z.log2_nonneg u).
    assert (Z.log2 u < 31) by (apply Z.log2_lt_pow2; lia). lia. }
  pose proof (Z.div_mod (k + 1 + 7) 8 ltac:(lia)). pose proof (Z.mod_pos_bound (k + 1 + 7) 8 ltac:(lia)).
  set (m := (k + 1 + 7) / 8) in *. split; [lia|].
  eapply Z.lt_le_trans; [exact (proj2 Hb)|]. apply Z.pow_le_mono_r; lia.
Qed.

Lemma last_bytes_app n a b : len b = n → 0 < n → last_bytes n (a ++ b) = b.
Proof.
  intros Hb Hn. unfold last_bytes. rewrite (proj2 (Z.ltb_lt _ _)) by done.
  rewrite len_app. replace (len a + len b - n) with (len a) by lia. by rewrite Z_to_nat_len, drop_app_length.
Qed.

Lemma be_bytes_split m n v : be_bytes (m + n) v = be_bytes m (v / 256 ^ Z.of_nat n) ++ be_bytes n v.
Proof.
  revert v. induction n as [|n IH]; intros v.
  - rewrite Nat.add_0_r, Z.pow_0_r, Z.div_1_r. cbn [be_bytes]. by rewrite app_nil_r.
  - rewrite Nat.add_succ_r. cbn [be_bytes]. rewrite IH, <- app_assoc. do 2 f_equal.
    rewrite Z.div_div by lia. f_equal. rewrite Nat2Z.inj_succ, Z.pow_succ_r by lia. lia.
Qed.

Lemma last_bytes_be n v : 1 <= n <= 8 → last_bytes n (be_bytes 8 v) = be_bytes (Z.to_nat n) v.
Proof.
  intros Hn. replace 8%nat with ((8 - Z.to_nat n) + Z.to_nat n)%nat by lia. rewrite be_bytes_split.
  apply last_bytes_app; [rewrite len_be_bytes|]; lia.
Qed.

Lemma be_bytes_mod n v : from_bytes (be_bytes n v) = v mod 2 ^ (8 * Z.of_nat n).
Proof. rewrite from_bytes_be. by rewrite Z.pow_mul_r by lia. Qed.

(** ** Header round trips *)

Lemma pull_cid_app pre cid rest :
  len cid < 256 →
  pull_cid (mkbuf pre (bZ (len cid) :: cid ++ rest)) = (Ok cid, mkbuf (pre ++ bZ (len cid) :: cid) rest).
Proof.
  intros H. unfold pull_cid. erewrite M_bind_ok by apply pull_uint8_cons.
  pose proof (len_nonneg cid). rewrite Zb_bZ_small by lia.
  erewrite pull_bytes_app by done. by rewrite <- app_assoc.
Qed.

(** The first byte of a long header: form and fixed bits, type, and the
    packet-number length minus one. *)
Definition long_first (t : PacketType) (pnl : Z) : Z := 0xC0 + 16 * PacketType_value t + (pnl - 1).

Lemma long_first_byte t pnl :
  1 <= pnl <= 4 →
  Z.lor (Z.lor (Z.lor HEADER_FORM_LONG FIXED_BIT) (PacketType_value t ≪ 4)) (pnl - 1) = long_first t pnl ∧
  0 <= long_first t pnl < 256 ∧
  has_bit (long_first t pnl) HEADER_FORM_LONG = true ∧
  has_bit (long_first t pnl) FIXED_BIT = true ∧
  PacketType_of (Z.land (long_first t pnl) 0x30 ≫ 4) = Ok t ∧
  Z.land (long_first t pnl) 0x03 = pnl - 1.
Proof.
  intros H. assert (pnl = 1 ∨ pnl = 2 ∨ pnl = 3 ∨ pnl = 4) as [->|[->|[->| ->]]] by lia;
    destruct t; vm_compute; repeat split; congruence.
Qed.

(** A template whose fields fit the wire. *)
Definition wf_template (t : LongHeaderTemplate) : Prop :=
  lt_packet_type t ≠ RETRY ∧ lt_version t = QUIC_V1 ∧
  len (lt_destination_cid t) <= MAX_CID_LENGTH ∧ len (lt_source_cid t) <= MAX_CID_LENGTH ∧
  len (lt_token t) <= VARINT_MAX ∧ (lt_packet_type t ≠ INITIAL → lt_token t = []).

(** The header up to the packet number. *)
Definition long_header_bytes (t : LongHeaderTemplate) (length pnl : Z) : bytes :=
  [bZ (long_first (lt_packet_type t) pnl)] ++ be_bytes 4 (lt_version t)
  ++ (bZ (len (lt_destination_cid t)) :: lt_destination_cid t)
  ++ (bZ (len (lt_source_cid t)) :: lt_source_cid t)
  ++ (if decide (lt_packet_type t = INITIAL) then lb (lt_token t) else [])
  ++ varint_bytes length.

Lemma build_long_header_ok t pl pn pnl :
  wf_template t → 1 <= pnl <= 4 → 0 <= pl → pnl + pl <= VARINT_MAX → 0 <= pn < 2 ^ 64 →
  build_long_header t pl pn pnl = Ok (long_header_bytes t (pnl + pl) pnl ++ be_bytes (Z.to_nat pnl) pn).
Proof.
  intros (Ht & Hv & Hd & Hs & Htok & _) Hn Hpl Hsum Hpn. unfold build_long_header, MAX_CID_LENGTH in *.
  destruct (long_first_byte (lt_packet_type t) pnl Hn) as (-> & Hr & _).
  rewrite (byte_literal_ok (long_first _ _)) by done. pose proof (len_nonneg (lt_destination_cid t)).
  pose proof (len_nonneg (lt_source_cid t)). pose proof (len_nonneg (lt_token t)). cbn [mbind result_bind].
  rewrite (to_bytes_ok 4) by (by rewrite Hv). cbn [mbind result_bind].
  rewrite !byte_literal_ok by lia. cbn [mbind result_bind].
  rewrite encode_varint_ok by lia. rewrite (to_bytes_ok 8) by (change (256 ^ Z.of_nat 8) with (2 ^ 64); lia).
  unfold long_header_bytes, with_length, lb. case_decide.
  - rewrite encode_varint_ok by lia. cbn [mbind result_bind]. rewrite last_bytes_be by lia.
    by app_norm.
  - cbn [mbind result_bind]. rewrite last_bytes_be by lia. by app_norm.
Qed.

(** The header behind its first byte. *)
Definition long_header_tail (t : LongHeaderTemplate) (length : Z) : bytes :=
  be_bytes 4 (lt_version t)
  ++ (bZ (len (lt_destination_cid t)) :: lt_destination_cid t)
  ++ (bZ (len (lt_source_cid t)) :: lt_source_cid t)
  ++ (if decide (lt_packet_type t = INITIAL) then lb (lt_token t) else [])
  ++ varint_bytes length.

(** Of the first byte the parser reads the form, the fixed bit and the type;
    the low four bits, which header protection covers, may be anything. *)
Lemma read_long_header_first t length first rest :
  wf_template t → 0 <= length <= VARINT_MAX →
  has_bit (Zb first) HEADER_FORM_LONG = true → has_bit (Zb first) FIXED_BIT = true →
  PacketType_of (Z.land (Zb first) 0x30 ≫ 4) = Ok (lt_packet_type t) →
  let h := first :: long_header_tail t length in
  read_long_header (mkbuf [] (h ++ rest)) =
  (Ok (mkLongHeader (lt_packet_type t) (lt_version t) (lt_destination_cid t) (lt_source_cid t)
         (lt_token t) length (len h)), mkbuf h rest).
Proof.
  intros (Ht & Hv & Hd & Hs & Htok & Hnt) Hl H1 H2 H3. cbn zeta. unfold long_header_tail, read_long_header.
  app_norm. erewrite M_bind_ok by apply pull_uint8_cons. rewrite H1, H2. cbn [negb].
  erewrite M_bind_ok by (apply pull_uint32_app; by rewrite Hv). rewrite Hv. cbn [Z.eqb QUIC_V1].
  unfold MAX_CID_LENGTH in *.
  erewrite M_bind_ok by (apply pull_cid_app; lia). erewrite M_bind_ok by (apply pull_cid_app; lia).
  rewrite !Z.gtb_ltb, !(proj2 (Z.ltb_ge _ _)) by done. cbn [orb Pos.eqb negb].
  rewrite (M_bind_ok (lift _) _ _ (lt_packet_type t) _) by (unfold lift; by rewrite H3).
  rewrite (decide_False (P := lt_packet_type t = RETRY)) by done. case_decide as Hi.
  - pose proof (len_nonneg (lt_token t)). erewrite M_bind_ok by (apply pull_with_length_app; unfold varint_ok; lia).
    erewrite M_bind_ok by (by apply pull_varint_app). unfold mbind, M_bind, gets, mret, M_ret.
    cbn [position mkbuf _position]. by app_norm.
  - rewrite (Hnt Hi). cbn [app]. unfold mret at 1, M_ret at 1. erewrite M_bind_ok by done.
    erewrite M_bind_ok by (by apply pull_varint_app). unfold mbind, M_bind, gets, mret, M_ret.
    cbn [position mkbuf _position]. by app_norm.
Qed.

Lemma read_long_header_app t length pnl rest :
  wf_template t → 1 <= pnl <= 4 → 0 <= length <= VARINT_MAX →
  let h := long_header_bytes t length pnl in
  read_long_header (mkbuf [] (h ++ rest)) =
  (Ok (mkLongHeader (lt_packet_type t) (lt_version t) (lt_destination_cid t) (lt_source_cid t)
         (lt_token t) length (len h)), mkbuf h rest).
Proof.
  intros Ht Hn Hl. destruct (long_first_byte (lt_packet_type t) pnl Hn) as (_ & Hr & H1 & H2 & H3 & _).
  apply (read_long_header_first t length (bZ (long_first (lt_packet_type t) pnl)) rest Ht Hl); by rewrite Zb_bZ_small.
Qed.

(** ** What the header parsers accept and raise *)

Definition header_error (e : exn) : Prop :=
  match e with HeaderParseError _ | UnsupportedVersion _ | BufferReadError _ => True | _ => False end.

Lemma short_header_error e : short_read e → header_error e.
Proof. by destruct e. Qed.

Lemma reads_pull_cid E :
  (∀ e, short_read e → E e) → reads pull_cid E (λ d n, 0 <= len d < 256 ∧ n = 1 + len d).
Proof.
  intros HE. eapply reads_bind; [by apply reads_pull_uint8|]. cbn. intros v n _ [Hv ->].
  eapply reads_weaken; [apply (reads_pull_bytes E); [done|lia]|done|]. cbn. lia.
Qed.

Lemma PacketType_of_bits b :
  0 <= b < 256 → ∃ t, PacketType_of (Z.land b 0x30 ≫ 4) = Ok t.
Proof.
  intros Hb. rewrite Z.shiftr_land, (land_ones_mod _ 2) by done.
  pose proof (Z.mod_pos_bound (b ≫ 4) (2 ^ 2) ltac:(lia)).
  unfold PacketType_of. repeat case_test; eauto. lia.
Qed.

(** What an accepted long header promises, apart from the bytes consumed. *)
Definition long_header_ok (h : LongHeader) : Prop :=
  lh_packet_type h ≠ RETRY ∧ lh_version h = QUIC_V1 ∧
  len (lh_destination_cid h) <= MAX_CID_LENGTH ∧ len (lh_source_cid h) <= MAX_CID_LENGTH ∧
  (lh_packet_type h ≠ INITIAL → lh_token h = []) ∧ 0 <= lh_length h <= VARINT_MAX.

Lemma reads_long_header : reads read_long_header header_error (λ h _, long_header_ok h).
Proof.
  unfold read_long_header, MAX_CID_LENGTH. reads_step.
  repeat (case_test; [by apply reads_raise|]). reads_step. case_test; [by apply reads_raise|].
  eapply reads_bind; [apply reads_pull_cid, short_header_error|]. cbn. intros d n1 _ [Hd ->].
  eapply reads_bind; [apply reads_pull_cid, short_header_error|]. cbn. intros s n2 _ [Hs ->].
  case_test; [by apply reads_raise|]. bool_cases. case_test; [by apply reads_raise|].
  destruct (PacketType_of_bits v) as [t Ht]; [lia|]. rewrite Ht.
  eapply (reads_bind _ _ _ (λ a _, a = t)); [intros pre rest; exists [], rest; by rewrite app_nil_r|].
  cbn. intros ? n3 _ ->. case_decide; [by apply reads_raise|].
  eapply (reads_bind _ _ _ (λ tok _, t ≠ INITIAL → tok = [])).
  { case_decide; [|by apply reads_ret].
    eapply (reads_weaken _ header_error); [apply reads_with_length_gen, short_header_error|done|by intros]. }
  cbn. intros tok n4 _ Htok. reads_step.
  eapply (reads_bind _ _ _ (λ _ _, True)); [intros pre rest; exists [], rest; by rewrite app_nil_r|].
  cbn. intros. apply reads_ret. unfold long_header_ok, MAX_CID_LENGTH. cbn.
  unfold QUIC_V1 in *. repeat split; try done; lia.
Qed.

(** The offset is where the reader stopped. *)
Lemma read_long_header_offset b h b' :
  read_long_header b = (Ok h, b') → lh_pn_offset h = position b'.
Proof.
  unfold read_long_header. intros H.
  repeat match type of H with
  | (if ?c then _ else _) _ = _ => destruct c; [done|]
  | mret _ _ = _ => unfold mret, M_ret in H; injection H as <- <-
  | (mbind _ (gets _)) _ = _ => unfold gets, mbind at 1, M_bind at 1 in H; cbn in H
  | (mbind _ _) _ = _ => apply M_bind_ok_inv in H as (? & ? & _ & H)
  end. done.
Qed.

(** The version-independent prefix of a long header names the destination
    connection ID that routing reads. *)
Lemma long_header_prefix data h :
  parse_long_header data = Ok h →
  ∃ b0 ver rest, data = b0 :: ver ++ bZ (len (lh_destination_cid h)) :: lh_destination_cid h ++ rest ∧
    len ver = 4 ∧ has_bit (Zb b0) HEADER_FORM_LONG = true ∧ len (lh_destination_cid h) <= MAX_CID_LENGTH ∧
    lh_version h = from_bytes ver.
Proof.
  unfold parse_long_header, read_long_header. rewrite new_buffer_mkbuf. intros H.
  destruct data as [|b0 data].
  { destruct (pull_uint8_nil []) as [m R0]. by erewrite M_bind_raise in H by exact R0. }
  erewrite M_bind_ok in H by apply pull_uint8_cons. case_test_in H; [done|]. case_test_in H; [done|].
  destruct (pull_bytes_cases ([] ++ [b0]) data 4 ltac:(lia)) as [(ver & rest & -> & Hv & R0)|[_ [m R0]]].
  2: { erewrite M_bind_raise in H by (unfold pull_uint32; erewrite M_bind_raise by exact R0; done). done. }
  erewrite M_bind_ok in H by (unfold pull_uint32; erewrite M_bind_ok by exact R0; done).
  case_test_in H; [done|]. destruct rest as [|n rest].
  { destruct (pull_uint8_nil (([] ++ [b0]) ++ ver)) as [m R1].
    erewrite M_bind_raise in H by (unfold pull_cid; erewrite M_bind_raise by exact R1; done). done. }
  destruct (pull_bytes_cases ((([] ++ [b0]) ++ ver) ++ [n]) rest (Zb n) ltac:(apply Zb_range))
    as [(d & rest' & -> & Hd & R1)|[_ [m R1]]].
  2: { erewrite M_bind_raise in H; [done|]. unfold pull_cid. erewrite M_bind_ok by apply pull_uint8_cons. exact R1. }
  erewrite M_bind_ok in H by (unfold pull_cid; erewrite M_bind_ok by apply pull_uint8_cons; exact R1).
  exists b0, ver, rest'.
  enough (lh_destination_cid h = d ∧ len d <= MAX_CID_LENGTH ∧ lh_version h = from_bytes ver) as (-> & ? & ?).
  { replace (bZ (len d)) with n by (by rewrite Hd, bZ_Zb). done. }
  repeat match type of H with
  | ((if ?c then _ else _) _).1 = _ => let E := fresh "C" in destruct c eqn:E; [done|]
  | (mret _ _).1 = _ => unfold mret, M_ret in H; cbn in H; injection H as <-
  | ((mbind _ ?m) ?s).1 = _ =>
      let E := fresh "R" in destruct (m s) as [[?|?] ?] eqn:E;
      [erewrite M_bind_ok in H by exact E | by erewrite M_bind_raise in H by exact E]
  end.
  cbn. apply orb_false_iff in C as [C _]. bool_cases. done.
Qed.

(** A packet of the version we speak is not answered with the versions. *)
Lemma version_one_not_negotiated urandom data h :
  parse_long_header data = Ok h → lh_version h = QUIC_V1 → version_negotiation_response urandom data = Ok None.
Proof.
  intros (b0 & ver & rest & -> & Hv & Hb & _ & E)%long_header_prefix V. unfold version_negotiation_response.
  assert (slice 1 5 (b0 :: ver ++ bZ (len (lh_destination_cid h)) :: lh_destination_cid h ++ rest) = ver) as ->.
  { replace 5 with (len [b0] + len ver) by (rewrite Hv; done). apply (slice_app_mid [b0]). }
  case_test; [done|]. cbn [first_byte]. rewrite Hb, <- E, V. done.
Qed.

Lemma slice_drop {A} i (l : list A) a b :
  l = a ++ b → len a = i → slice i (len l) l = b ∧ drop (Z.to_nat i) l = b.
Proof.
  intros -> <-. rewrite len_app. split.
  - rewrite <- (app_nil_r b) at 2. apply slice_app_mid.
  - by rewrite Z_to_nat_len, drop_app_length.
Qed.

(** Routing reads the connection ID behind a long header's version. *)
Lemma destination_connection_id_long b0 ver d rest n :
  has_bit (Zb b0) HEADER_FORM_LONG = true → len ver = 4 → len d <= MAX_CID_LENGTH →
  destination_connection_id (b0 :: ver ++ bZ (len d) :: d ++ rest) n = Some d.
Proof.
  intros Hb Hv Hd. unfold destination_connection_id, MAX_CID_LENGTH in *. cbn [first_byte]. rewrite Hb. cbn zeta.
  pose proof (len_nonneg d). pose proof (len_nonneg rest).
  replace ((b0 :: ver ++ bZ (len d) :: d ++ rest) !! Z.to_nat (1 + 4)) with (Some (bZ (len d))).
  2: { symmetry. change (b0 :: ver ++ bZ (len d) :: d ++ rest) with ((b0 :: ver) ++ bZ (len d) :: d ++ rest).
       apply list_lookup_middle. unfold len in Hv. cbn [length]. lia. }
  rewrite Zb_bZ_small by lia. autorewrite with lens.
  rewrite Z.gtb_ltb, !(proj2 (Z.ltb_ge _ _)) by lia. cbn [orb].
  replace (b0 :: ver ++ bZ (len d) :: d ++ rest) with ((b0 :: ver ++ [bZ (len d)]) ++ d ++ rest) by (by app_norm).
  replace (1 + 4 + 1) with (len (b0 :: ver ++ [bZ (len d)])) by (autorewrite with lens; lia).
  by rewrite slice_app_mid.
Qed.

Lemma parse_short_header_inv data n h :
  0 <= n → parse_short_header data n = Ok h →
  ∃ b0 rest, data = b0 :: sh_destination_cid h ++ rest ∧ has_bit (Zb b0) HEADER_FORM_LONG = false ∧
    len (sh_destination_cid h) = n ∧ sh_pn_offset h = 1 + n.
Proof.
  unfold parse_short_header, read_short_header. rewrite new_buffer_mkbuf. intros Hn H.
  destruct data as [|b0 data].
  { destruct (pull_uint8_nil []) as [m E]. by erewrite M_bind_raise in H by exact E. }
  erewrite M_bind_ok in H by apply pull_uint8_cons. case_test_in H; [done|]. case_test_in H; [done|].
  destruct (pull_bytes_cases ([] ++ [b0]) data n Hn) as [(d & rest & -> & Hd & R)|[_ [m R]]].
  2: by erewrite M_bind_raise in H by exact R.
  erewrite M_bind_ok in H by exact R. unfold gets, mbind, M_bind, mret, M_ret in H. cbn in H.
  injection H as <-. cbn. exists b0, rest. repeat split; try done. rewrite len_cons. lia.
Qed.

(** ** Version Negotiation answers *)

Definition vn_bytes (urandom : byte) (d s : bytes) : bytes :=
  bZ (Z.lor (Zb urandom) HEADER_FORM_LONG) :: be_bytes 4 0 ++ (bZ (len d) :: d) ++ (bZ (len s) :: s) ++ be_bytes 4 1.

Lemma lor_form_bit u :
  0 <= Z.lor (Zb u) HEADER_FORM_LONG < 256 ∧ has_bit (Z.lor (Zb u) HEADER_FORM_LONG) HEADER_FORM_LONG = true.
Proof. destruct u; by vm_compute. Qed.

Lemma build_version_negotiation_ok u d s :
  len d <= MAX_CID_LENGTH → len s <= MAX_CID_LENGTH → build_version_negotiation u d s = Ok (vn_bytes u d s).
Proof.
  unfold MAX_CID_LENGTH. intros Hd Hs. unfold build_version_negotiation, vn_bytes.
  pose proof (len_nonneg d). pose proof (len_nonneg s).
  rewrite (byte_literal_ok (Z.lor _ _)) by apply lor_form_bit. rewrite !(byte_literal_ok (len _)) by lia.
  cbn -[len Z.lor bZ]. by app_norm.
Qed.

Lemma len_vn_bytes u d s : len (vn_bytes u d s) = 11 + len d + len s.
Proof. unfold vn_bytes. autorewrite with lens. rewrite !len_be_bytes. lia. Qed.

Lemma vn_bytes_split u d s :
  ∃ rest, vn_bytes u d s = [bZ (Z.lor (Zb u) HEADER_FORM_LONG)] ++ be_bytes 4 0 ++ rest ∧
    rest = (bZ (len d) :: d) ++ (bZ (len s) :: s) ++ be_bytes 4 1.
Proof. eauto. Qed.

Lemma versions_loop_one pre fuel :
  versions_loop (S (S fuel)) (mkbuf pre (be_bytes 4 1)) = (Ok [1], mkbuf (pre ++ be_bytes 4 1) []).
Proof.
  pose proof (pull_uint32_app pre [] 1 ltac:(done)) as H. rewrite app_nil_r in H.
  cbn [versions_loop]. erewrite M_bind_ok by done. rewrite is_empty_mkbuf.
  replace (len (be_bytes 4 1) =? 0) with false by done.
  erewrite M_bind_ok by exact H. erewrite M_bind_ok by (erewrite M_bind_ok by done; by rewrite is_empty_mkbuf). done.
Qed.

Lemma parse_vn_bytes u d s :
  len d <= MAX_CID_LENGTH → len s <= MAX_CID_LENGTH →
  parse_version_negotiation (vn_bytes u d s) = Ok (mkVersionNegotiation d s [1]).
Proof.
  unfold MAX_CID_LENGTH. intros Hd Hs. unfold parse_version_negotiation. rewrite new_buffer_mkbuf.
  replace (drop 5 (vn_bytes u d s)) with (bZ (len d) :: d ++ bZ (len s) :: s ++ be_bytes 4 1) by done.
  erewrite M_bind_ok by (apply pull_cid_app; lia). erewrite M_bind_ok by (apply pull_cid_app; lia).
  erewrite M_bind_ok by done. rewrite read_fuel_mkbuf. erewrite M_bind_ok by apply versions_loop_one. done.
Qed.

Lemma is_vn_bytes u d s : is_version_negotiation (vn_bytes u d s) = true.
Proof.
  unfold is_version_negotiation. rewrite len_vn_bytes. pose proof (len_nonneg d). pose proof (len_nonneg s).
  unfold VERSION_END. rewrite (proj2 (Z.ltb_ge _ _)) by lia. cbn [orb].
  unfold vn_bytes. cbn [first_byte]. destruct (lor_form_bit u) as [Hr Hb].
  by rewrite Zb_bZ_small, Hb by done.
Qed.

Lemma pull_cid_cases pre rest :
  (∃ d rest', rest = bZ (len d) :: d ++ rest' ∧ 0 <= len d < 256 ∧
     pull_cid (mkbuf pre rest) = (Ok d, mkbuf (pre ++ bZ (len d) :: d) rest')) ∨
  (∃ msg b, pull_cid (mkbuf pre rest) = (Raise (BufferReadError msg), b)).
Proof.
  destruct rest as [|n rest].
  { right. destruct (pull_uint8_nil pre) as [m E]. exists m, (mkbuf pre []). unfold pull_cid. by erewrite M_bind_raise by exact E. }
  pose proof (Zb_range n).
  destruct (pull_bytes_cases (pre ++ [n]) rest (Zb n) ltac:(lia)) as [(d & rest' & -> & Hd & R)|[_ [m R]]].
  - left. exists d, rest'. rewrite Hd, bZ_Zb. split; [done|]. split; [done|]. unfold pull_cid.
    erewrite M_bind_ok by apply pull_uint8_cons. rewrite R. by app_norm.
  - right. exists m, (mkbuf (pre ++ [n]) rest). unfold pull_cid. by erewrite M_bind_ok by apply pull_uint8_cons.
Qed.

(** Every branch of the stateless answer. *)
Lemma version_negotiation_response_cases u data :
  version_negotiation_response u data = Ok None ∨
  ∃ b0 ver d s rest, data = b0 :: ver ++ bZ (len d) :: d ++ bZ (len s) :: s ++ rest ∧ len ver = 4 ∧
    has_bit (Zb b0) HEADER_FORM_LONG = true ∧ len d <= MAX_CID_LENGTH ∧ len s <= MAX_CID_LENGTH ∧
    MIN_VERSION_NEGOTIATION_DATAGRAM <= len data ∧
    version_negotiation_response u data = Ok (Some (vn_bytes u s d)).
Proof.
  unfold version_negotiation_response, MIN_VERSION_NEGOTIATION_DATAGRAM.
  case_test; [by left|]. case_test; [by left|]. cbn zeta. case_test; [by left|]. rewrite new_buffer_mkbuf.
  destruct data as [|b0 data]; [by cbn in *|]. cbn [drop].
  destruct (pull_cid_cases [] (drop 4 data)) as [(d & r1 & Hd & Hdl & R)|(m & b & R)].
  2: { left. by erewrite M_bind_raise by exact R. }
  erewrite M_bind_ok by exact R.
  destruct (pull_cid_cases ([] ++ bZ (len d) :: d) r1) as [(s & r2 & -> & Hsl & R')|(m & b & R')].
  2: { left. by erewrite M_bind_raise by exact R'. }
  erewrite M_bind_ok by exact R'. unfold mret, M_ret. cbn [fst]. case_test; [by left|]. bool_cases.
  right. exists b0, (take 4 data), d, s, r2. rewrite len_cons in *. split_and!; try done; try lia.
  - by rewrite <- Hd, firstn_skipn.
  - unfold len in *. rewrite length_take. lia.
  - by rewrite build_version_negotiation_ok.
Qed.

(** ** Properties *)

(** A truncated packet number decodes to the original at every receiver
    whose largest processed number is at least the largest the sender saw
    acknowledged, and not a half window ahead of the packet (so reordering is
    covered), as long as fewer than 2^31 packets are unacknowledged. *)
Theorem packet_number_roundtrip full (largest_acked : option Z)
  (Hfull : 0 <= full < 2 ^ 62)
  (Hacked : -1 <= default (-1) largest_acked < full)
  (Hunacked : full - default (-1) largest_acked < 2 ^ 31) :
  ∃ enc, encode_packet_number full largest_acked = Ok enc ∧ 1 <= len enc <= 4 ∧
    ∀ largest, default (-1) largest_acked <= largest < full + 2 ^ (8 * len enc - 1) - 1 →
      decode_packet_number largest (from_bytes enc) (8 * len enc) = full.
Proof.
  set (n := packet_number_bytes full largest_acked).
  assert (Hn : 1 <= n <= 4 ∧ full - default (-1) largest_acked < 2 ^ (8 * n - 1)).
  { pose proof (packet_number_bytes_spec full largest_acked) as H. cbn zeta in H. fold n in H.
    destruct largest_acked; cbn in *; destruct H; lia. }
  exists (be_bytes (Z.to_nat n) full). unfold encode_packet_number. fold n.
  rewrite (to_bytes_ok 8) by (change (256 ^ Z.of_nat 8) with (2 ^ 64); lia). cbn [mbind result_bind].
  rewrite last_bytes_be, len_be_bytes, be_bytes_mod by lia. replace (Z.of_nat (Z.to_nat n)) with n by lia.
  split; [done|]. split; [lia|]. intros largest Hl. apply decode_in_window; lia.
Qed.

Lemma packet_number_roundtrip_witness :
  ∃ enc, encode_packet_number 0xac5c02 (Some 0xabe8b3) = Ok enc ∧ 1 <= len enc <= 4 ∧
    ∀ largest, default (-1) (Some 0xabe8b3) <= largest < 0xac5c02 + 2 ^ (8 * len enc - 1) - 1 →
      decode_packet_number largest (from_bytes enc) (8 * len enc) = 0xac5c02.
Proof. apply (packet_number_roundtrip 0xac5c02 (Some 0xabe8b3)); cbn; lia. Defined.

(** A long header built from a well-formed template parses back, whatever
    follows it: every field, the length and the offset at which the truncated
    packet number starts; the packet-number length is in the two low bits of
    the first byte and the header ends with those bytes of the number. *)
Theorem long_header_roundtrip t payload_length pn pnl rest
  (Ht : wf_template t) (Hpnl : 1 <= pnl <= 4) (Hpl : 0 <= payload_length)
  (Hsum : pnl + payload_length <= VARINT_MAX) (Hpn : 0 <= pn < 2 ^ 62) :
  ∃ header, build_long_header t payload_length pn pnl = Ok header ∧
    parse_long_header (header ++ rest) =
      Ok (mkLongHeader (lt_packet_type t) (lt_version t) (lt_destination_cid t) (lt_source_cid t)
            (lt_token t) (pnl + payload_length) (len header - pnl)) ∧
    Z.land (first_byte header) 0x03 = pnl - 1 ∧
    from_bytes (slice (len header - pnl) (len header) header) = pn mod 2 ^ (8 * pnl).
Proof.
  eexists. split; [apply build_long_header_ok; try done; lia|].
  set (h := long_header_bytes _ _ _). set (q := be_bytes _ _).
  assert (Hq : len q = pnl) by (unfold q; rewrite len_be_bytes; lia).
  rewrite len_app, Hq. replace (len h + pnl - pnl) with (len h) by lia. split_and!.
  - unfold parse_long_header. rewrite new_buffer_mkbuf, <- app_assoc. unfold h.
    rewrite read_long_header_app by (done || lia). done.
  - unfold h, long_header_bytes. cbn [app first_byte].
    destruct (long_first_byte (lt_packet_type t) pnl Hpnl) as (_ & ? & _ & _ & _ & ?). by rewrite Zb_bZ_small.
  - rewrite <- Hq. rewrite <- (app_nil_r q) at 2. rewrite slice_app_mid, Hq. unfold q.
    rewrite be_bytes_mod. do 2 f_equal. lia.
Qed.

Lemma long_header_roundtrip_witness :
  let t := mkLongHeaderTemplate INITIAL QUIC_V1 [x83; x94] [x01] [x00; xff] in
  ∃ header, build_long_header t 1178 70000 3 = Ok header ∧
    parse_long_header (header ++ [x2a]) =
      Ok (mkLongHeader INITIAL QUIC_V1 [x83; x94] [x01] [x00; xff] (3 + 1178) (len header - 3)) ∧
    Z.land (first_byte header) 0x03 = 3 - 1 ∧
    from_bytes (slice (len header - 3) (len header) header) = 70000 mod 2 ^ (8 * 3).
Proof.
  intros t. apply (long_header_roundtrip t 1178 70000 3 [x2a]); try by vm_compute.
Defined.

(** On any datagram, [parse_long_header] returns or raises a header or
    short-read error, nothing else; what it accepts is version 1, not a
    Retry, with connection IDs of at most 20 bytes, and the packet-number
    offset lies inside the datagram. *)
Theorem parse_long_header_total data :
  match parse_long_header data with
  | Ok h => long_header_ok h ∧ 0 <= lh_pn_offset h <= len data
  | Raise e => header_error e
  end.
Proof.
  unfold parse_long_header. rewrite new_buffer_mkbuf.
  destruct (read_long_header (mkbuf [] data)) as [[h|e] b] eqn:E; cbn.
  - pose proof (read_long_header_offset _ _ _ E) as ->.
    pose proof (reads_ok _ _ _ _ _ _ _ reads_long_header E) as (bs & r & -> & -> & Hh).
    split; [done|]. cbn. rewrite len_app. pose proof (len_nonneg bs). pose proof (len_nonneg r). lia.
  - by apply (reads_raised _ _ _ _ _ _ _ reads_long_header E).
Qed.

(** Routing agrees with parsing: whenever either header parser accepts a
    datagram, the demultiplexer reads the same destination connection ID. *)
Theorem routing_agrees_with_parsing data cid_length (Hn : 0 <= cid_length) :
  (∀ h, parse_long_header data = Ok h →
        destination_connection_id data cid_length = Some (lh_destination_cid h)) ∧
  (∀ h, parse_short_header data cid_length = Ok h →
        destination_connection_id data cid_length = Some (sh_destination_cid h)).
Proof.
  split.
  - intros h (b0 & ver & rest & -> & Hv & Hb & Hd & _)%long_header_prefix. by apply destination_connection_id_long.
  - intros h (b0 & rest & -> & Hb & Hl & _)%parse_short_header_inv; [|done].
    unfold destination_connection_id. cbn [first_byte]. rewrite Hb. autorewrite with lens.
    pose proof (len_nonneg rest). rewrite (proj2 (Z.ltb_ge _ _)) by lia.
    change (b0 :: sh_destination_cid h ++ rest) with ([b0] ++ sh_destination_cid h ++ rest).
    change 1 with (len [b0]) at 1 2. rewrite <- Hl. by rewrite slice_app_mid.
Qed.

Lemma routing_agrees_with_parsing_witness :
  (∀ h, parse_long_header [x40; x01; x02; x03] = Ok h →
        destination_connection_id [x40; x01; x02; x03] 2 = Some (lh_destination_cid h)) ∧
  (∀ h, parse_short_header [x40; x01; x02; x03] 2 = Ok h →
        destination_connection_id [x40; x01; x02; x03] 2 = Some (sh_destination_cid h)).
Proof. apply (routing_agrees_with_parsing [x40; x01; x02; x03] 2). lia. Defined.

(** The stateless Version Negotiation answer never raises; when there is
    one, it is shorter than the datagram it answers (no amplification), is
    itself never answered (no loop), is recognised as Version Negotiation, and
    parses to the supported versions with the client's IDs swapped: its
    source is the ID the datagram was routed by. *)
Theorem version_negotiation_safe urandom datagram :
  ∃ answer, version_negotiation_response urandom datagram = Ok answer ∧
    ∀ packet, answer = Some packet →
      len packet < len datagram ∧
      is_version_negotiation packet = true ∧
      (∀ urandom', version_negotiation_response urandom' packet = Ok None) ∧
      ∃ vn, parse_version_negotiation packet = Ok vn ∧ vn_versions vn = SUPPORTED_VERSIONS ∧
        ∀ n, destination_connection_id datagram n = Some (vn_source_cid vn).
Proof.
  destruct (version_negotiation_response_cases urandom datagram)
    as [H|(b0 & ver & d & s & rest & Hdata & Hv & Hb & Hd & Hs & Hmin & H)]; (eexists; split; [exact H|]); [done|].
  intros packet [= <-]. pose proof (len_vn_bytes urandom s d). unfold MAX_CID_LENGTH, MIN_VERSION_NEGOTIATION_DATAGRAM in *.
  split; [lia|]. split; [apply is_vn_bytes|]. split.
  - intros u'. unfold version_negotiation_response, MIN_VERSION_NEGOTIATION_DATAGRAM.
    by rewrite (proj2 (Z.ltb_lt _ _)) by lia.
  - exists (mkVersionNegotiation s d [1]). split; [by apply parse_vn_bytes|]. split; [done|].
    intros n. subst. cbn [vn_source_cid]. by apply destination_connection_id_long.
Qed.
