(* ===== verification/TransportParameters.v ===== *)
(** * Transport parameters (transport_parameters.py)

    The [TransportParameters] dataclass of
    [src/dsquic/transport_parameters.py], its [encode] method,
    [decode_transport_parameters] and [reduces_zero_rtt_limits] (RFC 9000
    sections 7.4 and 18, RFC 9001 section 7.4.1).  The decoder's [values] is
    an insertion-ordered dictionary; its [while] loop has the fuel of the
    bytes left, every round reading at least two. *)

From S2P Require Import Prelude Buffer Frames FramesProofs.

(** ** Model *)

Definition ORIGINAL_DESTINATION_CONNECTION_ID : Z := 0x00.
Definition MAX_IDLE_TIMEOUT : Z := 0x01.
Definition MAX_UDP_PAYLOAD_SIZE : Z := 0x03.
Definition INITIAL_MAX_DATA : Z := 0x04.
Definition INITIAL_MAX_STREAM_DATA_BIDI_LOCAL : Z := 0x05.
Definition INITIAL_MAX_STREAM_DATA_BIDI_REMOTE : Z := 0x06.
Definition INITIAL_MAX_STREAM_DATA_UNI : Z := 0x07.
Definition INITIAL_MAX_STREAMS_BIDI : Z := 0x08.
Definition INITIAL_MAX_STREAMS_UNI : Z := 0x09.
Definition ACK_DELAY_EXPONENT : Z := 0x0A.
Definition MAX_ACK_DELAY : Z := 0x0B.
Definition ACTIVE_CONNECTION_ID_LIMIT : Z := 0x0E.
Definition INITIAL_SOURCE_CONNECTION_ID : Z := 0x0F.
Definition RETRY_SOURCE_CONNECTION_ID : Z := 0x10.
Definition MAX_DATAGRAM_FRAME_SIZE : Z := 0x20.
Definition DEFAULT_ACK_DELAY_EXPONENT : Z := 3.
Definition DEFAULT_MAX_ACK_DELAY_MS : Z := 25.

Record TransportParameters : Type := mkTransportParameters {
  original_destination_connection_id : option bytes;
  retry_source_connection_id : option bytes;
  initial_source_connection_id : option bytes;
  max_idle_timeout_ms : Z;
  max_udp_payload_size : Z;
  initial_max_data : Z;
  initial_max_stream_data_bidi_local : Z;
  initial_max_stream_data_bidi_remote : Z;
  initial_max_stream_data_uni : Z;
  initial_max_streams_bidi : Z;
  initial_max_streams_uni : Z;
  ack_delay_exponent : Z;
  max_ack_delay_ms : Z;
  active_connection_id_limit : Z;
  max_datagram_frame_size : option Z }.

(** The dataclass defaults. *)
Definition default_parameters : TransportParameters :=
  mkTransportParameters None None None 0 65527 0 0 0 0 0 0
    DEFAULT_ACK_DELAY_EXPONENT DEFAULT_MAX_ACK_DELAY_MS 2 None.

(** The local functions of [encode]; each returns what it appends. *)
Definition put_parameter (parameter_id : Z) (value : bytes) : result bytes :=
  i ← encode_varint parameter_id; n ← encode_varint (len value); Ok (i ++ n ++ value).
Definition put_int (parameter_id value : Z) : result bytes :=
  v ← encode_varint value; put_parameter parameter_id v.
Definition put_optional {A} (f : A → result bytes) (o : option A) : result bytes :=
  match o with Some a => f a | None => Ok [] end.

Definition encode_transport_parameters (p : TransportParameters) : result bytes :=
  a ← put_optional (put_parameter ORIGINAL_DESTINATION_CONNECTION_ID) (original_destination_connection_id p);
  b ← put_optional (put_parameter RETRY_SOURCE_CONNECTION_ID) (retry_source_connection_id p);
  c ← put_optional (put_parameter INITIAL_SOURCE_CONNECTION_ID) (initial_source_connection_id p);
  ints ← mapM_result (λ '(i, v), put_int i v)
    [(MAX_IDLE_TIMEOUT, max_idle_timeout_ms p);
     (MAX_UDP_PAYLOAD_SIZE, max_udp_payload_size p);
     (INITIAL_MAX_DATA, initial_max_data p);
     (INITIAL_MAX_STREAM_DATA_BIDI_LOCAL, initial_max_stream_data_bidi_local p);
     (INITIAL_MAX_STREAM_DATA_BIDI_REMOTE, initial_max_stream_data_bidi_remote p);
     (INITIAL_MAX_STREAM_DATA_UNI, initial_max_stream_data_uni p);
     (INITIAL_MAX_STREAMS_BIDI, initial_max_streams_bidi p);
     (INITIAL_MAX_STREAMS_UNI, initial_max_streams_uni p);
     (ACK_DELAY_EXPONENT, ack_delay_exponent p);
     (MAX_ACK_DELAY, max_ack_delay_ms p);
     (ACTIVE_CONNECTION_ID_LIMIT, active_connection_id_limit p)];
  d ← put_optional (put_int MAX_DATAGRAM_FRAME_SIZE) (max_datagram_frame_size p);
  Ok (a ++ b ++ c ++ concat ints ++ d).

(** The [while] loop, with the [values] dictionary threaded. *)
Fixpoint parameters_loop (fuel : nat) (values : list (Z * bytes)) : M Buffer (list (Z * bytes)) :=
  b ← get;
  if is_empty b then mret values
  else match fuel with
  | O => raise OutOfFuel
  | S fuel' =>
      parameter_id ← pull_varint;
      value ← pull_with_length;
      parameters_loop fuel' (d_set parameter_id value values)
  end.

(** [Buffer(raw).pull_varint() if raw else default]. *)
Definition varint_or {A} (raw : option bytes) (default : A) (some : Z → A) : result A :=
  match raw with
  | None | Some [] => Ok default
  | Some r => v ← (pull_varint (new_buffer r)).1; Ok (some v)
  end.

Definition as_int (values : list (Z * bytes)) (parameter_id default : Z) : result Z :=
  varint_or (d_get parameter_id values) default id.

(** The dataclass construction, fields evaluated in order. *)
Definition parameters_of (values : list (Z * bytes)) : result TransportParameters :=
  idle ← as_int values MAX_IDLE_TIMEOUT 0;
  udp ← as_int values MAX_UDP_PAYLOAD_SIZE 65527;
  data ← as_int values INITIAL_MAX_DATA 0;
  bidi_local ← as_int values INITIAL_MAX_STREAM_DATA_BIDI_LOCAL 0;
  bidi_remote ← as_int values INITIAL_MAX_STREAM_DATA_BIDI_REMOTE 0;
  uni ← as_int values INITIAL_MAX_STREAM_DATA_UNI 0;
  streams_bidi ← as_int values INITIAL_MAX_STREAMS_BIDI 0;
  streams_uni ← as_int values INITIAL_MAX_STREAMS_UNI 0;
  exponent ← as_int values ACK_DELAY_EXPONENT DEFAULT_ACK_DELAY_EXPONENT;
  delay ← as_int values MAX_ACK_DELAY DEFAULT_MAX_ACK_DELAY_MS;
  cid_limit ← as_int values ACTIVE_CONNECTION_ID_LIMIT 2;
  datagram ← varint_or (d_get MAX_DATAGRAM_FRAME_SIZE values) None Some;
  Ok (mkTransportParameters
        (d_get ORIGINAL_DESTINATION_CONNECTION_ID values)
        (d_get RETRY_SOURCE_CONNECTION_ID values)
        (d_get INITIAL_SOURCE_CONNECTION_ID values)
        idle udp data bidi_local bidi_remote uni streams_bidi streams_uni
        exponent delay cid_limit datagram).

Definition decode_transport_parameters (data : bytes) : result TransportParameters :=
  values ← (parameters_loop (length data) [] (new_buffer data)).1;
  parameters_of values.

Definition reduces_zero_rtt_limits (remembered current : TransportParameters) : bool :=
  (initial_max_data current <? initial_max_data remembered)
  || (initial_max_stream_data_bidi_local current <? initial_max_stream_data_bidi_local remembered)
  || (initial_max_stream_data_bidi_remote current <? initial_max_stream_data_bidi_remote remembered)
  || (initial_max_stream_data_uni current <? initial_max_stream_data_uni remembered)
  || (initial_max_streams_bidi current <? initial_max_streams_bidi remembered)
  || (initial_max_streams_uni current <? initial_max_streams_uni remembered)
  || (active_connection_id_limit current <? active_connection_id_limit remembered).

(** ** Well-formed parameters and their wire form *)

Definition wf_parameters (p : TransportParameters) : Prop :=
  let cid_ok := from_option (λ c : bytes, varint_ok (len c)) True in
  cid_ok (original_destination_connection_id p) ∧ cid_ok (retry_source_connection_id p) ∧
  cid_ok (initial_source_connection_id p) ∧
  Forall varint_ok [max_idle_timeout_ms p; max_udp_payload_size p; initial_max_data p;
    initial_max_stream_data_bidi_local p; initial_max_stream_data_bidi_remote p;
    initial_max_stream_data_uni p; initial_max_streams_bidi p; initial_max_streams_uni p;
    ack_delay_exponent p; max_ack_delay_ms p; active_connection_id_limit p] ∧
  from_option varint_ok True (max_datagram_frame_size p).

(** The identifiers the decoder looks up. *)
Definition known_parameters : list Z :=
  [ORIGINAL_DESTINATION_CONNECTION_ID; MAX_IDLE_TIMEOUT; MAX_UDP_PAYLOAD_SIZE; INITIAL_MAX_DATA;
   INITIAL_MAX_STREAM_DATA_BIDI_LOCAL; INITIAL_MAX_STREAM_DATA_BIDI_REMOTE;
   INITIAL_MAX_STREAM_DATA_UNI; INITIAL_MAX_STREAMS_BIDI; INITIAL_MAX_STREAMS_UNI;
   ACK_DELAY_EXPONENT; MAX_ACK_DELAY; ACTIVE_CONNECTION_ID_LIMIT; INITIAL_SOURCE_CONNECTION_ID;
   RETRY_SOURCE_CONNECTION_ID; MAX_DATAGRAM_FRAME_SIZE].

(** A list of (identifier, value) pairs on the wire. *)
Definition triple_bytes (e : Z * bytes) : bytes := vb e.1 ++ lb e.2.
Definition triples_bytes (l : list (Z * bytes)) : bytes := concat (triple_bytes <$> l).
Definition wf_triple (e : Z * bytes) : Prop := varint_ok e.1 ∧ varint_ok (len e.2).

Definition triple_opt {A} (i : Z) (f : A → bytes) (o : option A) : list (Z * bytes) :=
  match o with Some a => [(i, f a)] | None => [] end.

Definition parameters_triples (p : TransportParameters) : list (Z * bytes) :=
  triple_opt ORIGINAL_DESTINATION_CONNECTION_ID id (original_destination_connection_id p)
  ++ triple_opt RETRY_SOURCE_CONNECTION_ID id (retry_source_connection_id p)
  ++ triple_opt INITIAL_SOURCE_CONNECTION_ID id (initial_source_connection_id p)
  ++ [(MAX_IDLE_TIMEOUT, vb (max_idle_timeout_ms p));
      (MAX_UDP_PAYLOAD_SIZE, vb (max_udp_payload_size p));
      (INITIAL_MAX_DATA, vb (initial_max_data p));
      (INITIAL_MAX_STREAM_DATA_BIDI_LOCAL, vb (initial_max_stream_data_bidi_local p));
      (INITIAL_MAX_STREAM_DATA_BIDI_REMOTE, vb (initial_max_stream_data_bidi_remote p));
      (INITIAL_MAX_STREAM_DATA_UNI, vb (initial_max_stream_data_uni p));
      (INITIAL_MAX_STREAMS_BIDI, vb (initial_max_streams_bidi p));
      (INITIAL_MAX_STREAMS_UNI, vb (initial_max_streams_uni p));
      (ACK_DELAY_EXPONENT, vb (ack_delay_exponent p));
      (MAX_ACK_DELAY, vb (max_ack_delay_ms p));
      (ACTIVE_CONNECTION_ID_LIMIT, vb (active_connection_id_limit p))]
  ++ triple_opt MAX_DATAGRAM_FRAME_SIZE vb (max_datagram_frame_size p).

Lemma put_parameter_ok i v : wf_triple (i, v) → put_parameter i v = Ok (triple_bytes (i, v)).
Proof.
  intros [Hi Hv]. unfold put_parameter, triple_bytes, lb, vb. cbn in *.
  by rewrite !encode_varint_ok by done.
Qed.

Lemma varint_ok_vb v : varint_ok v → varint_ok (len (vb v)).
Proof.
  intros H. unfold vb. rewrite len_varint_bytes by done. pose proof (varint_size_pos v).
  unfold varint_ok, VARINT_MAX. lia.
Qed.

Lemma put_int_ok i v : varint_ok i → varint_ok v → put_int i v = Ok (triple_bytes (i, vb v)).
Proof.
  intros Hi Hv. unfold put_int. rewrite encode_varint_ok by done. cbn. apply put_parameter_ok.
  split; [done|]. by apply varint_ok_vb.
Qed.

Lemma mapM_put_int_ok l :
  Forall (λ e, varint_ok e.1 ∧ varint_ok e.2) l →
  mapM_result (λ '(i, v), put_int i v) l = Ok ((λ '(i, v), triple_bytes (i, vb v)) <$> l).
Proof. induction 1 as [|[i v] l [Hi Hv] _ IH]; cbn; [done|]. cbn in *. rewrite put_int_ok, IH by done. done. Qed.

Lemma triples_bytes_app l k : triples_bytes (l ++ k) = triples_bytes l ++ triples_bytes k.
Proof. unfold triples_bytes. by rewrite fmap_app, concat_app. Qed.

Lemma put_optional_ok {A} (P : A → Prop) (put : A → result bytes) i f o :
  (∀ a, P a → put a = Ok (triple_bytes (i, f a))) → from_option P True o →
  put_optional put o = Ok (triples_bytes (triple_opt i f o)).
Proof.
  intros Hput Ho. destruct o as [a|]; cbn in *; [|done]. rewrite Hput by done.
  unfold triples_bytes. cbn. by rewrite app_nil_r.
Qed.

Lemma encode_parameters_ok p :
  wf_parameters p → encode_transport_parameters p = Ok (triples_bytes (parameters_triples p)).
Proof.
  intros (Ha & Hb & Hc & Hints & Hd). unfold encode_transport_parameters, parameters_triples.
  rewrite !triples_bytes_app.
  do 3 (erewrite (put_optional_ok (λ c : bytes, varint_ok (len c)) _ _ id) by
    (try done; intros c Hlen; apply put_parameter_ok; by split)). cbn [mbind result_bind].
  repeat (apply Forall_cons in Hints as [? Hints]).
  rewrite mapM_put_int_ok by (repeat (apply Forall_cons; split; [by split|]); apply Forall_nil_2).
  cbn [mbind result_bind].
  erewrite (put_optional_ok varint_ok _ _ vb) by (try done; intros v Hv; by apply put_int_ok).
  reflexivity.
Qed.

(** The loop stores the triples in wire order. *)
Definition store (l : list (Z * bytes)) (values : list (Z * bytes)) : list (Z * bytes) :=
  fold_left (λ d e, d_set e.1 e.2 d) l values.

Lemma triple_bytes_nonempty e rest : len (triple_bytes e ++ rest) =? 0 = false.
Proof.
  apply Z.eqb_neq. unfold triple_bytes, vb, varint_bytes, varint_form. autorewrite with lens.
  rewrite len_be_bytes. pose proof (len_nonneg rest). pose proof (len_nonneg (lb e.2)).
  match goal with |- context [2 ^ ?t] => assert (0 < 2 ^ t) by (apply Z.pow_pos_nonneg; [lia|repeat case_test; lia]) end.
  lia.
Qed.

Lemma parameters_loop_app l : ∀ pre values fuel,
  Forall wf_triple l → (length l <= fuel)%nat →
  parameters_loop fuel values (mkbuf pre (triples_bytes l)) = (Ok (store l values), mkbuf (pre ++ triples_bytes l) []).
Proof.
  induction l as [|[i v] l IH]; intros pre values fuel Hl Hfuel.
  - destruct fuel; cbn [parameters_loop]; erewrite M_bind_ok by done; rewrite is_empty_mkbuf; cbn; by rewrite app_nil_r.
  - apply Forall_cons in Hl as [[Hi Hv] Hl]. cbn in Hfuel, Hi, Hv. destruct fuel as [|fuel]; [lia|].
    unfold triples_bytes in *. cbn [fmap list_fmap concat parameters_loop]. erewrite M_bind_ok by done.
    rewrite is_empty_mkbuf, triple_bytes_nonempty. unfold triple_bytes. cbn [fst snd]. rewrite <- !app_assoc.
    erewrite M_bind_ok by (by apply pull_varint_app). erewrite M_bind_ok by (by apply pull_with_length_app).
    rewrite IH by (done || lia). by app_norm.
Qed.

Lemma triples_bytes_length l : (length l <= length (triples_bytes l))%nat.
Proof.
  unfold triples_bytes. induction l as [|e l IH]; cbn; [lia|]. rewrite length_app.
  pose proof (triple_bytes_nonempty e []) as H. rewrite app_nil_r in H. apply Z.eqb_neq in H. unfold len in H. lia.
Qed.

Lemma decode_triples l :
  Forall wf_triple l → decode_transport_parameters (triples_bytes l) = parameters_of (store l []).
Proof.
  intros Hl. unfold decode_transport_parameters. rewrite new_buffer_mkbuf, parameters_loop_app by
    (done || apply triples_bytes_length). done.
Qed.

(** Looking up a stored dictionary: the triples after the first are searched
    last to first. *)
Lemma d_get_store_notin k l values : k ∉ l.*1 → d_get k (store l values) = d_get k values.
Proof.
  revert values. induction l as [|[i v] l IH]; intros values Hk; cbn in *; [done|].
  apply not_elem_of_cons in Hk as [Hne Hk]. rewrite IH by done. by apply d_get_set_ne.
Qed.

Lemma store_app l k values : store (l ++ k) values = store k (store l values).
Proof. unfold store. by rewrite fold_left_app. Qed.

Lemma varint_or_vb {A} v (d : A) f : varint_ok v → varint_or (Some (vb v)) d f = Ok (f v).
Proof.
  intros Hv. unfold varint_or, vb. pose proof (pull_varint_app [] [] v Hv) as H. rewrite app_nil_r in H.
  rewrite new_buffer_mkbuf, H. pose proof (len_varint_bytes v Hv) as Hl. pose proof (varint_size_pos v).
  destruct (varint_bytes v); [rewrite len_nil in Hl; lia|done].
Qed.

(** The fields only depend on the known identifiers. *)
Lemma parameters_of_ext d d' :
  (∀ k, k ∈ known_parameters → d_get k d = d_get k d') → parameters_of d = parameters_of d'.
Proof.
  intros H. unfold parameters_of, as_int.
  rewrite !H by (eapply bool_decide_unpack; by vm_compute). done.
Qed.

Lemma parameters_of_triples p :
  wf_parameters p → parameters_of (store (parameters_triples p) []) = Ok p.
Proof.
  intros (_ & _ & _ & Hints & Hd). repeat (apply Forall_cons in Hints as [? Hints]).
  destruct p as [a b c ? ? ? ? ? ? ? ? ? ? ? d]; cbn in *.
  destruct a, b, c, d; cbn in Hd; unfold parameters_of, as_int, parameters_triples, store; cbn -[varint_or vb d_set d_get];
    repeat first [rewrite d_get_set_eq | rewrite d_get_set_ne by done];
    rewrite !varint_or_vb by done; reflexivity.
Qed.

Lemma parameters_triples_wf p : wf_parameters p → Forall wf_triple (parameters_triples p).
Proof.
  intros (Ha & Hb & Hc & Hints & Hd). repeat (apply Forall_cons in Hints as [? Hints]).
  unfold parameters_triples. rewrite !Forall_app.
  assert (∀ (i : Z) (o : option bytes), varint_ok i → from_option (λ c : bytes, varint_ok (len c)) True o →
            Forall wf_triple (triple_opt i id o)) as Hopt.
  { intros i [c|] Hi Hc'; cbn; [|done]. apply Forall_singleton. by split. }
  split; [by apply Hopt|]. split; [by apply Hopt|]. split; [by apply Hopt|]. split.
  - repeat (apply Forall_cons; split; [split; [done|by apply varint_ok_vb]|]). done.
  - destruct (max_datagram_frame_size p); cbn in *; [|done]. apply Forall_singleton. split; [done|by apply varint_ok_vb].
Qed.

(** ** What the decoder raises *)

Lemma reads_parameters_loop fuel values pre rest :
  (length rest <= fuel)%nat →
  match (parameters_loop fuel values (mkbuf pre rest)).1 with Ok _ => True | Raise e => short_read e end.
Proof.
  revert values pre rest. induction fuel as [|fuel IH]; intros values pre rest Hf; cbn [parameters_loop];
    (erewrite M_bind_ok by done); rewrite is_empty_mkbuf.
  { destruct rest; [done|cbn in Hf; lia]. }
  case_test; [done|].
  destruct (pull_varint (mkbuf pre rest)) as [[i|e] b] eqn:E1.
  2: { erewrite M_bind_raise by exact E1. cbn. by apply (reads_raised _ _ _ _ _ _ _ (reads_pull_varint short_read (λ _ H, H)) E1). }
  erewrite M_bind_ok by exact E1.
  apply (reads_ok _ _ _ _ _ _ _ (reads_pull_varint short_read (λ _ H, H))) in E1 as (bs & r & -> & -> & _ & Hn).
  destruct (pull_with_length (mkbuf (pre ++ bs) r)) as [[v|e] b] eqn:E2.
  2: { erewrite M_bind_raise by exact E2. cbn. by apply (reads_raised _ _ _ _ _ _ _ (reads_with_length_gen short_read (λ _ H, H)) E2). }
  erewrite M_bind_ok by exact E2.
  apply (reads_ok _ _ _ _ _ _ _ (reads_with_length_gen short_read (λ _ H, H))) in E2 as (bs2 & r2 & -> & -> & _).
  apply IH. rewrite !length_app in Hf. unfold len in Hn. lia.
Qed.

Lemma varint_or_raises {A} raw (d : A) f :
  match varint_or raw d f with Ok _ => True | Raise e => short_read e end.
Proof.
  destruct raw as [[|x r]|]; [done| |done]. unfold varint_or. rewrite new_buffer_mkbuf.
  destruct (pull_varint _) as [[v|e] b] eqn:E; [done|].
  by apply (reads_raised _ _ _ _ _ _ _ (reads_pull_varint short_read (λ _ H, H)) E).
Qed.

Lemma parameters_of_raises values :
  match parameters_of values with Ok _ => True | Raise e => short_read e end.
Proof.
  unfold parameters_of, as_int.
  repeat match goal with
  | |- context [mbind _ (varint_or ?r ?d ?f)] =>
      pose proof (varint_or_raises r d f); destruct (varint_or r d f); cbn [mbind result_bind]; [|done]
  end. done.
Qed.

(** ** Properties *)

(** Encoded parameters decode to themselves, and parameters with unknown
    identifiers (grease included), appended in any number and repeated or
    not, change nothing. *)
Theorem transport_parameters_roundtrip p extras
  (Hp : wf_parameters p)
  (Hextras : Forall (λ e, wf_triple e ∧ e.1 ∉ known_parameters) extras) :
  ∃ body unknown, encode_transport_parameters p = Ok body ∧
    mapM_result (λ e, put_parameter e.1 e.2) extras = Ok unknown ∧
    decode_transport_parameters (body ++ concat unknown) = Ok p.
Proof.
  exists (triples_bytes (parameters_triples p)), (triple_bytes <$> extras).
  split; [by apply encode_parameters_ok|]. split.
  - clear Hp. induction Hextras as [|[i v] l [Hwf _] _ IH]; [done|]. cbn in *.
    by rewrite put_parameter_ok, IH by done.
  - fold (triples_bytes extras). rewrite <- triples_bytes_app, decode_triples.
    2: { apply Forall_app. split; [by apply parameters_triples_wf|]. eapply Forall_impl; [done|]. by intros e [? _]. }
    rewrite store_app. rewrite (parameters_of_ext _ (store (parameters_triples p) [])).
    + by apply parameters_of_triples.
    + intros k Hk. apply d_get_store_notin. intros ([i v] & -> & Hin)%list_elem_of_fmap.
      rewrite Forall_forall in Hextras. by destruct (Hextras _ Hin).
Qed.

Definition sample_parameters : TransportParameters :=
  mkTransportParameters (Some [x01; x02]) None (Some []) 30000 1472 1048576 65536 65536 65536 100 3 3 25 4 (Some 1200).

Lemma transport_parameters_roundtrip_witness :
  ∃ body unknown, encode_transport_parameters sample_parameters = Ok body ∧
    mapM_result (λ e, put_parameter e.1 e.2) [(27, [x00]); (27, [])] = Ok unknown ∧
    decode_transport_parameters (body ++ concat unknown) = Ok sample_parameters.
Proof.
  apply (transport_parameters_roundtrip sample_parameters [(27, [x00]); (27, [])]).
  - unfold wf_parameters, sample_parameters, varint_ok, VARINT_MAX, len. cbn. split_and!; try lia.
    repeat (apply Forall_cons_2; [lia|]). apply Forall_nil_2.
  - repeat (apply Forall_cons_2; [split; [unfold wf_triple, varint_ok, VARINT_MAX, len; cbn; lia|
      eapply bool_decide_unpack; by vm_compute]|]). apply Forall_nil_2.
Defined.

(** On any extension body, the decoder returns parameters or raises the
    reader's short-read error; no other exception escapes and the loop ends. *)
Theorem decode_transport_parameters_total data :
  match decode_transport_parameters data with
  | Ok _ => True
  | Raise e => ∃ msg, e = BufferReadError msg
  end.
Proof.
  assert (H : match decode_transport_parameters data with Ok _ => True | Raise e => short_read e end).
  { unfold decode_transport_parameters. rewrite new_buffer_mkbuf.
    pose proof (reads_parameters_loop (length data) [] [] data ltac:(lia)) as H.
    destruct (parameters_loop _ _ _) as [[v|e] b]; cbn in *; [apply parameters_of_raises|done]. }
  destruct (decode_transport_parameters data) as [|[]]; try done. eauto.
Qed.

(** The 0-RTT check accepts new parameters exactly when every limit a
    client may have sent 0-RTT data under is at least the remembered one. *)
Theorem zero_rtt_limits_kept remembered current :
  reduces_zero_rtt_limits remembered current = false ↔
  initial_max_data remembered <= initial_max_data current ∧
  initial_max_stream_data_bidi_local remembered <= initial_max_stream_data_bidi_local current ∧
  initial_max_stream_data_bidi_remote remembered <= initial_max_stream_data_bidi_remote current ∧
  initial_max_stream_data_uni remembered <= initial_max_stream_data_uni current ∧
  initial_max_streams_bidi remembered <= initial_max_streams_bidi current ∧
  initial_max_streams_uni remembered <= initial_max_streams_uni current ∧
  active_connection_id_limit remembered <= active_connection_id_limit current.
Proof. unfold reduces_zero_rtt_limits. rewrite !orb_false_iff, !Z.ltb_ge. tauto. Qed.
