(* ===== verification/RangeSet.v ===== *)
(** * Range sets (RangeSet of streams.py)

    The [RangeSet] class of [src/dsquic/streams.py]: a list of half-open
    integer ranges, kept sorted and merged, that records received stream and
    CRYPTO bytes, acknowledged bytes and received packet numbers.  The
    specification is the set of integers covered: [add] is union with an
    interval, [covers] is inclusion of an interval, [contiguous_from] is the
    least integer from its argument on that is not covered, and the
    representation is canonical. *)

From S2P Require Import Prelude.

(** ** Model *)

Definition range : Type := (Z * Z)%type.

(** A [RangeSet] object is its [_ranges] list. *)
Definition RangeSet : Type := list range.
Definition empty_ranges : RangeSet := [].

(** Tuple order, which [list.sort] uses. *)
Definition range_leb (a b : range) : bool :=
  (a.1 <? b.1) || ((a.1 =? b.1) && (a.2 <=? b.2)).

Fixpoint insert_range (x : range) (l : list range) : list range :=
  match l with
  | [] => [x]
  | y :: l' => if range_leb x y then x :: y :: l' else y :: insert_range x l'
  end.

Fixpoint sort_ranges (l : list range) : list range :=
  match l with
  | [] => []
  | x :: l' => insert_range x (sort_ranges l')
  end.

(** The loop of [add]: the ranges kept, in order, and the grown bounds. *)
Fixpoint add_loop (start stop : Z) (ranges : list range) : list range * Z * Z :=
  match ranges with
  | [] => ([], start, stop)
  | (existing_start, existing_end) :: ranges' =>
      if (existing_end <? start) || (stop <? existing_start) then
        let '(merged, s, e) := add_loop start stop ranges' in
        ((existing_start, existing_end) :: merged, s, e)
      else add_loop (Z.min start existing_start) (Z.max stop existing_end) ranges'
  end.

Definition add (start stop : Z) (rs : RangeSet) : RangeSet :=
  if start >=? stop then rs
  else let '(merged, s, e) := add_loop start stop rs in sort_ranges (merged ++ [(s, e)]).

Fixpoint contiguous_from (start : Z) (rs : RangeSet) : Z :=
  match rs with
  | [] => start
  | (existing_start, existing_end) :: rs' =>
      if (existing_start <=? start) && (start <? existing_end) then existing_end
      else contiguous_from start rs'
  end.

Definition covers (start stop : Z) (rs : RangeSet) : bool := contiguous_from start rs >=? stop.

(** ** Specification *)

(** The integers a list of ranges stands for. *)
Definition covered (rs : RangeSet) (x : Z) : Prop := ∃ r, r ∈ rs ∧ r.1 <= x < r.2.

(** [a] lies wholly below [b], with a hole between them. *)
Definition below (a b : range) : Prop := a.2 < b.1.

(** The class invariant: non-empty ranges, increasing and never adjacent. *)
Definition ranges_ok (rs : RangeSet) : Prop := Forall (λ r, r.1 < r.2) rs ∧ StronglySorted below rs.

(** ** Lemmas *)

Lemma covered_nil x : ¬ covered [] x.
Proof. intros (r & Hr & _). by apply elem_of_nil in Hr. Qed.

Lemma covered_cons r rs x : covered (r :: rs) x ↔ r.1 <= x < r.2 ∨ covered rs x.
Proof.
  unfold covered. setoid_rewrite elem_of_cons. split.
  - intros (r' & [->|Hr] & Hx); eauto.
  - intros [Hx|(r' & Hr & Hx)]; eauto.
Qed.

Lemma covered_app rs rs' x : covered (rs ++ rs') x ↔ covered rs x ∨ covered rs' x.
Proof.
  unfold covered. setoid_rewrite elem_of_app. split.
  - intros (r & [?|?] & ?); eauto.
  - intros [(r & ? & ?)|(r & ? & ?)]; eauto.
Qed.

Lemma covered_perm rs rs' x : rs ≡ₚ rs' → covered rs x ↔ covered rs' x.
Proof. intros H. unfold covered. by setoid_rewrite H. Qed.

Lemma ranges_ok_nil : ranges_ok [].
Proof. split; constructor. Qed.
#[export] Hint Resolve ranges_ok_nil : quic.

Lemma ranges_ok_cons r rs :
  ranges_ok (r :: rs) ↔ r.1 < r.2 ∧ Forall (below r) rs ∧ ranges_ok rs.
Proof.
  unfold ranges_ok. rewrite Forall_cons. split.
  - intros [[Hr Hrs] Hs]. apply StronglySorted_inv in Hs. tauto.
  - intros (? & ? & ? & ?). split; [done|]. by constructor.
Qed.

Lemma insert_range_perm x l : insert_range x l ≡ₚ x :: l.
Proof. induction l as [|y l IH]; cbn; [done|]. destruct (range_leb x y); [done|]. rewrite IH. apply Permutation_swap. Qed.

Lemma sort_ranges_perm l : sort_ranges l ≡ₚ l.
Proof. induction l as [|x l IH]; cbn; [done|]. by rewrite insert_range_perm, IH. Qed.

Lemma range_leb_total a b : range_leb a b = false → range_leb b a = true.
Proof. unfold range_leb. intros H. destruct (b.1 <? a.1) eqn:?, (b.1 =? a.1) eqn:?, (b.2 <=? a.2) eqn:?; cbn; try done;
  destruct (a.1 <? b.1) eqn:?, (a.1 =? b.1) eqn:?, (a.2 <=? b.2) eqn:?; cbn in H; try done; bool_cases; lia. Qed.

Definition range_le (a b : range) : Prop := a.1 <= b.1.

Lemma range_leb_le a b : range_leb a b = true → range_le a b.
Proof. unfold range_leb, range_le. intros [H|H]%orb_true_iff; bool_cases; lia. Qed.

Lemma insert_range_sorted x l : StronglySorted range_le l → StronglySorted range_le (insert_range x l).
Proof.
  induction 1 as [|y l Hs IH Hy]; cbn; [by repeat constructor|]. destruct (range_leb x y) eqn:E.
  - apply range_leb_le in E. constructor; [by constructor|]. constructor; [done|].
    eapply Forall_impl; [done|]. unfold range_le in *. cbn. lia.
  - apply range_leb_total, range_leb_le in E. constructor; [done|]. rewrite insert_range_perm. by constructor.
Qed.

Lemma sort_ranges_sorted l : StronglySorted range_le (sort_ranges l).
Proof. induction l; cbn; [constructor|]. by apply insert_range_sorted. Qed.

(** Two ranges with a hole between them, in either order. *)
Definition apart (a b : range) : Prop := below a b ∨ below b a.

Lemma apart_perm l l' : l ≡ₚ l' → StronglySorted apart l → StronglySorted apart l'.
Proof.
  induction 1 as [|x l l' Hp IH|x y l|l l1 l2 _ IH1 _ IH2]; intros H; [done| | |auto].
  - apply StronglySorted_inv in H as [H Hx]. constructor; [by apply IH|]. by rewrite <- Hp.
  - apply StronglySorted_inv in H as [H Hy]. apply StronglySorted_inv in H as [H Hx].
    apply Forall_cons in Hy as [Hyx Hy]. constructor; [by constructor|]. constructor; [|done]. unfold apart in *. tauto.
Qed.

Lemma below_of_sorted l :
  Forall (λ r, r.1 < r.2) l → StronglySorted range_le l → StronglySorted apart l → StronglySorted below l.
Proof.
  induction l as [|r l IH]; intros Hne Hle Hap; [constructor|].
  apply Forall_cons in Hne as [Hr Hne]. apply StronglySorted_inv in Hle as [Hle Hr1].
  apply StronglySorted_inv in Hap as [Hap Hr2]. constructor; [auto|].
  rewrite Forall_forall in *. intros r' Hin. specialize (Hr1 _ Hin). specialize (Hr2 _ Hin). specialize (Hne _ Hin).
  cbn in *. destruct Hr2 as [?|Hb]; [done|]. unfold below, range_le in *. lia.
Qed.

(** The loop of [add] on a sorted list: what is kept is untouched and apart
    from the grown interval, which swallowed everything else. *)
Lemma add_loop_spec rs : ∀ start stop, start < stop → ranges_ok rs →
  let '(merged, s, e) := add_loop start stop rs in
  merged `sublist_of` rs ∧ s <= start ∧ stop <= e ∧
  Forall (λ r, r.2 < s ∨ e < r.1) merged ∧
  (∀ x, covered merged x ∨ s <= x < e ↔ covered rs x ∨ start <= x < stop) ∧
  (∀ lo, lo < start → Forall (λ r, lo < r.1) rs → lo < s) ∧
  (Forall (λ r, stop < r.1) rs → e = stop).
Proof.
  induction rs as [|[a b] rs IH]; intros start stop Hlt Hok; cbn [add_loop].
  { split_and!; try lia; try done. }
  apply ranges_ok_cons in Hok as (Hab & Hbel & Hok). cbn [fst snd] in *.
  assert (Hafter : ∀ lo, lo < b → Forall (λ r, lo < r.1) rs).
  { intros lo Hlo. eapply Forall_impl; [done|]. unfold below. cbn. lia. }
  destruct ((b <? start) || (stop <? a)) eqn:E.
  - specialize (IH start stop Hlt Hok). destruct (add_loop start stop rs) as [[merged s] e].
    destruct IH as (Hsub & Hs & He & Hap & Hcov & Hlo & Hhi). split_and!; try done.
    + by apply sublist_skip.
    + constructor; [|done]. cbn. apply orb_true_iff in E as [E|E]; bool_cases.
      * left. apply Hlo; [done|]. eapply Forall_impl; [done|]. by unfold below.
      * right. rewrite Hhi; [done|]. apply Hafter. lia.
    + intros x. rewrite !covered_cons. specialize (Hcov x). cbn. tauto.
    + intros lo Hl [Hla ?]%Forall_cons. auto.
    + intros [_ ?]%Forall_cons. auto.
  - bool_cases. specialize (IH (Z.min start a) (Z.max stop b) ltac:(lia) Hok).
    destruct (add_loop _ _ rs) as [[merged s] e]. destruct IH as (Hsub & Hs & He & Hap & Hcov & Hlo & Hhi).
    split_and!; try done; try lia.
    + by apply sublist_cons.
    + intros x. rewrite Hcov, covered_cons. cbn. split; [intros [?|?]|intros [[?|?]|?]]; try tauto; try (right; lia).
      destruct (Z.lt_ge_cases x start), (Z.lt_ge_cases x stop), (Z.lt_ge_cases x a), (Z.lt_ge_cases x b); try lia;
        first [by left; left | by right | by left; right].
    + intros lo Hl [Hla ?]%Forall_cons. apply Hlo; [cbn in *; lia|done].
    + intros [Hc _]%Forall_cons. cbn in *. lia.
Qed.

Lemma sublist_sorted {A} (R : A → A → Prop) l k : l `sublist_of` k → StronglySorted R k → StronglySorted R l.
Proof.
  induction 1 as [|x l k Hl IH|x l k Hl IH]; intros H; [done| |].
  - apply StronglySorted_inv in H as [H Hx]. constructor; [auto|].
    rewrite Forall_forall in *. intros y Hy. apply Hx. by eapply elem_of_sublist.
  - apply StronglySorted_inv in H as [H Hx]. auto.
Qed.

Lemma apart_snoc l r : StronglySorted apart l → Forall (λ q, apart q r) l → StronglySorted apart (l ++ [r]).
Proof.
  induction l as [|q l IH]; intros Hs Hr; cbn; [by repeat constructor|].
  apply StronglySorted_inv in Hs as [Hs Hq]. apply Forall_cons in Hr as [? ?].
  constructor; [auto|]. apply Forall_app. split; [done|]. by constructor.
Qed.

Lemma below_apart l : StronglySorted below l → StronglySorted apart l.
Proof. induction 1 as [|r l _ IH Hr]; constructor; [done|]. eapply Forall_impl; [done|]. by left. Qed.

Lemma add_ok start stop rs : ranges_ok rs → ranges_ok (add start stop rs).
Proof.
  intros Hok. unfold add. case_test; [done|]. pose proof (add_loop_spec rs start stop ltac:(lia) Hok) as H.
  destruct (add_loop start stop rs) as [[merged s] e]. destruct H as (Hsub & Hs & He & Hap & _).
  destruct Hok as [Hne Hbel].
  assert (Forall (λ r, r.1 < r.2) (merged ++ [(s, e)])) as Hne'.
  { apply Forall_app. split; [|repeat constructor; cbn; lia].
    rewrite Forall_forall in *. intros r Hr. apply Hne. by eapply elem_of_sublist. }
  assert (StronglySorted apart (merged ++ [(s, e)])) as Hap'.
  { apply apart_snoc; [by eapply below_apart, sublist_sorted|]. eapply Forall_impl; [done|]. unfold apart, below. cbn. tauto. }
  split; [by rewrite sort_ranges_perm|].
  apply below_of_sorted; [by rewrite sort_ranges_perm|apply sort_ranges_sorted|].
  eapply apart_perm; [symmetry; apply sort_ranges_perm|done].
Qed.
#[export] Hint Resolve add_ok : quic.

Lemma covered_add start stop rs x :
  ranges_ok rs → covered (add start stop rs) x ↔ covered rs x ∨ start <= x < stop.
Proof.
  intros Hok. unfold add. case_test; [split; [by left|intros [?|?]; [done|lia]]|].
  pose proof (add_loop_spec rs start stop ltac:(lia) Hok) as H.
  destruct (add_loop start stop rs) as [[merged s] e]. destruct H as (_ & _ & _ & _ & Hcov & _).
  rewrite (covered_perm _ _ _ (sort_ranges_perm _)), covered_app, covered_cons, <- Hcov. cbn.
  pose proof (covered_nil x). tauto.
Qed.

(** [contiguous_from] stops at the first hole. *)
Lemma contiguous_from_spec start rs :
  ranges_ok rs →
  start <= contiguous_from start rs ∧
  (∀ x, start <= x < contiguous_from start rs → covered rs x) ∧
  ¬ covered rs (contiguous_from start rs).
Proof.
  induction rs as [|[a b] rs IH]; intros Hok; cbn [contiguous_from].
  { split_and!; [lia|lia|apply covered_nil]. }
  apply ranges_ok_cons in Hok as (Hab & Hbel & Hok). cbn in Hab. destruct (IH Hok) as (H1 & H2 & H3).
  assert (Habove : ∀ x, covered rs x → b < x).
  { intros x (r & Hr & Hx). rewrite Forall_forall in Hbel. specialize (Hbel _ Hr). unfold below in Hbel. cbn in *. lia. }
  destruct ((a <=? start) && (start <? b)) eqn:E.
  - bool_cases. split_and!; [lia| |].
    + intros x Hx. apply covered_cons. left. cbn. lia.
    + rewrite covered_cons. cbn. intros [?|?%Habove]; lia.
  - split_and!; [done| |].
    + intros x Hx. apply covered_cons. right. auto.
    + rewrite covered_cons. cbn. intros [Hc|?]; [|done].
      apply andb_false_iff in E as [E|E]; bool_cases; [|lia].
      specialize (H2 start). destruct (Z.eq_dec start (contiguous_from start rs)); [lia|].
      specialize (H2 ltac:(lia)). apply Habove in H2. lia.
Qed.

Lemma contiguous_from_unique start rs e :
  ranges_ok rs → start <= e → (∀ x, start <= x < e → covered rs x) → ¬ covered rs e →
  contiguous_from start rs = e.
Proof.
  intros Hok He Hall Hnot. destruct (contiguous_from_spec start rs Hok) as (H1 & H2 & H3).
  destruct (Z.lt_trichotomy (contiguous_from start rs) e) as [H|[H|H]]; [|done|].
  - destruct H3. apply Hall. lia.
  - destruct Hnot. apply H2. lia.
Qed.

Lemma covers_spec start stop rs :
  ranges_ok rs → covers start stop rs = true ↔ ∀ x, start <= x < stop → covered rs x.
Proof.
  intros Hok. destruct (contiguous_from_spec start rs Hok) as (H1 & H2 & H3).
  unfold covers. rewrite Z.geb_le. split.
  - intros H x Hx. apply H2. lia.
  - intros H. destruct (Z.lt_ge_cases (contiguous_from start rs) stop); [|done]. destruct H3. apply H. lia.
Qed.

(** Two well-formed lists that cover the same integers are equal. *)
Lemma ranges_canonical rs rs' :
  ranges_ok rs → ranges_ok rs' → (∀ x, covered rs x ↔ covered rs' x) → rs = rs'.
Proof.
  revert rs'. induction rs as [|[a b] rs IH]; intros [|[a' b'] rs'] Hok Hok' Hcov; [done| | |].
  - apply ranges_ok_cons in Hok' as (? & _). cbn in *. destruct (covered_nil a'). apply Hcov, covered_cons. left. cbn. lia.
  - apply ranges_ok_cons in Hok as (? & _). cbn in *. destruct (covered_nil a). apply Hcov, covered_cons. left. cbn. lia.
  - assert (a = a' ∧ b = b') as [<- <-].
    { pose proof (contiguous_from_spec) as CS.
      pose proof Hok as (Hab & Hbel & Hr)%ranges_ok_cons. pose proof Hok' as (Hab' & Hbel' & Hr')%ranges_ok_cons. cbn in *.
      assert (∀ x, covered ((a, b) :: rs) x → a <= x) as Hmin.
      { intros x [Hx|(r & Hin & Hx)]%covered_cons; cbn in *; [lia|]. rewrite Forall_forall in Hbel. specialize (Hbel _ Hin). unfold below in *. cbn in *. lia. }
      assert (∀ x, covered ((a', b') :: rs') x → a' <= x) as Hmin'.
      { intros x [Hx|(r & Hin & Hx)]%covered_cons; cbn in *; [lia|]. rewrite Forall_forall in Hbel'. specialize (Hbel' _ Hin). unfold below in *. cbn in *. lia. }
      assert (a = a') as <-.
      { assert (a' <= a) by (apply Hmin', Hcov, covered_cons; left; cbn; lia).
        assert (a <= a') by (apply Hmin, Hcov, covered_cons; left; cbn; lia). lia. }
      split; [done|]. destruct (CS a _ Hok) as (H1 & H2 & H3).
      assert (contiguous_from a ((a, b) :: rs) = contiguous_from a ((a, b') :: rs')) as Heq.
      { symmetry. apply contiguous_from_unique; [done..| |]; by setoid_rewrite <- Hcov. }
      cbn in Heq. rewrite Z.leb_refl, !(proj2 (Z.ltb_lt _ _)) in Heq by done. done. }
    f_equal. pose proof Hok as (Hab & Hbel & Hr)%ranges_ok_cons. pose proof Hok' as (Hab' & Hbel' & Hr')%ranges_ok_cons.
    apply IH; [done|done|]. intros x. specialize (Hcov x). rewrite !covered_cons in Hcov. cbn in *.
    assert (∀ q, Forall (below (a, b)) q → covered q x → b < x) as Hab2.
    { intros q Hq (r & Hin & Hx). rewrite Forall_forall in Hq. specialize (Hq _ Hin). unfold below in Hq. cbn in *. lia. }
    split; intros Hx.
    + destruct (proj1 Hcov (or_intror Hx)) as [?|?]; [|done]. apply (Hab2 rs) in Hx; [lia|done].
    + destruct (proj2 Hcov (or_intror Hx)) as [?|?]; [|done]. apply (Hab2 rs') in Hx; [lia|done].
Qed.

(** A [RangeSet] after a sequence of [add] calls. *)
Definition add_all (ops : list range) : RangeSet := fold_left (λ rs r, add r.1 r.2 rs) ops empty_ranges.

Lemma add_all_spec ops :
  ranges_ok (add_all ops) ∧ ∀ x, covered (add_all ops) x ↔ covered ops x.
Proof.
  unfold add_all. induction ops as [|r ops IH] using rev_ind; cbn; [auto with quic|].
  destruct IH as [Hok Hcov]. rewrite fold_left_app. cbn. split; [auto with quic|].
  intros x. rewrite covered_add, covered_app, Hcov, covered_cons by done. pose proof (covered_nil x). tauto.
Qed.

(** ** Properties *)

(** C38: after any sequence of [add] calls the list is well formed (sorted,
    non-empty, never adjacent ranges), covers exactly the union of the added
    intervals, and does not depend on the order of the calls. *)
Theorem rangeset_refines_union ops :
  ranges_ok (add_all ops) ∧
  (∀ x, covered (add_all ops) x ↔ ∃ r, r ∈ ops ∧ r.1 <= x < r.2) ∧
  (∀ ops', ops ≡ₚ ops' → add_all ops = add_all ops').
Proof.
  destruct (add_all_spec ops) as [Hok Hcov]. split_and!; [done|done|].
  intros ops' Hp. destruct (add_all_spec ops') as [Hok' Hcov'].
  apply ranges_canonical; [done..|]. intros x. rewrite Hcov, Hcov'. by apply covered_perm.
Qed.

(** The queries answer for the union: [covers] holds exactly when every
    integer of the interval was added, and [contiguous_from] returns the
    first integer from its argument on that was not. *)
Theorem rangeset_queries ops start stop :
  (covers start stop (add_all ops) = true ↔
     ∀ x, start <= x < stop → ∃ r, r ∈ ops ∧ r.1 <= x < r.2) ∧
  start <= contiguous_from start (add_all ops) ∧
  (∀ x, start <= x < contiguous_from start (add_all ops) → ∃ r, r ∈ ops ∧ r.1 <= x < r.2) ∧
  ¬ ∃ r, r ∈ ops ∧ r.1 <= contiguous_from start (add_all ops) < r.2.
Proof.
  destruct (add_all_spec ops) as [Hok Hcov].
  destruct (contiguous_from_spec start _ Hok) as (H1 & H2 & H3). split_and!.
  - rewrite covers_spec by done. by setoid_rewrite Hcov.
  - done.
  - intros x Hx. by apply Hcov, H2.
  - intros H. by apply H3, Hcov.
Qed.
