(* ===== verification/Streams.v ===== *)
(** * Stream halves (SendStream and RecvStream of streams.py)

    The sending and receiving state machines of one stream (RFC 9000
    sections 3 and 4), from [src/dsquic/streams.py].  Objects are records;
    methods that raise run in [M], the others are functions returning the new
    object.  [frame_of written fin f] says that a STREAM frame [f] carries
    bytes of the stream [written]; it is what links the two halves. *)

From S2P Require Import Prelude Frames RangeSet.

(** ** Model *)

Inductive SendState : Type := SEND_READY | SEND_SEND | SEND_DATA_SENT | SEND_DATA_RECVD.
Inductive RecvState : Type := RECV_RECV | RECV_SIZE_KNOWN | RECV_DATA_RECVD | RECV_DATA_READ.

#[export] Instance SendState_eq_dec : EqDecision SendState.
Proof. solve_decision. Defined.
#[export] Instance RecvState_eq_dec : EqDecision RecvState.
Proof. solve_decision. Defined.

Record SendStream : Type := mkSendStream {
  ss_stream_id : Z;
  ss_max_stream_data : Z;
  ss_state : SendState;
  ss_pending : bytes;
  ss_base_offset : Z;
  ss_retransmit : list Stream;
  ss_highest_offset_sent : Z;
  ss_fin_queued : bool;
  ss_fin_sent : bool;
  ss_final_size : option Z;
  ss_acked : RangeSet;
  ss_fin_acked : bool }.

Definition new_SendStream (stream_id max_stream_data : Z) : SendStream :=
  mkSendStream stream_id max_stream_data SEND_READY [] 0 [] 0 false false None empty_ranges false.

Definition write (data : bytes) (fin : bool) : M SendStream unit :=
  s ← get;
  if ss_fin_queued s then raise (ValueError "write after fin")
  else
    let pending := ss_pending s ++ data in
    put (mkSendStream (ss_stream_id s) (ss_max_stream_data s) (ss_state s) pending
           (ss_base_offset s) (ss_retransmit s) (ss_highest_offset_sent s)
           (if fin then true else ss_fin_queued s) (ss_fin_sent s)
           (if fin then Some (ss_base_offset s + len pending) else ss_final_size s)
           (ss_acked s) (ss_fin_acked s)).

(** The second half of [next_frame]: new data within the three budgets. *)
Definition next_new_frame (max_bytes connection_credit : Z) (s : SendStream) : option Stream * SendStream :=
  let offset := ss_base_offset s in
  let budget := Z.min (Z.min (Z.min (len (ss_pending s)) max_bytes) (ss_max_stream_data s - offset))
                      connection_credit in
  let budget := Z.max budget 0 in
  let chunk := take (Z.to_nat budget) (ss_pending s) in
  let fin_now := ss_fin_queued s && negb (ss_fin_sent s) && (budget =? len (ss_pending s)) in
  if (len chunk =? 0) && negb fin_now then (None, s)
  else
    let fin_sent := if fin_now then true else ss_fin_sent s in
    (Some (mkStream (ss_stream_id s) offset chunk fin_now),
     mkSendStream (ss_stream_id s) (ss_max_stream_data s)
       (if fin_sent then SEND_DATA_SENT else SEND_SEND)
       (drop (Z.to_nat budget) (ss_pending s)) (offset + budget) (ss_retransmit s)
       (Z.max (ss_highest_offset_sent s) (offset + len chunk))
       (ss_fin_queued s) fin_sent (ss_final_size s) (ss_acked s) (ss_fin_acked s)).

Definition set_retransmit (l : list Stream) (s : SendStream) : SendStream :=
  mkSendStream (ss_stream_id s) (ss_max_stream_data s) (ss_state s) (ss_pending s)
    (ss_base_offset s) l (ss_highest_offset_sent s) (ss_fin_queued s) (ss_fin_sent s)
    (ss_final_size s) (ss_acked s) (ss_fin_acked s).

Definition next_frame (max_bytes connection_credit : Z) (s : SendStream) : option Stream * SendStream :=
  match ss_retransmit s with
  | lost :: rest =>
      if len (st_data lost) <=? max_bytes then (Some lost, set_retransmit rest s)
      else next_new_frame max_bytes connection_credit s
  | [] => next_new_frame max_bytes connection_credit s
  end.

Definition on_max_stream_data (maximum : Z) (s : SendStream) : SendStream :=
  mkSendStream (ss_stream_id s) (Z.max (ss_max_stream_data s) maximum) (ss_state s) (ss_pending s)
    (ss_base_offset s) (ss_retransmit s) (ss_highest_offset_sent s) (ss_fin_queued s)
    (ss_fin_sent s) (ss_final_size s) (ss_acked s) (ss_fin_acked s).

Definition on_frame_acked (frame : Stream) (s : SendStream) : SendStream :=
  let acked := add (st_offset frame) (st_offset frame + len (st_data frame)) (ss_acked s) in
  let fin_acked := if st_fin frame then true else ss_fin_acked s in
  let state := match ss_final_size s with
    | Some size => if fin_acked && covers 0 size acked then SEND_DATA_RECVD else ss_state s
    | None => ss_state s
    end in
  mkSendStream (ss_stream_id s) (ss_max_stream_data s) state (ss_pending s)
    (ss_base_offset s) (ss_retransmit s) (ss_highest_offset_sent s) (ss_fin_queued s)
    (ss_fin_sent s) (ss_final_size s) acked fin_acked.

Definition requeue (frame : Stream) (s : SendStream) : SendStream :=
  if negb (len (st_data frame) =? 0) || st_fin frame
  then set_retransmit (ss_retransmit s ++ [frame]) s else s.

Definition has_pending (s : SendStream) : bool :=
  negb (len (ss_retransmit s) =? 0) || negb (len (ss_pending s) =? 0)
  || (ss_fin_queued s && negb (ss_fin_sent s)).

Record RecvStream : Type := mkRecvStream {
  rs_stream_id : Z;
  rs_max_stream_data : Z;
  rs_window : Z;
  rs_state : RecvState;
  rs_buffer : bytes;
  rs_received : RangeSet;
  rs_read_offset : Z;
  rs_final_size : option Z;
  rs_highest_offset : Z }.

Definition new_RecvStream (stream_id max_stream_data : Z) : RecvStream :=
  mkRecvStream stream_id max_stream_data max_stream_data RECV_RECV [] empty_ranges 0 None 0.

Definition set_final_size (size : option Z) (r : RecvStream) : RecvStream :=
  mkRecvStream (rs_stream_id r) (rs_max_stream_data r) (rs_window r) (rs_state r) (rs_buffer r)
    (rs_received r) (rs_read_offset r) size (rs_highest_offset r).

Definition final_size_violated (r : RecvStream) : exn :=
  StreamError FINAL_SIZE_ERROR ("stream " +:+ pretty (rs_stream_id r) +:+ " final size violated").

(** [buffer[i:j] = data] on a [bytearray] at least [j] long. *)
Definition splice (i j : Z) (data buffer : bytes) : bytes :=
  take (Z.to_nat i) buffer ++ data ++ drop (Z.to_nat j) buffer.

(** The state a frame leaves: Figure 3 of section 3.2, never backwards from
    Data Read. *)
Definition recv_state_after (final_size : option Z) (received : RangeSet) (state : RecvState) : RecvState :=
  match final_size with
  | Some size =>
      if decide (state = RECV_DATA_READ) then state
      else if covers 0 size received then RECV_DATA_RECVD else RECV_SIZE_KNOWN
  | None => state
  end.

(** Storing an accepted frame. *)
Definition store_frame (frame : Stream) (r : RecvStream) : RecvStream :=
  let stop := st_offset frame + len (st_data frame) in
  let buffer := if len (rs_buffer r) <? stop
                then rs_buffer r ++ zeros (stop - len (rs_buffer r)) else rs_buffer r in
  let received := add (st_offset frame) stop (rs_received r) in
  mkRecvStream (rs_stream_id r) (rs_max_stream_data r) (rs_window r)
    (recv_state_after (rs_final_size r) received (rs_state r))
    (splice (st_offset frame) stop (st_data frame) buffer) received (rs_read_offset r)
    (rs_final_size r) (Z.max (rs_highest_offset r) stop).

Definition on_stream_frame (frame : Stream) : M RecvStream unit :=
  r ← get;
  let stop := st_offset frame + len (st_data frame) in
  if match rs_final_size r with
     | Some size => (stop >? size) || (st_fin frame && negb (stop =? size))
     | None => false
     end then raise (final_size_violated r)
  else
    _ ← (if st_fin frame then
           if stop <? rs_highest_offset r then raise (final_size_violated r)
           else modify (set_final_size (Some stop))
         else mret tt);
    if stop >? rs_max_stream_data r then
      raise (StreamError FLOW_CONTROL_ERROR
               ("stream " +:+ pretty (rs_stream_id r) +:+ " exceeded flow control"))
    else modify (store_frame frame).

Definition read (r : RecvStream) : bytes * RecvStream :=
  let readable_end := contiguous_from (rs_read_offset r) (rs_received r) in
  let data := slice (rs_read_offset r) readable_end (rs_buffer r) in
  let state := match rs_final_size r with
    | Some size => if readable_end =? size then RECV_DATA_READ else rs_state r
    | None => rs_state r
    end in
  (data, mkRecvStream (rs_stream_id r) (rs_max_stream_data r) (rs_window r) state (rs_buffer r)
           (rs_received r) readable_end (rs_final_size r) (rs_highest_offset r)).

(** [a >= w / 2] on integers is [2 * a >= w]. *)
Definition credit_update (r : RecvStream) : option Z * RecvStream :=
  match rs_final_size r with
  | Some _ => (None, r)
  | None =>
      if 2 * (rs_max_stream_data r - rs_read_offset r) >=? rs_window r then (None, r)
      else
        let m := rs_read_offset r + rs_window r in
        (Some m, mkRecvStream (rs_stream_id r) m (rs_window r) (rs_state r) (rs_buffer r)
                   (rs_received r) (rs_read_offset r) (rs_final_size r) (rs_highest_offset r))
  end.

Definition is_fully_read (r : RecvStream) : bool := bool_decide (rs_state r = RECV_DATA_READ).

(** ** Frames as pieces of a stream *)

Definition frame_end (f : Stream) : Z := st_offset f + len (st_data f).

(** [f] carries bytes of [written]; a FIN only once the stream is finished,
    and at its end. *)
Definition frame_of (written : bytes) (fin : bool) (f : Stream) : Prop :=
  0 <= st_offset f ∧ frame_end f <= len written ∧
  st_data f = slice (st_offset f) (frame_end f) written ∧
  (st_fin f = true → fin = true ∧ frame_end f = len written).

Lemma frame_end_ge f : st_offset f <= frame_end f.
Proof. unfold frame_end. pose proof (len_nonneg (st_data f)). lia. Qed.

Lemma slice_app_l {A} i j (l k : list A) : 0 <= i → j <= len l → slice i j (l ++ k) = slice i j l.
Proof.
  intros Hi Hj. unfold slice, len in *. destruct (Z.le_gt_cases j i).
  { by replace (Z.to_nat (j - i)) with 0%nat by lia. }
  rewrite drop_app_le by lia. rewrite take_app_le; [done|]. rewrite length_drop. lia.
Qed.

Lemma slice_ext {A} i j (l k : list A) :
  0 <= i → (∀ n : nat, i <= Z.of_nat n < j → l !! n = k !! n) → slice i j l = slice i j k.
Proof.
  intros Hi H. apply list_eq. intros n. destruct (Z.lt_ge_cases (Z.of_nat n) (j - i)).
  - rewrite !slice_lookup by done. apply H. lia.
  - by rewrite !slice_lookup_ge.
Qed.

(** Frames of a stream stay frames of it as it grows. *)
Lemma frame_of_app written data fin f :
  frame_of written false f → frame_of (written ++ data) fin f.
Proof.
  intros (H0 & H1 & H2 & H3). unfold frame_of. rewrite len_app, slice_app_l by done.
  pose proof (len_nonneg data). split_and!; try done; [lia|]. intros Hf. by destruct (H3 Hf).
Qed.

Lemma frame_of_fin written fin f : frame_of written false f → frame_of written fin f.
Proof. intros H. rewrite <- (app_nil_r written). by apply frame_of_app. Qed.

(** ** The sending half *)

(** [written] is everything the application wrote: what is not in
    [_pending] was sent, everything queued again is a piece of what was. *)
Record send_inv (written : bytes) (s : SendStream) : Prop := mk_send_inv {
  si_base : 0 <= ss_base_offset s <= len written;
  si_pending : ss_pending s = drop (Z.to_nat (ss_base_offset s)) written;
  si_highest : ss_highest_offset_sent s = ss_base_offset s;
  si_credit : ss_base_offset s <= ss_max_stream_data s;
  si_retransmit : Forall (λ f, frame_of written (ss_fin_queued s) f ∧
                               frame_end f <= ss_base_offset s ∧ st_id f = ss_stream_id s) (ss_retransmit s);
  si_final : ss_final_size s = if ss_fin_queued s then Some (len written) else None;
  si_fin_sent : ss_fin_sent s = true → ss_fin_queued s = true ∧ ss_base_offset s = len written;
  si_acked : ranges_ok (ss_acked s) }.

Lemma send_inv_new stream_id max : 0 <= max → send_inv [] (new_SendStream stream_id max).
Proof. intros H. constructor; cbn; try done. apply ranges_ok_nil. Qed.

Lemma send_len_pending written s : send_inv written s → len (ss_pending s) = len written - ss_base_offset s.
Proof. intros H. destruct H. rewrite si_pending0. unfold len in *. rewrite length_drop. lia. Qed.

Lemma write_inv written s data fin s' :
  send_inv written s → write data fin s = (Ok tt, s') →
  send_inv (written ++ data) s' ∧ ss_fin_queued s = false ∧ ss_fin_queued s' = fin.
Proof.
  intros Hi. pose proof (send_len_pending _ _ Hi) as Hl. destruct Hi. unfold write, get, mbind, M_bind.
  destruct (ss_fin_queued s) eqn:Ef; [done|]. intros [= <-]. pose proof (len_nonneg data).
  split; [|by destruct fin]. constructor; cbn; try done.
  - rewrite len_app. lia.
  - rewrite si_pending0, drop_app_le; [done|]. unfold len in *. lia.
  - eapply Forall_impl; [done|]. intros f (Hf & ?). split; [|done].
    replace (if fin then true else false) with fin by (by destruct fin). by apply frame_of_app.
  - destruct fin; [|done]. do 2 f_equal. rewrite !len_app. lia.
  - intros H'. destruct (si_fin_sent0 H'). done.
Qed.

(** A frame [next_frame] hands out: a piece of the stream below the new base,
    new data within every budget, a retransmission only re-sent whole. *)
Lemma next_frame_inv written s max_bytes credit o s' :
  send_inv written s → next_frame max_bytes credit s = (o, s') →
  send_inv written s' ∧ ss_fin_queued s' = ss_fin_queued s ∧
  ss_stream_id s' = ss_stream_id s ∧ ss_max_stream_data s' = ss_max_stream_data s ∧
  ss_acked s' = ss_acked s ∧ ss_fin_acked s' = ss_fin_acked s ∧
  (ss_state s' = SEND_DATA_RECVD → ss_state s = SEND_DATA_RECVD) ∧
  match o with
  | None => s' = s
  | Some f =>
      frame_of written (ss_fin_queued s) f ∧ frame_end f <= ss_base_offset s' ∧
      st_id f = ss_stream_id s ∧ len (st_data f) <= Z.max 0 max_bytes ∧
      0 <= ss_base_offset s' - ss_base_offset s <= Z.max 0 credit ∧
      (∀ x, ss_base_offset s <= x < ss_base_offset s' → st_offset f <= x < frame_end f) ∧
      (ss_fin_sent s' = true → ss_fin_sent s = true ∨ st_fin f = true) ∧
      (ss_fin_sent s = true → ss_fin_sent s' = true)
  end.
Proof.
  intros Hi E. assert (Hnew : next_new_frame max_bytes credit s = (o, s') ∨
    ∃ f rest, ss_retransmit s = f :: rest ∧ o = Some f ∧ s' = set_retransmit rest s ∧ len (st_data f) <= max_bytes).
  { unfold next_frame in E. destruct (ss_retransmit s) as [|f rest] eqn:Er; [by left|].
    case_test_in E; [|by left]. injection E as <- <-. right. exists f, rest. done. }
  clear E. destruct Hnew as [E|(f & rest & Er & -> & -> & Hlen)].
  - pose proof (send_len_pending _ _ Hi) as Hl. destruct Hi. unfold next_new_frame in E. cbn zeta in E.
    set (b := Z.max _ 0) in E. assert (Hb : 0 <= b <= len (ss_pending s)) by (pose proof (len_nonneg (ss_pending s)); lia).
    assert (Hc : len (take (Z.to_nat b) (ss_pending s)) = b) by (unfold len in *; rewrite length_take; lia).
    rewrite Hc in E. set (fin_now := _ && (b =? len (ss_pending s))) in E. case_test_in E.
    { injection E as <- <-. split_and!; done. }
    injection E as <- <-. cbn. unfold frame_end. cbn. rewrite Hc.
    assert (Hfin : fin_now = true → ss_fin_queued s = true ∧ ss_base_offset s + b = len written).
    { subst fin_now. intros Hf. bool_cases. split; [done|lia]. }
    split_and!; try done; try lia.
    + constructor; cbn; try done; try lia.
      * rewrite si_pending0, drop_drop. f_equal. lia.
      * eapply Forall_impl; [done|]. cbn. intros f (? & ? & ?). split_and!; try done. lia.
      * destruct fin_now; intros H'; [by apply Hfin|]. destruct (si_fin_sent0 H'). split; [done|lia].
    + by destruct (if fin_now then _ else _).
    + unfold frame_of, frame_end. cbn. rewrite Hc. split_and!; try lia.
      * rewrite si_pending0. unfold slice. f_equal. lia.
      * done.
    + destruct fin_now; tauto.
    + by destruct fin_now.
  - destruct Hi. rewrite Er in si_retransmit0. apply Forall_cons in si_retransmit0 as [(Hf & He & Hid) Hr].
    split; [by constructor|]. cbn. split_and!; try done; try lia. intros H. by left.
Qed.

Lemma requeue_inv written s f :
  send_inv written s → frame_of written (ss_fin_queued s) f → frame_end f <= ss_base_offset s →
  st_id f = ss_stream_id s → send_inv written (requeue f s).
Proof.
  intros Hi Hf He Hid. unfold requeue. case_test; [|done]. destruct Hi. constructor; cbn; try done.
  apply Forall_app. split; [done|]. by apply Forall_singleton.
Qed.

Lemma on_frame_acked_inv written s f : send_inv written s → send_inv written (on_frame_acked f s).
Proof. intros []. constructor; cbn; try done. auto with quic. Qed.

Lemma on_max_stream_data_inv written s m : send_inv written s → send_inv written (on_max_stream_data m s).
Proof. intros []. constructor; cbn; try done. lia. Qed.

(** ** The receiving half *)

(** Against the stream [written] (finished when [fin]): the bytes recorded as
    received are in the buffer and are the stream's, everything read was
    received, a known final size is the stream's, and the states mean what
    Figure 3 says. *)
Record recv_inv (written : bytes) (fin : bool) (r : RecvStream) : Prop := mk_recv_inv {
  ri_ranges : ranges_ok (rs_received r);
  ri_inside : ∀ x, covered (rs_received r) x → 0 <= x < len written;
  ri_content : ∀ n : nat, covered (rs_received r) (Z.of_nat n) → rs_buffer r !! n = written !! n;
  ri_read : 0 <= rs_read_offset r <= len written;
  ri_read_covered : ∀ x, 0 <= x < rs_read_offset r → covered (rs_received r) x;
  ri_final : rs_final_size r = None ∨ (fin = true ∧ rs_final_size r = Some (len written));
  ri_highest : 0 <= rs_highest_offset r <= len written;
  ri_data_read : rs_state r = RECV_DATA_READ → rs_final_size r = Some (rs_read_offset r) }.

Lemma recv_inv_new stream_id max : recv_inv [] false (new_RecvStream stream_id max).
Proof.
  constructor; cbn; try done; [apply ranges_ok_nil|..].
  - intros x H. by apply covered_nil in H.
  - lia.
  - by left.
Qed.

Lemma recv_inv_app written data fin r : recv_inv written false r → recv_inv (written ++ data) fin r.
Proof.
  intros []. pose proof (len_nonneg data). constructor; rewrite ?len_app; try done; try lia.
  - intros x Hx. apply ri_inside0 in Hx. lia.
  - intros n Hn. rewrite ri_content0 by done. apply ri_inside0 in Hn. symmetry. apply lookup_app_l.
    unfold len in Hn. lia.
  - destruct ri_final0 as [?|[? _]]; [by left|done].
Qed.

Lemma len_splice i j data buffer :
  0 <= i → j = i + len data → j <= len buffer → len (splice i j data buffer) = len buffer.
Proof. intros. unfold splice, len in *. rewrite !length_app, length_take, length_drop. lia. Qed.

Lemma splice_lookup i j data buffer (n : nat) :
  0 <= i → j = i + len data → j <= len buffer →
  splice i j data buffer !! n =
    if decide (i <= Z.of_nat n < j) then data !! (n - Z.to_nat i)%nat else buffer !! n.
Proof.
  intros Hi Hj Hb. unfold splice, len in *. case_decide.
  - rewrite lookup_app_r by (rewrite length_take; lia). rewrite length_take, lookup_app_l by lia. f_equal. lia.
  - destruct (Z.lt_ge_cases (Z.of_nat n) i).
    + rewrite lookup_app_l by (rewrite length_take; lia). by rewrite lookup_take_lt by lia.
    + rewrite lookup_app_r by (rewrite length_take; lia).
      rewrite lookup_app_r by (rewrite length_take; lia). rewrite length_take, lookup_drop. f_equal. lia.
Qed.

(** The buffer, grown with zeros to hold the frame, after the frame. *)
Lemma store_frame_buffer f r (n : nat) :
  0 <= st_offset f →
  rs_buffer (store_frame f r) !! n =
    if decide (st_offset f <= Z.of_nat n < frame_end f) then st_data f !! (n - Z.to_nat (st_offset f))%nat
    else if decide (Z.of_nat n < len (rs_buffer r)) then rs_buffer r !! n
    else if decide (Z.of_nat n < frame_end f) then Some x00 else None.
Proof.
  intros H0. unfold store_frame, frame_end. cbn [rs_buffer]. set (e := st_offset f + len (st_data f)).
  pose proof (len_nonneg (st_data f)). set (b := if _ <? _ then _ else _).
  assert (Hb : e <= len b).
  { unfold b. case_test; [|done]. rewrite len_app, len_zeros. lia. }
  rewrite splice_lookup by (done || lia). case_decide; [done|]. unfold b. case_test.
  - case_decide.
    + apply lookup_app_l. unfold len in *. lia.
    + rewrite lookup_app_r by (unfold len in *; lia). unfold zeros, len in *. case_decide.
      * apply lookup_replicate_2. lia.
      * apply lookup_ge_None. rewrite length_replicate. lia.
  - case_decide; [done|]. rewrite decide_False by lia. apply lookup_ge_None. unfold len in *. lia.
Qed.

(** Every branch of [on_stream_frame] on a frame of the stream: no final-size
    error is possible, only credit can be exceeded. *)
Lemma on_stream_frame_honest written fin r f :
  recv_inv written fin r → frame_of written fin f →
  let r1 := if st_fin f then set_final_size (Some (frame_end f)) r else r in
  on_stream_frame f r =
    if frame_end f >? rs_max_stream_data r
    then (Raise (StreamError FLOW_CONTROL_ERROR
                   ("stream " +:+ pretty (rs_stream_id r) +:+ " exceeded flow control")), r1)
    else (Ok tt, store_frame f r1).
Proof.
  intros [] (H0 & H1 & H2 & H3) r1. unfold on_stream_frame. erewrite M_bind_ok by done. fold (frame_end f).
  replace (match rs_final_size r with Some size => _ | None => false end) with false.
  2: { symmetry. destruct ri_final0 as [->|[-> ->]]; [done|]. rewrite Z.gtb_ltb, (proj2 (Z.ltb_ge _ _)) by done.
       destruct (st_fin f); [|done]. destruct (H3 eq_refl) as [_ ->]. by rewrite Z.eqb_refl. }
  destruct (st_fin f) eqn:Ef.
  - rewrite (proj2 (Z.ltb_ge _ _)) by (destruct (H3 eq_refl) as [_ ->]; lia).
    erewrite M_bind_ok by done. by case_test.
  - erewrite M_bind_ok by done. by case_test.
Qed.

Lemma store_frame_inv written fin r f :
  recv_inv written fin r → frame_of written fin f →
  recv_inv written fin (store_frame f (if st_fin f then set_final_size (Some (frame_end f)) r else r)).
Proof.
  intros Hi Hf. assert (Hi' : recv_inv written fin (if st_fin f then set_final_size (Some (frame_end f)) r else r) ).
  { destruct (st_fin f) eqn:Ef; [|done]. destruct Hf as (H0 & H1 & H2 & H3). destruct (H3 Ef) as [-> He].
    destruct Hi. constructor; cbn; try done.
    - right. by rewrite He.
    - intros Hs. apply ri_data_read0 in Hs. destruct ri_final0 as [Hn|[_ Hn]]; rewrite Hn in Hs; [done|]. by rewrite He. }
  revert Hi'. generalize (if st_fin f then set_final_size (Some (frame_end f)) r else r). clear r Hi.
  intros r []. destruct Hf as (H0 & H1 & H2 & _). pose proof (frame_end_ge f).
  constructor; cbn; fold (frame_end f); try done.
  - auto with quic.
  - intros x [Hx|Hx]%covered_add; [by apply ri_inside0|lia|done].
  - intros n Hn. change (rs_buffer (store_frame f r) !! n = written !! n). rewrite store_frame_buffer by done.
    case_decide as Hin.
    + rewrite H2, slice_lookup by lia. f_equal. lia.
    + apply covered_add in Hn as [Hn|Hn]; [|lia|done]. pose proof (ri_content0 n Hn) as Hc.
      apply ri_inside0 in Hn. case_decide as Hl; [done|]. exfalso.
      assert (Hnone : rs_buffer r !! n = None) by (apply lookup_ge_None; unfold len in *; lia).
      rewrite Hnone in Hc. symmetry in Hc. apply lookup_ge_None in Hc. unfold len in Hn. lia.
  - intros x Hx. apply covered_add; [done|]. left. auto.
  - lia.
  - unfold recv_state_after. destruct (rs_final_size r) eqn:Ef; [|done]. case_decide; [done|]. by case_test.
Qed.

(** Reading hands over exactly the stream's bytes from the read offset to the
    first byte not received. *)
Lemma read_spec written fin r d r' :
  recv_inv written fin r → read r = (d, r') →
  recv_inv written fin r' ∧ d = slice (rs_read_offset r) (rs_read_offset r') written ∧
  rs_read_offset r <= rs_read_offset r' ∧ ¬ covered (rs_received r) (rs_read_offset r') ∧
  rs_received r' = rs_received r ∧ rs_final_size r' = rs_final_size r ∧
  rs_max_stream_data r' = rs_max_stream_data r ∧
  (rs_final_size r = Some (rs_read_offset r') → rs_state r' = RECV_DATA_READ).
Proof.
  intros []. unfold read. cbn zeta. intros [= <- <-]. cbn.
  destruct (contiguous_from_spec (rs_read_offset r) (rs_received r) ri_ranges0) as (H1 & H2 & H3).
  set (e := contiguous_from _ _) in *.
  assert (He : e <= len written).
  { destruct (Z.eq_dec e (rs_read_offset r)); [lia|]. assert (covered (rs_received r) (e - 1)) as Hc by (apply H2; lia).
    apply ri_inside0 in Hc. lia. }
  split_and!; try done.
  - constructor; cbn; try done; [lia| |].
    + intros x Hx. destruct (Z.lt_ge_cases x (rs_read_offset r)); [apply ri_read_covered0|apply H2]; lia.
    + destruct (rs_final_size r) as [size|] eqn:Ef.
      * case_test; [by subst|]. intros Hs%ri_data_read0. injection Hs as ->.
        destruct ri_final0 as [|[_ [= Hl]]]; [done|]. lia.
      * intros Hs%ri_data_read0. done.
  - apply slice_ext; [lia|]. intros n Hn. apply ri_content0, H2. lia.
  - intros ->. by rewrite Z.eqb_refl.
Qed.
