(* ===== verification/Channel.v ===== *)
(** * One stream over an unreliable network

    The two halves of a stream ([SendStream] on one endpoint, [RecvStream] on
    the other) joined by a network that may drop, duplicate, delay and
    reorder STREAM frames and credit updates: every frame ever sent stays
    deliverable, and nothing forces a delivery.  The steps are the methods of
    [Streams]; an acknowledgement reaches the sender only for a frame the
    receiver accepted.  The invariant is proved by induction on the steps. *)

From S2P Require Import Prelude Frames RangeSet Streams.

Record channel : Type := mkChannel {
  ch_send : SendStream;
  ch_recv : RecvStream;
  ch_written : bytes;          (* everything the writer wrote *)
  ch_read : bytes;             (* everything the reader was given *)
  ch_net : list Stream;        (* frames sent so far *)
  ch_got : list Stream;        (* frames the receiver accepted *)
  ch_credits : list Z }.       (* MAX_STREAM_DATA limits advertised so far *)

(** The sender starts with the credit it knows of, [remembered] from an earlier
    connection if it sends early data; the credit the receiver announces at
    the start, [limit], counts as advertised. *)
Definition new_channel (stream_id remembered limit : Z) : channel :=
  mkChannel (new_SendStream stream_id remembered) (new_RecvStream stream_id limit) [] [] [] [] [limit].

Inductive channel_step : channel → channel → Prop :=
| step_write c data fin s' :
    write data fin (ch_send c) = (Ok tt, s') →
    channel_step c (mkChannel s' (ch_recv c) (ch_written c ++ data) (ch_read c) (ch_net c) (ch_got c) (ch_credits c))
| step_send c max_bytes credit f s' :
    next_frame max_bytes credit (ch_send c) = (Some f, s') →
    channel_step c (mkChannel s' (ch_recv c) (ch_written c) (ch_read c) (f :: ch_net c) (ch_got c) (ch_credits c))
| step_lost c f :
    f ∈ ch_net c →
    channel_step c (mkChannel (requeue f (ch_send c)) (ch_recv c) (ch_written c) (ch_read c) (ch_net c) (ch_got c) (ch_credits c))
| step_acked c f :
    f ∈ ch_got c →
    channel_step c (mkChannel (on_frame_acked f (ch_send c)) (ch_recv c) (ch_written c) (ch_read c) (ch_net c) (ch_got c) (ch_credits c))
| step_deliver c f r' :
    f ∈ ch_net c → on_stream_frame f (ch_recv c) = (Ok tt, r') →
    channel_step c (mkChannel (ch_send c) r' (ch_written c) (ch_read c) (ch_net c) (f :: ch_got c) (ch_credits c))
| step_read c d r' :
    read (ch_recv c) = (d, r') →
    channel_step c (mkChannel (ch_send c) r' (ch_written c) (ch_read c ++ d) (ch_net c) (ch_got c) (ch_credits c))
| step_advertise c m r' :
    credit_update (ch_recv c) = (Some m, r') →
    channel_step c (mkChannel (ch_send c) r' (ch_written c) (ch_read c) (ch_net c) (ch_got c) (m :: ch_credits c))
| step_credit c m :
    m ∈ ch_credits c →
    channel_step c (mkChannel (on_max_stream_data m (ch_send c)) (ch_recv c) (ch_written c) (ch_read c) (ch_net c) (ch_got c) (ch_credits c)).

Inductive channel_reachable (stream_id limit : Z) : channel → Prop :=
| reach_init remembered :
    0 <= remembered <= limit → channel_reachable stream_id limit (new_channel stream_id remembered limit)
| reach_step c c' :
    channel_reachable stream_id limit c → channel_step c c' → channel_reachable stream_id limit c'.

(** ** Invariant *)

Definition in_frame (f : Stream) (x : Z) : Prop := st_offset f <= x < frame_end f.

Record channel_inv (c : channel) : Prop := mk_channel_inv {
  ci_send : send_inv (ch_written c) (ch_send c);
  ci_recv : recv_inv (ch_written c) (ss_fin_queued (ch_send c)) (ch_recv c);
  ci_read : ch_read c = slice 0 (rs_read_offset (ch_recv c)) (ch_written c);
  ci_net : Forall (λ f, frame_of (ch_written c) (ss_fin_queued (ch_send c)) f ∧
                        frame_end f <= ss_base_offset (ch_send c) ∧
                        st_id f = ss_stream_id (ch_send c)) (ch_net c);
  ci_sent : ∀ x, 0 <= x < ss_base_offset (ch_send c) → ∃ f, f ∈ ch_net c ∧ in_frame f x;
  ci_fin_sent : ss_fin_sent (ch_send c) = true → ∃ f, f ∈ ch_net c ∧ st_fin f = true;
  ci_got_net : ∀ f, f ∈ ch_got c → f ∈ ch_net c;
  ci_received : ∀ x, covered (rs_received (ch_recv c)) x ↔ ∃ f, f ∈ ch_got c ∧ in_frame f x;
  ci_final : ∀ f, f ∈ ch_got c → st_fin f = true → rs_final_size (ch_recv c) = Some (len (ch_written c));
  ci_acked : ∀ x, covered (ss_acked (ch_send c)) x → covered (rs_received (ch_recv c)) x;
  ci_fin_acked : ss_fin_acked (ch_send c) = true → rs_final_size (ch_recv c) = Some (len (ch_written c));
  ci_recvd : ss_state (ch_send c) = SEND_DATA_RECVD →
             rs_final_size (ch_recv c) = Some (len (ch_written c)) ∧
             ∀ x, 0 <= x < len (ch_written c) → covered (rs_received (ch_recv c)) x;
  ci_credits : Forall (λ m, m <= rs_max_stream_data (ch_recv c)) (ch_credits c);
  ci_limit : ss_max_stream_data (ch_send c) <= rs_max_stream_data (ch_recv c);
  ci_window : 0 <= rs_window (ch_recv c) }.

Lemma channel_inv_new stream_id remembered limit : 0 <= remembered <= limit → channel_inv (new_channel stream_id remembered limit).
Proof.
  intros H. constructor; cbn; try done; try (by intros f ?%elem_of_nil).
  - apply send_inv_new. lia.
  - apply recv_inv_new.
  - lia.
  - intros x. split; [intros Hx; by apply covered_nil in Hx|]. by intros (f & ?%elem_of_nil & _).
  - apply Forall_singleton. lia.
  - lia.
  - lia.
Qed.

(** An accepted frame: what the receiver becomes, and that its credit was
    enough. *)
Lemma deliver_spec c f :
  channel_inv c → f ∈ ch_net c →
  on_stream_frame f (ch_recv c) =
    (Ok tt, store_frame f (if st_fin f then set_final_size (Some (frame_end f)) (ch_recv c) else ch_recv c)).
Proof.
  intros [] Hf. rewrite Forall_forall in ci_net0. destruct (ci_net0 f Hf) as (Hof & Hend & _).
  rewrite (on_stream_frame_honest _ _ _ _ ci_recv0 Hof). destruct ci_send0.
  rewrite Z.gtb_ltb, (proj2 (Z.ltb_ge _ _)) by lia. done.
Qed.

Lemma inv_write c data fin s' :
  channel_inv c → write data fin (ch_send c) = (Ok tt, s') →
  channel_inv (mkChannel s' (ch_recv c) (ch_written c ++ data) (ch_read c) (ch_net c) (ch_got c) (ch_credits c)).
Proof.
  intros [] E. destruct (write_inv _ _ _ _ _ ci_send0 E) as (Hs & Hq & Hq').
  assert (Hn : rs_final_size (ch_recv c) = None).
  { destruct (ri_final _ _ _ ci_recv0) as [?|[? _]]; [done|congruence]. }
  rewrite Hq in *. unfold write, mbind, M_bind, get in E. rewrite Hq in E. injection E as <-.
  constructor; cbn in *; try done.
  - rewrite Hq'. by apply recv_inv_app.
  - destruct ci_recv0. rewrite slice_app_l by lia. done.
  - rewrite Hq'. eapply Forall_impl; [done|]. cbn. intros f (? & ? & ?). split_and!; try done. by apply frame_of_app.
  - intros f Hf Hfin. rewrite (ci_final0 f Hf Hfin) in Hn. done.
  - intros Hf. by rewrite (ci_fin_acked0 Hf) in Hn.
  - intros Hf. destruct (ci_recvd0 Hf) as [Hc _]. by rewrite Hc in Hn.
Qed.

Lemma inv_send c max_bytes credit f s' :
  channel_inv c → next_frame max_bytes credit (ch_send c) = (Some f, s') →
  channel_inv (mkChannel s' (ch_recv c) (ch_written c) (ch_read c) (f :: ch_net c) (ch_got c) (ch_credits c)).
Proof.
  intros [] E. destruct (next_frame_inv _ _ _ _ _ _ ci_send0 E)
    as (Hs & Hq & Hid & Hm & Ha & Hfa & Hst & Hof & Hend & Hfid & _ & Hbase & Hnew & Hfin & _).
  constructor; cbn in *; rewrite ?Hq, ?Hid, ?Hm, ?Ha, ?Hfa; try done.
  - constructor; [done|]. eapply Forall_impl; [done|]. cbn. intros g (? & ? & ?). split_and!; try done. lia.
  - intros x Hx. destruct (Z.lt_ge_cases x (ss_base_offset (ch_send c))) as [Hlt|Hge].
    + destruct (ci_sent0 x ltac:(lia)) as (g & Hg & Hgx). exists g. split; [by right|done].
    + exists f. split; [by left|]. apply Hnew. lia.
  - intros Hf. destruct (Hfin Hf) as [Hf'|Hf'].
    + destruct (ci_fin_sent0 Hf') as (g & Hg & ?). exists g. split; [by right|done].
    + exists f. split; [by left|done].
  - intros g Hg. right. auto.
  - auto.
Qed.

Lemma inv_lost c f :
  channel_inv c → f ∈ ch_net c →
  channel_inv (mkChannel (requeue f (ch_send c)) (ch_recv c) (ch_written c) (ch_read c) (ch_net c) (ch_got c) (ch_credits c)).
Proof.
  intros [] Hf. pose proof ci_net0 as Hn. rewrite Forall_forall in Hn. destruct (Hn f Hf) as (? & ? & ?).
  pose proof (requeue_inv _ _ _ ci_send0 ltac:(done) ltac:(done) ltac:(done)).
  unfold requeue in *. destruct (_ || _); constructor; done.
Qed.

Lemma inv_acked c f :
  channel_inv c → f ∈ ch_got c →
  channel_inv (mkChannel (on_frame_acked f (ch_send c)) (ch_recv c) (ch_written c) (ch_read c) (ch_net c) (ch_got c) (ch_credits c)).
Proof.
  intros Hi Hf. pose proof (on_frame_acked_inv _ _ f (ci_send _ Hi)) as Hs. destruct Hi.
  assert (Hcov : ∀ x, covered (add (st_offset f) (frame_end f) (ss_acked (ch_send c))) x → covered (rs_received (ch_recv c)) x).
  { intros x [Hx|Hx]%covered_add; [by apply ci_acked0| |by destruct ci_send0]. apply ci_received0. by exists f. }
  assert (Hfin : (if st_fin f then true else ss_fin_acked (ch_send c)) = true →
                 rs_final_size (ch_recv c) = Some (len (ch_written c))).
  { destruct (st_fin f) eqn:E; [intros _; by eapply ci_final0|done]. }
  constructor; cbn; try done. intros Hst. destruct (ss_final_size (ch_send c)) as [size|] eqn:Es; [|auto].
  case_test_in Hst; [|auto]. bool_cases. split; [auto|]. intros x Hx. apply Hcov.
  match goal with H : covers _ _ _ = true |- _ => pose proof H as Hcovers end.
  rewrite covers_spec in Hcovers by (destruct ci_send0; auto with quic). apply Hcovers.
  pose proof (si_final _ _ ci_send0) as Hsf. rewrite Es in Hsf. by destruct (ss_fin_queued _); simplify_eq.
Qed.

Lemma inv_deliver c f r' :
  channel_inv c → f ∈ ch_net c → on_stream_frame f (ch_recv c) = (Ok tt, r') →
  channel_inv (mkChannel (ch_send c) r' (ch_written c) (ch_read c) (ch_net c) (f :: ch_got c) (ch_credits c)).
Proof.
  intros Hi Hf E. rewrite deliver_spec in E by done. injection E as <-. destruct Hi.
  pose proof ci_net0 as Hn. rewrite Forall_forall in Hn. destruct (Hn f Hf) as (Hof & Hend & _).
  pose proof (store_frame_inv _ _ _ _ ci_recv0 Hof) as Hr.
  set (r1 := if st_fin f then _ else _) in *.
  assert (Heq : rs_received r1 = rs_received (ch_recv c) ∧ rs_read_offset r1 = rs_read_offset (ch_recv c) ∧
                rs_max_stream_data r1 = rs_max_stream_data (ch_recv c) ∧ rs_window r1 = rs_window (ch_recv c)) by (unfold r1; by destruct (st_fin f)).
  destruct Heq as (Hr1 & Hr2 & Hr3 & Hr4).
  assert (Hfs : rs_final_size (ch_recv c) = Some (len (ch_written c)) → rs_final_size r1 = Some (len (ch_written c))).
  { unfold r1. destruct (st_fin f) eqn:Ef; [|done]. intros _. cbn. destruct Hof as (_ & _ & _ & H3). by destruct (H3 Ef) as [_ ->]. }
  assert (Hok : ranges_ok (rs_received (ch_recv c))) by (by destruct ci_recv0).
  assert (Hcov : ∀ x, covered (rs_received (ch_recv c)) x → covered (add (st_offset f) (frame_end f) (rs_received r1)) x).
  { intros x Hx. rewrite Hr1. apply covered_add; auto. }
  constructor; cbn; fold (frame_end f); rewrite ?Hr2, ?Hr3, ?Hr4; try done; auto.
  - intros g [->|Hg]%elem_of_cons; auto.
  - intros x. rewrite Hr1, covered_add, ci_received0 by done. split.
    + intros [(g & Hg & Hx)|Hx]; [exists g|exists f]; (split; [|done]); [by right|by left].
    + intros (g & [->|Hg]%elem_of_cons & Hx); [by right|left; eauto].
  - intros g [->|Hg]%elem_of_cons Hg'; [|by apply Hfs, (ci_final0 g)].
    unfold r1. rewrite Hg'. cbn. destruct Hof as (_ & _ & _ & H3). by destruct (H3 Hg') as [_ ->].
  - intros Hst. destruct (ci_recvd0 Hst) as [? ?]. split; auto.
Qed.

Lemma inv_read c d r' :
  channel_inv c → read (ch_recv c) = (d, r') →
  channel_inv (mkChannel (ch_send c) r' (ch_written c) (ch_read c ++ d) (ch_net c) (ch_got c) (ch_credits c)).
Proof.
  intros [] E. destruct (read_spec _ _ _ _ _ ci_recv0 E) as (Hr & -> & Hle & _ & Hrec & Hfs & Hm & _).
  constructor; cbn; rewrite ?Hrec, ?Hfs, ?Hm; try done; [|by unfold read in E; injection E as _ <-].
  rewrite ci_read0. destruct ci_recv0. apply slice_glue; lia.
Qed.

Lemma inv_advertise c m r' :
  channel_inv c → credit_update (ch_recv c) = (Some m, r') →
  channel_inv (mkChannel (ch_send c) r' (ch_written c) (ch_read c) (ch_net c) (ch_got c) (m :: ch_credits c)).
Proof.
  intros [] E. unfold credit_update in E. destruct (rs_final_size (ch_recv c)) eqn:Ef; [done|].
  case_test_in E; [done|]. injection E as <- <-.
  assert (rs_max_stream_data (ch_recv c) <= rs_read_offset (ch_recv c) + rs_window (ch_recv c)) as Hgrow.
  { lia. }
  constructor; cbn; try done; try (by rewrite <- Ef); [| |lia].
  - destruct ci_recv0. rewrite ?Ef in *. by constructor.
  - constructor; [lia|]. eapply Forall_impl; [done|]. cbn. lia.
Qed.

Lemma inv_credit c m :
  channel_inv c → m ∈ ch_credits c →
  channel_inv (mkChannel (on_max_stream_data m (ch_send c)) (ch_recv c) (ch_written c) (ch_read c) (ch_net c) (ch_got c) (ch_credits c)).
Proof.
  intros Hi Hm. pose proof (on_max_stream_data_inv _ _ m (ci_send _ Hi)). destruct Hi.
  rewrite Forall_forall in ci_credits0. pose proof (ci_credits0 m Hm). constructor; cbn; try done; [|lia].
  by apply Forall_forall.
Qed.

Lemma channel_reachable_inv stream_id limit c :
  0 <= limit → channel_reachable stream_id limit c → channel_inv c.
Proof.
  intros Hl. induction 1 as [remembered Hr|c c' _ IH Hstep]; [by apply channel_inv_new|].
  destruct Hstep; eauto using inv_write, inv_send, inv_lost, inv_acked, inv_deliver, inv_read, inv_advertise, inv_credit.
Qed.

(** ** Properties *)

Lemma channel_prefix c :
  channel_inv c →
  ch_read c = take (length (ch_read c)) (ch_written c) ∧
  (rs_state (ch_recv c) = RECV_DATA_READ →
     ch_read c = ch_written c ∧ ss_fin_queued (ch_send c) = true).
Proof.
  intros []. destruct ci_recv0 as [_ _ _ Hread _ Hfin _ Hdr]. split.
  - rewrite ci_read0. unfold slice. rewrite Z.sub_0_r. change (drop (Z.to_nat 0) (ch_written c)) with (ch_written c).
    rewrite length_take. f_equal. unfold len in *. lia.
  - intros Hs. specialize (Hdr Hs). destruct Hfin as [Hn|[Hq Hn]]; [by rewrite Hn in Hdr|].
    split; [|done]. rewrite Hn in Hdr. injection Hdr as Hl. rewrite ci_read0, <- Hl. apply slice_full.
Qed.

(** Over a network that loses, duplicates and reorders, what the reader has
    been given is always a prefix of what the writer wrote; when the receiving
    half reaches Data Read, it is all of it, and the writer had closed the
    stream. *)
Theorem stream_delivers_prefix stream_id limit c
  (Hlimit : 0 <= limit) (Hreach : channel_reachable stream_id limit c) :
  ch_read c = take (length (ch_read c)) (ch_written c) ∧
  (rs_state (ch_recv c) = RECV_DATA_READ →
     ch_read c = ch_written c ∧ ss_fin_queued (ch_send c) = true).
Proof. apply channel_prefix. by eapply channel_reachable_inv. Qed.

(** A sender that follows the code never makes the receiver raise: every
    frame it ever sent, however late or often it arrives, is accepted (no
    FINAL_SIZE_ERROR and no FLOW_CONTROL_ERROR). *)
Theorem stream_frames_always_accepted stream_id limit c f
  (Hlimit : 0 <= limit) (Hreach : channel_reachable stream_id limit c) (Hsent : f ∈ ch_net c) :
  ∃ r', on_stream_frame f (ch_recv c) = (Ok tt, r').
Proof. eexists. apply deliver_spec; [by eapply channel_reachable_inv|done]. Qed.

(** C31: once the writer has closed the stream, nothing is waiting to be sent
    and each frame sent got through at least once, the next read completes
    the stream: the reader has every byte written and the state is Data
    Read. *)
Theorem stream_completes stream_id limit c
  (Hlimit : 0 <= limit) (Hreach : channel_reachable stream_id limit c)
  (Hclosed : ss_fin_queued (ch_send c) = true)
  (Hidle : has_pending (ch_send c) = false)
  (Hthrough : ∀ f, f ∈ ch_net c → f ∈ ch_got c) :
  ch_read c ++ (read (ch_recv c)).1 = ch_written c ∧ rs_state (read (ch_recv c)).2 = RECV_DATA_READ.
Proof.
  pose proof (channel_reachable_inv _ _ _ Hlimit Hreach) as []. unfold has_pending in Hidle. bool_cases.
  assert (Hbase : ss_base_offset (ch_send c) = len (ch_written c)).
  { pose proof (send_len_pending _ _ ci_send0). lia. }
  assert (Hfs : ss_fin_sent (ch_send c) = true) by (rewrite Hclosed in *; by destruct (ss_fin_sent (ch_send c))).
  destruct (ci_fin_sent0 Hfs) as (f & Hf & Hfin). pose proof (ci_final0 f (Hthrough _ Hf) Hfin) as Hsize.
  destruct (read (ch_recv c)) as [d r'] eqn:E. cbn.
  destruct (read_spec _ _ _ _ _ ci_recv0 E) as (Hr & -> & Hle & Hstop & _ & _ & _ & Hdone).
  assert (Hend : rs_read_offset r' = len (ch_written c)).
  { destruct (Z.lt_ge_cases (rs_read_offset r') (len (ch_written c))); [|destruct (ri_read _ _ _ Hr); lia].
    destruct Hstop. apply ci_received0. destruct (ci_sent0 (rs_read_offset r')) as (g & Hg & Hx); [|eauto].
    destruct (ri_read _ _ _ Hr). lia. }
  split; [|apply Hdone; by rewrite Hend].
  rewrite ci_read0, Hend. destruct (ri_read _ _ _ ci_recv0). rewrite slice_glue by lia. apply slice_full.
Qed.

(** The sender only reaches Data Recvd when the receiver holds the whole
    stream: its next read completes it. *)
Theorem data_recvd_means_received stream_id limit c
  (Hlimit : 0 <= limit) (Hreach : channel_reachable stream_id limit c)
  (Hstate : ss_state (ch_send c) = SEND_DATA_RECVD) :
  ch_read c ++ (read (ch_recv c)).1 = ch_written c ∧ rs_state (read (ch_recv c)).2 = RECV_DATA_READ.
Proof.
  pose proof (channel_reachable_inv _ _ _ Hlimit Hreach) as []. destruct (ci_recvd0 Hstate) as [Hsize Hall].
  destruct (read (ch_recv c)) as [d r'] eqn:E. cbn.
  destruct (read_spec _ _ _ _ _ ci_recv0 E) as (Hr & -> & Hle & Hstop & _ & _ & _ & Hdone).
  destruct (ri_read _ _ _ Hr), (ri_read _ _ _ ci_recv0).
  assert (Hend : rs_read_offset r' = len (ch_written c)).
  { destruct (Z.lt_ge_cases (rs_read_offset r') (len (ch_written c))); [|lia]. destruct Hstop. apply Hall. lia. }
  split; [|apply Hdone; by rewrite Hend].
  rewrite ci_read0, Hend, slice_glue by lia. apply slice_full.
Qed.

(** ** Witnesses

    Runs of the channel can be executed: an action names the step and picks
    frames and limits by position. *)

Inductive action : Type :=
| AWrite (data : bytes) (fin : bool) | ASend (max_bytes credit : Z) | ALost (n : nat) | AAcked (n : nat)
| ADeliver (n : nat) | ARead | AAdvertise | ACredit (n : nat).

Definition run_action (a : action) (c : channel) : option channel :=
  let '(mkChannel s r w d net got cr) := c in
  match a with
  | AWrite data fin => match write data fin s with
                       | (Ok _, s') => Some (mkChannel s' r (w ++ data) d net got cr)
                       | _ => None
                       end
  | ASend m k => match next_frame m k s with
                 | (Some f, s') => Some (mkChannel s' r w d (f :: net) got cr)
                 | _ => None
                 end
  | ALost n => f ← net !! n; Some (mkChannel (requeue f s) r w d net got cr)
  | AAcked n => f ← got !! n; Some (mkChannel (on_frame_acked f s) r w d net got cr)
  | ADeliver n => f ← net !! n; match on_stream_frame f r with
                                | (Ok _, r') => Some (mkChannel s r' w d net (f :: got) cr)
                                | _ => None
                                end
  | ARead => let '(x, r') := read r in Some (mkChannel s r' w (d ++ x) net got cr)
  | AAdvertise => match credit_update r with
                  | (Some m, r') => Some (mkChannel s r' w d net got (m :: cr))
                  | _ => None
                  end
  | ACredit n => m ← cr !! n; Some (mkChannel (on_max_stream_data m s) r w d net got cr)
  end.

Lemma run_action_step a c c' : run_action a c = Some c' → channel_step c c'.
Proof.
  destruct c as [s r w d net got cr], a; cbn.
  - destruct (write data fin s) as [[[]|] s'] eqn:E; [|done]. intros [= <-]. by eapply (step_write (mkChannel _ _ _ _ _ _ _)).
  - destruct (next_frame max_bytes credit s) as [[f|] s'] eqn:E; [|done]. intros [= <-]. by apply (step_send (mkChannel _ _ _ _ _ _ _) max_bytes credit).
  - destruct (net !! n) as [f|] eqn:E; [|done]. cbn. intros [= <-]. apply (step_lost (mkChannel _ _ _ _ _ _ _)). by eapply list_elem_of_lookup_2.
  - destruct (got !! n) as [f|] eqn:E; [|done]. cbn. intros [= <-]. apply (step_acked (mkChannel _ _ _ _ _ _ _)). by eapply list_elem_of_lookup_2.
  - destruct (net !! n) as [f|] eqn:E; [|done]. cbn. destruct (on_stream_frame f r) as [[[]|] r'] eqn:E'; [|done].
    intros [= <-]. apply (step_deliver (mkChannel _ _ _ _ _ _ _)); [|done]. by eapply list_elem_of_lookup_2.
  - destruct (read r) as [x r'] eqn:E. intros [= <-]. by apply (step_read (mkChannel _ _ _ _ _ _ _)).
  - destruct (credit_update r) as [[m|] r'] eqn:E; [|done]. intros [= <-]. by apply (step_advertise (mkChannel _ _ _ _ _ _ _)).
  - destruct (cr !! n) as [m|] eqn:E; [|done]. cbn. intros [= <-]. apply (step_credit (mkChannel _ _ _ _ _ _ _)). by eapply list_elem_of_lookup_2.
Qed.

Definition run_actions (l : list action) (c : channel) : option channel :=
  fold_left (λ o a, o ≫= run_action a) l (Some c).

Lemma run_actions_reachable l stream_id remembered limit c :
  0 <= remembered <= limit → run_actions l (new_channel stream_id remembered limit) = Some c → channel_reachable stream_id limit c.
Proof.
  intros Hr. unfold run_actions. revert c. induction l as [|a l IH] using rev_ind; intros c; cbn.
  - intros [= <-]. by apply reach_init.
  - rewrite fold_left_app. cbn. destruct (fold_left _ l _) as [c0|]; [|done]. cbn.
    intros H. eapply reach_step; [by apply IH|]. by eapply run_action_step.
Qed.

(** Three bytes written and closed, sent in two frames; the second is lost
    and sent again, frames arrive out of order and twice, and the
    acknowledgements come back. *)
Definition sample_actions : list action :=
  [AWrite [x68; x69; x21] true; ASend 2 10; ASend 2 10; ALost 0; ASend 2 10;
   ADeliver 0; ADeliver 1; ADeliver 2; AAcked 0; AAcked 1].

Definition sample_channel : channel :=
  default (new_channel 0 10 10) (run_actions sample_actions (new_channel 0 10 10)).

Lemma sample_reachable : channel_reachable 0 10 sample_channel.
Proof. apply (run_actions_reachable sample_actions 0 10); [lia|by vm_compute]. Qed.

Lemma stream_delivers_prefix_witness :
  ch_read sample_channel = take (length (ch_read sample_channel)) (ch_written sample_channel) ∧
  (rs_state (ch_recv sample_channel) = RECV_DATA_READ →
     ch_read sample_channel = ch_written sample_channel ∧ ss_fin_queued (ch_send sample_channel) = true).
Proof. apply (stream_delivers_prefix 0 10); [lia|apply sample_reachable]. Defined.

Lemma stream_frames_always_accepted_witness :
  ∃ r', on_stream_frame (mkStream 0 2 [x21] true) (ch_recv sample_channel) = (Ok tt, r').
Proof.
  apply (stream_frames_always_accepted 0 10 sample_channel); [lia|apply sample_reachable|].
  apply (list_elem_of_lookup_2 _ 0). by vm_compute.
Defined.

Lemma stream_completes_witness :
  ch_read sample_channel ++ (read (ch_recv sample_channel)).1 = [x68; x69; x21] ∧
  rs_state (read (ch_recv sample_channel)).2 = RECV_DATA_READ.
Proof.
  apply (stream_completes 0 10 sample_channel); [lia|apply sample_reachable|by vm_compute|by vm_compute|].
  apply Forall_forall. vm_compute. repeat (apply Forall_cons_2; [by repeat first [left | right]|]). apply Forall_nil_2.
Defined.

Lemma data_recvd_means_received_witness :
  ch_read sample_channel ++ (read (ch_recv sample_channel)).1 = [x68; x69; x21] ∧
  rs_state (read (ch_recv sample_channel)).2 = RECV_DATA_READ.
Proof.
  apply (data_recvd_means_received 0 10 sample_channel); [lia|apply sample_reachable|by vm_compute].
Defined.
