(* ===== verification/StreamManager.v ===== *)
(** * All streams of a connection (StreamManager of streams.py)

    The connection-wide bookkeeping of [src/dsquic/streams.py]: stream
    creation and numbering, stream-count limits and connection-level flow
    control (RFC 9000 sections 2.1, 4.1, 4.6).  [_streams] is an
    insertion-ordered dictionary of halves.  Methods that raise run in
    [M StreamManager]; the stream objects [send_stream] and [recv_stream]
    return are references into the dictionary, so calls on them are modelled
    by [on_send] and [on_recv], which write the changed half back. *)

From S2P Require Import Prelude Frames RangeSet Streams.

(** ** Model *)

Definition STREAM_SERVER_INITIATED_BIT : Z := 0x01.
Definition STREAM_UNIDIRECTIONAL_BIT : Z := 0x02.

Definition is_client_initiated (stream_id : Z) : bool := Z.land stream_id STREAM_SERVER_INITIATED_BIT =? 0.
Definition is_bidirectional (stream_id : Z) : bool := Z.land stream_id STREAM_UNIDIRECTIONAL_BIT =? 0.

Record FlowControlLimits : Type := mkFlowControlLimits {
  fl_max_data : Z;
  fl_max_stream_data_bidi_local : Z;
  fl_max_stream_data_bidi_remote : Z;
  fl_max_stream_data_uni : Z;
  fl_max_streams_bidi : Z;
  fl_max_streams_uni : Z }.

Record Half : Type := mkHalf { h_send : option SendStream; h_recv : option RecvStream }.

Record StreamManager : Type := mkStreamManager {
  sm_is_client : bool;
  sm_local : FlowControlLimits;
  sm_peer : FlowControlLimits;
  sm_streams : list (Z * Half);
  sm_next_bidi_sequence : Z;
  sm_max_data : Z;
  sm_local_max_data : Z;
  sm_data_window : Z;
  sm_max_streams_bidi : Z;
  sm_max_streams_uni : Z;
  sm_local_max_streams_bidi : Z;
  sm_local_max_streams_uni : Z;
  sm_streams_window_bidi : Z;
  sm_streams_window_uni : Z;
  sm_data_sent : Z;
  sm_data_received : Z }.

Definition new_StreamManager (is_client : bool) (local peer : FlowControlLimits) : StreamManager :=
  mkStreamManager is_client local peer [] 0 (fl_max_data peer) (fl_max_data local) (fl_max_data local)
    (fl_max_streams_bidi peer) (fl_max_streams_uni peer)
    (fl_max_streams_bidi local) (fl_max_streams_uni local)
    (fl_max_streams_bidi local) (fl_max_streams_uni local) 0 0.

(** Field updates. *)
Definition set_streams (d : list (Z * Half)) (m : StreamManager) : StreamManager :=
  mkStreamManager (sm_is_client m) (sm_local m) (sm_peer m) d (sm_next_bidi_sequence m)
    (sm_max_data m) (sm_local_max_data m) (sm_data_window m) (sm_max_streams_bidi m) (sm_max_streams_uni m)
    (sm_local_max_streams_bidi m) (sm_local_max_streams_uni m) (sm_streams_window_bidi m)
    (sm_streams_window_uni m) (sm_data_sent m) (sm_data_received m).
Definition set_sequence (n : Z) (m : StreamManager) : StreamManager :=
  mkStreamManager (sm_is_client m) (sm_local m) (sm_peer m) (sm_streams m) n
    (sm_max_data m) (sm_local_max_data m) (sm_data_window m) (sm_max_streams_bidi m) (sm_max_streams_uni m)
    (sm_local_max_streams_bidi m) (sm_local_max_streams_uni m) (sm_streams_window_bidi m)
    (sm_streams_window_uni m) (sm_data_sent m) (sm_data_received m).
Definition set_allowance (data bidi uni : Z) (m : StreamManager) : StreamManager :=
  mkStreamManager (sm_is_client m) (sm_local m) (sm_peer m) (sm_streams m) (sm_next_bidi_sequence m)
    data (sm_local_max_data m) (sm_data_window m) bidi uni
    (sm_local_max_streams_bidi m) (sm_local_max_streams_uni m) (sm_streams_window_bidi m)
    (sm_streams_window_uni m) (sm_data_sent m) (sm_data_received m).
Definition set_peer (p : FlowControlLimits) (m : StreamManager) : StreamManager :=
  mkStreamManager (sm_is_client m) (sm_local m) p (sm_streams m) (sm_next_bidi_sequence m)
    (sm_max_data m) (sm_local_max_data m) (sm_data_window m) (sm_max_streams_bidi m) (sm_max_streams_uni m)
    (sm_local_max_streams_bidi m) (sm_local_max_streams_uni m) (sm_streams_window_bidi m)
    (sm_streams_window_uni m) (sm_data_sent m) (sm_data_received m).
Definition set_advertised (data bidi uni : Z) (m : StreamManager) : StreamManager :=
  mkStreamManager (sm_is_client m) (sm_local m) (sm_peer m) (sm_streams m) (sm_next_bidi_sequence m)
    (sm_max_data m) data (sm_data_window m) (sm_max_streams_bidi m) (sm_max_streams_uni m)
    bidi uni (sm_streams_window_bidi m) (sm_streams_window_uni m) (sm_data_sent m) (sm_data_received m).
Definition set_counters (sent received : Z) (m : StreamManager) : StreamManager :=
  mkStreamManager (sm_is_client m) (sm_local m) (sm_peer m) (sm_streams m) (sm_next_bidi_sequence m)
    (sm_max_data m) (sm_local_max_data m) (sm_data_window m) (sm_max_streams_bidi m) (sm_max_streams_uni m)
    (sm_local_max_streams_bidi m) (sm_local_max_streams_uni m) (sm_streams_window_bidi m)
    (sm_streams_window_uni m) sent received.

(** *** Opening and lookup *)

Definition open_bidi : M StreamManager Z :=
  m ← get;
  if sm_next_bidi_sequence m >=? sm_max_streams_bidi m then
    raise (StreamLimitReached "peer's bidirectional stream limit reached")
  else
    let type_bits := if sm_is_client m then 0 else STREAM_SERVER_INITIATED_BIT in
    let stream_id := Z.lor (sm_next_bidi_sequence m ≪ 2) type_bits in
    _ ← modify (set_sequence (sm_next_bidi_sequence m + 1));
    _ ← modify (λ m, set_streams (d_set stream_id
          (mkHalf (Some (new_SendStream stream_id (fl_max_stream_data_bidi_remote (sm_peer m))))
                  (Some (new_RecvStream stream_id (fl_max_stream_data_bidi_local (sm_local m)))))
          (sm_streams m)) m);
    mret stream_id.

Definition raise_send_credit (maximum : Z) (h : Half) : Half :=
  mkHalf (on_max_stream_data maximum <$> h_send h) (h_recv h).

Definition update_peer_limits (peer : FlowControlLimits) (m : StreamManager) : StreamManager :=
  let m := set_peer peer m in
  let m := set_allowance (fl_max_data peer) (fl_max_streams_bidi peer) (fl_max_streams_uni peer) m in
  set_streams ((λ kv, (kv.1, raise_send_credit (fl_max_stream_data_bidi_remote peer) kv.2)) <$> sm_streams m) m.

Definition get_half (stream_id : Z) : M StreamManager Half :=
  m ← get;
  match d_get stream_id (sm_streams m) with Some h => mret h | None => raise KeyError end.

Definition stream_error (code : Z) (stream_id : Z) (text : string) : exn :=
  StreamError code ("stream " +:+ pretty stream_id +:+ text).

Definition send_stream (stream_id : Z) : M StreamManager SendStream :=
  half ← get_half stream_id;
  match h_send half with
  | None => raise (stream_error STREAM_STATE_ERROR stream_id " is not writable")
  | Some s => mret s
  end.

Definition recv_stream (stream_id : Z) : M StreamManager RecvStream :=
  half ← get_half stream_id;
  match h_recv half with
  | None => raise (stream_error STREAM_STATE_ERROR stream_id " is not readable")
  | Some r => mret r
  end.

(** Writing a half back where the dictionary holds it. *)
Definition store_send (stream_id : Z) (s : SendStream) (m : StreamManager) : StreamManager :=
  match d_get stream_id (sm_streams m) with
  | Some h => set_streams (d_set stream_id (mkHalf (Some s) (h_recv h)) (sm_streams m)) m
  | None => m
  end.
Definition store_recv (stream_id : Z) (r : RecvStream) (m : StreamManager) : StreamManager :=
  match d_get stream_id (sm_streams m) with
  | Some h => set_streams (d_set stream_id (mkHalf (h_send h) (Some r)) (sm_streams m)) m
  | None => m
  end.

(** A method call on the object [send_stream] (or [recv_stream]) returned. *)
Definition on_send {A} (stream_id : Z) (call : M SendStream A) : M StreamManager A :=
  s ← send_stream stream_id;
  let '(r, s') := call s in
  _ ← modify (store_send stream_id s'); lift r.
Definition on_recv {A} (stream_id : Z) (call : M RecvStream A) : M StreamManager A :=
  s ← recv_stream stream_id;
  let '(r, s') := call s in
  _ ← modify (store_recv stream_id s'); lift r.

Definition create_peer_initiated (stream_id : Z) : M StreamManager Half :=
  m ← get;
  let local_initiated := Bool.eqb (is_client_initiated stream_id) (sm_is_client m) in
  if local_initiated then raise (stream_error STREAM_STATE_ERROR stream_id " was never opened")
  else
    let sequence := stream_id ≫ 2 in
    if is_bidirectional stream_id then
      if sequence >=? sm_local_max_streams_bidi m then
        raise (stream_error STREAM_LIMIT_ERROR stream_id " exceeds stream limit")
      else mret (mkHalf (Some (new_SendStream stream_id (fl_max_stream_data_bidi_local (sm_peer m))))
                        (Some (new_RecvStream stream_id (fl_max_stream_data_bidi_remote (sm_local m)))))
    else if sequence >=? sm_local_max_streams_uni m then
      raise (stream_error STREAM_LIMIT_ERROR stream_id " exceeds stream limit")
    else mret (mkHalf None (Some (new_RecvStream stream_id (fl_max_stream_data_uni (sm_local m))))).

(** *** Frame handling *)

(** The half an incoming frame is for, created if the peer just opened it. *)
Definition half_for_frame (stream_id : Z) : M StreamManager Half :=
  m ← get;
  match d_get stream_id (sm_streams m) with
  | Some h => mret h
  | None =>
      half ← create_peer_initiated stream_id;
      _ ← modify (λ m, set_streams (d_set stream_id half (sm_streams m)) m);
      mret half
  end.

Definition sm_on_stream_frame (frame : Stream) : M StreamManager RecvStream :=
  half ← half_for_frame (st_id frame);
  match h_recv half with
  | None => raise (stream_error STREAM_STATE_ERROR (st_id frame) " is send-only")
  | Some recv =>
      let before := rs_highest_offset recv in
      let '(r, recv') := on_stream_frame frame recv in
      _ ← modify (store_recv (st_id frame) recv');
      _ ← lift r;
      _ ← modify (λ m, set_counters (sm_data_sent m)
                         (sm_data_received m + (rs_highest_offset recv' - before)) m);
      m ← get;
      if sm_data_received m >? sm_local_max_data m then
        raise (StreamError FLOW_CONTROL_ERROR "connection flow control exceeded")
      else mret recv'
  end.

Definition sm_next_frame (stream_id max_bytes : Z) : M StreamManager (option Stream) :=
  stream ← send_stream stream_id;
  m ← get;
  let connection_credit := sm_max_data m - sm_data_sent m in
  let before := ss_highest_offset_sent stream in
  let '(frame, stream') := next_frame max_bytes connection_credit stream in
  _ ← modify (store_send stream_id stream');
  _ ← (if frame is Some _ then modify (λ m, set_counters (sm_data_sent m + (ss_highest_offset_sent stream' - before))
                                               (sm_data_received m) m)
       else mret tt);
  mret frame.

Definition writable_streams (m : StreamManager) : list Z :=
  (List.filter (λ kv : Z * Half, match h_send kv.2 with Some s => has_pending s | None => false end)
     (sm_streams m)).*1.

Definition on_max_data (maximum : Z) (m : StreamManager) : StreamManager :=
  set_allowance (Z.max (sm_max_data m) maximum) (sm_max_streams_bidi m) (sm_max_streams_uni m) m.

Definition on_max_streams (maximum : Z) (bidirectional : bool) (m : StreamManager) : StreamManager :=
  if bidirectional
  then set_allowance (sm_max_data m) (Z.max (sm_max_streams_bidi m) maximum) (sm_max_streams_uni m) m
  else set_allowance (sm_max_data m) (sm_max_streams_bidi m) (Z.max (sm_max_streams_uni m) maximum) m.

(** A peer-initiated stream of the given direction, and a closed one. *)
Definition counts_as_opened (is_client bidirectional : bool) (kv : Z * Half) : bool :=
  negb (Bool.eqb (is_client_initiated kv.1) is_client) && Bool.eqb (is_bidirectional kv.1) bidirectional.
Definition counts_as_closed (is_client bidirectional : bool) (kv : Z * Half) : bool :=
  counts_as_opened is_client bidirectional kv
  && match h_recv kv.2 with Some r => is_fully_read r | None => false end.

Definition max_streams_update (bidirectional : bool) (m : StreamManager) : option Z * StreamManager :=
  let window := if bidirectional then sm_streams_window_bidi m else sm_streams_window_uni m in
  let advertised := if bidirectional then sm_local_max_streams_bidi m else sm_local_max_streams_uni m in
  let opened := len (List.filter (counts_as_opened (sm_is_client m) bidirectional) (sm_streams m)) in
  let closed := len (List.filter (counts_as_closed (sm_is_client m) bidirectional) (sm_streams m)) in
  if 2 * (advertised - opened) >=? window then (None, m)
  else
    let limit := closed + window in
    if limit <=? advertised then (None, m)
    else (Some limit,
          if bidirectional
          then set_advertised (sm_local_max_data m) limit (sm_local_max_streams_uni m) m
          else set_advertised (sm_local_max_data m) (sm_local_max_streams_bidi m) limit m).

Definition read_offset_of (kv : Z * Half) : Z :=
  match h_recv kv.2 with Some r => rs_read_offset r | None => 0 end.

Definition max_data_update (m : StreamManager) : option Z * StreamManager :=
  let consumed := sum_by read_offset_of (sm_streams m) in
  if 2 * (sm_local_max_data m - consumed) >=? sm_data_window m then (None, m)
  else
    let limit := consumed + sm_data_window m in
    (Some limit, set_advertised limit (sm_local_max_streams_bidi m) (sm_local_max_streams_uni m) m).

(** ** Invariant *)

Definition sent_of (kv : Z * Half) : Z := from_option ss_highest_offset_sent 0 (h_send kv.2).
Definition received_of (kv : Z * Half) : Z := from_option rs_highest_offset 0 (h_recv kv.2).

(** What the manager relies on in each half: the charged offset is what was
    sent, within the stream's credit; a receiving half never read past what
    it received, nor received past its credit or its final size. *)
Definition send_ok (s : SendStream) : Prop :=
  ss_highest_offset_sent s = ss_base_offset s ∧ 0 <= ss_base_offset s <= ss_max_stream_data s.

Record recv_ok (r : RecvStream) : Prop := mk_recv_ok {
  ro_ranges : ranges_ok (rs_received r);
  ro_inside : ∀ x, covered (rs_received r) x → x < rs_highest_offset r;
  ro_read : 0 <= rs_read_offset r <= rs_highest_offset r;
  ro_credit : rs_highest_offset r <= rs_max_stream_data r;
  ro_window : 0 <= rs_window r;
  ro_final : ∀ size, rs_final_size r = Some size → rs_highest_offset r <= size }.

Definition half_ok (h : Half) : Prop :=
  from_option send_ok True (h_send h) ∧ from_option recv_ok True (h_recv h).

Definition local_bit (is_client : bool) : Z := if is_client then 0 else STREAM_SERVER_INITIATED_BIT.

(** A stream ID in use: ours carries a sequence number already given out, the
    peer's is below the limit we advertised. *)
Definition id_ok (m : StreamManager) (k : Z) : Prop :=
  if Bool.eqb (is_client_initiated k) (sm_is_client m)
  then ∃ n, 0 <= n < sm_next_bidi_sequence m ∧ k = 4 * n + local_bit (sm_is_client m)
  else k ≫ 2 < (if is_bidirectional k then sm_local_max_streams_bidi m else sm_local_max_streams_uni m).

Definition limits_ok (l : FlowControlLimits) : Prop :=
  Forall (λ v, 0 <= v) [fl_max_data l; fl_max_stream_data_bidi_local l; fl_max_stream_data_bidi_remote l;
    fl_max_stream_data_uni l; fl_max_streams_bidi l; fl_max_streams_uni l].

Record manager_inv (m : StreamManager) : Prop := mk_manager_inv {
  mi_keys : NoDup (sm_streams m).*1;
  mi_ids : Forall (id_ok m) (sm_streams m).*1;
  mi_halves : Forall (λ kv, half_ok kv.2) (sm_streams m);
  mi_sent : sm_data_sent m = sum_by sent_of (sm_streams m);
  mi_received : sm_data_received m = sum_by received_of (sm_streams m);
  mi_sequence : 0 <= sm_next_bidi_sequence m;
  mi_windows : 0 <= sm_data_window m ∧ 0 <= sm_streams_window_bidi m ∧ 0 <= sm_streams_window_uni m;
  mi_local : limits_ok (sm_local m);
  mi_peer : limits_ok (sm_peer m) }.

Lemma limits_ok_all l : limits_ok l →
  0 <= fl_max_data l ∧ 0 <= fl_max_stream_data_bidi_local l ∧ 0 <= fl_max_stream_data_bidi_remote l ∧
  0 <= fl_max_stream_data_uni l ∧ 0 <= fl_max_streams_bidi l ∧ 0 <= fl_max_streams_uni l.
Proof. unfold limits_ok. rewrite !Forall_cons. tauto. Qed.

Lemma manager_inv_new is_client local peer :
  limits_ok local → limits_ok peer → manager_inv (new_StreamManager is_client local peer).
Proof.
  intros Hl Hp. pose proof (limits_ok_all _ Hl). pose proof (limits_ok_all _ Hp).
  constructor; cbn; try done; try tauto; try constructor.
Qed.

Lemma send_ok_new i max : 0 <= max → send_ok (new_SendStream i max).
Proof. unfold send_ok. cbn. lia. Qed.

Lemma recv_ok_new i max : 0 <= max → recv_ok (new_RecvStream i max).
Proof. intros H. constructor; cbn; try done; [apply ranges_ok_nil|]. intros x Hx. by apply covered_nil in Hx. Qed.

(** ** Halves under the stream operations *)

Lemma next_frame_ok s max_bytes credit o s' :
  send_ok s → next_frame max_bytes credit s = (o, s') →
  send_ok s' ∧ 0 <= ss_highest_offset_sent s' - ss_highest_offset_sent s <= Z.max 0 credit ∧
  (o = None → s' = s).
Proof.
  intros [Hh Hb] E. assert (next_new_frame max_bytes credit s = (o, s') ∨ ∃ f rest, o = Some f ∧ s' = set_retransmit rest s) as Hn.
  { unfold next_frame in E. destruct (ss_retransmit s); [by left|]. case_test_in E; [|by left]. injection E as <- <-. right. eauto. }
  clear E. destruct Hn as [E|(f & rest & -> & ->)].
  2: { unfold send_ok. cbn. split; [done|]. split; [lia|done]. }
  unfold next_new_frame in E. cbn zeta in E. set (b := Z.max _ 0) in E.
  assert (Hc : 0 <= b ∧ len (take (Z.to_nat b) (ss_pending s)) = b).
  { split; [lia|]. pose proof (len_nonneg (ss_pending s)). unfold len in *. rewrite length_take. lia. }
  destruct Hc as [Hb0 Hc]. rewrite Hc in E. case_test_in E.
  { injection E as <- <-. unfold send_ok. split; [done|]. split; [lia|done]. }
  injection E as <- <-. unfold send_ok. cbn. pose proof (len_nonneg (ss_pending s)). split; [lia|]. split; [lia|done].
Qed.

Lemma on_stream_frame_ok r f res r' :
  recv_ok r → on_stream_frame f r = (res, r') →
  recv_ok r' ∧ match res with
               | Ok _ => rs_highest_offset r' = Z.max (rs_highest_offset r) (frame_end f)
               | Raise _ => rs_highest_offset r' = rs_highest_offset r
               end.
Proof.
  intros Hr. unfold on_stream_frame. erewrite M_bind_ok by done. fold (frame_end f). case_test.
  { intros [= <- <-]. done. }
  assert (Hstore : ∀ r1, recv_ok r1 → frame_end f <= rs_max_stream_data r1 →
            (∀ size, rs_final_size r1 = Some size → frame_end f <= size) → recv_ok (store_frame f r1)).
  { intros r1 [] Hle Hsz. constructor; cbn; fold (frame_end f); try done; try lia; [auto with quic| |].
    - intros x [Hx|Hx]%covered_add; [apply ro_inside0 in Hx; lia|lia|done].
    - intros size Hs. specialize (ro_final0 _ Hs). specialize (Hsz _ Hs). lia. }
  destruct (st_fin f) eqn:Ef.
  - destruct (frame_end f <? rs_highest_offset r) eqn:Eh.
    { erewrite M_bind_raise by done. intros [= <- <-]. done. }
    bool_cases. erewrite M_bind_ok by done.
    assert (Hr1 : recv_ok (set_final_size (Some (frame_end f)) r)).
    { destruct Hr. constructor; cbn; try done. intros size [= <-]. lia. }
    case_test; intros [= <- <-]; [done|]. split; [|done]. apply Hstore; [done|done|]. by intros size [= <-].
  - erewrite M_bind_ok by done. case_test; intros [= <- <-]; [done|]. split; [|done].
    apply Hstore; [done|done|]. intros size Hs. rewrite Hs in *. bool_cases. done.
Qed.

Lemma read_ok r d r' : recv_ok r → read r = (d, r') → recv_ok r' ∧ rs_highest_offset r' = rs_highest_offset r.
Proof.
  intros [] [= <- <-]. split; [|done].
  destruct (contiguous_from_spec (rs_read_offset r) (rs_received r) ro_ranges0) as (H1 & H2 & H3).
  constructor; cbn; try done. destruct (Z.eq_dec (contiguous_from (rs_read_offset r) (rs_received r)) (rs_read_offset r)); [lia|].
  assert (covered (rs_received r) (contiguous_from (rs_read_offset r) (rs_received r) - 1)) as Hc by (apply H2; lia).
  apply ro_inside0 in Hc. lia.
Qed.

Lemma credit_update_ok r o r' : recv_ok r → credit_update r = (o, r') → recv_ok r' ∧ rs_highest_offset r' = rs_highest_offset r.
Proof.
  intros Hr. unfold credit_update. destruct (rs_final_size r) eqn:Ef; [by intros [= <- <-]|].
  case_test; intros [= <- <-]; [done|]. split; [|done]. destruct Hr. constructor; cbn; try done. lia.
Qed.

(** ** Updating one half *)

Lemma sum_by_d_set {K V} `{EqDecision K} (f : K * V → Z) k v v' (d : list (K * V)) :
  d_get k d = Some v → sum_by f (d_set k v' d) = sum_by f d - f (k, v) + f (k, v').
Proof.
  intros (d1 & d2 & -> & Hset)%d_get_split. rewrite Hset, !sum_by_app, !sum_by_cons. lia.
Qed.

Lemma get_half_some m k h : d_get k (sm_streams m) = Some h → get_half k m = (Ok h, m).
Proof. intros H. unfold get_half. erewrite M_bind_ok by done. by rewrite H. Qed.

(** The counters after a half changed by [ds] sent and [dr] received. *)
Lemma inv_update_half m k h h' ds dr :
  manager_inv m → d_get k (sm_streams m) = Some h → half_ok h' →
  sent_of (k, h') = sent_of (k, h) + ds → received_of (k, h') = received_of (k, h) + dr →
  manager_inv (set_counters (sm_data_sent m + ds) (sm_data_received m + dr)
                 (set_streams (d_set k h' (sm_streams m)) m)).
Proof.
  intros [] Hk Hh Hs Hr.
  assert (Hin : k ∈ (sm_streams m).*1) by (apply list_elem_of_fmap; exists (k, h); split; [done|by apply d_get_elem]).
  constructor; cbn -[sum_by]; rewrite ?d_set_keys_old by done; try done.
  - by apply d_set_Forall.
  - rewrite (sum_by_d_set _ _ h) by done. lia.
  - rewrite (sum_by_d_set _ _ h) by done. lia.
Qed.

Lemma set_counters_same m d :
  set_counters (sm_data_sent m + 0) (sm_data_received m + 0) (set_streams d m) = set_streams d m.
Proof. unfold set_counters, set_streams. cbn. by rewrite !Z.add_0_r. Qed.

Lemma half_ok_get m k h : manager_inv m → d_get k (sm_streams m) = Some h → half_ok h.
Proof. intros [] Hk%d_get_elem. rewrite Forall_forall in mi_halves0. exact (mi_halves0 _ Hk). Qed.

(** Looking a half up never changes the manager. *)
Lemma send_stream_cases m k :
  (∃ h s, d_get k (sm_streams m) = Some h ∧ h_send h = Some s ∧ send_stream k m = (Ok s, m)) ∨
  (∃ e, send_stream k m = (Raise e, m)).
Proof.
  unfold send_stream, get_half, get, mbind, M_bind. destruct (d_get k (sm_streams m)) as [h|]; [|right; eauto].
  cbn. destruct (h_send h) as [s|] eqn:Es; [|right; eauto]. left. exists h, s. done.
Qed.

Lemma recv_stream_cases m k :
  (∃ h s, d_get k (sm_streams m) = Some h ∧ h_recv h = Some s ∧ recv_stream k m = (Ok s, m)) ∨
  (∃ e, recv_stream k m = (Raise e, m)).
Proof.
  unfold recv_stream, get_half, get, mbind, M_bind. destruct (d_get k (sm_streams m)) as [h|]; [|right; eauto].
  cbn. destruct (h_recv h) as [s|] eqn:Es; [|right; eauto]. left. exists h, s. done.
Qed.

(** A call through a reference replaces that half and nothing else. *)
Lemma on_send_cases {A} m k (call : M SendStream A) r m' :
  on_send k call m = (r, m') →
  (m' = m ∧ ∃ e, r = Raise e) ∨
  ∃ h s, d_get k (sm_streams m) = Some h ∧ h_send h = Some s ∧ r = (call s).1 ∧
    m' = set_streams (d_set k (mkHalf (Some (call s).2) (h_recv h)) (sm_streams m)) m.
Proof.
  unfold on_send. destruct (send_stream_cases m k) as [(h & s & Ek & Es & E)|[e E]].
  - erewrite M_bind_ok by exact E. destruct (call s) as [res s'] eqn:Ec. erewrite M_bind_ok by done.
    intros [= <- <-]. right. exists h, s. unfold store_send. by rewrite Ek, Ec.
  - erewrite M_bind_raise by exact E. intros [= <- <-]. left. eauto.
Qed.

Lemma on_recv_cases {A} m k (call : M RecvStream A) r m' :
  on_recv k call m = (r, m') →
  (m' = m ∧ ∃ e, r = Raise e) ∨
  ∃ h s, d_get k (sm_streams m) = Some h ∧ h_recv h = Some s ∧ r = (call s).1 ∧
    m' = set_streams (d_set k (mkHalf (h_send h) (Some (call s).2)) (sm_streams m)) m.
Proof.
  unfold on_recv. destruct (recv_stream_cases m k) as [(h & s & Ek & Es & E)|[e E]].
  - erewrite M_bind_ok by exact E. destruct (call s) as [res s'] eqn:Ec. erewrite M_bind_ok by done.
    intros [= <- <-]. right. exists h, s. unfold store_recv. by rewrite Ek, Ec.
  - erewrite M_bind_raise by exact E. intros [= <- <-]. left. eauto.
Qed.

(** The manager's own counters and limits are as they were. *)
Definition same_counters (m m' : StreamManager) : Prop :=
  sm_data_received m' = sm_data_received m ∧ sm_local_max_data m' = sm_local_max_data m.

(** A call on a sending half that leaves what was sent as it was. *)
Lemma inv_on_send {A} m k (call : M SendStream A) r m' :
  (∀ s, send_ok s → send_ok (call s).2 ∧ ss_highest_offset_sent (call s).2 = ss_highest_offset_sent s) →
  manager_inv m → on_send k call m = (r, m') → manager_inv m' ∧ same_counters m m'.
Proof.
  intros Hcall Hi [[-> _]|(h & s & Ek & Es & -> & ->)]%on_send_cases; [done|].
  pose proof (half_ok_get _ _ _ Hi Ek) as [Hs Hr]. rewrite Es in Hs. destruct (Hcall s Hs) as [Hs' Hh].
  split; [|done]. rewrite <- set_counters_same. apply inv_update_half with h; [done|done|by split|..].
  - unfold sent_of. cbn. rewrite Es. cbn. lia.
  - unfold received_of. cbn. lia.
Qed.

Lemma inv_on_recv {A} m k (call : M RecvStream A) r m' :
  (∀ s, recv_ok s → recv_ok (call s).2 ∧ rs_highest_offset (call s).2 = rs_highest_offset s) →
  manager_inv m → on_recv k call m = (r, m') → manager_inv m' ∧ same_counters m m'.
Proof.
  intros Hcall Hi [[-> _]|(h & s & Ek & Es & -> & ->)]%on_recv_cases; [done|].
  pose proof (half_ok_get _ _ _ Hi Ek) as [Hs Hr]. rewrite Es in Hr. destruct (Hcall s Hr) as [Hr' Hh].
  split; [|done]. rewrite <- set_counters_same. apply inv_update_half with h; [done|done|by split|..].
  - unfold sent_of. cbn. lia.
  - unfold received_of. cbn. rewrite Es. cbn. lia.
Qed.

(** A new half that has sent and received nothing. *)
Lemma inv_new_half m k h :
  manager_inv m → k ∉ (sm_streams m).*1 → id_ok m k → half_ok h → sent_of (k, h) = 0 → received_of (k, h) = 0 →
  manager_inv (set_streams (d_set k h (sm_streams m)) m).
Proof.
  intros [] Hk Hid Hh Hs Hr. constructor; cbn -[sum_by]; try done.
  - by apply d_set_NoDup.
  - rewrite d_set_new, fmap_app by done. apply Forall_app. split; [done|]. by apply Forall_singleton.
  - by apply d_set_Forall.
  - rewrite d_set_new, sum_by_app by done. cbn -[sum_by]. rewrite sum_by_cons. change (sum_by _ []) with 0. lia.
  - rewrite d_set_new, sum_by_app by done. cbn -[sum_by]. rewrite sum_by_cons. change (sum_by _ []) with 0. lia.
Qed.

Lemma id_ok_mono m m' k :
  sm_is_client m' = sm_is_client m → sm_next_bidi_sequence m <= sm_next_bidi_sequence m' →
  sm_local_max_streams_bidi m <= sm_local_max_streams_bidi m' →
  sm_local_max_streams_uni m <= sm_local_max_streams_uni m' → id_ok m k → id_ok m' k.
Proof.
  intros Hc Hn Hb Hu. unfold id_ok. rewrite Hc. case_test.
  - intros (n & ? & ?). exists n. split; [lia|done].
  - destruct (is_bidirectional k); lia.
Qed.

(** Our own IDs. *)
Lemma open_id_eq n (is_client : bool) : 0 <= n →
  Z.lor (n ≪ 2) (if is_client then 0 else STREAM_SERVER_INITIATED_BIT) = 4 * n + local_bit is_client.
Proof.
  intros Hn. rewrite Z.shiftl_mul_pow2 by lia. change (2 ^ 2) with 4. unfold local_bit, STREAM_SERVER_INITIATED_BIT.
  destruct is_client; [rewrite Z.lor_0_r; lia|].
  rewrite Z.lor_comm. rewrite (lor_add_high 1 n 2 ltac:(lia) ltac:(lia) : Z.lor 1 (n * 4) = 1 + n * 4). lia.
Qed.

Lemma open_id_client n (is_client : bool) : 0 <= n →
  is_client_initiated (4 * n + local_bit is_client) = is_client ∧ is_bidirectional (4 * n + local_bit is_client) = true.
Proof.
  intros Hn. unfold is_client_initiated, is_bidirectional, local_bit, STREAM_SERVER_INITIATED_BIT, STREAM_UNIDIRECTIONAL_BIT.
  rewrite (land_ones_mod _ 1 1) by done. change (2 ^ 1) with 2.
  assert (Hd : Z.land (4 * n + (if is_client then 0 else 1)) 2 = 0).
  { change 2 with (2 ^ 1). apply land_bit_zero; [lia|]. rewrite Z.testbit_odd, Z.shiftr_div_pow2 by lia. change (2 ^ 1) with 2.
    replace ((4 * n + (if is_client then 0 else 1)) / 2) with (2 * n) by
      (apply Z.div_unique_pos with (if is_client then 0 else 1); destruct is_client; lia).
    rewrite Z.odd_mul. done. }
  rewrite Hd. split; [|done].
  replace ((4 * n + (if is_client then 0 else 1)) mod 2) with (if is_client then 0 else 1) by
    (apply Z.mod_unique_pos with (2 * n); destruct is_client; lia). by destruct is_client.
Qed.

Lemma open_id_fresh m : manager_inv m → 4 * sm_next_bidi_sequence m + local_bit (sm_is_client m) ∉ (sm_streams m).*1.
Proof.
  intros [] Hin. rewrite Forall_forall in mi_ids0. specialize (mi_ids0 _ Hin). unfold id_ok in mi_ids0.
  destruct (open_id_client (sm_next_bidi_sequence m) (sm_is_client m) ltac:(done)) as [Hc _].
  rewrite Hc, Bool.eqb_reflx in mi_ids0. destruct mi_ids0 as (n & Hn & Heq). lia.
Qed.

(** ** The operations preserve the invariant *)

Lemma open_bidi_cases m :
  manager_inv m →
  (sm_max_streams_bidi m <= sm_next_bidi_sequence m ∧
     open_bidi m = (Raise (StreamLimitReached "peer's bidirectional stream limit reached"), m)) ∨
  (sm_next_bidi_sequence m < sm_max_streams_bidi m ∧
   let k := 4 * sm_next_bidi_sequence m + local_bit (sm_is_client m) in
   let h := mkHalf (Some (new_SendStream k (fl_max_stream_data_bidi_remote (sm_peer m))))
                   (Some (new_RecvStream k (fl_max_stream_data_bidi_local (sm_local m)))) in
   let m1 := set_sequence (sm_next_bidi_sequence m + 1) m in
   k ∉ (sm_streams m).*1 ∧
   open_bidi m = (Ok k, set_streams (d_set k h (sm_streams m1)) m1)).
Proof.
  intros Hi. unfold open_bidi. erewrite M_bind_ok by done. rewrite open_id_eq by (by destruct Hi).
  rewrite Z.geb_leb. case_test; [by left|]. right. cbn zeta. split; [done|]. split; [by apply open_id_fresh|].
  reflexivity.
Qed.

Lemma inv_open_bidi m r m' : manager_inv m → open_bidi m = (r, m') → manager_inv m' ∧ same_counters m m'.
Proof.
  intros Hi. destruct (open_bidi_cases m Hi) as [[_ ->]|(Hlt & Hfresh & ->)]; intros [= <- <-]; [done|].
  pose proof (limits_ok_all _ (mi_local _ Hi)). pose proof (limits_ok_all _ (mi_peer _ Hi)).
  split; [|done]. apply (inv_new_half (set_sequence (sm_next_bidi_sequence m + 1) m)); try done.
  - destruct Hi. constructor; cbn; try done; [|lia].
    eapply Forall_impl; [done|]. intros k. apply id_ok_mono; cbn; (done || lia).
  - unfold id_ok. cbn. destruct (open_id_client (sm_next_bidi_sequence m) (sm_is_client m)) as [-> _]; [by destruct Hi|].
    rewrite Bool.eqb_reflx. exists (sm_next_bidi_sequence m). destruct Hi. split; [lia|done].
  - split; cbn; [apply send_ok_new | apply recv_ok_new]; lia.
Qed.

Lemma inv_create m k r m' :
  manager_inv m → create_peer_initiated k m = (r, m') →
  m' = m ∧ match r with
    | Ok h => id_ok m k ∧ half_ok h ∧ sent_of (k, h) = 0 ∧ received_of (k, h) = 0
    | Raise _ => True
    end.
Proof.
  intros Hi. pose proof (limits_ok_all _ (mi_local _ Hi)). pose proof (limits_ok_all _ (mi_peer _ Hi)).
  unfold create_peer_initiated, id_ok. erewrite M_bind_ok by done. cbn zeta. case_test; [by intros [= <- <-]|].
  case_test; rewrite Z.geb_leb; (case_test; [by intros [= <- <-]|]); intros [= <- <-]; (split; [done|]); (split; [done|]);
    (split; [|done]); split; cbn; try done; first [apply send_ok_new | apply recv_ok_new]; lia.
Qed.

Lemma inv_half_for_frame m k r m' :
  manager_inv m → half_for_frame k m = (r, m') →
  manager_inv m' ∧ sm_local_max_data m' = sm_local_max_data m ∧ sm_data_received m' = sm_data_received m ∧
  sm_max_data m' = sm_max_data m ∧ sm_data_sent m' = sm_data_sent m ∧
  match r with Ok h => d_get k (sm_streams m') = Some h | Raise _ => m' = m end.
Proof.
  intros Hi. unfold half_for_frame. erewrite M_bind_ok by done.
  destruct (d_get k (sm_streams m)) as [h|] eqn:Ek; [by intros [= <- <-]|].
  destruct (create_peer_initiated k m) as [[h|e] m1] eqn:Ec; destruct (inv_create _ _ _ _ Hi Ec) as [-> Hc].
  - erewrite M_bind_ok by exact Ec. intros [= <- <-]. destruct Hc as (Hid & Hh & Hs & Hr). split_and!; try done.
    + apply inv_new_half; try done. by apply d_get_None.
    + cbn. apply d_get_set_eq.
  - erewrite M_bind_raise by exact Ec. by intros [= <- <-].
Qed.

Lemma inv_on_stream_frame m f r m' :
  manager_inv m → sm_on_stream_frame f m = (r, m') →
  manager_inv m' ∧ sm_local_max_data m' = sm_local_max_data m ∧ sm_max_data m' = sm_max_data m ∧
  (is_ok r = true → sm_data_received m' <= sm_local_max_data m').
Proof.
  intros Hi. unfold sm_on_stream_frame. destruct (half_for_frame (st_id f) m) as [[h|e] m1] eqn:E1.
  2: { erewrite M_bind_raise by exact E1. intros [= <- <-]. destruct (inv_half_for_frame _ _ _ _ Hi E1) as (? & ? & ? & ? & ? & ->). by split_and!. }
  destruct (inv_half_for_frame _ _ _ _ Hi E1) as (Hi1 & <- & Hrec & <- & Hsent & Hk). erewrite M_bind_ok by exact E1.
  pose proof (half_ok_get _ _ _ Hi1 Hk) as [Hs Hr]. destruct (h_recv h) as [recv|] eqn:Er; cbn in Hr; [|by intros [= <- <-]].
  cbn zeta. destruct (on_stream_frame f recv) as [res recv'] eqn:E2.
  destruct (on_stream_frame_ok _ _ _ _ Hr E2) as [Hr' Hh]. erewrite M_bind_ok by done. unfold store_recv. rewrite Hk.
  set (h' := mkHalf _ _). assert (Hh' : half_ok h') by done.
  destruct res as [[]|e].
  - erewrite M_bind_ok by done. erewrite M_bind_ok by done. erewrite M_bind_ok by done.
    set (dr := rs_highest_offset recv' - rs_highest_offset recv).
    assert (Hinv : manager_inv (set_counters (sm_data_sent m1 + 0) (sm_data_received m1 + dr)
                     (set_streams (d_set (st_id f) h' (sm_streams m1)) m1))).
    { apply inv_update_half with h; [done..|unfold sent_of; cbn; lia|].
      unfold received_of. cbn. rewrite Er. cbn. lia. }
    rewrite Z.add_0_r in Hinv. case_test; intros [= <- <-]; (split; [exact Hinv|]); (split; [done|]); (split; [done|]); [done|].
    intros _. done.
  - erewrite M_bind_raise by done. intros [= <- <-]. cbn. split_and!; try done.
    rewrite <- set_counters_same. apply inv_update_half with h; [done..|unfold sent_of; cbn; lia|].
    unfold received_of. cbn. rewrite Er. cbn. lia.
Qed.

Lemma inv_next_frame m k max_bytes r m' :
  manager_inv m → sm_next_frame k max_bytes m = (r, m') → manager_inv m' ∧ same_counters m m'.
Proof.
  intros Hi. unfold sm_next_frame. destruct (send_stream_cases m k) as [(h & s & Ek & Es & E)|[e E]].
  2: { erewrite M_bind_raise by exact E. by intros [= <- <-]. }
  erewrite M_bind_ok by exact E. pose proof (half_ok_get _ _ _ Hi Ek) as [Hs Hr]. rewrite Es in Hs. cbn in Hs.
  erewrite M_bind_ok by done. cbn zeta. destruct (next_frame max_bytes _ s) as [o s'] eqn:En.
  destruct (next_frame_ok _ _ _ _ _ Hs En) as (Hs' & Hd & Hnone). erewrite M_bind_ok by done.
  unfold store_send. rewrite Ek. set (ds := ss_highest_offset_sent s' - ss_highest_offset_sent s) in *.
  assert (Hinv : manager_inv (set_counters (sm_data_sent m + ds) (sm_data_received m + 0)
                   (set_streams (d_set k (mkHalf (Some s') (h_recv h)) (sm_streams m)) m))).
  { apply inv_update_half with h; [done|done|by split|..].
    - unfold sent_of. cbn. rewrite Es. cbn. lia.
    - unfold received_of. cbn. lia. }
  rewrite Z.add_0_r in Hinv. destruct o as [f|].
  - erewrite M_bind_ok by done. intros [= <- <-]. split; [exact Hinv|done].
  - erewrite M_bind_ok by done. intros [= <- <-]. split; [|done]. specialize (Hnone eq_refl). subst s'. unfold ds in Hinv.
    rewrite Z.sub_diag, Z.add_0_r in Hinv. by destruct m.
Qed.

Lemma inv_update_peer_limits m peer :
  manager_inv m → limits_ok peer → manager_inv (update_peer_limits peer m).
Proof.
  intros [] Hp. unfold update_peer_limits. cbn zeta. constructor; cbn -[sum_by]; try done.
  - rewrite <- list_fmap_compose. exact mi_keys0.
  - rewrite <- list_fmap_compose. eapply Forall_impl; [exact mi_ids0|]. intros k. apply id_ok_mono; cbn; lia || done.
  - apply Forall_fmap. eapply Forall_impl; [exact mi_halves0|]. intros [k [[s|] r]]; [|done].
    unfold half_ok, send_ok. cbn. intros ([? ?] & ?). split; [lia|done].
  - rewrite mi_sent0. clear. induction (sm_streams m) as [|[k [[s|] r]] l IH]; cbn -[sum_by]; [done| |]; rewrite !sum_by_cons, <- IH; done.
  - rewrite mi_received0. clear. induction (sm_streams m) as [|[k [s r]] l IH]; cbn -[sum_by]; [done|]; rewrite !sum_by_cons, <- IH; done.
Qed.

(** ** Operation sequences *)

(** Every call the connection makes on the manager or on a stream of it. *)
Inductive sm_op : Type :=
| OpOpenBidi | OpStreamFrame (f : Stream) | OpNextFrame (stream_id max_bytes : Z)
| OpWrite (stream_id : Z) (data : bytes) (fin : bool) | OpAcked (stream_id : Z) (f : Stream)
| OpRequeue (stream_id : Z) (f : Stream) | OpMaxStreamData (stream_id maximum : Z)
| OpRead (stream_id : Z) | OpCreditUpdate (stream_id : Z) | OpMaxData (maximum : Z)
| OpMaxStreams (maximum : Z) (bidirectional : bool) | OpMaxStreamsUpdate (bidirectional : bool)
| OpMaxDataUpdate | OpUpdatePeerLimits (peer : FlowControlLimits).

(** A state function as a computation that never raises. *)
Definition pure_call {S A} (f : S → A * S) : M S A := λ s, let '(a, s') := f s in (Ok a, s').

Definition void {S A} (c : M S A) : M S unit := _ ← c; mret tt.

Definition exec (op : sm_op) : M StreamManager unit :=
  match op with
  | OpOpenBidi => void open_bidi
  | OpStreamFrame f => void (sm_on_stream_frame f)
  | OpNextFrame k n => void (sm_next_frame k n)
  | OpWrite k data fin => on_send k (write data fin)
  | OpAcked k f => on_send k (modify (on_frame_acked f))
  | OpRequeue k f => on_send k (modify (requeue f))
  | OpMaxStreamData k v => on_send k (modify (on_max_stream_data v))
  | OpRead k => void (on_recv k (pure_call read))
  | OpCreditUpdate k => void (on_recv k (pure_call credit_update))
  | OpMaxData v => modify (on_max_data v)
  | OpMaxStreams v b => modify (on_max_streams v b)
  | OpMaxStreamsUpdate b => void (pure_call (max_streams_update b))
  | OpMaxDataUpdate => void (pure_call max_data_update)
  | OpUpdatePeerLimits p => modify (update_peer_limits p)
  end.

(** Limits come off the wire as varints: they are not negative.  Nothing else is
    asked of a call. *)
Definition op_ok (op : sm_op) : Prop :=
  match op with OpUpdatePeerLimits p => limits_ok p | _ => True end.

(** States reached by calls that all returned, with the largest limit on the
    connection's data that was in force on the way, and whether a call lowered
    that limit ([update_peer_limits] may, after rejected early data). *)
Inductive sm_reachable (is_client : bool) (local peer : FlowControlLimits) : Z → bool → StreamManager → Prop :=
| sm_reach_init : sm_reachable is_client local peer (fl_max_data peer) false (new_StreamManager is_client local peer)
| sm_reach_step op high lowered m m' :
    sm_reachable is_client local peer high lowered m → op_ok op → exec op m = (Ok tt, m') →
    sm_reachable is_client local peer (Z.max high (sm_max_data m')) (lowered || (sm_max_data m' <? sm_max_data m)) m'.

Lemma void_inv {S A} (c : M S A) s r s' : void c s = (r, s') → ∃ r0, c s = (r0, s') ∧ is_ok r0 = is_ok r.
Proof.
  unfold void. destruct (c s) as [[a|e] s1] eqn:E.
  - erewrite M_bind_ok by exact E. intros [= <- <-]. eauto.
  - erewrite M_bind_raise by exact E. intros [= <- <-]. eauto.
Qed.

Lemma inv_max_streams_update b m o m' :
  manager_inv m → max_streams_update b m = (o, m') →
  manager_inv m' ∧ sm_local_max_data m' = sm_local_max_data m ∧ sm_data_received m' = sm_data_received m.
Proof.
  intros Hi. unfold max_streams_update. cbn zeta. case_test; [by intros [= <- <-]|].
  case_test; [by intros [= <- <-]|]. intros [= <- <-].
  split; [|by destruct b]. destruct Hi. destruct b; (constructor; cbn -[sum_by]; try done);
    (eapply Forall_impl; [done|]); intros k; apply id_ok_mono; cbn; (done || lia).
Qed.

Lemma inv_max_data_update m o m' :
  manager_inv m → max_data_update m = (o, m') →
  manager_inv m' ∧ sm_local_max_data m <= sm_local_max_data m' ∧ sm_data_received m' = sm_data_received m.
Proof.
  intros Hi. unfold max_data_update. cbn zeta. case_test; intros [= <- <-]; [done|].
  destruct Hi. split; [by constructor|]. cbn -[sum_by]. lia.
Qed.

(** The send-side calls that charge nothing. *)
Lemma write_ok data fin s :
  send_ok s → send_ok (write data fin s).2 ∧ ss_highest_offset_sent (write data fin s).2 = ss_highest_offset_sent s.
Proof. intros H. unfold write, mbind, M_bind, get. by destruct (ss_fin_queued s). Qed.

Lemma requeue_ok f s : send_ok s → send_ok (requeue f s) ∧ ss_highest_offset_sent (requeue f s) = ss_highest_offset_sent s.
Proof. intros H. unfold requeue. by destruct (_ || _). Qed.

Lemma on_max_stream_data_ok v s :
  send_ok s → send_ok (on_max_stream_data v s) ∧ ss_highest_offset_sent (on_max_stream_data v s) = ss_highest_offset_sent s.
Proof. unfold send_ok. cbn. lia. Qed.

Lemma same_counters_bound m m' (ok : bool) :
  same_counters m m' → ok = true → sm_data_received m <= sm_local_max_data m → sm_data_received m' <= sm_local_max_data m'.
Proof. unfold same_counters. lia. Qed.

(** Every operation preserves the invariant, returning or raising; when it
    returns, received data stays within what was advertised. *)
Lemma exec_inv op m r m' :
  manager_inv m → op_ok op → exec op m = (r, m') →
  manager_inv m' ∧
  (is_ok r = true → sm_data_received m <= sm_local_max_data m → sm_data_received m' <= sm_local_max_data m').
Proof.
  intros Hi Hok E.
  assert (Hsame : manager_inv m' ∧ same_counters m m' → manager_inv m' ∧
    (is_ok r = true → sm_data_received m <= sm_local_max_data m → sm_data_received m' <= sm_local_max_data m')).
  { intros [? ?]. split; [done|]. by eapply same_counters_bound. }
  destruct op; cbn [exec] in E; try apply void_inv in E as (r0 & E & Hr0).
  - by eapply Hsame, inv_open_bidi.
  - destruct (inv_on_stream_frame _ _ _ _ Hi E) as (Hi' & Hl & _ & Hb). split; [done|]. rewrite <- Hr0. auto.
  - by eapply Hsame, inv_next_frame.
  - eapply Hsame, inv_on_send; [apply write_ok|done..].
  - eapply Hsame, inv_on_send; [|done..]. intros s Hs. done.
  - eapply Hsame, inv_on_send; [|done..]. intros s Hs. by apply requeue_ok.
  - eapply Hsame, inv_on_send; [|done..]. intros s Hs. by apply on_max_stream_data_ok.
  - eapply Hsame, inv_on_recv; [|done..]. intros s Hs. unfold pure_call. destruct (read s) eqn:Er. by eapply read_ok.
  - eapply Hsame, inv_on_recv; [|done..]. intros s Hs. unfold pure_call. destruct (credit_update s) eqn:Er. by eapply credit_update_ok.
  - injection E as <- <-. apply Hsame. split; [|done]. destruct Hi. by constructor.
  - injection E as <- <-. apply Hsame. split; [|by destruct bidirectional]. destruct Hi. by destruct bidirectional; constructor.
  - unfold pure_call in E. destruct (max_streams_update bidirectional m) as [o m1] eqn:Eu. injection E as _ <-.
    destruct (inv_max_streams_update _ _ _ _ Hi Eu) as (? & ? & ?). by apply Hsame.
  - unfold pure_call in E. destruct (max_data_update m) as [o m1] eqn:Eu. injection E as _ <-.
    destruct (inv_max_data_update _ _ _ Hi Eu) as (? & ? & ?). split; [done|]. intros _ ?. lia.
  - injection E as <- <-. apply Hsame. split; [by apply inv_update_peer_limits|done].
Qed.

(** *** New data is sent within the limit in force *)

Definition same_allowance (m m' : StreamManager) : Prop :=
  sm_data_sent m' = sm_data_sent m ∧ sm_max_data m' = sm_max_data m.

#[export] Instance same_allowance_preorder : PreOrder same_allowance.
Proof. split; [done|]. intros a b c [] []. split; congruence. Qed.

Lemma allowance_on_send {A} k (call : M SendStream A) : preserves same_allowance (on_send k call).
Proof. intros m. destruct (on_send k call m) as [r m'] eqn:E. by apply on_send_cases in E as [[-> _]|(h & s & _ & _ & _ & ->)]. Qed.
Lemma allowance_on_recv {A} k (call : M RecvStream A) : preserves same_allowance (on_recv k call).
Proof. intros m. destruct (on_recv k call m) as [r m'] eqn:E. by apply on_recv_cases in E as [[-> _]|(h & s & _ & _ & _ & ->)]. Qed.

Definition grown (m m' : StreamManager) : Prop :=
  sm_data_sent m' <= Z.max (sm_data_sent m) (sm_max_data m) ∧ sm_max_data m <= sm_max_data m'.

Lemma same_allowance_grown m m' : same_allowance m m' → grown m m'.
Proof. intros []. split; lia. Qed.

Lemma next_frame_grown k n m r m' : manager_inv m → sm_next_frame k n m = (r, m') → grown m m'.
Proof.
  intros Hi. unfold sm_next_frame. destruct (send_stream_cases m k) as [(h & s & Ek & Es & E)|[e E]].
  2: { erewrite M_bind_raise by exact E. intros [= <- <-]. by apply same_allowance_grown. }
  erewrite M_bind_ok by exact E. pose proof (half_ok_get _ _ _ Hi Ek) as [Hs _]. rewrite Es in Hs. cbn in Hs.
  erewrite M_bind_ok by done. cbn zeta. destruct (next_frame n _ s) as [o s'] eqn:En.
  destruct (next_frame_ok _ _ _ _ _ Hs En) as (_ & Hd & _). erewrite M_bind_ok by done. unfold store_send. rewrite Ek.
  destruct o; erewrite M_bind_ok by done; intros [= <- <-]; unfold grown; cbn; lia.
Qed.

(** A call sends new data only within the limit in force, and only
    [update_peer_limits] lowers that limit. *)
Lemma exec_grown op m r m' :
  manager_inv m → exec op m = (r, m') →
  sm_data_sent m' <= Z.max (sm_data_sent m) (sm_max_data m) ∧
  ((∀ p, op ≠ OpUpdatePeerLimits p) → sm_max_data m <= sm_max_data m').
Proof.
  intros Hi E. assert (Hg : grown m m' → sm_data_sent m' <= Z.max (sm_data_sent m) (sm_max_data m) ∧
    ((∀ p, op ≠ OpUpdatePeerLimits p) → sm_max_data m <= sm_max_data m')) by (intros []; done).
  assert (Hp : ∀ A (c : M StreamManager A) r, preserves same_allowance c → c m = (r, m') → grown m m').
  { intros A c r0 Hc Ec. specialize (Hc m). rewrite Ec in Hc. by apply same_allowance_grown. }
  destruct op; cbn [exec] in E; try apply void_inv in E as (r0 & E & _);
    try (apply Hg; eapply Hp; [|exact E]; first [apply allowance_on_send|apply allowance_on_recv]).
  - apply Hg. destruct (open_bidi_cases m Hi) as [[_ E']|(_ & _ & E')]; rewrite E' in E; injection E as _ <-; by apply same_allowance_grown.
  - apply Hg, same_allowance_grown. unfold sm_on_stream_frame in E. destruct (half_for_frame (st_id f) m) as [r1 m1] eqn:E1.
    destruct (inv_half_for_frame _ _ _ _ Hi E1) as (_ & _ & _ & H1 & H2 & _). transitivity m1; [done|].
    destruct r1 as [h|e]; [|erewrite M_bind_raise in E by exact E1; by injection E as _ <-]. erewrite M_bind_ok in E by exact E1.
    destruct (h_recv h) as [recv|]; [|by injection E as _ <-]. cbn zeta in E. destruct (on_stream_frame f recv) as [res recv'].
    erewrite M_bind_ok in E by done. unfold store_recv in E. destruct res as [[]|e].
    + do 3 erewrite M_bind_ok in E by done. destruct (d_get (st_id f) (sm_streams m1)); case_test_in E; by injection E as _ <-.
    + erewrite M_bind_raise in E by done. injection E as _ <-. by destruct (d_get (st_id f) (sm_streams m1)).
  - by eapply Hg, next_frame_grown.
  - injection E as _ <-. apply Hg. unfold grown. cbn. lia.
  - injection E as _ <-. apply Hg, same_allowance_grown. by destruct bidirectional.
  - unfold pure_call in E. destruct (max_streams_update bidirectional m) as [o m1] eqn:Eu. injection E as _ <-.
    apply Hg, same_allowance_grown. unfold max_streams_update in Eu. cbn zeta in Eu.
    repeat (case_test_in Eu; [by injection Eu as _ <-|]). injection Eu as _ <-. by destruct bidirectional.
  - unfold pure_call in E. destruct (max_data_update m) as [o m1] eqn:Eu. injection E as _ <-.
    apply Hg, same_allowance_grown. unfold max_data_update in Eu. cbn zeta in Eu. by case_test_in Eu; injection Eu as _ <-.
  - injection E as _ <-. cbn. split; [lia|]. intros H. by destruct (H peer).
Qed.

Lemma sm_reachable_inv is_client local peer high lowered m :
  limits_ok local → limits_ok peer → sm_reachable is_client local peer high lowered m →
  manager_inv m ∧ sm_data_received m <= sm_local_max_data m.
Proof.
  intros Hl Hp. induction 1 as [|op high lowered m m' _ [IHi IHb] Hok E].
  - split; [by apply manager_inv_new|]. pose proof (limits_ok_all _ Hl). cbn. lia.
  - destruct (exec_inv _ _ _ _ IHi Hok E) as [? Hb]. split; [done|]. by apply Hb.
Qed.

Lemma sm_reachable_allowance is_client local peer high lowered m :
  limits_ok local → limits_ok peer → sm_reachable is_client local peer high lowered m →
  sm_data_sent m <= high ∧ sm_max_data m <= high ∧ (lowered = false → sm_data_sent m <= sm_max_data m).
Proof.
  intros Hl Hp. induction 1 as [|op high lowered m m' Hm (IH1 & IH2 & IH3) Hok E].
  - pose proof (limits_ok_all _ Hp). cbn. lia.
  - destruct (sm_reachable_inv _ _ _ _ _ _ Hl Hp Hm) as [Hi _]. destruct (exec_grown _ _ _ _ Hi E) as [Hs _].
    split; [lia|]. split; [lia|]. intros [-> ?]%orb_false_iff. specialize (IH3 eq_refl). lia.
Qed.

(** ** A frame, branch by branch *)

Lemma on_stream_frame_fresh i max f :
  0 <= st_offset f →
  let r1 := if st_fin f then set_final_size (Some (frame_end f)) (new_RecvStream i max) else new_RecvStream i max in
  on_stream_frame f (new_RecvStream i max) =
    if frame_end f >? max then (Raise (stream_error FLOW_CONTROL_ERROR i " exceeded flow control"), r1)
    else (Ok tt, store_frame f r1).
Proof.
  intros H0 r1. unfold on_stream_frame. erewrite M_bind_ok by done. fold (frame_end f).
  pose proof (frame_end_ge f). cbn [rs_final_size rs_max_stream_data rs_highest_offset new_RecvStream].
  unfold r1. destruct (st_fin f).
  - rewrite (proj2 (Z.ltb_ge _ _)) by lia. erewrite M_bind_ok by done. by case_test.
  - erewrite M_bind_ok by done. by case_test.
Qed.

(** A frame on an open stream: the half is updated whatever happens, the
    charge is the growth of its highest offset. *)
Lemma frame_on_half m f h recv :
  d_get (st_id f) (sm_streams m) = Some h → h_recv h = Some recv →
  sm_on_stream_frame f m =
    let '(r, recv') := on_stream_frame f recv in
    let m1 := set_streams (d_set (st_id f) (mkHalf (h_send h) (Some recv')) (sm_streams m)) m in
    match r with
    | Raise e => (Raise e, m1)
    | Ok _ =>
        let received := sm_data_received m + (rs_highest_offset recv' - rs_highest_offset recv) in
        let m2 := set_counters (sm_data_sent m) received m1 in
        if received >? sm_local_max_data m
        then (Raise (StreamError FLOW_CONTROL_ERROR "connection flow control exceeded"), m2)
        else (Ok recv', m2)
    end.
Proof.
  intros Hk Hr. unfold sm_on_stream_frame, half_for_frame.
  erewrite M_bind_ok. 2: { erewrite M_bind_ok by done. by rewrite Hk. }
  rewrite Hr. cbn zeta. destruct (on_stream_frame f recv) as [[[]|e] recv']; erewrite M_bind_ok by done;
    unfold store_recv; rewrite Hk; [|done].
  do 3 erewrite M_bind_ok by done. cbn [sm_data_received sm_local_max_data set_counters set_streams]. by case_test.
Qed.

(** A frame that opens a stream is handled as one on the stream just
    created. *)
Lemma frame_on_new_half m f h :
  d_get (st_id f) (sm_streams m) = None → create_peer_initiated (st_id f) m = (Ok h, m) →
  sm_on_stream_frame f m = sm_on_stream_frame f (set_streams (d_set (st_id f) h (sm_streams m)) m).
Proof.
  intros Hk Hc. set (m1 := set_streams _ m).
  assert (H1 : half_for_frame (st_id f) m = (Ok h, m1)).
  { unfold half_for_frame. erewrite M_bind_ok by done. rewrite Hk. by erewrite M_bind_ok by exact Hc. }
  assert (H2 : half_for_frame (st_id f) m1 = (Ok h, m1)).
  { unfold half_for_frame. erewrite M_bind_ok by done. cbn. by rewrite d_get_set_eq. }
  unfold sm_on_stream_frame. erewrite M_bind_ok by exact H1. by erewrite M_bind_ok by exact H2.
Qed.

Lemma highest_after_fresh i max f (b : bool) :
  0 <= frame_end f →
  rs_highest_offset (store_frame f (if b then set_final_size (Some (frame_end f)) (new_RecvStream i max)
                                    else new_RecvStream i max)) = frame_end f.
Proof. intros H. destruct b; cbn; fold (frame_end f); lia. Qed.

(** ** Properties *)

(** C13: in every state reached by calls that returned, the connection's
    counters are the sums of the highest offsets of its streams, what was sent
    is within each stream's limit and within the largest limit on the connection
    that was in force, which is the present one unless [update_peer_limits]
    lowered it; even then no call sends new data past the present one.  What
    was received is within what we advertised, on the connection and on each
    stream, and every stream ID is one we numbered or one below the advertised
    stream limit. *)
Theorem flow_control_accounting is_client local peer high lowered m
  (Hlocal : limits_ok local) (Hpeer : limits_ok peer) (Hreach : sm_reachable is_client local peer high lowered m) :
  sm_data_sent m = sum_by sent_of (sm_streams m) ∧
  sm_data_received m = sum_by received_of (sm_streams m) ∧
  sm_data_sent m <= high ∧ (lowered = false → sm_data_sent m <= sm_max_data m) ∧
  (∀ op r m', exec op m = (r, m') → sm_data_sent m' <= Z.max (sm_data_sent m) (sm_max_data m)) ∧
  sm_data_received m <= sm_local_max_data m ∧
  NoDup (sm_streams m).*1 ∧
  ∀ k h, d_get k (sm_streams m) = Some h →
    id_ok m k ∧
    (∀ s, h_send h = Some s → 0 <= ss_highest_offset_sent s <= ss_max_stream_data s) ∧
    (∀ r, h_recv h = Some r → 0 <= rs_read_offset r <= rs_highest_offset r ∧
                              rs_highest_offset r <= rs_max_stream_data r).
Proof.
  destruct (sm_reachable_inv _ _ _ _ _ _ Hlocal Hpeer Hreach) as [Hi Hb]. pose proof Hi as [].
  destruct (sm_reachable_allowance _ _ _ _ _ _ Hlocal Hpeer Hreach) as (Hh & _ & Hl).
  split_and!; try done; [intros op r m' E; by destruct (exec_grown _ _ _ _ Hi E)|]. intros k h Hk. destruct (half_ok_get _ _ _ Hi Hk) as [Hs Hr]. split_and!.
  - rewrite Forall_forall in mi_ids0. apply mi_ids0, list_elem_of_fmap. exists (k, h). split; [done|by apply d_get_elem].
  - intros s Es. rewrite Es in Hs. destruct Hs. lia.
  - intros r Er. rewrite Er in Hr. by destruct Hr.
Qed.

(** The error code a call raised, if it raised a [StreamError]. *)
Definition raised_code {A} (r : result A) : option Z :=
  match r with Raise (StreamError c _) => Some c | _ => None end.

(** A frame for a stream that does not exist yet is refused with
    STREAM_STATE_ERROR when only we could have opened it, STREAM_LIMIT_ERROR
    when it is over the advertised count (in both cases nothing changes), and
    FLOW_CONTROL_ERROR when it exceeds the stream's or the connection's
    credit; otherwise it is accepted and charged exactly its end offset. *)
Theorem first_frame_of_stream is_client local peer high lowered m f
  (Hlocal : limits_ok local) (Hpeer : limits_ok peer) (Hreach : sm_reachable is_client local peer high lowered m)
  (Hnew : d_get (st_id f) (sm_streams m) = None) (Hoffset : 0 <= st_offset f) :
  let '(r, m') := sm_on_stream_frame f m in
  let bidi := is_bidirectional (st_id f) in
  let window := if bidi then fl_max_stream_data_bidi_remote (sm_local m) else fl_max_stream_data_uni (sm_local m) in
  if Bool.eqb (is_client_initiated (st_id f)) (sm_is_client m) then
    raised_code r = Some STREAM_STATE_ERROR ∧ m' = m
  else if (if bidi then sm_local_max_streams_bidi m else sm_local_max_streams_uni m) <=? st_id f ≫ 2 then
    raised_code r = Some STREAM_LIMIT_ERROR ∧ m' = m
  else if window <? frame_end f then raised_code r = Some FLOW_CONTROL_ERROR
  else if sm_local_max_data m <? sm_data_received m + frame_end f then raised_code r = Some FLOW_CONTROL_ERROR
  else is_ok r = true ∧ sm_data_received m' = sm_data_received m + frame_end f.
Proof.
  pose proof (frame_end_ge f). cbn zeta. destruct (create_peer_initiated (st_id f) m) as [r0 m0] eqn:E.
  destruct (sm_reachable_inv _ _ _ _ _ _ Hlocal Hpeer Hreach) as [Hi _]. destruct (inv_create _ _ _ _ Hi E) as [-> _].
  assert (Hraise : ∀ e, r0 = Raise e → sm_on_stream_frame f m = (Raise e, m)).
  { intros e ->. unfold sm_on_stream_frame, half_for_frame. erewrite M_bind_raise; [done|].
    erewrite M_bind_ok by done. rewrite Hnew. by erewrite M_bind_raise by exact E. }
  assert (Hopen : ∀ s max, r0 = Ok (mkHalf s (Some (new_RecvStream (st_id f) max))) →
    let '(r, m') := sm_on_stream_frame f m in
    if max <? frame_end f then raised_code r = Some FLOW_CONTROL_ERROR
    else if sm_local_max_data m <? sm_data_received m + frame_end f then raised_code r = Some FLOW_CONTROL_ERROR
    else is_ok r = true ∧ sm_data_received m' = sm_data_received m + frame_end f).
  { intros s max ->. rewrite (frame_on_new_half _ _ _ Hnew E). erewrite frame_on_half by (cbn; rewrite ?d_get_set_eq; done).
    rewrite on_stream_frame_fresh by done. rewrite Z.gtb_ltb. case_test; [done|].
    rewrite highest_after_fresh by lia. cbn. rewrite Z.sub_0_r, Z.gtb_ltb. by case_test. }
  unfold create_peer_initiated in E. erewrite M_bind_ok in E by done. cbn zeta in E. rewrite !Z.geb_leb in E.
  destruct (Bool.eqb _ _); [injection E as <-; by rewrite (Hraise _ eq_refl)|].
  destruct (is_bidirectional _); (destruct (_ <=? _); [injection E as <-; by rewrite (Hraise _ eq_refl)|]);
    injection E as <-; by eapply Hopen.
Qed.

(** Opening a stream fails with StreamLimitReached, and changes nothing,
    exactly when the peer's limit is used up; otherwise it returns the next
    ID of our type, which no stream of the connection has, creates both
    halves with nothing sent or received, and leaves every other stream as it
    was. *)
Theorem open_bidi_correct is_client local peer high lowered m
  (Hlocal : limits_ok local) (Hpeer : limits_ok peer) (Hreach : sm_reachable is_client local peer high lowered m) :
  let '(r, m') := open_bidi m in
  if sm_max_streams_bidi m <=? sm_next_bidi_sequence m then (∃ msg, r = Raise (StreamLimitReached msg)) ∧ m' = m
  else
    let k := 4 * sm_next_bidi_sequence m + local_bit (sm_is_client m) in
    r = Ok k ∧ is_client_initiated k = sm_is_client m ∧ is_bidirectional k = true ∧
    d_get k (sm_streams m) = None ∧
    (∃ s q, d_get k (sm_streams m') = Some (mkHalf (Some s) (Some q)) ∧ send_inv [] s ∧ recv_inv [] false q) ∧
    (∀ k', k' ≠ k → d_get k' (sm_streams m') = d_get k' (sm_streams m)) ∧
    sm_next_bidi_sequence m' = sm_next_bidi_sequence m + 1.
Proof.
  destruct (sm_reachable_inv _ _ _ _ _ _ Hlocal Hpeer Hreach) as [Hi _].
  destruct (open_bidi_cases m Hi) as [[Hle ->]|(Hlt & Hfresh & ->)].
  - rewrite (proj2 (Z.leb_le _ _)) by done. eauto.
  - rewrite (proj2 (Z.leb_gt _ _)) by done. cbn zeta. set (k := 4 * _ + _) in *.
    destruct (open_id_client (sm_next_bidi_sequence m) (sm_is_client m)) as [Hc Hb]; [by destruct Hi|].
    pose proof (limits_ok_all _ (mi_peer _ Hi)). split_and!; try done.
    + by apply d_get_None.
    + cbn. rewrite d_get_set_eq. do 2 eexists. split; [done|]. split; [apply send_inv_new; lia|apply recv_inv_new].
    + intros k' Hk'. cbn. by apply d_get_set_ne.
Qed.

(** Credit only grows: a MAX_STREAMS or MAX_DATA update the manager
    produces is strictly above the limit it had advertised, becomes the new
    advertisement, and grants exactly one window beyond what was closed or
    consumed; when it produces none, the advertisement stays. *)
Theorem credit_updates_grow is_client local peer high lowered m bidi
  (Hlocal : limits_ok local) (Hpeer : limits_ok peer) (Hreach : sm_reachable is_client local peer high lowered m) :
  let advertised x := if bidi : bool then sm_local_max_streams_bidi x else sm_local_max_streams_uni x in
  let window := if bidi : bool then sm_streams_window_bidi m else sm_streams_window_uni m in
  let closed := len (List.filter (counts_as_closed (sm_is_client m) bidi) (sm_streams m)) in
  (let '(o, m') := max_streams_update bidi m in
   match o with
   | Some limit => advertised m < limit ∧ advertised m' = limit ∧ limit = closed + window
   | None => m' = m
   end) ∧
  (let '(o, m') := max_data_update m in
   match o with
   | Some limit => sm_local_max_data m < limit ∧ sm_local_max_data m' = limit ∧
                   limit = sum_by read_offset_of (sm_streams m) + sm_data_window m
   | None => m' = m
   end).
Proof.
  cbn zeta. destruct (sm_reachable_inv _ _ _ _ _ _ Hlocal Hpeer Hreach) as [[] _]. split.
  - unfold max_streams_update. cbn zeta. case_test; [done|]. case_test; [done|]. by destruct bidi.
  - unfold max_data_update. cbn zeta. case_test; [done|]. cbn -[sum_by]. split; [lia|done].
Qed.

(** ** Witnesses *)

Definition sample_limits : FlowControlLimits := mkFlowControlLimits 100 50 50 50 4 4.

Lemma sample_limits_ok : limits_ok sample_limits.
Proof. unfold limits_ok. cbn. repeat (apply Forall_cons_2; [lia|]). apply Forall_nil_2. Qed.

Definition run_ops (ops : list sm_op) (m : StreamManager) : StreamManager :=
  fold_left (λ m op, (exec op m).2) ops m.

#[export] Instance op_ok_dec op : Decision (op_ok op).
Proof. destruct op; try (left; exact I). unfold op_ok, limits_ok. apply _. Defined.

Fixpoint ops_ok (ops : list sm_op) (m : StreamManager) : bool :=
  match ops with
  | [] => true
  | op :: ops' => bool_decide (op_ok op) && is_ok (exec op m).1 && ops_ok ops' (exec op m).2
  end.

Lemma run_ops_reachable c l p high lowered ops m :
  sm_reachable c l p high lowered m → ops_ok ops m = true → ∃ high' lowered', sm_reachable c l p high' lowered' (run_ops ops m).
Proof.
  revert high lowered m. induction ops as [|op ops IH]; intros high lowered m Hm Hok; [by eexists _, _|]. cbn.
  cbn [ops_ok] in Hok. apply andb_true_iff in Hok as [[Ha%bool_decide_eq_true He]%andb_true_iff Hok'].
  eapply IH; [|done]. eapply sm_reach_step; [done|exact Ha|].
  destruct (exec op m) as [[[]|e] m']; [done|discriminate He].
Qed.

(** A server that opened a stream and wrote to it, and heard from a client. *)
Definition sample_manager : StreamManager :=
  run_ops [OpOpenBidi; OpWrite 1 [x01; x02] false; OpNextFrame 1 10;
           OpStreamFrame (mkStream 0 3 [x61; x62] true); OpStreamFrame (mkStream 0 0 [x61; x62; x63] false);
           OpRead 0; OpMaxData 200; OpMaxDataUpdate]
    (new_StreamManager false sample_limits sample_limits).

Lemma sample_manager_reachable : ∃ high lowered, sm_reachable false sample_limits sample_limits high lowered sample_manager.
Proof. eapply run_ops_reachable; [apply sm_reach_init|by vm_compute]. Qed.

Lemma flow_control_accounting_witness :
  sm_data_sent sample_manager = 2 ∧ sm_data_received sample_manager = 5 ∧
  sm_data_sent sample_manager = sum_by sent_of (sm_streams sample_manager).
Proof.
  split; [by vm_compute|]. split; [by vm_compute|]. destruct sample_manager_reachable as (high & lowered & Hr).
  apply (flow_control_accounting false sample_limits sample_limits high lowered sample_manager sample_limits_ok sample_limits_ok Hr).
Defined.

Lemma first_frame_of_stream_witness :
  raised_code (sm_on_stream_frame (mkStream 16 0 [x61] false) sample_manager).1 = Some STREAM_LIMIT_ERROR ∧
  (sm_on_stream_frame (mkStream 16 0 [x61] false) sample_manager).2 = sample_manager.
Proof.
  destruct sample_manager_reachable as (high & lowered & Hr).
  pose proof (first_frame_of_stream false sample_limits sample_limits high lowered sample_manager (mkStream 16 0 [x61] false)
    sample_limits_ok sample_limits_ok Hr) as H.
  destruct (sm_on_stream_frame (mkStream 16 0 [x61] false) sample_manager) as [r m'].
  apply H; [by vm_compute|done].
Defined.

Lemma open_bidi_correct_witness : (open_bidi sample_manager).1 = Ok 5.
Proof.
  destruct sample_manager_reachable as (high & lowered & Hr).
  pose proof (open_bidi_correct false sample_limits sample_limits high lowered sample_manager
    sample_limits_ok sample_limits_ok Hr) as H.
  destruct (open_bidi sample_manager) as [r m'].
  replace (sm_max_streams_bidi sample_manager <=? sm_next_bidi_sequence sample_manager) with false in H by (by vm_compute).
  destruct H as [-> _]. by vm_compute.
Defined.

Lemma credit_updates_grow_witness :
  max_data_update (run_ops [OpStreamFrame (mkStream 4 0 (zeros 50) false); OpRead 4] sample_manager)
  = (Some 155, set_advertised 155 4 4 (run_ops [OpStreamFrame (mkStream 4 0 (zeros 50) false); OpRead 4] sample_manager)) ∧
  100 < 155.
Proof.
  set (m := run_ops _ _). assert (∃ high lowered, sm_reachable false sample_limits sample_limits high lowered m) as (high & lowered & Hr).
  { destruct sample_manager_reachable as (high & lowered & Hr). eapply run_ops_reachable; [exact Hr|by vm_compute]. }
  destruct (credit_updates_grow false sample_limits sample_limits high lowered m true sample_limits_ok sample_limits_ok Hr) as [_ H].
  assert (E : max_data_update m = (Some 155, set_advertised 155 4 4 m)) by (by vm_compute).
  split; [exact E|]. rewrite E in H. destruct H as [H _].
  replace (sm_local_max_data m) with 100 in H by (by vm_compute). exact H.
Defined.

(** ** Limits after rejected early data

    A client that sent a frame under remembered limits, was refused its early
    data and is given smaller limits by [update_peer_limits] sends the frame
    again, past them: the stream's credit is only ever raised and a
    retransmission is not held to it.  A server with those limits refuses the
    frame. *)
Definition smaller_limits : FlowControlLimits := mkFlowControlLimits 2 2 2 2 1 1.

Fact rejected_early_data_overruns :
  let f := mkStream 0 0 [x68; x65; x6c; x6c; x6f] false in
  let m := run_ops [OpOpenBidi; OpWrite 0 (st_data f) false; OpNextFrame 0 100; OpUpdatePeerLimits smaller_limits;
                    OpRequeue 0 f] (new_StreamManager true sample_limits sample_limits) in
  sm_max_data m = 2 ∧ sm_data_sent m = 5 ∧ (sm_next_frame 0 100 m).1 = Ok (Some f) ∧
  raised_code (sm_on_stream_frame f (new_StreamManager false smaller_limits sample_limits)).1 = Some FLOW_CONTROL_ERROR.
Proof. cbn zeta. split_and!; by vm_compute. Qed.
