(* ===== verification/StreamNetwork.v ===== *)
(** * All the streams of two endpoints over an unreliable network

    Two [StreamManager]s, a client's and a server's, each configured with the
    limits the other announced, or, for a client that sends 0-RTT data, with
    those it remembers until the handshake gives it the others
    ([update_peer_limits]), exchanging STREAM, MAX_STREAM_DATA, MAX_DATA
    and MAX_STREAMS frames over a network that may drop, duplicate, delay and
    reorder them.  The network is a step relation over the methods of
    [StreamManager]; what was written, read, sent and accepted is recorded
    beside the managers.  The refinement maps each stream and direction of
    such a network to a [channel] of [Channel]. *)

From S2P Require Import Prelude Frames RangeSet Streams Channel StreamManager.

(** ** Model *)

(** One endpoint: its manager, and the history of what it did. *)
Record side : Type := mkSide {
  sd_mgr : StreamManager;
  sd_written : Z → bytes;         (* what its application wrote, by stream *)
  sd_read : Z → bytes;            (* what its application was given *)
  sd_sent : list Stream;          (* STREAM frames it sent *)
  sd_got : list Stream;           (* STREAM frames it accepted *)
  sd_credits : list (Z * Z);      (* MAX_STREAM_DATA it advertised *)
  sd_data : list Z;               (* MAX_DATA it advertised *)
  sd_streams : list Z;            (* MAX_STREAMS (bidirectional) it advertised *)
  sd_settled : bool }.            (* whether the handshake gave it the peer's limits *)

Definition new_side (is_client : bool) (local peer : FlowControlLimits) (settled : bool) : side :=
  mkSide (new_StreamManager is_client local peer) (λ _, []) (λ _, []) [] [] [] [] [] settled.

Definition with_mgr (m : StreamManager) (s : side) : side :=
  mkSide m (sd_written s) (sd_read s) (sd_sent s) (sd_got s) (sd_credits s) (sd_data s) (sd_streams s) (sd_settled s).

Definition extend (k : Z) (d : bytes) (w : Z → bytes) : Z → bytes :=
  λ k', if decide (k' = k) then w k' ++ d else w k'.

(** What one endpoint can do: a call of its application or of the loop that
    builds packets, or the arrival of something the other endpoint sent before,
    which is processed only once the handshake is over. *)
Inductive moves (peer me : side) : side → Prop :=
| mv_open k m' :
    open_bidi (sd_mgr me) = (Ok k, m') → moves peer me (with_mgr m' me)
| mv_write k data fin m' :
    on_send k (write data fin) (sd_mgr me) = (Ok tt, m') →
    moves peer me (mkSide m' (extend k data (sd_written me)) (sd_read me) (sd_sent me) (sd_got me)
                     (sd_credits me) (sd_data me) (sd_streams me) (sd_settled me))
| mv_send k max_bytes f m' :
    sm_next_frame k max_bytes (sd_mgr me) = (Ok (Some f), m') →
    moves peer me (mkSide m' (sd_written me) (sd_read me) (f :: sd_sent me) (sd_got me)
                     (sd_credits me) (sd_data me) (sd_streams me) (sd_settled me))
| mv_lost f m' :
    f ∈ sd_sent me → on_send (st_id f) (modify (requeue f)) (sd_mgr me) = (Ok tt, m') →
    moves peer me (with_mgr m' me)
| mv_acked f m' :
    sd_settled me = true → f ∈ sd_got peer → on_send (st_id f) (modify (on_frame_acked f)) (sd_mgr me) = (Ok tt, m') →
    moves peer me (with_mgr m' me)
| mv_stream_credit k v m' :
    sd_settled me = true → (k, v) ∈ sd_credits peer → on_send k (modify (on_max_stream_data v)) (sd_mgr me) = (Ok tt, m') →
    moves peer me (with_mgr m' me)
| mv_data_credit v :
    sd_settled me = true → v ∈ sd_data peer → moves peer me (with_mgr (on_max_data v (sd_mgr me)) me)
| mv_streams_credit v :
    sd_settled me = true → v ∈ sd_streams peer → moves peer me (with_mgr (on_max_streams v true (sd_mgr me)) me)
| mv_deliver f r m' :
    sd_settled me = true → f ∈ sd_sent peer → sm_on_stream_frame f (sd_mgr me) = (Ok r, m') →
    moves peer me (mkSide m' (sd_written me) (sd_read me) (sd_sent me) (f :: sd_got me)
                     (sd_credits me) (sd_data me) (sd_streams me) (sd_settled me))
| mv_read k d m' :
    on_recv k (pure_call read) (sd_mgr me) = (Ok d, m') →
    moves peer me (mkSide m' (sd_written me) (extend k d (sd_read me)) (sd_sent me) (sd_got me)
                     (sd_credits me) (sd_data me) (sd_streams me) (sd_settled me))
| mv_advertise k v m' :
    on_recv k (pure_call credit_update) (sd_mgr me) = (Ok (Some v), m') →
    moves peer me (mkSide m' (sd_written me) (sd_read me) (sd_sent me) (sd_got me)
                     ((k, v) :: sd_credits me) (sd_data me) (sd_streams me) (sd_settled me))
| mv_advertise_data v m' :
    max_data_update (sd_mgr me) = (Some v, m') →
    moves peer me (mkSide m' (sd_written me) (sd_read me) (sd_sent me) (sd_got me)
                     (sd_credits me) (v :: sd_data me) (sd_streams me) (sd_settled me))
| mv_advertise_streams v m' :
    max_streams_update true (sd_mgr me) = (Some v, m') →
    moves peer me (mkSide m' (sd_written me) (sd_read me) (sd_sent me) (sd_got me)
                     (sd_credits me) (sd_data me) (v :: sd_streams me) (sd_settled me)).

Record network : Type := mkNetwork { nw_client : side; nw_server : side }.

(** [update_peer_limits] at the end of a handshake before which the client sent
    early data: it adopts the limits the server announced. *)
Definition settle (peer me : side) : side :=
  mkSide (update_peer_limits (sm_local (sd_mgr peer)) (sd_mgr me)) (sd_written me) (sd_read me) (sd_sent me) (sd_got me)
    (sd_credits me) (sd_data me) (sd_streams me) true.

(** [q] reduces no limit of [p]. *)
Definition limits_le (p q : FlowControlLimits) : Prop :=
  fl_max_data p <= fl_max_data q ∧ fl_max_stream_data_bidi_local p <= fl_max_stream_data_bidi_local q ∧
  fl_max_stream_data_bidi_remote p <= fl_max_stream_data_bidi_remote q ∧
  fl_max_stream_data_uni p <= fl_max_stream_data_uni q ∧
  fl_max_streams_bidi p <= fl_max_streams_bidi q ∧ fl_max_streams_uni p <= fl_max_streams_uni q.

Inductive net_step : network → network → Prop :=
| net_client n c' : moves (nw_server n) (nw_client n) c' → net_step n (mkNetwork c' (nw_server n))
| net_server n s' : moves (nw_client n) (nw_server n) s' → net_step n (mkNetwork (nw_client n) s')
| net_handshake n : sd_settled (nw_client n) = false → net_step n (mkNetwork (settle (nw_server n) (nw_client n)) (nw_server n)).

(** A client that sends no early data is created when the handshake is over,
    with the server's limits; one that does starts with the limits it remembers
    from an earlier connection.  Rejected early data is lost data, whose frames
    are requeued. *)
Inductive net_reachable (client server : FlowControlLimits) : network → Prop :=
| net_init : net_reachable client server (mkNetwork (new_side true client server true) (new_side false server client true))
| net_early remembered :
    limits_ok remembered → limits_le remembered server →
    net_reachable client server (mkNetwork (new_side true client remembered false) (new_side false server client true))
| net_next n n' : net_reachable client server n → net_step n n' → net_reachable client server n'.

(** ** One stream of the network, in one direction *)

(** The initial credit of stream [k] in the direction we send, and in the
    direction we receive. *)
Definition own_stream (m : StreamManager) (k : Z) : bool := Bool.eqb (is_client_initiated k) (sm_is_client m).
Definition send_limit (m : StreamManager) (k : Z) : Z :=
  if own_stream m k then fl_max_stream_data_bidi_remote (sm_peer m) else fl_max_stream_data_bidi_local (sm_peer m).
Definition recv_limit (m : StreamManager) (k : Z) : Z :=
  if own_stream m k then fl_max_stream_data_bidi_local (sm_local m) else fl_max_stream_data_bidi_remote (sm_local m).

(** The halves of stream [k], as they are or as they would be created. *)
Definition send_half (m : StreamManager) (k : Z) : SendStream :=
  default (new_SendStream k (send_limit m k)) (d_get k (sm_streams m) ≫= h_send).
Definition recv_half (m : StreamManager) (k : Z) : RecvStream :=
  default (new_RecvStream k (recv_limit m k)) (d_get k (sm_streams m) ≫= h_recv).

Definition frames_of (k : Z) (l : list Stream) : list Stream := List.filter (λ f, st_id f =? k) l.
Definition credits_of (k : Z) (l : list (Z * Z)) : list Z := (List.filter (λ kv, kv.1 =? k) l).*2.

(** Stream [k] from endpoint [a] to endpoint [b]. *)
Definition channel_of (a b : side) (k : Z) : channel :=
  mkChannel (send_half (sd_mgr a) k) (recv_half (sd_mgr b) k) (sd_written a k) (sd_read b k)
    (frames_of k (sd_sent a)) (frames_of k (sd_got b)) (credits_of k (sd_credits b) ++ [recv_limit (sd_mgr b) k]).

Lemma elem_frames_of k f l : f ∈ frames_of k l ↔ st_id f = k ∧ f ∈ l.
Proof. unfold frames_of. rewrite !list_elem_of_In, filter_In, Z.eqb_eq. tauto. Qed.

Lemma elem_credits_of k v l : v ∈ credits_of k l ↔ (k, v) ∈ l.
Proof.
  unfold credits_of. rewrite list_elem_of_fmap. setoid_rewrite list_elem_of_In. setoid_rewrite filter_In. split.
  - intros ([k' v'] & -> & Hin & Hk). cbn in *. by apply Z.eqb_eq in Hk as <-.
  - intros Hin. exists (k, v). by rewrite Z.eqb_refl.
Qed.

Lemma frames_of_cons k f l : frames_of k (f :: l) = if st_id f =? k then f :: frames_of k l else frames_of k l.
Proof. done. Qed.

Lemma credits_of_cons k k' v l : credits_of k ((k', v) :: l) = if k' =? k then v :: credits_of k l else credits_of k l.
Proof. unfold credits_of. cbn. by destruct (k' =? k). Qed.

Lemma extend_eq k d w : extend k d w k = w k ++ d.
Proof. unfold extend. by rewrite decide_True. Qed.
Lemma extend_ne k k' d w : k' ≠ k → extend k d w k' = w k'.
Proof. intros. unfold extend. by rewrite decide_False. Qed.

(** ** What a call does to the streams *)

(** Every stream here is bidirectional, with both halves. *)
Definition both_halves (m : StreamManager) : Prop :=
  ∀ k h, d_get k (sm_streams m) = Some h → is_bidirectional k = true ∧ is_Some (h_send h) ∧ is_Some (h_recv h).

Definition opened (m : StreamManager) (k : Z) : Prop := k ∈ (sm_streams m).*1.

Lemma opened_get m k : opened m k ↔ is_Some (d_get k (sm_streams m)).
Proof.
  unfold opened. destruct (d_get k (sm_streams m)) as [h|] eqn:E.
  - split; [eauto|intros _]. apply list_elem_of_fmap. exists (k, h). split; [done|by apply d_get_elem].
  - apply d_get_None in E. split; [done|]. by intros [? ?].
Qed.

Definition same_setup (m m' : StreamManager) : Prop :=
  sm_is_client m' = sm_is_client m ∧ sm_local m' = sm_local m ∧ sm_peer m' = sm_peer m.

(** The sequence number and the limits of both directions. *)
Definition numbers (m : StreamManager) : list Z :=
  [sm_next_bidi_sequence m; sm_max_data m; sm_local_max_data m; sm_max_streams_bidi m; sm_local_max_streams_bidi m].

(** A call on streams that exist: at most one half differs afterwards. *)
Record half_call (m m' : StreamManager) (send : Z → SendStream) (recv : Z → RecvStream) : Prop := mk_half_call {
  hc_setup : same_setup m m';
  hc_numbers : numbers m' = numbers m;
  hc_opened : ∀ k, opened m' k ↔ opened m k;
  hc_both : both_halves m';
  hc_send : ∀ k, send_half m' k = send k;
  hc_recv : ∀ k, recv_half m' k = recv k }.

Definition update {A} (k : Z) (v : A) (f : Z → A) : Z → A := λ k', if decide (k' = k) then v else f k'.

Lemma update_eq {A} k (v : A) f : update k v f k = v.
Proof. unfold update. by rewrite decide_True. Qed.
Lemma update_ne {A} k k' (v : A) f : k' ≠ k → update k v f k' = f k'.
Proof. intros. unfold update. by rewrite decide_False. Qed.

Lemma replaced_half m k h s r :
  both_halves m → d_get k (sm_streams m) = Some h →
  half_call m (set_streams (d_set k (mkHalf (Some s) (Some r)) (sm_streams m)) m)
    (update k s (send_half m)) (update k r (recv_half m)).
Proof.
  intros Hb Hk. constructor; try done.
  - intros k'. rewrite !opened_get. cbn. destruct (decide (k = k')) as [<-|].
    + rewrite d_get_set_eq, Hk. by split; intros _; eexists.
    + by rewrite d_get_set_ne.
  - intros k' h'. cbn. destruct (decide (k = k')) as [<-|].
    + rewrite d_get_set_eq. intros [= <-]. destruct (Hb k h Hk) as [? _]. split; [done|]. split; by eexists.
    + rewrite d_get_set_ne by done. apply Hb.
  - intros k'. unfold send_half. cbn. destruct (decide (k' = k)) as [->|].
    + by rewrite d_get_set_eq, update_eq.
    + by rewrite d_get_set_ne, update_ne.
  - intros k'. unfold recv_half. cbn. destruct (decide (k' = k)) as [->|].
    + by rewrite d_get_set_eq, update_eq.
    + by rewrite d_get_set_ne, update_ne.
Qed.

Lemma half_call_ext m m' send recv send' recv' :
  half_call m m' send recv → (∀ k, send k = send' k) → (∀ k, recv k = recv' k) → half_call m m' send' recv'.
Proof. intros [] Hs Hr. constructor; try done; intros k; [by rewrite <- Hs|by rewrite <- Hr]. Qed.

Lemma update_same {A} k v (f : Z → A) : f k = v → ∀ k', update k v f k' = f k'.
Proof. intros <- k'. unfold update. case_decide; by subst. Qed.

Lemma half_call_refl m : both_halves m → half_call m m (send_half m) (recv_half m).
Proof. by constructor. Qed.

Lemma send_half_get m k h s : d_get k (sm_streams m) = Some h → h_send h = Some s → send_half m k = s.
Proof. intros E1 E2. unfold send_half. rewrite E1. cbn. by rewrite E2. Qed.
Lemma recv_half_get m k h r : d_get k (sm_streams m) = Some h → h_recv h = Some r → recv_half m k = r.
Proof. intros E1 E2. unfold recv_half. rewrite E1. cbn. by rewrite E2. Qed.

(** A call on the sending half of [k]. *)
Lemma on_send_effect {A} k (call : M SendStream A) m a m' :
  both_halves m → on_send k call m = (Ok a, m') →
  ∃ s', call (send_half m k) = (Ok a, s') ∧ half_call m m' (update k s' (send_half m)) (recv_half m).
Proof.
  intros Hb [[_ [e ?]]|(h & s & Ek & Es & Er & ->)]%on_send_cases; [done|].
  rewrite (send_half_get _ _ _ _ Ek Es). exists (call s).2. split; [by rewrite Er; destruct (call s)|].
  destruct (Hb k h Ek) as (_ & _ & [r Hr]). rewrite Hr. eapply half_call_ext; [by eapply replaced_half|done|].
  apply update_same. by eapply recv_half_get.
Qed.

(** A call on the receiving half of [k]. *)
Lemma on_recv_effect {A} k (call : M RecvStream A) m a m' :
  both_halves m → on_recv k call m = (Ok a, m') →
  ∃ r', call (recv_half m k) = (Ok a, r') ∧ half_call m m' (send_half m) (update k r' (recv_half m)).
Proof.
  intros Hb [[_ [e ?]]|(h & s & Ek & Es & Er & ->)]%on_recv_cases; [done|].
  rewrite (recv_half_get _ _ _ _ Ek Es). exists (call s).2. split; [by rewrite Er; destruct (call s)|].
  destruct (Hb k h Ek) as (_ & [s0 Hs0] & _). rewrite Hs0. eapply half_call_ext; [by eapply replaced_half| |done].
  apply update_same. by eapply send_half_get.
Qed.

Lemma half_call_counters m m' send recv x y :
  half_call m m' send recv → half_call m (set_counters x y m') send recv.
Proof. by intros []. Qed.

(** Sending a frame of stream [k]: the half's own [next_frame], within the
    connection's credit. *)
Lemma next_frame_effect k max_bytes m f m' :
  both_halves m → sm_next_frame k max_bytes m = (Ok (Some f), m') →
  opened m k ∧ ∃ s', next_frame max_bytes (sm_max_data m - sm_data_sent m) (send_half m k) = (Some f, s') ∧
    half_call m m' (update k s' (send_half m)) (recv_half m).
Proof.
  intros Hb. unfold sm_next_frame. destruct (send_stream_cases m k) as [(h & s & Ek & Es & E)|[e E]].
  2: { by erewrite M_bind_raise by exact E. }
  erewrite M_bind_ok by exact E. erewrite M_bind_ok by done. cbn zeta.
  rewrite (send_half_get _ _ _ _ Ek Es). destruct (next_frame max_bytes _ s) as [o s'] eqn:En.
  erewrite M_bind_ok by done. unfold store_send. rewrite Ek. destruct o as [g|]; [|by erewrite M_bind_ok by done].
  erewrite M_bind_ok by done. intros [= <- <-]. split; [apply opened_get; by eexists|]. exists s'. split; [done|].
  apply half_call_counters. destruct (Hb k h Ek) as (_ & _ & [r Hr]). rewrite Hr.
  eapply half_call_ext; [by eapply replaced_half|done|]. apply update_same. by eapply recv_half_get.
Qed.

(** A stream that did not exist, created with the halves it stands for. *)
Lemma created_half m k n :
  both_halves m → d_get k (sm_streams m) = None → is_bidirectional k = true →
  let m1 := set_streams (d_set k (mkHalf (Some (new_SendStream k (send_limit m k)))
                                         (Some (new_RecvStream k (recv_limit m k)))) (sm_streams m)) (set_sequence n m) in
  both_halves m1 ∧ (∀ k', opened m1 k' ↔ k' = k ∨ opened m k') ∧
  (∀ k', send_half m1 k' = send_half m k') ∧ (∀ k', recv_half m1 k' = recv_half m k').
Proof.
  intros Hb Hk Hbi. cbn zeta. split_and!.
  - intros k' h'. cbn. destruct (decide (k = k')) as [<-|].
    + rewrite d_get_set_eq. intros [= <-]. split; [done|]. split; by eexists.
    + rewrite d_get_set_ne by done. apply Hb.
  - intros k'. rewrite !opened_get. cbn. destruct (decide (k = k')) as [<-|].
    + rewrite d_get_set_eq. split; [by left|]. intros _. by eexists.
    + rewrite d_get_set_ne by done. split; [by right|]. by intros [->|].
  - intros k'. unfold send_half. cbn. destruct (decide (k = k')) as [<-|].
    + by rewrite d_get_set_eq, Hk.
    + by rewrite d_get_set_ne by done.
  - intros k'. unfold recv_half. cbn. destruct (decide (k = k')) as [<-|].
    + by rewrite d_get_set_eq, Hk.
    + by rewrite d_get_set_ne by done.
Qed.

(** A call that may also open stream [k]. *)
Record opening_call (k : Z) (m m' : StreamManager) (recv : Z → RecvStream) : Prop := mk_opening_call {
  oc_setup : same_setup m m';
  oc_opened : ∀ k', opened m' k' ↔ k' = k ∨ opened m k';
  oc_both : both_halves m';
  oc_send : ∀ k', send_half m' k' = send_half m k';
  oc_recv : ∀ k', recv_half m' k' = recv k' }.

Lemma open_effect m k m' :
  manager_inv m → both_halves m → open_bidi m = (Ok k, m') →
  own_stream m k = true ∧ opening_call k m m' (recv_half m) ∧
  sm_next_bidi_sequence m < sm_max_streams_bidi m ∧
  numbers m' = [sm_next_bidi_sequence m + 1; sm_max_data m; sm_local_max_data m; sm_max_streams_bidi m;
                sm_local_max_streams_bidi m].
Proof.
  intros Hi Hb E. destruct (open_bidi_cases m Hi) as [[_ E']|(Hlt & Hfresh & E')]; rewrite E' in E; [done|].
  injection E as Hk <-. cbn zeta in *. rewrite Hk in *.
  destruct (open_id_client (sm_next_bidi_sequence m) (sm_is_client m)) as [Hc Hbi]; [by destruct Hi|]. rewrite Hk in *.
  assert (Hown : own_stream m k = true) by (unfold own_stream; rewrite Hc; apply Bool.eqb_reflx).
  destruct (created_half m k (sm_next_bidi_sequence m + 1) Hb) as (H1 & H2 & H3 & H4); [by apply d_get_None|done|].
  unfold send_limit, recv_limit in H1, H2, H3, H4. rewrite Hown in H1, H2, H3, H4. split_and!; [done| |done|done]. by constructor.
Qed.

(** A frame of a stream that is open, or that the peer may open: the stream
    is there when the frame is handled. *)
Definition admissible (m : StreamManager) (k : Z) : Prop :=
  opened m k ∨ (own_stream m k = false ∧ k ≫ 2 < sm_local_max_streams_bidi m).

Lemma frame_opens m f :
  both_halves m → is_bidirectional (st_id f) = true → admissible m (st_id f) →
  ∃ m1, sm_on_stream_frame f m = sm_on_stream_frame f m1 ∧ opened m1 (st_id f) ∧
        opening_call (st_id f) m m1 (recv_half m) ∧ numbers m1 = numbers m.
Proof.
  intros Hb Hbi Ha. destruct (d_get (st_id f) (sm_streams m)) as [h|] eqn:Ek.
  { exists m. split; [done|]. assert (opened m (st_id f)) by (apply opened_get; by eexists). split; [done|].
    split; [|done]. constructor; try done. intros k'. split; [by right|]. by intros [->|]. }
  destruct Ha as [Ho|[Hown Hlim]]; [apply opened_get in Ho as [? ?]; congruence|].
  set (h := mkHalf (Some (new_SendStream (st_id f) (send_limit m (st_id f))))
                   (Some (new_RecvStream (st_id f) (recv_limit m (st_id f))))).
  assert (Hc : create_peer_initiated (st_id f) m = (Ok h, m)).
  { unfold create_peer_initiated. erewrite M_bind_ok by done. cbn zeta. unfold own_stream in Hown.
    rewrite Hown, Hbi, Z.geb_leb, (proj2 (Z.leb_gt _ _)) by done. unfold h, send_limit, recv_limit, own_stream. by rewrite Hown. }
  destruct (created_half m (st_id f) (sm_next_bidi_sequence m) Hb Ek Hbi) as (H1 & H2 & H3 & H4). fold h in H1, H2, H3, H4.
  exists (set_streams (d_set (st_id f) h (sm_streams m)) m). split; [by apply frame_on_new_half|].
  split; [apply H2; by left|]. split; [|done]. by constructor.
Qed.

Lemma frame_admissible m f r m' : sm_on_stream_frame f m = (Ok r, m') → is_bidirectional (st_id f) = true → admissible m (st_id f).
Proof.
  intros E Hbi. unfold admissible. destruct (d_get (st_id f) (sm_streams m)) as [h|] eqn:Ek; [left; apply opened_get; by eexists|].
  right. unfold sm_on_stream_frame, half_for_frame in E. apply M_bind_ok_inv in E as (h & m1 & E & _).
  apply M_bind_ok_inv in E as (m0 & ? & [= <- <-] & E). rewrite Ek in E. apply M_bind_ok_inv in E as (h' & m2 & E & _).
  unfold create_peer_initiated in E. apply M_bind_ok_inv in E as (m0 & ? & [= <- <-] & E). cbn zeta in E.
  unfold own_stream. destruct (Bool.eqb _ _); [done|]. rewrite Hbi, Z.geb_leb in E. split; [done|]. case_test_in E; [done|]. lia.
Qed.

(** Handling the frame on the open stream. *)
Lemma frame_on_open m f r' :
  both_halves m → opened m (st_id f) → on_stream_frame f (recv_half m (st_id f)) = (Ok tt, r') →
  ∃ m', half_call m m' (send_half m) (update (st_id f) r' (recv_half m)) ∧
    sm_on_stream_frame f m =
      (if sm_data_received m' >? sm_local_max_data m
       then (Raise (StreamError FLOW_CONTROL_ERROR "connection flow control exceeded"), m') else (Ok r', m')).
Proof.
  intros Hb [h Ek]%opened_get E. destruct (Hb _ _ Ek) as (_ & [s Hs] & [r Hr]).
  rewrite (recv_half_get _ _ _ _ Ek Hr) in E. rewrite (frame_on_half _ _ _ _ Ek Hr), E. cbn zeta.
  set (m1 := set_counters _ _ _). exists m1. split.
  - apply half_call_counters. rewrite Hs. eapply half_call_ext; [by eapply replaced_half| |done].
    apply update_same. by eapply send_half_get.
  - unfold m1. cbn. by case_test.
Qed.

Lemma deliver_effect m f r m' :
  both_halves m → is_bidirectional (st_id f) = true → sm_on_stream_frame f m = (Ok r, m') →
  ∃ r', on_stream_frame f (recv_half m (st_id f)) = (Ok tt, r') ∧
        opening_call (st_id f) m m' (update (st_id f) r' (recv_half m)) ∧ numbers m' = numbers m.
Proof.
  intros Hb Hbi E. destruct (frame_opens m f Hb Hbi (frame_admissible _ _ _ _ E Hbi)) as (m1 & Heq & Ho & Hc & Hn).
  rewrite Heq in E. destruct Hc as [Hs1 Ho1 Hb1 Hsend1 Hrecv1]. rewrite <- Hrecv1.
  pose proof Ho as [h Ek]%opened_get. destruct (Hb1 _ _ Ek) as (_ & [s Hs] & [r0 Hr]).
  pose proof E as E2. rewrite (frame_on_half _ _ _ _ Ek Hr) in E2.
  rewrite (recv_half_get _ _ _ _ Ek Hr). destruct (on_stream_frame f r0) as [[[]|e] r'] eqn:Er; [|done]. clear E2.
  exists r'. split; [done|]. rewrite <- (recv_half_get _ _ _ _ Ek Hr) in Er.
  destruct (frame_on_open m1 f r' Hb1 Ho Er) as (m2 & [] & E2). rewrite E2 in E. case_test_in E; [done|]. injection E as _ <-.
  split; [|congruence]. constructor.
  - unfold same_setup in *. destruct hc_setup0 as (-> & -> & ->). done.
  - intros k'. rewrite hc_opened0, Ho1. done.
  - done.
  - intros k'. by rewrite hc_send0, Hsend1.
  - intros k'. rewrite hc_recv0. unfold update. case_decide; [done|]. by rewrite Hrecv1.
Qed.

(** ** More facts about a channel *)

Lemma channel_stream_id stream_id limit c : channel_reachable stream_id limit c → ss_stream_id (ch_send c) = stream_id.
Proof.
  induction 1 as [|c c' _ IH Hstep]; [done|]. rewrite <- IH. destruct Hstep as [c data fin s' E|c n k f s' E|c f _|c f _|c f r' _ _|c d r' _|c m r' _|c m _]; cbn; try done.
  - unfold write, mbind, M_bind, get in E. destruct (ss_fin_queued _); [done|]. by injection E as <-.
  - unfold next_frame, next_new_frame in E. cbn zeta in E.
    repeat first [case_match | injection E as <- <- | done].
  - unfold requeue. by case_test.
Qed.

Lemma channel_sent_id stream_id limit c max_bytes credit f s' :
  0 <= limit → channel_reachable stream_id limit c → next_frame max_bytes credit (ch_send c) = (Some f, s') → st_id f = stream_id.
Proof.
  intros Hl Hc E. destruct (next_frame_inv _ _ _ _ _ _ (ci_send _ (channel_reachable_inv _ _ _ Hl Hc)) E)
    as (_ & _ & _ & _ & _ & _ & _ & _ & _ & Hid & _). rewrite Hid. by eapply channel_stream_id.
Qed.

(** The receiver never counts more than the sender sent. *)
Lemma channel_highest stream_id limit c :
  0 <= limit → channel_reachable stream_id limit c → rs_highest_offset (ch_recv c) <= ss_base_offset (ch_send c).
Proof.
  intros Hl Hc. assert (Hinv : channel_inv c) by (by eapply channel_reachable_inv).
  induction Hc as [|c c' Hc IH Hstep]; [done|]. pose proof (channel_reachable_inv _ _ _ Hl Hc) as Hi. specialize (IH Hi).
  destruct Hstep as [c data fin s' E|c n k f s' E|c f _|c f _|c f r' Hf E|c d r' E|c m r' E|c m _]; cbn; try done.
  - unfold write, mbind, M_bind, get in E. destruct (ss_fin_queued _); [done|]. by injection E as <-.
  - destruct (next_frame_inv _ _ _ _ _ _ (ci_send _ Hi) E) as (_ & _ & _ & _ & _ & _ & _ & _ & _ & _ & _ & Hb & _). lia.
  - unfold requeue. by case_test.
  - rewrite deliver_spec in E by done. injection E as <-. pose proof (ci_net _ Hi) as Hn. rewrite Forall_forall in Hn.
    destruct (Hn f Hf) as (_ & He & _). cbn. unfold frame_end in *. destruct (st_fin f); cbn; lia.
  - unfold read in E. by injection E as _ <-.
  - unfold credit_update in E. destruct (rs_final_size _); [done|]. case_test_in E; [done|]. by injection E as _ <-.
Qed.

(** ** The shape of the network *)

(** Endpoint [a] against its peer [b]: before the handshake is over [a] knows
    limits that are no larger, and has no stream of [b]. *)
Record shape (a b : side) : Prop := mk_shape {
  sh_inv : manager_inv (sd_mgr a);
  sh_both : both_halves (sd_mgr a);
  sh_role : sm_is_client (sd_mgr a) = negb (sm_is_client (sd_mgr b));
  sh_peer : sd_settled a = true → sm_peer (sd_mgr a) = sm_local (sd_mgr b);
  sh_early : sd_settled a = false → limits_le (sm_peer (sd_mgr a)) (sm_local (sd_mgr b)) ∧
             ∀ k, opened (sd_mgr a) k → own_stream (sd_mgr a) k = true;
  sh_opened : ∀ k, opened (sd_mgr a) k → own_stream (sd_mgr a) k = true ∨ opened (sd_mgr b) k;
  sh_sent : ∀ f, f ∈ sd_sent a → opened (sd_mgr a) (st_id f) }.

(** What [a] may use of what [b] granted. *)
Record grants (a b : side) : Prop := mk_grants {
  gr_sent : sm_data_sent (sd_mgr a) <= sm_max_data (sd_mgr a);
  gr_data : sm_max_data (sd_mgr a) <= sm_local_max_data (sd_mgr b);
  gr_data_sent : ∀ v, v ∈ sd_data b → v <= sm_local_max_data (sd_mgr b);
  gr_sequence : sm_next_bidi_sequence (sd_mgr a) <= sm_max_streams_bidi (sd_mgr a);
  gr_streams : sm_max_streams_bidi (sd_mgr a) <= sm_local_max_streams_bidi (sd_mgr b);
  gr_streams_sent : ∀ v, v ∈ sd_streams b → v <= sm_local_max_streams_bidi (sd_mgr b);
  gr_initial : fl_max_data (sm_local (sd_mgr b)) <= sm_local_max_data (sd_mgr b) ∧
               fl_max_streams_bidi (sm_local (sd_mgr b)) <= sm_local_max_streams_bidi (sd_mgr b);
  gr_early : sd_settled a = false → sm_max_data (sd_mgr a) <= fl_max_data (sm_local (sd_mgr b)) ∧
             sm_max_streams_bidi (sd_mgr a) <= fl_max_streams_bidi (sm_local (sd_mgr b)) }.

(** Each move of a manager is one call of it. *)
Lemma moves_exec peer me me' :
  moves peer me me' → ∃ op, op_ok op ∧ (∀ p, op ≠ OpUpdatePeerLimits p) ∧ exec op (sd_mgr me) = (Ok tt, sd_mgr me').
Proof.
  assert (Hvoid : ∀ A (c : M StreamManager A) m a m', c m = (Ok a, m') → void c m = (Ok tt, m')).
  { intros A c m a m' E. unfold void. by erewrite M_bind_ok by exact E. }
  destruct 1; cbn [sd_mgr with_mgr].
  - exists OpOpenBidi. split_and!; [done..|]. by eapply Hvoid.
  - exists (OpWrite k data fin). by split_and!.
  - exists (OpNextFrame k max_bytes). split_and!; [done..|]. by eapply Hvoid.
  - exists (OpRequeue (st_id f) f). by split_and!.
  - exists (OpAcked (st_id f) f). by split_and!.
  - exists (OpMaxStreamData k v). by split_and!.
  - exists (OpMaxData v). by split_and!.
  - exists (OpMaxStreams v true). by split_and!.
  - exists (OpStreamFrame f). split_and!; [done..|]. by eapply Hvoid.
  - exists (OpRead k). split_and!; [done..|]. by eapply Hvoid.
  - exists (OpCreditUpdate k). split_and!; [done..|]. by eapply Hvoid.
  - exists OpMaxDataUpdate. split_and!; [done..|]. eapply Hvoid. unfold pure_call. match goal with E : max_data_update _ = _ |- _ => by rewrite E end.
  - exists (OpMaxStreamsUpdate true). split_and!; [done..|]. eapply Hvoid. unfold pure_call. match goal with E : max_streams_update _ _ = _ |- _ => by rewrite E end.
Qed.

(** What a move does to the streams of the endpoint that makes it. *)
Record moved (peer me me' : side) : Prop := mk_moved {
  md_setup : same_setup (sd_mgr me) (sd_mgr me');
  md_settled : sd_settled me' = sd_settled me;
  md_both : both_halves (sd_mgr me');
  md_mono : ∀ k, opened (sd_mgr me) k → opened (sd_mgr me') k;
  md_opened : ∀ k, opened (sd_mgr me') k →
    opened (sd_mgr me) k ∨ own_stream (sd_mgr me) k = true ∨ (sd_settled me = true ∧ opened (sd_mgr peer) k);
  md_sent : ∀ f, f ∈ sd_sent me' → f ∈ sd_sent me ∨ opened (sd_mgr me) (st_id f) }.

Lemma half_call_moved peer me me' send recv :
  half_call (sd_mgr me) (sd_mgr me') send recv → sd_settled me' = sd_settled me →
  (∀ f, f ∈ sd_sent me' → f ∈ sd_sent me ∨ opened (sd_mgr me) (st_id f)) → moved peer me me'.
Proof. intros [] Hst Hs. constructor; try done; intros k; rewrite hc_opened0; auto. Qed.

Lemma opening_call_moved peer me me' k recv :
  opening_call k (sd_mgr me) (sd_mgr me') recv →
  own_stream (sd_mgr me) k = true ∨ (sd_settled me = true ∧ opened (sd_mgr peer) k) →
  sd_sent me' = sd_sent me → sd_settled me' = sd_settled me → moved peer me me'.
Proof.
  intros [] Hk Hs Hst. constructor; try done; [intros k'; rewrite oc_opened0; auto|intros k'; rewrite oc_opened0|rewrite Hs; auto].
  intros [->|]; auto.
Qed.

(** Frames the peer sent are of bidirectional streams it has. *)
Lemma sent_open a b f : shape a b → f ∈ sd_sent a → opened (sd_mgr a) (st_id f) ∧ is_bidirectional (st_id f) = true.
Proof.
  intros [] Hf. specialize (sh_sent0 f Hf). split; [done|]. apply opened_get in sh_sent0 as [h Ek]. by destruct (sh_both0 _ _ Ek).
Qed.

(** Calls that touch no stream. *)
Lemma no_stream_call m m' :
  sm_streams m' = sm_streams m → same_setup m m' → both_halves m →
  both_halves m' ∧ (∀ k, opened m' k ↔ opened m k) ∧ (∀ k, send_half m' k = send_half m k) ∧
  (∀ k, recv_half m' k = recv_half m k).
Proof.
  intros E (H1 & H2 & H3) Hb. unfold both_halves, opened, send_half, recv_half, send_limit, recv_limit, own_stream.
  rewrite E, H1, H2, H3. by split_and!.
Qed.

Lemma max_data_update_streams m o m' : max_data_update m = (o, m') → sm_streams m' = sm_streams m ∧ same_setup m m'.
Proof. unfold max_data_update. cbn zeta. case_test; by intros [= <- <-]. Qed.

Lemma max_streams_update_streams b m o m' :
  max_streams_update b m = (o, m') → sm_streams m' = sm_streams m ∧ same_setup m m'.
Proof. unfold max_streams_update. cbn zeta. case_test; [by intros [= <- <-]|]. case_test; [by intros [= <- <-]|]. destruct b; by intros [= <- <-]. Qed.

Lemma no_stream_moved peer me me' :
  sm_streams (sd_mgr me') = sm_streams (sd_mgr me) ∧ same_setup (sd_mgr me) (sd_mgr me') →
  both_halves (sd_mgr me) → sd_sent me' = sd_sent me → sd_settled me' = sd_settled me → moved peer me me'.
Proof.
  intros [E Hs] Hb Hsent Hst. destruct (no_stream_call _ _ E Hs Hb) as (H1 & H2 & _). constructor; try done.
  - intros k. by rewrite H2.
  - intros k. rewrite H2. auto.
  - rewrite Hsent. auto.
Qed.

(** Every stream of the network, in the direction from [a] to [b], is a run of
    a channel. *)
Definition channels (a b : side) : Prop :=
  ∀ k, channel_reachable k (recv_limit (sd_mgr b) k) (channel_of a b k).

Lemma recv_limit_nonneg m k : limits_ok (sm_local m) → 0 <= recv_limit m k.
Proof. intros H. pose proof (limits_ok_all _ H). unfold recv_limit. case_match; lia. Qed.

Lemma shape_limit a b k : shape b a → 0 <= recv_limit (sd_mgr b) k.
Proof. intros []. apply recv_limit_nonneg. by destruct sh_inv0. Qed.

Lemma sent_frame_id a b k max_bytes credit f s' :
  shape b a → channels a b → next_frame max_bytes credit (send_half (sd_mgr a) k) = (Some f, s') → st_id f = k.
Proof. intros Hs Hc. apply (channel_sent_id k _ (channel_of a b k)) with (2 := Hc k). by eapply shape_limit. Qed.

Lemma moves_moved peer me me' :
  shape me peer → shape peer me → channels me peer → moves peer me me' → moved peer me me'.
Proof.
  intros Hme Hpeer Hch Hmv. pose proof (sh_both _ _ Hme) as Hb. pose proof (sh_inv _ _ Hme) as Hi.
  destruct Hmv as [k m' E|k data fin m' E|k n f m' E|f m' Hf E|f m' Hst Hf E|k v m' Hst Hv E|v Hst Hv|v Hst Hv|f r m' Hst Hf E|k d m' E|k v m' E|v m' E|v m' E].
  2, 4, 5, 6: destruct (on_send_effect _ _ _ _ _ Hb E) as (s' & _ & Hc); eapply half_call_moved; [exact Hc|done|by left].
  6, 7: destruct (on_recv_effect _ _ _ _ _ Hb E) as (s' & _ & Hc); eapply half_call_moved; [exact Hc|done|by left].
  - destruct (open_effect _ _ _ Hi Hb E) as (Hown & Hc & _). eapply opening_call_moved; [exact Hc|by left|done|done].
  - destruct (next_frame_effect _ _ _ _ _ Hb E) as (Ho & s' & Hn & Hc). eapply half_call_moved; [exact Hc|done|].
    intros g [->|]%elem_of_cons; [right|by left]. by rewrite (sent_frame_id _ _ _ _ _ _ _ Hpeer Hch Hn).
  - by apply no_stream_moved.
  - by apply no_stream_moved.
  - destruct (sent_open _ _ _ Hpeer Hf) as [Ho Hbi]. destruct (deliver_effect _ _ _ _ Hb Hbi E) as (r' & _ & Hc & _).
    eapply opening_call_moved; [exact Hc|by right|done|done].
  - apply no_stream_moved; [by eapply max_data_update_streams|done|done|done].
  - apply no_stream_moved; [by eapply max_streams_update_streams|done|done|done].
Qed.

Lemma moves_shape peer me me' :
  shape me peer → shape peer me → channels me peer → moves peer me me' → shape me' peer ∧ shape peer me'.
Proof.
  intros Hme Hpeer Hch Hmv. destruct (moves_moved _ _ _ Hme Hpeer Hch Hmv) as [(Hc & Hl & Hp) Hst Hboth Hmono Hop Hsent].
  destruct (moves_exec _ _ _ Hmv) as (op & Hok & _ & Hexec). destruct Hme, Hpeer.
  destruct (exec_inv _ _ _ _ sh_inv0 Hok Hexec) as [Hinv _].
  assert (Hown : ∀ k, own_stream (sd_mgr me') k = own_stream (sd_mgr me) k) by (intros k; unfold own_stream; by rewrite Hc).
  split; constructor; rewrite ?Hc, ?Hl, ?Hp, ?Hst; try done.
  - intros Hs. destruct (sh_early0 Hs) as [Hle Ho]. split; [done|]. intros k Hk. rewrite Hown.
    destruct (Hop k Hk) as [?|[?|[Hs' _]]]; [by apply Ho|done|congruence].
  - intros k Hk. rewrite Hown. destruct (Hop k Hk) as [?|[?|[_ ?]]]; auto.
  - intros f Hf. destruct (Hsent f Hf) as [?|?]; auto.
  - intros k Hk. destruct (sh_opened1 k Hk); auto.
Qed.

(** *** Allowances never exceed what was granted *)

Lemma next_frame_numbers k n m f m' : both_halves m → sm_next_frame k n m = (Ok (Some f), m') → numbers m' = numbers m.
Proof. intros Hb E. by destruct (next_frame_effect _ _ _ _ _ Hb E) as (_ & s' & _ & []). Qed.

Lemma numbers_grants me me' peer :
  same_setup (sd_mgr me) (sd_mgr me') → sd_settled me' = sd_settled me → sm_data_sent (sd_mgr me') <= sm_max_data (sd_mgr me') →
  numbers (sd_mgr me') = numbers (sd_mgr me) → sd_data me' = sd_data me → sd_streams me' = sd_streams me →
  grants me peer → grants peer me → grants me' peer ∧ grants peer me'.
Proof.
  intros (_ & Hl & _) Hst Hsent [= H1 H2 H3 H4 H5] Hd Hs [] [].
  split; constructor; rewrite ?Hl, ?Hst, ?H1, ?H2, ?H3, ?H4, ?H5, ?Hd, ?Hs; try done. lia.
Qed.

Lemma max_data_update_grows m v m' :
  manager_inv m → max_data_update m = (Some v, m') → sm_local_max_data m <= v ∧ numbers m' =
  [sm_next_bidi_sequence m; sm_max_data m; v; sm_max_streams_bidi m; sm_local_max_streams_bidi m].
Proof.
  intros Hi E. destruct (inv_max_data_update _ _ _ Hi E) as (_ & Hle & _). revert Hle. unfold max_data_update in E.
  cbn zeta in E. case_test_in E; [done|]. injection E as <- <-. cbn -[sum_by]. done.
Qed.

Lemma max_streams_update_grows m v m' :
  max_streams_update true m = (Some v, m') → sm_local_max_streams_bidi m <= v ∧ numbers m' =
  [sm_next_bidi_sequence m; sm_max_data m; sm_local_max_data m; sm_max_streams_bidi m; v].
Proof.
  intros E. unfold max_streams_update in E. cbn zeta in E. case_test_in E; [done|].
  destruct (_ <=? sm_local_max_streams_bidi m) eqn:El; [done|]. bool_cases. injection E as <- <-. split; [lia|done].
Qed.

Lemma moves_grants peer me me' :
  shape me peer → shape peer me → channels me peer → grants me peer → grants peer me → moves peer me me' →
  grants me' peer ∧ grants peer me'.
Proof.
  intros Hme Hpeer Hch Hg1 Hg2 Hmv. pose proof (sh_both _ _ Hme) as Hb. pose proof (sh_inv _ _ Hme) as Hi.
  destruct (moves_moved _ _ _ Hme Hpeer Hch Hmv) as [Hsetup Hst' _ _ _ _].
  assert (Hsent : sm_data_sent (sd_mgr me') <= sm_max_data (sd_mgr me')).
  { destruct (moves_exec _ _ _ Hmv) as (op & _ & Hno & Hexec). destruct (exec_grown _ _ _ _ Hi Hexec) as [Hd Hm].
    specialize (Hm Hno). destruct Hg1. lia. }
  pose proof Hsetup as (_ & Hl & _).
  destruct Hmv as [k m' E|k data fin m' E|k n f m' E|f m' Hf E|f m' Hst Hf E|k v m' Hst Hv E|v Hst Hv|v Hst Hv|f r m' Hst Hf E|k d m' E|k v m' E|v m' E|v m' E].
  2, 4, 5, 6: destruct (on_send_effect _ _ _ _ _ Hb E) as (s' & _ & []); by apply (numbers_grants me).
  6, 7: destruct (on_recv_effect _ _ _ _ _ Hb E) as (s' & _ & []); by apply (numbers_grants me).
  - destruct (open_effect _ _ _ Hi Hb E) as (_ & _ & Hlt & [= H1 H2 H3 H4 H5]). destruct Hg1, Hg2. cbn in Hsent, Hl.
    split; constructor; cbn; rewrite ?Hl, ?H1, ?H2, ?H3, ?H4, ?H5; try done; lia.
  - apply (numbers_grants me); try done. by eapply next_frame_numbers.
  - destruct Hg1, Hg2. pose proof (gr_data_sent0 v Hv). cbn in Hsent. split; constructor; cbn; try done; [lia|]. by rewrite Hst.
  - destruct Hg1, Hg2. pose proof (gr_streams_sent0 v Hv). cbn in Hsent. split; constructor; cbn; try (done || lia). by rewrite Hst.
  - destruct (sent_open _ _ _ Hpeer Hf) as [_ Hbi]. destruct (deliver_effect _ _ _ _ Hb Hbi E) as (r' & _ & _ & Hn).
    by apply (numbers_grants me).
  - destruct (max_data_update_grows _ _ _ Hi E) as (Hle & [= H1 H2 H3 H4 H5]). destruct Hg1, Hg2. cbn in Hsent, Hl.
    split; constructor; cbn; rewrite ?Hl, ?H1, ?H2, ?H3, ?H4, ?H5; try done; try lia.
    intros u [->|Hu]%elem_of_cons; [lia|]. specialize (gr_data_sent1 u Hu). lia.
  - destruct (max_streams_update_grows _ _ _ E) as (Hle & [= H1 H2 H3 H4 H5]). destruct Hg1, Hg2. cbn in Hsent, Hl.
    split; constructor; cbn; rewrite ?Hl, ?H1, ?H2, ?H3, ?H4, ?H5; try done; try lia.
    intros u [->|Hu]%elem_of_cons; [lia|]. specialize (gr_streams_sent1 u Hu). lia.
Qed.

(** *** Each move is a step of at most one channel *)

Definition steps_or_stays (c c' : channel) : Prop := c' = c ∨ channel_step c c'.

(** Seen from the streams the endpoint sends on. *)
Lemma moves_sending peer me me' k :
  shape me peer → shape peer me → channels me peer → moves peer me me' →
  steps_or_stays (channel_of me peer k) (channel_of me' peer k).
Proof.
  intros Hme Hpeer Hch Hmv. pose proof (sh_both _ _ Hme) as Hb. pose proof (sh_inv _ _ Hme) as Hi.
  unfold steps_or_stays.
  destruct Hmv as [j m' E|j data fin m' E|j n f m' E|f m' Hf E|f m' Hst Hf E|j v m' Hst Hv E|v Hst Hv|v Hst Hv|f r m' Hst Hf E|j d m' E|j v m' E|v m' E|v m' E];
    unfold channel_of; cbn [sd_mgr sd_written sd_read sd_sent sd_got sd_credits with_mgr].
  - destruct (open_effect _ _ _ Hi Hb E) as (_ & [] & _). left. by rewrite oc_send0.
  - destruct (on_send_effect _ _ _ _ _ Hb E) as (s' & Ew & []). rewrite hc_send0. destruct (decide (k = j)) as [->|].
    + rewrite update_eq, extend_eq. right. by eapply (step_write (channel_of me peer j)).
    + left. by rewrite update_ne, extend_ne.
  - destruct (next_frame_effect _ _ _ _ _ Hb E) as (_ & s' & En & []). rewrite hc_send0, frames_of_cons.
    rewrite (sent_frame_id _ _ _ _ _ _ _ Hpeer Hch En). destruct (decide (k = j)) as [->|].
    + rewrite update_eq, Z.eqb_refl. right. by apply (step_send (channel_of me peer j)) in En.
    + left. rewrite update_ne by done. by rewrite (proj2 (Z.eqb_neq j k)).
  - destruct (on_send_effect _ _ _ _ _ Hb E) as (s' & [= <-] & []). rewrite hc_send0. destruct (decide (k = st_id f)) as [->|].
    + rewrite update_eq. right. apply (step_lost (channel_of me peer (st_id f)) f). by apply elem_frames_of.
    + left. by rewrite update_ne.
  - destruct (on_send_effect _ _ _ _ _ Hb E) as (s' & [= <-] & []). rewrite hc_send0. destruct (decide (k = st_id f)) as [->|].
    + rewrite update_eq. right. apply (step_acked (channel_of me peer (st_id f)) f). by apply elem_frames_of.
    + left. by rewrite update_ne.
  - destruct (on_send_effect _ _ _ _ _ Hb E) as (s' & [= <-] & []). rewrite hc_send0. destruct (decide (k = j)) as [->|].
    + rewrite update_eq. right. apply (step_credit (channel_of me peer j) v). apply elem_of_app. left. by apply elem_credits_of.
    + left. by rewrite update_ne.
  - by left.
  - by left.
  - destruct (sent_open _ _ _ Hpeer Hf) as [_ Hbi]. destruct (deliver_effect _ _ _ _ Hb Hbi E) as (r' & _ & [] & _).
    left. by rewrite oc_send0.
  - destruct (on_recv_effect _ _ _ _ _ Hb E) as (s' & _ & []). left. by rewrite hc_send0.
  - destruct (on_recv_effect _ _ _ _ _ Hb E) as (s' & _ & []). left. by rewrite hc_send0.
  - destruct (max_data_update_streams _ _ _ E) as [Es Hs]. destruct (no_stream_call _ _ Es Hs Hb) as (_ & _ & H & _). left. by rewrite H.
  - destruct (max_streams_update_streams _ _ _ _ E) as [Es Hs]. destruct (no_stream_call _ _ Es Hs Hb) as (_ & _ & H & _). left. by rewrite H.
Qed.

(** And from the streams it receives on. *)
Lemma moves_receiving peer me me' k :
  shape me peer → shape peer me → channels me peer → moves peer me me' →
  steps_or_stays (channel_of peer me k) (channel_of peer me' k).
Proof.
  intros Hme Hpeer Hch' Hmv. pose proof (sh_both _ _ Hme) as Hb. pose proof (sh_inv _ _ Hme) as Hi.
  assert (Hlimit : recv_limit (sd_mgr me') k = recv_limit (sd_mgr me) k).
  { destruct (moves_moved _ _ _ Hme Hpeer Hch' Hmv) as [(Hc & Hl & _) _ _ _ _ _]. unfold recv_limit, own_stream. by rewrite Hc, Hl. }
  unfold steps_or_stays, channel_of. rewrite Hlimit. clear Hlimit.
  destruct Hmv as [j m' E|j data fin m' E|j n f m' E|f m' Hf E|f m' Hst Hf E|j v m' Hst Hv E|v Hst Hv|v Hst Hv|f r m' Hst Hf E|j d m' E|j v m' E|v m' E|v m' E];
    cbn [sd_mgr sd_written sd_read sd_sent sd_got sd_credits with_mgr].
  2, 4, 5, 6: destruct (on_send_effect _ _ _ _ _ Hb E) as (s' & _ & []); left; by rewrite hc_recv0.
  - destruct (open_effect _ _ _ Hi Hb E) as (_ & [] & _). left. by rewrite oc_recv0.
  - destruct (next_frame_effect _ _ _ _ _ Hb E) as (_ & s' & _ & []). left. by rewrite hc_recv0.
  - by left.
  - by left.
  - destruct (sent_open _ _ _ Hpeer Hf) as [_ Hbi]. destruct (deliver_effect _ _ _ _ Hb Hbi E) as (r' & Er & [] & _).
    rewrite oc_recv0, frames_of_cons. destruct (decide (k = st_id f)) as [->|].
    + rewrite update_eq, Z.eqb_refl. right. apply (step_deliver (channel_of peer me (st_id f))); [by apply elem_frames_of|done].
    + left. rewrite update_ne by done. by rewrite (proj2 (Z.eqb_neq (st_id f) k)).
  - destruct (on_recv_effect _ _ _ _ _ Hb E) as (r' & Er & []). rewrite hc_recv0. destruct (decide (k = j)) as [->|].
    + rewrite update_eq, extend_eq. right. apply (step_read (channel_of peer me j)). cbn. unfold pure_call in Er.
      destruct (read _) as [d0 r0]. by injection Er as -> ->.
    + left. by rewrite update_ne, extend_ne.
  - destruct (on_recv_effect _ _ _ _ _ Hb E) as (r' & Er & []). rewrite hc_recv0, credits_of_cons. destruct (decide (k = j)) as [->|].
    + rewrite update_eq, Z.eqb_refl. right. apply (step_advertise (channel_of peer me j)). cbn. unfold pure_call in Er.
      destruct (credit_update _) as [d0 r0]. by injection Er as -> ->.
    + left. rewrite update_ne by done. by rewrite (proj2 (Z.eqb_neq j k)).
  - destruct (max_data_update_streams _ _ _ E) as [Es Hs]. destruct (no_stream_call _ _ Es Hs Hb) as (_ & _ & _ & H). left. by rewrite H.
  - destruct (max_streams_update_streams _ _ _ _ E) as [Es Hs]. destruct (no_stream_call _ _ Es Hs Hb) as (_ & _ & _ & H). left. by rewrite H.
Qed.

(** ** The invariant of the network *)

Record net_inv (n : network) : Prop := mk_net_inv {
  ni_client : shape (nw_client n) (nw_server n);
  ni_server : shape (nw_server n) (nw_client n);
  ni_up : channels (nw_client n) (nw_server n);
  ni_down : channels (nw_server n) (nw_client n);
  ni_up_grants : grants (nw_client n) (nw_server n);
  ni_down_grants : grants (nw_server n) (nw_client n) }.

Lemma channels_next a b a' b' :
  same_setup (sd_mgr b) (sd_mgr b') →
  (∀ k, steps_or_stays (channel_of a b k) (channel_of a' b' k)) → channels a b → channels a' b'.
Proof.
  intros (Hc & Hl & _) Hstep Hch k. unfold recv_limit at 1, own_stream. rewrite Hc, Hl.
  destruct (Hstep k) as [->|Hs]; [apply Hch|]. eapply reach_step; [apply Hch|done].
Qed.

Lemma net_inv_move peer me me' :
  shape me peer → shape peer me → channels me peer → channels peer me → grants me peer → grants peer me →
  moves peer me me' →
  (shape me' peer ∧ shape peer me') ∧ (channels me' peer ∧ channels peer me') ∧ (grants me' peer ∧ grants peer me').
Proof.
  intros H1 H2 H3 H4 H5 H6 Hmv. split_and!.
  1, 2: by apply (moves_shape peer me me').
  3, 4: by apply (moves_grants peer me me').
  - eapply channels_next; [|intros k; by apply moves_sending|done]. done.
  - eapply channels_next; [|intros k; by apply moves_receiving|done]. by destruct (moves_moved _ _ _ H1 H2 H3 Hmv).
Qed.

(** *** The end of the handshake *)

Lemma d_get_map {V W} (g : V → W) k (d : list (Z * V)) : d_get k ((λ kv, (kv.1, g kv.2)) <$> d) = g <$> d_get k d.
Proof. induction d as [|[k' v] d IH]; cbn; [done|]. by case_decide. Qed.

(** Opposite roles: the peer's limits on what we send, ours on what it sends. *)
Lemma limits_meet a b k : sm_is_client a = negb (sm_is_client b) → sm_peer a = sm_local b → send_limit a k = recv_limit b k.
Proof.
  intros Hr Hp. unfold send_limit, recv_limit, own_stream. rewrite Hr, Hp. by destruct (is_client_initiated k), (sm_is_client b).
Qed.

Lemma send_limit_le a b k : sm_is_client a = negb (sm_is_client b) → limits_le (sm_peer a) (sm_local b) → send_limit a k <= recv_limit b k.
Proof.
  intros Hr (_ & H1 & H2 & _). unfold send_limit, recv_limit, own_stream. rewrite Hr. by destruct (is_client_initiated k), (sm_is_client b).
Qed.

Section settling.
Context (peer me : side) (Hme : shape me peer) (Hearly : sd_settled me = false).

Let m := sd_mgr me.
Let m' := sd_mgr (settle peer me).

Lemma settle_opened k : opened m' k ↔ opened m k.
Proof. unfold opened, m'. cbn. by rewrite <- list_fmap_compose. Qed.

Lemma settle_get k : d_get k (sm_streams m') = raise_send_credit (fl_max_stream_data_bidi_remote (sm_local (sd_mgr peer))) <$> d_get k (sm_streams m).
Proof. apply d_get_map. Qed.

Lemma settle_both : both_halves m'.
Proof.
  intros k h. rewrite settle_get. destruct (d_get k (sm_streams m)) as [h0|] eqn:E; [|done]. intros [= <-].
  destruct (sh_both _ _ Hme k h0 E) as (? & [s Hs] & ?). split; [done|]. cbn. rewrite Hs. split; [by eexists|done].
Qed.

(** Every sending half is raised to the limit the peer announced for it. *)
Lemma settle_send k : send_half m' k = on_max_stream_data (recv_limit (sd_mgr peer) k) (send_half m k).
Proof.
  destruct (sh_early _ _ Hme Hearly) as [Hle Hown]. unfold send_half. rewrite settle_get.
  destruct (d_get k (sm_streams m)) as [h|] eqn:E.
  - destruct (sh_both _ _ Hme k h E) as (_ & [s Hs] & _). cbn. rewrite Hs. cbn.
    assert (Ho : own_stream m k = true) by (apply Hown, opened_get; by eexists).
    unfold recv_limit, own_stream in *. rewrite (sh_role _ _ Hme : sm_is_client m = _) in Ho.
    by destruct (is_client_initiated k), (sm_is_client (sd_mgr peer)).
  - change (new_SendStream k (send_limit m' k) = on_max_stream_data (recv_limit (sd_mgr peer) k) (new_SendStream k (send_limit m k))).
    assert (Hs : send_limit m' k = recv_limit (sd_mgr peer) k) by (apply limits_meet; [by destruct Hme|done]).
    pose proof (send_limit_le m (sd_mgr peer) k (sh_role _ _ Hme) Hle). rewrite Hs.
    unfold on_max_stream_data, new_SendStream. cbn. by rewrite Z.max_r.
Qed.

Lemma settle_recv k : recv_half m' k = recv_half m k.
Proof. unfold recv_half. rewrite settle_get. by destruct (d_get k (sm_streams m)). Qed.

Lemma settle_inv :
  shape peer me → channels me peer → channels peer me → grants me peer → grants peer me →
  let me' := settle peer me in
  (shape me' peer ∧ shape peer me') ∧ (channels me' peer ∧ channels peer me') ∧ (grants me' peer ∧ grants peer me').
Proof.
  intros Hpeer Hup Hdown Hg1 Hg2. cbn zeta.
  pose proof settle_opened as Hop. pose proof settle_both as Hboth.
  split; [|split; [split|]].
  - destruct Hme, Hpeer. split; constructor; try done.
    + by apply inv_update_peer_limits; [|destruct sh_inv1].
    + intros k Hk. apply sh_opened0. by apply Hop.
    + intros f Hf. apply Hop. by apply sh_sent0.
    + intros k Hk. destruct (sh_opened1 k Hk); [by left|right]. by apply Hop.
  - intros k. eapply reach_step; [apply Hup|]. unfold channel_of. fold m'. rewrite settle_send.
    apply (step_credit (channel_of me peer k)). apply elem_of_app. right. by apply list_elem_of_singleton.
  - intros k. unfold channel_of. fold m'. rewrite settle_recv. exact (Hdown k).
  - destruct Hg1, Hg2, (gr_early0 Hearly). split; constructor; cbn -[sum_by]; try done; lia.
Qed.
End settling.

Lemma nothing_in {A} (x : A) : x ∈ [] → False.
Proof. by intros ?%elem_of_nil. Qed.

Lemma net_inv_init client remembered server settled :
  limits_ok client → limits_ok server → limits_ok remembered → limits_le remembered server →
  (settled = true → remembered = server) →
  net_inv (mkNetwork (new_side true client remembered settled) (new_side false server client true)).
Proof.
  intros Hc Hs Hr Hle Heq. pose proof (limits_ok_all _ Hc). pose proof (limits_ok_all _ Hs). pose proof (limits_ok_all _ Hr).
  pose proof Hle as (? & ? & ? & ? & ? & ?).
  assert (Hrefl : limits_le client client) by (unfold limits_le; lia).
  constructor; cbn.
  - constructor; cbn; try done; [by apply manager_inv_new|..]; try (intros ? ?%nothing_in; done).
    intros _. split; [done|]. by intros ? ?%nothing_in.
  - constructor; cbn; try done; [by apply manager_inv_new|..]; intros ? ?%nothing_in; done.
  - intros k. unfold channel_of, send_half, recv_half. cbn. apply reach_init.
    pose proof (send_limit_le (new_StreamManager true client remembered) (new_StreamManager false server client) k eq_refl Hle).
    split; [|done]. unfold send_limit. cbn. case_match; lia.
  - intros k. unfold channel_of, send_half, recv_half. cbn. apply reach_init.
    pose proof (send_limit_le (new_StreamManager false server client) (new_StreamManager true client remembered) k eq_refl Hrefl).
    split; [|done]. unfold send_limit. cbn. case_match; lia.
  - constructor; cbn; try done; try lia; intros ? ?%nothing_in; done.
  - constructor; cbn; try done; try lia; intros ? ?%nothing_in; done.
Qed.

Section NetInvariant.
Context (client server : FlowControlLimits) (Hclient : limits_ok client) (Hserver : limits_ok server).

Lemma net_reachable_inv n : net_reachable client server n → net_inv n.
Proof.
  induction 1 as [|remembered Hr Hle|n n' _ IH Hstep].
  - by apply net_inv_init.
  - by apply net_inv_init.
  - destruct IH. destruct Hstep as [n c' Hmv|n s' Hmv|n Hearly].
    1, 2: eapply net_inv_move in Hmv; [|done..]; destruct Hmv as ([] & [] & []); by constructor.
    destruct (settle_inv _ _ ni_client0 Hearly) as ([] & [] & []); done.
Qed.

(** Each manager of a network runs as a manager on its own. *)
Lemma net_reachable_managers n :
  net_reachable client server n →
  (∃ known high lowered, sm_reachable true client known high lowered (sd_mgr (nw_client n))) ∧
  (∃ high lowered, sm_reachable false server client high lowered (sd_mgr (nw_server n))).
Proof.
  induction 1 as [|remembered _ _|n n' Hn [IHc IHs] Hstep]; [split; [do 3 eexists|do 2 eexists]; apply sm_reach_init..|].
  destruct Hstep as [n c' Hmv|n s' Hmv|n Hearly].
  - apply moves_exec in Hmv as (op & ? & _ & ?). destruct IHc as (known & high & lowered & IHc). split; [|done].
    do 3 eexists. by eapply sm_reach_step.
  - apply moves_exec in Hmv as (op & ? & _ & ?). destruct IHs as (high & lowered & IHs). split; [done|].
    do 2 eexists. by eapply sm_reach_step.
  - destruct IHc as (known & high & lowered & IHc). split; [|done]. do 3 eexists.
    eapply (sm_reach_step _ _ _ (OpUpdatePeerLimits (sm_local (sd_mgr (nw_server n))))); [exact IHc| |done].
    destruct (net_reachable_inv n Hn) as [_ Hs _ _ _ _]. by destruct (sh_inv _ _ Hs).
Qed.
End NetInvariant.

(** *** The connection's counters *)

(** What [b] received is no more than what [a] sent, if that is so on each
    stream. *)
Lemma received_le_sent a b :
  manager_inv a → manager_inv b →
  (∀ k, rs_highest_offset (recv_half b k) <= ss_highest_offset_sent (send_half a k)) →
  sm_data_received b <= sm_data_sent a.
Proof.
  intros Ha Hb H.
  rewrite (mi_received _ Hb), (mi_sent _ Ha).
  rewrite (sum_by_keys received_of (λ k, rs_highest_offset (recv_half b k))); [|by destruct Hb|].
  2: { intros k h E. unfold received_of, recv_half. rewrite E. cbn. by destruct (h_recv h). }
  rewrite (sum_by_keys sent_of (λ k, ss_highest_offset_sent (send_half a k))); [|by destruct Ha|].
  2: { intros k h E. unfold sent_of, send_half. rewrite E. cbn. by destruct (h_send h). }
  etransitivity; [apply sum_by_le, H|]. apply sum_by_subset; [by destruct Hb| |].
  - intros k. unfold send_half. destruct (d_get k (sm_streams a)) as [h|] eqn:E; [|done]. cbn.
    destruct (half_ok_get _ _ _ Ha E) as [Hs _]. destruct (h_send h) as [s|]; [|done]. cbn in *. destruct Hs. lia.
  - intros k _ Hk. apply d_get_None in Hk. unfold send_half. by rewrite Hk.
Qed.

(** The endpoint of a role. *)
Definition end_of (n : network) (is_client : bool) : side := if is_client then nw_client n else nw_server n.

Lemma net_inv_ends n c :
  net_inv n →
  let a := end_of n c in let b := end_of n (negb c) in
  shape a b ∧ shape b a ∧ channels a b ∧ grants a b.
Proof. intros []. by destruct c. Qed.

Lemma channel_counted stream_id limit c :
  0 <= limit → channel_reachable stream_id limit c → rs_highest_offset (ch_recv c) <= ss_highest_offset_sent (ch_send c).
Proof.
  intros Hl Hc. rewrite (si_highest _ _ (ci_send _ (channel_reachable_inv _ _ _ Hl Hc))). by eapply channel_highest.
Qed.

Lemma channel_counts a b k :
  shape b a → channels a b → rs_highest_offset (recv_half (sd_mgr b) k) <= ss_highest_offset_sent (send_half (sd_mgr a) k).
Proof. intros Hs Hch. by apply (channel_counted k _ _ (shape_limit _ _ k Hs) (Hch k)). Qed.

(** A frame that was sent is of a stream the receiver has or may open. *)
Lemma sent_admissible a b f :
  shape a b → shape b a → grants a b → f ∈ sd_sent a →
  is_bidirectional (st_id f) = true ∧ admissible (sd_mgr b) (st_id f).
Proof.
  intros Ha Hb Hg Hf. destruct (sent_open _ _ _ Ha Hf) as [Ho Hbi]. split; [done|].
  destruct (sh_opened _ _ Ha _ Ho) as [Hown|Hob]; [|by left]. right.
  pose proof (sh_role _ _ Ha) as Hr. unfold own_stream in *. split.
  { rewrite Hr in Hown. by destruct (is_client_initiated _), (sm_is_client (sd_mgr b)). }
  destruct Ha. destruct sh_inv0, Hg. rewrite Forall_forall in mi_ids. specialize (mi_ids _ Ho). unfold id_ok in mi_ids.
  rewrite Hown in mi_ids. destruct mi_ids as (j & Hj & ->). rewrite Z.shiftr_div_pow2 by lia. change (2 ^ 2) with 4.
  replace ((4 * j + local_bit (sm_is_client (sd_mgr a))) / 4) with j; [lia|].
  apply Z.div_unique_pos with (local_bit (sm_is_client (sd_mgr a))); unfold local_bit, STREAM_SERVER_INITIATED_BIT; case_match; lia.
Qed.

Lemma sent_accepted a b f :
  shape a b → shape b a → channels a b → grants a b → f ∈ sd_sent a →
  ∃ r m', sm_on_stream_frame f (sd_mgr b) = (Ok r, m').
Proof.
  intros Ha Hb Hch Hg Hf. destruct (sent_admissible _ _ _ Ha Hb Hg Hf) as [Hbi Hadm].
  destruct (frame_opens _ _ (sh_both _ _ Hb) Hbi Hadm) as (m1 & Heq & Ho & [Hs1 _ Hb1 _ Hr1] & Hn1).
  pose proof (shape_limit _ _ (st_id f) Hb) as Hl. set (c := channel_of a b (st_id f)).
  assert (Hin : f ∈ ch_net c) by (by apply elem_frames_of).
  pose proof (deliver_spec c f (channel_reachable_inv _ _ _ Hl (Hch _)) Hin) as Ed.
  pose proof (step_deliver c f _ Hin Ed) as Hstep. set (r' := store_frame _ _) in *.
  destruct (frame_on_open m1 f r' Hb1 Ho) as (m2 & [Hs2 Hn2 _ _ _ Hr2] & E2); [by rewrite Hr1|].
  rewrite Heq, E2. case_test; [|by eexists _, _]. exfalso.
  assert (Hi2 : manager_inv m2).
  { destruct (inv_on_stream_frame _ f _ _ (sh_inv _ _ Hb) (eq_trans Heq E2)) as [Hi _]. done. }
  assert (Hle : sm_data_received m2 <= sm_data_sent (sd_mgr a)).
  { apply received_le_sent; [by destruct Ha|done|]. intros k. rewrite Hr2. destruct (decide (k = st_id f)) as [->|].
    - rewrite update_eq. exact (channel_counted _ _ _ Hl (reach_step _ _ _ _ (Hch _) Hstep)).
    - rewrite update_ne, Hr1 by done. by apply channel_counts. }
  injection Hn1 as _ _ Hmax _ _. destruct Hg. lia.
Qed.

(** ** Properties *)

(** C5: in every run of two stream managers over a network that loses,
    duplicates and reorders, each stream in each direction is a run of the
    single channel of [Channel], whose credit is what the receiver announced:
    streams do not disturb one another, nor do early data and the change of
    limits when the handshake ends.  So what an application was given of a stream is a prefix of what the other application
    wrote to that stream, and all of it, the writer having closed the stream,
    when the receiving half is in Data Read. *)
Theorem network_refines_channels client server n (c : bool) k
  (Hclient : limits_ok client) (Hserver : limits_ok server) (Hreach : net_reachable client server n) :
  let a := end_of n c in let b := end_of n (negb c) in
  channel_reachable k (recv_limit (sd_mgr b) k) (channel_of a b k) ∧
  sd_read b k = take (length (sd_read b k)) (sd_written a k) ∧
  (rs_state (recv_half (sd_mgr b) k) = RECV_DATA_READ →
     sd_read b k = sd_written a k ∧ ss_fin_queued (send_half (sd_mgr a) k) = true).
Proof.
  destruct (net_inv_ends n c (net_reachable_inv _ _ Hclient Hserver _ Hreach)) as (_ & Hb & Hch & _). cbn zeta.
  split; [apply Hch|].
  exact (channel_prefix _ (channel_reachable_inv _ _ _ (shape_limit _ _ k Hb) (Hch k))).
Qed.

(** C12: two endpoints that follow the code never make each other raise on a
    STREAM frame, as long as the limits a client remembers for early data are
    not above those the server announces (a server that lowered one rejects the
    early data, and [rejected_early_data_overruns] shows what the code then
    does).  Every frame an endpoint ever sent, on any stream, before or after
    the handshake, however late, often or out of order it arrives, is accepted
    (no STREAM_STATE, STREAM_LIMIT, FINAL_SIZE or FLOW_CONTROL error); and what
    one received in total is at most what the other sent, within the credit
    granted. *)
Theorem network_never_refuses client server n (c : bool)
  (Hclient : limits_ok client) (Hserver : limits_ok server) (Hreach : net_reachable client server n) :
  let a := end_of n c in let b := end_of n (negb c) in
  (∀ f, f ∈ sd_sent a → ∃ r m', sm_on_stream_frame f (sd_mgr b) = (Ok r, m')) ∧
  sm_data_received (sd_mgr b) <= sm_data_sent (sd_mgr a) <= sm_max_data (sd_mgr a) ∧
  sm_max_data (sd_mgr a) <= sm_local_max_data (sd_mgr b) ∧
  sm_next_bidi_sequence (sd_mgr a) <= sm_local_max_streams_bidi (sd_mgr b).
Proof.
  destruct (net_inv_ends n c (net_reachable_inv _ _ Hclient Hserver _ Hreach)) as (Ha & Hb & Hch & Hg). cbn zeta.
  split; [intros f; by apply sent_accepted|]. 
  assert (sm_data_received (sd_mgr (end_of n (negb c))) <= sm_data_sent (sd_mgr (end_of n c))).
  { apply received_le_sent; [by destruct Ha|by destruct Hb|]. intros k. by apply channel_counts. }
  destruct Hg. split_and!; lia.
Qed.

(** ** Witnesses

    Runs of the network can be executed: an action names the move and picks
    frames and limits by position. *)

Inductive net_action : Type :=
| NOpen | NWrite (k : Z) (data : bytes) (fin : bool) | NSend (k max_bytes : Z) | NLost (i : nat) | NAcked (i : nat)
| NStreamCredit (i : nat) | NDataCredit (i : nat) | NStreamsCredit (i : nat) | NDeliver (i : nat) | NRead (k : Z)
| NAdvertise (k : Z) | NAdvertiseData | NAdvertiseStreams.

(** Something the peer sent, once the handshake is over. *)
Definition heard {A} (settled : bool) (l : list A) (i : nat) : option A := if settled then l !! i else None.

Lemma heard_in {A} settled (l : list A) i x : heard settled l i = Some x → settled = true ∧ x ∈ l.
Proof. destruct settled; [|done]. intros H. split; [done|]. by eapply list_elem_of_lookup_2. Qed.

Definition perform (act : net_action) (peer me : side) : option side :=
  let '(mkSide m w d sent got cr data streams settled) := me in
  match act with
  | NOpen => match open_bidi m with (Ok _, m') => Some (mkSide m' w d sent got cr data streams settled) | _ => None end
  | NWrite k x fin =>
      match on_send k (write x fin) m with
      | (Ok _, m') => Some (mkSide m' (extend k x w) d sent got cr data streams settled) | _ => None end
  | NSend k n =>
      match sm_next_frame k n m with
      | (Ok (Some f), m') => Some (mkSide m' w d (f :: sent) got cr data streams settled) | _ => None end
  | NLost i =>
      f ← sent !! i; match on_send (st_id f) (modify (requeue f)) m with
                     | (Ok _, m') => Some (mkSide m' w d sent got cr data streams settled) | _ => None end
  | NAcked i =>
      f ← heard settled (sd_got peer) i; match on_send (st_id f) (modify (on_frame_acked f)) m with
                            | (Ok _, m') => Some (mkSide m' w d sent got cr data streams settled) | _ => None end
  | NStreamCredit i =>
      kv ← heard settled (sd_credits peer) i; match on_send kv.1 (modify (on_max_stream_data kv.2)) m with
                                 | (Ok _, m') => Some (mkSide m' w d sent got cr data streams settled) | _ => None end
  | NDataCredit i =>
      v ← heard settled (sd_data peer) i; Some (mkSide (on_max_data v m) w d sent got cr data streams settled)
  | NStreamsCredit i =>
      v ← heard settled (sd_streams peer) i; Some (mkSide (on_max_streams v true m) w d sent got cr data streams settled)
  | NDeliver i =>
      f ← heard settled (sd_sent peer) i; match sm_on_stream_frame f m with
                             | (Ok _, m') => Some (mkSide m' w d sent (f :: got) cr data streams settled) | _ => None end
  | NRead k =>
      match on_recv k (pure_call read) m with
      | (Ok x, m') => Some (mkSide m' w (extend k x d) sent got cr data streams settled) | _ => None end
  | NAdvertise k =>
      match on_recv k (pure_call credit_update) m with
      | (Ok (Some v), m') => Some (mkSide m' w d sent got ((k, v) :: cr) data streams settled) | _ => None end
  | NAdvertiseData =>
      match max_data_update m with
      | (Some v, m') => Some (mkSide m' w d sent got cr (v :: data) streams settled) | _ => None end
  | NAdvertiseStreams =>
      match max_streams_update true m with
      | (Some v, m') => Some (mkSide m' w d sent got cr data (v :: streams) settled) | _ => None end
  end.

Lemma perform_moves act peer me me' : perform act peer me = Some me' → moves peer me me'.
Proof.
  destruct me as [m w d sent got cr data streams settled]. set (me := mkSide _ _ _ _ _ _ _ _ _). destruct act; cbn.
  - destruct (open_bidi m) as [[j|e] m'] eqn:E; [|done]. intros [= <-]. by apply (mv_open peer me j).
  - destruct (on_send _ _ m) as [[[]|e] m'] eqn:E; [|done]. intros [= <-]. by apply (mv_write peer me k data0 fin).
  - destruct (sm_next_frame _ _ m) as [[[f|]|e] m'] eqn:E; [|done|done]. intros [= <-]. by apply (mv_send peer me k max_bytes f).
  - destruct (sent !! i) as [f|] eqn:Ef; [|done]. cbn. destruct (on_send _ _ m) as [[[]|e] m'] eqn:E; [|done].
    intros [= <-]. apply (mv_lost peer me f); [by eapply list_elem_of_lookup_2|done].
  - destruct (heard _ _ i) as [f|] eqn:Ef; [|done]. apply heard_in in Ef as [-> Hf]. cbn. destruct (on_send _ _ m) as [[[]|e] m'] eqn:E; [|done].
    intros [= <-]. by apply (mv_acked peer me f).
  - destruct (heard _ _ i) as [[j v]|] eqn:Ef; [|done]. apply heard_in in Ef as [-> Hf]. cbn. destruct (on_send _ _ m) as [[[]|e] m'] eqn:E; [|done].
    intros [= <-]. by apply (mv_stream_credit peer me j v).
  - destruct (heard _ _ i) as [v|] eqn:Ef; [|done]. apply heard_in in Ef as [-> Hf]. intros [= <-]. by apply (mv_data_credit peer me v).
  - destruct (heard _ _ i) as [v|] eqn:Ef; [|done]. apply heard_in in Ef as [-> Hf]. intros [= <-]. by apply (mv_streams_credit peer me v).
  - destruct (heard _ _ i) as [f|] eqn:Ef; [|done]. apply heard_in in Ef as [-> Hf]. cbn. destruct (sm_on_stream_frame _ m) as [[r|e] m'] eqn:E; [|done].
    intros [= <-]. by apply (mv_deliver peer me f r).
  - destruct (on_recv _ _ m) as [[x|e] m'] eqn:E; [|done]. intros [= <-]. by apply (mv_read peer me k x).
  - destruct (on_recv _ _ m) as [[[v|]|e] m'] eqn:E; [|done|done]. intros [= <-]. by apply (mv_advertise peer me k v).
  - destruct (max_data_update m) as [[v|] m'] eqn:E; [|done]. intros [= <-]. by apply (mv_advertise_data peer me v).
  - destruct (max_streams_update true m) as [[v|] m'] eqn:E; [|done]. intros [= <-]. by apply (mv_advertise_streams peer me v).
Qed.

Inductive net_event : Type := At (who : bool) (act : net_action) | HandshakeOver.

Definition perform_event (e : net_event) (n : network) : option network :=
  match e with
  | At true act => c ← perform act (nw_server n) (nw_client n); Some (mkNetwork c (nw_server n))
  | At false act => s ← perform act (nw_client n) (nw_server n); Some (mkNetwork (nw_client n) s)
  | HandshakeOver => if sd_settled (nw_client n) then None else Some (mkNetwork (settle (nw_server n) (nw_client n)) (nw_server n))
  end.

Definition run_net (l : list net_event) (n : network) : option network := foldl (λ o e, o ≫= perform_event e) (Some n) l.

Lemma perform_event_step e n n' : perform_event e n = Some n' → net_step n n'.
Proof.
  destruct e as [[] act|]; cbn.
  - destruct (perform act _ _) as [c|] eqn:E; [|done]. intros [= <-]. apply net_client. by eapply perform_moves.
  - destruct (perform act _ _) as [s|] eqn:E; [|done]. intros [= <-]. apply net_server. by eapply perform_moves.
  - destruct (sd_settled (nw_client n)) eqn:E; [done|]. intros [= <-]. by apply net_handshake.
Qed.

Lemma run_net_reachable l client server n0 n :
  net_reachable client server n0 → run_net l n0 = Some n → net_reachable client server n.
Proof.
  intros H0. unfold run_net. revert n. induction l as [|e l IH] using rev_ind; intros n; [by intros [= <-]|].
  rewrite foldl_app. cbn. destruct (foldl _ _ l) as [n1|]; [|done]. cbn. intros H.
  eapply net_next; [by apply IH|by eapply perform_event_step].
Qed.

(** A client with remembered limits sends a request as early data, which arrives
    before the handshake is over and again after it; meanwhile it opens another
    stream.  The last of the frames is lost and sent again, frames arrive in the
    wrong order, the answer needs the credit the handshake brought, and more
    credit comes back. *)
Definition remembered_limits : FlowControlLimits := mkFlowControlLimits 60 20 20 20 2 2.

Definition sample_events : list net_event :=
  [At true NOpen; At true (NWrite 0 [x47; x45; x54] true); At true (NSend 0 2); At false (NDeliver 0);
   At true (NSend 0 10); At true NOpen; At true (NWrite 4 (zeros 30) false); At true (NSend 4 30); HandshakeOver;
   At true (NSend 4 30); At true (NLost 2); At true (NSend 0 10); At false (NDeliver 0); At false (NDeliver 1);
   At false (NDeliver 2); At false (NDeliver 4); At false (NRead 0);
   At false (NWrite 0 (zeros 40) false); At false (NSend 0 40); At true (NDeliver 0); At true (NRead 0); At true (NAdvertise 0);
   At false (NStreamCredit 0); At true (NAcked 0)].

Definition early_start : network :=
  mkNetwork (new_side true sample_limits remembered_limits false) (new_side false sample_limits sample_limits true).
Definition sample_network : network := default early_start (run_net sample_events early_start).

Lemma sample_network_reachable : net_reachable sample_limits sample_limits sample_network.
Proof.
  apply (run_net_reachable sample_events _ _ early_start); [|by vm_compute].
  apply net_early; [|unfold limits_le; cbn; lia].
  unfold limits_ok. cbn. repeat (apply Forall_cons_2; [lia|]). apply Forall_nil_2.
Qed.

Lemma network_refines_channels_witness :
  sd_read (end_of sample_network false) 0 = [x47; x45; x54] ∧
  channel_reachable 0 (recv_limit (sd_mgr (end_of sample_network (negb true))) 0)
    (channel_of (end_of sample_network true) (end_of sample_network (negb true)) 0).
Proof.
  split; [by vm_compute|].
  exact (proj1 (network_refines_channels sample_limits sample_limits sample_network true 0 sample_limits_ok
                  sample_limits_ok sample_network_reachable)).
Defined.

Lemma network_never_refuses_witness :
  sm_data_received (sd_mgr (end_of sample_network false)) = 33 ∧
  ∃ r m', sm_on_stream_frame (mkStream 4 20 (zeros 10) false) (sd_mgr (end_of sample_network (negb true))) = (Ok r, m').
Proof.
  split; [by vm_compute|].
  apply (proj1 (network_never_refuses sample_limits sample_limits sample_network true sample_limits_ok sample_limits_ok
                  sample_network_reachable)).
  apply (list_elem_of_lookup_2 _ 1). by vm_compute.
Defined.
