(* ===== verification/Congestion.v ===== *)
(** * The congestion-controller interface (congestion.py)

    The [CongestionController] protocol of [src/dsquic/congestion.py] as a
    type class of operations, and [CongestionLaws], what loss detection
    relies on in any controller: how each event moves [bytes_in_flight].
    Loss detection ([Recovery]) is proved against the class; [NewReno]
    discharges it.  The vocabulary the two share ([EncryptionLevel] of
    tls.py, [SentPacket] of recovery.py) is here too.

    Times are rationals: the program's floats without rounding. *)

From Stdlib Require Export QArith Qabs Qminmax Lqa.
From S2P Require Import Prelude Frames.
#[global] Open Scope Z_scope.

Inductive EncryptionLevel : Type := L_INITIAL | L_HANDSHAKE | L_ONE_RTT.

#[export] Instance EncryptionLevel_eq_dec : EqDecision EncryptionLevel.
Proof. solve_decision. Defined.

Record SentPacket : Type := mkSentPacket {
  sp_level : EncryptionLevel;
  sp_packet_number : Z;
  sp_time_sent : Q;
  sp_ack_eliciting : bool;
  sp_in_flight : bool;
  sp_size : Z;
  sp_frames : list Frame }.

Class CongestionController (C : Type) : Type := {
  congestion_window : C → Z;
  bytes_in_flight : C → Z;
  pacing_rate : Q → C → option Q;
  cc_on_packet_sent : SentPacket → C → C;
  cc_on_packets_acked : list SentPacket → Q → C → C;
  cc_on_packets_lost : list SentPacket → Q → M C unit;
  cc_on_packets_discarded : list SentPacket → C → C;
  cc_on_persistent_congestion : C → C;
  cc_on_ecn_ce : Q → Q → C → C }.

(** The bytes a packet counts for against the window. *)
Definition flight (p : SentPacket) : Z := if sp_in_flight p then sp_size p else 0.

(** What each event does to the bytes in flight; losing a non-empty list of
    packets never raises. *)
Class CongestionLaws (C : Type) `{CongestionController C} : Prop := {
  law_sent p c : bytes_in_flight (cc_on_packet_sent p c) = bytes_in_flight c + flight p;
  law_acked ps now c :
    bytes_in_flight (cc_on_packets_acked ps now c) = bytes_in_flight c - sum_by flight ps;
  law_lost ps now c : ps ≠ [] →
    ∃ c', cc_on_packets_lost ps now c = (Ok tt, c') ∧ bytes_in_flight c' = bytes_in_flight c - sum_by flight ps;
  law_discarded ps c :
    bytes_in_flight (cc_on_packets_discarded ps c) = bytes_in_flight c - sum_by flight ps;
  law_persistent c : bytes_in_flight (cc_on_persistent_congestion c) = bytes_in_flight c;
  law_ecn_ce sent now c : bytes_in_flight (cc_on_ecn_ce sent now c) = bytes_in_flight c }.

(** ** Rational comparisons *)

Definition Qltb (a b : Q) : bool := negb (Qle_bool b a).

Lemma Qleb_le a b : Qle_bool a b = true ↔ (a <= b)%Q.
Proof. apply Qle_bool_iff. Qed.
Lemma Qleb_gt a b : Qle_bool a b = false ↔ (b < a)%Q.
Proof.
  split; intros H.
  - apply Qnot_le_lt. intros Hle. apply Qle_bool_iff in Hle. congruence.
  - destruct (Qle_bool a b) eqn:E; [|done]. apply Qle_bool_iff in E. exfalso. lra.
Qed.
Lemma Qltb_lt a b : Qltb a b = true ↔ (a < b)%Q.
Proof. unfold Qltb. by rewrite negb_true_iff, Qleb_gt. Qed.
Lemma Qltb_ge a b : Qltb a b = false ↔ (b <= a)%Q.
Proof. unfold Qltb. by rewrite negb_false_iff, Qleb_le. Qed.

(** Rational tests in the context as inequalities. *)
Ltac q_cases :=
  repeat match goal with
  | H : Qle_bool _ _ = true |- _ => apply Qleb_le in H
  | H : Qle_bool _ _ = false |- _ => apply Qleb_gt in H
  | H : Qltb _ _ = true |- _ => apply Qltb_lt in H
  | H : Qltb _ _ = false |- _ => apply Qltb_ge in H
  end.

(** Summing what only counts for packets in flight. *)
Lemma sum_flight_filter ps : sum_by flight (List.filter sp_in_flight ps) = sum_by flight ps.
Proof.
  rewrite sum_by_filter. unfold sum_by. induction ps as [|p ps IH]; cbn; [done|].
  rewrite IH. unfold flight. by destruct (sp_in_flight p).
Qed.
