(* ===== verification/NewReno.v ===== *)
(** * The NewReno congestion controller (new_reno.py)

    [src/dsquic/new_reno.py] (RFC 9002 section 7 and Appendix B), as an
    instance of the controller interface.  [_slow_start_threshold] starts at
    infinity: [None] here.  The window arithmetic is on integers:
    [int(window * 0.5)] is [window / 2] and [int(mds * size / window)] is the
    integer quotient, which the program's floats agree with below 2^53. *)

From S2P Require Import Prelude Congestion.

(** ** Model *)

Definition MINIMUM_WINDOW_DATAGRAMS : Z := 2.
Definition PACING_GAIN : Q := 5 # 4.
Definition INITIAL_WINDOW_FLOOR : Z := 14720.

Record NewReno : Type := mkNewReno {
  nr_max_datagram_size : Z;
  nr_congestion_window : Z;
  nr_bytes_in_flight : Z;
  nr_slow_start_threshold : option Z;
  nr_recovery_start_time : option Q }.

Definition new_NewReno (max_datagram_size : Z) : NewReno :=
  mkNewReno max_datagram_size
    (Z.min (10 * max_datagram_size) (Z.max INITIAL_WINDOW_FLOOR (2 * max_datagram_size)))
    0 None None.

Definition nr_pacing_rate (smoothed_rtt : Q) (c : NewReno) : option Q :=
  if Qle_bool smoothed_rtt 0 then None
  else Some (PACING_GAIN * inject_Z (nr_congestion_window c) / smoothed_rtt)%Q.

Definition in_recovery (sent_time : Q) (c : NewReno) : bool :=
  match nr_recovery_start_time c with
  | Some start => Qle_bool sent_time start
  | None => false
  end.

Definition add_in_flight (n : Z) (c : NewReno) : NewReno :=
  mkNewReno (nr_max_datagram_size c) (nr_congestion_window c) (nr_bytes_in_flight c + n)
    (nr_slow_start_threshold c) (nr_recovery_start_time c).

Definition nr_on_packet_sent (p : SentPacket) (c : NewReno) : NewReno :=
  if sp_in_flight p then add_in_flight (sp_size p) c else c.

Definition below_threshold (c : NewReno) : bool :=
  match nr_slow_start_threshold c with
  | None => true
  | Some t => nr_congestion_window c <? t
  end.

Definition grow (n : Z) (c : NewReno) : NewReno :=
  mkNewReno (nr_max_datagram_size c) (nr_congestion_window c + n) (nr_bytes_in_flight c)
    (nr_slow_start_threshold c) (nr_recovery_start_time c).

(** One round of the loop of [on_packets_acked]. *)
Definition ack_one (c : NewReno) (p : SentPacket) : NewReno :=
  if negb (sp_in_flight p) then c
  else
    let c := add_in_flight (- sp_size p) c in
    if in_recovery (sp_time_sent p) c then c
    else if below_threshold c then grow (sp_size p) c
    else grow (nr_max_datagram_size c * sp_size p / nr_congestion_window c) c.

Definition nr_on_packets_acked (ps : list SentPacket) (now : Q) (c : NewReno) : NewReno :=
  fold_left ack_one ps c.

(** The loop that takes packets out of flight. *)
Definition leave_flight (ps : list SentPacket) (c : NewReno) : NewReno :=
  fold_left (λ c p, if sp_in_flight p then add_in_flight (- sp_size p) c else c) ps c.

(** Enter a recovery period: halve the window, down to the minimum. *)
Definition reduce (now : Q) (c : NewReno) : NewReno :=
  let reduced := nr_congestion_window c / 2 in
  let minimum := MINIMUM_WINDOW_DATAGRAMS * nr_max_datagram_size c in
  let window := Z.max reduced minimum in
  mkNewReno (nr_max_datagram_size c) window (nr_bytes_in_flight c) (Some window) (Some now).

Definition q_max (a b : Q) : Q := if Qltb a b then b else a.

Definition nr_on_packets_lost (ps : list SentPacket) (now : Q) : M NewReno unit :=
  _ ← modify (leave_flight ps);
  match ps with
  | [] => raise (ValueError "max() iterable argument is empty")
  | p :: ps' =>
      let latest_sent_time := fold_left (λ t q, q_max t (sp_time_sent q)) ps' (sp_time_sent p) in
      c ← get;
      if in_recovery latest_sent_time c then mret tt else modify (reduce now)
  end.

Definition nr_on_ecn_ce (sent_time now : Q) (c : NewReno) : NewReno :=
  if in_recovery sent_time c then c else reduce now c.

Definition nr_on_packets_discarded (ps : list SentPacket) (c : NewReno) : NewReno := leave_flight ps c.

Definition nr_on_persistent_congestion (c : NewReno) : NewReno :=
  mkNewReno (nr_max_datagram_size c) (MINIMUM_WINDOW_DATAGRAMS * nr_max_datagram_size c)
    (nr_bytes_in_flight c) (nr_slow_start_threshold c) None.

#[export] Instance NewReno_controller : CongestionController NewReno := {
  congestion_window := nr_congestion_window;
  bytes_in_flight := nr_bytes_in_flight;
  pacing_rate := nr_pacing_rate;
  cc_on_packet_sent := nr_on_packet_sent;
  cc_on_packets_acked := nr_on_packets_acked;
  cc_on_packets_lost := nr_on_packets_lost;
  cc_on_packets_discarded := nr_on_packets_discarded;
  cc_on_persistent_congestion := nr_on_persistent_congestion;
  cc_on_ecn_ce := nr_on_ecn_ce }.

(** ** The interface laws *)

Lemma ack_one_flight c p : nr_bytes_in_flight (ack_one c p) = nr_bytes_in_flight c - flight p.
Proof.
  unfold ack_one, flight. destruct (sp_in_flight p); cbn [negb]; [|lia]. cbn zeta. repeat case_test; cbn; lia.
Qed.

Lemma acked_flight ps now c :
  nr_bytes_in_flight (nr_on_packets_acked ps now c) = nr_bytes_in_flight c - sum_by flight ps.
Proof.
  unfold nr_on_packets_acked. revert c. induction ps as [|p ps IH]; intros c; cbn -[sum_by]; [cbn; lia|].
  rewrite IH, ack_one_flight, sum_by_cons. lia.
Qed.

Lemma leave_flight_spec ps c :
  leave_flight ps c = add_in_flight (- sum_by flight ps) c.
Proof.
  unfold leave_flight. revert c. induction ps as [|p ps IH]; intros c; cbn -[sum_by].
  - destruct c. unfold add_in_flight. cbn. f_equal. lia.
  - rewrite IH, sum_by_cons. unfold flight, add_in_flight. destruct (sp_in_flight p); cbn; f_equal; lia.
Qed.

Lemma lost_spec p ps now c :
  let latest := fold_left (λ t q, q_max t (sp_time_sent q)) ps (sp_time_sent p) in
  let c1 := add_in_flight (- sum_by flight (p :: ps)) c in
  nr_on_packets_lost (p :: ps) now c = (Ok tt, if in_recovery latest c1 then c1 else reduce now c1).
Proof.
  intros latest c1. unfold nr_on_packets_lost. erewrite M_bind_ok by done. rewrite leave_flight_spec.
  cbn zeta. erewrite M_bind_ok by done. fold latest c1. by case_test.
Qed.

#[export] Instance NewReno_laws : CongestionLaws NewReno.
Proof.
  constructor; cbn -[sum_by]; intros.
  - unfold nr_on_packet_sent, flight. case_test; cbn; lia.
  - apply acked_flight.
  - destruct ps as [|p ps]; [done|]. eexists. split; [apply lost_spec|]. case_test; cbn -[sum_by]; lia.
  - unfold nr_on_packets_discarded. rewrite leave_flight_spec. cbn -[sum_by]. lia.
  - done.
  - unfold nr_on_ecn_ce. by case_test.
Qed.

(** ** Event sequences *)

Inductive cc_event : Type :=
| EvSent (p : SentPacket) | EvAcked (ps : list SentPacket) (now : Q) | EvLost (ps : list SentPacket) (now : Q)
| EvDiscarded (ps : list SentPacket) | EvPersistent | EvEcnCe (sent now : Q).

Definition apply_event (c : NewReno) (e : cc_event) : NewReno :=
  match e with
  | EvSent p => nr_on_packet_sent p c
  | EvAcked ps now => nr_on_packets_acked ps now c
  | EvLost ps now => (nr_on_packets_lost ps now c).2
  | EvDiscarded ps => nr_on_packets_discarded ps c
  | EvPersistent => nr_on_persistent_congestion c
  | EvEcnCe sent now => nr_on_ecn_ce sent now c
  end.

Definition event_packets (e : cc_event) : list SentPacket :=
  match e with EvSent p => [p] | EvAcked ps _ | EvLost ps _ | EvDiscarded ps => ps | _ => [] end.

(** The window never falls below the minimum. *)
Definition window_ok (c : NewReno) : Prop :=
  0 < nr_max_datagram_size c ∧
  MINIMUM_WINDOW_DATAGRAMS * nr_max_datagram_size c <= nr_congestion_window c.

Lemma window_ok_reduce now c : window_ok c → window_ok (reduce now c).
Proof. unfold window_ok, reduce. cbn. lia. Qed.

(** Acknowledging a packet never shrinks the window. *)
Lemma ack_one_grows c p :
  window_ok c → 0 <= sp_size p →
  window_ok (ack_one c p) ∧ nr_max_datagram_size (ack_one c p) = nr_max_datagram_size c ∧
  nr_congestion_window c <= nr_congestion_window (ack_one c p).
Proof.
  unfold window_ok, MINIMUM_WINDOW_DATAGRAMS. intros Hw Hs.
  assert (0 <= nr_max_datagram_size c * sp_size p / nr_congestion_window c) by (apply Z.div_pos; nia).
  unfold ack_one. cbn zeta. repeat case_test; cbn; lia.
Qed.

Lemma window_ok_event c e :
  window_ok c → Forall (λ p, 0 <= sp_size p) (event_packets e) →
  window_ok (apply_event c e) ∧ nr_max_datagram_size (apply_event c e) = nr_max_datagram_size c.
Proof.
  intros Hw Hs. destruct e; cbn in *.
  - unfold nr_on_packet_sent. by case_test.
  - unfold nr_on_packets_acked. revert c Hw. induction Hs as [|p ps Hp _ IH]; intros c Hw; [done|]. cbn.
    destruct (ack_one_grows c p Hw Hp) as (? & <- & _). by apply IH.
  - destruct ps as [|p ps]; [done|]. rewrite lost_spec. cbn zeta. cbn [snd]. case_test; [done|].
    split; [|done]. by apply window_ok_reduce.
  - unfold nr_on_packets_discarded. rewrite leave_flight_spec. done.
  - unfold window_ok, nr_on_persistent_congestion in *. cbn [nr_max_datagram_size nr_congestion_window]. lia.
  - unfold nr_on_ecn_ce. case_test; [done|]. split; [|done]. by apply window_ok_reduce.
Qed.

(** ** Properties *)

(** Whatever the sequence of events, the congestion window never falls
    below two datagrams, so a sender can always make progress. *)
Theorem window_never_below_minimum max_datagram_size events
  (Hmds : 0 < max_datagram_size)
  (Hsizes : Forall (λ e, Forall (λ p, 0 <= sp_size p) (event_packets e)) events) :
  2 * max_datagram_size <= nr_congestion_window (fold_left apply_event events (new_NewReno max_datagram_size)).
Proof.
  assert (H : ∀ c, window_ok c → window_ok (fold_left apply_event events c) ∧
            nr_max_datagram_size (fold_left apply_event events c) = nr_max_datagram_size c).
  { induction Hsizes as [|e events He _ IH]; intros c Hc; [done|]. cbn.
    destruct (window_ok_event c e Hc He) as [? <-]. by apply IH. }
  destruct (H (new_NewReno max_datagram_size)) as [[_ Hw] Hm].
  - unfold window_ok, new_NewReno, MINIMUM_WINDOW_DATAGRAMS, INITIAL_WINDOW_FLOOR.
    cbn [nr_max_datagram_size nr_congestion_window]. lia.
  - rewrite Hm in Hw. exact Hw.
Qed.

Definition sample_packet (n : Z) (t : Q) : SentPacket := mkSentPacket L_ONE_RTT n t true true 1200 [].

Lemma window_never_below_minimum_witness :
  2 * 1200 <= nr_congestion_window (fold_left apply_event
    [EvSent (sample_packet 0 0); EvLost [sample_packet 0 0] 1; EvPersistent; EvEcnCe 3 4] (new_NewReno 1200)).
Proof.
  apply (window_never_below_minimum 1200); [lia|].
  repeat (apply Forall_cons_2; [cbn; repeat (apply Forall_cons_2; [cbn; lia|]); apply Forall_nil_2|]). apply Forall_nil_2.
Defined.

(** The latest send time of a non-empty list of packets. *)
Definition latest_sent (p : SentPacket) (ps : list SentPacket) : Q :=
  fold_left (λ t q, q_max t (sp_time_sent q)) ps (sp_time_sent p).

Lemma latest_sent_bound p ps t :
  (sp_time_sent p <= t)%Q → Forall (λ q, (sp_time_sent q <= t)%Q) ps → (latest_sent p ps <= t)%Q.
Proof.
  unfold latest_sent. generalize (sp_time_sent p). intros q0 Hq0 Hps. revert q0 Hq0.
  induction Hps as [|q ps Hq _ IH]; intros q0 Hq0; [done|]. cbn. apply IH. unfold q_max. by case_test.
Qed.

(** A congestion signal outside a recovery period halves the window down
    to the minimum and starts a period; within it, further losses and ECN
    marks of packets sent before it began change neither the window nor the
    threshold: one reduction per round trip. *)
Theorem one_reduction_per_period c p ps now q qs sent2 now2
  (Hout : in_recovery (latest_sent p ps) c = false)
  (Hlate : Forall (λ x, (sp_time_sent x <= now)%Q) (q :: qs)) (Hmark : (sent2 <= now)%Q) :
  let c1 := (nr_on_packets_lost (p :: ps) now c).2 in
  nr_congestion_window c1 = Z.max (nr_congestion_window c / 2) (2 * nr_max_datagram_size c) ∧
  nr_slow_start_threshold c1 = Some (nr_congestion_window c1) ∧
  nr_congestion_window (nr_on_packets_lost (q :: qs) now2 c1).2 = nr_congestion_window c1 ∧
  nr_slow_start_threshold (nr_on_packets_lost (q :: qs) now2 c1).2 = nr_slow_start_threshold c1 ∧
  nr_on_ecn_ce sent2 now2 c1 = c1.
Proof.
  rewrite lost_spec. cbn zeta. fold (latest_sent p ps).
  replace (in_recovery (latest_sent p ps) (add_in_flight _ c)) with false by (symmetry; exact Hout).
  set (c1 := reduce now _). cbn [snd]. split; [done|]. split; [done|].
  apply Forall_cons in Hlate as [Hq Hqs]. pose proof (latest_sent_bound q qs now Hq Hqs) as Hl.
  rewrite lost_spec. cbn zeta. fold (latest_sent q qs).
  replace (in_recovery (latest_sent q qs) (add_in_flight _ c1)) with true by (symmetry; cbn; by apply Qleb_le).
  split; [done|]. split; [done|]. unfold nr_on_ecn_ce, in_recovery. cbn. by rewrite (proj2 (Qleb_le _ _)).
Qed.

Lemma one_reduction_per_period_witness :
  let c1 := (nr_on_packets_lost [sample_packet 0 0] 1 (new_NewReno 1200)).2 in
  nr_congestion_window c1 = Z.max (12000 / 2) (2 * 1200) ∧
  nr_slow_start_threshold c1 = Some (nr_congestion_window c1) ∧
  nr_congestion_window (nr_on_packets_lost [sample_packet 1 1] 2 c1).2 = nr_congestion_window c1 ∧
  nr_slow_start_threshold (nr_on_packets_lost [sample_packet 1 1] 2 c1).2 = nr_slow_start_threshold c1 ∧
  nr_on_ecn_ce 1 2 c1 = c1.
Proof.
  apply (one_reduction_per_period (new_NewReno 1200) (sample_packet 0 0) [] 1 (sample_packet 1 1) [] 1 2).
  - reflexivity.
  - apply Forall_cons_2; [cbn; lra|apply Forall_nil_2].
  - lra.
Defined.

Lemma avoidance_growth ps : ∀ c w0 acked,
  Forall (λ p, 0 <= sp_size p) ps → window_ok c → below_threshold c = false → 0 < w0 <= nr_congestion_window c →
  0 <= acked → nr_congestion_window c <= w0 + nr_max_datagram_size c * acked / w0 →
  let c' := fold_left ack_one ps c in
  nr_congestion_window c <= nr_congestion_window c' <= w0 + nr_max_datagram_size c * (acked + sum_by flight ps) / w0.
Proof.
  induction ps as [|p ps IH]; intros c w0 acked Hs Hw Hb Hw0 Ha Hle; cbn -[sum_by].
  { change (sum_by flight []) with 0. rewrite Z.add_0_r. lia. }
  apply Forall_cons in Hs as [Hp Hs]. destruct (ack_one_grows c p Hw Hp) as (Hw' & Hm & Hg).
  assert (Hstep : nr_congestion_window (ack_one c p) <= w0 + nr_max_datagram_size c * (acked + flight p) / w0 ∧
                  below_threshold (ack_one c p) = false).
  { destruct Hw as [Hmd _]. assert (0 <= flight p) as Hfl by (unfold flight; case_test; lia).
    assert (Hmono : nr_max_datagram_size c * acked / w0 <= nr_max_datagram_size c * (acked + flight p) / w0)
      by (apply Z.div_le_mono; nia).
    unfold ack_one. case_test; [split; [lia|done]|]. cbn zeta. case_test; [cbn; split; [lia|done]|].
    change (below_threshold (add_in_flight (- sp_size p) c)) with (below_threshold c). rewrite Hb. cbn.
    assert (Hd : nr_max_datagram_size c * sp_size p / nr_congestion_window c <= nr_max_datagram_size c * sp_size p / w0).
    { apply Z.div_le_compat_l; nia. }
    assert (Hnn : 0 <= nr_max_datagram_size c * sp_size p / nr_congestion_window c) by (apply Z.div_pos; nia).
    assert (Hf : flight p = sp_size p) by (unfold flight; by match goal with H : sp_in_flight p = true |- _ => rewrite H end).
    rewrite Hf in *. split.
    - assert (nr_max_datagram_size c * acked / w0 + nr_max_datagram_size c * sp_size p / w0
              <= nr_max_datagram_size c * (acked + sp_size p) / w0); [|lia].
      rewrite Z.mul_add_distr_l. apply Z.div_le_lower_bound; [lia|].
      pose proof (Z.mul_div_le (nr_max_datagram_size c * acked) w0 ltac:(lia)).
      pose proof (Z.mul_div_le (nr_max_datagram_size c * sp_size p) w0 ltac:(lia)). lia.
    - unfold below_threshold in *. cbn in *. destruct (nr_slow_start_threshold c); [|done]. bool_cases. apply Z.ltb_ge. lia. }
  destruct Hstep as [Hstep Hb']. assert (0 <= flight p) by (unfold flight; case_test; lia).
  specialize (IH (ack_one c p) w0 (acked + flight p) Hs Hw' Hb' ltac:(lia) ltac:(lia)). rewrite Hm in IH.
  specialize (IH Hstep). cbn zeta in IH. rewrite sum_by_cons, Z.add_assoc. lia.
Qed.

(** In congestion avoidance, acknowledging at most a window of bytes
    grows the window by at most one datagram and never shrinks it. *)
Theorem congestion_avoidance_growth c ps now
  (Hwindow : window_ok c) (Hphase : below_threshold c = false)
  (Hsizes : Forall (λ p, 0 <= sp_size p) ps)
  (Hround : sum_by flight ps <= nr_congestion_window c) :
  nr_congestion_window c <= nr_congestion_window (nr_on_packets_acked ps now c)
    <= nr_congestion_window c + nr_max_datagram_size c.
Proof.
  pose proof Hwindow as [Hm Hw]. unfold MINIMUM_WINDOW_DATAGRAMS in Hw.
  pose proof (avoidance_growth ps c (nr_congestion_window c) 0 Hsizes Hwindow Hphase ltac:(lia) ltac:(lia)) as H.
  cbn zeta in H. rewrite Z.mul_0_r, Z.div_0_l, Z.add_0_l in H by lia. specialize (H ltac:(lia)).
  unfold nr_on_packets_acked. split; [lia|]. etransitivity; [apply H|].
  assert (nr_max_datagram_size c * sum_by flight ps / nr_congestion_window c <= nr_max_datagram_size c); [|lia].
  apply Z.div_le_upper_bound; [lia|]. nia.
Qed.

Lemma congestion_avoidance_growth_witness :
  let c := mkNewReno 1200 6000 6000 (Some 6000) None in
  nr_congestion_window c <= nr_congestion_window (nr_on_packets_acked [sample_packet 1 1; sample_packet 2 1] 2 c)
    <= nr_congestion_window c + nr_max_datagram_size c.
Proof.
  intros c. apply (congestion_avoidance_growth c).
  - unfold window_ok. cbn. unfold MINIMUM_WINDOW_DATAGRAMS. lia.
  - reflexivity.
  - repeat (apply Forall_cons_2; [cbn; lia|]). apply Forall_nil_2.
  - vm_compute. discriminate.
Defined.
