(* ===== verification/Recovery.v ===== *)
(** * Loss detection (recovery.py)

    [RttEstimator] and [LossDetection] of [src/dsquic/recovery.py] (RFC 9002
    sections 5 and 6, Appendix A), over any controller of the
    [CongestionController] interface.  [_spaces] is the three-entry
    dictionary over [EncryptionLevel], iterated in the enumeration's order;
    [sent] of a space is an insertion-ordered dictionary keyed by packet
    number.  Times are rationals. *)

From S2P Require Import Prelude Frames Congestion.

(** ** Constants *)

Definition PACKET_THRESHOLD : Z := 3.
Definition TIME_THRESHOLD : Q := 9 # 8.
Definition GRANULARITY : Q := 1 # 1000.
Definition INITIAL_RTT : Q := 333 # 1000.
Definition PERSISTENT_CONGESTION_THRESHOLD : Q := 3.
Definition MAX_PTO : Q := 60.

(** ** RTT estimation *)

Record RttEstimator : Type := mkRtt {
  rtt_latest : Q; rtt_min : Q; rtt_smoothed : Q; rtt_var : Q; rtt_has_sample : bool }.

Definition new_RttEstimator (initial_rtt : Q) : RttEstimator :=
  mkRtt initial_rtt initial_rtt initial_rtt (initial_rtt / 2) false.

Definition rtt_update (sample ack_delay : Q) (r : RttEstimator) : RttEstimator :=
  if negb (rtt_has_sample r) then mkRtt sample sample sample (sample / 2) true
  else
    let m := if Qltb sample (rtt_min r) then sample else rtt_min r in
    let adjusted := if Qle_bool m (sample - ack_delay) then (sample - ack_delay)%Q else sample in
    mkRtt sample m ((7 # 8) * rtt_smoothed r + (1 # 8) * adjusted)
      ((3 # 4) * rtt_var r + (1 # 4) * Qabs (rtt_smoothed r - adjusted)) (rtt_has_sample r).

(** ** State *)

Record Space : Type := mkSpace {
  sc_sent : list (Z * SentPacket);
  sc_largest_sent : Z;
  sc_largest_acked : Z;
  sc_loss_time : option Q;
  sc_discarded : bool }.

Definition new_Space : Space := mkSpace [] (-1) (-1) None false.

Definition level_name (l : EncryptionLevel) : string :=
  match l with L_INITIAL => "INITIAL" | L_HANDSHAKE => "HANDSHAKE" | L_ONE_RTT => "ONE_RTT" end.

(** The [_spaces] dictionary. *)
Record Spaces : Type := mkSpaces { spc_initial : Space; spc_handshake : Space; spc_one_rtt : Space }.

Definition get_space (l : EncryptionLevel) (s : Spaces) : Space :=
  match l with L_INITIAL => spc_initial s | L_HANDSHAKE => spc_handshake s | L_ONE_RTT => spc_one_rtt s end.
Definition set_space (l : EncryptionLevel) (x : Space) (s : Spaces) : Spaces :=
  match l with
  | L_INITIAL => mkSpaces x (spc_handshake s) (spc_one_rtt s)
  | L_HANDSHAKE => mkSpaces (spc_initial s) x (spc_one_rtt s)
  | L_ONE_RTT => mkSpaces (spc_initial s) (spc_handshake s) x
  end.
Definition space_items (s : Spaces) : list (EncryptionLevel * Space) :=
  [(L_INITIAL, spc_initial s); (L_HANDSHAKE, spc_handshake s); (L_ONE_RTT, spc_one_rtt s)].

Record LossDetection (C : Type) : Type := mkLossDetection {
  ld_controller : C;
  ld_rtt : RttEstimator;
  ld_handshake_confirmed : bool;
  ld_is_client : bool;
  ld_max_ack_delay : Q;
  ld_pto_count : Z;
  ld_spaces : Spaces;
  ld_last_event : option Q }.
Arguments mkLossDetection {C}.
Arguments ld_controller {C}.
Arguments ld_rtt {C}.
Arguments ld_handshake_confirmed {C}.
Arguments ld_is_client {C}.
Arguments ld_max_ack_delay {C}.
Arguments ld_pto_count {C}.
Arguments ld_spaces {C}.
Arguments ld_last_event {C}.

Record AckOutcome : Type := mkAckOutcome { ao_acked : list SentPacket; ao_lost : list SentPacket }.
Record TimeoutOutcome : Type := mkTimeoutOutcome {
  to_lost : list SentPacket; to_probe_level : option EncryptionLevel }.

Section model.
Context {C : Type} `{CongestionController C}.
Abbreviation LD := (LossDetection C).

Definition new_LossDetection (controller : C) (is_client : bool) (max_ack_delay : Q) : LD :=
  mkLossDetection controller (new_RttEstimator INITIAL_RTT) false is_client max_ack_delay 0
    (mkSpaces new_Space new_Space new_Space) None.

Definition set_controller (c : C) (d : LD) : LD :=
  mkLossDetection c (ld_rtt d) (ld_handshake_confirmed d) (ld_is_client d) (ld_max_ack_delay d)
    (ld_pto_count d) (ld_spaces d) (ld_last_event d).
Definition set_rtt (r : RttEstimator) (d : LD) : LD :=
  mkLossDetection (ld_controller d) r (ld_handshake_confirmed d) (ld_is_client d) (ld_max_ack_delay d)
    (ld_pto_count d) (ld_spaces d) (ld_last_event d).
Definition set_pto_count (n : Z) (d : LD) : LD :=
  mkLossDetection (ld_controller d) (ld_rtt d) (ld_handshake_confirmed d) (ld_is_client d) (ld_max_ack_delay d)
    n (ld_spaces d) (ld_last_event d).
Definition set_last_event (t : Q) (d : LD) : LD :=
  mkLossDetection (ld_controller d) (ld_rtt d) (ld_handshake_confirmed d) (ld_is_client d) (ld_max_ack_delay d)
    (ld_pto_count d) (ld_spaces d) (Some t).
Definition put_space (l : EncryptionLevel) (x : Space) (d : LD) : LD :=
  mkLossDetection (ld_controller d) (ld_rtt d) (ld_handshake_confirmed d) (ld_is_client d) (ld_max_ack_delay d)
    (ld_pto_count d) (set_space l x (ld_spaces d)) (ld_last_event d).
Definition space_of (l : EncryptionLevel) (d : LD) : Space := get_space l (ld_spaces d).

Definition ld_on_packet_sent (packet : SentPacket) (d : LD) : LD :=
  let space := space_of (sp_level packet) d in
  let space := mkSpace (d_set (sp_packet_number packet) packet (sc_sent space))
                 (Z.max (sc_largest_sent space) (sp_packet_number packet))
                 (sc_largest_acked space) (sc_loss_time space) (sc_discarded space) in
  let d := set_last_event (sp_time_sent packet) (put_space (sp_level packet) space d) in
  set_controller (cc_on_packet_sent packet (ld_controller d)) d.

Definition largest_acked (level : EncryptionLevel) (d : LD) : Z := sc_largest_acked (space_of level d).

Definition unacked (level : EncryptionLevel) (d : LD) : list SentPacket :=
  (sort_by fst (sc_sent (space_of level d))).*2.

(** *** Losses *)

Definition loss_delay (d : LD) : Q :=
  Qmax (TIME_THRESHOLD * Qmax (rtt_latest (ld_rtt d)) (rtt_smoothed (ld_rtt d))) GRANULARITY.

Definition is_lost (largest_acked : Z) (lost_before : Q) (item : Z * SentPacket) : bool :=
  (item.1 <=? largest_acked - PACKET_THRESHOLD) || Qle_bool (sp_time_sent item.2) lost_before.

(** The loop over [sorted(space.sent)]: the dictionary, the losses and the
    earliest time at which a packet left behind would be lost. *)
Fixpoint detect_loop (largest_acked : Z) (lost_before delay : Q) (items : list (Z * SentPacket))
    (sent : list (Z * SentPacket)) (lost : list SentPacket) (loss_time : option Q)
    : list (Z * SentPacket) * list SentPacket * option Q :=
  match items with
  | [] => (sent, lost, loss_time)
  | item :: items' =>
      if item.1 >? largest_acked then detect_loop largest_acked lost_before delay items' sent lost loss_time
      else if is_lost largest_acked lost_before item then
        detect_loop largest_acked lost_before delay items' (d_del item.1 sent) (lost ++ [item.2]) loss_time
      else
        let candidate := (sp_time_sent item.2 + delay)%Q in
        let loss_time := match loss_time with
          | Some t => if Qltb candidate t then Some candidate else Some t
          | None => Some candidate
          end in
        detect_loop largest_acked lost_before delay items' sent lost loss_time
  end.

Definition pto (d : LD) : Q :=
  (rtt_smoothed (ld_rtt d) + Qmax (4 * rtt_var (ld_rtt d)) GRANULARITY + ld_max_ack_delay d)%Q.

Definition spans_persistent_congestion (lost : list SentPacket) (d : LD) : bool :=
  let eliciting := List.filter sp_ack_eliciting lost in
  match eliciting with
  | first :: _ :: _ =>
      let duration := (pto d * PERSISTENT_CONGESTION_THRESHOLD)%Q in
      let span := (sp_time_sent (List.last eliciting first) - sp_time_sent first)%Q in
      Qltb duration span
  | _ => false
  end.

Definition detect_and_remove_lost (level : EncryptionLevel) (now : Q) : M LD (list SentPacket) :=
  d ← get;
  let space := space_of level d in
  let delay := loss_delay d in
  let lost_before := (now - delay)%Q in
  let '(sent, lost, loss_time) :=
    detect_loop (sc_largest_acked space) lost_before delay (sort_by fst (sc_sent space)) (sc_sent space) [] None in
  _ ← modify (put_space level (mkSpace sent (sc_largest_sent space) (sc_largest_acked space)
                                 loss_time (sc_discarded space)));
  let in_flight_lost := List.filter sp_in_flight lost in
  _ ← match in_flight_lost with
      | [] => mret tt
      | _ =>
          _ ← zoom ld_controller set_controller (cc_on_packets_lost in_flight_lost now);
          d ← get;
          if rtt_has_sample (ld_rtt d) && spans_persistent_congestion in_flight_lost d
          then modify (λ d, set_controller (cc_on_persistent_congestion (ld_controller d)) d)
          else mret tt
      end;
  mret lost.

(** *** Acknowledgements *)

Definition in_range (low high : Z) (item : Z * SentPacket) : bool := (low <=? item.1) && (item.1 <=? high).

(** The two nested loops: each range takes its packets out of the
    dictionary, in insertion order. *)
Fixpoint ack_loop (ranges : list (Z * Z)) (sent : list (Z * SentPacket)) (newly : list SentPacket)
    : list (Z * SentPacket) * list SentPacket :=
  match ranges with
  | [] => (sent, newly)
  | (low, high) :: ranges' =>
      ack_loop ranges' (List.filter (λ i, negb (in_range low high i)) sent)
        (newly ++ (List.filter (in_range low high) sent).*2)
  end.

Definition on_ack_received (level : EncryptionLevel) (ack : Ack) (ack_delay now : Q) : M LD AckOutcome :=
  _ ← modify (set_last_event now);
  d ← get;
  let space := space_of level d in
  if ack_largest ack >? sc_largest_sent space then
    raise (AckOfUnsentPacket ("ACK for unsent packet " +:+ pretty (ack_largest ack)
                              +:+ " at " +:+ level_name level))
  else
    let '(sent, newly_acked) := ack_loop (ack_ranges ack) (sc_sent space) [] in
    _ ← modify (put_space level (mkSpace sent (sc_largest_sent space) (sc_largest_acked space)
                                   (sc_loss_time space) (sc_discarded space)));
    match sort_by sp_packet_number newly_acked with
    | [] => mret (mkAckOutcome [] [])
    | (first :: _) as newly_acked =>
        _ ← modify (put_space level (mkSpace sent (sc_largest_sent space)
                                       (Z.max (sc_largest_acked space) (ack_largest ack))
                                       (sc_loss_time space) (sc_discarded space)));
        let largest_newly := List.last newly_acked first in
        _ ← (if (sp_packet_number largest_newly =? ack_largest ack) && existsb sp_ack_eliciting newly_acked then
               let latest_rtt := (now - sp_time_sent largest_newly)%Q in
               let ack_delay := if ld_handshake_confirmed d then Qmin ack_delay (ld_max_ack_delay d) else ack_delay in
               modify (λ d, set_rtt (rtt_update latest_rtt ack_delay (ld_rtt d)) d)
             else mret tt);
        _ ← modify (set_pto_count 0);
        _ ← modify (λ d, set_controller
                           (cc_on_packets_acked (List.filter sp_in_flight newly_acked) now (ld_controller d)) d);
        lost ← detect_and_remove_lost level now;
        mret (mkAckOutcome newly_acked lost)
    end.

(** *** Timers *)

Definition pto_duration (level : EncryptionLevel) (d : LD) : Q :=
  let duration := (rtt_smoothed (ld_rtt d) + Qmax (4 * rtt_var (ld_rtt d)) GRANULARITY)%Q in
  let duration := if decide (level = L_ONE_RTT) then (duration + ld_max_ack_delay d)%Q else duration in
  Qmin (duration * inject_Z (1 ≪ ld_pto_count d)) MAX_PTO.

(** [min(candidates, key=time)]: the first of the earliest. *)
Fixpoint earliest (l : list (Q * EncryptionLevel)) : option (Q * EncryptionLevel) :=
  match l with
  | [] => None
  | x :: l' => match earliest l' with
               | Some y => if Qltb y.1 x.1 then Some y else Some x
               | None => Some x
               end
  end.

Definition earliest_loss_time (d : LD) : option (Q * EncryptionLevel) :=
  earliest (omap (λ '(level, space),
    match sc_loss_time space with
    | Some t => if sc_discarded space then None else Some (t, level)
    | None => None
    end) (space_items (ld_spaces d))).

(** The latest send time of a non-empty list of packets. *)
Definition max_time (first : SentPacket) (rest : list SentPacket) : Q :=
  fold_left (λ t p, if Qltb t (sp_time_sent p) then sp_time_sent p else t) rest (sp_time_sent first).

Definition earliest_pto (d : LD) : option (Q * EncryptionLevel) :=
  earliest (omap (λ '(level, space),
    if sc_discarded space then None
    else if bool_decide (level = L_ONE_RTT) && negb (ld_handshake_confirmed d) then None
    else match List.filter sp_ack_eliciting ((sc_sent space).*2) with
         | [] => None
         | first :: rest => Some ((max_time first rest + pto_duration level d)%Q, level)
         end) (space_items (ld_spaces d))).

Definition anti_deadlock_level (d : LD) : EncryptionLevel :=
  if sc_discarded (space_of L_INITIAL d) then L_HANDSHAKE else L_INITIAL.

Definition anti_deadlock_pto (d : LD) : option Q :=
  match ld_last_event d with
  | None => None
  | Some t => Some (t + pto_duration (anti_deadlock_level d) d)%Q
  end.

Definition loss_detection_timeout (d : LD) : option Q :=
  match earliest_loss_time d with
  | Some (t, _) => Some t
  | None =>
      match earliest_pto d with
      | Some (t, _) => Some t
      | None => if ld_is_client d && negb (ld_handshake_confirmed d) then anti_deadlock_pto d else None
      end
  end.

Definition on_loss_detection_timeout (now : Q) : M LD TimeoutOutcome :=
  _ ← modify (set_last_event now);
  d ← get;
  match earliest_loss_time d with
  | Some (_, level) =>
      lost ← detect_and_remove_lost level now; mret (mkTimeoutOutcome lost None)
  | None =>
      _ ← modify (set_pto_count (ld_pto_count d + 1));
      d ← get;
      match earliest_pto d with
      | Some (_, level) => mret (mkTimeoutOutcome [] (Some level))
      | None => mret (mkTimeoutOutcome [] (Some (anti_deadlock_level d)))
      end
  end.

(** *** Key retirement *)

Definition restart_space (level : EncryptionLevel) (d : LD) : list SentPacket * LD :=
  let space := space_of level d in
  let sent := (sc_sent space).*2 in
  let d := set_controller (cc_on_packets_discarded (List.filter sp_in_flight sent) (ld_controller d)) d in
  let d := put_space level (mkSpace [] (sc_largest_sent space) (sc_largest_acked space) None (sc_discarded space)) d in
  (sent, set_pto_count 0 d).

Definition discard_space (level : EncryptionLevel) (d : LD) : LD :=
  let space := space_of level d in
  let d := set_controller (cc_on_packets_discarded (List.filter sp_in_flight ((sc_sent space).*2)) (ld_controller d)) d in
  let d := put_space level (mkSpace [] (sc_largest_sent space) (sc_largest_acked space) None true) d in
  set_pto_count 0 d.

Definition ack_eliciting_in_flight (d : LD) : bool :=
  existsb (λ '(_, space), negb (sc_discarded space) && existsb sp_ack_eliciting ((sc_sent space).*2))
    (space_items (ld_spaces d)).
End model.
