(* ===== verification/RecoveryProofs.v ===== *)
(** * Loss detection: correctness

    Proofs about [Recovery], for every controller that obeys
    [CongestionLaws]: which packets an ACK and a timeout take out of a space,
    that each packet sent ends in exactly one of the outcomes (acknowledged,
    lost, dropped, still outstanding), that the controller's bytes in flight
    are those of the outstanding packets, and that the timers are armed when
    they must be and make progress when they fire. *)

From S2P Require Import Prelude Frames Congestion NewReno Recovery.

(** ** Lists and dictionaries *)

Lemma filter_split {A} (p : A → bool) l : l ≡ₚ List.filter p l ++ List.filter (λ x, negb (p x)) l.
Proof.
  induction l as [|x l IH]; cbn; [done|]. destruct (p x); cbn.
  - by rewrite <- IH.
  - rewrite <- Permutation_middle. by rewrite <- IH.
Qed.

Lemma filter_filter_and {A} (p q : A → bool) l :
  List.filter p (List.filter q l) = List.filter (λ x, q x && p x) l.
Proof. induction l as [|x l IH]; cbn; [done|]. destruct (q x); cbn; [destruct (p x); by rewrite IH|done]. Qed.

Lemma filter_ext_in' {A} (p q : A → bool) l : (∀ x, x ∈ l → p x = q x) → List.filter p l = List.filter q l.
Proof.
  induction l as [|x l IH]; intros H; cbn; [done|].
  rewrite (H x) by (by left). rewrite IH by (intros; apply H; by right). done.
Qed.

Lemma elem_of_filter' {A} (p : A → bool) l x : x ∈ List.filter p l ↔ x ∈ l ∧ p x = true.
Proof. rewrite !list_elem_of_In. apply filter_In. Qed.

Lemma filter_perm' {A} (p : A → bool) l k : l ≡ₚ k → List.filter p l ≡ₚ List.filter p k.
Proof.
  induction 1 as [|x l k _ IH|x y l|l k m _ IH1 _ IH2]; cbn; [done| | |by rewrite IH1].
  - destruct (p x); [by rewrite IH|done].
  - destruct (p x), (p y); try done. apply Permutation_swap.
Qed.

Lemma d_del_filter {V} k (d : list (Z * V)) :
  NoDup d.*1 → d_del k d = List.filter (λ i, negb (i.1 =? k)) d.
Proof.
  induction d as [|[k' v] d IH]; cbn; [done|]. intros [Hk Hd]%NoDup_cons. case_decide as E.
  - subst. rewrite Z.eqb_refl. cbn. rewrite (filter_ext_in' _ (λ _, true)).
    + clear. induction d as [|x d IH]; cbn; [done|]. by f_equal.
    + intros [k v'] Hin. cbn. apply negb_true_iff, Z.eqb_neq. intros ->. apply Hk, list_elem_of_fmap. by exists (k', v').
  - rewrite (proj2 (Z.eqb_neq _ _)) by congruence. cbn. by rewrite IH.
Qed.

Lemma NoDup_filter_keys {V} (p : Z * V → bool) (d : list (Z * V)) : NoDup d.*1 → NoDup (List.filter p d).*1.
Proof.
  induction d as [|[k v] d IH]; cbn; [done|]. intros [Hk Hd]%NoDup_cons. destruct (p (k, v)); [|by apply IH].
  cbn. apply NoDup_cons. split; [|by apply IH]. intros ([k' v'] & Heq & Hin)%list_elem_of_fmap. cbn in Heq. subst.
  apply Hk, list_elem_of_fmap. apply elem_of_filter' in Hin as [Hin _]. by exists (k', v').
Qed.

Lemma fold_del_filter {V} (ks : list (Z * V)) : ∀ d : list (Z * V),
  NoDup d.*1 →
  fold_left (λ d i, d_del i.1 d) ks d = List.filter (λ i, negb (existsb (λ k, k.1 =? i.1) ks)) d.
Proof.
  induction ks as [|[k v] ks IH]; intros d Hd; cbn.
  - symmetry. clear. induction d as [|x d IH]; cbn; [done|]. by f_equal.
  - rewrite IH by (rewrite d_del_filter by done; by apply NoDup_filter_keys).
    rewrite d_del_filter, filter_filter_and by done. apply filter_ext_in'. intros [k' v'] _. cbn.
    rewrite negb_orb. f_equal. by rewrite Z.eqb_sym.
Qed.

(** ** Detection *)

Definition lostb (la : Z) (lb : Q) (i : Z * SentPacket) : bool := negb (i.1 >? la) && is_lost la lb i.
Definition pendingb (la : Z) (lb : Q) (i : Z * SentPacket) : bool := negb (i.1 >? la) && negb (is_lost la lb i).

(** The earliest loss time among packets left behind. *)
Definition time_step (delay : Q) (t : option Q) (i : Z * SentPacket) : option Q :=
  let candidate := (sp_time_sent i.2 + delay)%Q in
  match t with Some t => if Qltb candidate t then Some candidate else Some t | None => Some candidate end.

Lemma detect_loop_eq la lb delay items : ∀ sent lost t,
  detect_loop la lb delay items sent lost t =
    (fold_left (λ d i, d_del i.1 d) (List.filter (lostb la lb) items) sent,
     lost ++ (List.filter (lostb la lb) items).*2,
     fold_left (time_step delay) (List.filter (pendingb la lb) items) t).
Proof.
  induction items as [|i items IH]; intros sent lost t; cbn [detect_loop]; [by rewrite app_nil_r|].
  cbn [List.filter].
  change (lostb la lb i) with (negb (i.1 >? la) && is_lost la lb i).
  change (pendingb la lb i) with (negb (i.1 >? la) && negb (is_lost la lb i)).
  destruct (i.1 >? la); cbn [negb andb]; [apply IH|].
  destruct (is_lost la lb i); cbn [negb]; rewrite IH; [|done].
  cbn. by rewrite <- app_assoc.
Qed.

Lemma detect_sent la lb delay sent :
  NoDup sent.*1 →
  let '(sent', lost, t) := detect_loop la lb delay (sort_by fst sent) sent [] None in
  sent' = List.filter (λ i, negb (lostb la lb i)) sent ∧
  lost = (List.filter (lostb la lb) (sort_by fst sent)).*2 ∧
  sent.*2 ≡ₚ lost ++ sent'.*2 ∧
  t = fold_left (time_step delay) (List.filter (pendingb la lb) (sort_by fst sent)) None.
Proof.
  intros Hd. rewrite detect_loop_eq. cbn [app].
  assert (Hs : fold_left (λ d i, d_del i.1 d) (List.filter (lostb la lb) (sort_by fst sent)) sent
               = List.filter (λ i, negb (lostb la lb i)) sent).
  { rewrite fold_del_filter by done. apply filter_ext_in'. intros i Hi. f_equal.
    apply eq_iff_eq_true. rewrite existsb_exists. split.
    - intros (j & Hj & Hk). apply list_elem_of_In, elem_of_filter' in Hj as [Hj Hl]. apply Z.eqb_eq in Hk.
      rewrite (sort_by_perm fst sent) in Hj. assert (j = i) as <-; [|done].
      destruct i as [k p], j as [k' p']. cbn in Hk. subst.
      pose proof (d_elem_get _ _ _ Hd Hi). pose proof (d_elem_get _ _ _ Hd Hj). congruence.
    - intros Hl. exists i. split; [|by rewrite Z.eqb_refl]. apply list_elem_of_In, elem_of_filter'.
      split; [|done]. by rewrite (sort_by_perm fst sent). }
  split_and!; [done|done| |done]. rewrite Hs.
  rewrite (filter_split (lostb la lb) sent) at 1. rewrite fmap_app. apply Permutation_app; [|done].
  apply Permutation_map, filter_perm'. symmetry. apply sort_by_perm.
Qed.

(** ** Acknowledgement *)

Definition in_ranges (ranges : list (Z * Z)) (i : Z * SentPacket) : bool :=
  existsb (λ r, in_range r.1 r.2 i) ranges.

Lemma ack_loop_spec ranges : ∀ sent newly,
  (ack_loop ranges sent newly).1 = List.filter (λ i, negb (in_ranges ranges i)) sent ∧
  (ack_loop ranges sent newly).2 ≡ₚ newly ++ (List.filter (in_ranges ranges) sent).*2.
Proof.
  induction ranges as [|[low high] ranges IH]; intros sent newly; cbn [ack_loop].
  - cbn. split.
    + symmetry. clear. induction sent as [|x l IH]; cbn; [done|]. by f_equal.
    + replace (List.filter _ sent) with (@nil (Z * SentPacket)); [by rewrite app_nil_r|].
      clear. induction sent as [|x l IH]; cbn; done.
  - destruct (IH (List.filter (λ i, negb (in_range low high i)) sent) (newly ++ (List.filter (in_range low high) sent).*2))
      as [-> ->]. split.
    + rewrite filter_filter_and. apply filter_ext_in'. intros i _. unfold in_ranges. cbn. by rewrite negb_orb.
    + rewrite <- app_assoc, <- fmap_app. apply Permutation_app; [done|]. apply Permutation_map.
      rewrite (filter_split (in_range low high) (List.filter (in_ranges ((low, high) :: ranges)) sent)).
      rewrite !filter_filter_and. apply Permutation_app.
      * erewrite filter_ext_in'; [done|]. intros i _. unfold in_ranges. cbn. by destruct (in_range low high i), (existsb _ _).
      * erewrite filter_ext_in'; [done|]. intros i _. unfold in_ranges. cbn. by destruct (in_range low high i), (existsb _ _).
Qed.

(** ** One space at a time *)

Section proofs.
Context {C : Type} `{CongestionLaws C}.
Abbreviation LD := (LossDetection C).
Implicit Types d : LD.

(** Everything but the controller and the space of [level] is as before. *)
Definition same_but (level : EncryptionLevel) d d' : Prop :=
  ld_rtt d' = ld_rtt d ∧ ld_handshake_confirmed d' = ld_handshake_confirmed d ∧ ld_is_client d' = ld_is_client d ∧
  ld_max_ack_delay d' = ld_max_ack_delay d ∧ ld_last_event d' = ld_last_event d ∧
  ∀ l, l ≠ level → space_of l d' = space_of l d.

Lemma space_of_put level x d : space_of level (put_space level x d) = x.
Proof. unfold space_of, put_space. cbn. by destruct level. Qed.
Lemma space_of_put_ne level l x d : l ≠ level → space_of l (put_space level x d) = space_of l d.
Proof. unfold space_of, put_space. cbn. by destruct level, l. Qed.

(** The packets a space waits for. *)
Definition outstanding (s : Space) : list SentPacket := (sc_sent s).*2.

Lemma detect_spec level now d :
  NoDup (sc_sent (space_of level d)).*1 →
  ∃ lost d', detect_and_remove_lost level now d = (Ok lost, d') ∧
    let la := sc_largest_acked (space_of level d) in
    let lb := (now - loss_delay d)%Q in
    let sent := sc_sent (space_of level d) in
    let s' := space_of level d' in
    sc_sent s' = List.filter (λ i, negb (lostb la lb i)) sent ∧
    lost = (List.filter (lostb la lb) (sort_by fst sent)).*2 ∧
    outstanding (space_of level d) ≡ₚ lost ++ outstanding s' ∧
    sc_loss_time s' = fold_left (time_step (loss_delay d)) (List.filter (pendingb la lb) (sort_by fst sent)) None ∧
    sc_largest_sent s' = sc_largest_sent (space_of level d) ∧ sc_largest_acked s' = la ∧
    sc_discarded s' = sc_discarded (space_of level d) ∧
    bytes_in_flight (ld_controller d') = bytes_in_flight (ld_controller d) - sum_by flight lost ∧
    ld_pto_count d' = ld_pto_count d ∧ same_but level d d'.
Proof.
  intros Hd. unfold detect_and_remove_lost. erewrite M_bind_ok by done. cbn zeta.
  pose proof (detect_sent (sc_largest_acked (space_of level d)) (now - loss_delay d) (loss_delay d) _ Hd) as Hdet.
  destruct (detect_loop _ _ _ _ _ _ _) as [[sent' lost] t]. destruct Hdet as (-> & Hlost & Hperm & ->).
  erewrite M_bind_ok by done. set (s' := mkSpace _ _ _ _ _).
  assert (Hres : ∃ c', ((match List.filter sp_in_flight lost with
      | [] => mret tt
      | _ => _ ← zoom ld_controller set_controller (cc_on_packets_lost (List.filter sp_in_flight lost) now);
             d ← get;
             if rtt_has_sample (ld_rtt d) && spans_persistent_congestion (List.filter sp_in_flight lost) d
             then modify (λ d, set_controller (cc_on_persistent_congestion (ld_controller d)) d) else mret tt
      end) : M LD unit) (put_space level s' d) = (Ok tt, set_controller c' (put_space level s' d)) ∧
      bytes_in_flight c' = bytes_in_flight (ld_controller d) - sum_by flight lost).
  { rewrite <- (sum_flight_filter lost). destruct (List.filter sp_in_flight lost) as [|p ps] eqn:Ef.
    - exists (ld_controller d). split; [by destruct d|]. change (sum_by flight []) with 0. lia.
    - destruct (law_lost (p :: ps) now (ld_controller d) ltac:(done)) as (c1 & Ec & Hb).
      erewrite M_bind_ok. 2: { unfold zoom. cbn [ld_controller put_space]. by rewrite Ec. }
      erewrite M_bind_ok by done. case_test.
      + exists (cc_on_persistent_congestion c1). split; [done|]. by rewrite law_persistent.
      + exists c1. done. }
  destruct Hres as (c' & Hres & Hb). erewrite M_bind_ok by exact Hres.
  exists lost, (set_controller c' (put_space level s' d)). split; [done|]. cbn zeta.
  assert (Hsp : space_of level (set_controller c' (put_space level s' d)) = s') by apply space_of_put.
  rewrite Hsp. split_and!; try done. unfold same_but. split_and!; try done.
  intros l Hl. by apply (space_of_put_ne level l s' d).
Qed.

(** The set of packets an ACK names. *)
Definition ackedb (ack : Ack) (i : Z * SentPacket) : bool := in_ranges (ack_ranges ack) i.

Lemma last_default {A} (x y : A) l : l ≠ [] → List.last l x = List.last l y.
Proof. induction l as [|z [|w l] IH]; [done|done|]. intros _. cbn. by apply IH. Qed.

Lemma bind_if_rtt {A} (b : bool) f (k : unit → M LD A) d :
  ((if b then modify (λ d, set_rtt (f (ld_rtt d)) d) else mret tt) ≫= k) d
  = k tt (set_rtt (if b then f (ld_rtt d) else ld_rtt d) d).
Proof. destruct b; [done|]. by destruct d. Qed.

Lemma ack_spec level ack delay now d :
  NoDup (sc_sent (space_of level d)).*1 →
  let sent := sc_sent (space_of level d) in
  let named := List.filter (ackedb ack) sent in
  (sc_largest_sent (space_of level d) < ack_largest ack ∧
     ∃ msg, on_ack_received level ack delay now d = (Raise (AckOfUnsentPacket msg), set_last_event now d)) ∨
  (ack_largest ack <= sc_largest_sent (space_of level d) ∧
   ∃ o d', on_ack_received level ack delay now d = (Ok o, d') ∧
     let s' := space_of level d' in
     ao_acked o = sort_by sp_packet_number (ao_acked o) ∧ ao_acked o ≡ₚ named.*2 ∧
     outstanding (space_of level d) ≡ₚ ao_acked o ++ ao_lost o ++ outstanding s' ∧
     (∀ i, i ∈ sc_sent s' → i ∈ sent ∧ ackedb ack i = false) ∧ NoDup (sc_sent s').*1 ∧
     sc_largest_sent s' = sc_largest_sent (space_of level d) ∧
     sc_largest_acked s' = (if (length named =? 0)%nat then sc_largest_acked (space_of level d)
                            else Z.max (sc_largest_acked (space_of level d)) (ack_largest ack)) ∧
     sc_discarded s' = sc_discarded (space_of level d) ∧
     bytes_in_flight (ld_controller d') =
       bytes_in_flight (ld_controller d) - sum_by flight (ao_acked o) - sum_by flight (ao_lost o) ∧
     (∀ l, l ≠ level → space_of l d' = space_of l d) ∧
     (ao_acked o ≠ [] → ld_pto_count d' = 0) ∧
     (ao_acked o = [] → ao_lost o = []) ∧
     (ao_acked o ≠ [] → ∀ p, p ∈ ao_lost o ↔ ∃ i, i ∈ sent ∧ ackedb ack i = false ∧
        lostb (sc_largest_acked s') (now - loss_delay d') i = true ∧ i.2 = p)).
Proof.
  intros Hd sent named. unfold on_ack_received. erewrite M_bind_ok by done. erewrite M_bind_ok by done. cbn zeta.
  change (space_of level (set_last_event now d)) with (space_of level d). fold sent.
  rewrite Z.gtb_ltb. case_test; [left; split; [done|eexists; reflexivity]|]. right. split; [done|].
  pose proof (ack_loop_spec (ack_ranges ack) sent []) as [Hsent Hnewly].
  destruct (ack_loop (ack_ranges ack) sent []) as [sent1 newly]. cbn [fst snd app] in Hsent, Hnewly.
  erewrite M_bind_ok by done.
  assert (Hsplit : sent.*2 ≡ₚ newly ++ sent1.*2).
  { rewrite Hnewly, Hsent, <- fmap_app. apply Permutation_map. apply filter_split. }
  assert (Hin1 : ∀ i, i ∈ sent1 → i ∈ sent ∧ ackedb ack i = false).
  { rewrite Hsent. intros i [? Hb]%elem_of_filter'. split; [done|]. by apply negb_true_iff. }
  assert (Hd1 : NoDup sent1.*1) by (rewrite Hsent; by apply NoDup_filter_keys).
  assert (Hlen : length newly = length named).
  { rewrite (Permutation_length Hnewly). unfold named. by rewrite length_fmap. }
  pose proof (sort_by_perm sp_packet_number newly) as Hsort.
  pose proof (sort_by_sorted sp_packet_number newly) as Hsorted.
  destruct (sort_by sp_packet_number newly) as [|first rest] eqn:Es.
  - apply Permutation_nil in Hsort. subst newly. do 2 eexists. split; [reflexivity|].
    rewrite space_of_put. cbn [ao_acked ao_lost app]. rewrite <- Hlen. cbn [length Nat.eqb].
    change (sum_by flight []) with 0.
    split_and!; try done.
    + cbn [ld_controller put_space set_last_event]. lia.
    + intros l Hl. by apply (space_of_put_ne level l _ (set_last_event now d)).
  - set (acked := first :: rest) in *. erewrite M_bind_ok by done.
    set (la := Z.max (sc_largest_acked (space_of level d)) (ack_largest ack)).
    set (s1 := mkSpace sent1 (sc_largest_sent (space_of level d)) la _ _).
    set (d1 := put_space level s1 _).
    rewrite bind_if_rtt. set (r := if _ && _ then _ else _). erewrite M_bind_ok by done. erewrite M_bind_ok by done.
    set (d2 := set_controller _ _).
    assert (Hsp2 : space_of level d2 = s1) by apply (space_of_put level s1).
    destruct (detect_spec level now d2) as (lost & d' & Edet & Hs' & Hlost & Hperm & _ & Hls & Hla & Hdis & Hbif & Hpto & Hsame).
    { by rewrite Hsp2. }
    erewrite M_bind_ok by exact Edet. do 2 eexists. split; [reflexivity|]. cbn [ao_acked ao_lost].
    rewrite Hsp2 in *. unfold s1 in Hs', Hls, Hla, Hdis. cbn in Hs', Hls, Hla, Hdis.
    split_and!.
    + rewrite sort_by_id; [done|]. exact Hsorted.
    + rewrite Hsort. exact Hnewly.
    + unfold outstanding. fold sent. rewrite Hsplit, Hsort. apply Permutation_app; [done|]. exact Hperm.
    + intros i Hi. rewrite Hs' in Hi. apply elem_of_filter' in Hi as [Hi _]. auto.
    + rewrite Hs'. by apply NoDup_filter_keys.
    + done.
    + rewrite Hla. rewrite <- Hlen, <- (Permutation_length Hsort). done.
    + done.
    + rewrite Hbif. cbn [ld_controller d2 set_controller]. rewrite law_acked, sum_flight_filter. done.
    + intros l Hl. destruct Hsame as (_ & _ & _ & _ & _ & Hsame). rewrite Hsame by done.
      change (space_of l d2) with (space_of l d1). unfold d1. by rewrite !space_of_put_ne.
    + intros _. rewrite Hpto. done.
    + done.
    + intros _ p. destruct Hsame as (Hr' & _). unfold loss_delay in *. rewrite Hr', Hla, Hlost. cbn [s1 sc_sent sc_largest_acked]. rewrite list_elem_of_fmap.
      setoid_rewrite elem_of_filter'. setoid_rewrite (sort_by_perm fst sent1). split.
      * intros (i & -> & Hi & Hl). exists i. destruct (Hin1 i Hi). done.
      * intros (i & Hi & Ha & Hl & <-). exists i. split; [done|]. split; [|done]. rewrite Hsent.
        apply elem_of_filter'. split; [done|]. by apply negb_true_iff.
Qed.

(** ** All spaces *)

Definition all_outstanding d : list SentPacket :=
  outstanding (space_of L_INITIAL d) ++ outstanding (space_of L_HANDSHAKE d) ++ outstanding (space_of L_ONE_RTT d).

(** Taking packets out of one space takes them out of the whole. *)
Lemma all_outstanding_step level d d' gone :
  outstanding (space_of level d) ≡ₚ gone ++ outstanding (space_of level d') →
  (∀ l, l ≠ level → space_of l d' = space_of l d) → all_outstanding d ≡ₚ gone ++ all_outstanding d'.
Proof.
  intros Hl Hother. unfold all_outstanding. destruct level; rewrite ?(Hother L_INITIAL), ?(Hother L_HANDSHAKE), ?(Hother L_ONE_RTT) by done;
    rewrite Hl.
  - by rewrite <- app_assoc.
  - rewrite <- app_assoc, !(app_assoc _ gone), (Permutation_app_comm _ gone), <- !app_assoc. done.
  - rewrite (app_assoc (outstanding (space_of L_HANDSHAKE d)) gone), (Permutation_app_comm _ gone), <- !app_assoc.
    rewrite (app_assoc _ gone), (Permutation_app_comm _ gone), <- !app_assoc. done.
Qed.

Definition space_ok (level : EncryptionLevel) (s : Space) : Prop :=
  NoDup (sc_sent s).*1 ∧
  (∀ i, i ∈ sc_sent s → i.1 = sp_packet_number i.2 ∧ sp_level i.2 = level ∧ i.1 <= sc_largest_sent s) ∧
  sc_largest_acked s <= sc_largest_sent s.

Record ld_inv d : Prop := mk_ld_inv {
  li_spaces : ∀ level, space_ok level (space_of level d);
  li_flight : bytes_in_flight (ld_controller d) = sum_by flight (all_outstanding d) }.

(** A step that only took [gone] out of the space of [level]. *)
Lemma ld_inv_step level d d' gone :
  ld_inv d →
  outstanding (space_of level d) ≡ₚ gone ++ outstanding (space_of level d') →
  (∀ l, l ≠ level → space_of l d' = space_of l d) →
  space_ok level (space_of level d') →
  bytes_in_flight (ld_controller d') = bytes_in_flight (ld_controller d) - sum_by flight gone →
  ld_inv d' ∧ all_outstanding d ≡ₚ gone ++ all_outstanding d'.
Proof.
  intros [Hsp Hfl] Hout Hother Hok Hbif. pose proof (all_outstanding_step _ _ _ _ Hout Hother) as Hall.
  split; [|done]. constructor.
  - intros l. destruct (decide (l = level)) as [->|Hne]; [done|]. by rewrite Hother.
  - rewrite Hbif, Hfl, (sum_by_perm _ _ _ Hall), sum_by_app. lia.
Qed.

Lemma ld_inv_new c is_client delay :
  bytes_in_flight c = 0 → ld_inv (new_LossDetection c is_client delay).
Proof.
  intros Hc. constructor; [|exact Hc]. intros []; (split; [apply NoDup_nil_2|]; split; [|done]); intros i Hi; by apply elem_of_nil in Hi.
Qed.

Lemma inv_sent p d :
  ld_inv d → sc_largest_sent (space_of (sp_level p) d) < sp_packet_number p →
  ld_inv (ld_on_packet_sent p d) ∧ all_outstanding (ld_on_packet_sent p d) ≡ₚ p :: all_outstanding d.
Proof.
  intros [Hsp Hfl] Hnew. destruct (Hsp (sp_level p)) as (Hd & Hin & Hla).
  assert (Hfresh : sp_packet_number p ∉ (sc_sent (space_of (sp_level p) d)).*1).
  { intros ([k q] & Heq & Hk)%list_elem_of_fmap. cbn in Heq. subst. destruct (Hin _ Hk) as (_ & _ & ?). cbn in *. lia. }
  set (d' := ld_on_packet_sent p d).
  assert (Hs' : space_of (sp_level p) d' = mkSpace (sc_sent (space_of (sp_level p) d) ++ [(sp_packet_number p, p)])
     (Z.max (sc_largest_sent (space_of (sp_level p) d)) (sp_packet_number p)) (sc_largest_acked (space_of (sp_level p) d))
     (sc_loss_time (space_of (sp_level p) d)) (sc_discarded (space_of (sp_level p) d))).
  { unfold d', ld_on_packet_sent. cbn zeta. unfold space_of at 1. cbn [ld_spaces set_controller set_last_event put_space].
    rewrite d_set_new by done. by destruct (sp_level p). }
  assert (Hother : ∀ l, l ≠ sp_level p → space_of l d' = space_of l d).
  { intros l Hl. unfold d', ld_on_packet_sent, space_of. cbn. by destruct (sp_level p), l. }
  assert (Hall : all_outstanding d' ≡ₚ [p] ++ all_outstanding d).
  { apply (all_outstanding_step (sp_level p)); [|intros l Hl; symmetry; by apply Hother].
    rewrite Hs'. unfold outstanding. cbn [sc_sent]. rewrite fmap_app. cbn. by rewrite (Permutation_app_comm _ [p]). }
  split; [|exact Hall]. constructor.
  - intros l. destruct (decide (l = sp_level p)) as [->|Hne]; [|by rewrite Hother]. rewrite Hs'. split_and!; cbn.
    + rewrite fmap_app. apply NoDup_app. split; [done|]. cbn. split; [|apply NoDup_singleton]. set_solver.
    + intros i [Hi|Hi]%elem_of_app.
      * destruct (Hin i Hi) as (? & ? & ?). split_and!; [done|done|lia].
      * apply list_elem_of_singleton in Hi as ->. cbn. split_and!; [done|done|lia].
    + lia.
  - rewrite (sum_by_perm _ _ _ Hall), sum_by_app, <- Hfl. cbn [ld_controller d' ld_on_packet_sent set_controller].
    rewrite law_sent. unfold sum_by. cbn. lia.
Qed.

Lemma inv_ack level ack delay now d o d' :
  ld_inv d → on_ack_received level ack delay now d = (Ok o, d') →
  ld_inv d' ∧ all_outstanding d ≡ₚ (ao_acked o ++ ao_lost o) ++ all_outstanding d'.
Proof.
  intros Hi E. destruct (li_spaces _ Hi level) as (Hd & Hin & Hla).
  destruct (ack_spec level ack delay now d Hd) as [(_ & msg & E')|(Hle & o' & d1 & E' & Hsp)]; [congruence|].
  rewrite E' in E. injection E as -> ->. cbn zeta in Hsp.
  destruct Hsp as (_ & _ & Hout & Hsub & Hd' & Hls & Hla' & _ & Hbif & Hother & _).
  apply (ld_inv_step level); try done.
  - by rewrite <- app_assoc.
  - split_and!; [done| |].
    + intros i Hi'. destruct (Hsub i Hi') as [Hi'' _]. rewrite Hls. by apply Hin.
    + rewrite Hls, Hla'. case_test; lia.
  - rewrite Hbif, sum_by_app. lia.
Qed.

Lemma inv_detect level now d lost d' :
  ld_inv d → detect_and_remove_lost level now d = (Ok lost, d') →
  ld_inv d' ∧ all_outstanding d ≡ₚ lost ++ all_outstanding d'.
Proof.
  intros Hi E. destruct (li_spaces _ Hi level) as (Hd & Hin & Hla).
  destruct (detect_spec level now d Hd) as (lost' & d1 & E' & Hs' & _ & Hout & _ & Hls & Hla' & _ & Hbif & _ & Hsame).
  rewrite E' in E. injection E as -> ->. apply (ld_inv_step level); try done; [by destruct Hsame as (_ & _ & _ & _ & _ & ?)|].
  split_and!.
  - rewrite Hs'. by apply NoDup_filter_keys.
  - intros i Hi'. rewrite Hs' in Hi'. apply elem_of_filter' in Hi' as [Hi' _]. rewrite Hls. by apply Hin.
  - by rewrite Hls, Hla'.
Qed.

(** Changing nothing the invariant mentions. *)
Lemma ld_inv_same d d' :
  ld_spaces d' = ld_spaces d → bytes_in_flight (ld_controller d') = bytes_in_flight (ld_controller d) →
  ld_inv d → ld_inv d' ∧ all_outstanding d' = all_outstanding d.
Proof.
  intros Hs Hb [Hsp Hfl]. assert (Heq : all_outstanding d' = all_outstanding d) by (unfold all_outstanding, space_of; by rewrite Hs).
  split; [|done]. constructor; [|by rewrite Hb, Hfl, Heq]. unfold space_of. by rewrite Hs.
Qed.

Lemma inv_timeout now d o d' :
  ld_inv d → on_loss_detection_timeout now d = (Ok o, d') →
  ld_inv d' ∧ all_outstanding d ≡ₚ to_lost o ++ all_outstanding d'.
Proof.
  intros Hi. destruct (ld_inv_same d (set_last_event now d) eq_refl eq_refl Hi) as [Hi1 Heq1].
  unfold on_loss_detection_timeout. do 2 erewrite M_bind_ok by done.
  destruct (earliest_loss_time (set_last_event now d)) as [[t level]|].
  - intros (lost & d1 & E & E2)%M_bind_ok_inv. injection E2 as <- <-. rewrite <- Heq1. by apply (inv_detect level now).
  - do 2 erewrite M_bind_ok by done.
    destruct (ld_inv_same d (set_pto_count (ld_pto_count (set_last_event now d) + 1) (set_last_event now d)) eq_refl eq_refl Hi) as [Hi2 Heq2].
    destruct (earliest_pto _) as [[t level]|]; intros E; injection E as <- <-; (split; [done|]); cbn [to_lost app]; by rewrite <- Heq2.
Qed.

Lemma inv_clear level d (disc : bool) :
  ld_inv d →
  let gone := outstanding (space_of level d) in
  let d' := set_pto_count 0 (put_space level
    (mkSpace [] (sc_largest_sent (space_of level d)) (sc_largest_acked (space_of level d)) None disc)
    (set_controller (cc_on_packets_discarded (List.filter sp_in_flight gone) (ld_controller d)) d)) in
  ld_inv d' ∧ all_outstanding d ≡ₚ gone ++ all_outstanding d'.
Proof.
  intros Hi gone d'. destruct (li_spaces _ Hi level) as (Hd & Hin & Hla).
  assert (Hs' : space_of level d' = mkSpace [] (sc_largest_sent (space_of level d)) (sc_largest_acked (space_of level d)) None disc)
    by (unfold d', space_of; by destruct level).
  apply (ld_inv_step level); [done|..].
  - rewrite Hs'. unfold gone, outstanding. cbn. by rewrite app_nil_r.
  - intros l Hl. unfold d', space_of. cbn. by destruct level, l.
  - rewrite Hs'. split; [apply NoDup_nil_2|]. split; [|done]. intros i Hi'. by apply elem_of_nil in Hi'.
  - unfold d'. cbn [ld_controller set_pto_count put_space set_controller]. by rewrite law_discarded, sum_flight_filter.
Qed.
End proofs.

(** ** Runs

    Loss detection with the history of every packet: what was sent, and what
    each call reported acknowledged, lost or dropped with its keys. *)

Record trace (C : Type) : Type := mkTrace {
  tr_ld : LossDetection C;
  tr_sent : list SentPacket;
  tr_acked : list SentPacket;
  tr_lost : list SentPacket;
  tr_dropped : list SentPacket }.
Arguments mkTrace {C}.
Arguments tr_ld {C}.
Arguments tr_sent {C}.
Arguments tr_acked {C}.
Arguments tr_lost {C}.
Arguments tr_dropped {C}.

Section runs.
Context {C : Type} `{CongestionLaws C}.
Implicit Types d : LossDetection C.
Implicit Types t : trace C.

Definition mark_confirmed d : LossDetection C :=
  mkLossDetection (ld_controller d) (ld_rtt d) true (ld_is_client d) (ld_max_ack_delay d) (ld_pto_count d)
    (ld_spaces d) (ld_last_event d).

(** Packet numbers grow in each space, as the connection assigns them. *)
Inductive ld_step : trace C → trace C → Prop :=
| ls_sent t p :
    sc_largest_sent (space_of (sp_level p) (tr_ld t)) < sp_packet_number p →
    ld_step t (mkTrace (ld_on_packet_sent p (tr_ld t)) (p :: tr_sent t) (tr_acked t) (tr_lost t) (tr_dropped t))
| ls_ack t level ack delay now o d' :
    on_ack_received level ack delay now (tr_ld t) = (Ok o, d') →
    ld_step t (mkTrace d' (tr_sent t) (ao_acked o ++ tr_acked t) (ao_lost o ++ tr_lost t) (tr_dropped t))
| ls_timeout t now o d' :
    on_loss_detection_timeout now (tr_ld t) = (Ok o, d') →
    ld_step t (mkTrace d' (tr_sent t) (tr_acked t) (to_lost o ++ tr_lost t) (tr_dropped t))
| ls_restart t level :
    ld_step t (mkTrace (restart_space level (tr_ld t)).2 (tr_sent t) (tr_acked t) (tr_lost t)
                 ((restart_space level (tr_ld t)).1 ++ tr_dropped t))
| ls_discard t level :
    ld_step t (mkTrace (discard_space level (tr_ld t)) (tr_sent t) (tr_acked t) (tr_lost t)
                 (outstanding (space_of level (tr_ld t)) ++ tr_dropped t))
| ls_ecn t sent now :
    ld_step t (mkTrace (set_controller (cc_on_ecn_ce sent now (ld_controller (tr_ld t))) (tr_ld t))
                 (tr_sent t) (tr_acked t) (tr_lost t) (tr_dropped t))
| ls_confirm t :
    ld_step t (mkTrace (mark_confirmed (tr_ld t)) (tr_sent t) (tr_acked t) (tr_lost t) (tr_dropped t)).

Inductive ld_reachable (c : C) (is_client : bool) (delay : Q) : trace C → Prop :=
| lr_init : ld_reachable c is_client delay (mkTrace (new_LossDetection c is_client delay) [] [] [] [])
| lr_step t t' : ld_reachable c is_client delay t → ld_step t t' → ld_reachable c is_client delay t'.

Definition packet_id (p : SentPacket) : EncryptionLevel * Z := (sp_level p, sp_packet_number p).

Record trace_inv t : Prop := mk_trace_inv {
  ti_ld : ld_inv (tr_ld t);
  ti_split : tr_sent t ≡ₚ all_outstanding (tr_ld t) ++ tr_acked t ++ tr_lost t ++ tr_dropped t;
  ti_ids : NoDup (packet_id <$> tr_sent t);
  ti_largest : ∀ p, p ∈ tr_sent t → sp_packet_number p <= sc_largest_sent (space_of (sp_level p) (tr_ld t)) }.

(** The largest number sent in a space only grows. *)
Definition largest_grows d d' : Prop :=
  ∀ l, sc_largest_sent (space_of l d) <= sc_largest_sent (space_of l d').

Lemma perm_move {A} (s o o' g a l dr : list A) :
  s ≡ₚ o ++ a ++ l ++ dr → o ≡ₚ g ++ o' →
  s ≡ₚ o' ++ (g ++ a) ++ l ++ dr ∧ s ≡ₚ o' ++ a ++ (g ++ l) ++ dr ∧ s ≡ₚ o' ++ a ++ l ++ g ++ dr.
Proof.
  intros -> ->. rewrite <- !app_assoc.
  assert (Hc : ∀ x y z : list A, x ++ y ++ z ≡ₚ y ++ x ++ z) by (intros; rewrite !app_assoc; by rewrite (Permutation_app_comm x y)).
  split_and!.
  - apply Hc.
  - rewrite Hc. apply Permutation_app_head. apply Hc.
  - rewrite Hc. apply Permutation_app_head. rewrite Hc. apply Permutation_app_head. apply Hc.
Qed.

(** A step that sends nothing and moves [gone] to one of the outcomes. *)
Lemma trace_inv_step t d' acked lost dropped :
  trace_inv t → ld_inv d' → largest_grows (tr_ld t) d' →
  tr_sent t ≡ₚ all_outstanding d' ++ acked ++ lost ++ dropped →
  trace_inv (mkTrace d' (tr_sent t) acked lost dropped).
Proof.
  intros [] Hi Hg Hp. constructor; cbn; try done. intros p Hp'. etransitivity; [by apply ti_largest0|apply Hg].
Qed.

Lemma detect_largest level now d lost d' :
  ld_inv d → detect_and_remove_lost level now d = (Ok lost, d') → largest_grows d d'.
Proof.
  intros Hi E. destruct (li_spaces _ Hi level) as (Hd & _).
  destruct (detect_spec level now d Hd) as (lost' & d1 & E' & _ & _ & _ & _ & Hls & _ & _ & _ & _ & Hsame).
  rewrite E' in E. injection E as -> ->. intros l. destruct (decide (l = level)) as [->|Hne]; [lia|].
  destruct Hsame as (_ & _ & _ & _ & _ & Hsame). rewrite Hsame by done. lia.
Qed.

Lemma inv_step t t' : trace_inv t → ld_step t t' → trace_inv t'.
Proof.
  intros Ht Hstep. pose proof Ht as []. destruct Hstep.
  - destruct (inv_sent p (tr_ld t) ti_ld0 H1) as [Hi Hall]. constructor; cbn; [done| | |].
    + rewrite ti_split0, Hall. done.
    + apply NoDup_cons. split; [|done]. intros (q & Heq & Hq)%list_elem_of_fmap. injection Heq as Hl Hn.
      specialize (ti_largest0 q Hq). rewrite <- Hl, <- Hn in ti_largest0. lia.
    + assert (Hgrow : ∀ l, sc_largest_sent (space_of l (tr_ld t)) <= sc_largest_sent (space_of l (ld_on_packet_sent p (tr_ld t)))).
      { intros l. unfold ld_on_packet_sent, space_of. cbn. destruct (sp_level p), l; cbn; lia. }
      intros q [->|Hq]%elem_of_cons.
      * unfold ld_on_packet_sent, space_of. cbn. destruct (sp_level p); cbn; lia.
      * etransitivity; [by apply ti_largest0|apply Hgrow].
  - destruct (inv_ack _ _ _ _ _ _ _ ti_ld0 H1) as [Hi Hall]. apply trace_inv_step; try done.
    + destruct (li_spaces _ ti_ld0 level) as (Hd & _).
      destruct (ack_spec level ack delay now _ Hd) as [(_ & msg & E')|(Hle & o' & d1 & E' & Hsp)]; [congruence|].
      rewrite E' in H1. injection H1 as -> ->. destruct Hsp as (_ & _ & _ & _ & _ & Hls & _ & _ & _ & Hother & _).
      intros l. destruct (decide (l = level)) as [->|Hne]; [lia|]. rewrite Hother by done. lia.
    + rewrite <- app_assoc in Hall. destruct (perm_move _ _ _ _ _ _ _ ti_split0 Hall) as [Hp _].
      by destruct (perm_move _ _ _ _ _ _ _ Hp (Permutation_refl _)) as (_ & ? & _).
  - destruct (inv_timeout _ _ _ _ ti_ld0 H1) as [Hi Hall]. apply trace_inv_step; try done.
    + unfold on_loss_detection_timeout in H1. do 2 erewrite M_bind_ok in H1 by done.
      destruct (earliest_loss_time _) as [[x level]|].
      * apply M_bind_ok_inv in H1 as (lost & d1 & E & E2). injection E2 as _ <-.
        destruct (ld_inv_same (tr_ld t) (set_last_event now (tr_ld t)) eq_refl eq_refl ti_ld0) as [Hi1 _].
        intros l. apply (detect_largest _ _ _ _ _ Hi1 E l).
      * do 2 erewrite M_bind_ok in H1 by done. destruct (earliest_pto _) as [[x level]|]; injection H1 as _ <-; intros l; by cbn.
    + by destruct (perm_move _ _ _ _ _ _ _ ti_split0 Hall) as (_ & ? & _).
  - destruct (inv_clear level (tr_ld t) (sc_discarded (space_of level (tr_ld t))) ti_ld0) as [Hi Hall].
    apply trace_inv_step; try done.
    + intros l. unfold restart_space, space_of. cbn. by destruct level, l.
    + by destruct (perm_move _ _ _ _ _ _ _ ti_split0 Hall) as (_ & _ & ?).
  - destruct (inv_clear level (tr_ld t) true ti_ld0) as [Hi Hall]. apply trace_inv_step; try done.
    + intros l. unfold discard_space, space_of. cbn. by destruct level, l.
    + by destruct (perm_move _ _ _ _ _ _ _ ti_split0 Hall) as (_ & _ & ?).
  - destruct (ld_inv_same (tr_ld t) (set_controller (cc_on_ecn_ce sent now (ld_controller (tr_ld t))) (tr_ld t)) eq_refl (law_ecn_ce _ _ _) ti_ld0) as [Hi Heq].
    apply trace_inv_step; try done. by intros l.
  - destruct (ld_inv_same (tr_ld t) (mark_confirmed (tr_ld t)) eq_refl eq_refl ti_ld0) as [Hi Heq].
    apply trace_inv_step; try done. by intros l.
Qed.

Lemma ld_reachable_inv c is_client delay t :
  bytes_in_flight c = 0 → ld_reachable c is_client delay t → trace_inv t.
Proof.
  intros Hc. induction 1 as [|t t' _ IH Hstep]; [|by eapply inv_step].
  constructor; cbn; [by apply ld_inv_new|done|apply NoDup_nil_2|]. by intros p ?%elem_of_nil.
Qed.
End runs.

(** ** The loss timer *)

Lemma time_steps_spec delay l t0 :
  match fold_left (time_step delay) l t0 with
  | None => l = [] ∧ t0 = None
  | Some t => (∀ i, i ∈ l → (t <= sp_time_sent i.2 + delay)%Q) ∧ (∀ u, t0 = Some u → (t <= u)%Q) ∧
              (t0 = Some t ∨ ∃ i, i ∈ l ∧ t = (sp_time_sent i.2 + delay)%Q)
  end.
Proof.
  revert t0. induction l as [|i l IH]; intros t0; cbn [fold_left].
  { destruct t0 as [t|]; [|done]. split_and!; [by intros i ?%elem_of_nil|intros u [= ->]; lra|by left]. }
  specialize (IH (time_step delay t0 i)).
  assert (Hs : ∃ u, time_step delay t0 i = Some u ∧ (u <= sp_time_sent i.2 + delay)%Q ∧ (∀ v, t0 = Some v → (u <= v)%Q) ∧
                    (t0 = Some u ∨ u = (sp_time_sent i.2 + delay)%Q)).
  { unfold time_step. destruct t0 as [v|]; [case_test; q_cases; eexists; (split; [done|]); (split; [lra|]); (split; [intros w [= <-]; lra|])|].
    - by right.
    - by left.
    - eexists. split; [done|]. split; [lra|]. split; [done|by right]. }
  destruct Hs as (u & Hu & Hle & Hold & Hwho). rewrite Hu in IH |- *.
  destruct (fold_left (time_step delay) l (Some u)) as [t|]; [|by destruct IH].
  destruct IH as (H1 & H2 & H3). specialize (H2 u eq_refl). split; [|split].
  - intros j [->|Hj]%elem_of_cons; [lra|auto].
  - intros v Hv. specialize (Hold v Hv). lra.
  - destruct H3 as [[= <-]|(j & Hj & ->)].
    + destruct Hwho as [?| ->]; [by left|]. right. exists i. split; [by left|done].
    + right. exists j. split; [by right|done].
Qed.

Lemma fmap_snd_elem {A B} (l : list (A * B)) x : x ∈ l.*2 ↔ ∃ i, i ∈ l ∧ i.2 = x.
Proof. rewrite list_elem_of_fmap. split; intros (i & ? & ?); eauto. Qed.

Section timers.
Context {C : Type} `{CongestionLaws C}.
Implicit Types d : LossDetection C.

(** RFC 9002 section 6.1: behind the largest acknowledged, by packet count or
    by time. *)
Definition declared_lost (la : Z) (lost_before : Q) (p : SentPacket) : Prop :=
  sp_packet_number p <= la ∧
  (sp_packet_number p <= la - PACKET_THRESHOLD ∨ (sp_time_sent p <= lost_before)%Q).

Lemma lostb_iff la lb i :
  i.1 = sp_packet_number i.2 → lostb la lb i = true ↔ declared_lost la lb i.2.
Proof.
  intros Hk. unfold lostb, is_lost, declared_lost. rewrite Hk, andb_true_iff, negb_true_iff, Z.gtb_ltb, Z.ltb_ge, orb_true_iff, Z.leb_le, Qleb_le.
  done.
Qed.

Lemma pendingb_iff la lb i :
  pendingb la lb i = true ↔ i.1 <= la ∧ lostb la lb i = false.
Proof.
  unfold pendingb, lostb. rewrite andb_true_iff, !negb_true_iff, Z.gtb_ltb, Z.ltb_ge. split.
  - intros [? ->]. split; [done|]. apply andb_false_r.
  - intros [Hle Hl]. split; [done|]. rewrite (proj2 (Z.ltb_ge _ _)) in Hl by done. done.
Qed.

(** The whole contract of detection, in terms of packets. *)
Lemma detect_declares level now d :
  space_ok level (space_of level d) →
  let la := sc_largest_acked (space_of level d) in
  let lost_before := (now - loss_delay d)%Q in
  ∃ lost d', detect_and_remove_lost level now d = (Ok lost, d') ∧
    (∀ p, p ∈ lost ↔ p ∈ outstanding (space_of level d) ∧ declared_lost la lost_before p) ∧
    (∀ p, p ∈ outstanding (space_of level d') ↔ p ∈ outstanding (space_of level d) ∧ ¬ declared_lost la lost_before p) ∧
    match sc_loss_time (space_of level d') with
    | Some t => (now < t)%Q ∧ ∀ p, p ∈ outstanding (space_of level d') → sp_packet_number p <= la →
                                   (t <= sp_time_sent p + loss_delay d)%Q
    | None => ∀ p, p ∈ outstanding (space_of level d') → la < sp_packet_number p
    end.
Proof.
  intros (Hd & Hin & _) la lb. destruct (detect_spec level now d Hd) as (lost & d' & E & Hs' & Hlost & _ & Ht & _).
  fold la in Hs', Hlost, Ht. fold lb in Hs', Hlost, Ht. exists lost, d'. split; [done|].
  assert (Hkey : ∀ i, i ∈ sc_sent (space_of level d) → lostb la lb i = true ↔ declared_lost la lb i.2).
  { intros i Hi. apply lostb_iff. by destruct (Hin i Hi). }
  assert (Hkept : ∀ p, p ∈ outstanding (space_of level d') ↔
            ∃ i, i ∈ sc_sent (space_of level d) ∧ lostb la lb i = false ∧ i.2 = p).
  { intros p. unfold outstanding. rewrite fmap_snd_elem, Hs'. setoid_rewrite elem_of_filter'. setoid_rewrite negb_true_iff.
    split; [intros (i & [? ?] & ?)|intros (i & ? & ? & ?)]; eauto. }
  split_and!.
  - intros p. rewrite Hlost. unfold outstanding. rewrite !fmap_snd_elem. setoid_rewrite elem_of_filter'.
    setoid_rewrite (sort_by_perm fst (sc_sent (space_of level d))). split.
    + intros (i & [Hi Hl] & <-). split; [eauto|]. by apply Hkey.
    + intros ((i & Hi & <-) & Hl). exists i. split; [|done]. split; [done|]. by apply Hkey.
  - intros p. rewrite Hkept. unfold outstanding. rewrite fmap_snd_elem. split.
    + intros (i & Hi & Hl & <-). split; [eauto|]. rewrite <- Hkey by done. congruence.
    + intros ((i & Hi & <-) & Hl). exists i. rewrite <- Hkey in Hl by done. split_and!; try done. by apply not_true_is_false.
  - rewrite Ht. pose proof (time_steps_spec (loss_delay d) (List.filter (pendingb la lb) (sort_by fst (sc_sent (space_of level d)))) None) as Hts.
    assert (Hpend : ∀ i, i ∈ List.filter (pendingb la lb) (sort_by fst (sc_sent (space_of level d))) ↔
              i ∈ sc_sent (space_of level d) ∧ i.1 <= la ∧ lostb la lb i = false).
    { intros i. rewrite elem_of_filter', pendingb_iff. by rewrite (sort_by_perm fst (sc_sent (space_of level d))). }
    destruct (fold_left _ _ None) as [t|].
    + destruct Hts as (Hall & _ & [Hno|(i & Hi & ->)]); [done|]. apply Hpend in Hi as (Hi & Hle & Hl). split.
      * assert (¬ declared_lost la lb i.2) as Hnl by (rewrite <- Hkey by done; congruence).
        destruct (Hin i Hi) as (Hk & _). unfold declared_lost in Hnl. rewrite <- Hk in Hnl.
        destruct (Qlt_le_dec lb (sp_time_sent i.2)) as [Hlt|Hge]; [unfold lb in Hlt; lra|]. exfalso. apply Hnl. split; [done|by right].
      * intros p (j & Hj & Hjl & <-)%Hkept Hple. apply Hall, Hpend. destruct (Hin j Hj) as (Hk & _). split_and!; try done. by rewrite Hk.
    + destruct Hts as [Hnil _]. intros p (j & Hj & Hjl & <-)%Hkept. destruct (Hin j Hj) as (Hk & _). rewrite <- Hk.
      destruct (Z.lt_ge_cases la j.1); [done|]. exfalso. assert (j ∈ @nil (Z * SentPacket)) as Hjn; [|by apply elem_of_nil in Hjn].
      rewrite <- Hnil. by apply Hpend.
Qed.
End timers.

(** ** RTT and PTO arithmetic *)

Record rtt_inv (samples : list Q) (r : RttEstimator) : Prop := mk_rtt_inv {
  rv_has : rtt_has_sample r = true;
  rv_min_le : ∀ s, s ∈ samples → (rtt_min r <= s)%Q;
  rv_min_in : rtt_min r ∈ samples;
  rv_low : (rtt_min r <= rtt_smoothed r)%Q;
  rv_high : ∃ s, s ∈ samples ∧ (rtt_smoothed r <= s)%Q;
  rv_var : (0 <= rtt_var r)%Q }.

Lemma rtt_inv_first s delay r : (0 <= s)%Q → rtt_has_sample r = false → rtt_inv [s] (rtt_update s delay r).
Proof.
  intros Hs Hr. unfold rtt_update. rewrite Hr. cbn. constructor; cbn; try done.
  - intros s' ->%list_elem_of_singleton. lra.
  - by left.
  - lra.
  - exists s. split; [by left|lra].
  - unfold Qdiv. change (/ 2)%Q with (1 # 2). lra.
Qed.

Lemma rtt_inv_next samples s delay r :
  (0 <= s)%Q → (0 <= delay)%Q → rtt_inv samples r → rtt_inv (s :: samples) (rtt_update s delay r).
Proof.
  intros Hs Hdel []. unfold rtt_update. rewrite rv_has0. cbn [negb]. cbn zeta.
  set (m := if Qltb s (rtt_min r) then s else rtt_min r).
  set (a := if Qle_bool m (s - delay) then (s - delay)%Q else s).
  assert (Hm : (m <= s)%Q ∧ (m <= rtt_min r)%Q ∧ (m = s ∨ m = rtt_min r)).
  { unfold m. destruct (Qltb s (rtt_min r)) eqn:E; q_cases; split; [lra|split; [lra|by left]|lra|split; [lra|by right]]. }
  destruct Hm as (Hms & Hmm & Hmc).
  assert (Ha : (m <= a)%Q ∧ (a <= s)%Q).
  { unfold a. destruct (Qle_bool m (s - delay)) eqn:E; q_cases; split; lra. }
  destruct rv_high0 as (h & Hh & Hle). constructor; cbn [rtt_has_sample rtt_min rtt_smoothed rtt_var]; try done.
  - intros s' [->|Hs']%elem_of_cons; [done|]. specialize (rv_min_le0 s' Hs'). lra.
  - apply elem_of_cons. destruct Hmc as [->| ->]; [by left|by right].
  - lra.
  - destruct (Qlt_le_dec s h) as [Hlt|Hge].
    + exists h. split; [by right|]. lra.
    + exists s. split; [by left|]. lra.
  - pose proof (Qabs_nonneg (rtt_smoothed r - a)). lra.
Qed.

(** The estimator after a list of (sample, delay) pairs, latest first. *)
Definition rtt_after (l : list (Q * Q)) : RttEstimator :=
  foldr (λ s r, rtt_update s.1 s.2 r) (new_RttEstimator INITIAL_RTT) l.

Lemma rtt_after_inv s l :
  Forall (λ s, 0 <= s.1 ∧ 0 <= s.2)%Q (s :: l) → rtt_inv ((s :: l).*1) (rtt_after (s :: l)).
Proof.
  revert s. induction l as [|s' l IH]; intros s Hall; apply Forall_cons in Hall as [[Hs Hd] Hall].
  - by apply (rtt_inv_first s.1 s.2).
  - cbn [rtt_after foldr fmap list_fmap]. apply rtt_inv_next; [done|done|]. by apply IH.
Qed.

Section pto.
Context {C : Type}.
Implicit Types d : LossDetection C.

Definition pto_base (level : EncryptionLevel) d : Q :=
  (rtt_smoothed (ld_rtt d) + Qmax (4 * rtt_var (ld_rtt d)) GRANULARITY
   + if decide (level = L_ONE_RTT) then ld_max_ack_delay d else 0)%Q.

Lemma pto_duration_eq level d n :
  0 <= n → (pto_duration level (set_pto_count n d) == Qmin (pto_base level d * inject_Z (2 ^ n)) MAX_PTO)%Q.
Proof.
  intros Hn. unfold pto_duration, pto_base. cbn. rewrite Z.shiftl_1_l. case_decide; [done|].
  by rewrite Qplus_0_r.
Qed.
End pto.

Lemma Qmin_cases a b : (a <= b ∧ Qmin a b == a)%Q ∨ (b <= a ∧ Qmin a b == b)%Q.
Proof. destruct (Qlt_le_dec a b); [left|right]; (split; [lra|]); [apply Q.min_l|apply Q.min_r]; lra. Qed.

(** ** The earliest of several deadlines *)

Lemma earliest_spec l :
  match earliest l with
  | None => l = []
  | Some x => x ∈ l ∧ ∀ y, y ∈ l → (x.1 <= y.1)%Q
  end.
Proof.
  induction l as [|x l IH]; cbn; [done|]. destruct (earliest l) as [y|].
  - destruct IH as [Hy Hmin]. destruct (Qltb y.1 x.1) eqn:E; q_cases.
    + split; [by right|]. intros z [->|Hz]%elem_of_cons; [lra|auto].
    + split; [by left|]. intros z [->|Hz]%elem_of_cons; [lra|]. specialize (Hmin z Hz). lra.
  - subst. split; [by left|]. intros y [->|Hy]%elem_of_cons; [lra|by apply elem_of_nil in Hy].
Qed.

Lemma space_items_elem s l x : (l, x) ∈ space_items s ↔ x = get_space l s.
Proof.
  unfold space_items. split.
  - intros [[= -> ->]|[[= -> ->]|[[= -> ->]|H]%elem_of_cons]%elem_of_cons]%elem_of_cons; try done. by apply elem_of_nil in H.
  - intros ->. destruct l; cbn; [by left|by right; left|by right; right; left].
Qed.

(** ** Properties *)

(** C7: over any run, every packet sent is in exactly one place: still
    outstanding, acknowledged, lost, or dropped with its keys; none is ever
    reported twice, and the controller's bytes in flight are exactly the
    in-flight bytes of the outstanding packets. *)
Theorem every_packet_accounted {C} `{CongestionLaws C} (c : C) is_client delay t
  (Hidle : bytes_in_flight c = 0) (Hreach : ld_reachable c is_client delay t) :
  tr_sent t ≡ₚ all_outstanding (tr_ld t) ++ tr_acked t ++ tr_lost t ++ tr_dropped t ∧
  NoDup (packet_id <$> all_outstanding (tr_ld t) ++ tr_acked t ++ tr_lost t ++ tr_dropped t) ∧
  bytes_in_flight (ld_controller (tr_ld t)) = sum_by flight (all_outstanding (tr_ld t)).
Proof.
  destruct (ld_reachable_inv _ _ _ _ Hidle Hreach) as [Hi Hp Hn _]. split; [done|]. split.
  - by rewrite <- Hp.
  - by destruct Hi.
Qed.

(** C30: an ACK of a number never sent raises AckOfUnsentPacket and takes no
    packet; any other ACK acknowledges exactly the outstanding packets its
    ranges name, in increasing order, and, when it acknowledged any, declares
    lost exactly those of the rest that are three numbers, or the time
    threshold, behind the largest acknowledged. *)
Theorem ack_takes_exactly_named {C} `{CongestionLaws C} (c : C) is_client max_delay t level ack delay now
  (Hidle : bytes_in_flight c = 0) (Hreach : ld_reachable c is_client max_delay t) :
  let d := tr_ld t in
  let named p := ∃ r, r ∈ ack_ranges ack ∧ r.1 <= sp_packet_number p <= r.2 in
  match on_ack_received level ack delay now d with
  | (Ok o, d') =>
      ack_largest ack <= sc_largest_sent (space_of level d) ∧
      (∀ p, p ∈ ao_acked o ↔ p ∈ outstanding (space_of level d) ∧ named p) ∧
      StronglySorted (λ p q, sp_packet_number p <= sp_packet_number q) (ao_acked o) ∧
      (ao_acked o = [] → ao_lost o = []) ∧
      (ao_acked o ≠ [] → ∀ p, p ∈ ao_lost o ↔ p ∈ outstanding (space_of level d) ∧ ¬ named p ∧
         declared_lost (sc_largest_acked (space_of level d')) (now - loss_delay d') p)
  | (Raise e, d') =>
      (∃ msg, e = AckOfUnsentPacket msg) ∧ sc_largest_sent (space_of level d) < ack_largest ack ∧
      all_outstanding d' = all_outstanding d
  end.
Proof.
  cbn zeta. destruct (ld_reachable_inv _ _ _ _ Hidle Hreach) as [Hi _ _ _].
  destruct (li_spaces _ Hi level) as (Hd & Hin & Hla).
  destruct (ack_spec level ack delay now (tr_ld t) Hd) as [(Hlt & msg & ->)|(Hle & o & d' & -> & Hsp)]; [by eauto|].
  cbn zeta in Hsp. destruct Hsp as (Hsort & Hacked & _ & _ & _ & _ & _ & _ & _ & _ & _ & Hnone & Hlost).
  assert (Hnamed : ∀ i, i ∈ sc_sent (space_of level (tr_ld t)) → ackedb ack i = true ↔
            ∃ r, r ∈ ack_ranges ack ∧ r.1 <= sp_packet_number i.2 <= r.2).
  { intros i Hi'. destruct (Hin i Hi') as (Hk & _). unfold ackedb, in_ranges, in_range. rewrite existsb_exists, Hk.
    setoid_rewrite andb_true_iff. setoid_rewrite Z.leb_le. by setoid_rewrite list_elem_of_In. }
  split; [done|]. split; [|split; [rewrite Hsort; apply sort_by_sorted|split; [done|]]].
  - intros p. rewrite Hacked, fmap_snd_elem. unfold outstanding. rewrite fmap_snd_elem. setoid_rewrite elem_of_filter'. split.
    + intros (i & [Hi' Hb] & <-). split; [eauto|]. by apply Hnamed.
    + intros ((i & Hi' & <-) & Hb). exists i. split; [|done]. split; [done|]. by apply Hnamed.
  - intros Hne p. rewrite (Hlost Hne p). unfold outstanding. rewrite fmap_snd_elem. split.
    + intros (i & Hi' & Ha & Hl & <-). split; [eauto|]. destruct (Hin i Hi') as (Hk & _). split.
      * rewrite <- Hnamed by done. congruence.
      * by apply lostb_iff.
    + intros ((i & Hi' & <-) & Hn & Hl). exists i. destruct (Hin i Hi') as (Hk & _). split_and!; try done.
      * apply not_true_is_false. by rewrite Hnamed.
      * by apply lostb_iff.
Qed.

(** C35: when the timer fires, the call returns: either the earliest loss
    timer's space has every packet past its threshold declared lost, and its
    timer is cleared or moved past the current time; or nothing is lost, the
    backoff grows by one and a probe is asked for. *)
Theorem timeout_makes_progress {C} `{CongestionLaws C} (c : C) is_client max_delay t now
  (Hidle : bytes_in_flight c = 0) (Hreach : ld_reachable c is_client max_delay t) :
  let d := tr_ld t in
  ∃ o d', on_loss_detection_timeout now d = (Ok o, d') ∧
  match earliest_loss_time d with
  | Some (_, level) =>
      to_probe_level o = None ∧
      (∀ p, p ∈ to_lost o ↔ p ∈ outstanding (space_of level d) ∧
         declared_lost (sc_largest_acked (space_of level d)) (now - loss_delay d) p) ∧
      (∀ u, sc_loss_time (space_of level d') = Some u → (now < u)%Q)
  | None =>
      to_lost o = [] ∧ to_probe_level o ≠ None ∧ ld_pto_count d' = ld_pto_count d + 1 ∧
      all_outstanding d' = all_outstanding d
  end.
Proof.
  cbn zeta. destruct (ld_reachable_inv _ _ _ _ Hidle Hreach) as [Hi _ _ _].
  unfold on_loss_detection_timeout. do 2 erewrite M_bind_ok by done.
  change (earliest_loss_time (set_last_event now (tr_ld t))) with (earliest_loss_time (tr_ld t)).
  destruct (earliest_loss_time (tr_ld t)) as [[u level]|].
  - destruct (detect_declares level now (set_last_event now (tr_ld t)) (li_spaces _ Hi level)) as (lost & d' & E & Hl & _ & Ht).
    erewrite M_bind_ok by exact E. do 2 eexists. split; [reflexivity|]. split; [done|]. split; [exact Hl|].
    intros v Hv. rewrite Hv in Ht. by destruct Ht.
  - do 2 erewrite M_bind_ok by done. destruct (earliest_pto _) as [[v level]|]; do 2 eexists; (split; [reflexivity|]); done.
Qed.

(** The loss-detection timer is armed whenever it must be: while an
    ack-eliciting packet is outstanding in a space whose keys are kept (the
    application space only once the handshake is confirmed), and, at a client
    that has sent anything, until the handshake is confirmed. *)
Theorem timer_armed {C} (d : LossDetection C)
  (Hneed : (∃ level p, sc_discarded (space_of level d) = false ∧ (level = L_ONE_RTT → ld_handshake_confirmed d = true) ∧
              p ∈ outstanding (space_of level d) ∧ sp_ack_eliciting p = true) ∨
           (ld_is_client d = true ∧ ld_handshake_confirmed d = false ∧ ld_last_event d ≠ None)) :
  ∃ u, loss_detection_timeout d = Some u.
Proof.
  unfold loss_detection_timeout. destruct (earliest_loss_time d) as [[u l]|]; [by eexists|].
  destruct (earliest_pto d) as [[u l]|] eqn:Ep; [by eexists|]. destruct Hneed as [(level & p & Hdis & Hconf & Hp & Ha)|(-> & -> & Hev)].
  - exfalso. unfold earliest_pto in Ep. pose proof (earliest_spec (omap (λ '(level, space),
      if sc_discarded space then None else if bool_decide (level = L_ONE_RTT) && negb (ld_handshake_confirmed d) then None
      else match List.filter sp_ack_eliciting ((sc_sent space).*2) with
           | [] => None | first :: rest => Some ((max_time first rest + pto_duration level d)%Q, level) end) (space_items (ld_spaces d)))) as Hs.
    rewrite Ep in Hs. assert (Hnone : ∀ y, y ∈ @nil (Q * EncryptionLevel) → False) by (intros y Hy; by apply elem_of_nil in Hy).
    rewrite <- Hs in Hnone. clear Hs Ep.
    assert (Hf : p ∈ List.filter sp_ack_eliciting ((sc_sent (space_of level d)).*2)) by (by apply elem_of_filter').
    destruct (List.filter sp_ack_eliciting ((sc_sent (space_of level d)).*2)) as [|first rest] eqn:Ef; [by apply elem_of_nil in Hf|].
    eapply Hnone, list_elem_of_omap. exists (level, space_of level d). split; [by apply space_items_elem|].
    cbn beta iota. rewrite Hdis, Ef. destruct (decide (level = L_ONE_RTT)) as [Hl|Hl].
    + rewrite (Hconf Hl), andb_false_r. reflexivity.
    + rewrite bool_decide_eq_false_2 by done. reflexivity.
  - unfold anti_deadlock_pto. destruct (ld_last_event d); [by eexists|done].
Qed.

(** After any non-empty sequence of RTT samples, the minimum is the least
    sample, the smoothed RTT lies between the minimum and some sample however
    large the peer's reported delays, and the variation is not negative. *)
Theorem rtt_bounds first rest
  (Hsamples : Forall (λ s : Q * Q, 0 <= s.1 ∧ 0 <= s.2)%Q (first :: rest)) :
  let samples := (first :: rest).*1 in
  let r := rtt_after (first :: rest) in
  rtt_min r ∈ samples ∧ (∀ s, s ∈ samples → (rtt_min r <= s)%Q) ∧
  (rtt_min r <= rtt_smoothed r)%Q ∧ (∃ s, s ∈ samples ∧ (rtt_smoothed r <= s)%Q) ∧ (0 <= rtt_var r)%Q.
Proof. destruct (rtt_after_inv _ _ Hsamples). by split_and!. Qed.

Lemma rtt_bounds_witness :
  let l := [(3 # 10, 1 # 10); (2 # 10, 0)]%Q in
  (rtt_min (rtt_after l) <= rtt_smoothed (rtt_after l))%Q.
Proof.
  apply (rtt_bounds (3 # 10, 1 # 10)%Q [(2 # 10, 0)%Q]).
  repeat (apply Forall_cons_2; [cbn; split; discriminate|]). apply Forall_nil_2.
Defined.

(** The PTO doubles with each expiry until it reaches the one-minute cap,
    and is never below the timer granularity nor above the cap. *)
Theorem pto_backoff {C} (d : LossDetection C) level n
  (Hn : 0 <= n)
  (Hrtt : (0 <= rtt_smoothed (ld_rtt d))%Q) (Hdelay : (0 <= ld_max_ack_delay d)%Q) :
  (GRANULARITY <= pto_duration level (set_pto_count n d) <= MAX_PTO)%Q ∧
  (pto_duration level (set_pto_count (n + 1) d) == Qmin (2 * pto_duration level (set_pto_count n d)) MAX_PTO)%Q.
Proof.
  rewrite !pto_duration_eq by lia. set (b := pto_base level d).
  assert (Hb : (GRANULARITY <= b)%Q).
  { unfold b, pto_base. pose proof (Q.le_max_r (4 * rtt_var (ld_rtt d)) GRANULARITY).
    destruct (decide (level = L_ONE_RTT)); lra. }
  assert (Hp : (1 <= inject_Z (2 ^ n))%Q).
  { change 1%Q with (inject_Z 1). rewrite <- Zle_Qle. pose proof (Z.pow_pos_nonneg 2 n). lia. }
  assert (Hnext : (inject_Z (2 ^ (n + 1)) == 2 * inject_Z (2 ^ n))%Q).
  { rewrite Z.pow_add_r, Z.mul_comm, inject_Z_mult by lia. reflexivity. }
  unfold GRANULARITY, MAX_PTO in *.
  assert (Hbp : (b <= b * inject_Z (2 ^ n))%Q) by nra.
  assert (Hx : (b * (2 * inject_Z (2 ^ n)) == 2 * (b * inject_Z (2 ^ n)))%Q) by ring.
  rewrite Hnext, Hx. destruct (Qmin_cases (b * inject_Z (2 ^ n)) 60) as [[H1 E1]|[H1 E1]]; rewrite E1; split; try lra.
  rewrite !Q.min_r by lra. reflexivity.
Qed.

(** ** Witnesses *)

Definition sample_ld : LossDetection NewReno := new_LossDetection (new_NewReno 1200) true (25 # 1000).

Lemma pto_backoff_witness :
  (GRANULARITY <= pto_duration L_INITIAL (set_pto_count 3 sample_ld) <= MAX_PTO)%Q ∧
  (pto_duration L_INITIAL (set_pto_count (3 + 1) sample_ld) == Qmin (2 * pto_duration L_INITIAL (set_pto_count 3 sample_ld)) MAX_PTO)%Q.
Proof. apply (pto_backoff sample_ld L_INITIAL 3); [lia|cbn; discriminate|cbn; discriminate]. Defined.

Lemma sample_idle : bytes_in_flight (new_NewReno 1200) = 0.
Proof. reflexivity. Qed.

Inductive ld_action : Type :=
| ASentPacket (p : SentPacket)
| AAckFrame (level : EncryptionLevel) (ack : Ack) (delay now : Q)
| ATimer (now : Q).

Definition run_ld (a : ld_action) (t : trace NewReno) : option (trace NewReno) :=
  match a with
  | ASentPacket p =>
      if sc_largest_sent (space_of (sp_level p) (tr_ld t)) <? sp_packet_number p then
        Some (mkTrace (ld_on_packet_sent p (tr_ld t)) (p :: tr_sent t) (tr_acked t) (tr_lost t) (tr_dropped t))
      else None
  | AAckFrame level ack delay now =>
      match on_ack_received level ack delay now (tr_ld t) with
      | (Ok o, d') => Some (mkTrace d' (tr_sent t) (ao_acked o ++ tr_acked t) (ao_lost o ++ tr_lost t) (tr_dropped t))
      | _ => None
      end
  | ATimer now =>
      match on_loss_detection_timeout now (tr_ld t) with
      | (Ok o, d') => Some (mkTrace d' (tr_sent t) (tr_acked t) (to_lost o ++ tr_lost t) (tr_dropped t))
      | _ => None
      end
  end.

Lemma run_ld_step a t t' : run_ld a t = Some t' → ld_step t t'.
Proof.
  destruct a; cbn.
  - case_test; [|done]. intros [= <-]. by apply ls_sent.
  - destruct (on_ack_received _ _ _ _ _) as [[o|e] d'] eqn:E; [|done]. intros [= <-]. by eapply ls_ack.
  - destruct (on_loss_detection_timeout _ _) as [[o|e] d'] eqn:E; [|done]. intros [= <-]. by eapply ls_timeout.
Qed.

Definition run_lds (l : list ld_action) : option (trace NewReno) :=
  fold_left (λ o a, o ≫= run_ld a) l (Some (mkTrace sample_ld [] [] [] [])).

Lemma run_lds_reachable l t : run_lds l = Some t → ld_reachable (new_NewReno 1200) true (25 # 1000) t.
Proof.
  unfold run_lds. revert t. induction l as [|a l IH] using rev_ind; intros t; cbn.
  - intros [= <-]. apply lr_init.
  - rewrite fold_left_app. cbn. destruct (fold_left _ l _) as [t0|]; [|done]. cbn.
    intros H. eapply lr_step; [by apply IH|]. by eapply run_ld_step.
Qed.

(** Six packets; the ACK of the last exposes the first two as lost. *)
Definition sample_ack : Ack := mkAck 4 0 [(4, 4)] None.
Definition sample_run : list ld_action :=
  (λ n, ASentPacket (mkSentPacket L_INITIAL n (inject_Z n) true true 1200 [])) <$> [0; 1; 2; 3; 4; 5].

Definition sample_trace (l : list ld_action) : trace NewReno := default (mkTrace sample_ld [] [] [] []) (run_lds l).

Lemma sample_trace_reachable : ld_reachable (new_NewReno 1200) true (25 # 1000) (sample_trace sample_run).
Proof. apply (run_lds_reachable sample_run). by vm_compute. Qed.

Definition sample_run2 : list ld_action := sample_run ++ [AAckFrame L_INITIAL sample_ack 0 5; ATimer 7].
Lemma sample_trace2_reachable : ld_reachable (new_NewReno 1200) true (25 # 1000) (sample_trace sample_run2).
Proof. apply (run_lds_reachable sample_run2). by vm_compute. Qed.

Lemma every_packet_accounted_witness :
  let t := sample_trace sample_run2 in
  len (tr_acked t) = 1 ∧ len (tr_lost t) = 4 ∧ len (all_outstanding (tr_ld t)) = 1 ∧
  tr_sent t ≡ₚ all_outstanding (tr_ld t) ++ tr_acked t ++ tr_lost t ++ tr_dropped t.
Proof.
  intros t. split; [by vm_compute|]. split; [by vm_compute|]. split; [by vm_compute|].
  apply (every_packet_accounted (new_NewReno 1200) true (25 # 1000) t sample_idle sample_trace2_reachable).
Defined.

Lemma ack_takes_exactly_named_witness :
  let d := tr_ld (sample_trace sample_run) in
  match on_ack_received L_INITIAL sample_ack 0 5 d with
  | (Ok o, d') => ack_largest sample_ack <= sc_largest_sent (space_of L_INITIAL d)
  | (Raise e, d') => (∃ msg, e = AckOfUnsentPacket msg)
  end.
Proof.
  intros d. pose proof (ack_takes_exactly_named (new_NewReno 1200) true (25 # 1000) (sample_trace sample_run)
    L_INITIAL sample_ack 0 5 sample_idle sample_trace_reachable) as H.
  cbn zeta in H. fold d in H. destruct (on_ack_received _ _ _ _ d) as [[o|e] d']; apply H.
Defined.

Lemma timeout_makes_progress_witness :
  ∃ o d', on_loss_detection_timeout 7 (tr_ld (sample_trace sample_run2)) = (Ok o, d').
Proof.
  destruct (timeout_makes_progress (new_NewReno 1200) true (25 # 1000) (sample_trace sample_run2) 7
    sample_idle sample_trace2_reachable) as (o & d' & H & _). by exists o, d'.
Defined.

Lemma timer_armed_witness : ∃ u, loss_detection_timeout (ld_on_packet_sent (sample_packet 0 0) sample_ld) = Some u.
Proof. apply (timer_armed (ld_on_packet_sent (sample_packet 0 0) sample_ld)). right. by vm_compute. Defined.
