(* ===== verification/Crypto.v ===== *)
(** * The cryptographic library's interface and HKDF (tls.py, key schedule helpers)

    dsquic calls the [cryptography] package for every primitive: AES-GCM and
    ChaCha20-Poly1305, the AES block and ChaCha20 stream used for header
    protection, SHA-256, HMAC and HKDF-Expand.  The package is not part of
    the repository, so it is the class [Primitives], an argument of every
    definition that calls it; [PrimitiveLaws] states what the package
    documents.  [toy_primitives] is a concrete, insecure instance that
    satisfies the laws, used to evaluate witnesses.

    [hkdf_label], [hkdf_expand_label] and [hkdf_extract] of
    [src/dsquic/tls.py] are the functions built directly on it. *)

From Stdlib Require Import Strings.String.
From S2P Require Import Prelude.

(** ** The interface *)

(** Constructors of the package reject keys of the wrong size with a
    [ValueError], so every operation returns a [result]. *)
Class Primitives : Type := {
  sha256 : bytes → bytes;
  hmac_sha256 : bytes → bytes → bytes;
  hkdf_expand : bytes → Z → bytes → result bytes;
  aesgcm_encrypt : bytes → bytes → bytes → bytes → result bytes;
  aesgcm_decrypt : bytes → bytes → bytes → bytes → result bytes;
  chacha_encrypt : bytes → bytes → bytes → bytes → result bytes;
  chacha_decrypt : bytes → bytes → bytes → bytes → result bytes;
  aes_ecb : bytes → bytes → result bytes;
  chacha20_stream : bytes → bytes → bytes → result bytes }.

(** Sizes of the algorithms, and the largest input the AEADs accept. *)
Definition AES_128_KEY : Z := 16.
Definition AES_256_KEY : Z := 32.
Definition CHACHA_KEY : Z := 32.
Definition AEAD_NONCE : Z := 12.
Definition AEAD_LIMIT : Z := 2 ^ 31 - 1.

(** An AEAD seals a message to 16 bytes more than it, opens what it sealed,
    opens nothing it would not have sealed (the tag is a function of key,
    nonce, message and associated data), and refuses with [InvalidTag]. *)
Record aead_laws (encrypt decrypt : bytes → bytes → bytes → bytes → result bytes)
    (key_ok : bytes → Prop) : Prop := {
  seal_open k n p a : key_ok k → len n = AEAD_NONCE → len p <= AEAD_LIMIT → len a <= AEAD_LIMIT →
    ∃ c, encrypt k n p a = Ok c ∧ len c = len p + 16 ∧ decrypt k n c a = Ok p;
  open_seal k n c a p : key_ok k → len n = AEAD_NONCE →
    decrypt k n c a = Ok p → encrypt k n p a = Ok c ∧ len c = len p + 16;
  open_refuses k n c a e : key_ok k → len n = AEAD_NONCE →
    len c <= AEAD_LIMIT → len a <= AEAD_LIMIT → decrypt k n c a = Raise e → e = InvalidTag }.

Class PrimitiveLaws `(Primitives) : Prop := {
  aesgcm_laws : aead_laws aesgcm_encrypt aesgcm_decrypt
    (λ k, len k = AES_128_KEY ∨ len k = AES_256_KEY);
  aesgcm_short_nonce k n c a : len n < 8 → ∃ msg, aesgcm_decrypt k n c a = Raise (ValueError msg);
  chacha_laws : aead_laws chacha_encrypt chacha_decrypt (λ k, len k = CHACHA_KEY);
  aes_ecb_block k s : len k = AES_128_KEY → len s = 16 → ∃ b, aes_ecb k s = Ok b ∧ len b = 16;
  chacha20_stream_len k n d : len k = CHACHA_KEY → len n = 16 →
    ∃ c, chacha20_stream k n d = Ok c ∧ len c = len d;
  hkdf_expand_len info n secret : 0 < n <= 255 * 32 →
    ∃ out, hkdf_expand info n secret = Ok out ∧ len out = n;
  hmac_len k d : len (hmac_sha256 k d) = 32;
  sha256_len d : len (sha256 d) = 32 }.

(** ** HKDF (tls.py) *)

Definition SHA256_LENGTH : Z := 32.
Definition TLS_AES_128_GCM_SHA256 : Z := 0x1301.
Definition TLS_CHACHA20_POLY1305_SHA256 : Z := 0x1303.

(** The bytes of an ASCII literal [b"..."]. *)
Definition ascii_bytes (s : string) : bytes := map Ascii.byte_of_ascii (String.list_ascii_of_string s).

Definition hkdf_label (label context : bytes) (length : Z) : result bytes :=
  let full_label := ascii_bytes "tls13 " ++ label in
  n ← to_bytes 2 length;
  ll ← byte_literal (len full_label);
  cl ← byte_literal (len context);
  Ok (n ++ ll ++ full_label ++ cl ++ context).

Section hkdf.
Context `{Primitives}.

Definition hkdf_expand_label (secret label context : bytes) (length : Z) : result bytes :=
  info ← hkdf_label label context length;
  hkdf_expand info length secret.

Definition hkdf_extract (salt input_key_material : bytes) : bytes :=
  hmac_sha256 salt input_key_material.
End hkdf.

(** ** Labels are injective

    Two HkdfLabel structures agree only when length, label and context do,
    so no two derivations of the key schedule share an info string. *)

Lemma hkdf_label_ok label context n :
  0 <= n < 2 ^ 16 → len label <= 249 → len context <= 255 →
  hkdf_label label context n =
    Ok (be_bytes 2 n ++ [bZ (6 + len label)] ++ (ascii_bytes "tls13 " ++ label)
        ++ [bZ (len context)] ++ context).
Proof.
  intros Hn Hl Hc. unfold hkdf_label. pose proof (len_nonneg label). pose proof (len_nonneg context).
  rewrite to_bytes_ok by done.
  replace (len (ascii_bytes "tls13 " ++ label)) with (6 + len label)
    by (rewrite len_app; reflexivity).
  rewrite !byte_literal_ok by lia. reflexivity.
Qed.

Lemma hkdf_expand_label_ok `{!Primitives, !PrimitiveLaws _} secret label context n :
  0 < n <= 255 * 32 → len label <= 249 → len context <= 255 →
  ∃ out, hkdf_expand_label secret label context n = Ok out ∧ len out = n.
Proof.
  intros Hn Hl Hc. unfold hkdf_expand_label. rewrite hkdf_label_ok by lia. cbn [mbind result_bind].
  by apply hkdf_expand_len.
Qed.

Lemma Ok_inj {A} (a b : A) : Ok a = Ok b → a = b.
Proof. congruence. Qed.

Lemma app_eq_len {A} (a b c d : list A) : len a = len b → a ++ c = b ++ d → a = b ∧ c = d.
Proof. intros Hl. apply app_inj_1. unfold len in Hl. lia. Qed.

Lemma hkdf_label_injective l c n l' c' n' bs :
  hkdf_label l c n = Ok bs → hkdf_label l' c' n' = Ok bs → l = l' ∧ c = c' ∧ n = n'.
Proof.
  unfold hkdf_label.
  intros (x & [Hx ->]%to_bytes_inv & (y & [Hy ->]%byte_literal_inv & (z & [Hz ->]%byte_literal_inv
    & <-%Ok_inj)%result_bind_inv)%result_bind_inv)%result_bind_inv.
  intros (x' & [Hx' ->]%to_bytes_inv & (y' & [Hy' ->]%byte_literal_inv & (z' & [Hz' ->]%byte_literal_inv
    & E%Ok_inj)%result_bind_inv)%result_bind_inv)%result_bind_inv.
  apply app_eq_len in E as [En E]; [|by rewrite !len_be_bytes].
  apply (f_equal from_bytes) in En. rewrite !from_bytes_be_small in En by done.
  apply app_eq_len in E as [El E]; [|done]. injection El as El. apply (f_equal Zb) in El. rewrite !Zb_bZ_small in El by done.
  rewrite !len_cons in El.
  assert (len l = len l') as Hl by lia.
  apply app_eq_len in E as [E1%app_inv_head E]; [|rewrite !len_app; lia].
  apply app_eq_len in E as [_ E]; [|done]. done.
Qed.

(** ** A concrete instance *)

(** A checksum standing in for every tag and digest. *)
Definition toy_digest (n : nat) (l : bytes) : bytes := be_bytes n (sum_by Zb l + 1).

Definition toy_encrypt (sizes : list Z) (k n p a : bytes) : result bytes :=
  if existsb (Z.eqb (len k)) sizes then
    if (AEAD_LIMIT <? len p) || (AEAD_LIMIT <? len a) then Raise OverflowError
    else Ok (p ++ toy_digest 16 (k ++ n ++ a ++ p))
  else Raise (ValueError "key").
Definition toy_decrypt (sizes : list Z) (k n c a : bytes) : result bytes :=
  if existsb (Z.eqb (len k)) sizes then
    let p := take (length c - 16) c in
    if (AEAD_LIMIT <? len p) || (AEAD_LIMIT <? len a) then Raise OverflowError
    else if decide (c = p ++ toy_digest 16 (k ++ n ++ a ++ p)) then Ok p else Raise InvalidTag
  else Raise (ValueError "key").

#[export] Instance toy_primitives : Primitives := {
  sha256 := toy_digest 32;
  hmac_sha256 k d := toy_digest 32 (k ++ d);
  hkdf_expand info n secret := Ok (toy_digest (Z.to_nat n) (info ++ secret));
  aesgcm_encrypt := toy_encrypt [AES_128_KEY; AES_256_KEY];
  aesgcm_decrypt k n c a := if len n <? 8 then Raise (ValueError "nonce")
    else toy_decrypt [AES_128_KEY; AES_256_KEY] k n c a;
  chacha_encrypt := toy_encrypt [CHACHA_KEY];
  chacha_decrypt := toy_decrypt [CHACHA_KEY];
  aes_ecb k s := if decide (len s = 16) then Ok (toy_digest 16 (k ++ s)) else Raise (ValueError "block");
  chacha20_stream k n d := Ok (toy_digest (length d) (k ++ n)) }.

Lemma len_toy_digest n l : len (toy_digest n l) = Z.of_nat n.
Proof. apply len_be_bytes. Qed.

Lemma toy_aead_laws sizes :
  aead_laws (toy_encrypt sizes) (toy_decrypt sizes) (λ k, existsb (Z.eqb (len k)) sizes = true).
Proof.
  split; unfold toy_encrypt, toy_decrypt.
  - intros k n p a -> _ Hp Ha.
    destruct ((AEAD_LIMIT <? len p) || (AEAD_LIMIT <? len a)) eqn:E.
    { apply orb_true_iff in E as [E|E]; bool_cases; lia. }
    eexists. split; [done|]. split; [rewrite len_app, len_toy_digest; lia|].
    assert (∀ l : bytes, len l = 16 → take (length (p ++ l) - 16) (p ++ l) = p) as Ht.
    { intros l Hl. rewrite length_app. unfold len in Hl.
      replace (length p + length l - 16)%nat with (length p) by lia. by rewrite take_app_length. }
    rewrite Ht by apply len_toy_digest. rewrite E. by rewrite decide_True.
  - intros k n c a p -> _. set (q := take _ c).
    destruct ((AEAD_LIMIT <? len q) || (AEAD_LIMIT <? len a)) eqn:E; [discriminate|].
    destruct (decide _) as [D|]; [|discriminate]. intros [= <-]. rewrite E, <- D.
    split; [done|]. rewrite D, len_app, len_toy_digest. lia.
  - intros k n c a e -> _ Hc Ha. set (q := take _ c).
    assert (len q <= len c) by (unfold q, len; rewrite length_take; lia).
    destruct ((AEAD_LIMIT <? len q) || (AEAD_LIMIT <? len a)) eqn:E.
    + apply orb_true_iff in E as [E|E]; bool_cases; lia.
    + destruct (decide _); congruence.
Qed.

Lemma aead_laws_weaken e d (P Q : bytes → Prop) :
  (∀ k, Q k → P k) → aead_laws e d P → aead_laws e d Q.
Proof.
  intros H [A B C]. split.
  - intros k n p a Hk. apply A, H, Hk.
  - intros k n c a p Hk. apply B, H, Hk.
  - intros k n c a e' Hk. apply C, H, Hk.
Qed.

#[export] Instance toy_primitive_laws : PrimitiveLaws toy_primitives.
Proof.
  split; cbn -[toy_digest len].
  - apply (aead_laws_weaken _ _ (λ k, existsb (Z.eqb (len k)) [AES_128_KEY; AES_256_KEY] = true)).
    { intros k [E|E]; by rewrite E. }
    destruct (toy_aead_laws [AES_128_KEY; AES_256_KEY]) as [A B C].
    split; intros k n **; (rewrite (proj2 (Z.ltb_ge (len n) 8)) in * by (unfold AEAD_NONCE in *; lia)); eauto.
  - intros k n c a Hn. rewrite (proj2 (Z.ltb_lt _ _)) by done. eauto.
  - eapply aead_laws_weaken; [|apply toy_aead_laws]. intros k Hk. change (existsb (Z.eqb (len k)) [CHACHA_KEY] = true). by rewrite Hk.
  - intros k s _ Hs. rewrite decide_True by done. eexists. split; [done|]. apply len_toy_digest.
  - intros. eexists. split; [done|]. apply len_toy_digest.
  - intros. eexists. split; [done|]. rewrite len_toy_digest. lia.
  - intros. apply len_toy_digest.
  - intros. apply len_toy_digest.
Qed.
