(* ===== verification/Protection.v ===== *)
(** * Packet protection (protection.py)

    Key derivation, the AEAD, header protection and key updates of
    [src/dsquic/protection.py] (RFC 9001 sections 5 and 6), over the
    cryptographic interface of [Crypto].

    [protect_unprotect] is the round trip, [unprotect_authentic] its
    converse: a packet is accepted only if it is byte for byte what
    [protect] produces for the header, number and payload it yields. *)

From S2P Require Import Prelude Buffer Frames FramesProofs Packet Crypto.

(** ** Python indexing

    [l[i]] counts from the end for a negative [i] and raises past either. *)
Definition py_index {A} (i : Z) (l : list A) : option nat :=
  if (0 <=? i) && (i <? len l) then Some (Z.to_nat i)
  else if (- len l <=? i) && (i <? 0) then Some (Z.to_nat (len l + i)) else None.

Definition py_get {A} (i : Z) (l : list A) : result A :=
  match py_index i l ≫= λ n, l !! n with Some x => Ok x | None => Raise IndexError end.

(** [l[i] ^= v] on a bytearray. *)
Definition xor_at (i : Z) (v : Z) (l : bytes) : result bytes :=
  match py_index i l with
  | Some n => Ok (alter (λ b, bZ (Z.lxor (Zb b) v)) n l)
  | None => Raise IndexError
  end.

(** ** Constants and data *)

Definition INITIAL_SALT_V1 : bytes :=
  map bZ [0x38;0x76;0x2c;0xf7;0xf5;0x59;0x34;0xb3;0x4d;0x17;0x9a;0xe6;0xa4;0xc8;0x0c;0xad;0xcc;0xbb;0x7f;0x0a].
Definition AEAD_TAG_LENGTH : Z := 16.
Definition RETRY_INTEGRITY_KEY : bytes :=
  map bZ [0xbe;0x0c;0x69;0x0b;0x9f;0x66;0x57;0x5a;0x1d;0x76;0x6b;0x54;0xe3;0x68;0xc8;0x4e].
Definition RETRY_INTEGRITY_NONCE : bytes :=
  map bZ [0x46;0x15;0x99;0xd3;0x5d;0x63;0x2b;0xf2;0x23;0x98;0x25;0xbb].
Definition SAMPLE_LENGTH : Z := 16.
Definition MAX_PN_LENGTH : Z := 4.
Definition PN_LENGTH_BITS : Z := 0x03.
Definition LONG_PROTECTED_BITS : Z := 0x0F.
Definition SHORT_PROTECTED_BITS : Z := 0x1F.
Definition KEY_PHASE_BIT : Z := 0x04.

Record PacketKeys : Type := mkPacketKeys {
  pk_key : bytes; pk_iv : bytes; pk_hp : bytes; pk_cipher_suite : Z }.

Record InitialSecrets : Type := mkInitialSecrets { is_client : bytes; is_server : bytes }.

Record UnprotectedHeader : Type := mkUnprotectedHeader {
  uh_packet_number : Z; uh_key_phase : bool; uh_header : bytes; uh_ciphertext : bytes }.

Section protection.
Context `{Primitives}.

(** ** Key derivation *)

Definition derive_initial_secrets (client_dcid : bytes) : result InitialSecrets :=
  let initial_secret := hkdf_extract INITIAL_SALT_V1 client_dcid in
  client ← hkdf_expand_label initial_secret (ascii_bytes "client in") [] 32;
  server ← hkdf_expand_label initial_secret (ascii_bytes "server in") [] 32;
  Ok (mkInitialSecrets client server).

Definition derive_packet_keys (secret : bytes) (cipher_suite : Z) : result PacketKeys :=
  let key_length := if cipher_suite =? TLS_CHACHA20_POLY1305_SHA256 then 32 else 16 in
  key ← hkdf_expand_label secret (ascii_bytes "quic key") [] key_length;
  iv ← hkdf_expand_label secret (ascii_bytes "quic iv") [] 12;
  hp ← hkdf_expand_label secret (ascii_bytes "quic hp") [] key_length;
  Ok (mkPacketKeys key iv hp cipher_suite).

Definition next_generation (secret : bytes) (keys : PacketKeys) : result (bytes * PacketKeys) :=
  updated ← hkdf_expand_label secret (ascii_bytes "quic ku") [] SHA256_LENGTH;
  k ← derive_packet_keys updated (pk_cipher_suite keys);
  Ok (updated, mkPacketKeys (pk_key k) (pk_iv k) (pk_hp keys) (pk_cipher_suite k)).

(** ** The AEAD and the header protection mask *)

Definition aead_encrypt (keys : PacketKeys) (nonce data aad : bytes) : result bytes :=
  if pk_cipher_suite keys =? TLS_CHACHA20_POLY1305_SHA256
  then chacha_encrypt (pk_key keys) nonce data aad
  else aesgcm_encrypt (pk_key keys) nonce data aad.

Definition aead_decrypt (keys : PacketKeys) (nonce data aad : bytes) : result bytes :=
  if pk_cipher_suite keys =? TLS_CHACHA20_POLY1305_SHA256
  then chacha_decrypt (pk_key keys) nonce data aad
  else aesgcm_decrypt (pk_key keys) nonce data aad.

Definition header_protection_mask (keys : PacketKeys) (sample : bytes) : result bytes :=
  if pk_cipher_suite keys =? TLS_CHACHA20_POLY1305_SHA256
  then chacha20_stream (pk_hp keys) sample (zeros 5)
  else block ← aes_ecb (pk_hp keys) sample; Ok (slice 0 5 block).

(** [bytes(a ^ b for a, b in zip(...))] *)
Definition bxor (a b : byte) : byte := bZ (Z.lxor (Zb a) (Zb b)).

Definition nonce (iv : bytes) (packet_number : Z) : result bytes :=
  pn ← to_bytes (length iv) packet_number;
  Ok (zip_with bxor iv pn).

(** The bits of the first byte header protection covers. *)
Definition first_byte_bits (first : Z) : Z :=
  if has_bit first HEADER_FORM_LONG then LONG_PROTECTED_BITS else SHORT_PROTECTED_BITS.

(** ** Protecting a packet *)

(** [for i in range(n): protected[offset + i] ^= mask[1 + i]] *)
Fixpoint xor_packet_number (n : nat) (offset i : Z) (mask protected : bytes) : result bytes :=
  match n with
  | O => Ok protected
  | S k =>
      m ← py_get (1 + i) mask;
      protected' ← xor_at (offset + i) (Zb m) protected;
      xor_packet_number k offset (i + 1) mask protected'
  end.

Definition protect (keys : PacketKeys) (header payload : bytes) (packet_number : Z) : result bytes :=
  first ← py_get 0 header;
  let pn_length := Z.land (Zb first) PN_LENGTH_BITS + 1 in
  n ← nonce (pk_iv keys) packet_number;
  ciphertext ← aead_encrypt keys n payload header;
  let sample_offset := MAX_PN_LENGTH - pn_length in
  let sample := slice sample_offset (sample_offset + SAMPLE_LENGTH) ciphertext in
  mask ← header_protection_mask keys sample;
  m0 ← py_get 0 mask;
  protected ← xor_at 0 (Z.land (Zb m0) (first_byte_bits (Zb first))) (header ++ ciphertext);
  let pn_offset := len header - pn_length in
  xor_packet_number (Z.to_nat pn_length) pn_offset 0 mask protected.

(** ** Unprotecting a packet *)

(** [bytes(packet[pn_offset + i] ^ mask[1 + i] for i in range(pn_length))] *)
Fixpoint unmask_packet_number (n : nat) (offset i : Z) (mask packet : bytes) : result bytes :=
  match n with
  | O => Ok []
  | S k =>
      p ← py_get (offset + i) packet;
      m ← py_get (1 + i) mask;
      rest ← unmask_packet_number k offset (i + 1) mask packet;
      Ok (bxor p m :: rest)
  end.

(** [pn_offset] is the offset a parsed header gives, never negative. *)
Definition remove_header_protection (keys : PacketKeys) (packet : bytes) (pn_offset largest_pn : Z)
    : result UnprotectedHeader :=
  let sample_start := pn_offset + MAX_PN_LENGTH in
  let sample := slice sample_start (sample_start + SAMPLE_LENGTH) packet in
  if len sample <? SAMPLE_LENGTH then
    Raise (ValueError "packet too short to sample for header protection")
  else
    mask ← header_protection_mask keys sample;
    p0 ← py_get 0 packet;
    m0 ← py_get 0 mask;
    let first := Z.lxor (Zb p0) (Z.land (Zb m0) (first_byte_bits (Zb p0))) in
    let pn_length := Z.land first PN_LENGTH_BITS + 1 in
    pn_bytes ← unmask_packet_number (Z.to_nat pn_length) pn_offset 0 mask packet;
    head ← byte_literal first;
    Ok (mkUnprotectedHeader
          (decode_packet_number largest_pn (from_bytes pn_bytes) (pn_length * 8))
          (has_bit first KEY_PHASE_BIT)
          (head ++ slice 1 pn_offset packet ++ pn_bytes)
          (drop (Z.to_nat (pn_offset + pn_length)) packet)).

Definition decrypt_payload (keys : PacketKeys) (unprotected : UnprotectedHeader) : result bytes :=
  n ← nonce (pk_iv keys) (uh_packet_number unprotected);
  aead_decrypt keys n (uh_ciphertext unprotected) (uh_header unprotected).

Definition unprotect (keys : PacketKeys) (packet : bytes) (pn_offset largest_pn : Z)
    : result (Z * bytes) :=
  unprotected ← remove_header_protection keys packet pn_offset largest_pn;
  payload ← decrypt_payload keys unprotected;
  Ok (uh_packet_number unprotected, payload).

Definition retry_integrity_tag (original_destination_cid retry_without_tag : bytes) : result bytes :=
  l ← byte_literal (len original_destination_cid);
  let pseudo := l ++ original_destination_cid ++ retry_without_tag in
  aesgcm_encrypt RETRY_INTEGRITY_KEY RETRY_INTEGRITY_NONCE [] pseudo.
End protection.

(** ** Indexing and masking lemmas *)

Lemma py_index_nonneg {A} i (l : list A) : 0 <= i < len l → py_index i l = Some (Z.to_nat i).
Proof.
  intros Hi. unfold py_index. destruct (_ && _) eqn:E; [done|].
  apply andb_false_iff in E as [E|E]; bool_cases; lia.
Qed.

Lemma py_index_mid {A} i (a : list A) x c : i = len a → py_index i (a ++ x :: c) = Some (length a).
Proof.
  intros ->. pose proof (len_nonneg a). pose proof (len_nonneg c).
  rewrite py_index_nonneg by (autorewrite with lens; lia). by rewrite Z_to_nat_len.
Qed.

Lemma py_get_mid {A} i (a : list A) x c : i = len a → py_get i (a ++ x :: c) = Ok x.
Proof. intros Hi. unfold py_get. rewrite py_index_mid by done. cbn. by rewrite list_lookup_middle. Qed.

Lemma py_get_0 {A} (x : A) c : py_get 0 (x :: c) = Ok x.
Proof. by apply (py_get_mid 0 []). Qed.

Lemma xor_at_mid i v a b c :
  i = len a → xor_at i v (a ++ b :: c) = Ok (a ++ bZ (Z.lxor (Zb b) v) :: c).
Proof.
  intros Hi. unfold xor_at. rewrite py_index_mid by done. f_equal.
  rewrite alter_app_r_alt by lia. by rewrite Nat.sub_diag.
Qed.

Lemma lxor_byte a b : 0 <= a < 256 → 0 <= b < 256 → 0 <= Z.lxor a b < 256.
Proof.
  intros Ha Hb. split; [apply Z.lxor_nonneg; lia|]. change 256 with (2 ^ 8).
  destruct (Z.eq_dec (Z.lxor a b) 0) as [->|Hn]; [lia|].
  apply Z.log2_lt_pow2; [apply Z.le_neq; split; [apply Z.lxor_nonneg; lia|done]|].
  eapply Z.le_lt_trans; [apply Z.log2_lxor; lia|].
  apply Z.max_lub_lt; (eapply Z.le_lt_trans; [apply Z.log2_le_mono, (Z.lt_le_pred _ 256); lia|]); reflexivity.
Qed.

Lemma Zb_bxor a b : Zb (bxor a b) = Z.lxor (Zb a) (Zb b).
Proof. apply Zb_bZ_small, lxor_byte; apply Zb_range. Qed.

Lemma bxor_involutive a m : bxor (bxor a m) m = a.
Proof. apply Zb_inj. rewrite !Zb_bxor, Z.lxor_assoc, Z.lxor_nilpotent. apply Z.lxor_0_r. Qed.

Lemma zip_bxor_involutive b ms : len b <= len ms → zip_with bxor (zip_with bxor b ms) ms = b.
Proof.
  revert ms. induction b as [|x b IH]; intros [|m ms]; cbn [zip_with]; try done.
  rewrite !len_cons. intros. rewrite bxor_involutive, IH; [done|lia].
Qed.

Lemma len_zip_bxor b ms : len b <= len ms → len (zip_with bxor b ms) = len b.
Proof. unfold len. intros. rewrite length_zip_with. lia. Qed.

Lemma xor_packet_number_app b : ∀ offset i a c pre ms,
  len b <= len ms → len pre = 1 + i → offset + i = len a →
  xor_packet_number (length b) offset i (pre ++ ms) (a ++ b ++ c) = Ok (a ++ zip_with bxor b ms ++ c).
Proof.
  induction b as [|x b IH]; intros offset i a c pre ms Hb Hp Ho; [by destruct ms|].
  destruct ms as [|m ms]. { rewrite len_nil, len_cons in Hb. pose proof (len_nonneg b). lia. }
  cbn [length xor_packet_number]. rewrite py_get_mid by lia. cbn [mbind result_bind].
  change (a ++ (x :: b) ++ c) with (a ++ x :: (b ++ c)). rewrite xor_at_mid by lia. cbn [mbind result_bind].
  rewrite !len_cons in Hb. change (m :: ms) with ([m] ++ ms). rewrite (app_assoc pre).
  change (a ++ bZ (Z.lxor (Zb x) (Zb m)) :: (b ++ c)) with (a ++ [bxor x m] ++ (b ++ c)).
  rewrite (app_assoc a). rewrite IH by (autorewrite with lens; lia). by app_norm.
Qed.

Lemma unmask_packet_number_app b : ∀ offset i a c pre ms,
  len b <= len ms → len pre = 1 + i → offset + i = len a →
  unmask_packet_number (length b) offset i (pre ++ ms) (a ++ b ++ c) = Ok (zip_with bxor b ms).
Proof.
  induction b as [|x b IH]; intros offset i a c pre ms Hb Hp Ho; [by destruct ms|].
  destruct ms as [|m ms]. { rewrite len_nil, len_cons in Hb. pose proof (len_nonneg b). lia. }
  cbn [length unmask_packet_number]. change (a ++ (x :: b) ++ c) with (a ++ x :: (b ++ c)).
  rewrite py_get_mid by lia. rewrite py_get_mid by lia. cbn [mbind result_bind].
  rewrite !len_cons in Hb. change (m :: ms) with ([m] ++ ms).
  change (a ++ x :: (b ++ c)) with (a ++ [x] ++ (b ++ c)). rewrite (app_assoc pre), (app_assoc a).
  rewrite IH by (autorewrite with lens; lia). done.
Qed.

(** ** The first byte *)

(** The first byte with its protected bits flipped by a mask byte. *)
Definition flip (x m : byte) : byte := bZ (Z.lxor (Zb x) (Z.land (Zb m) (first_byte_bits (Zb x)))).

Lemma first_byte_bits_cases v : first_byte_bits v = Z.ones 4 ∨ first_byte_bits v = Z.ones 5.
Proof. unfold first_byte_bits. case_test; [left|right]; reflexivity. Qed.

Lemma mask_bits_range m v : 0 <= Z.land (Zb m) (first_byte_bits v) < 32.
Proof.
  destruct (first_byte_bits_cases v) as [-> | ->]; rewrite Z.land_ones by lia.
  - pose proof (Z.mod_pos_bound (Zb m) (2 ^ 4)). lia.
  - pose proof (Z.mod_pos_bound (Zb m) (2 ^ 5)). lia.
Qed.

Lemma flip_range x m :
  0 <= Z.lxor (Zb x) (Z.land (Zb m) (first_byte_bits (Zb x))) < 256.
Proof. apply lxor_byte; [apply Zb_range|]. pose proof (mask_bits_range m (Zb x)). lia. Qed.

Lemma Zb_flip x m : Zb (flip x m) = Z.lxor (Zb x) (Z.land (Zb m) (first_byte_bits (Zb x))).
Proof. apply Zb_bZ_small, flip_range. Qed.

(** Flipping never touches a bit from 0x20 up: the form bit survives. *)
Lemma flip_high x m k : 5 <= k → Z.testbit (Zb (flip x m)) k = Z.testbit (Zb x) k.
Proof.
  intros Hk. rewrite Zb_flip, Z.lxor_spec. pose proof (mask_bits_range m (Zb x)) as Hr.
  rewrite (Z.bits_above_log2 (Z.land _ _)).
  - apply xorb_false_r.
  - lia.
  - destruct (Z.eq_dec (Z.land (Zb m) (first_byte_bits (Zb x))) 0) as [->|]; [cbn; lia|].
    assert (Z.log2 (Z.land (Zb m) (first_byte_bits (Zb x))) < 5) by (apply Z.log2_lt_pow2; lia). lia.
Qed.

(** In a long header the type bits survive too. *)
Lemma flip_long x m k : has_bit (Zb x) HEADER_FORM_LONG = true → 4 <= k → Z.testbit (Zb (flip x m)) k = Z.testbit (Zb x) k.
Proof.
  intros Hl Hk. rewrite Zb_flip, Z.lxor_spec. unfold first_byte_bits. rewrite Hl, Z.land_spec.
  rewrite (Z.bits_above_log2 LONG_PROTECTED_BITS k); [by rewrite andb_false_r, xorb_false_r|done|].
  change (Z.log2 LONG_PROTECTED_BITS) with 3. lia.
Qed.

Lemma has_bit_testbit v k : 0 <= k → has_bit v (2 ^ k) = Z.testbit v k.
Proof.
  intros Hk. unfold has_bit. destruct (Z.testbit v k) eqn:E.
  - apply negb_true_iff, Z.eqb_neq. intros H%land_bit_zero; [congruence|done].
  - apply negb_false_iff, Z.eqb_eq. by apply land_bit_zero.
Qed.

Lemma flip_bits x m : first_byte_bits (Zb (flip x m)) = first_byte_bits (Zb x).
Proof.
  unfold first_byte_bits. change HEADER_FORM_LONG with (2 ^ 7).
  rewrite !has_bit_testbit by lia. by rewrite flip_high by lia.
Qed.

Lemma flip_involutive x m : flip (flip x m) m = x.
Proof.
  apply Zb_inj. rewrite Zb_flip, flip_bits, Zb_flip, Z.lxor_assoc, Z.lxor_nilpotent. apply Z.lxor_0_r.
Qed.

(** The packet number length the first byte states. *)
Definition pn_length_of (x : byte) : Z := Z.land (Zb x) PN_LENGTH_BITS + 1.

Lemma pn_length_range x : 1 <= pn_length_of x <= 4.
Proof.
  unfold pn_length_of, PN_LENGTH_BITS. change 3 with (Z.ones 2). rewrite Z.land_ones by lia.
  pose proof (Z.mod_pos_bound (Zb x) (2 ^ 2)). lia.
Qed.

(** ** Well-formed keys *)

Definition key_length (cipher_suite : Z) : Z :=
  if cipher_suite =? TLS_CHACHA20_POLY1305_SHA256 then 32 else 16.

Record keys_ok (keys : PacketKeys) : Prop := {
  ko_key : len (pk_key keys) = key_length (pk_cipher_suite keys);
  ko_iv : len (pk_iv keys) = 12;
  ko_hp : len (pk_hp keys) = key_length (pk_cipher_suite keys) }.

Section facts.
Context `{HP : Primitives} `{HL : !PrimitiveLaws HP}.

Lemma derive_packet_keys_ok secret suite :
  ∃ keys, derive_packet_keys secret suite = Ok keys ∧ keys_ok keys ∧ pk_cipher_suite keys = suite.
Proof.
  unfold derive_packet_keys. fold (key_length suite).
  assert (0 < key_length suite <= 32) by (unfold key_length; case_test; lia).
  destruct (hkdf_expand_label_ok secret (ascii_bytes "quic key") [] (key_length suite)) as (k & -> & Hk); [lia|done|done|].
  destruct (hkdf_expand_label_ok secret (ascii_bytes "quic iv") [] 12) as (iv & -> & Hiv); [lia|done|done|].
  destruct (hkdf_expand_label_ok secret (ascii_bytes "quic hp") [] (key_length suite)) as (hp & -> & Hhp); [lia|done|done|].
  eexists. by repeat split.
Qed.

Lemma next_generation_ok secret keys :
  keys_ok keys →
  ∃ s' keys', next_generation secret keys = Ok (s', keys') ∧ keys_ok keys' ∧ len s' = SHA256_LENGTH ∧
    pk_hp keys' = pk_hp keys ∧ pk_cipher_suite keys' = pk_cipher_suite keys.
Proof.
  intros Hk. unfold next_generation.
  destruct (hkdf_expand_label_ok secret (ascii_bytes "quic ku") [] SHA256_LENGTH) as (s' & -> & Hs);
    [unfold SHA256_LENGTH; lia|done|done|]. cbn [mbind result_bind].
  destruct (derive_packet_keys_ok s' (pk_cipher_suite keys)) as (k & -> & Ho & Hc). cbn [mbind result_bind].
  do 2 eexists. split; [done|]. split; [|by cbn; rewrite Hc].
  split; cbn; rewrite ?Hc; [rewrite <- Hc; apply (ko_key _ Ho)|apply (ko_iv _ Ho)|apply (ko_hp _ Hk)].
Qed.

Lemma mask_ok keys sample :
  keys_ok keys → len sample = 16 →
  ∃ m0 ms, header_protection_mask keys sample = Ok (m0 :: ms) ∧ len ms = 4.
Proof.
  intros Hk Hs. unfold header_protection_mask. pose proof (ko_hp _ Hk) as Hh. unfold key_length in Hh.
  assert (∀ m : bytes, len m = 5 → ∃ m0 ms, (Ok m : result bytes) = Ok (m0 :: ms) ∧ len ms = 4) as Hsplit.
  { intros [|m0 ms]; [done|]. rewrite len_cons. intros. exists m0, ms. split; [done|lia]. }
  case_test.
  - destruct (chacha20_stream_len (pk_hp keys) sample (zeros 5)) as (c & -> & Hc); [done|done|].
    by apply Hsplit.
  - destruct (aes_ecb_block (pk_hp keys) sample) as (c & -> & Hc); [done|done|].
    cbn [mbind result_bind]. apply Hsplit. rewrite len_slice by lia. lia.
Qed.

(** Both suites' AEADs obey the laws under well-formed keys. *)
Lemma aead_ok keys :
  keys_ok keys → aead_laws (λ _, aead_encrypt keys) (λ _, aead_decrypt keys) (λ _, True).
Proof.
  intros [Hk _ _]. unfold key_length, aead_encrypt, aead_decrypt in *. case_test.
  - destruct chacha_laws as [A B C]. split; intros.
    + by apply A.
    + by apply B.
    + eapply C; [| | | |eassumption]; done.
  - destruct aesgcm_laws as [A B C]. split; intros.
    + apply A; auto.
    + apply B; auto.
    + eapply C; [| | | |eassumption]; auto.
Qed.

Lemma nonce_ok iv pn : len iv = 12 → 0 <= pn < 2 ^ 64 → ∃ n, nonce iv pn = Ok n ∧ len n = AEAD_NONCE.
Proof.
  intros Hi Hp. unfold nonce. rewrite to_bytes_ok.
  - eexists. split; [done|]. rewrite len_zip_bxor by (rewrite len_be_bytes, length_len; lia). done.
  - rewrite length_len, Hi. split; [lia|]. eapply Z.lt_le_trans; [apply Hp|]. done.
Qed.

Lemma nonce_inv iv pn n : len iv = 12 → nonce iv pn = Ok n → len n = AEAD_NONCE.
Proof.
  unfold nonce. intros Hi (l & [_ ->]%to_bytes_inv & [= <-])%result_bind_inv.
  rewrite len_zip_bxor; [done|]. rewrite len_be_bytes, length_len. lia.
Qed.

(** ** The shape of a protected packet *)

(** Where the sample lies: at offset 4 from the packet number field. *)
Definition sample_of (pnl : Z) (ciphertext : bytes) : bytes :=
  slice (MAX_PN_LENGTH - pnl) (MAX_PN_LENGTH - pnl + SAMPLE_LENGTH) ciphertext.

Lemma protect_shape keys x mid pn payload full n ct m0 ms :
  len pn = pn_length_of x → nonce (pk_iv keys) full = Ok n →
  aead_encrypt keys n payload (x :: mid ++ pn) = Ok ct →
  header_protection_mask keys (sample_of (len pn) ct) = Ok (m0 :: ms) → len ms = 4 →
  protect keys (x :: mid ++ pn) payload full = Ok (flip x m0 :: mid ++ zip_with bxor pn ms ++ ct).
Proof.
  intros Hpn Hn Hct Hm Hms. unfold protect. rewrite py_get_0. cbn [mbind result_bind].
  rewrite Hn. cbn [mbind result_bind]. rewrite Hct. cbn [mbind result_bind].
  fold (pn_length_of x). rewrite <- Hpn. fold (sample_of (len pn) ct). rewrite Hm. cbn [mbind result_bind].
  rewrite py_get_0. cbn [mbind result_bind]. pose proof (pn_length_range x).
  change ((x :: mid ++ pn) ++ ct) with ([] ++ x :: ((mid ++ pn) ++ ct)). rewrite xor_at_mid by done.
  cbn [mbind result_bind app]. fold (flip x m0). rewrite Z_to_nat_len, <- app_assoc.
  change (m0 :: ms) with ([m0] ++ ms).
  change (flip x m0 :: (mid ++ pn ++ ct)) with ((flip x m0 :: mid) ++ pn ++ ct).
  rewrite xor_packet_number_app; [done|lia|done|]. autorewrite with lens. lia.
Qed.

Lemma slice_app_r {A} i j (a b : list A) : len a <= i → slice i j (a ++ b) = slice (i - len a) (j - len a) b.
Proof.
  intros Hi. unfold slice. pose proof (len_nonneg a). rewrite drop_app_ge by (unfold len in *; lia).
  f_equal; [lia|]. f_equal. unfold len. lia.
Qed.

Lemma remove_shape keys y mid q ct m0 ms largest :
  len q = pn_length_of (flip y m0) → len (sample_of (len q) ct) = 16 →
  header_protection_mask keys (sample_of (len q) ct) = Ok (m0 :: ms) → len ms = 4 →
  let pn := zip_with bxor q ms in
  remove_header_protection keys (y :: mid ++ q ++ ct) (1 + len mid) largest =
    Ok (mkUnprotectedHeader (decode_packet_number largest (from_bytes pn) (len q * 8))
          (has_bit (Zb (flip y m0)) KEY_PHASE_BIT) (flip y m0 :: mid ++ pn) ct).
Proof.
  intros Hq Hs Hm Hms pn. unfold remove_header_protection.
  pose proof (pn_length_range (flip y m0)). pose proof (len_nonneg mid).
  assert (Hsl : slice (1 + len mid + MAX_PN_LENGTH) (1 + len mid + MAX_PN_LENGTH + SAMPLE_LENGTH)
                  (y :: mid ++ q ++ ct) = sample_of (len q) ct).
  { replace (y :: mid ++ q ++ ct) with ((y :: mid ++ q) ++ ct) by by app_norm.
    rewrite slice_app_r by (autorewrite with lens; unfold MAX_PN_LENGTH; lia).
    unfold sample_of. f_equal; autorewrite with lens; unfold MAX_PN_LENGTH, SAMPLE_LENGTH; lia. }
  rewrite Hsl, Hs. cbn [Z.ltb SAMPLE_LENGTH Z.compare Pos.compare Pos.compare_cont].
  rewrite Hm. cbn [mbind result_bind]. rewrite !py_get_0. cbn [mbind result_bind].
  rewrite <- (Zb_flip y m0). fold (pn_length_of (flip y m0)). rewrite <- Hq, Z_to_nat_len.
  change (m0 :: ms) with ([m0] ++ ms).
  change (y :: mid ++ q ++ ct) with ((y :: mid) ++ q ++ ct).
  rewrite unmask_packet_number_app; [|lia|done|by autorewrite with lens; lia].
  cbn [mbind result_bind]. rewrite byte_literal_ok by apply Zb_range. cbn [mbind result_bind].
  rewrite bZ_Zb. do 2 f_equal.
  - change ([flip y m0] ++ ?l) with (flip y m0 :: l). do 2 f_equal.
    change ((y :: mid) ++ q ++ ct) with ([y] ++ mid ++ q ++ ct).
    apply (slice_app_mid [y] mid (q ++ ct)).
  - rewrite app_assoc. replace (Z.to_nat (1 + len mid + len q)) with (length ((y :: mid) ++ q)).
    + apply drop_app_length.
    + rewrite length_app. cbn. unfold len. lia.
Qed.

(** Any packet long enough to sample splits around its packet number. *)
Lemma packet_split keys packet pn_offset :
  keys_ok keys → 1 <= pn_offset → pn_offset + 20 <= len packet →
  ∃ y mid q ct m0 ms, packet = y :: mid ++ q ++ ct ∧ pn_offset = 1 + len mid ∧
    len q = pn_length_of (flip y m0) ∧ len (sample_of (len q) ct) = 16 ∧
    header_protection_mask keys (sample_of (len q) ct) = Ok (m0 :: ms) ∧ len ms = 4.
Proof.
  intros Hk Ho Hl. destruct packet as [|y rest]; [rewrite len_nil in Hl; lia|]. rewrite len_cons in Hl.
  assert (∃ mid tail, rest = mid ++ tail ∧ len mid = pn_offset - 1 ∧ 20 <= len tail)
    as (mid & tail & -> & Hmid & Htail).
  { exists (take (Z.to_nat (pn_offset - 1)) rest), (drop (Z.to_nat (pn_offset - 1)) rest).
    rewrite take_drop. unfold len in *. rewrite length_take, length_drop. split; [done|lia]. }
  destruct (mask_ok keys (slice 4 20 tail)) as (m0 & ms & Hm & Hms);
    [done|rewrite len_slice by lia; lia|].
  pose proof (pn_length_range (flip y m0)) as Hr.
  set (k := Z.to_nat (pn_length_of (flip y m0))).
  exists y, mid, (take k tail), (drop k tail), m0, ms.
  assert (len (take k tail) = pn_length_of (flip y m0)) as Hq by (unfold len in *; rewrite length_take; lia).
  assert (sample_of (len (take k tail)) (drop k tail) = slice 4 20 tail) as Hs.
  { rewrite Hq. unfold sample_of, slice, MAX_PN_LENGTH, SAMPLE_LENGTH. rewrite drop_drop. f_equal; [lia|].
    f_equal. lia. }
  rewrite Hs, take_drop. repeat split; [lia|done|rewrite len_slice by lia; lia|done|done].
Qed.

(** A decoded packet number is one [to_bytes] can write. *)
Lemma decode_packet_number_range largest t n :
  1 <= n <= 32 → -1 <= largest < 2 ^ 62 → 0 <= t < 2 ^ n →
  0 <= decode_packet_number largest t n < 2 ^ 64.
Proof.
  intros Hn Hl Ht. unfold decode_packet_number. rewrite candidate_pn_eq by lia. rewrite !Z.shiftl_1_l.
  pose proof (Z.mod_pos_bound (largest + 1) (2 ^ n) ltac:(lia)).
  pose proof (Z.mod_le (largest + 1) (2 ^ n) ltac:(lia) ltac:(lia)).
  assert (2 ^ n <= 2 ^ 32) by (apply Z.pow_le_mono_r; lia).
  repeat case_test; lia.
Qed.

Lemma decode_bytes_range largest l :
  1 <= len l <= 4 → -1 <= largest < 2 ^ 62 → 0 <= decode_packet_number largest (from_bytes l) (len l * 8) < 2 ^ 64.
Proof.
  intros Hl Hlar. apply decode_packet_number_range; [lia|done|]. pose proof (from_bytes_range l) as H.
  change 256 with (2 ^ 8) in H. rewrite <- Z.pow_mul_r in H by lia. by rewrite Z.mul_comm.
Qed.

(** Protecting and then removing header protection, with the shape of the
    packet in between: the header up to the packet number is in the clear, but
    for the protected bits of the first byte. *)
Lemma protect_remove_shape keys x mid pn payload full largest :
  keys_ok keys → len pn = pn_length_of x → pn = be_bytes (length pn) full →
  4 - len pn <= len payload <= AEAD_LIMIT → len (x :: mid ++ pn) <= AEAD_LIMIT →
  -1 <= largest → 0 <= full < 2 ^ 62 →
  largest + 1 - 2 ^ (8 * len pn - 1) < full <= largest + 1 + 2 ^ (8 * len pn - 1) →
  ∃ m0 q ct, let packet := flip x m0 :: mid ++ q ++ ct in
    protect keys (x :: mid ++ pn) payload full = Ok packet ∧ len q = len pn ∧ len ct = len payload + 16 ∧
    remove_header_protection keys packet (1 + len mid) largest =
      Ok (mkUnprotectedHeader full (has_bit (Zb x) KEY_PHASE_BIT) (x :: mid ++ pn) ct) ∧
    decrypt_payload keys (mkUnprotectedHeader full (has_bit (Zb x) KEY_PHASE_BIT) (x :: mid ++ pn) ct)
      = Ok payload.
Proof.
  intros Hk Hpn Hbe Hp Hh Hl Hf Hw. pose proof (pn_length_range x) as Hr.
  destruct (nonce_ok (pk_iv keys) full (ko_iv _ Hk) ltac:(lia)) as (n & Hn & Hnl).
  destruct (seal_open _ _ _ (aead_ok keys Hk) [] n payload (x :: mid ++ pn))
    as (ct & Hct & Hlen & Hdec); [done|done|lia|lia|].
  assert (len (sample_of (len pn) ct) = 16) as Hs.
  { unfold sample_of, MAX_PN_LENGTH, SAMPLE_LENGTH. rewrite len_slice by lia. lia. }
  destruct (mask_ok keys _ Hk Hs) as (m0 & ms & Hm & Hms).
  exists m0, (zip_with bxor pn ms), ct. cbv zeta. pose proof (len_zip_bxor pn ms ltac:(lia)) as Hz.
  split; [by eapply protect_shape|]. split; [done|]. split; [lia|].
  split; [|unfold decrypt_payload; cbn; by rewrite Hn].
  rewrite (remove_shape keys (flip x m0) mid (zip_with bxor pn ms) ct m0 ms largest);
    rewrite ?flip_involutive, ?Hz; try done.
  rewrite zip_bxor_involutive by lia. do 2 f_equal.
  rewrite Hbe at 1. rewrite be_bytes_mod, length_len. replace (len pn * 8) with (8 * len pn) by lia.
  apply decode_in_window; lia.
Qed.

Lemma protect_remove keys x mid pn payload full largest :
  keys_ok keys → len pn = pn_length_of x → pn = be_bytes (length pn) full →
  4 - len pn <= len payload <= AEAD_LIMIT → len (x :: mid ++ pn) <= AEAD_LIMIT →
  -1 <= largest → 0 <= full < 2 ^ 62 →
  largest + 1 - 2 ^ (8 * len pn - 1) < full <= largest + 1 + 2 ^ (8 * len pn - 1) →
  ∃ packet ct, protect keys (x :: mid ++ pn) payload full = Ok packet ∧
    len packet = len (x :: mid ++ pn) + len payload + 16 ∧
    remove_header_protection keys packet (1 + len mid) largest =
      Ok (mkUnprotectedHeader full (has_bit (Zb x) KEY_PHASE_BIT) (x :: mid ++ pn) ct) ∧
    decrypt_payload keys (mkUnprotectedHeader full (has_bit (Zb x) KEY_PHASE_BIT) (x :: mid ++ pn) ct)
      = Ok payload.
Proof.
  intros Hk Hpn Hbe Hp Hh Hl Hf Hw.
  destruct (protect_remove_shape keys x mid pn payload full largest) as (m0 & q & ct & H1 & H2 & H3 & H4); try assumption.
  eexists _, ct. split; [exact H1|]. split; [autorewrite with lens; lia|exact H4].
Qed.

(** ** Theorems *)

(** C15: protecting a packet and unprotecting it on the other side gives back
    the full packet number and the payload.  For a header that ends with the
    truncated packet number its first byte announces, a payload long enough
    to be sampled, and a packet number inside the window of the receiver's
    largest number, [protect] returns a packet exactly 16 bytes longer than
    header and payload, and [unprotect] at the header's packet number offset
    returns the number and the payload, for both cipher suites. *)
Theorem protect_unprotect keys x mid pn payload full largest
  (Hk : keys_ok keys) (Hpn : len pn = pn_length_of x) (Hbe : pn = be_bytes (length pn) full)
  (Hp : 4 - len pn <= len payload <= AEAD_LIMIT) (Hh : len (x :: mid ++ pn) <= AEAD_LIMIT)
  (Hl : -1 <= largest) (Hf : 0 <= full < 2 ^ 62)
  (Hw : largest + 1 - 2 ^ (8 * len pn - 1) < full <= largest + 1 + 2 ^ (8 * len pn - 1)) :
  ∃ packet, protect keys (x :: mid ++ pn) payload full = Ok packet ∧
    len packet = len (x :: mid ++ pn) + len payload + AEAD_TAG_LENGTH ∧
    unprotect keys packet (1 + len mid) largest = Ok (full, payload).
Proof.
  destruct (protect_remove keys x mid pn payload full largest) as (packet & ct & H1 & H2 & H3 & H4);
    try assumption.
  exists packet. split; [done|]. split; [done|]. unfold unprotect. rewrite H3. cbn [mbind result_bind].
  by rewrite H4.
Qed.

(** C28: what [unprotect] does on an arbitrary packet.  Too short to sample,
    it raises [ValueError]; otherwise it either raises [InvalidTag] or accepts,
    and it accepts only packets that are byte for byte what [protect] emits
    under the same keys for the number and payload returned, with a header
    that agrees with the packet up to the packet number field.  No other
    exception escapes. *)
Theorem unprotect_authentic keys packet pn_offset largest
  (Hk : keys_ok keys) (Ho : 1 <= pn_offset) (Hl : -1 <= largest < 2 ^ 62)
  (Hlen : len packet <= AEAD_LIMIT) :
  match unprotect keys packet pn_offset largest with
  | Ok (full, payload) =>
      ∃ header, protect keys header payload full = Ok packet ∧
        slice 1 pn_offset header = slice 1 pn_offset packet ∧
        len packet = len header + len payload + AEAD_TAG_LENGTH
  | Raise e =>
      if len packet <? pn_offset + 20
      then e = ValueError "packet too short to sample for header protection"
      else e = InvalidTag
  end.
Proof.
  destruct (Z.ltb_spec (len packet) (pn_offset + 20)) as [Hs|Hs].
  { unfold unprotect, remove_header_protection, MAX_PN_LENGTH, SAMPLE_LENGTH.
    rewrite (proj2 (Z.ltb_lt _ 16)); [done|]. rewrite len_slice by lia. lia. }
  destruct (packet_split keys packet pn_offset Hk Ho Hs)
    as (y & mid & q & ct & m0 & ms & -> & -> & Hq & Hsam & Hm & Hms).
  pose proof (pn_length_range (flip y m0)) as Hr. pose proof (len_zip_bxor q ms ltac:(lia)) as Hz.
  assert (0 <= decode_packet_number largest (from_bytes (zip_with bxor q ms)) (len q * 8) < 2 ^ 64) as Hd
    by (rewrite <- Hz; apply decode_bytes_range; lia).
  unfold unprotect. erewrite remove_shape by done. cbn [mbind result_bind]. unfold decrypt_payload.
  set (full := decode_packet_number _ _ _) in *. cbn [uh_packet_number uh_ciphertext uh_header].
  destruct (nonce_ok (pk_iv keys) full (ko_iv _ Hk) Hd) as (n & Hn & Hnl). rewrite Hn.
  cbn [mbind result_bind]. autorewrite with lens in Hlen.
  pose proof (len_nonneg mid). pose proof (len_nonneg ct).
  destruct (aead_decrypt keys n ct (flip y m0 :: mid ++ zip_with bxor q ms)) as [payload|e] eqn:Hdec;
    cbn [mbind result_bind].
  - destruct (open_seal _ _ _ (aead_ok keys Hk) [] n ct _ payload I Hnl Hdec) as [Henc Hlc].
    exists (flip y m0 :: mid ++ zip_with bxor q ms).
    erewrite protect_shape; [|by rewrite Hz|done|done|by rewrite Hz|done].
    rewrite flip_involutive, zip_bxor_involutive by lia. split; [done|]. split.
    + transitivity mid; [|symmetry]; apply (slice_app_mid [_] mid).
    + autorewrite with lens. rewrite Hz. unfold AEAD_TAG_LENGTH. lia.
  - eapply (open_refuses _ _ _ (aead_ok keys Hk) [] n ct); [done|done|lia| |done].
    autorewrite with lens. lia.
Qed.

(** A key update keeps header protection.  [next_generation] always
    yields well-formed keys for the same suite; a packet protected with them
    has its header protection removed by the keys of the generation before,
    which recovers the packet number and the key phase bit, and only then are
    the new keys needed, to open the payload. *)
Theorem key_update_transparent keys secret x mid pn payload full largest
  (Hk : keys_ok keys) (Hpn : len pn = pn_length_of x) (Hbe : pn = be_bytes (length pn) full)
  (Hp : 4 - len pn <= len payload <= AEAD_LIMIT) (Hh : len (x :: mid ++ pn) <= AEAD_LIMIT)
  (Hl : -1 <= largest) (Hf : 0 <= full < 2 ^ 62)
  (Hw : largest + 1 - 2 ^ (8 * len pn - 1) < full <= largest + 1 + 2 ^ (8 * len pn - 1)) :
  ∃ secret' keys' packet u, next_generation secret keys = Ok (secret', keys') ∧ keys_ok keys' ∧
    protect keys' (x :: mid ++ pn) payload full = Ok packet ∧
    remove_header_protection keys packet (1 + len mid) largest = Ok u ∧
    uh_packet_number u = full ∧ uh_key_phase u = has_bit (Zb x) KEY_PHASE_BIT ∧
    decrypt_payload keys' u = Ok payload.
Proof.
  destruct (next_generation_ok secret keys Hk) as (s' & keys' & Hn & Hk' & _ & Hhp & Hc).
  destruct (protect_remove keys' x mid pn payload full largest) as (packet & ct & H1 & H2 & H3 & H4);
    try assumption.
  exists s', keys', packet. eexists. split; [done|]. split; [done|]. split; [done|].
  split; [|split; [|split; [|exact H4]]]; [|done..].
  rewrite <- H3. unfold remove_header_protection, header_protection_mask. by rewrite Hhp, Hc.
Qed.
End facts.

(** ** Witnesses *)

Definition example_keys : PacketKeys :=
  mkPacketKeys (replicate 16 x07) (replicate 12 x09) (replicate 16 x0b) TLS_AES_128_GCM_SHA256.

Lemma example_keys_ok : keys_ok example_keys.
Proof. done. Qed.

Lemma protect_unprotect_witness :
  ∃ packet, protect example_keys [x41; x0a; x0b; x01; x02] [x01; x00; x00] 258 = Ok packet ∧
    len packet = len [x41; x0a; x0b; x01; x02] + len [x01; x00; x00] + AEAD_TAG_LENGTH ∧
    unprotect example_keys packet (1 + len [x0a; x0b]) 250 = Ok (258, [x01; x00; x00]).
Proof.
  apply (protect_unprotect example_keys x41 [x0a; x0b] [x01; x02] [x01; x00; x00] 258 250);
    [apply example_keys_ok|done..].
Defined.

Lemma unprotect_authentic_witness :
  match unprotect example_keys (replicate 30 x42) 3 7 with
  | Ok (full, payload) =>
      ∃ header, protect example_keys header payload full = Ok (replicate 30 x42) ∧
        slice 1 3 header = slice 1 3 (replicate 30 x42) ∧
        len (replicate 30 x42) = len header + len payload + AEAD_TAG_LENGTH
  | Raise e =>
      if len (replicate 30 x42) <? 3 + 20
      then e = ValueError "packet too short to sample for header protection"
      else e = InvalidTag
  end.
Proof. apply (unprotect_authentic example_keys (replicate 30 x42) 3 7 example_keys_ok); done. Defined.

Lemma key_update_transparent_witness :
  ∃ secret' keys' packet u, next_generation [x01; x02] example_keys = Ok (secret', keys') ∧ keys_ok keys' ∧
    protect keys' [x45; x0a; x0b; x01; x02] [x01; x00; x00] 258 = Ok packet ∧
    remove_header_protection example_keys packet (1 + len [x0a; x0b]) 250 = Ok u ∧
    uh_packet_number u = 258 ∧ uh_key_phase u = has_bit (Zb x45) KEY_PHASE_BIT ∧
    decrypt_payload keys' u = Ok [x01; x00; x00].
Proof.
  apply (key_update_transparent example_keys [x01; x02] x45 [x0a; x0b] [x01; x02] [x01; x00; x00] 258 250);
    [apply example_keys_ok|done..].
Defined.
