(* ===== verification/Retry.v ===== *)
(** * Retry packets and address-validation tokens (retry.py)

    [src/dsquic/retry.py]: recognising, parsing and building Retry packets,
    and minting and validating the two kinds of address token (RFC 9000
    sections 8.1 and 17.2.5).  The 12 bytes [os.urandom] returns are an
    argument of the minting functions; the clock is a rational. *)

From S2P Require Import Prelude Buffer Frames FramesProofs Packet Crypto Protection Congestion.

(** ** Data and constants *)

Definition NONCE_LENGTH : Z := 12.
Definition RETRY_TOKEN : bytes := [x01].
Definition NEW_TOKEN : bytes := [x02].

Record RetryContext : Type := mkRetryContext {
  rc_original_destination_cid : bytes; rc_source_cid : bytes }.

(** [int(now)]: truncation toward zero. *)
Definition int_of (t : Q) : Z := Z.quot (Qnum t) (Zpos (Qden t)).

(** [data.startswith(prefix)] *)
Definition starts_with (prefix data : bytes) : bool := bool_decide (take (length prefix) data = prefix).

(** ** Retry packets *)

Definition is_retry (data : bytes) : bool :=
  if (len data <? VERSION_END) || negb (has_bit (first_byte data) HEADER_FORM_LONG) then false
  else if negb (from_bytes (slice 1 VERSION_END data) =? QUIC_V1) then false
  else match PacketType_of (Z.land (first_byte data) 0x30 ≫ 4) with
       | Ok RETRY => true
       | _ => false
       end.

Section retry.
Context `{Primitives}.

(** The header fields [parse_retry] pulls, with the checks between them. *)
Definition read_retry_header : M Buffer (Z * bytes * bytes * Z) :=
  first ← pull_uint8;
  if negb (has_bit first HEADER_FORM_LONG) then raise (HeaderParseError "Retry packet without a long header")
  else
    version ← pull_uint32;
    if negb (version =? QUIC_V1) then raise (UnsupportedVersion version)
    else
      packet_type ← lift (PacketType_of (Z.land first 0x30 ≫ 4));
      if decide (packet_type ≠ RETRY) then raise (HeaderParseError "not a Retry packet")
      else
        destination_cid ← pull_cid;
        source_cid ← pull_cid;
        if (len destination_cid >? MAX_CID_LENGTH) || (len source_cid >? MAX_CID_LENGTH) then
          raise (HeaderParseError "connection ID longer than 20 bytes")
        else
          position ← gets position;
          mret (version, destination_cid, source_cid, position).

Definition parse_retry (data original_destination_cid : bytes) : result Retry :=
  if len data <? AEAD_TAG_LENGTH then
    Raise (HeaderParseError "Retry packet shorter than its integrity tag")
  else
    '(version, destination_cid, source_cid, position) ← (read_retry_header (new_buffer data)).1;
    expected ← retry_integrity_tag original_destination_cid (slice 0 (len data - AEAD_TAG_LENGTH) data);
    if decide (last_bytes AEAD_TAG_LENGTH data ≠ expected) then
      Raise (HeaderParseError "Retry integrity tag does not verify")
    else
      Ok (mkRetry version destination_cid source_cid (slice position (len data - AEAD_TAG_LENGTH) data)).

Definition build_retry (destination_cid source_cid token original_destination_cid : bytes) : result bytes :=
  first ← byte_literal (Z.lor (Z.lor HEADER_FORM_LONG FIXED_BIT) (PacketType_value RETRY ≪ 4));
  version ← to_bytes 4 QUIC_V1;
  dl ← byte_literal (len destination_cid);
  sl ← byte_literal (len source_cid);
  let header := first ++ version ++ (dl ++ destination_cid) ++ (sl ++ source_cid) ++ token in
  tag ← retry_integrity_tag original_destination_cid header;
  Ok (header ++ tag).

(** ** Tokens *)

Definition mint_token (urandom key original_destination_cid client_address : bytes) (now : Q) : result bytes :=
  let nonce := urandom in
  ol ← encode_varint (len original_destination_cid);
  al ← encode_varint (len client_address);
  issued ← to_bytes 8 (int_of now);
  let payload := ol ++ original_destination_cid ++ al ++ client_address ++ issued in
  sealed ← aesgcm_encrypt key nonce payload RETRY_TOKEN;
  Ok (RETRY_TOKEN ++ nonce ++ sealed).

(** [try: AESGCM(key).decrypt(...) except InvalidTag: raise TokenError]. *)
Definition open_token (key token kind : bytes) : result bytes :=
  let nonce := slice (len kind) (len kind + NONCE_LENGTH) token in
  let sealed := drop (Z.to_nat (len kind + NONCE_LENGTH)) token in
  match aesgcm_decrypt key nonce sealed kind with
  | Raise InvalidTag => Raise (TokenError "token does not authenticate")
  | r => r
  end.

(** The checks both validators end with. *)
Definition check_binding (address client_address : bytes) (issued : Z) (now lifetime : Q) : result unit :=
  if decide (address ≠ client_address) then Raise (TokenError "token was issued to another address")
  else if Qltb lifetime (now - inject_Z issued) then Raise (TokenError "token has expired")
  else Ok tt.

Definition validate_token (key token client_address : bytes) (now lifetime : Q) : result bytes :=
  if negb (starts_with RETRY_TOKEN token) then Raise (TokenError "not a Retry token")
  else
    payload ← open_token key token RETRY_TOKEN;
    '(original_destination_cid, address, issued) ←
      ((original_destination_cid ← pull_with_length;
        address ← pull_with_length;
        issued ← pull_bytes 8;
        mret (original_destination_cid, address, from_bytes issued)) (new_buffer payload)).1;
    _ ← check_binding address client_address issued now lifetime;
    Ok original_destination_cid.

Definition mint_new_token (urandom key client_address : bytes) (now : Q) : result bytes :=
  let nonce := urandom in
  al ← encode_varint (len client_address);
  issued ← to_bytes 8 (int_of now);
  let payload := al ++ client_address ++ issued in
  sealed ← aesgcm_encrypt key nonce payload NEW_TOKEN;
  Ok (NEW_TOKEN ++ nonce ++ sealed).

Definition validate_new_token (key token client_address : bytes) (now lifetime : Q) : result unit :=
  if negb (starts_with NEW_TOKEN token) then Raise (TokenError "not a NEW_TOKEN token")
  else
    payload ← open_token key token NEW_TOKEN;
    '(address, issued) ←
      ((address ← pull_with_length;
        issued ← pull_bytes 8;
        mret (address, from_bytes issued)) (new_buffer payload)).1;
    check_binding address client_address issued now lifetime.
End retry.

(** ** Lemmas *)

Section facts.
Context `{HP : Primitives} `{HL : !PrimitiveLaws HP}.

Lemma retry_integrity_tag_ok odcid body :
  len odcid <= 255 → 1 + len odcid + len body <= AEAD_LIMIT →
  ∃ tag, retry_integrity_tag odcid body = Ok tag ∧ len tag = AEAD_TAG_LENGTH.
Proof.
  intros Ho Hb. unfold retry_integrity_tag. pose proof (len_nonneg odcid).
  rewrite byte_literal_ok by lia. cbn [mbind result_bind].
  destruct (seal_open _ _ _ aesgcm_laws RETRY_INTEGRITY_KEY RETRY_INTEGRITY_NONCE []
    ([bZ (len odcid)] ++ odcid ++ body)) as (c & -> & Hc & _);
    [by left|done|done|autorewrite with lens; lia|]. eauto.
Qed.

(** The bytes of a Retry packet before its tag. *)
Definition retry_header (d s : bytes) : bytes :=
  bZ 0xF0 :: be_bytes 4 QUIC_V1 ++ (bZ (len d) :: d) ++ (bZ (len s) :: s).

Lemma build_retry_ok d s token odcid tag :
  len d <= MAX_CID_LENGTH → len s <= MAX_CID_LENGTH →
  retry_integrity_tag odcid (retry_header d s ++ token) = Ok tag →
  build_retry d s token odcid = Ok ((retry_header d s ++ token) ++ tag).
Proof.
  unfold MAX_CID_LENGTH. intros Hd Hs Ht. unfold build_retry.
  pose proof (len_nonneg d). pose proof (len_nonneg s).
  rewrite (byte_literal_ok (Z.lor _ _)) by done. rewrite to_bytes_ok by done. rewrite !byte_literal_ok by lia.
  cbn [mbind result_bind].
  assert (retry_header d s ++ token = [bZ (Z.lor (Z.lor HEADER_FORM_LONG FIXED_BIT) (PacketType_value RETRY ≪ 4))]
    ++ be_bytes 4 QUIC_V1 ++ ([bZ (len d)] ++ d) ++ ([bZ (len s)] ++ s) ++ token) as <-.
  { unfold retry_header. by app_norm. }
  by rewrite Ht.
Qed.

Lemma is_retry_header d s rest : is_retry (retry_header d s ++ rest) = true.
Proof.
  unfold is_retry. rewrite (proj2 (Z.ltb_ge _ _)); [done|].
  unfold retry_header, VERSION_END. autorewrite with lens. rewrite len_be_bytes.
  pose proof (len_nonneg d). pose proof (len_nonneg s). pose proof (len_nonneg rest). lia.
Qed.

Lemma read_retry_header_app d s rest :
  len d <= MAX_CID_LENGTH → len s <= MAX_CID_LENGTH →
  read_retry_header (mkbuf [] (retry_header d s ++ rest)) =
    (Ok (QUIC_V1, d, s, len (retry_header d s)), mkbuf (retry_header d s) rest).
Proof.
  unfold MAX_CID_LENGTH. intros Hd Hs. unfold read_retry_header, retry_header, MAX_CID_LENGTH. app_norm.
  erewrite M_bind_ok by apply pull_uint8_cons.
  change (has_bit (Zb (bZ 240)) HEADER_FORM_LONG) with true. cbn [negb].
  erewrite M_bind_ok by (apply pull_uint32_app; done). change (QUIC_V1 =? QUIC_V1) with true. cbn [negb].
  rewrite (M_bind_ok (lift _) _ _ RETRY _) by reflexivity. rewrite decide_False by tauto.
  erewrite M_bind_ok by (apply pull_cid_app; lia). erewrite M_bind_ok by (apply pull_cid_app; lia).
  rewrite !Z.gtb_ltb, !(proj2 (Z.ltb_ge _ _)) by done. cbn [orb].
  unfold mbind, M_bind, gets, mret, M_ret. cbn [position mkbuf _position]. by app_norm.
Qed.

Lemma reads_retry_header :
  reads read_retry_header header_error
    (λ r _, r.1.1.1 = QUIC_V1 ∧ len r.1.1.2 <= MAX_CID_LENGTH ∧ len r.1.2 <= MAX_CID_LENGTH).
Proof.
  unfold read_retry_header, MAX_CID_LENGTH. reads_step. case_test; [by apply reads_raise|].
  reads_step. case_test; [by apply reads_raise|]. bool_cases.
  destruct (PacketType_of_bits v) as [t Ht]; [lia|]. rewrite Ht.
  eapply (reads_bind _ _ _ (λ a _, a = t)); [intros pre rest; exists [], rest; by rewrite app_nil_r|].
  cbn. intros ? n3 _ ->. case_decide; [by apply reads_raise|].
  eapply reads_bind; [apply reads_pull_cid, short_header_error|]. cbn. intros d n1 _ [Hd ->].
  eapply reads_bind; [apply reads_pull_cid, short_header_error|]. cbn. intros s n2 _ [Hs ->].
  case_test; [by apply reads_raise|]. bool_cases.
  eapply (reads_bind _ _ _ (λ _ _, True)); [intros pre rest; exists [], rest; by rewrite app_nil_r|].
  cbn. intros. apply reads_ret. cbn. split; [done|]. lia.
Qed.

Lemma last_bytes_tail (a tag : bytes) : len tag = AEAD_TAG_LENGTH → last_bytes AEAD_TAG_LENGTH (a ++ tag) = tag.
Proof. intros. by apply last_bytes_app. Qed.

Lemma slice_before_tag (a tag : bytes) i :
  0 <= i → len tag = AEAD_TAG_LENGTH → slice i (len (a ++ tag) - AEAD_TAG_LENGTH) (a ++ tag) = slice i (len a) a.
Proof.
  intros Hi Ht. rewrite len_app, Ht. replace (len a + AEAD_TAG_LENGTH - AEAD_TAG_LENGTH) with (len a) by lia.
  unfold slice. destruct (decide (i <= len a)).
  - rewrite drop_app_le by (unfold len in *; lia). rewrite take_app_le; [done|].
    rewrite length_drop. unfold len. lia.
  - by replace (Z.to_nat (len a - i)) with 0%nat by lia.
Qed.

Lemma open_token_sealed key kind n sealed :
  len kind = 1 → len n = NONCE_LENGTH →
  open_token key (kind ++ n ++ sealed) kind =
    match aesgcm_decrypt key n sealed kind with
    | Raise InvalidTag => Raise (TokenError "token does not authenticate")
    | r => r
    end.
Proof.
  intros Hk Hn. unfold open_token. rewrite <- Hn. rewrite slice_app_mid.
  replace (Z.to_nat (len kind + len n)) with (length (kind ++ n)) by (rewrite length_app; unfold len; lia).
  by rewrite app_assoc, drop_app_length.
Qed.

Lemma starts_with_app p l : starts_with p (p ++ l) = true.
Proof. unfold starts_with. rewrite take_app_length. by apply bool_decide_eq_true. Qed.

(** Every validator's last step, as a decision on address and age. *)
Definition binding_ok (address client_address : bytes) (issued : Z) (now lifetime : Q) : bool :=
  bool_decide (address = client_address) && negb (Qltb lifetime (now - inject_Z issued)).

Lemma check_binding_spec a c i n l :
  if binding_ok a c i n l then check_binding a c i n l = Ok tt
  else ∃ msg, check_binding a c i n l = Raise (TokenError msg).
Proof.
  unfold binding_ok, check_binding. case_bool_decide as Ha; cbn [andb].
  - rewrite decide_False by tauto. destruct (Qltb _ _); cbn [negb]; eauto.
  - rewrite decide_True by done. eauto.
Qed.

(** The plaintext of a token: length-prefixed fields and the time of issue. *)
Definition token_payload (fields : list bytes) (now : Q) : bytes :=
  concat (lb <$> fields) ++ be_bytes 8 (int_of now).

Definition short_field (d : bytes) : Prop := len d <= 2 ^ 16.

Lemma short_varint d : short_field d → varint_ok (len d).
Proof. unfold short_field, varint_ok, VARINT_MAX. pose proof (len_nonneg d). lia. Qed.

Lemma len_lb_short d : short_field d → len (lb d) <= 8 + 2 ^ 16.
Proof.
  intros H. pose proof (short_varint d H). unfold lb. rewrite len_app, len_varint_bytes by done.
  pose proof (varint_size_pos (len d)). unfold short_field in H. lia.
Qed.

Lemma mint_token_ok key urandom odcid address now :
  len key = AES_256_KEY → len urandom = NONCE_LENGTH → short_field odcid → short_field address →
  0 <= int_of now < 2 ^ 64 →
  ∃ c, mint_token urandom key odcid address now = Ok (RETRY_TOKEN ++ urandom ++ c) ∧
    aesgcm_decrypt key urandom c RETRY_TOKEN = Ok (token_payload [odcid; address] now) ∧ 16 <= len c <= 2 ^ 18.
Proof.
  intros Hk Hu Ho Ha Hn. pose proof (len_lb_short _ Ho). pose proof (len_lb_short _ Ha).
  assert (len (token_payload [odcid; address] now) <= 2 ^ 18 - 16) as L.
  { unfold token_payload. cbn [fmap list_fmap concat]. rewrite !len_app, len_be_bytes, len_nil. lia. }
  destruct (seal_open _ _ _ aesgcm_laws key urandom (token_payload [odcid; address] now) RETRY_TOKEN)
    as (c & E & Hc & D); [by right|done|unfold AEAD_LIMIT; lia|done|].
  pose proof (len_nonneg (token_payload [odcid; address] now)).
  exists c. split; [|split; [done|lia]]. unfold mint_token. rewrite !encode_varint_ok by (by apply short_varint).
  rewrite to_bytes_ok by done. cbn [mbind result_bind].
  replace (varint_bytes (len odcid) ++ odcid ++ _) with (token_payload [odcid; address] now).
  - by rewrite E.
  - unfold token_payload, lb. cbn [fmap list_fmap concat]. by app_norm.
Qed.

Lemma mint_new_token_ok key urandom address now :
  len key = AES_256_KEY → len urandom = NONCE_LENGTH → short_field address → 0 <= int_of now < 2 ^ 64 →
  ∃ c, mint_new_token urandom key address now = Ok (NEW_TOKEN ++ urandom ++ c) ∧
    aesgcm_decrypt key urandom c NEW_TOKEN = Ok (token_payload [address] now).
Proof.
  intros Hk Hu Ha Hn. pose proof (len_lb_short _ Ha).
  destruct (seal_open _ _ _ aesgcm_laws key urandom (token_payload [address] now) NEW_TOKEN)
    as (c & E & _ & D); [by right|done| |done|].
  { unfold token_payload, AEAD_LIMIT. cbn [fmap list_fmap concat].
    rewrite !len_app, len_be_bytes, len_nil. lia. }
  exists c. split; [|done]. unfold mint_new_token. rewrite !encode_varint_ok by (by apply short_varint).
  rewrite to_bytes_ok by done. cbn [mbind result_bind].
  replace (varint_bytes (len address) ++ address ++ _) with (token_payload [address] now).
  - by rewrite E.
  - unfold token_payload, lb. cbn [fmap list_fmap concat]. by app_norm.
Qed.

Lemma pull_issued pre now :
  0 <= int_of now < 2 ^ 64 →
  pull_bytes 8 (mkbuf pre (be_bytes 8 (int_of now))) =
    (Ok (be_bytes 8 (int_of now)), mkbuf (pre ++ be_bytes 8 (int_of now)) []).
Proof.
  intros. rewrite <- (app_nil_r (be_bytes 8 (int_of now))) at 1.
  apply pull_bytes_app. by rewrite len_be_bytes.
Qed.

Lemma validate_minted key urandom odcid address c now client_address now' lifetime :
  len urandom = NONCE_LENGTH → short_field odcid → short_field address → 0 <= int_of now < 2 ^ 64 →
  aesgcm_decrypt key urandom c RETRY_TOKEN = Ok (token_payload [odcid; address] now) →
  validate_token key (RETRY_TOKEN ++ urandom ++ c) client_address now' lifetime =
    (_ ← check_binding address client_address (int_of now) now' lifetime; Ok odcid).
Proof.
  intros Hu Ho Ha Hn D. unfold validate_token. rewrite starts_with_app. cbn [negb].
  rewrite open_token_sealed, D by done. cbn [mbind result_bind]. rewrite new_buffer_mkbuf.
  unfold token_payload. cbn [fmap list_fmap concat]. app_norm.
  erewrite M_bind_ok by (apply pull_with_length_app; by apply short_varint).
  erewrite M_bind_ok by (apply pull_with_length_app; by apply short_varint).
  erewrite M_bind_ok by (by apply pull_issued). cbn [mret M_ret fst].
  by rewrite from_bytes_be_small.
Qed.

Lemma validate_new_minted key urandom address c now client_address now' lifetime :
  len urandom = NONCE_LENGTH → short_field address → 0 <= int_of now < 2 ^ 64 →
  aesgcm_decrypt key urandom c NEW_TOKEN = Ok (token_payload [address] now) →
  validate_new_token key (NEW_TOKEN ++ urandom ++ c) client_address now' lifetime =
    check_binding address client_address (int_of now) now' lifetime.
Proof.
  intros Hu Ha Hn D. unfold validate_new_token. rewrite starts_with_app. cbn [negb].
  rewrite open_token_sealed, D by done. cbn [mbind result_bind]. rewrite new_buffer_mkbuf.
  unfold token_payload. cbn [fmap list_fmap concat]. app_norm.
  erewrite M_bind_ok by (apply pull_with_length_app; by apply short_varint).
  erewrite M_bind_ok by (by apply pull_issued). cbn [mret M_ret fst].
  by rewrite from_bytes_be_small.
Qed.

(** ** Theorems *)

(** A Retry packet round trip.  For connection IDs of at most 20 bytes,
    [build_retry] succeeds, [is_retry] recognises what it builds, and
    [parse_retry] with the same original destination connection ID returns
    the version, both connection IDs and the token. *)
Theorem retry_roundtrip (d s token odcid : bytes)
  (Hd : len d <= MAX_CID_LENGTH) (Hs : len s <= MAX_CID_LENGTH) (Ho : len odcid <= 255)
  (Ht : len token <= 2 ^ 30) :
  ∃ packet, build_retry d s token odcid = Ok packet ∧ is_retry packet = true ∧
    parse_retry packet odcid = Ok (mkRetry QUIC_V1 d s token).
Proof.
  assert (len (retry_header d s) = 7 + len d + len s) as Hh
    by (unfold retry_header; autorewrite with lens; rewrite len_be_bytes; lia).
  destruct (retry_integrity_tag_ok odcid (retry_header d s ++ token)) as (tag & Etag & Htag).
  { done. } { rewrite len_app, Hh. unfold MAX_CID_LENGTH, AEAD_LIMIT in *. lia. }
  exists ((retry_header d s ++ token) ++ tag). split; [by apply build_retry_ok|].
  split; [by rewrite <- app_assoc; apply is_retry_header|].
  pose proof (len_nonneg d). pose proof (len_nonneg s). pose proof (len_nonneg token).
  unfold parse_retry. rewrite (proj2 (Z.ltb_ge _ _)) by (rewrite len_app, Htag; pose proof (len_nonneg (retry_header d s ++ token)); lia).
  rewrite !slice_before_tag, last_bytes_tail, slice_full by lia. rewrite <- app_assoc, new_buffer_mkbuf.
  rewrite read_retry_header_app by done. cbn [fst mbind result_bind]. rewrite Etag. cbn [mbind result_bind].
  rewrite decide_False by tauto. do 2 f_equal.
  rewrite (app_assoc (retry_header d s) token tag), slice_before_tag by (rewrite ?Hh; lia).
  rewrite len_app. rewrite <- (app_nil_r token) at 2. apply slice_app_mid.
Qed.

(** What [parse_retry] does on an arbitrary datagram.  It accepts only a
    version 1 Retry with connection IDs of at most 20 bytes whose last 16
    bytes are the integrity tag of the rest under the given original
    destination connection ID, and every rejection is one of the three
    exceptions the connection discards the packet on. *)
Theorem parse_retry_authentic (data odcid : bytes)
  (Ho : len odcid <= 255) (Hlen : len data <= 2 ^ 30) :
  match parse_retry data odcid with
  | Ok r => ∃ body tag, data = body ++ tag ∧ len tag = AEAD_TAG_LENGTH ∧
              retry_integrity_tag odcid body = Ok tag ∧ rt_version r = QUIC_V1 ∧
              len (rt_destination_cid r) <= MAX_CID_LENGTH ∧ len (rt_source_cid r) <= MAX_CID_LENGTH
  | Raise e => header_error e
  end.
Proof.
  unfold parse_retry. case_test; [done|]. rewrite new_buffer_mkbuf. unfold AEAD_TAG_LENGTH in *.
  destruct (reads_retry_header [] data) as (bs & rest & _ & _ & Hr).
  destruct (read_retry_header (mkbuf [] data)).1 as [[[[v d] s] pos]|e]; cbn [fst mbind result_bind]; [|done].
  destruct Hr as (Hv & Hd & Hs). cbn in Hv, Hd, Hs.
  set (body := slice 0 (len data - 16) data).
  assert (len body = len data - 16) as Hb by (unfold body; rewrite len_slice; lia).
  destruct (retry_integrity_tag_ok odcid body) as (tag & Etag & Htag); [done|unfold AEAD_LIMIT; lia|].
  rewrite Etag. cbn [mbind result_bind]. case_decide as D; [done|].
  exists body, tag. cbn. split_and!; try done. rewrite <- D. unfold body, slice, last_bytes.
  cbn [Z.ltb Z.compare Z.to_nat]. rewrite drop_0, Z.sub_0_r. by rewrite take_drop.
Qed.

(** An address token is accepted exactly for the address it was minted
    for and while it is young.  A token [mint_token] seals validates to the
    original destination connection ID when presented from the same address
    no later than the lifetime after the (whole-second) time of issue, and is
    rejected with [TokenError] otherwise; the same for [mint_new_token]; and
    neither validator accepts a token of the other kind. *)
Theorem token_binding (key urandom odcid address client_address : bytes) (now now' lifetime : Q)
  (Hk : len key = AES_256_KEY) (Hu : len urandom = NONCE_LENGTH)
  (Ho : short_field odcid) (Ha : short_field address) (Hn : 0 <= int_of now < 2 ^ 64) :
  ∃ retry_token new_token,
    mint_token urandom key odcid address now = Ok retry_token ∧
    mint_new_token urandom key address now = Ok new_token ∧
    (if binding_ok address client_address (int_of now) now' lifetime
     then validate_token key retry_token client_address now' lifetime = Ok odcid ∧
          validate_new_token key new_token client_address now' lifetime = Ok tt
     else ∃ msg, validate_token key retry_token client_address now' lifetime = Raise (TokenError msg) ∧
          validate_new_token key new_token client_address now' lifetime = Raise (TokenError msg)) ∧
    validate_token key new_token client_address now' lifetime = Raise (TokenError "not a Retry token") ∧
    validate_new_token key retry_token client_address now' lifetime
      = Raise (TokenError "not a NEW_TOKEN token").
Proof.
  destruct (mint_token_ok key urandom odcid address now) as (c1 & -> & D1 & _); try assumption.
  destruct (mint_new_token_ok key urandom address now) as (c2 & -> & D2); try assumption.
  do 2 eexists. split; [done|]. split; [done|]. split; [|done].
  rewrite (validate_minted key urandom odcid address c1 now), (validate_new_minted key urandom address c2 now)
    by done.
  pose proof (check_binding_spec address client_address (int_of now) now' lifetime) as B.
  destruct (binding_ok _ _ _ _ _); [by rewrite B|]. destruct B as [msg B]. exists msg. by rewrite B.
Qed.

(** A token shorter than its nonce escapes the validators' contract.
    Both document [TokenError] as their only refusal, but a token of the right
    kind with fewer than 8 bytes after the kind byte raises [ValueError] out
    of the AEAD, whatever the address and the time. *)
Theorem short_token_escapes (key tail client_address : bytes) (now lifetime : Q) (Ht : len tail < 8) :
  (∃ msg, validate_token key (RETRY_TOKEN ++ tail) client_address now lifetime = Raise (ValueError msg)) ∧
  (∃ msg, validate_new_token key (NEW_TOKEN ++ tail) client_address now lifetime = Raise (ValueError msg)).
Proof.
  assert (∀ kind : bytes, len kind = 1 → ∃ msg, open_token key (kind ++ tail) kind = Raise (ValueError msg)) as E.
  { intros kind Hk. unfold open_token.
    destruct (aesgcm_short_nonce key (slice (len kind) (len kind + NONCE_LENGTH) (kind ++ tail))
      (drop (Z.to_nat (len kind + NONCE_LENGTH)) (kind ++ tail)) kind) as [msg ->]; [|eauto].
    rewrite len_slice by lia. rewrite len_app. unfold NONCE_LENGTH. pose proof (len_nonneg tail). lia. }
  destruct (E RETRY_TOKEN) as [m1 E1]; [done|]. destruct (E NEW_TOKEN) as [m2 E2]; [done|].
  split; [exists m1; unfold validate_token|exists m2; unfold validate_new_token];
    rewrite starts_with_app; cbn [negb]; rewrite ?E1, ?E2; done.
Qed.
End facts.

(** ** Witnesses *)

Lemma retry_roundtrip_witness :
  ∃ packet, build_retry [x01; x02] [x03] [x04; x05; x06] [x07] = Ok packet ∧ is_retry packet = true ∧
    parse_retry packet [x07] = Ok (mkRetry QUIC_V1 [x01; x02] [x03] [x04; x05; x06]).
Proof. apply (retry_roundtrip [x01; x02] [x03] [x04; x05; x06] [x07]); done. Defined.

Lemma parse_retry_authentic_witness :
  match parse_retry (replicate 40 xff) [x07] with
  | Ok r => ∃ body tag, replicate 40 xff = body ++ tag ∧ len tag = AEAD_TAG_LENGTH ∧
              retry_integrity_tag [x07] body = Ok tag ∧ rt_version r = QUIC_V1 ∧
              len (rt_destination_cid r) <= MAX_CID_LENGTH ∧ len (rt_source_cid r) <= MAX_CID_LENGTH
  | Raise e => header_error e
  end.
Proof. apply (parse_retry_authentic (replicate 40 xff) [x07]); done. Defined.

(** The address matches and 9.5 of the 10 seconds have passed. *)
Lemma token_binding_witness :
  ∃ retry_token new_token,
    mint_token (replicate 12 x05) (replicate 32 x06) [x01] [x7f; x01] (5 # 2) = Ok retry_token ∧
    mint_new_token (replicate 12 x05) (replicate 32 x06) [x7f; x01] (5 # 2) = Ok new_token ∧
    validate_token (replicate 32 x06) retry_token [x7f; x01] (23 # 2) 10 = Ok [x01] ∧
    validate_new_token (replicate 32 x06) new_token [x7f; x01] (23 # 2) 10 = Ok tt.
Proof.
  destruct (token_binding (replicate 32 x06) (replicate 12 x05) [x01] [x7f; x01] [x7f; x01]
    (5 # 2) (23 # 2) 10) as (t1 & t2 & H1 & H2 & H3 & _); [done|done|done|done|done|].
  exists t1, t2. split; [exact H1|]. split; [exact H2|]. exact H3.
Defined.

Lemma short_token_escapes_witness :
  (∃ msg, validate_token (replicate 32 x06) (RETRY_TOKEN ++ [x01]) [x7f] 3 10 = Raise (ValueError msg)) ∧
  (∃ msg, validate_new_token (replicate 32 x06) (NEW_TOKEN ++ [x01]) [x7f] 3 10 = Raise (ValueError msg)).
Proof. apply (short_token_escapes (replicate 32 x06) [x01] [x7f] 3 10). done. Defined.
