(* ===== verification/Hq.v ===== *)
(** * The hq-interop request line (hq.py)

    [src/dsquic/hq.py]: one request per stream, [GET <path>] and a line end
    that peers spell in three ways.  A Python [str] is its list of code
    points; of the exception messages the part before the quoted input is
    kept. *)

From S2P Require Import Prelude.

Abbreviation str := (list Z).

(** ** Python string operations *)

Definition code (s : string) : str := map (λ a, Z.of_N (Ascii.N_of_ascii a)) (String.list_ascii_of_string s).

Definition CR : Z := 13.
Definition LF : Z := 10.
Definition SLASH : Z := 47.
Definition DOT : Z := 46.

(** [s.encode("ascii")] and [data.decode("ascii")]. *)
Definition encode_char (c : Z) : result byte :=
  if (0 <=? c) && (c <? 128) then Ok (bZ c) else Raise (ValueError "ordinal not in range(128)").
Definition encode_ascii (s : str) : result bytes := mapM_result encode_char s.

Definition decode_char (b : byte) : result Z :=
  if Zb b <? 128 then Ok (Zb b) else Raise (ValueError "ordinal not in range(128)").
Definition decode_ascii (data : bytes) : result str := mapM_result decode_char data.

(** [s.rstrip(chars)] and [s.lstrip(chars)]. *)
Fixpoint lstrip (p : Z → bool) (s : str) : str :=
  match s with
  | [] => []
  | c :: s' => if p c then lstrip p s' else s
  end.
Definition rstrip (p : Z → bool) (s : str) : str := reverse (lstrip p (reverse s)).

Definition is_newline (c : Z) : bool := (c =? CR) || (c =? LF).

(** The ASCII characters [str.isspace] holds of, which [strip()] removes. *)
Definition is_space (c : Z) : bool :=
  ((9 <=? c) && (c <=? 13)) || ((28 <=? c) && (c <=? 32)).
Definition strip (s : str) : str := rstrip is_space (lstrip is_space s).

Definition starts_with_str (prefix s : str) : bool := bool_decide (take (length prefix) s = prefix).

(** [s.split("/")] *)
Fixpoint split_slash (s : str) : list str :=
  match s with
  | [] => [[]]
  | c :: s' =>
      if c =? SLASH then [] :: split_slash s'
      else match split_slash s' with
           | seg :: segs => (c :: seg) :: segs
           | [] => [[c]]
           end
  end.

(** ** Requests *)

Definition encode_request (path : str) : result bytes :=
  if negb (starts_with_str [SLASH] path) then Raise (ValueError "path must start with '/'")
  else encode_ascii (code "GET " ++ path ++ [CR; LF]).

Definition parse_request (data : bytes) : result str :=
  match decode_ascii data with
  | Raise _ => Raise (HqError "request is not ASCII")
  | Ok line =>
      let line := rstrip is_newline line in
      if existsb (Z.eqb LF) line || existsb (Z.eqb CR) line then
        Raise (HqError "request contains more than one line")
      else if negb (starts_with_str (code "GET ") line) then Raise (HqError "not a GET request")
      else
        let path := strip (drop 4 line) in
        if negb (starts_with_str [SLASH] path) then Raise (HqError "path must start with '/'")
        else if bool_decide ([DOT; DOT] ∈ split_slash path) then Raise (HqError "path traversal rejected")
        else Ok path
  end.

(** ** Paths a request can carry *)

(** Starts with a slash, printable ASCII without blanks at its end, no line
    break, no [..] segment. *)
Record path_ok (path : str) : Prop := {
  po_slash : starts_with_str [SLASH] path = true;
  po_ascii : Forall (λ c, 0 <= c < 128) path;
  po_line : Forall (λ c, is_newline c = false) path;
  po_tail : strip path = path;
  po_dots : [DOT; DOT] ∉ split_slash path }.

(** ** Lemmas *)

Lemma encode_char_ok c : 0 <= c < 128 → encode_char c = Ok (bZ c).
Proof. intros. unfold encode_char. by rewrite (proj2 (Z.leb_le _ _)), (proj2 (Z.ltb_lt _ _)) by lia. Qed.

Lemma decode_char_ok c : 0 <= c < 128 → decode_char (bZ c) = Ok c.
Proof. intros. unfold decode_char. by rewrite Zb_bZ_small, (proj2 (Z.ltb_lt _ _)) by lia. Qed.

Lemma encode_ascii_ok s : Forall (λ c, 0 <= c < 128) s → encode_ascii s = Ok (bZ <$> s).
Proof.
  induction 1 as [|c s Hc _ IH]; [done|]. unfold encode_ascii in *. cbn [mapM_result].
  by rewrite encode_char_ok, IH.
Qed.

Lemma decode_ascii_ok s : Forall (λ c, 0 <= c < 128) s → decode_ascii (bZ <$> s) = Ok s.
Proof.
  induction 1 as [|c s Hc _ IH]; [done|]. unfold decode_ascii in *. cbn [mapM_result fmap list_fmap].
  by rewrite decode_char_ok, IH.
Qed.

Lemma decode_ascii_range data s : decode_ascii data = Ok s → Forall (λ c, 0 <= c < 128) s.
Proof.
  revert s. induction data as [|b data IH]; intros s; [by intros [= <-]|].
  intros (y & ys & Hy & Hys & ->)%mapM_result_cons_inv. constructor; [|by apply IH].
  unfold decode_char in Hy. case_test_in Hy; [|done]. injection Hy as <-. pose proof (Zb_range b). lia.
Qed.

Lemma lstrip_suffix p s : ∃ k, lstrip p s = drop k s.
Proof. induction s as [|c s [k IH]]; cbn; [by exists 0%nat|]. case_test; [exists (S k); by rewrite IH|by exists 0%nat]. Qed.

Lemma Forall_lstrip (P : Z → Prop) p s : Forall P s → Forall P (lstrip p s).
Proof. destruct (lstrip_suffix p s) as [k ->]. apply Forall_drop. Qed.

Lemma Forall_rstrip (P : Z → Prop) p s : Forall P s → Forall P (rstrip p s).
Proof. intros H. unfold rstrip. apply Forall_reverse, Forall_lstrip, Forall_reverse. done. Qed.

Lemma lstrip_skip p a s : Forall (λ c, p c = true) a → lstrip p (a ++ s) = lstrip p s.
Proof. induction 1 as [|c a Hc _ IH]; cbn; [done|]. by rewrite Hc. Qed.

Lemma rstrip_app p s a : Forall (λ c, p c = true) a → rstrip p (s ++ a) = rstrip p s.
Proof. intros H. unfold rstrip. rewrite reverse_app, lstrip_skip; [done|]. by apply Forall_reverse. Qed.

Lemma lstrip_none p s : Forall (λ c, p c = false) s → lstrip p s = s.
Proof. destruct 1 as [|c s Hc]; cbn; [done|]. by rewrite Hc. Qed.

Lemma rstrip_none p s : Forall (λ c, p c = false) s → rstrip p s = s.
Proof. intros H. unfold rstrip. rewrite lstrip_none by (by apply Forall_reverse). apply reverse_involutive. Qed.

Lemma no_newline s : Forall (λ c, is_newline c = false) s → existsb (Z.eqb LF) s || existsb (Z.eqb CR) s = false.
Proof.
  unfold is_newline. induction 1 as [|c s Hc _ IH]; [done|]. apply orb_false_iff in Hc as [? ?].
  apply orb_false_iff in IH as [? ?]. cbn [existsb]. rewrite (Z.eqb_sym LF), (Z.eqb_sym CR).
  apply orb_false_iff. split; apply orb_false_iff; done.
Qed.

Lemma newline_free s : existsb (Z.eqb LF) s || existsb (Z.eqb CR) s = false → Forall (λ c, is_newline c = false) s.
Proof.
  intros [H1 H2]%orb_false_iff. apply Forall_forall. intros c Hc. unfold is_newline.
  apply orb_false_iff; split; apply Z.eqb_neq; intros ->.
  - assert (existsb (Z.eqb CR) s = true) by (apply existsb_exists; exists CR; split; [by apply list_elem_of_In|done]). congruence.
  - assert (existsb (Z.eqb LF) s = true) by (apply existsb_exists; exists LF; split; [by apply list_elem_of_In|done]). congruence.
Qed.

(** Stripping once is stripping for good. *)
Lemma lstrip_idem p s : lstrip p (lstrip p s) = lstrip p s.
Proof. induction s as [|c s IH]; cbn; [done|]. destruct (p c) eqn:E; [done|]. cbn. by rewrite E. Qed.

Lemma lstrip_rstrip p s : lstrip p s = s → lstrip p (rstrip p s) = rstrip p s.
Proof.
  intros H. destruct (rstrip p s) as [|c r] eqn:E; [done|]. cbn.
  destruct (lstrip_suffix p (reverse s)) as [k Hk]. unfold rstrip in E. rewrite Hk in E.
  assert (s = (c :: r) ++ reverse (take k (reverse s))) as Hs.
  { rewrite <- E, <- reverse_app, take_drop, reverse_involutive. done. }
  rewrite Hs in H. cbn in H. destruct (p c); [|done].
  destruct (lstrip_suffix p (r ++ reverse (take k (reverse s)))) as [j Hj]. rewrite Hj in H.
  apply (f_equal length) in H. rewrite length_drop in H. cbn in H. lia.
Qed.

Lemma strip_idem s : strip (strip s) = strip s.
Proof.
  unfold strip. rewrite (lstrip_rstrip _ (lstrip is_space s)) by apply lstrip_idem.
  unfold rstrip. by rewrite reverse_involutive, lstrip_idem.
Qed.

(** Every spelling of the line end parses alike. *)
Lemma parse_request_line path term :
  path_ok path → term ∈ [[CR; LF]; [LF]; []] → parse_request (bZ <$> (code "GET " ++ path ++ term)) = Ok path.
Proof.
  intros [Hs Ha Hl Ht Hd] Hterm. unfold parse_request.
  assert (Forall (λ c, 0 <= c < 128) term ∧ Forall (λ c, is_newline c = true) term) as [Hta Htn].
  { set_unfold in Hterm. destruct Hterm as [-> | [-> | [-> | []]]]; split; repeat (apply Forall_cons_2; [done|]); apply Forall_nil_2. }
  rewrite decode_ascii_ok; [|repeat (apply Forall_cons_2; [done|]); by apply Forall_app].
  rewrite app_assoc, rstrip_app by done.
  assert (Forall (λ c, is_newline c = false) (code "GET " ++ path)) as Hn
    by (repeat (apply Forall_cons_2; [done|]); done).
  rewrite rstrip_none, no_newline by done.
  change (drop 4 (code "GET " ++ path)) with path. change (starts_with_str (code "GET ") (code "GET " ++ path)) with true.
  cbn [negb]. rewrite Ht, Hs. cbn [negb]. by rewrite bool_decide_false.
Qed.

(** ** Theorems *)

(** A request the client encodes is the request the server parses, and
    the two other line ends peers use (bare LF, none) parse to the same
    path. *)
Theorem hq_roundtrip path (Hp : path_ok path) :
  (∃ request, encode_request path = Ok request ∧ parse_request request = Ok path) ∧
  parse_request (bZ <$> (code "GET " ++ path ++ [LF])) = Ok path ∧
  parse_request (bZ <$> (code "GET " ++ path)) = Ok path.
Proof.
  split; [|split].
  - eexists. split; [|apply (parse_request_line path [CR; LF]); [done|set_solver]].
    unfold encode_request. rewrite (po_slash _ Hp). apply encode_ascii_ok.
    repeat (apply Forall_cons_2; [done|]). apply Forall_app. split; [apply (po_ascii _ Hp)|].
    repeat (apply Forall_cons_2; [done|]). apply Forall_nil_2.
  - apply parse_request_line; [done|set_solver].
  - rewrite <- (app_nil_r path) at 1. apply parse_request_line; [done|set_solver].
Qed.

(** A path [parse_request] returns is safe to map under the document
    root: it starts with a slash, is ASCII on one line, has no blanks around
    it and no [..] segment.  Everything else is refused with [HqError]. *)
Theorem parse_request_safe data :
  match parse_request data with
  | Ok path => path_ok path
  | Raise e => ∃ msg, e = HqError msg
  end.
Proof.
  unfold parse_request. destruct (decode_ascii data) as [line|] eqn:E; [|eauto].
  apply decode_ascii_range in E. destruct (_ || _) eqn:Hl; [eauto|]. apply newline_free in Hl.
  destruct (negb (starts_with_str (code "GET ") _)); [eauto|].
  destruct (starts_with_str [SLASH] _) eqn:Hs; cbn [negb]; [|eauto].
  case_bool_decide as Hd; [eauto|]. split; [done| | |apply strip_idem|done].
  - apply Forall_rstrip, Forall_lstrip, Forall_drop, Forall_rstrip, E.
  - apply Forall_rstrip, Forall_lstrip, Forall_drop, Hl.
Qed.

(** ** Witness *)

Lemma hq_roundtrip_witness :
  (∃ request, encode_request (code "/a/b.txt") = Ok request ∧ parse_request request = Ok (code "/a/b.txt")) ∧
  parse_request (bZ <$> (code "GET " ++ code "/a/b.txt" ++ [LF])) = Ok (code "/a/b.txt") ∧
  parse_request (bZ <$> (code "GET " ++ code "/a/b.txt")) = Ok (code "/a/b.txt").
Proof.
  apply (hq_roundtrip (code "/a/b.txt")). split; [reflexivity| | |reflexivity|].
  - apply (bool_decide_unpack _); vm_compute; done.
  - apply (bool_decide_unpack _); vm_compute; done.
  - apply (bool_decide_unpack _); vm_compute; done.
Defined.
