(* ===== verification/TlsInterface.v ===== *)
(** * The interface between TLS and the connection (tls.py)

    The encryption level secrets and events of [src/dsquic/tls.py], and the
    class [Tls]: the operations and attributes the connection uses of
    [TlsClient] and [TlsServer].  The connection is modelled and proved over
    any instance; [TlsInstance] is the one the two state machines give. *)

From S2P Require Import Prelude Congestion.

Inductive Direction : Type := CLIENT | SERVER.
#[export] Instance Direction_eq_dec : EqDecision Direction.
Proof. solve_decision. Defined.

Record SecretAvailable : Type := mkSecretAvailable {
  sa_level : EncryptionLevel; sa_direction : Direction; sa_secret : bytes; sa_cipher_suite : Z }.

Record HandshakeComplete : Type := mkHandshakeComplete {
  hc_alpn : string; hc_peer_transport_parameters : bytes }.

Inductive TlsEvent : Type :=
| EvSendData (level : EncryptionLevel) (data : bytes)
| EvSecretAvailable (s : SecretAvailable)
| EvHandshakeComplete (h : HandshakeComplete).

Class Tls : Type := {
  tls_state : Type;
  tls_client_config : Type;
  tls_server_config : Type;
  (** [client_config.early_data], and the transport parameters kept with its
      [session_ticket]. *)
  client_early_data : tls_client_config → bool;
  client_ticket_parameters : tls_client_config → option bytes;
  (** The constructors, given our encoded transport parameters. *)
  tls_new_client : tls_client_config → bytes → tls_state;
  tls_new_server : tls_server_config → bytes → tls_state;
  tls_start : Q → M tls_state unit;
  tls_receive : EncryptionLevel → bytes → Q → M tls_state unit;
  tls_take_events : tls_state → list TlsEvent * tls_state;
  tls_early_secret : tls_state → option bytes;
  tls_cipher_suite : tls_state → Z;
  tls_early_data_accepted : tls_state → bool;
  tls_resumed : tls_state → bool;
  tls_client_transport_parameters : tls_state → bytes }.
