(* ===== verification/Handshake.v ===== *)
(** * TLS handshake messages (tls.py, message codecs)

    The handshake messages of [src/dsquic/tls.py] as data, their encoders and
    parsers, and the helpers that read single extensions.  A Python [str] is a
    [string]; [.encode("ascii")] and [.decode("ascii")] refuse bytes from 128
    on with the [ValueError] their exceptions are.  The proofs are in
    [HandshakeProofs]. *)

From Stdlib Require Import Strings.String.
From S2P Require Import Prelude Buffer Crypto.

(** ** Constants *)

Definition SUPPORTED_CIPHER_SUITES : list Z := [TLS_AES_128_GCM_SHA256; TLS_CHACHA20_POLY1305_SHA256].
Definition TLS_LEGACY_VERSION : Z := 0x0303.
Definition TLS_1_3 : Z := 0x0304.
Definition X25519_GROUP : Z := 0x001D.
Definition RSA_PSS_RSAE_SHA256 : Z := 0x0804.
Definition ECDSA_SECP256R1_SHA256 : Z := 0x0403.
Definition SUPPORTED_GROUPS : list Z := [X25519_GROUP].

Inductive HandshakeType : Type :=
| CLIENT_HELLO | SERVER_HELLO | NEW_SESSION_TICKET | ENCRYPTED_EXTENSIONS
| CERTIFICATE | CERTIFICATE_VERIFY | FINISHED.
#[export] Instance HandshakeType_eq_dec : EqDecision HandshakeType.
Proof. solve_decision. Defined.

Definition handshake_code (t : HandshakeType) : Z :=
  match t with
  | CLIENT_HELLO => 1 | SERVER_HELLO => 2 | NEW_SESSION_TICKET => 4 | ENCRYPTED_EXTENSIONS => 8
  | CERTIFICATE => 11 | CERTIFICATE_VERIFY => 15 | FINISHED => 20
  end.
Definition handshake_types : list HandshakeType :=
  [CLIENT_HELLO; SERVER_HELLO; NEW_SESSION_TICKET; ENCRYPTED_EXTENSIONS; CERTIFICATE; CERTIFICATE_VERIFY; FINISHED].

(** [HandshakeType(v)] *)
Definition HandshakeType_of (v : Z) : option HandshakeType :=
  List.find (λ t, handshake_code t =? v) handshake_types.

Definition handshake_name (t : HandshakeType) : string :=
  match t with
  | CLIENT_HELLO => "CLIENT_HELLO" | SERVER_HELLO => "SERVER_HELLO"
  | NEW_SESSION_TICKET => "NEW_SESSION_TICKET" | ENCRYPTED_EXTENSIONS => "ENCRYPTED_EXTENSIONS"
  | CERTIFICATE => "CERTIFICATE" | CERTIFICATE_VERIFY => "CERTIFICATE_VERIFY" | FINISHED => "FINISHED"
  end.

(** The members of [ExtensionType]. *)
Definition EXT_SERVER_NAME : Z := 0.
Definition EXT_SUPPORTED_GROUPS : Z := 10.
Definition EXT_SIGNATURE_ALGORITHMS : Z := 13.
Definition EXT_ALPN : Z := 16.
Definition EXT_PRE_SHARED_KEY : Z := 41.
Definition EXT_EARLY_DATA : Z := 42.
Definition EXT_SUPPORTED_VERSIONS : Z := 43.
Definition EXT_PSK_KEY_EXCHANGE_MODES : Z := 45.
Definition EXT_KEY_SHARE : Z := 51.
Definition EXT_QUIC_TRANSPORT_PARAMETERS : Z := 0x39.

(** The alerts the handshake raises. *)
Definition UNEXPECTED_MESSAGE : Z := 10.
Definition HANDSHAKE_FAILURE : Z := 40.
Definition BAD_CERTIFICATE : Z := 42.
Definition ILLEGAL_PARAMETER : Z := 47.
Definition DECODE_ERROR : Z := 50.
Definition DECRYPT_ERROR : Z := 51.
Definition PROTOCOL_VERSION : Z := 70.
Definition MISSING_EXTENSION : Z := 109.
Definition UNSUPPORTED_EXTENSION : Z := 110.
Definition NO_APPLICATION_PROTOCOL : Z := 120.

(** ** Messages *)

Record Extension : Type := mkExtension { ext_type : Z; ext_data : bytes }.

Record ClientHello : Type := mkClientHello {
  ch_random : bytes; ch_legacy_session_id : bytes; ch_cipher_suites : list Z; ch_extensions : list Extension }.
Record ServerHello : Type := mkServerHello {
  sh_random : bytes; sh_legacy_session_id_echo : bytes; sh_cipher_suite : Z; sh_extensions : list Extension }.
Record CertificateEntry : Type := mkCertificateEntry { ce_data : bytes; ce_extensions : list Extension }.
Record Certificate : Type := mkCertificate { ct_request_context : bytes; ct_entries : list CertificateEntry }.
Record CertificateVerify : Type := mkCertificateVerify { cv_algorithm : Z; cv_signature : bytes }.
Record NewSessionTicket : Type := mkNewSessionTicket {
  nst_lifetime : Z; nst_age_add : Z; nst_nonce : bytes; nst_ticket : bytes; nst_extensions : list Extension }.

Inductive HandshakeMessage : Type :=
| HClientHello (h : ClientHello)
| HServerHello (h : ServerHello)
| HEncryptedExtensions (extensions : list Extension)
| HCertificate (c : Certificate)
| HCertificateVerify (c : CertificateVerify)
| HFinished (verify_data : bytes)
| HNewSessionTicket (t : NewSessionTicket).

Definition message_type_of (m : HandshakeMessage) : HandshakeType :=
  match m with
  | HClientHello _ => CLIENT_HELLO | HServerHello _ => SERVER_HELLO
  | HEncryptedExtensions _ => ENCRYPTED_EXTENSIONS | HCertificate _ => CERTIFICATE
  | HCertificateVerify _ => CERTIFICATE_VERIFY | HFinished _ => FINISHED
  | HNewSessionTicket _ => NEW_SESSION_TICKET
  end.

(** ** Strings *)

Definition is_ascii (b : byte) : bool := Zb b <? 128.
Definition string_of_bytes (d : bytes) : string := String.string_of_list_ascii (map Ascii.ascii_of_byte d).

(** [s.encode("ascii")] and [d.decode("ascii")] *)
Definition str_encode (s : string) : result bytes :=
  if forallb is_ascii (ascii_bytes s) then Ok (ascii_bytes s)
  else Raise (ValueError "ordinal not in range(128)").
Definition str_decode (d : bytes) : result string :=
  if forallb is_ascii d then Ok (string_of_bytes d) else Raise (ValueError "ordinal not in range(128)").

(** ** Encoding *)

(** [b"".join(f(x) for x in l)] *)
Definition join {A} (f : A → result bytes) (l : list A) : result bytes :=
  parts ← mapM_result f l; Ok (concat parts).

(** [_vec] *)
Definition vec (width : nat) (data : bytes) : result bytes :=
  n ← to_bytes width (len data); Ok (n ++ data).

Definition encode_extension (e : Extension) : result bytes :=
  t ← to_bytes 2 (ext_type e); d ← vec 2 (ext_data e); Ok (t ++ d).
Definition encode_extensions (extensions : list Extension) : result bytes :=
  body ← join encode_extension extensions; vec 2 body.

Definition handshake_message (t : HandshakeType) (body : bytes) : result bytes :=
  head ← byte_literal (handshake_code t); b ← vec 3 body; Ok (head ++ b).

Definition encode_client_hello (hello : ClientHello) : result bytes :=
  suites ← join (to_bytes 2) (ch_cipher_suites hello);
  version ← to_bytes 2 TLS_LEGACY_VERSION;
  session ← vec 1 (ch_legacy_session_id hello);
  suites ← vec 2 suites;
  compression ← vec 1 [x00];
  extensions ← encode_extensions (ch_extensions hello);
  handshake_message CLIENT_HELLO (version ++ ch_random hello ++ session ++ suites ++ compression ++ extensions).

Definition encode_server_hello (hello : ServerHello) : result bytes :=
  version ← to_bytes 2 TLS_LEGACY_VERSION;
  session ← vec 1 (sh_legacy_session_id_echo hello);
  suite ← to_bytes 2 (sh_cipher_suite hello);
  extensions ← encode_extensions (sh_extensions hello);
  handshake_message SERVER_HELLO (version ++ sh_random hello ++ session ++ suite ++ [x00] ++ extensions).

Definition encode_new_session_ticket (message : NewSessionTicket) : result bytes :=
  lifetime ← to_bytes 4 (nst_lifetime message);
  age_add ← to_bytes 4 (nst_age_add message);
  nonce ← vec 1 (nst_nonce message);
  ticket ← vec 2 (nst_ticket message);
  extensions ← encode_extensions (nst_extensions message);
  handshake_message NEW_SESSION_TICKET (lifetime ++ age_add ++ nonce ++ ticket ++ extensions).

Definition encode_encrypted_extensions (extensions : list Extension) : result bytes :=
  body ← encode_extensions extensions; handshake_message ENCRYPTED_EXTENSIONS body.

Definition encode_certificate_entry (entry : CertificateEntry) : result bytes :=
  d ← vec 3 (ce_data entry); e ← encode_extensions (ce_extensions entry); Ok (d ++ e).
Definition encode_certificate (message : Certificate) : result bytes :=
  entries ← join encode_certificate_entry (ct_entries message);
  context ← vec 1 (ct_request_context message);
  entries ← vec 3 entries;
  handshake_message CERTIFICATE (context ++ entries).

Definition encode_certificate_verify (message : CertificateVerify) : result bytes :=
  algorithm ← to_bytes 2 (cv_algorithm message);
  signature ← vec 2 (cv_signature message);
  handshake_message CERTIFICATE_VERIFY (algorithm ++ signature).

Definition encode_finished (verify_data : bytes) : result bytes := handshake_message FINISHED verify_data.

(** The encoder of each message class. *)
Definition encode_message (m : HandshakeMessage) : result bytes :=
  match m with
  | HClientHello h => encode_client_hello h
  | HServerHello h => encode_server_hello h
  | HEncryptedExtensions e => encode_encrypted_extensions e
  | HCertificate c => encode_certificate c
  | HCertificateVerify c => encode_certificate_verify c
  | HFinished v => encode_finished v
  | HNewSessionTicket t => encode_new_session_ticket t
  end.

(** ** Parsing *)

(** [buf.pull_bytes(buf.pull_uint8())] and the wider forms *)
Definition pull_vec8 : M Buffer bytes := n ← pull_uint8; pull_bytes n.
Definition pull_vec16 : M Buffer bytes := n ← pull_uint16; pull_bytes n.
Definition pull_vec24 : M Buffer bytes := n ← pull_uint24; pull_bytes n.

(** [while not block.is_empty: l.append(item)], on a buffer of its own; an
    item consumes at least a byte, so the block's length is enough fuel. *)
Fixpoint items_loop {A} (fuel : nat) (item : M Buffer A) : M Buffer (list A) :=
  b ← get;
  if is_empty b then mret []
  else match fuel with
  | O => raise OutOfFuel
  | S k => x ← item; xs ← items_loop k item; mret (x :: xs)
  end.
Definition items {A} (item : M Buffer A) (block : bytes) : result (list A) :=
  (items_loop (length block) item (new_buffer block)).1.

Definition pull_extension : M Buffer Extension :=
  t ← pull_uint16; d ← pull_vec16; mret (mkExtension t d).
Definition parse_extensions : M Buffer (list Extension) :=
  block ← pull_vec16; lift (items pull_extension block).

Definition parse_client_hello : M Buffer HandshakeMessage :=
  version ← pull_uint16;
  if negb (version =? TLS_LEGACY_VERSION) then raise (HandshakeParseError "legacy_version is not 0x0303")
  else
    random ← pull_bytes 32;
    session_id ← pull_vec8;
    suites_block ← pull_vec16;
    cipher_suites ← lift (items pull_uint16 suites_block);
    compression ← pull_vec8;
    if bool_decide (compression ≠ [x00]) then
      raise (HandshakeParseError "legacy_compression_methods is not null-only")
    else
      extensions ← parse_extensions;
      mret (HClientHello (mkClientHello random session_id cipher_suites extensions)).

Definition parse_server_hello : M Buffer HandshakeMessage :=
  version ← pull_uint16;
  if negb (version =? TLS_LEGACY_VERSION) then raise (HandshakeParseError "legacy_version is not 0x0303")
  else
    random ← pull_bytes 32;
    session_id_echo ← pull_vec8;
    cipher_suite ← pull_uint16;
    compression ← pull_uint8;
    if negb (compression =? 0) then raise (HandshakeParseError "legacy_compression_method is not null")
    else
      extensions ← parse_extensions;
      mret (HServerHello (mkServerHello random session_id_echo cipher_suite extensions)).

Definition pull_certificate_entry : M Buffer CertificateEntry :=
  data ← pull_vec24; extensions ← parse_extensions; mret (mkCertificateEntry data extensions).
Definition parse_certificate : M Buffer HandshakeMessage :=
  request_context ← pull_vec8;
  entries_block ← pull_vec24;
  entries ← lift (items pull_certificate_entry entries_block);
  mret (HCertificate (mkCertificate request_context entries)).

Definition parse_new_session_ticket : M Buffer HandshakeMessage :=
  lifetime ← pull_uint32;
  age_add ← pull_uint32;
  nonce ← pull_vec8;
  ticket ← pull_vec16;
  extensions ← parse_extensions;
  mret (HNewSessionTicket (mkNewSessionTicket lifetime age_add nonce ticket extensions)).

Definition parse_certificate_verify : M Buffer HandshakeMessage :=
  algorithm ← pull_uint16; signature ← pull_vec16; mret (HCertificateVerify (mkCertificateVerify algorithm signature)).

(** The dispatch of [parse_handshake_message] *)
Definition parse_body (t : HandshakeType) : M Buffer HandshakeMessage :=
  match t with
  | CLIENT_HELLO => parse_client_hello
  | SERVER_HELLO => parse_server_hello
  | ENCRYPTED_EXTENSIONS => e ← parse_extensions; mret (HEncryptedExtensions e)
  | CERTIFICATE => parse_certificate
  | CERTIFICATE_VERIFY => parse_certificate_verify
  | FINISHED => n ← gets remaining; v ← pull_bytes n; mret (HFinished v)
  | NEW_SESSION_TICKET => parse_new_session_ticket
  end.

Definition parse_handshake_message (data : bytes) : result (HandshakeMessage * Z) :=
  ((code ← pull_uint8;
   match HandshakeType_of code with
   | None => raise (HandshakeParseError ("unknown handshake message type: " +:+ pretty code
                                         +:+ " is not a valid HandshakeType"))
   | Some t =>
       body ← pull_vec24;
       '(message, after) ← lift (let '(r, after) := parse_body t (new_buffer body) in m ← r; Ok (m, after));
       if is_empty after then consumed ← gets position; mret (message, consumed)
       else raise (HandshakeParseError ("trailing bytes in " +:+ handshake_name t))
   end) (new_buffer data)).1.

(** ** Extensions *)

(** [_find_extension] *)
Definition find_extension (extensions : list Extension) (t : Z) : option bytes :=
  ext_data <$> List.find (λ e, ext_type e =? t) extensions.

(** [Buffer(data).pull_bytes(int.from_bytes(data[:2], "big") + 2)[2:]] *)
Definition counted_block (data : bytes) : result bytes :=
  whole ← (pull_bytes (from_bytes (slice 0 2 data) + 2) (new_buffer data)).1;
  Ok (drop 2 whole).

Definition key_share_entry (group : Z) (public_key : bytes) : result bytes :=
  g ← to_bytes 2 group; k ← vec 2 public_key; Ok (g ++ k).

Definition hex4 (v : Z) : string := "0x" +:+ hex_pad 4 v.

(** [_parse_key_share_entry] *)
Definition parse_key_share_entry (data : bytes) : result (Z * bytes) :=
  ((group ← pull_uint16;
    if negb (bool_decide (group ∈ SUPPORTED_GROUPS)) then
      raise (TlsAlert ILLEGAL_PARAMETER ("key_share group " +:+ hex4 group +:+ " is not supported"))
    else key ← pull_vec16; mret (group, key)) (new_buffer data)).1.

(** The loop of [_client_key_share]: it returns at the first x25519 entry. *)
Fixpoint key_share_loop (fuel : nat) : M Buffer (option bytes) :=
  b ← get;
  if is_empty b then mret None
  else match fuel with
  | O => raise OutOfFuel
  | S k =>
      group ← pull_uint16;
      public_key ← pull_vec16;
      if group =? X25519_GROUP then mret (Some public_key) else key_share_loop k
  end.
Definition client_key_share (entries : bytes) : result (option bytes) :=
  block ← counted_block entries; (key_share_loop (length block) (new_buffer block)).1.

Definition parse_supported_groups (data : bytes) : result (list Z) :=
  block ← counted_block data; items pull_uint16 block.

Definition encode_protocol (protocol : string) : result bytes := p ← str_encode protocol; vec 1 p.
Definition alpn_extension (protocols : list string) : result bytes :=
  names ← join encode_protocol protocols; vec 2 names.

Definition pull_protocol : M Buffer string := p ← pull_vec8; lift (str_decode p).
Definition parse_alpn (data : bytes) : result (list string) :=
  block ← counted_block data; items pull_protocol block.
