(* ===== verification/Codec.v ===== *)
(** * Codecs: parsers that are exact inverses of encoders

    [codec p enc wf E] relates a parser to the bytes of the values it reads:
    it reads back every well-formed value and consumes exactly its bytes, and
    whatever it reads is well-formed and was written as those bytes; it raises
    only exceptions in [E].  Parsers built by sequencing, checking and
    repeating inherit the relation from their parts. *)

From S2P Require Import Prelude Buffer Handshake.

Record codec {A} (p : M Buffer A) (enc : A → bytes) (wf : A → Prop) (E : exn → Prop) : Prop := {
  codec_complete a pre rest : wf a → p (mkbuf pre (enc a ++ rest)) = (Ok a, mkbuf (pre ++ enc a) rest);
  codec_sound pre rest :
    match p (mkbuf pre rest) with
    | (Ok a, b) => wf a ∧ ∃ rest', rest = enc a ++ rest' ∧ b = mkbuf (pre ++ enc a) rest'
    | (Raise e, _) => E e
    end }.
Arguments codec_complete {_ _ _ _ _} _.
Arguments codec_sound {_ _ _ _ _} _.

(** A value of [n] bits. *)
Definition bits (n v : Z) : Prop := 0 <= v < 2 ^ n.

(** A vector: its length in [w] bytes, then the bytes. *)
Definition vec_bytes (w : nat) (d : bytes) : bytes := be_bytes w (len d) ++ d.

Lemma vec_ok w d : len d < 256 ^ Z.of_nat w → vec w d = Ok (vec_bytes w d).
Proof. intros H. unfold vec. pose proof (len_nonneg d). by rewrite to_bytes_ok by lia. Qed.

Lemma len_vec_bytes w d : len (vec_bytes w d) = Z.of_nat w + len d.
Proof. unfold vec_bytes. by rewrite len_app, len_be_bytes. Qed.
#[export] Hint Rewrite len_vec_bytes : lens.

Lemma join_ok {A} (f : A → result bytes) enc l :
  Forall (λ x, f x = Ok (enc x)) l → join f l = Ok (concat (enc <$> l)).
Proof.
  intros H. unfold join. assert (mapM_result f l = Ok (enc <$> l)) as ->; [|done].
  induction H as [|x l Hx _ IH]; [done|]. cbn. by rewrite Hx, IH.
Qed.

Section combinators.
Context (E : exn → Prop) (HE : ∀ msg, E (BufferReadError msg)).

Lemma codec_ret {A} (v : A) wf : (∀ a, wf a ↔ a = v) → codec (mret v) (λ _, []) wf E.
Proof.
  intros H. split.
  - intros a pre rest ->%H. by rewrite app_nil_r.
  - intros pre rest. split; [by apply H|]. exists rest. by rewrite app_nil_r.
Qed.

Lemma codec_raise {A} e (enc : A → bytes) (wf : A → Prop) :
  E e → (∀ a, wf a → False) → codec (raise e) enc wf E.
Proof. intros He H. split; [by intros a ?? []%H|done]. Qed.

Lemma codec_bind {A B} (p : M Buffer A) (k : A → M Buffer B) (proj : B → A) e1 w1 e2 (wf : B → Prop) :
  codec p e1 w1 E →
  (∀ b, wf b → w1 (proj b)) →
  (∀ a, w1 a → codec (k a) e2 (λ b, wf b ∧ proj b = a) E) →
  codec (p ≫= k) (λ b, e1 (proj b) ++ e2 b) wf E.
Proof.
  intros Hp Hw Hk. split.
  - intros b pre rest Hb. rewrite <- app_assoc.
    erewrite M_bind_ok by (apply (codec_complete Hp); auto).
    rewrite (codec_complete (Hk (proj b) (Hw b Hb))) by done. by rewrite <- app_assoc.
  - intros pre rest. pose proof (codec_sound Hp pre rest) as S. unfold mbind, M_bind.
    destruct (p (mkbuf pre rest)) as [[a|e] b1]; [|done]. destruct S as (Ha & r1 & -> & ->).
    pose proof (codec_sound (Hk a Ha) (pre ++ e1 a) r1) as S.
    destruct (k a _) as [[b|e] b2]; [|done]. destruct S as ((Hb & <-) & r2 & -> & ->).
    split; [done|]. exists r2. by rewrite <- !app_assoc.
Qed.

Lemma codec_pointwise {A} (p q : M Buffer A) enc wf : (∀ b, p b = q b) → codec p enc wf E → codec q enc wf E.
Proof. intros H [C S]. split; intros; rewrite <- H; [by apply C|apply S]. Qed.

Lemma codec_assoc {A B C} (p : M Buffer A) (f : A → M Buffer B) (k : B → M Buffer C) enc wf :
  codec ((p ≫= f) ≫= k) enc wf E → codec (x ← p; y ← f x; k y) enc wf E.
Proof. apply codec_pointwise. intros b. unfold mbind, M_bind. by destruct (p b) as [[a|e] b']. Qed.

Lemma codec_ext {A} (p : M Buffer A) enc enc' (wf wf' : A → Prop) :
  codec p enc wf E → (∀ a, wf a ↔ wf' a) → (∀ a, wf' a → enc a = enc' a) → codec p enc' wf' E.
Proof.
  intros [C S] Hw He. split.
  - intros a pre rest Ha. rewrite <- !He by done. apply C. by apply Hw.
  - intros pre rest. specialize (S pre rest). destruct (p _) as [[a|e] b]; [|done].
    destruct S as (Ha%Hw & r & -> & ->). split; [done|]. exists r. by rewrite He.
Qed.

Lemma codec_bytes n : 0 <= n → codec (pull_bytes n) (λ l, l) (λ l, len l = n) E.
Proof.
  intros Hn. split.
  - intros a pre rest <-. by apply pull_bytes_app.
  - intros pre rest. destruct (pull_bytes_cases pre rest n Hn) as [(bs & r & -> & Hl & ->)|[_ [msg ->]]]; eauto.
Qed.

Lemma codec_be n :
  codec (l ← pull_bytes (Z.of_nat n); mret (from_bytes l)) (be_bytes n) (λ v, 0 <= v < 256 ^ Z.of_nat n) E.
Proof.
  split.
  - intros a pre rest Ha. by apply pull_be_app.
  - intros pre rest. unfold mbind, M_bind.
    destruct (pull_bytes_cases pre rest (Z.of_nat n) ltac:(lia)) as [(bs & r & -> & Hl & ->)|[_ [msg ->]]]; [|done].
    cbn. split; [rewrite <- Hl; apply from_bytes_range|]. exists r.
    assert (be_bytes n (from_bytes bs) = bs) as ->; [|done].
    replace n with (length bs) by (unfold len in Hl; lia). apply be_bytes_from.
Qed.
Lemma codec_uint16 : codec pull_uint16 (be_bytes 2) (bits 16) E.
Proof. exact (codec_be 2). Qed.
Lemma codec_uint24 : codec pull_uint24 (be_bytes 3) (bits 24) E.
Proof. exact (codec_be 3). Qed.
Lemma codec_uint32 : codec pull_uint32 (be_bytes 4) (bits 32) E.
Proof. exact (codec_be 4). Qed.
Lemma codec_uint8 : codec pull_uint8 (be_bytes 1) (bits 8) E.
Proof.
  split.
  - intros a pre rest Ha. cbn. rewrite pull_uint8_cons, Zb_bZ_small by exact Ha. done.
  - intros pre [|x rest].
    + by destruct (pull_uint8_nil pre) as [msg ->].
    + rewrite pull_uint8_cons. split; [apply Zb_range|]. exists rest. cbn. by rewrite bZ_Zb.
Qed.

(** A length and as many bytes. *)
Lemma codec_counted (p : M Buffer Z) w :
  codec p (be_bytes w) (λ v, 0 <= v < 256 ^ Z.of_nat w) E →
  codec (n ← p; pull_bytes n) (vec_bytes w) (λ d, len d < 256 ^ Z.of_nat w) E.
Proof.
  intros Hp. apply (codec_bind p pull_bytes len _ _ (λ d, d) _ Hp).
  - intros d Hd. pose proof (len_nonneg d). lia.
  - intros n Hn. eapply codec_ext; [apply codec_bytes; lia| |done]. cbn. intros d. lia.
Qed.
Lemma codec_vec8 : codec pull_vec8 (vec_bytes 1) (λ d, len d < 2 ^ 8) E.
Proof. apply (codec_counted pull_uint8 1), codec_uint8. Qed.
Lemma codec_vec16 : codec pull_vec16 (vec_bytes 2) (λ d, len d < 2 ^ 16) E.
Proof. apply (codec_counted pull_uint16 2), codec_uint16. Qed.
Lemma codec_vec24 : codec pull_vec24 (vec_bytes 3) (λ d, len d < 2 ^ 24) E.
Proof. apply (codec_counted pull_uint24 3), codec_uint24. Qed.

(** Items until a block is used up. *)
Section items.
Context {A : Type} (item : M Buffer A) (enc : A → bytes) (wf : A → Prop).
Context (Hitem : codec item enc wf E) (Hne : ∀ a, enc a ≠ []).

Lemma items_loop_complete xs : ∀ fuel pre,
  Forall wf xs → (length (concat (enc <$> xs)) <= fuel)%nat →
  items_loop fuel item (mkbuf pre (concat (enc <$> xs))) = (Ok xs, mkbuf (pre ++ concat (enc <$> xs)) []).
Proof.
  induction xs as [|x xs IH]; intros fuel pre Hw Hf; destruct fuel as [|k]; cbn [items_loop];
    (erewrite M_bind_ok by done); rewrite is_empty_mkbuf; cbn [fmap list_fmap concat] in *; rewrite ?app_nil_r; try done.
  - apply Forall_cons in Hw as [Hx _]. destruct (enc x) eqn:Ex; [by apply Hne in Ex|]. cbn in Hf. lia.
  - apply Forall_cons in Hw as [Hx Hw]. rewrite length_app in Hf.
    assert (0 < length (enc x))%nat by (destruct (enc x) eqn:Ex; [by apply Hne in Ex|cbn; lia]).
    rewrite (proj2 (Z.eqb_neq _ 0)) by (unfold len; rewrite length_app; lia).
    erewrite M_bind_ok by (by apply (codec_complete Hitem)).
    erewrite M_bind_ok by (apply IH; [done|lia]). by rewrite <- app_assoc.
Qed.

Lemma items_loop_sound fuel : ∀ pre rest,
  (length rest <= fuel)%nat →
  match items_loop fuel item (mkbuf pre rest) with
  | (Ok xs, _) => Forall wf xs ∧ rest = concat (enc <$> xs)
  | (Raise e, _) => E e
  end.
Proof.
  induction fuel as [|k IH]; intros pre rest Hf; cbn [items_loop];
    (erewrite M_bind_ok by done); rewrite is_empty_mkbuf.
  - destruct rest; [done|cbn in Hf; lia].
  - destruct rest as [|y rest]; [done|]. rewrite (proj2 (Z.eqb_neq _ 0)) by (unfold len; cbn; lia).
    pose proof (codec_sound Hitem pre (y :: rest)) as S. unfold mbind, M_bind.
    destruct (item _) as [[x|e] b]; [|done]. destruct S as (Hx & r & Er & ->).
    assert (0 < length (enc x))%nat by (destruct (enc x) eqn:Ex; [by apply Hne in Ex|cbn; lia]).
    specialize (IH (pre ++ enc x) r). destruct (items_loop k item _) as [[xs|e] b'].
    + destruct IH as [Hxs ->]; [apply (f_equal length) in Er; rewrite length_app in Er; cbn in *; lia|].
      split; [by apply Forall_cons|]. by rewrite Er.
    + apply IH. apply (f_equal length) in Er; rewrite length_app in Er; cbn in *; lia.
Qed.

Lemma items_complete xs : Forall wf xs → items item (concat (enc <$> xs)) = Ok xs.
Proof. intros H. unfold items. rewrite new_buffer_mkbuf. by rewrite items_loop_complete by (done || lia). Qed.

Lemma items_sound block :
  match items item block with
  | Ok xs => Forall wf xs ∧ block = concat (enc <$> xs)
  | Raise e => E e
  end.
Proof.
  unfold items. rewrite new_buffer_mkbuf. pose proof (items_loop_sound (length block) [] block ltac:(lia)) as H.
  by destruct (items_loop _ _ _) as [[xs|e] b].
Qed.

(** A block in a vector, read into a buffer of its own. *)
Lemma codec_block (p : M Buffer bytes) w :
  codec p (vec_bytes w) (λ d, len d < 256 ^ Z.of_nat w) E →
  codec (block ← p; lift (items item block)) (λ xs, vec_bytes w (concat (enc <$> xs)))
    (λ xs, Forall wf xs ∧ len (concat (enc <$> xs)) < 256 ^ Z.of_nat w) E.
Proof.
  intros Hp. split.
  - intros xs pre rest [Hx Hl]. erewrite M_bind_ok by (by apply (codec_complete Hp)).
    unfold lift. by rewrite items_complete.
  - intros pre rest. pose proof (codec_sound Hp pre rest) as S. unfold mbind, M_bind, lift.
    destruct (p _) as [[block|e] b]; [|done]. destruct S as (Hl & r & -> & ->).
    pose proof (items_sound block) as Hi. destruct (items item block) as [xs|e]; [|done].
    destruct Hi as [Hx ->]. eauto.
Qed.
End items.
End combinators.
