(* ===== verification/HandshakeProofs.v ===== *)
(** * Handshake messages: correctness of the codecs

    Every parser of [Handshake] is the exact inverse of its encoder: it reads
    back what the encoder writes, and reads nothing else.  The extension
    helpers (key shares, groups, protocol names) likewise. *)

From Stdlib Require Import Strings.String.
From S2P Require Import Prelude Buffer Crypto Handshake Codec.

(** The exceptions [parse_handshake_message] raises. *)
Definition parse_error (e : exn) : Prop :=
  match e with BufferReadError _ | HandshakeParseError _ => True | _ => False end.

Lemma parse_error_short msg : parse_error (BufferReadError msg).
Proof. done. Qed.

(** ** Bytes and well-formedness of each structure *)

Definition ext_bytes (e : Extension) : bytes := be_bytes 2 (ext_type e) ++ vec_bytes 2 (ext_data e).
Definition wf_ext (e : Extension) : Prop := bits 16 (ext_type e) ∧ len (ext_data e) < 2 ^ 16.

Definition exts_bytes (l : list Extension) : bytes := vec_bytes 2 (concat (ext_bytes <$> l)).
Definition wf_exts (l : list Extension) : Prop := Forall wf_ext l ∧ len (concat (ext_bytes <$> l)) < 2 ^ 16.

Definition entry_bytes (e : CertificateEntry) : bytes := vec_bytes 3 (ce_data e) ++ exts_bytes (ce_extensions e).
Definition wf_entry (e : CertificateEntry) : Prop := len (ce_data e) < 2 ^ 24 ∧ wf_exts (ce_extensions e).

(** The body of a message, without the type and the length. *)
Definition body_bytes (m : HandshakeMessage) : bytes :=
  match m with
  | HClientHello h =>
      be_bytes 2 TLS_LEGACY_VERSION ++ ch_random h ++ vec_bytes 1 (ch_legacy_session_id h) ++
      vec_bytes 2 (concat (be_bytes 2 <$> ch_cipher_suites h)) ++ vec_bytes 1 [x00] ++ exts_bytes (ch_extensions h)
  | HServerHello h =>
      be_bytes 2 TLS_LEGACY_VERSION ++ sh_random h ++ vec_bytes 1 (sh_legacy_session_id_echo h) ++
      be_bytes 2 (sh_cipher_suite h) ++ [x00] ++ exts_bytes (sh_extensions h)
  | HEncryptedExtensions l => exts_bytes l
  | HCertificate c => vec_bytes 1 (ct_request_context c) ++ vec_bytes 3 (concat (entry_bytes <$> ct_entries c))
  | HCertificateVerify c => be_bytes 2 (cv_algorithm c) ++ vec_bytes 2 (cv_signature c)
  | HFinished v => v
  | HNewSessionTicket t =>
      be_bytes 4 (nst_lifetime t) ++ be_bytes 4 (nst_age_add t) ++ vec_bytes 1 (nst_nonce t) ++
      vec_bytes 2 (nst_ticket t) ++ exts_bytes (nst_extensions t)
  end.

Definition wf_fields (m : HandshakeMessage) : Prop :=
  match m with
  | HClientHello h =>
      len (ch_random h) = 32 ∧ len (ch_legacy_session_id h) < 2 ^ 8 ∧
      (Forall (bits 16) (ch_cipher_suites h) ∧ len (concat (be_bytes 2 <$> ch_cipher_suites h)) < 2 ^ 16) ∧
      wf_exts (ch_extensions h)
  | HServerHello h =>
      len (sh_random h) = 32 ∧ len (sh_legacy_session_id_echo h) < 2 ^ 8 ∧ bits 16 (sh_cipher_suite h) ∧
      wf_exts (sh_extensions h)
  | HEncryptedExtensions l => wf_exts l
  | HCertificate c =>
      len (ct_request_context c) < 2 ^ 8 ∧
      (Forall wf_entry (ct_entries c) ∧ len (concat (entry_bytes <$> ct_entries c)) < 2 ^ 24)
  | HCertificateVerify c => bits 16 (cv_algorithm c) ∧ len (cv_signature c) < 2 ^ 16
  | HFinished _ => True
  | HNewSessionTicket t =>
      bits 32 (nst_lifetime t) ∧ bits 32 (nst_age_add t) ∧ len (nst_nonce t) < 2 ^ 8 ∧
      len (nst_ticket t) < 2 ^ 16 ∧ wf_exts (nst_extensions t)
  end.

(** Every field fits its width, and the body fits the 24-bit length. *)
Definition wf_message (m : HandshakeMessage) : Prop := wf_fields m ∧ len (body_bytes m) < 2 ^ 24.

Definition message_bytes (m : HandshakeMessage) : bytes :=
  be_bytes 1 (handshake_code (message_type_of m)) ++ vec_bytes 3 (body_bytes m).

(** ** Codecs of the parts *)

Ltac codec_seq proj c :=
  eapply (codec_bind parse_error _ _ proj); [apply c; try exact parse_error_short | |].

Lemma codec_extension : codec pull_extension ext_bytes wf_ext parse_error.
Proof.
  eapply codec_ext; [|reflexivity|].
  - codec_seq ext_type codec_uint16; [by intros ? []|]. intros t Ht.
    codec_seq ext_data codec_vec16; [by intros ? [[] _]|]. intros d Hd.
    apply codec_ret. intros [t' d']. unfold wf_ext. cbn. naive_solver.
  - intros e _. cbn. by rewrite app_nil_r.
Qed.

Lemma ext_bytes_ne e : ext_bytes e ≠ [].
Proof. intros H%(f_equal len). unfold ext_bytes in H. rewrite len_app, len_be_bytes, len_vec_bytes in H. change (len []) with 0 in H.
  pose proof (len_nonneg (ext_data e)). lia. Qed.

Lemma codec_extensions : codec parse_extensions exts_bytes wf_exts parse_error.
Proof.
  apply (codec_block parse_error pull_extension ext_bytes wf_ext codec_extension ext_bytes_ne pull_vec16 2).
  exact (codec_vec16 _ parse_error_short).
Qed.

Lemma codec_entry : codec pull_certificate_entry entry_bytes wf_entry parse_error.
Proof.
  eapply codec_ext; [|reflexivity|].
  - codec_seq ce_data codec_vec24; [by intros ? []|]. intros d Hd.
    codec_seq ce_extensions codec_extensions; [by intros ? [[] _]|]. intros l Hl.
    apply codec_ret. intros [d' l']. unfold wf_entry. cbn. naive_solver.
  - intros e _. cbn. by rewrite app_nil_r.
Qed.

Lemma entry_bytes_ne e : entry_bytes e ≠ [].
Proof. intros H%(f_equal len). unfold entry_bytes, exts_bytes in H. rewrite len_app, !len_vec_bytes in H. change (len []) with 0 in H.
  pose proof (len_nonneg (ce_data e)). pose proof (len_nonneg (concat (ext_bytes <$> ce_extensions e))). lia. Qed.

Lemma be_bytes2_ne v : be_bytes 2 v ≠ [].
Proof. by intros H%(f_equal len). Qed.

(** A block of items whose codec is known. *)
Lemma codec_suites_block :
  codec (block ← pull_vec16; lift (items pull_uint16 block)) (λ l, vec_bytes 2 (concat (be_bytes 2 <$> l)))
    (λ l, Forall (bits 16) l ∧ len (concat (be_bytes 2 <$> l)) < 2 ^ 16) parse_error.
Proof.
  apply (codec_block parse_error pull_uint16 (be_bytes 2) (bits 16)
           (codec_uint16 _ parse_error_short) be_bytes2_ne pull_vec16 2).
  exact (codec_vec16 _ parse_error_short).
Qed.

Lemma codec_entries_block :
  codec (block ← pull_vec24; lift (items pull_certificate_entry block)) (λ l, vec_bytes 3 (concat (entry_bytes <$> l)))
    (λ l, Forall wf_entry l ∧ len (concat (entry_bytes <$> l)) < 2 ^ 24) parse_error.
Proof.
  apply (codec_block parse_error pull_certificate_entry entry_bytes wf_entry codec_entry entry_bytes_ne pull_vec24 3).
  exact (codec_vec24 _ parse_error_short).
Qed.

(** The messages of type [t]. *)
Definition message_of (t : HandshakeType) (m : HandshakeMessage) : Prop := message_type_of m = t ∧ wf_fields m.

Definition hello_of (m : HandshakeMessage) : ClientHello :=
  match m with HClientHello h => h | _ => mkClientHello [] [] [] [] end.
Definition server_hello_of (m : HandshakeMessage) : ServerHello :=
  match m with HServerHello h => h | _ => mkServerHello [] [] 0 [] end.
Definition certificate_of (m : HandshakeMessage) : Certificate :=
  match m with HCertificate c => c | _ => mkCertificate [] [] end.
Definition verify_of (m : HandshakeMessage) : CertificateVerify :=
  match m with HCertificateVerify c => c | _ => mkCertificateVerify 0 [] end.
Definition ticket_of (m : HandshakeMessage) : NewSessionTicket :=
  match m with HNewSessionTicket t => t | _ => mkNewSessionTicket 0 0 [] [] [] end.
Definition extensions_of (m : HandshakeMessage) : list Extension :=
  match m with HEncryptedExtensions l => l | _ => [] end.

(** Close a step of a sequence: the part's well-formedness, or the record it
    ends in. *)
Ltac part_wf := intros [] ?; unfold message_of in *; cbn in *; naive_solver.
Ltac close_message :=
  apply codec_ret; intros [ []| []|?| []| []|?| [] ]; unfold message_of; cbn; naive_solver.

Lemma codec_client_hello : codec parse_client_hello body_bytes (message_of CLIENT_HELLO) parse_error.
Proof.
  eapply codec_ext; [|reflexivity|].
  - codec_seq (λ _ : HandshakeMessage, TLS_LEGACY_VERSION) codec_uint16; [done|]. intros v Hv.
    destruct (Z.eqb_spec v TLS_LEGACY_VERSION) as [->|Hne]; cbn [negb];
      [|apply codec_raise; [done|]; intros ? [_ ?]; congruence].
    codec_seq (λ m, ch_random (hello_of m)) codec_bytes; [done|part_wf|]. intros r Hr.
    codec_seq (λ m, ch_legacy_session_id (hello_of m)) codec_vec8; [part_wf|]. intros sid Hsid.
    apply codec_assoc. codec_seq (λ m, ch_cipher_suites (hello_of m)) codec_suites_block; [part_wf|]. intros suites Hs.
    codec_seq (λ _ : HandshakeMessage, [x00]) codec_vec8; [done|]. intros c Hc.
    case_bool_decide as Hz; [apply codec_raise; [done|]; intros ? [_ ?]; congruence|]. subst c.
    codec_seq (λ m, ch_extensions (hello_of m)) codec_extensions; [part_wf|]. intros l Hl.
    close_message.
  - intros [] [[=] _]. cbn. by rewrite app_nil_r.
Qed.

Lemma codec_server_hello : codec parse_server_hello body_bytes (message_of SERVER_HELLO) parse_error.
Proof.
  eapply codec_ext; [|reflexivity|].
  - codec_seq (λ _ : HandshakeMessage, TLS_LEGACY_VERSION) codec_uint16; [done|]. intros v Hv.
    destruct (Z.eqb_spec v TLS_LEGACY_VERSION) as [->|Hne]; cbn [negb];
      [|apply codec_raise; [done|]; intros ? [_ ?]; congruence].
    codec_seq (λ m, sh_random (server_hello_of m)) codec_bytes; [done|part_wf|]. intros r Hr.
    codec_seq (λ m, sh_legacy_session_id_echo (server_hello_of m)) codec_vec8; [part_wf|]. intros sid Hsid.
    codec_seq (λ m, sh_cipher_suite (server_hello_of m)) codec_uint16; [part_wf|]. intros suite Hs.
    codec_seq (λ _ : HandshakeMessage, 0) codec_uint8; [done|]. intros c Hc.
    destruct (Z.eqb_spec c 0) as [->|Hc0]; cbn [negb]; [|apply codec_raise; [done|]; intros ? [_ ?]; congruence].
    codec_seq (λ m, sh_extensions (server_hello_of m)) codec_extensions; [part_wf|]. intros l Hl.
    close_message.
  - intros [] [[=] _]. cbn. by rewrite app_nil_r.
Qed.

Lemma codec_certificate : codec parse_certificate body_bytes (message_of CERTIFICATE) parse_error.
Proof.
  eapply codec_ext; [|reflexivity|].
  - codec_seq (λ m, ct_request_context (certificate_of m)) codec_vec8; [part_wf|]. intros r Hr.
    apply codec_assoc. codec_seq (λ m, ct_entries (certificate_of m)) codec_entries_block; [part_wf|]. intros l Hl.
    close_message.
  - intros [] [[=] _]. cbn. by rewrite app_nil_r.
Qed.

Lemma codec_certificate_verify :
  codec parse_certificate_verify body_bytes (message_of CERTIFICATE_VERIFY) parse_error.
Proof.
  eapply codec_ext; [|reflexivity|].
  - codec_seq (λ m, cv_algorithm (verify_of m)) codec_uint16; [part_wf|]. intros a Ha.
    codec_seq (λ m, cv_signature (verify_of m)) codec_vec16; [part_wf|]. intros d Hd.
    close_message.
  - intros [] [[=] _]. cbn. by rewrite app_nil_r.
Qed.

Lemma codec_new_session_ticket :
  codec parse_new_session_ticket body_bytes (message_of NEW_SESSION_TICKET) parse_error.
Proof.
  eapply codec_ext; [|reflexivity|].
  - codec_seq (λ m, nst_lifetime (ticket_of m)) codec_uint32; [part_wf|]. intros a Ha.
    codec_seq (λ m, nst_age_add (ticket_of m)) codec_uint32; [part_wf|]. intros b Hb.
    codec_seq (λ m, nst_nonce (ticket_of m)) codec_vec8; [part_wf|]. intros c Hc.
    codec_seq (λ m, nst_ticket (ticket_of m)) codec_vec16; [part_wf|]. intros d Hd.
    codec_seq (λ m, nst_extensions (ticket_of m)) codec_extensions; [part_wf|]. intros l Hl.
    close_message.
  - intros [] [[=] _]. cbn. by rewrite app_nil_r.
Qed.

Lemma codec_encrypted_extensions :
  codec (e ← parse_extensions; mret (HEncryptedExtensions e)) body_bytes (message_of ENCRYPTED_EXTENSIONS) parse_error.
Proof.
  eapply codec_ext; [|reflexivity|].
  - codec_seq extensions_of codec_extensions; [part_wf|]. intros l Hl. close_message.
  - intros [] [[=] _]. cbn. by rewrite app_nil_r.
Qed.

(** ** Whole messages *)

(** On the body of a message alone, the parser of its type returns it and
    leaves nothing; and a body it uses up is the body of what it returned. *)
Lemma parse_body_complete m :
  wf_fields m →
  parse_body (message_type_of m) (mkbuf [] (body_bytes m)) = (Ok m, mkbuf (body_bytes m) []).
Proof.
  intros Hw. rewrite <- (app_nil_r (body_bytes m)) at 1.
  assert (message_of (message_type_of m) m) as Hm by done.
  destruct m; cbn [parse_body message_type_of] in *.
  - by rewrite (codec_complete codec_client_hello).
  - by rewrite (codec_complete codec_server_hello).
  - by rewrite (codec_complete codec_encrypted_extensions).
  - by rewrite (codec_complete codec_certificate).
  - by rewrite (codec_complete codec_certificate_verify).
  - cbn [body_bytes]. erewrite (M_bind_ok (gets remaining)) by reflexivity. rewrite remaining_mkbuf.
    by erewrite M_bind_ok by (apply pull_bytes_app; by rewrite app_nil_r).
  - by rewrite (codec_complete codec_new_session_ticket).
Qed.

Lemma codec_body_sound t p body :
  codec p body_bytes (message_of t) parse_error →
  match p (mkbuf [] body) with
  | (Ok m, b) => is_empty b = true → body = body_bytes m ∧ message_of t m
  | (Raise e, _) => parse_error e
  end.
Proof.
  intros C. pose proof (codec_sound C [] body) as S. destruct (p _) as [[m|e] b]; [|done].
  destruct S as (Hm & r & -> & ->). rewrite is_empty_mkbuf, Z.eqb_eq. intros ->%len_0_nil. by rewrite app_nil_r.
Qed.

Lemma parse_body_sound t body :
  match parse_body t (mkbuf [] body) with
  | (Ok m, b) => is_empty b = true → body = body_bytes m ∧ message_of t m
  | (Raise e, _) => parse_error e
  end.
Proof.
  destruct t; cbn [parse_body];
    try (apply codec_body_sound; first [exact codec_client_hello | exact codec_server_hello
      | exact codec_new_session_ticket | exact codec_encrypted_extensions | exact codec_certificate
      | exact codec_certificate_verify]).
  erewrite (M_bind_ok (gets remaining)) by reflexivity. rewrite remaining_mkbuf.
  pose proof (pull_bytes_app [] body [] (len body) eq_refl) as Hp. rewrite app_nil_r in Hp.
  by erewrite M_bind_ok by exact Hp.
Qed.

Lemma HandshakeType_of_code t : HandshakeType_of (handshake_code t) = Some t.
Proof. by destruct t. Qed.

Lemma HandshakeType_of_some v t : HandshakeType_of v = Some t → v = handshake_code t.
Proof. unfold HandshakeType_of. intros [_ H%Z.eqb_eq]%List.find_some. done. Qed.

Lemma handshake_code_byte t : bits 8 (handshake_code t).
Proof. unfold bits. by destruct t. Qed.

(** Encoders and [message_bytes]. *)
Lemma encode_extension_ok e : wf_ext e → encode_extension e = Ok (ext_bytes e).
Proof. intros [Ht Hd]. unfold encode_extension. by rewrite to_bytes_ok, vec_ok. Qed.

Lemma encode_extensions_ok l : wf_exts l → encode_extensions l = Ok (exts_bytes l).
Proof.
  intros [Hl Hs]. unfold encode_extensions. erewrite join_ok; [by apply vec_ok|].
  eapply Forall_impl; [exact Hl|]. apply encode_extension_ok.
Qed.

Lemma handshake_message_ok t body :
  len body < 2 ^ 24 → handshake_message t body = Ok (be_bytes 1 (handshake_code t) ++ vec_bytes 3 body).
Proof.
  intros H. unfold handshake_message. rewrite byte_literal_ok by apply handshake_code_byte. cbn [mbind result_bind].
  by rewrite vec_ok.
Qed.

Lemma encode_entry_ok e : wf_entry e → encode_certificate_entry e = Ok (entry_bytes e).
Proof. intros [Hd He]. unfold encode_certificate_entry. by rewrite vec_ok, encode_extensions_ok. Qed.

(** Run the next part of an encoder. *)
Ltac enc_step :=
  first [ rewrite to_bytes_ok by (done || assumption) | rewrite vec_ok by (done || assumption)
        | rewrite encode_extensions_ok by assumption | rewrite handshake_message_ok by assumption ];
  cbn [mbind result_bind].

Lemma encode_message_ok m : wf_message m → encode_message m = Ok (message_bytes m).
Proof.
  intros [Hw Hl]. unfold message_bytes.
  destruct m as [h|h|l|c|c|v|t]; cbn [encode_message message_type_of wf_fields body_bytes] in *.
  - destruct Hw as (Hr & Hs & [Hf Hc] & He). unfold encode_client_hello.
    erewrite join_ok; [|eapply Forall_impl; [exact Hf|]; intros v Hv; by apply to_bytes_ok].
    cbn [mbind result_bind]. by repeat enc_step.
  - destruct Hw as (Hr & Hs & Hc & He). unfold encode_server_hello. by repeat enc_step.
  - unfold encode_encrypted_extensions. by repeat enc_step.
  - destruct Hw as (Hr & Hf & Hc). unfold encode_certificate.
    erewrite join_ok; [|eapply Forall_impl; [exact Hf|]; apply encode_entry_ok].
    cbn [mbind result_bind]. by repeat enc_step.
  - destruct Hw as [Ha Hs]. unfold encode_certificate_verify. by repeat enc_step.
  - by apply handshake_message_ok.
  - destruct Hw as (H1 & H2 & H3 & H4 & He). unfold encode_new_session_ticket. by repeat enc_step.
Qed.

Lemma parse_message_complete m rest :
  wf_message m → parse_handshake_message (message_bytes m ++ rest) = Ok (m, len (message_bytes m)).
Proof.
  intros [Hw Hl]. unfold parse_handshake_message. rewrite new_buffer_mkbuf. unfold message_bytes.
  rewrite <- app_assoc.
  erewrite M_bind_ok by (apply (codec_complete (codec_uint8 _ parse_error_short)), handshake_code_byte).
  rewrite HandshakeType_of_code.
  erewrite M_bind_ok by (by apply (codec_complete (codec_vec24 _ parse_error_short))).
  rewrite new_buffer_mkbuf, parse_body_complete by done. cbn [mbind result_bind].
  erewrite (M_bind_ok (lift _)) by reflexivity. cbv beta iota. rewrite is_empty_mkbuf. cbn [len length Z.of_nat Z.eqb].
  reflexivity.
Qed.

Lemma parse_message_sound data :
  match parse_handshake_message data with
  | Ok (m, n) => wf_message m ∧ ∃ rest, data = message_bytes m ++ rest ∧ n = len (message_bytes m)
  | Raise e => parse_error e
  end.
Proof.
  unfold parse_handshake_message. rewrite new_buffer_mkbuf.
  pose proof (codec_sound (codec_uint8 _ parse_error_short) [] data) as S1. unfold mbind at 1, M_bind at 1.
  destruct (pull_uint8 _) as [[code|e] b]; [|done]. destruct S1 as (Hc & r1 & -> & ->).
  destruct (HandshakeType_of code) as [t|] eqn:Ht; [|done]. apply HandshakeType_of_some in Ht as ->.
  pose proof (codec_sound (codec_vec24 _ parse_error_short) ([] ++ be_bytes 1 (handshake_code t)) r1) as S2.
  unfold mbind at 1, M_bind at 1. destruct (pull_vec24 _) as [[body|e] b]; [|done]. destruct S2 as (Hb & r2 & -> & ->).
  rewrite new_buffer_mkbuf. pose proof (parse_body_sound t body) as S3.
  destruct (parse_body t (mkbuf [] body)) as [[m|e] after]; cbn [mbind result_bind]; [|done].
  unfold mbind at 1, M_bind at 1, lift. destruct (is_empty after); [|done]. destruct (S3 eq_refl) as [-> [<- Hw]].
  cbn -[be_bytes vec_bytes]. split; [done|]. exists r2. unfold message_bytes. rewrite <- ?app_assoc. split; [done|].
  by rewrite position_mkbuf.
Qed.

(** ** Extension payloads *)

Lemma counted_block_vec d : len d < 2 ^ 16 → counted_block (vec_bytes 2 d) = Ok d.
Proof.
  intros H. unfold counted_block, vec_bytes. pose proof (len_nonneg d).
  assert (slice 0 2 (be_bytes 2 (len d) ++ d) = be_bytes 2 (len d)) as -> by reflexivity.
  rewrite from_bytes_be_small by lia. rewrite new_buffer_mkbuf. rewrite <- (app_nil_r (be_bytes 2 (len d) ++ d)).
  rewrite pull_bytes_app by (rewrite len_app, len_be_bytes; lia). reflexivity.
Qed.

Lemma string_of_ascii_bytes s : string_of_bytes (ascii_bytes s) = s.
Proof.
  unfold string_of_bytes, ascii_bytes. rewrite List.map_map.
  erewrite List.map_ext; [|intros a; apply Ascii.ascii_of_byte_of_ascii]. rewrite List.map_id.
  apply String.string_of_list_ascii_of_string.
Qed.
Lemma ascii_bytes_of_string d : ascii_bytes (string_of_bytes d) = d.
Proof.
  unfold string_of_bytes, ascii_bytes. rewrite String.list_ascii_of_string_of_list_ascii, List.map_map.
  erewrite List.map_ext; [|intros a; apply Ascii.byte_of_ascii_of_byte]. apply List.map_id.
Qed.

(** Protocol names: ASCII, at most 255 bytes. *)
Definition wf_protocol (p : string) : Prop := forallb is_ascii (ascii_bytes p) = true ∧ len (ascii_bytes p) < 2 ^ 8.
Definition protocol_bytes (p : string) : bytes := vec_bytes 1 (ascii_bytes p).
Definition protocol_error (e : exn) : Prop := match e with BufferReadError _ | ValueError _ => True | _ => False end.

Lemma codec_protocol : codec pull_protocol protocol_bytes wf_protocol protocol_error.
Proof.
  pose proof (codec_vec8 protocol_error (λ _, I)) as C. unfold pull_protocol. split.
  - intros p pre rest [Ha Hl]. unfold protocol_bytes. erewrite M_bind_ok by (by apply (codec_complete C)).
    unfold lift, str_decode. by rewrite Ha, string_of_ascii_bytes.
  - intros pre rest. pose proof (codec_sound C pre rest) as S. unfold mbind, M_bind, lift, str_decode.
    destruct (pull_vec8 _) as [[d|e] b]; [|done]. destruct S as (Hl & r & -> & ->).
    destruct (forallb is_ascii d) eqn:Ha; [|done]. unfold wf_protocol, protocol_bytes. rewrite ascii_bytes_of_string. eauto.
Qed.

Definition alpn_bytes (l : list string) : bytes := vec_bytes 2 (concat (protocol_bytes <$> l)).
Definition wf_alpn (l : list string) : Prop := Forall wf_protocol l ∧ len (concat (protocol_bytes <$> l)) < 2 ^ 16.

Lemma alpn_extension_ok l : wf_alpn l → alpn_extension l = Ok (alpn_bytes l).
Proof.
  intros [Hl Hs]. unfold alpn_extension. erewrite join_ok; [by apply vec_ok|]. eapply Forall_impl; [exact Hl|].
  intros p [Ha Hp]. unfold encode_protocol, str_encode. rewrite Ha. by apply vec_ok.
Qed.

Lemma parse_alpn_bytes l : wf_alpn l → parse_alpn (alpn_bytes l) = Ok l.
Proof.
  intros [Hl Hs]. unfold parse_alpn, alpn_bytes. rewrite counted_block_vec by done. cbn [mbind result_bind].
  apply (items_complete protocol_error pull_protocol protocol_bytes wf_protocol codec_protocol); [|done].
  by intros p H%(f_equal len).
Qed.

Definition share_bytes (group : Z) (key : bytes) : bytes := be_bytes 2 group ++ vec_bytes 2 key.

Lemma key_share_entry_ok group key : bits 16 group → len key < 2 ^ 16 → key_share_entry group key = Ok (share_bytes group key).
Proof. intros Hg Hk. unfold key_share_entry. by rewrite to_bytes_ok, vec_ok. Qed.

Lemma parse_key_share_x25519 key :
  len key < 2 ^ 16 → parse_key_share_entry (share_bytes X25519_GROUP key) = Ok (X25519_GROUP, key).
Proof.
  intros Hk. unfold parse_key_share_entry, share_bytes. rewrite new_buffer_mkbuf.
  erewrite M_bind_ok by (by apply (codec_complete (codec_uint16 _ parse_error_short))).
  rewrite bool_decide_true by (by left). cbn [negb]. rewrite <- (app_nil_r (vec_bytes 2 key)).
  by erewrite M_bind_ok by (by apply (codec_complete (codec_vec16 _ parse_error_short))).
Qed.

Lemma client_key_share_x25519 key rest :
  len key < 2 ^ 16 → len (share_bytes X25519_GROUP key ++ rest) < 2 ^ 16 →
  client_key_share (vec_bytes 2 (share_bytes X25519_GROUP key ++ rest)) = Ok (Some key).
Proof.
  intros Hk Hl. unfold client_key_share. rewrite counted_block_vec by done. cbn [mbind result_bind].
  rewrite new_buffer_mkbuf. unfold share_bytes. rewrite <- app_assoc.
  destruct (length _) as [|k] eqn:El.
  { apply (f_equal Z.of_nat) in El. rewrite length_app in El. change (length (be_bytes 2 X25519_GROUP)) with 2%nat in El. lia. }
  cbn [key_share_loop]. erewrite (M_bind_ok get) by reflexivity. rewrite is_empty_mkbuf.
  rewrite (proj2 (Z.eqb_neq _ 0)) by (rewrite len_app, len_be_bytes; pose proof (len_nonneg (vec_bytes 2 key ++ rest)); lia).
  erewrite M_bind_ok by (by apply (codec_complete (codec_uint16 _ parse_error_short))).
  by erewrite M_bind_ok by (by apply (codec_complete (codec_vec16 _ parse_error_short))).
Qed.

Lemma client_key_share_none : client_key_share (vec_bytes 2 []) = Ok None.
Proof. reflexivity. Qed.

Lemma parse_supported_groups_x25519 :
  parse_supported_groups (vec_bytes 2 (be_bytes 2 X25519_GROUP)) = Ok SUPPORTED_GROUPS.
Proof. reflexivity. Qed.

(** ** Theorems *)

(** C21: handshake messages round trip.  A message whose fields fit their
    widths encodes, and parsing the result, whatever follows it, returns the
    message and the number of bytes it took. *)
Theorem handshake_roundtrip m rest (Hm : wf_message m) :
  ∃ raw, encode_message m = Ok raw ∧ parse_handshake_message (raw ++ rest) = Ok (m, len raw).
Proof.
  exists (message_bytes m). split; [by apply encode_message_ok|by apply parse_message_complete].
Qed.

(** C22: the handshake parser accepts nothing but encodings.  On any bytes it
    returns a message whose encoding is exactly the bytes it consumed, so two
    different byte strings never stand for the same message and the transcript
    hashed from the received bytes is that of the message re-encoded; or it
    raises one of the two parse errors. *)
Theorem handshake_parse_exact data :
  match parse_handshake_message data with
  | Ok (m, n) => encode_message m = Ok (take (Z.to_nat n) data) ∧ 4 <= n <= len data
  | Raise e => parse_error e
  end.
Proof.
  pose proof (parse_message_sound data) as S. destruct (parse_handshake_message data) as [[m n]|e]; [|done].
  destruct S as (Hw & rest & -> & ->). rewrite encode_message_ok by done.
  rewrite Z_to_nat_len, take_app_length. split; [done|]. rewrite len_app. pose proof (len_nonneg rest).
  unfold message_bytes. rewrite len_app, len_be_bytes, len_vec_bytes. pose proof (len_nonneg (body_bytes m)). lia.
Qed.

(** A ClientHello with two suites and two extensions. *)
Definition sample_hello : HandshakeMessage :=
  HClientHello (mkClientHello (zeros 32) [] SUPPORTED_CIPHER_SUITES
    [mkExtension EXT_SUPPORTED_VERSIONS [x02; x03; x04]; mkExtension EXT_EARLY_DATA []]).

Lemma handshake_roundtrip_witness :
  ∃ raw, encode_message sample_hello = Ok raw ∧
    parse_handshake_message (raw ++ [x01; x02]) = Ok (sample_hello, len raw).
Proof.
  apply (handshake_roundtrip sample_hello [x01; x02]). unfold wf_message, wf_fields, wf_exts, wf_ext, bits.
  repeat (split || apply Forall_cons_2 || apply Forall_nil_2); by vm_compute.
Defined.
