(* ===== verification/KeySchedule.v ===== *)
(** * Key schedule, session tickets and PSK offers (tls.py)

    [KeySchedule] of [src/dsquic/tls.py] with its running transcript hash (the
    hash object is the bytes fed to it so far), the sealed session tickets, the
    pre_shared_key extension and the MACs over the transcript.  [os.urandom]
    is an argument. *)

From Stdlib Require Import Strings.String QArith.
From S2P Require Import Prelude Buffer Crypto Protection Congestion Retry Handshake Codec HandshakeProofs.
#[local] Open Scope Z_scope.

Definition TICKET_NONCE_LENGTH : Z := 12.
Definition MESSAGE_HASH_TYPE : Z := 254.

Record KeySchedule : Type := mkKeySchedule { sch_transcript : bytes; sch_secret : bytes }.

(** What a client keeps of a ticket, and what a server seals into it. *)
Record SessionTicket : Type := mkSessionTicket {
  st_identity : bytes; st_psk : bytes; st_age_add : Z; st_lifetime : Z; st_received_at : Q;
  st_max_early_data_size : Z; st_alpn : string; st_transport_parameters : bytes; st_cipher_suite : Z }.
Record TicketState : Type := mkTicketState {
  tk_psk : bytes; tk_age_add : Z; tk_alpn : string; tk_transport_parameters : bytes; tk_issued_at : Z;
  tk_cipher_suite : Z }.
Record PskIdentity : Type := mkPskIdentity { pi_identity : bytes; pi_obfuscated_ticket_age : Z }.

(** ** PSK offers *)

Definition encode_psk_identity (i : PskIdentity) : result bytes :=
  d ← vec 2 (pi_identity i); a ← to_bytes 4 (pi_obfuscated_ticket_age i); Ok (d ++ a).
Definition encode_offered_psks (identities : list PskIdentity) (binders : list bytes) : result bytes :=
  offered ← join encode_psk_identity identities;
  offered ← vec 2 offered;
  b ← join (vec 1) binders;
  b ← vec 2 b;
  Ok (offered ++ b).

Definition pull_psk_identity : M Buffer PskIdentity :=
  identity ← pull_vec16; age ← pull_uint32; mret (mkPskIdentity identity age).
Definition parse_offered_psks (data : bytes) : result (list PskIdentity * list bytes) :=
  ((identities_block ← pull_vec16;
    identities ← lift (items pull_psk_identity identities_block);
    binders_block ← pull_vec16;
    binders ← lift (items pull_vec8 binders_block);
    if negb (len identities =? len binders) then
      raise (TlsAlert ILLEGAL_PARAMETER "one binder per identity is required")
    else mret (identities, binders)) (new_buffer data)).1.

(** [binder_transcript] *)
Definition binder_transcript (client_hello : bytes) (binder_count : Z) : result bytes :=
  let trailing := 2 + binder_count * (1 + SHA256_LENGTH) in
  if len client_hello <=? trailing then
    Raise (TlsAlert DECODE_ERROR "ClientHello is too short to carry its binders")
  else Ok (take (Z.to_nat (len client_hello - trailing)) client_hello).

Section schedule.
Context `{Primitives}.

(** ** The key schedule *)

Definition EMPTY_TRANSCRIPT_HASH : bytes := sha256 [].

Definition new_KeySchedule (psk : option bytes) : KeySchedule :=
  let ikm := match psk with Some p => p | None => zeros SHA256_LENGTH end in
  mkKeySchedule [] (hkdf_extract (zeros SHA256_LENGTH) ikm).

Definition update_transcript (handshake_message : bytes) (s : KeySchedule) : KeySchedule :=
  mkKeySchedule (sch_transcript s ++ handshake_message) (sch_secret s).

Definition transcript_hash (s : KeySchedule) : bytes := sha256 (sch_transcript s).

Definition replace_transcript_with_message_hash (s : KeySchedule) : result KeySchedule :=
  let digest := transcript_hash s in
  head ← byte_literal MESSAGE_HASH_TYPE;
  n ← to_bytes 3 (len digest);
  Ok (mkKeySchedule (head ++ n ++ digest) (sch_secret s)).

Definition derive (label : string) (s : KeySchedule) : result bytes :=
  hkdf_expand_label (sch_secret s) (ascii_bytes label) (transcript_hash s) SHA256_LENGTH.

Definition extract_next (s : KeySchedule) (input : bytes) : result KeySchedule :=
  derived ← hkdf_expand_label (sch_secret s) (ascii_bytes "derived") EMPTY_TRANSCRIPT_HASH SHA256_LENGTH;
  Ok (mkKeySchedule (sch_transcript s) (hkdf_extract derived input)).
Definition add_ecdhe (shared_secret : bytes) (s : KeySchedule) : result KeySchedule := extract_next s shared_secret.
Definition advance_to_master (s : KeySchedule) : result KeySchedule := extract_next s (zeros SHA256_LENGTH).

Definition binder_key (s : KeySchedule) : result bytes :=
  hkdf_expand_label (sch_secret s) (ascii_bytes "res binder") EMPTY_TRANSCRIPT_HASH SHA256_LENGTH.
Definition client_early_traffic_secret : KeySchedule → result bytes := derive "c e traffic".
Definition resumption_master_secret : KeySchedule → result bytes := derive "res master".
Definition client_handshake_traffic_secret : KeySchedule → result bytes := derive "c hs traffic".
Definition server_handshake_traffic_secret : KeySchedule → result bytes := derive "s hs traffic".
Definition client_application_traffic_secret : KeySchedule → result bytes := derive "c ap traffic".
Definition server_application_traffic_secret : KeySchedule → result bytes := derive "s ap traffic".

Definition resumption_psk (resumption_master_secret ticket_nonce : bytes) : result bytes :=
  hkdf_expand_label resumption_master_secret (ascii_bytes "resumption") ticket_nonce SHA256_LENGTH.

Definition finished_verify_data (base_secret transcript_hash : bytes) : result bytes :=
  finished_key ← hkdf_expand_label base_secret (ascii_bytes "finished") [] SHA256_LENGTH;
  Ok (hmac_sha256 finished_key transcript_hash).

(** ** Tickets *)

Definition seal_ticket (urandom key : bytes) (state : TicketState) : result bytes :=
  issued ← to_bytes 8 (tk_issued_at state);
  age_add ← to_bytes 4 (tk_age_add state);
  suite ← to_bytes 2 (tk_cipher_suite state);
  name ← str_encode (tk_alpn state);
  alpn ← vec 1 name;
  parameters ← vec 2 (tk_transport_parameters state);
  sealed ← aesgcm_encrypt key urandom (issued ++ age_add ++ suite ++ alpn ++ parameters ++ tk_psk state) [];
  Ok (urandom ++ sealed).

(** The reads of [open_ticket] behind the expiry check *)
Definition read_ticket (issued : Z) : M Buffer TicketState :=
  age_add ← pull_uint32;
  cipher_suite ← pull_uint16;
  name ← pull_vec8;
  alpn ← lift (str_decode name);
  transport_parameters ← pull_vec16;
  psk ← pull_bytes SHA256_LENGTH;
  mret (mkTicketState psk age_add alpn transport_parameters issued cipher_suite).

Definition open_ticket (key ticket : bytes) (now lifetime : Q) : result TicketState :=
  let nonce := take (Z.to_nat TICKET_NONCE_LENGTH) ticket in
  let sealed := drop (Z.to_nat TICKET_NONCE_LENGTH) ticket in
  plaintext ← match aesgcm_decrypt key nonce sealed [] with
              | Raise InvalidTag => Raise (TicketError "ticket does not authenticate")
              | r => r
              end;
  ((issued ← (l ← pull_bytes 8; mret (from_bytes l));
    if Qltb lifetime (now - inject_Z issued) then raise (TicketError "ticket has expired")
    else read_ticket issued) (new_buffer plaintext)).1.
End schedule.

(** ** Lemmas *)

Record wf_ticket (s : TicketState) : Prop := {
  wt_issued : bits 64 (tk_issued_at s); wt_age : bits 32 (tk_age_add s); wt_suite : bits 16 (tk_cipher_suite s);
  wt_alpn : wf_protocol (tk_alpn s); wt_parameters : len (tk_transport_parameters s) < 2 ^ 16;
  wt_psk : len (tk_psk s) = SHA256_LENGTH }.

(** What is sealed behind the time of issue, and all of it. *)
Definition ticket_rest (s : TicketState) : bytes :=
  be_bytes 4 (tk_age_add s) ++ be_bytes 2 (tk_cipher_suite s) ++ protocol_bytes (tk_alpn s) ++
  vec_bytes 2 (tk_transport_parameters s) ++ tk_psk s.
Definition ticket_bytes (s : TicketState) : bytes := be_bytes 8 (tk_issued_at s) ++ ticket_rest s.

Lemma read_ticket_app pre s :
  wf_ticket s → (read_ticket (tk_issued_at s) (mkbuf pre (ticket_rest s))).1 = Ok s.
Proof.
  intros [Hi Ha Hs [Hp Hl] Ht Hk]. unfold read_ticket, ticket_rest, protocol_bytes.
  erewrite M_bind_ok by (by apply (codec_complete (codec_uint32 _ parse_error_short))).
  erewrite M_bind_ok by (by apply (codec_complete (codec_uint16 _ parse_error_short))).
  erewrite M_bind_ok by (by apply (codec_complete (codec_vec8 _ parse_error_short))).
  erewrite (M_bind_ok (lift _)) by (unfold lift, str_decode; by rewrite Hp, string_of_ascii_bytes).
  erewrite M_bind_ok by (by apply (codec_complete (codec_vec16 _ parse_error_short))).
  rewrite <- (app_nil_r (tk_psk s)). erewrite M_bind_ok by (by apply pull_bytes_app). by destruct s.
Qed.

Lemma len_ticket_bytes s : wf_ticket s → len (ticket_bytes s) <= AEAD_LIMIT.
Proof.
  intros [Hi Ha Hs [Hp Hl] Ht Hk]. unfold ticket_bytes, ticket_rest, protocol_bytes, AEAD_LIMIT.
  rewrite !len_app, !len_be_bytes, !len_vec_bytes, Hk. unfold SHA256_LENGTH. lia.
Qed.

Section facts.
Context `{HP : Primitives} `{HL : !PrimitiveLaws HP}.

Lemma seal_ticket_ok key urandom s :
  len key = AES_256_KEY → len urandom = TICKET_NONCE_LENGTH → wf_ticket s →
  ∃ sealed, seal_ticket urandom key s = Ok (urandom ++ sealed) ∧
    aesgcm_decrypt key urandom sealed [] = Ok (ticket_bytes s) ∧ len sealed = len (ticket_bytes s) + 16.
Proof.
  intros Hk Hu Hw. destruct (seal_open _ _ _ aesgcm_laws key urandom (ticket_bytes s) [])
    as (c & E & Hc & D); [by right|done|by apply len_ticket_bytes|done|].
  exists c. split; [|done]. destruct Hw as [Hi Ha Hs [Hp Hl] Ht _]. unfold seal_ticket, str_encode.
  rewrite !to_bytes_ok by done. cbn [mbind result_bind]. rewrite Hp. cbn [mbind result_bind].
  rewrite !vec_ok by done. cbn [mbind result_bind].
  change (be_bytes 8 (tk_issued_at s) ++ _) with (ticket_bytes s). by rewrite E.
Qed.

Lemma open_ticket_sealed key urandom sealed s now lifetime :
  len urandom = TICKET_NONCE_LENGTH → wf_ticket s → aesgcm_decrypt key urandom sealed [] = Ok (ticket_bytes s) →
  open_ticket key (urandom ++ sealed) now lifetime =
    if Qltb lifetime (now - inject_Z (tk_issued_at s)) then Raise (TicketError "ticket has expired") else Ok s.
Proof.
  intros Hu Hw D. unfold open_ticket. rewrite <- Hu, Z_to_nat_len, take_app_length, drop_app_length, D.
  cbn [mbind result_bind]. rewrite new_buffer_mkbuf. unfold ticket_bytes.
  erewrite M_bind_ok by (apply (pull_be_app [] _ 8), (wt_issued _ Hw)).
  destruct (Qltb _ _); [done|]. by apply read_ticket_app.
Qed.

(** ** Theorem *)

(** C32: A session ticket comes back as it was sealed, for as long as it
    lives.  A ticket sealed under a 32-byte key opens under it to the same
    state until the lifetime after its issue and is refused with [TicketError]
    later; any other identity long enough to hold a nonce is refused with
    [TicketError] unless the key sealed it; but an identity of fewer than 8 bytes, which any peer can
    offer, raises [ValueError], which the caller does not catch. *)
Theorem ticket_sealing (key urandom : bytes) (s : TicketState) (now lifetime : Q) (offered : bytes)
  (Hk : len key = AES_256_KEY) (Hu : len urandom = TICKET_NONCE_LENGTH) (Hs : wf_ticket s) :
  (∃ ticket, seal_ticket urandom key s = Ok ticket ∧
     open_ticket key ticket now lifetime =
       if Qltb lifetime (now - inject_Z (tk_issued_at s)) then Raise (TicketError "ticket has expired") else Ok s) ∧
  (TICKET_NONCE_LENGTH <= len offered <= AEAD_LIMIT →
   open_ticket key offered now lifetime = Raise (TicketError "ticket does not authenticate") ∨
   ∃ plaintext, aesgcm_encrypt key (take 12 offered) plaintext [] = Ok (drop 12 offered)) ∧
  (len offered < 8 → ∃ msg, open_ticket key offered now lifetime = Raise (ValueError msg)).
Proof.
  split; [|split].
  - destruct (seal_ticket_ok key urandom s Hk Hu Hs) as (c & E & D & _). eexists. split; [exact E|].
    by apply open_ticket_sealed.
  - intros Ho. unfold open_ticket. change (Z.to_nat TICKET_NONCE_LENGTH) with 12%nat.
    unfold TICKET_NONCE_LENGTH in Ho.
    assert (len (take 12 offered) = AEAD_NONCE) as Hn by (unfold len in *; rewrite length_take; unfold AEAD_NONCE; lia).
    destruct (aesgcm_decrypt key (take 12 offered) (drop 12 offered) []) as [p|e] eqn:D.
    + right. exists p. by apply (open_seal _ _ _ aesgcm_laws _ _ _ _ _ (or_intror Hk) Hn D).
    + left. assert (e = InvalidTag) as ->; [|done].
      apply (open_refuses _ _ _ aesgcm_laws key (take 12 offered) (drop 12 offered) []); try assumption.
      * by right.
      * unfold len in *. rewrite length_drop. lia.
      * done.
  - intros Hl. unfold open_ticket.
    destruct (aesgcm_short_nonce key (take (Z.to_nat TICKET_NONCE_LENGTH) offered)
      (drop (Z.to_nat TICKET_NONCE_LENGTH) offered) []) as [msg ->]; [|cbn; eauto].
    unfold len in *. rewrite length_take. lia.
Qed.
End facts.

Definition sample_ticket : TicketState := mkTicketState (zeros 32) 7 "hq" [x01; x02] 100 TLS_AES_128_GCM_SHA256.

Lemma ticket_sealing_witness :
  ∃ ticket, seal_ticket (zeros 12) (zeros 32) sample_ticket = Ok ticket ∧
    open_ticket (zeros 32) ticket 200 7200 = Ok sample_ticket.
Proof.
  refine (proj1 (ticket_sealing (zeros 32) (zeros 12) sample_ticket 200 7200 [] eq_refl eq_refl _)).
  split; cbn; unfold bits, wf_protocol; repeat split; done.
Defined.
