(* ===== verification/TlsCore.v ===== *)
(** * What the two TLS state machines share (tls.py)

    The part of the [cryptography] package the handshake uses (X25519,
    signatures, certificates) as the class [TlsPrimitives], and the class
    [_Handshake] of [src/dsquic/tls.py]: reassembly, transcript, events and the
    secrets both roles emit.  [_handle], which each role overrides, is the
    class [Machine].  Random bytes and fresh keys are drawn in order from an
    [Entropy].  The keylog callback, which only observes secrets, is left
    out; [CommandLine] has its lines. *)

From Stdlib Require Import Strings.String QArith.
From S2P Require Import Prelude Buffer Crypto Congestion TlsInterface Handshake KeySchedule.
#[local] Open Scope Z_scope.

(** ** The library *)

(** [x25519_exchange k p] is [k.exchange(X25519PublicKey.from_public_bytes(p))]
    and [verify_server] is a [PolicyBuilder] verifier with the given store,
    time and name, applied to a leaf and intermediates. *)
Class TlsPrimitives : Type := {
  X25519PrivateKey : Type;
  x25519_public : X25519PrivateKey → bytes;
  x25519_exchange : X25519PrivateKey → bytes → result bytes;
  RSAPrivateKey : Type;
  EllipticCurvePrivateKey : Type;
  RSAPublicKey : Type;
  EllipticCurvePublicKey : Type;
  rsa_pss_sign : RSAPrivateKey → bytes → bytes;
  ecdsa_sign : EllipticCurvePrivateKey → bytes → bytes;
  rsa_pss_verify : RSAPublicKey → bytes → bytes → result unit;
  ecdsa_verify : EllipticCurvePublicKey → bytes → bytes → result unit;
  X509 : Type;
  load_der_x509_certificate : bytes → result X509;
  (** The certificate's key: RSA, elliptic curve, or another kind. *)
  certificate_key : X509 → option (RSAPublicKey + EllipticCurvePublicKey);
  verify_server : list X509 → option Q → string → X509 → list X509 → result unit }.

Inductive SigningKey `{TlsPrimitives} : Type :=
| RsaKey (k : RSAPrivateKey)
| EcKey (k : EllipticCurvePrivateKey).

(** What the package documents: public keys are 32 bytes, an exchange between
    two honest keys succeeds with the same secret on both sides, and one that
    fails raises [ValueError]; a signature verifies under the public key of its
    private key. *)
Class TlsLaws `(TlsPrimitives) : Type := {
  rsa_public : RSAPrivateKey → RSAPublicKey;
  ec_public : EllipticCurvePrivateKey → EllipticCurvePublicKey;
  x25519_public_len k : len (x25519_public k) = 32;
  x25519_agree a b : ∃ s, x25519_exchange a (x25519_public b) = Ok s ∧ x25519_exchange b (x25519_public a) = Ok s;
  x25519_refuses k p e : x25519_exchange k p = Raise e → ∃ msg, e = ValueError msg;
  rsa_sign_verify k m : rsa_pss_verify (rsa_public k) (rsa_pss_sign k m) m = Ok tt;
  ec_sign_verify k m : ecdsa_verify (ec_public k) (ecdsa_sign k m) m = Ok tt;
  rsa_sign_len k m : len (rsa_pss_sign k m) < 2 ^ 16;
  ec_sign_len k m : len (ecdsa_sign k m) < 2 ^ 16 }.

(** [b" " * 64 + b"TLS 1.3, server CertificateVerify" + b"\x00"] *)
Definition CERTIFICATE_VERIFY_CONTEXT : bytes :=
  replicate 64 x20 ++ ascii_bytes "TLS 1.3, server CertificateVerify" ++ [x00].

Section core.
Context `{HP : Primitives} `{HT : TlsPrimitives}.

(** [_sign_certificate_verify] *)
Definition sign_certificate_verify (key : SigningKey) (hash : bytes) : Z * bytes :=
  let content := CERTIFICATE_VERIFY_CONTEXT ++ hash in
  match key with
  | RsaKey k => (RSA_PSS_RSAE_SHA256, rsa_pss_sign k content)
  | EcKey k => (ECDSA_SECP256R1_SHA256, ecdsa_sign k content)
  end.

(** [_verify_certificate_verify] *)
Definition verify_certificate_verify (leaf_certificate : bytes) (message : CertificateVerify) (hash : bytes)
    : result unit :=
  let content := CERTIFICATE_VERIFY_CONTEXT ++ hash in
  certificate ← load_der_x509_certificate leaf_certificate;
  let checked :=
    match certificate_key certificate with
    | Some (inl k) =>
        if cv_algorithm message =? RSA_PSS_RSAE_SHA256 then rsa_pss_verify k (cv_signature message) content
        else Raise (TlsAlert ILLEGAL_PARAMETER "unsupported CertificateVerify algorithm")
    | Some (inr k) =>
        if cv_algorithm message =? ECDSA_SECP256R1_SHA256 then ecdsa_verify k (cv_signature message) content
        else Raise (TlsAlert ILLEGAL_PARAMETER "unsupported CertificateVerify algorithm")
    | None => Raise (TlsAlert ILLEGAL_PARAMETER "unsupported CertificateVerify algorithm")
    end in
  match checked with
  | Raise InvalidSignature => Raise (TlsAlert DECRYPT_ERROR "CertificateVerify signature is invalid")
  | r => r
  end.

(** ** State *)

Record Entropy : Type := mkEntropy { en_urandom : nat → Z → bytes; en_generate : nat → X25519PrivateKey }.

(** The dictionary of reassembly buffers. *)
Record Buffers : Type := mkBuffers { bf_initial : bytes; bf_handshake : bytes; bf_one_rtt : bytes }.
Definition get_buffer (level : EncryptionLevel) (b : Buffers) : bytes :=
  match level with L_INITIAL => bf_initial b | L_HANDSHAKE => bf_handshake b | L_ONE_RTT => bf_one_rtt b end.
Definition set_buffer (level : EncryptionLevel) (d : bytes) (b : Buffers) : Buffers :=
  match level with
  | L_INITIAL => mkBuffers d (bf_handshake b) (bf_one_rtt b)
  | L_HANDSHAKE => mkBuffers (bf_initial b) d (bf_one_rtt b)
  | L_ONE_RTT => mkBuffers (bf_initial b) (bf_handshake b) d
  end.

Record HandshakeState : Type := mkHandshakeState {
  hs_schedule : KeySchedule;
  hs_events : list TlsEvent;
  hs_now : Q;
  hs_buffers : Buffers;
  hs_client_secret : bytes;
  hs_server_secret : bytes;
  hs_client_random : bytes;
  hs_cipher_suite : Z;
  hs_entropy : Entropy;
  hs_draws : nat }.

Definition set_hs_schedule (v : KeySchedule) (h : HandshakeState) : HandshakeState :=
  mkHandshakeState v (hs_events h) (hs_now h) (hs_buffers h) (hs_client_secret h) (hs_server_secret h)
    (hs_client_random h) (hs_cipher_suite h) (hs_entropy h) (hs_draws h).
Definition set_hs_events (v : list TlsEvent) (h : HandshakeState) : HandshakeState :=
  mkHandshakeState (hs_schedule h) v (hs_now h) (hs_buffers h) (hs_client_secret h) (hs_server_secret h)
    (hs_client_random h) (hs_cipher_suite h) (hs_entropy h) (hs_draws h).
Definition set_hs_now (v : Q) (h : HandshakeState) : HandshakeState :=
  mkHandshakeState (hs_schedule h) (hs_events h) v (hs_buffers h) (hs_client_secret h) (hs_server_secret h)
    (hs_client_random h) (hs_cipher_suite h) (hs_entropy h) (hs_draws h).
Definition set_hs_buffers (v : Buffers) (h : HandshakeState) : HandshakeState :=
  mkHandshakeState (hs_schedule h) (hs_events h) (hs_now h) v (hs_client_secret h) (hs_server_secret h)
    (hs_client_random h) (hs_cipher_suite h) (hs_entropy h) (hs_draws h).
Definition set_hs_client_secret (v : bytes) (h : HandshakeState) : HandshakeState :=
  mkHandshakeState (hs_schedule h) (hs_events h) (hs_now h) (hs_buffers h) v (hs_server_secret h)
    (hs_client_random h) (hs_cipher_suite h) (hs_entropy h) (hs_draws h).
Definition set_hs_server_secret (v : bytes) (h : HandshakeState) : HandshakeState :=
  mkHandshakeState (hs_schedule h) (hs_events h) (hs_now h) (hs_buffers h) (hs_client_secret h) v
    (hs_client_random h) (hs_cipher_suite h) (hs_entropy h) (hs_draws h).
Definition set_hs_client_random (v : bytes) (h : HandshakeState) : HandshakeState :=
  mkHandshakeState (hs_schedule h) (hs_events h) (hs_now h) (hs_buffers h) (hs_client_secret h) (hs_server_secret
    h) v (hs_cipher_suite h) (hs_entropy h) (hs_draws h).
Definition set_hs_cipher_suite (v : Z) (h : HandshakeState) : HandshakeState :=
  mkHandshakeState (hs_schedule h) (hs_events h) (hs_now h) (hs_buffers h) (hs_client_secret h) (hs_server_secret
    h) (hs_client_random h) v (hs_entropy h) (hs_draws h).
Definition set_hs_draws (v : nat) (h : HandshakeState) : HandshakeState :=
  mkHandshakeState (hs_schedule h) (hs_events h) (hs_now h) (hs_buffers h) (hs_client_secret h) (hs_server_secret
    h) (hs_client_random h) (hs_cipher_suite h) (hs_entropy h) v.

Definition new_HandshakeState (entropy : Entropy) : HandshakeState :=
  mkHandshakeState (new_KeySchedule None) [] 0 (mkBuffers [] [] []) [] [] [] TLS_AES_128_GCM_SHA256 entropy 0.

(** ** Operations *)

(** [os.urandom(n)] and [X25519PrivateKey.generate()] *)
Definition urandom (n : Z) : M HandshakeState bytes :=
  h ← get; _ ← modify (set_hs_draws (S (hs_draws h))); mret (en_urandom (hs_entropy h) (hs_draws h) n).
Definition generate : M HandshakeState X25519PrivateKey :=
  h ← get; _ ← modify (set_hs_draws (S (hs_draws h))); mret (en_generate (hs_entropy h) (hs_draws h)).

Definition emit_event (e : TlsEvent) : M HandshakeState unit := modify (λ h, set_hs_events (hs_events h ++ [e]) h).
Definition feed (message : bytes) : M HandshakeState unit :=
  modify (λ h, set_hs_schedule (update_transcript message (hs_schedule h)) h).

Definition hs_take_events (h : HandshakeState) : list TlsEvent * HandshakeState := (hs_events h, set_hs_events [] h).

Definition level_enum_name (l : EncryptionLevel) : string :=
  match l with L_INITIAL => "INITIAL" | L_HANDSHAKE => "HANDSHAKE" | L_ONE_RTT => "ONE_RTT" end.

(** [_require] *)
Definition require (expects : HandshakeType * EncryptionLevel) (level : EncryptionLevel) (message : HandshakeMessage)
    : result unit :=
  let '(expected_type, expected_level) := expects in
  let received := message_type_of message in
  if bool_decide (received ≠ expected_type) then
    Raise (TlsAlert UNEXPECTED_MESSAGE ("expected " +:+ handshake_name expected_type +:+ ", got " +:+ handshake_name received))
  else if bool_decide (level ≠ expected_level) then
    Raise (TlsAlert UNEXPECTED_MESSAGE (handshake_name received +:+ " at wrong level " +:+ level_enum_name level))
  else Ok tt.

Definition emit_secret (level : EncryptionLevel) (direction : Direction) (secret : bytes) : M HandshakeState unit :=
  h ← get; emit_event (EvSecretAvailable (mkSecretAvailable level direction secret (hs_cipher_suite h))).

Definition with_schedule (f : KeySchedule → result KeySchedule) : M HandshakeState unit :=
  h ← get; s ← lift (f (hs_schedule h)); modify (set_hs_schedule s).

(** [_emit_handshake_secrets] *)
Definition emit_handshake_secrets (shared_secret : bytes) : M HandshakeState unit :=
  _ ← with_schedule (add_ecdhe shared_secret);
  h ← get;
  client ← lift (client_handshake_traffic_secret (hs_schedule h));
  _ ← modify (set_hs_client_secret client);
  server ← lift (server_handshake_traffic_secret (hs_schedule h));
  _ ← modify (set_hs_server_secret server);
  _ ← emit_secret L_HANDSHAKE CLIENT client;
  emit_secret L_HANDSHAKE SERVER server.

(** [_emit_application_secrets] *)
Definition emit_application_secrets : M HandshakeState unit :=
  _ ← with_schedule advance_to_master;
  h ← get;
  client ← lift (client_application_traffic_secret (hs_schedule h));
  server ← lift (server_application_traffic_secret (hs_schedule h));
  _ ← emit_secret L_ONE_RTT CLIENT client;
  emit_secret L_ONE_RTT SERVER server.

(** ** Receiving *)

(** A role of the handshake: its shared part and its [_handle]. *)
Class Machine (T : Type) : Type := {
  machine_hs : T → HandshakeState;
  set_machine_hs : HandshakeState → T → T;
  handle : EncryptionLevel → HandshakeMessage → bytes → M T unit }.

Section receive.
Context {T : Type} `{!Machine T}.

Definition in_hs {A} (m : M HandshakeState A) : M T A := zoom machine_hs set_machine_hs m.

(** The [while] of [receive]; a message takes at least its four header bytes,
    so the length of the buffer is enough fuel. *)
Fixpoint receive_loop (fuel : nat) (level : EncryptionLevel) : M T unit :=
  t ← get;
  let buffer := get_buffer level (hs_buffers (machine_hs t)) in
  if len buffer <? 4 then mret tt
  else
    let length := 4 + from_bytes (slice 1 4 buffer) in
    if len buffer <? length then mret tt
    else match fuel with
    | O => raise OutOfFuel
    | S k =>
        let raw := take (Z.to_nat length) buffer in
        _ ← in_hs (modify (λ h, set_hs_buffers (set_buffer level (drop (Z.to_nat length) buffer) (hs_buffers h)) h));
        '(message, _) ← lift (parse_handshake_message raw);
        _ ← handle level message raw;
        receive_loop k level
    end.

(** [receive] *)
Definition receive (level : EncryptionLevel) (data : bytes) (now : Q) : M T unit :=
  _ ← in_hs (modify (set_hs_now now));
  _ ← in_hs (modify (λ h, set_hs_buffers (set_buffer level (get_buffer level (hs_buffers h) ++ data) (hs_buffers h)) h));
  t ← get;
  receive_loop (length (get_buffer level (hs_buffers (machine_hs t)))) level.
End receive.
End core.
