(* ===== verification/TlsClient.v ===== *)
(** * The client's handshake (tls.py, TlsClient)

    [TlsClient] of [src/dsquic/tls.py]: its configuration, state and every
    method, as an instance of [Machine]. *)

From Stdlib Require Import Strings.String QArith.
From S2P Require Import Prelude Buffer Crypto Congestion Retry TlsInterface Handshake KeySchedule TlsCore.
#[local] Open Scope Z_scope.

Definition MAX_EARLY_DATA_SIZE : Z := 0xFFFFFFFF.
Definition PSK_DHE_KE : Z := 1.

(** A ServerHello with this random is a HelloRetryRequest. *)
Definition HELLO_RETRY_REQUEST_RANDOM : bytes :=
  be_bytes 32 0xcf21ad74e59a6111be1d8c021e65b891c2a211167abb8c5e079e09e2c8a8339c.

Record ClientConfig : Type := mkClientConfig {
  cfg_server_name : string;
  cfg_alpn : list string;
  cfg_transport_parameters : bytes;
  cfg_ca_certificates : list bytes;
  cfg_insecure_skip_verify : bool;
  cfg_verification_time : option Q;
  cfg_key_share_groups : option (list Z);
  cfg_session_ticket : option SessionTicket;
  cfg_cipher_suites : list Z;
  cfg_early_data : bool }.

(** [ClientConfig.__post_init__] *)
Definition check_client_config (c : ClientConfig) : result unit :=
  if negb (cfg_insecure_skip_verify c) && (len (cfg_ca_certificates c) =? 0) then
    Raise (ValueError "ca_certificates required unless insecure_skip_verify")
  else Ok tt.

Inductive ClientState : Type :=
| C_START | C_WAIT_SERVER_HELLO | C_WAIT_ENCRYPTED_EXTENSIONS | C_WAIT_CERTIFICATE
| C_WAIT_CERTIFICATE_VERIFY | C_WAIT_FINISHED | C_CONNECTED.
#[export] Instance ClientState_eq_dec : EqDecision ClientState.
Proof. solve_decision. Defined.

(** [CLIENT_EXPECTS] *)
Definition CLIENT_EXPECTS (s : ClientState) : option (HandshakeType * EncryptionLevel) :=
  match s with
  | C_WAIT_SERVER_HELLO => Some (SERVER_HELLO, L_INITIAL)
  | C_WAIT_ENCRYPTED_EXTENSIONS => Some (ENCRYPTED_EXTENSIONS, L_HANDSHAKE)
  | C_WAIT_CERTIFICATE => Some (CERTIFICATE, L_HANDSHAKE)
  | C_WAIT_CERTIFICATE_VERIFY => Some (CERTIFICATE_VERIFY, L_HANDSHAKE)
  | C_WAIT_FINISHED => Some (FINISHED, L_HANDSHAKE)
  | C_START | C_CONNECTED => None
  end.

Section client.
Context `{HP : Primitives} `{HT : TlsPrimitives}.

Record TlsClient : Type := mkTlsClient {
  tc_hs : HandshakeState;
  tc_config : ClientConfig;
  tc_session_tickets : list SessionTicket;
  tc_fallback_schedule : option KeySchedule;
  tc_resumed : bool;
  tc_early_data_offered : bool;
  tc_early_data_accepted : bool;
  tc_early_secret : option bytes;
  tc_random : bytes;
  tc_keys : list (Z * X25519PrivateKey);
  tc_hello_retried : bool;
  tc_leaf_certificate : bytes;
  tc_alpn : string;
  tc_peer_transport_parameters : bytes;
  tc_state : ClientState }.

Definition set_tc_hs (v : HandshakeState) (c : TlsClient) : TlsClient :=
  mkTlsClient v (tc_config c) (tc_session_tickets c) (tc_fallback_schedule c) (tc_resumed c)
    (tc_early_data_offered c) (tc_early_data_accepted c) (tc_early_secret c) (tc_random c) (tc_keys c)
    (tc_hello_retried c) (tc_leaf_certificate c) (tc_alpn c) (tc_peer_transport_parameters c) (tc_state c).
Definition set_tc_session_tickets (v : list SessionTicket) (c : TlsClient) : TlsClient :=
  mkTlsClient (tc_hs c) (tc_config c) v (tc_fallback_schedule c) (tc_resumed c) (tc_early_data_offered c)
    (tc_early_data_accepted c) (tc_early_secret c) (tc_random c) (tc_keys c) (tc_hello_retried c)
    (tc_leaf_certificate c) (tc_alpn c) (tc_peer_transport_parameters c) (tc_state c).
Definition set_tc_fallback_schedule (v : option KeySchedule) (c : TlsClient) : TlsClient :=
  mkTlsClient (tc_hs c) (tc_config c) (tc_session_tickets c) v (tc_resumed c) (tc_early_data_offered c)
    (tc_early_data_accepted c) (tc_early_secret c) (tc_random c) (tc_keys c) (tc_hello_retried c)
    (tc_leaf_certificate c) (tc_alpn c) (tc_peer_transport_parameters c) (tc_state c).
Definition set_tc_resumed (v : bool) (c : TlsClient) : TlsClient :=
  mkTlsClient (tc_hs c) (tc_config c) (tc_session_tickets c) (tc_fallback_schedule c) v (tc_early_data_offered c)
    (tc_early_data_accepted c) (tc_early_secret c) (tc_random c) (tc_keys c) (tc_hello_retried c)
    (tc_leaf_certificate c) (tc_alpn c) (tc_peer_transport_parameters c) (tc_state c).
Definition set_tc_early_data_offered (v : bool) (c : TlsClient) : TlsClient :=
  mkTlsClient (tc_hs c) (tc_config c) (tc_session_tickets c) (tc_fallback_schedule c) (tc_resumed c) v
    (tc_early_data_accepted c) (tc_early_secret c) (tc_random c) (tc_keys c) (tc_hello_retried c)
    (tc_leaf_certificate c) (tc_alpn c) (tc_peer_transport_parameters c) (tc_state c).
Definition set_tc_early_data_accepted (v : bool) (c : TlsClient) : TlsClient :=
  mkTlsClient (tc_hs c) (tc_config c) (tc_session_tickets c) (tc_fallback_schedule c) (tc_resumed c)
    (tc_early_data_offered c) v (tc_early_secret c) (tc_random c) (tc_keys c) (tc_hello_retried c)
    (tc_leaf_certificate c) (tc_alpn c) (tc_peer_transport_parameters c) (tc_state c).
Definition set_tc_early_secret (v : option bytes) (c : TlsClient) : TlsClient :=
  mkTlsClient (tc_hs c) (tc_config c) (tc_session_tickets c) (tc_fallback_schedule c) (tc_resumed c)
    (tc_early_data_offered c) (tc_early_data_accepted c) v (tc_random c) (tc_keys c) (tc_hello_retried c)
    (tc_leaf_certificate c) (tc_alpn c) (tc_peer_transport_parameters c) (tc_state c).
Definition set_tc_keys (v : list (Z * X25519PrivateKey)) (c : TlsClient) : TlsClient :=
  mkTlsClient (tc_hs c) (tc_config c) (tc_session_tickets c) (tc_fallback_schedule c) (tc_resumed c)
    (tc_early_data_offered c) (tc_early_data_accepted c) (tc_early_secret c) (tc_random c) v (tc_hello_retried c)
    (tc_leaf_certificate c) (tc_alpn c) (tc_peer_transport_parameters c) (tc_state c).
Definition set_tc_hello_retried (v : bool) (c : TlsClient) : TlsClient :=
  mkTlsClient (tc_hs c) (tc_config c) (tc_session_tickets c) (tc_fallback_schedule c) (tc_resumed c)
    (tc_early_data_offered c) (tc_early_data_accepted c) (tc_early_secret c) (tc_random c) (tc_keys c) v
    (tc_leaf_certificate c) (tc_alpn c) (tc_peer_transport_parameters c) (tc_state c).
Definition set_tc_leaf_certificate (v : bytes) (c : TlsClient) : TlsClient :=
  mkTlsClient (tc_hs c) (tc_config c) (tc_session_tickets c) (tc_fallback_schedule c) (tc_resumed c)
    (tc_early_data_offered c) (tc_early_data_accepted c) (tc_early_secret c) (tc_random c) (tc_keys c)
    (tc_hello_retried c) v (tc_alpn c) (tc_peer_transport_parameters c) (tc_state c).
Definition set_tc_alpn (v : string) (c : TlsClient) : TlsClient :=
  mkTlsClient (tc_hs c) (tc_config c) (tc_session_tickets c) (tc_fallback_schedule c) (tc_resumed c)
    (tc_early_data_offered c) (tc_early_data_accepted c) (tc_early_secret c) (tc_random c) (tc_keys c)
    (tc_hello_retried c) (tc_leaf_certificate c) v (tc_peer_transport_parameters c) (tc_state c).
Definition set_tc_peer_transport_parameters (v : bytes) (c : TlsClient) : TlsClient :=
  mkTlsClient (tc_hs c) (tc_config c) (tc_session_tickets c) (tc_fallback_schedule c) (tc_resumed c)
    (tc_early_data_offered c) (tc_early_data_accepted c) (tc_early_secret c) (tc_random c) (tc_keys c)
    (tc_hello_retried c) (tc_leaf_certificate c) (tc_alpn c) v (tc_state c).
Definition set_tc_state (v : ClientState) (c : TlsClient) : TlsClient :=
  mkTlsClient (tc_hs c) (tc_config c) (tc_session_tickets c) (tc_fallback_schedule c) (tc_resumed c)
    (tc_early_data_offered c) (tc_early_data_accepted c) (tc_early_secret c) (tc_random c) (tc_keys c)
    (tc_hello_retried c) (tc_leaf_certificate c) (tc_alpn c) (tc_peer_transport_parameters c) v.

Definition on_hs {A} (m : M HandshakeState A) : M TlsClient A := zoom tc_hs set_tc_hs m.

(** The dict comprehension over the share groups *)
Fixpoint generate_keys (key : option X25519PrivateKey) (groups : list Z) (keys : list (Z * X25519PrivateKey))
    : M HandshakeState (list (Z * X25519PrivateKey)) :=
  match groups with
  | [] => mret keys
  | group :: groups' =>
      k ← match key with Some k => mret k | None => generate end;
      generate_keys key groups' (d_set group k keys)
  end.

(** The random and the key shares of [TlsClient.__init__] *)
Definition draw_keys (config : ClientConfig) (random : option bytes) (key : option X25519PrivateKey)
    : M HandshakeState (bytes * list (Z * X25519PrivateKey)) :=
  random ← match random with Some r => mret r | None => urandom 32 end;
  _ ← modify (set_hs_client_random random);
  keys ← generate_keys key
           (match cfg_key_share_groups config with Some groups => groups | None => SUPPORTED_GROUPS end) [];
  mret (random, keys).

(** [TlsClient.__init__] *)
Definition new_TlsClient (config : ClientConfig) (random : option bytes) (key : option X25519PrivateKey)
    (entropy : Entropy) : TlsClient :=
  let '(schedule, fallback) :=
    match cfg_session_ticket config with
    | Some ticket => (new_KeySchedule (Some (st_psk ticket)), Some (new_KeySchedule None))
    | None => (new_KeySchedule None, None)
    end in
  let '(r, hs) := draw_keys config random key (set_hs_schedule schedule (new_HandshakeState entropy)) in
  let '(random, keys) := match r with Ok x => x | Raise _ => ([], []) end in
  mkTlsClient hs config [] fallback false false false None random keys false [] "" [] C_START.

(** ** The ClientHello *)

(** [_psk_offer] *)
Definition psk_offer (ticket : SessionTicket) (now : Q) : result Extension :=
  let age := int_of ((now - st_received_at ticket) * 1000) + st_age_add ticket in
  data ← encode_offered_psks [mkPskIdentity (st_identity ticket) (age mod 2 ^ 32)] [zeros SHA256_LENGTH];
  Ok (mkExtension EXT_PRE_SHARED_KEY data).

(** The condition [_early_data_offered] is set to *)
Definition offers_early_data (c : TlsClient) : bool :=
  match cfg_session_ticket (tc_config c) with
  | Some ticket =>
      cfg_early_data (tc_config c) && (st_max_early_data_size ticket =? MAX_EARLY_DATA_SIZE)
      && bool_decide (st_cipher_suite ticket ∈ cfg_cipher_suites (tc_config c)) && negb (tc_hello_retried c)
  | None => false
  end.

Definition encode_share (entry : Z * X25519PrivateKey) : result bytes :=
  key_share_entry entry.1 (x25519_public entry.2).

(** The extensions of [_build_client_hello], in order *)
Definition client_extensions (early : bool) (c : TlsClient) : result (list Extension) :=
  let config := tc_config c in
  shares ← join encode_share (tc_keys c);
  groups ← join (to_bytes 2) SUPPORTED_GROUPS;
  name ← str_encode (cfg_server_name config);
  name ← vec 2 name;
  sni ← vec 2 ([x00] ++ name);
  groups ← vec 2 groups;
  rsa ← to_bytes 2 RSA_PSS_RSAE_SHA256;
  ecdsa ← to_bytes 2 ECDSA_SECP256R1_SHA256;
  algorithms ← vec 2 (rsa ++ ecdsa);
  alpn ← alpn_extension (cfg_alpn config);
  version ← to_bytes 2 TLS_1_3;
  versions ← vec 1 version;
  shares ← vec 2 shares;
  mode ← byte_literal PSK_DHE_KE;
  modes ← vec 1 mode;
  psk ← match cfg_session_ticket config with
        | Some ticket => e ← psk_offer ticket (hs_now (tc_hs c)); Ok [e]
        | None => Ok []
        end;
  Ok ([mkExtension EXT_SERVER_NAME sni; mkExtension EXT_SUPPORTED_GROUPS groups;
       mkExtension EXT_SIGNATURE_ALGORITHMS algorithms; mkExtension EXT_ALPN alpn;
       mkExtension EXT_SUPPORTED_VERSIONS versions; mkExtension EXT_KEY_SHARE shares;
       mkExtension EXT_QUIC_TRANSPORT_PARAMETERS (cfg_transport_parameters config);
       mkExtension EXT_PSK_KEY_EXCHANGE_MODES modes]
      ++ (if early then [mkExtension EXT_EARLY_DATA []] else []) ++ psk).

(** [_build_client_hello] *)
Definition build_client_hello : M TlsClient ClientHello :=
  c ← get;
  let early := offers_early_data c in
  _ ← modify (set_tc_early_data_offered early);
  _ ← match cfg_session_ticket (tc_config c) with
      | Some ticket => if early then on_hs (modify (set_hs_cipher_suite (st_cipher_suite ticket))) else mret tt
      | None => mret tt
      end;
  c ← get;
  extensions ← lift (client_extensions early c);
  mret (mkClientHello (tc_random c) [] (cfg_cipher_suites (tc_config c)) extensions).

(** [_fill_psk_binder] *)
Definition fill_psk_binder (raw : bytes) : M TlsClient bytes :=
  truncated ← lift (binder_transcript raw 1);
  _ ← on_hs (feed truncated);
  c ← get;
  key ← lift (binder_key (hs_schedule (tc_hs c)));
  binder ← lift (finished_verify_data key (transcript_hash (hs_schedule (tc_hs c))));
  let patched := take (length raw - length binder) raw ++ binder in
  _ ← on_hs (feed (drop (length truncated) patched));
  mret patched.

(** [if self._fallback_schedule is not None: ...] *)
Definition with_fallback (f : KeySchedule → result KeySchedule) : M TlsClient unit :=
  c ← get;
  match tc_fallback_schedule c with
  | Some s => s' ← lift (f s); modify (set_tc_fallback_schedule (Some s'))
  | None => mret tt
  end.

(** Encode a hello and feed it to the transcripts, as [start] and
    [_on_hello_retry_request] both do *)
Definition send_client_hello : M TlsClient bytes :=
  hello ← build_client_hello;
  raw ← lift (encode_client_hello hello);
  c ← get;
  raw ← match cfg_session_ticket (tc_config c) with
        | Some _ => fill_psk_binder raw
        | None => _ ← on_hs (feed raw); mret raw
        end;
  _ ← with_fallback (λ s, Ok (update_transcript raw s));
  mret raw.

(** [start] *)
Definition start (now : Q) : M TlsClient unit :=
  _ ← on_hs (modify (set_hs_now now));
  raw ← send_client_hello;
  c ← get;
  _ ← when (tc_early_data_offered c)
        (secret ← lift (client_early_traffic_secret (hs_schedule (tc_hs c)));
         modify (set_tc_early_secret (Some secret)));
  _ ← on_hs (emit_event (EvSendData L_INITIAL raw));
  modify (set_tc_state C_WAIT_SERVER_HELLO).

(** ** Handlers *)

(** [_on_hello_retry_request] *)
Definition on_hello_retry_request (hello : ServerHello) (raw : bytes) : M TlsClient unit :=
  c ← get;
  if tc_hello_retried c then raise (TlsAlert UNEXPECTED_MESSAGE "second HelloRetryRequest")
  else match find_extension (sh_extensions hello) EXT_KEY_SHARE with
  | Some key_share =>
      if negb (len key_share =? 2) then
        raise (TlsAlert MISSING_EXTENSION "HelloRetryRequest has no selected group")
      else
        let group := from_bytes key_share in
        if negb (bool_decide (group ∈ SUPPORTED_GROUPS)) then
          raise (TlsAlert ILLEGAL_PARAMETER ("HelloRetryRequest group " +:+ hex4 group +:+ " not offered"))
        else if bool_decide (group ∈ (tc_keys c).*1) then
          raise (TlsAlert ILLEGAL_PARAMETER "HelloRetryRequest asks for a group already shared")
        else
          _ ← modify (set_tc_hello_retried true);
          _ ← modify (set_tc_early_secret None);
          _ ← on_hs (with_schedule replace_transcript_with_message_hash);
          _ ← on_hs (feed raw);
          _ ← with_fallback (λ s, s' ← replace_transcript_with_message_hash s; Ok (update_transcript raw s'));
          k ← on_hs generate;
          _ ← modify (set_tc_keys [(group, k)]);
          retry ← send_client_hello;
          _ ← on_hs (emit_event (EvSendData L_INITIAL retry));
          modify (set_tc_state C_WAIT_SERVER_HELLO)
  | None => raise (TlsAlert MISSING_EXTENSION "HelloRetryRequest has no selected group")
  end.

(** The PSK part of [_on_server_hello]: the server's choice settles which
    schedule goes on *)
Definition settle_psk (selected : option bytes) : M TlsClient unit :=
  c ← get;
  _ ← match selected with
      | Some index =>
          if bool_decide (cfg_session_ticket (tc_config c) = None) then
            raise (TlsAlert ILLEGAL_PARAMETER "pre_shared_key answers an offer never made")
          else if negb (from_bytes index =? 0) then
            raise (TlsAlert ILLEGAL_PARAMETER "selected_identity is out of range")
          else modify (set_tc_resumed true)
      | None =>
          match tc_fallback_schedule c with
          | Some s => on_hs (modify (set_hs_schedule s))
          | None => mret tt
          end
      end;
  modify (set_tc_fallback_schedule None).

(** [_on_server_hello] *)
Definition on_server_hello (hello : ServerHello) (raw : bytes) : M TlsClient unit :=
  if bool_decide (sh_random hello = HELLO_RETRY_REQUEST_RANDOM) then on_hello_retry_request hello raw
  else if bool_decide (sh_legacy_session_id_echo hello ≠ []) then
    raise (TlsAlert ILLEGAL_PARAMETER "session id echo is not empty")
  else
    c ← get;
    if negb (bool_decide (sh_cipher_suite hello ∈ cfg_cipher_suites (tc_config c))) then
      raise (TlsAlert ILLEGAL_PARAMETER "server selected an unoffered cipher suite")
    else
      _ ← on_hs (modify (set_hs_cipher_suite (sh_cipher_suite hello)));
      version ← lift (to_bytes 2 TLS_1_3);
      if bool_decide (find_extension (sh_extensions hello) EXT_SUPPORTED_VERSIONS ≠ Some version) then
        raise (TlsAlert PROTOCOL_VERSION "server did not select TLS 1.3")
      else match find_extension (sh_extensions hello) EXT_KEY_SHARE with
      | None => raise (TlsAlert MISSING_EXTENSION "ServerHello has no key_share")
      | Some key_share =>
          '(group, peer_public) ← lift (parse_key_share_entry key_share);
          match d_get group (tc_keys c) with
          | None => raise (TlsAlert ILLEGAL_PARAMETER ("server chose group " +:+ hex4 group +:+ " with no share"))
          | Some our_key =>
              _ ← settle_psk (find_extension (sh_extensions hello) EXT_PRE_SHARED_KEY);
              _ ← on_hs (feed raw);
              shared ← lift (x25519_exchange our_key peer_public);
              _ ← on_hs (emit_handshake_secrets shared);
              modify (set_tc_state C_WAIT_ENCRYPTED_EXTENSIONS)
          end
      end.

(** The early_data checks of [_on_encrypted_extensions] *)
Definition check_early_data (selected : string) (c : TlsClient) : result unit :=
  if negb (tc_early_data_offered c) then
    Raise (TlsAlert UNSUPPORTED_EXTENSION "early_data accepted but never offered")
  else if negb (tc_resumed c) then
    Raise (TlsAlert ILLEGAL_PARAMETER "early_data accepted without the PSK (§4.2.10)")
  else match cfg_session_ticket (tc_config c) with
  | Some ticket =>
      if bool_decide (selected ≠ st_alpn ticket) then
        Raise (TlsAlert ILLEGAL_PARAMETER "early_data accepted across an ALPN change")
      else if negb (hs_cipher_suite (tc_hs c) =? st_cipher_suite ticket) then
        Raise (TlsAlert ILLEGAL_PARAMETER "early_data accepted across a suite change")
      else Ok tt
  | None => Ok tt
  end.

(** [_on_encrypted_extensions] *)
Definition on_encrypted_extensions (extensions : list Extension) (raw : bytes) : M TlsClient unit :=
  match find_extension extensions EXT_ALPN with
  | None => raise (TlsAlert NO_APPLICATION_PROTOCOL "server selected no ALPN protocol")
  | Some alpn_data =>
      protocols ← lift (parse_alpn alpn_data);
      c ← get;
      match protocols with
      | [selected] =>
          if negb (bool_decide (selected ∈ cfg_alpn (tc_config c))) then
            raise (TlsAlert NO_APPLICATION_PROTOCOL "server selected an unoffered ALPN protocol")
          else match find_extension extensions EXT_QUIC_TRANSPORT_PARAMETERS with
          | None => raise (TlsAlert MISSING_EXTENSION "no quic_transport_parameters (RFC 9001 §8.2)")
          | Some transport_parameters =>
              _ ← match find_extension extensions EXT_EARLY_DATA with
                  | Some _ => _ ← lift (check_early_data selected c); modify (set_tc_early_data_accepted true)
                  | None => mret tt
                  end;
              _ ← modify (set_tc_alpn selected);
              _ ← modify (set_tc_peer_transport_parameters transport_parameters);
              _ ← on_hs (feed raw);
              modify (λ c, set_tc_state (if tc_resumed c then C_WAIT_FINISHED else C_WAIT_CERTIFICATE) c)
          end
      | _ => raise (TlsAlert NO_APPLICATION_PROTOCOL "server selected an unoffered ALPN protocol")
      end
  end.

(** [_verify_certificate_policy] *)
Definition verify_certificate_policy (config : ClientConfig) (leaf : CertificateEntry) (rest : list CertificateEntry)
    : result unit :=
  leaf ← load_der_x509_certificate (ce_data leaf);
  intermediates ← mapM_result (λ e, load_der_x509_certificate (ce_data e)) rest;
  store ← mapM_result load_der_x509_certificate (cfg_ca_certificates config);
  match verify_server store (cfg_verification_time config) (cfg_server_name config) leaf intermediates with
  | Raise (VerificationError m) => Raise (TlsAlert BAD_CERTIFICATE ("certificate verification failed: " +:+ m))
  | r => r
  end.

(** [_on_certificate] *)
Definition on_certificate (message : Certificate) (raw : bytes) : M TlsClient unit :=
  match ct_entries message with
  | [] => raise (TlsAlert ILLEGAL_PARAMETER "empty certificate chain")
  | leaf :: rest =>
      _ ← modify (set_tc_leaf_certificate (ce_data leaf));
      c ← get;
      _ ← (if cfg_insecure_skip_verify (tc_config c) then mret tt
           else lift (verify_certificate_policy (tc_config c) leaf rest));
      _ ← on_hs (feed raw);
      modify (set_tc_state C_WAIT_CERTIFICATE_VERIFY)
  end.

(** [_on_certificate_verify] *)
Definition on_certificate_verify (message : CertificateVerify) (raw : bytes) : M TlsClient unit :=
  c ← get;
  _ ← lift (verify_certificate_verify (tc_leaf_certificate c) message (transcript_hash (hs_schedule (tc_hs c))));
  _ ← on_hs (feed raw);
  modify (set_tc_state C_WAIT_FINISHED).

(** [_store_session_ticket] *)
Definition store_session_ticket (message : NewSessionTicket) : M TlsClient unit :=
  let early_data := find_extension (nst_extensions message) EXT_EARLY_DATA in
  let max_early_data_size := match early_data with Some d => from_bytes d | None => 0 end in
  if bool_decide (early_data ≠ None) && negb (max_early_data_size =? MAX_EARLY_DATA_SIZE) then
    raise (TlsAlert ILLEGAL_PARAMETER "max_early_data_size must be 2^32-1 (RFC 9001 §4.6.1)")
  else
    c ← get;
    master ← lift (resumption_master_secret (hs_schedule (tc_hs c)));
    psk ← lift (resumption_psk master (nst_nonce message));
    modify (λ c, set_tc_session_tickets (tc_session_tickets c ++
      [mkSessionTicket (nst_ticket message) psk (nst_age_add message) (nst_lifetime message) (hs_now (tc_hs c))
         max_early_data_size (tc_alpn c) (tc_peer_transport_parameters c) (hs_cipher_suite (tc_hs c))]) c).

(** [_on_finished] *)
Definition on_finished (verify_data raw : bytes) : M TlsClient unit :=
  c ← get;
  expected ← lift (finished_verify_data (hs_server_secret (tc_hs c)) (transcript_hash (hs_schedule (tc_hs c))));
  if bool_decide (verify_data ≠ expected) then
    raise (TlsAlert DECRYPT_ERROR "server Finished verify_data mismatch")
  else
    _ ← on_hs (feed raw);
    _ ← on_hs emit_application_secrets;
    c ← get;
    verify ← lift (finished_verify_data (hs_client_secret (tc_hs c)) (transcript_hash (hs_schedule (tc_hs c))));
    finished ← lift (encode_finished verify);
    _ ← on_hs (feed finished);
    _ ← on_hs (emit_event (EvSendData L_HANDSHAKE finished));
    _ ← on_hs (emit_event (EvHandshakeComplete (mkHandshakeComplete (tc_alpn c) (tc_peer_transport_parameters c))));
    modify (set_tc_state C_CONNECTED).

(** [TlsClient._handle] *)
Definition client_handle (level : EncryptionLevel) (message : HandshakeMessage) (raw : bytes) : M TlsClient unit :=
  c ← get;
  if bool_decide (tc_state c = C_CONNECTED) then
    match message with
    | HNewSessionTicket t => store_session_ticket t
    | _ => raise (TlsAlert UNEXPECTED_MESSAGE "handshake message after completion")
    end
  else match CLIENT_EXPECTS (tc_state c) with
  | None => raise KeyError
  | Some expects =>
      _ ← lift (require expects level message);
      match message with
      | HServerHello h => on_server_hello h raw
      | HEncryptedExtensions e => on_encrypted_extensions e raw
      | HCertificate m => on_certificate m raw
      | HCertificateVerify m => on_certificate_verify m raw
      | HFinished v => on_finished v raw
      | _ => mret tt
      end
  end.

#[export] Instance client_machine : Machine TlsClient := {
  machine_hs := tc_hs; set_machine_hs := set_tc_hs; handle := client_handle }.
End client.
