(* ===== verification/TlsServer.v ===== *)
(** * The server's handshake (tls.py, TlsServer)

    [TlsServer] of [src/dsquic/tls.py]: its configuration, state and every
    method, as an instance of [Machine]. *)

From Stdlib Require Import Strings.String QArith.
From S2P Require Import Prelude Buffer Crypto Congestion TransportParameters Retry TlsInterface Handshake KeySchedule.
From S2P Require Import TlsCore TlsClient.
#[local] Open Scope Z_scope.

Definition TICKET_AGE_TOLERANCE_MS : Q := 10000.
Definition SESSION_TICKET_LIFETIME : Z := 7200.

Inductive ServerState : Type := S_START | S_WAIT_SECOND_CLIENT_HELLO | S_WAIT_FINISHED | S_CONNECTED.
#[export] Instance ServerState_eq_dec : EqDecision ServerState.
Proof. solve_decision. Defined.

(** [SERVER_EXPECTS] *)
Definition SERVER_EXPECTS (s : ServerState) : option (HandshakeType * EncryptionLevel) :=
  match s with
  | S_START => Some (CLIENT_HELLO, L_INITIAL)
  | S_WAIT_SECOND_CLIENT_HELLO => Some (CLIENT_HELLO, L_INITIAL)
  | S_WAIT_FINISHED => Some (FINISHED, L_HANDSHAKE)
  | S_CONNECTED => None
  end.

(** [needle in haystack] on bytes *)
Fixpoint is_infix (needle haystack : bytes) : bool :=
  bool_decide (take (length needle) haystack = needle) ||
  match haystack with [] => false | _ :: haystack' => is_infix needle haystack' end.

(** [PSK_DHE_KE in modes[1:]] *)
Definition has_dhe_mode (modes : bytes) : bool := existsb (λ b, Zb b =? PSK_DHE_KE) (drop 1 modes).

Section server.
Context `{HP : Primitives} `{HT : TlsPrimitives}.

Record ServerConfig : Type := mkServerConfig {
  scfg_certificate_chain : list bytes;
  scfg_signing_key : SigningKey;
  scfg_alpn : list string;
  scfg_transport_parameters : bytes;
  scfg_ticket_key : option bytes }.

Record TlsServer : Type := mkTlsServer {
  ts_hs : HandshakeState;
  ts_config : ServerConfig;
  ts_random : bytes;
  ts_key : X25519PrivateKey;
  ts_hello_retry_sent : bool;
  ts_alpn : string;
  ts_client_transport_parameters : bytes;
  ts_resumed : bool;
  ts_early_data_accepted : bool;
  ts_early_secret : option bytes;
  ts_client_supports_resumption : bool;
  ts_state : ServerState }.

Definition set_ts_hs (v : HandshakeState) (c : TlsServer) : TlsServer :=
  mkTlsServer v (ts_config c) (ts_random c) (ts_key c) (ts_hello_retry_sent c) (ts_alpn c)
    (ts_client_transport_parameters c) (ts_resumed c) (ts_early_data_accepted c) (ts_early_secret c)
    (ts_client_supports_resumption c) (ts_state c).
Definition set_ts_hello_retry_sent (v : bool) (c : TlsServer) : TlsServer :=
  mkTlsServer (ts_hs c) (ts_config c) (ts_random c) (ts_key c) v (ts_alpn c) (ts_client_transport_parameters c)
    (ts_resumed c) (ts_early_data_accepted c) (ts_early_secret c) (ts_client_supports_resumption c) (ts_state c).
Definition set_ts_alpn (v : string) (c : TlsServer) : TlsServer :=
  mkTlsServer (ts_hs c) (ts_config c) (ts_random c) (ts_key c) (ts_hello_retry_sent c) v
    (ts_client_transport_parameters c) (ts_resumed c) (ts_early_data_accepted c) (ts_early_secret c)
    (ts_client_supports_resumption c) (ts_state c).
Definition set_ts_client_transport_parameters (v : bytes) (c : TlsServer) : TlsServer :=
  mkTlsServer (ts_hs c) (ts_config c) (ts_random c) (ts_key c) (ts_hello_retry_sent c) (ts_alpn c) v (ts_resumed
    c) (ts_early_data_accepted c) (ts_early_secret c) (ts_client_supports_resumption c) (ts_state c).
Definition set_ts_resumed (v : bool) (c : TlsServer) : TlsServer :=
  mkTlsServer (ts_hs c) (ts_config c) (ts_random c) (ts_key c) (ts_hello_retry_sent c) (ts_alpn c)
    (ts_client_transport_parameters c) v (ts_early_data_accepted c) (ts_early_secret c)
    (ts_client_supports_resumption c) (ts_state c).
Definition set_ts_early_data_accepted (v : bool) (c : TlsServer) : TlsServer :=
  mkTlsServer (ts_hs c) (ts_config c) (ts_random c) (ts_key c) (ts_hello_retry_sent c) (ts_alpn c)
    (ts_client_transport_parameters c) (ts_resumed c) v (ts_early_secret c) (ts_client_supports_resumption c)
    (ts_state c).
Definition set_ts_early_secret (v : option bytes) (c : TlsServer) : TlsServer :=
  mkTlsServer (ts_hs c) (ts_config c) (ts_random c) (ts_key c) (ts_hello_retry_sent c) (ts_alpn c)
    (ts_client_transport_parameters c) (ts_resumed c) (ts_early_data_accepted c) v (ts_client_supports_resumption
    c) (ts_state c).
Definition set_ts_client_supports_resumption (v : bool) (c : TlsServer) : TlsServer :=
  mkTlsServer (ts_hs c) (ts_config c) (ts_random c) (ts_key c) (ts_hello_retry_sent c) (ts_alpn c)
    (ts_client_transport_parameters c) (ts_resumed c) (ts_early_data_accepted c) (ts_early_secret c) v (ts_state
    c).
Definition set_ts_state (v : ServerState) (c : TlsServer) : TlsServer :=
  mkTlsServer (ts_hs c) (ts_config c) (ts_random c) (ts_key c) (ts_hello_retry_sent c) (ts_alpn c)
    (ts_client_transport_parameters c) (ts_resumed c) (ts_early_data_accepted c) (ts_early_secret c)
    (ts_client_supports_resumption c) v.

Definition at_hs {A} (m : M HandshakeState A) : M TlsServer A := zoom ts_hs set_ts_hs m.

(** [TlsServer.__init__] *)
Definition new_TlsServer (config : ServerConfig) (random : option bytes) (key : option X25519PrivateKey)
    (entropy : Entropy) : TlsServer :=
  let '(random, hs) := match random with
    | Some r => (r, new_HandshakeState entropy)
    | None => (en_urandom entropy 0 32, set_hs_draws 1 (new_HandshakeState entropy))
    end in
  let '(key, hs) := match key with
    | Some k => (k, hs)
    | None => (en_generate entropy (hs_draws hs), set_hs_draws (S (hs_draws hs)) hs)
    end in
  mkTlsServer hs config random key false "" [] false false None false S_START.

(** ** Negotiation *)

(** [_negotiate_alpn] *)
Definition negotiate_alpn (hello : ClientHello) (s : TlsServer) : result string :=
  offered ← match find_extension (ch_extensions hello) EXT_ALPN with
            | Some d => parse_alpn d
            | None => Ok []
            end;
  match List.find (λ p, bool_decide (p ∈ offered)) (scfg_alpn (ts_config s)) with
  | Some p => Ok p
  | None => Raise (TlsAlert NO_APPLICATION_PROTOCOL "no ALPN protocol in common")
  end.

(** [_send_hello_retry_request] *)
Definition send_hello_retry_request (hello : ClientHello) (raw : bytes) (group : Z) : M TlsServer unit :=
  s ← get;
  if ts_hello_retry_sent s then
    raise (TlsAlert HANDSHAKE_FAILURE "client retried without a usable key share")
  else
    _ ← modify (set_ts_hello_retry_sent true);
    _ ← at_hs (feed raw);
    _ ← at_hs (with_schedule replace_transcript_with_message_hash);
    version ← lift (to_bytes 2 TLS_1_3);
    selected ← lift (to_bytes 2 group);
    retry ← lift (encode_server_hello (mkServerHello HELLO_RETRY_REQUEST_RANDOM (ch_legacy_session_id hello)
              (hs_cipher_suite (ts_hs s))
              [mkExtension EXT_SUPPORTED_VERSIONS version; mkExtension EXT_KEY_SHARE selected]));
    _ ← at_hs (feed retry);
    _ ← at_hs (emit_event (EvSendData L_INITIAL retry));
    modify (set_ts_state S_WAIT_SECOND_CLIENT_HELLO).

(** The loop of [_select_psk] over the offered identities *)
Fixpoint select_loop (key raw : bytes) (now : Q) (binders : list bytes) (index : nat) (identities : list PskIdentity)
    : result (option (Z * TicketState)) :=
  match identities with
  | [] => Ok None
  | identity :: identities' =>
      match open_ticket key (pi_identity identity) now (inject_Z SESSION_TICKET_LIFETIME) with
      | Raise (TicketError _) => select_loop key raw now binders (S index) identities'
      | Raise e => Raise e
      | Ok state =>
          bkey ← binder_key (new_KeySchedule (Some (tk_psk state)));
          covered ← binder_transcript raw (len binders);
          expected ← finished_verify_data bkey (sha256 covered);
          match binders !! index with
          | None => Raise IndexError
          | Some binder =>
              if bool_decide (binder ≠ expected) then
                Raise (TlsAlert DECRYPT_ERROR "PSK binder does not verify (§4.2.11.2)")
              else Ok (Some (Z.of_nat index, state))
          end
      end
  end.

(** [_select_psk] *)
Definition select_psk (hello : ClientHello) (raw : bytes) (s : TlsServer) : result (option (Z * TicketState)) :=
  match find_extension (ch_extensions hello) EXT_PRE_SHARED_KEY with
  | None => Ok None
  | Some offer =>
      if bool_decide (ext_type <$> last (ch_extensions hello) ≠ Some EXT_PRE_SHARED_KEY) then
        Raise (TlsAlert ILLEGAL_PARAMETER "pre_shared_key is not the last extension")
      else match find_extension (ch_extensions hello) EXT_PSK_KEY_EXCHANGE_MODES with
      | None => Raise (TlsAlert MISSING_EXTENSION "pre_shared_key without psk_key_exchange_modes (§4.2.9)")
      | Some modes =>
          if negb (has_dhe_mode modes) then Ok None
          else match scfg_ticket_key (ts_config s) with
          | None => Ok None
          | Some key =>
              if ts_hello_retry_sent s then Ok None
              else
                '(identities, binders) ← parse_offered_psks offer;
                select_loop key raw (hs_now (ts_hs s)) binders 0 identities
          end
      end
  end.

(** [_ticket_is_fresh] *)
Definition ticket_is_fresh (hello : ClientHello) (selected : Z * TicketState) (now : Q) : result bool :=
  match find_extension (ch_extensions hello) EXT_PRE_SHARED_KEY with
  | None => Raise AssertionError
  | Some offer =>
      '(identities, _) ← parse_offered_psks offer;
      let '(index, state) := selected in
      match identities !! Z.to_nat index with
      | None => Raise IndexError
      | Some identity =>
          let claimed_ms := (pi_obfuscated_ticket_age identity - tk_age_add state) mod 2 ^ 32 in
          let actual_ms := ((now - inject_Z (tk_issued_at state)) * 1000)%Q in
          Ok (Qle_bool (Qabs.Qabs (actual_ms - inject_Z claimed_ms)) TICKET_AGE_TOLERANCE_MS)
      end
  end.

(** The condition [early_data_accepted] is set to; [and] stops at the first
    false conjunct *)
Definition accepts_early_data (hello : ClientHello) (selected : option (Z * TicketState)) (alpn : string)
    (s : TlsServer) : result bool :=
  match find_extension (ch_extensions hello) EXT_EARLY_DATA, selected with
  | Some _, Some (index, state) =>
      if negb ((index =? 0) && bool_decide (tk_alpn state = alpn)
               && (tk_cipher_suite state =? hs_cipher_suite (ts_hs s))) then Ok false
      else
        remembered ← decode_transport_parameters (tk_transport_parameters state);
        current ← decode_transport_parameters (scfg_transport_parameters (ts_config s));
        if reduces_zero_rtt_limits remembered current then Ok false
        else ticket_is_fresh hello (index, state) (hs_now (ts_hs s))
  | _, _ => Ok false
  end.

(** [_resolve_psk_offer] *)
Definition resolve_psk_offer (hello : ClientHello) (raw : bytes) (alpn : string)
    : M TlsServer (option (Z * TicketState)) :=
  s ← get;
  selected ← lift (select_psk hello raw s);
  _ ← modify (set_ts_resumed (bool_decide (selected ≠ None)));
  _ ← modify (set_ts_client_supports_resumption
        match find_extension (ch_extensions hello) EXT_PSK_KEY_EXCHANGE_MODES with
        | Some modes => has_dhe_mode modes
        | None => false
        end);
  s ← get;
  early ← lift (accepts_early_data hello selected alpn s);
  _ ← modify (set_ts_early_data_accepted early);
  _ ← match selected with
      | Some (_, state) => at_hs (modify (set_hs_schedule (new_KeySchedule (Some (tk_psk state)))))
      | None => mret tt
      end;
  _ ← at_hs (feed raw);
  s ← get;
  _ ← when early
        (secret ← lift (client_early_traffic_secret (hs_schedule (ts_hs s)));
         modify (set_ts_early_secret (Some secret)));
  mret selected.

(** [_certificate_messages] *)
Definition certificate_messages : M TlsServer bytes :=
  s ← get;
  certificate ← lift (encode_certificate (mkCertificate []
                  (map (λ data, mkCertificateEntry data []) (scfg_certificate_chain (ts_config s)))));
  _ ← at_hs (feed certificate);
  s ← get;
  let '(algorithm, signature) :=
    sign_certificate_verify (scfg_signing_key (ts_config s)) (transcript_hash (hs_schedule (ts_hs s))) in
  verify ← lift (encode_certificate_verify (mkCertificateVerify algorithm signature));
  _ ← at_hs (feed verify);
  mret (certificate ++ verify).

(** ** Handlers *)

(** The ServerHello of [_on_client_hello] *)
Definition answer_hello (hello : ClientHello) (selected : option (Z * TicketState)) (peer_public : bytes)
    : M TlsServer unit :=
  s ← get;
  version ← lift (to_bytes 2 TLS_1_3);
  share ← lift (key_share_entry X25519_GROUP (x25519_public (ts_key s)));
  psk ← lift match selected with
             | Some (index, _) => i ← to_bytes 2 index; Ok [mkExtension EXT_PRE_SHARED_KEY i]
             | None => Ok []
             end;
  raw ← lift (encode_server_hello (mkServerHello (ts_random s) (ch_legacy_session_id hello) (hs_cipher_suite (ts_hs s))
          ([mkExtension EXT_SUPPORTED_VERSIONS version; mkExtension EXT_KEY_SHARE share] ++ psk)));
  _ ← at_hs (feed raw);
  _ ← at_hs (emit_event (EvSendData L_INITIAL raw));
  shared ← lift (x25519_exchange (ts_key s) peer_public);
  at_hs (emit_handshake_secrets shared).

(** The flight of [_on_client_hello] from EncryptedExtensions to Finished *)
Definition send_server_flight (resumed : bool) (alpn : string) : M TlsServer unit :=
  s ← get;
  protocols ← lift (alpn_extension [alpn]);
  encrypted_extensions ← lift (encode_encrypted_extensions
    ([mkExtension EXT_ALPN protocols;
      mkExtension EXT_QUIC_TRANSPORT_PARAMETERS (scfg_transport_parameters (ts_config s))]
     ++ (if ts_early_data_accepted s then [mkExtension EXT_EARLY_DATA []] else [])));
  _ ← at_hs (feed encrypted_extensions);
  flight ← (if resumed then mret encrypted_extensions
            else messages ← certificate_messages; mret (encrypted_extensions ++ messages));
  s ← get;
  verify ← lift (finished_verify_data (hs_server_secret (ts_hs s)) (transcript_hash (hs_schedule (ts_hs s))));
  finished ← lift (encode_finished verify);
  _ ← at_hs (feed finished);
  _ ← at_hs (emit_event (EvSendData L_HANDSHAKE (flight ++ finished)));
  at_hs emit_application_secrets.

(** [_on_client_hello] *)
Definition on_client_hello (hello : ClientHello) (raw : bytes) : M TlsServer unit :=
  match List.filter (λ s, bool_decide (s ∈ SUPPORTED_CIPHER_SUITES)) (ch_cipher_suites hello) with
  | [] => raise (TlsAlert HANDSHAKE_FAILURE "no cipher suite in common")
  | suite :: _ =>
      _ ← at_hs (modify (set_hs_cipher_suite suite));
      version ← lift (to_bytes 2 TLS_1_3);
      if negb (match find_extension (ch_extensions hello) EXT_SUPPORTED_VERSIONS with
               | Some versions => is_infix version versions
               | None => false
               end) then
        raise (TlsAlert PROTOCOL_VERSION "client did not offer TLS 1.3")
      else
        share ← match find_extension (ch_extensions hello) EXT_KEY_SHARE with
                | Some key_share => lift (client_key_share key_share)
                | None => mret None
                end;
        match share with
        | None =>
            offered ← match find_extension (ch_extensions hello) EXT_SUPPORTED_GROUPS with
                      | Some d => lift (parse_supported_groups d)
                      | None => mret []
                      end;
            match List.find (λ g, bool_decide (g ∈ offered)) SUPPORTED_GROUPS with
            | None => raise (TlsAlert HANDSHAKE_FAILURE "no key exchange group in common")
            | Some common => send_hello_retry_request hello raw common
            end
        | Some peer_public =>
            match find_extension (ch_extensions hello) EXT_QUIC_TRANSPORT_PARAMETERS with
            | None => raise (TlsAlert MISSING_EXTENSION "no quic_transport_parameters (RFC 9001 §8.2)")
            | Some client_transport_parameters =>
                s ← get;
                alpn ← lift (negotiate_alpn hello s);
                _ ← at_hs (modify (set_hs_client_random (ch_random hello)));
                selected ← resolve_psk_offer hello raw alpn;
                _ ← answer_hello hello selected peer_public;
                _ ← send_server_flight (bool_decide (selected ≠ None)) alpn;
                _ ← modify (set_ts_alpn alpn);
                _ ← modify (set_ts_client_transport_parameters client_transport_parameters);
                modify (set_ts_state S_WAIT_FINISHED)
            end
        end
  end.

(** [_issue_session_ticket] *)
Definition issue_session_ticket : M TlsServer unit :=
  s ← get;
  match scfg_ticket_key (ts_config s) with
  | None => mret tt
  | Some key =>
      if negb (ts_client_supports_resumption s) then mret tt
      else
        nonce ← at_hs (urandom TICKET_NONCE_LENGTH);
        age ← at_hs (urandom 4);
        let age_add := from_bytes age in
        master ← lift (resumption_master_secret (hs_schedule (ts_hs s)));
        psk ← lift (resumption_psk master nonce);
        let state := mkTicketState psk age_add (ts_alpn s) (scfg_transport_parameters (ts_config s))
                       (int_of (hs_now (ts_hs s))) (hs_cipher_suite (ts_hs s)) in
        seal_nonce ← at_hs (urandom TICKET_NONCE_LENGTH);
        ticket ← lift (seal_ticket seal_nonce key state);
        early ← lift (to_bytes 4 MAX_EARLY_DATA_SIZE);
        message ← lift (encode_new_session_ticket (mkNewSessionTicket SESSION_TICKET_LIFETIME age_add nonce ticket
                    [mkExtension EXT_EARLY_DATA early]));
        at_hs (emit_event (EvSendData L_ONE_RTT message))
  end.

(** [TlsServer._on_finished] *)
Definition on_client_finished (verify_data raw : bytes) : M TlsServer unit :=
  s ← get;
  expected ← lift (finished_verify_data (hs_client_secret (ts_hs s)) (transcript_hash (hs_schedule (ts_hs s))));
  if bool_decide (verify_data ≠ expected) then
    raise (TlsAlert DECRYPT_ERROR "client Finished verify_data mismatch")
  else
    _ ← at_hs (feed raw);
    _ ← at_hs (emit_event (EvHandshakeComplete (mkHandshakeComplete (ts_alpn s) (ts_client_transport_parameters s))));
    _ ← modify (set_ts_state S_CONNECTED);
    issue_session_ticket.

(** [TlsServer._handle] *)
Definition server_handle (level : EncryptionLevel) (message : HandshakeMessage) (raw : bytes) : M TlsServer unit :=
  s ← get;
  match SERVER_EXPECTS (ts_state s) with
  | None => raise (TlsAlert UNEXPECTED_MESSAGE "handshake message after completion")
  | Some expects =>
      _ ← lift (require expects level message);
      match message with
      | HClientHello h => on_client_hello h raw
      | HFinished v => on_client_finished v raw
      | _ => mret tt
      end
  end.

#[export] Instance server_machine : Machine TlsServer := {
  machine_hs := ts_hs; set_machine_hs := set_ts_hs; handle := server_handle }.
End server.
