(* ===== verification/TlsRuns.v ===== *)
(** * Running the TLS state machines

    A concrete, insecure instance of [TlsPrimitives] that satisfies [TlsLaws],
    and the exchange of handshake bytes between a client and a server:
    [deliver] hands one side's [SendData] events to the other.  Whole
    handshakes evaluate. *)

From Stdlib Require Import Strings.String QArith.
From S2P Require Import Prelude Buffer Crypto Congestion TransportParameters Retry TlsInterface Handshake KeySchedule.
From S2P Require Import TlsCore TlsClient TlsServer.
#[local] Open Scope Z_scope.

(** ** A concrete instance *)

(** A certificate is a byte for the kind of key (1 is RSA, 2 elliptic curve)
    and the key; it is trusted when it is in the store. *)
#[export] Instance toy_tls_primitives : TlsPrimitives := {
  X25519PrivateKey := Z;
  x25519_public k := be_bytes 32 k;
  x25519_exchange k p :=
    if len p =? 32 then Ok (be_bytes 32 (k * from_bytes p)) else Raise (ValueError "An X25519 public key is 32 bytes long");
  RSAPrivateKey := bytes;
  EllipticCurvePrivateKey := bytes;
  RSAPublicKey := bytes;
  EllipticCurvePublicKey := bytes;
  rsa_pss_sign k m := toy_digest 32 (k ++ m);
  ecdsa_sign k m := toy_digest 32 (k ++ m);
  rsa_pss_verify k s m := if bool_decide (s = toy_digest 32 (k ++ m)) then Ok tt else Raise InvalidSignature;
  ecdsa_verify k s m := if bool_decide (s = toy_digest 32 (k ++ m)) then Ok tt else Raise InvalidSignature;
  X509 := bytes;
  load_der_x509_certificate d := match d with [] => Raise (ValueError "error parsing asn1 value") | _ => Ok d end;
  certificate_key c := match c with x01 :: k => Some (inl k) | x02 :: k => Some (inr k) | _ => None end;
  verify_server store _ _ leaf _ :=
    if bool_decide (leaf ∈ store) then Ok tt else Raise (VerificationError "candidates exhausted") }.

Lemma be_bytes_wrap n v : be_bytes n (v mod 256 ^ Z.of_nat n) = be_bytes n v.
Proof.
  rewrite <- from_bytes_be. rewrite <- (be_bytes_from (be_bytes n v)) at 2. f_equal.
  pose proof (len_be_bytes n v). unfold len in *. lia.
Qed.

#[export] Instance toy_tls_laws : TlsLaws toy_tls_primitives.
Proof.
  refine {| rsa_public := (λ k, k) : @RSAPrivateKey toy_tls_primitives → @RSAPublicKey toy_tls_primitives;
            ec_public := (λ k, k) : @EllipticCurvePrivateKey toy_tls_primitives → @EllipticCurvePublicKey toy_tls_primitives |};
    cbn [x25519_public x25519_exchange rsa_pss_verify rsa_pss_sign ecdsa_verify ecdsa_sign toy_tls_primitives].
  - intros k. apply len_be_bytes.
  - intros a b. rewrite !len_be_bytes. cbn [Z.of_nat Z.eqb Pos.of_succ_nat Pos.succ Pos.eqb].
    eexists. split; [reflexivity|]. f_equal. rewrite !from_bytes_be.
    rewrite <- be_bytes_wrap, <- (be_bytes_wrap 32 (a * _)), !Zmult_mod_idemp_r. by rewrite (Z.mul_comm a b).
  - intros k p e. destruct (len p =? 32); intros [= <-]. eauto.
  - intros k m. by rewrite bool_decide_true.
  - intros k m. by rewrite bool_decide_true.
  - intros k m. by rewrite len_toy_digest.
  - intros k m. by rewrite len_toy_digest.
Defined.

(** ** Exchanging handshake bytes *)

Section exchange.
Context `{HP : Primitives} `{HT : TlsPrimitives}.

(** Hand the [SendData] events of one side to the other. *)
Definition deliver {T} `{!Machine T} (now : Q) (events : list TlsEvent) : M T unit :=
  each (λ e, match e with EvSendData level data => receive level data now | _ => mret tt end) events.

(** What one side does with the other's events, and the events it answers
    with. *)
Definition answer {T} `{!Machine T} (now : Q) (events : list TlsEvent) (t : T) : result (list TlsEvent * T) :=
  match deliver now events t with
  | (Ok _, t') => Ok (hs_events (machine_hs t'), set_machine_hs (set_hs_events [] (machine_hs t')) t')
  | (Raise e, _) => Raise e
  end.

Definition begin_handshake (now : Q) (c : TlsClient) : result (list TlsEvent * TlsClient) :=
  match start now c with
  | (Ok _, c') => Ok (hs_events (tc_hs c'), set_tc_hs (set_hs_events [] (tc_hs c')) c')
  | (Raise e, _) => Raise e
  end.

(** Flights in turn, [n] from each side after the first hello; the events of
    both sides are kept. *)
Fixpoint flights (n : nat) (now : Q) (events : list TlsEvent) (c : TlsClient) (s : TlsServer)
    (client_log server_log : list TlsEvent) : result (TlsClient * TlsServer * list TlsEvent * list TlsEvent) :=
  match n with
  | O => Ok (c, s, client_log, server_log)
  | S n' =>
      '(server_events, s) ← answer now events s;
      '(client_events, c) ← answer now server_events c;
      flights n' now client_events c s (client_log ++ client_events) (server_log ++ server_events)
  end.
Definition run_handshake (n : nat) (now : Q) (c : TlsClient) (s : TlsServer)
    : result (TlsClient * TlsServer * list TlsEvent * list TlsEvent) :=
  '(events, c) ← begin_handshake now c;
  flights n now events c s events [].
End exchange.

(** ** Sample endpoints *)

Definition sample_certificate : bytes := x01 :: ascii_bytes "key".
Definition sample_parameters : bytes :=
  match encode_transport_parameters default_parameters with Ok d => d | Raise _ => [] end.

Definition sample_client_config (ticket : option SessionTicket) (groups : option (list Z)) : ClientConfig :=
  mkClientConfig "example.org" ["h3"; "hq-interop"] sample_parameters [sample_certificate] false None groups ticket
    SUPPORTED_CIPHER_SUITES (bool_decide (ticket ≠ None)).
Definition sample_server_config : ServerConfig :=
  mkServerConfig [sample_certificate] (RsaKey (ascii_bytes "key" : @RSAPrivateKey toy_tls_primitives)) ["hq-interop"]
    sample_parameters (Some (zeros 32)).

Definition sample_entropy (seed : Z) : Entropy :=
  mkEntropy (λ i n, be_bytes (Z.to_nat n) (seed + Z.of_nat i))
    ((λ i, seed + 1000 * Z.of_nat i) : nat → @X25519PrivateKey toy_tls_primitives).

Definition sample_client (ticket : option SessionTicket) (groups : option (list Z)) : TlsClient :=
  new_TlsClient (sample_client_config ticket groups) None None (sample_entropy 3).
Definition sample_server : TlsServer := new_TlsServer sample_server_config None None (sample_entropy 5).

Definition secrets (events : list TlsEvent) : list SecretAvailable :=
  omap (λ e, match e with EvSecretAvailable s => Some s | _ => None end) events.
