(* ===== verification/TlsReceive.v ===== *)
(** * Reassembly of handshake messages

    What [receive] of the two state machines does with CRYPTO bytes, proved
    over the interface [MachineLaws]: a role's handler neither reads nor
    writes the reassembly buffers.  It follows that how the bytes are cut into
    deliveries does not matter, and that delivering the encodings of messages
    is handling the messages in turn. *)

From Stdlib Require Import Strings.String QArith.
From S2P Require Import Prelude Buffer Crypto Congestion TlsInterface Handshake Codec HandshakeProofs KeySchedule.
From S2P Require Import TlsCore TlsClient TlsServer TlsRuns.
#[local] Open Scope Z_scope.

(** ** Framing

    [frames f m]: running [m] from a state changed by [f] gives the same
    outcome, and the same state changed by [f]. *)
Section frames.
Context {S : Type} (f : S → S).

Definition frames {A} (m : M S A) : Prop := ∀ s, m (f s) = ((m s).1, f (m s).2).

Lemma frames_ret {A} (a : A) : frames (mret a).
Proof. done. Qed.
Lemma frames_raise {A} e : frames (raise e : M S A).
Proof. done. Qed.
Lemma frames_lift {A} (r : result A) : frames (lift r).
Proof. done. Qed.
Lemma frames_modify g : (∀ s, g (f s) = f (g s)) → frames (modify g).
Proof. intros H s. unfold modify. cbn. by rewrite H. Qed.
Lemma frames_bind {A B} (m : M S A) (k : A → M S B) : frames m → (∀ a, frames (k a)) → frames (m ≫= k).
Proof.
  intros Hm Hk s. unfold mbind, M_bind. rewrite Hm. destruct (m s) as [[a|e] s']; [apply Hk|done].
Qed.
Lemma frames_get {B} (k : S → M S B) :
  (∀ s s', k (f s) s' = k s s') → (∀ s, frames (k s)) → frames (get ≫= k).
Proof. intros H Hk s. unfold mbind, M_bind, get. rewrite H. apply Hk. Qed.
Lemma frames_when b m : frames m → frames (when b m).
Proof. by destruct b. Qed.
End frames.

Create HintDb frame.
#[export] Hint Resolve frames_ret frames_raise frames_lift : frame.

(** One step of a framing proof: binds, reads of the state, branches. *)
Ltac frame_step :=
  match goal with
  | |- frames _ (get ≫= _) => apply frames_get; [reflexivity|intros ?]
  | |- frames _ (_ ≫= _) => apply frames_bind; [|intros ?]
  | |- frames _ (modify _) => apply frames_modify; intros ?; reflexivity
  | |- frames _ (when _ _) => apply frames_when
  | |- frames _ (if ?b then _ else _) => destruct b
  | |- frames _ (match ?x with _ => _ end) => destruct x
  | |- frames _ (let '(_, _) := ?x in _) => destruct x
  end.
Ltac frame := repeat (solve [eauto with frame nocore] || frame_step).

(** Steps of a [preserves] proof on the handshake states. *)
Create HintDb keep.
#[export] Hint Extern 1 (preserves _ (mret _)) => apply preserves_ret : keep.
#[export] Hint Extern 1 (preserves _ (raise _)) => apply preserves_raise : keep.
#[export] Hint Extern 1 (preserves _ get) => apply preserves_get : keep.
#[export] Hint Extern 1 (preserves _ (lift _)) => apply preserves_lift : keep.
Ltac keep_step :=
  match goal with
  | |- preserves _ (_ ≫= _) => apply preserves_bind; [|intros ?]
  | |- preserves _ (modify _) => apply preserves_modify; intros ?; reflexivity
  | |- preserves _ (when _ _) => apply preserves_when
  | |- preserves _ (if ?b then _ else _) => destruct b
  | |- preserves _ (match ?x with _ => _ end) => destruct x
  end.
Ltac keep := repeat (solve [eauto with keep nocore] || keep_step).

Section laws.
Context `{HP : Primitives} `{HT : TlsPrimitives}.

(** Replace the reassembly buffers. *)
Definition put_buffers (b : Buffers) (h : HandshakeState) : HandshakeState := set_hs_buffers b h.
Definition rebuffer {T} `{!Machine T} (b : Buffers) (t : T) : T := set_machine_hs (put_buffers b (machine_hs t)) t.

(** The clock reading of the last [receive] or [start] stays. *)
Definition same_now {T} `{!Machine T} (t t' : T) : Prop := hs_now (machine_hs t') = hs_now (machine_hs t).
#[export] Instance same_now_preorder {T} `{!Machine T} : PreOrder (same_now (T := T)).
Proof. split; [done|]. intros a b c H1 H2. unfold same_now in *. congruence. Qed.
Definition keeps_now (h h' : HandshakeState) : Prop := hs_now h' = hs_now h.
#[export] Instance keeps_now_preorder : PreOrder keeps_now.
Proof. split; [done|]. intros a b c H1 H2. unfold keeps_now in *. congruence. Qed.

Class MachineLaws (T : Type) `{!Machine T} : Prop := {
  machine_get_set h (t : T) : machine_hs (set_machine_hs h t) = h;
  machine_set_set h h' (t : T) : set_machine_hs h (set_machine_hs h' t) = set_machine_hs h t;
  machine_set_get (t : T) : set_machine_hs (machine_hs t) t = t;
  handle_frames b level m raw : frames (rebuffer b) (handle level m raw : M T unit);
  handle_now level m raw : preserves (same_now (T := T)) (handle level m raw) }.

(** *** The shared operations *)

Lemma frames_emit_event b e : frames (put_buffers b) (emit_event e).
Proof. unfold emit_event. frame. Qed.
Lemma frames_feed b m : frames (put_buffers b) (feed m).
Proof. unfold feed. frame. Qed.
Lemma frames_with_schedule b f : frames (put_buffers b) (with_schedule f).
Proof. unfold with_schedule. frame. Qed.
#[local] Hint Resolve frames_emit_event frames_feed frames_with_schedule : frame.
Lemma frames_emit_secret b l d s : frames (put_buffers b) (emit_secret l d s).
Proof. unfold emit_secret. frame. Qed.
#[local] Hint Resolve frames_emit_secret : frame.
Lemma frames_emit_handshake_secrets b s : frames (put_buffers b) (emit_handshake_secrets s).
Proof. unfold emit_handshake_secrets. frame. Qed.
Lemma frames_emit_application_secrets b : frames (put_buffers b) emit_application_secrets.
Proof. unfold emit_application_secrets. frame. Qed.
Lemma frames_urandom b n : frames (put_buffers b) (urandom n).
Proof. unfold urandom. frame. Qed.
Lemma frames_generate b : frames (put_buffers b) generate.
Proof. unfold generate. frame. Qed.
#[local] Hint Resolve frames_emit_handshake_secrets frames_emit_application_secrets frames_urandom frames_generate : frame.

Lemma keeps_emit_event e : preserves keeps_now (emit_event e).
Proof. unfold emit_event. keep. Qed.
Lemma keeps_feed m : preserves keeps_now (feed m).
Proof. unfold feed. keep. Qed.
Lemma keeps_with_schedule f : preserves keeps_now (with_schedule f).
Proof. unfold with_schedule. keep. Qed.
#[local] Hint Resolve keeps_emit_event keeps_feed keeps_with_schedule : keep.
Lemma keeps_emit_handshake_secrets s : preserves keeps_now (emit_handshake_secrets s).
Proof. unfold emit_handshake_secrets, emit_secret. keep. Qed.
Lemma keeps_emit_application_secrets : preserves keeps_now emit_application_secrets.
Proof. unfold emit_application_secrets, emit_secret. keep. Qed.
Lemma keeps_emit_secret l d s : preserves keeps_now (emit_secret l d s).
Proof. unfold emit_secret. keep. Qed.
Lemma keeps_urandom n : preserves keeps_now (urandom n).
Proof. unfold urandom. keep. Qed.
Lemma keeps_generate : preserves keeps_now generate.
Proof. unfold generate. keep. Qed.
#[local] Hint Resolve keeps_emit_handshake_secrets keeps_emit_application_secrets keeps_emit_secret keeps_urandom
  keeps_generate : keep.

(** *** The client *)

Lemma frames_on_hs {A} b (m : M HandshakeState A) : frames (put_buffers b) m → frames (rebuffer (T := TlsClient) b) (on_hs m).
Proof.
  intros H c. unfold on_hs, zoom, rebuffer. cbn [machine_hs set_machine_hs client_machine].
  change (tc_hs (set_tc_hs ?h c)) with h. rewrite H. by destruct (m (tc_hs c)) as [r h].
Qed.
#[local] Hint Resolve frames_on_hs : frame.

Lemma frames_build_client_hello b : frames (rebuffer b) build_client_hello.
Proof. unfold build_client_hello. frame. Qed.
Lemma frames_fill_psk_binder b raw : frames (rebuffer b) (fill_psk_binder raw).
Proof. unfold fill_psk_binder. frame. Qed.
Lemma frames_with_fallback b f : frames (rebuffer b) (with_fallback f).
Proof. unfold with_fallback. frame. Qed.
#[local] Hint Resolve frames_build_client_hello frames_fill_psk_binder frames_with_fallback : frame.
Lemma frames_send_client_hello b : frames (rebuffer b) send_client_hello.
Proof. unfold send_client_hello. frame. Qed.
#[local] Hint Resolve frames_send_client_hello : frame.
Lemma frames_on_hello_retry_request b h raw : frames (rebuffer b) (on_hello_retry_request h raw).
Proof. unfold on_hello_retry_request. frame. Qed.
#[local] Hint Resolve frames_on_hello_retry_request : frame.
Lemma frames_client_handle b level m raw : frames (rebuffer b) (client_handle level m raw).
Proof.
  unfold client_handle, store_session_ticket, on_server_hello, settle_psk, on_encrypted_extensions, on_certificate,
    on_certificate_verify, on_finished. frame.
Qed.

Lemma keeps_on_hs {A} (m : M HandshakeState A) :
  preserves keeps_now m → preserves (same_now (T := TlsClient)) (on_hs m).
Proof. intros H c. unfold on_hs, zoom. specialize (H (tc_hs c)). by destruct (m (tc_hs c)). Qed.
#[local] Hint Resolve keeps_on_hs : keep.

Lemma keeps_send_client_hello : preserves (same_now (T := TlsClient)) send_client_hello.
Proof. unfold send_client_hello, build_client_hello, fill_psk_binder, with_fallback. keep. Qed.
#[local] Hint Resolve keeps_send_client_hello : keep.
Lemma keeps_client_handle level m raw : preserves (same_now (T := TlsClient)) (client_handle level m raw).
Proof.
  unfold client_handle, store_session_ticket, on_server_hello, on_hello_retry_request, with_fallback, settle_psk,
    on_encrypted_extensions, on_certificate, on_certificate_verify, on_finished. keep.
Qed.

#[export] Instance client_laws : MachineLaws TlsClient.
Proof. split; [done|done|by intros []|apply frames_client_handle|apply keeps_client_handle]. Qed.

(** *** The server *)

Lemma frames_at_hs {A} b (m : M HandshakeState A) : frames (put_buffers b) m → frames (rebuffer (T := TlsServer) b) (at_hs m).
Proof.
  intros H c. unfold at_hs, zoom, rebuffer. cbn [machine_hs set_machine_hs server_machine].
  change (ts_hs (set_ts_hs ?h c)) with h. rewrite H. by destruct (m (ts_hs c)) as [r h].
Qed.
#[local] Hint Resolve frames_at_hs : frame.

Lemma frames_server_handle b level m raw : frames (rebuffer b) (server_handle level m raw).
Proof.
  unfold server_handle, on_client_hello, send_hello_retry_request, resolve_psk_offer, answer_hello, send_server_flight,
    certificate_messages, on_client_finished, issue_session_ticket. frame.
Qed.

Lemma keeps_at_hs {A} (m : M HandshakeState A) :
  preserves keeps_now m → preserves (same_now (T := TlsServer)) (at_hs m).
Proof. intros H c. unfold at_hs, zoom. specialize (H (ts_hs c)). by destruct (m (ts_hs c)). Qed.
#[local] Hint Resolve keeps_at_hs : keep.

Lemma keeps_server_handle level m raw : preserves (same_now (T := TlsServer)) (server_handle level m raw).
Proof.
  unfold server_handle, on_client_hello, send_hello_retry_request, resolve_psk_offer, answer_hello, send_server_flight,
    certificate_messages, on_client_finished, issue_session_ticket. keep.
Qed.

#[export] Instance server_laws : MachineLaws TlsServer.
Proof. split; [done|done|by intros []|apply frames_server_handle|apply keeps_server_handle]. Qed.
End laws.

(** ** The receive loop *)

Section receive.
Context `{HP : Primitives} `{HT : TlsPrimitives} {T : Type} `{!Machine T} `{!MachineLaws T}.
Implicit Types t : T.

Definition buffer_at (level : EncryptionLevel) (t : T) : bytes := get_buffer level (hs_buffers (machine_hs t)).
Definition with_buffer (level : EncryptionLevel) (d : bytes) (t : T) : T :=
  rebuffer (set_buffer level d (hs_buffers (machine_hs t))) t.

Lemma get_set_buffer level d b : get_buffer level (set_buffer level d b) = d.
Proof. by destruct level. Qed.
Lemma set_set_buffer level d d' b : set_buffer level d (set_buffer level d' b) = set_buffer level d b.
Proof. by destruct level. Qed.
Lemma set_get_buffer level b : set_buffer level (get_buffer level b) b = b.
Proof. by destruct level, b. Qed.

Lemma rebuffer_rebuffer b b' t : rebuffer b (rebuffer b' t) = rebuffer b t.
Proof. unfold rebuffer. by rewrite machine_get_set, machine_set_set. Qed.
Lemma rebuffer_buffers b t : hs_buffers (machine_hs (rebuffer b t)) = b.
Proof. unfold rebuffer. by rewrite machine_get_set. Qed.
Lemma rebuffer_same t : rebuffer (hs_buffers (machine_hs t)) t = t.
Proof.
  unfold rebuffer. replace (put_buffers _ _) with (machine_hs t) by (by destruct (machine_hs t)). apply machine_set_get.
Qed.

Lemma buffer_at_with level d t : buffer_at level (with_buffer level d t) = d.
Proof. unfold buffer_at, with_buffer. by rewrite rebuffer_buffers, get_set_buffer. Qed.
Lemma with_with level d d' t : with_buffer level d (with_buffer level d' t) = with_buffer level d t.
Proof. unfold with_buffer. by rewrite rebuffer_rebuffer, rebuffer_buffers, set_set_buffer. Qed.
Lemma with_same level t : with_buffer level (buffer_at level t) t = t.
Proof. unfold with_buffer, buffer_at. rewrite set_get_buffer. apply rebuffer_same. Qed.

(** A handler leaves the buffers alone, and works the same whatever they hold. *)
Lemma handle_buffers level m raw t :
  hs_buffers (machine_hs (handle level m raw t).2) = hs_buffers (machine_hs t).
Proof.
  pose proof (handle_frames (hs_buffers (machine_hs t)) level m raw t) as H. rewrite rebuffer_same in H.
  rewrite (surjective_pairing (handle level m raw t)) in H. injection H as H. rewrite H. apply rebuffer_buffers.
Qed.

Lemma handle_with level level' d m raw t :
  handle level m raw (with_buffer level' d t) = ((handle level m raw t).1, with_buffer level' d (handle level m raw t).2).
Proof.
  unfold with_buffer. rewrite handle_frames. by rewrite handle_buffers.
Qed.

Lemma handle_buffer_at level level' m raw t : buffer_at level' (handle level m raw t).2 = buffer_at level' t.
Proof. unfold buffer_at. by rewrite handle_buffers. Qed.

(** One round of the loop, in these terms. *)
Lemma receive_loop_S k level t :
  receive_loop (S k) level t =
    let buffer := buffer_at level t in
    let length := 4 + from_bytes (slice 1 4 buffer) in
    if (len buffer <? 4) || (len buffer <? length) then (Ok tt, t)
    else match parse_handshake_message (take (Z.to_nat length) buffer) with
         | Ok (m, _) =>
             (_ ← handle level m (take (Z.to_nat length) buffer); receive_loop k level)
               (with_buffer level (drop (Z.to_nat length) buffer) t)
         | Raise e => (Raise e, with_buffer level (drop (Z.to_nat length) buffer) t)
         end.
Proof.
  cbn [receive_loop]. unfold mbind at 1, M_bind at 1, get. fold (buffer_at level t).
  destruct (len (buffer_at level t) <? 4); [done|]. cbn [orb]. cbv zeta.
  destruct (_ <? _); [done|]. unfold in_hs, zoom, mbind at 1, M_bind at 1, modify.
  change (set_machine_hs (set_hs_buffers ?b (machine_hs t)) t) with (rebuffer b t).
  fold (with_buffer level (drop (Z.to_nat (4 + from_bytes (slice 1 4 (buffer_at level t)))) (buffer_at level t)) t).
  unfold mbind at 1, M_bind at 1, lift. by destruct (parse_handshake_message _) as [[m n]|e].
Qed.

Lemma receive_loop_0 level t : buffer_at level t = [] → receive_loop 0 level t = (Ok tt, t).
Proof. intros E. cbn [receive_loop]. unfold mbind, M_bind, get. fold (buffer_at level t). by rewrite E. Qed.

(** Any fuel from the length of the buffer on gives the same run. *)
Lemma receive_loop_fuel level k : ∀ k' t,
  (length (buffer_at level t) <= k)%nat → (length (buffer_at level t) <= k')%nat →
  receive_loop k level t = receive_loop k' level t.
Proof.
  assert (Hz : ∀ k t, (length (buffer_at level t) <= 0)%nat → receive_loop k level t = (Ok tt, t)).
  { intros [|k'] t Hl; assert (buffer_at level t = []) as E by (destruct (buffer_at level t); [done|cbn in Hl; lia]).
    - by apply receive_loop_0.
    - rewrite receive_loop_S, E. done. }
  induction k as [|k IH]; intros [|k'] t H1 H2; [by rewrite !Hz by lia..|].
  rewrite !receive_loop_S. cbv zeta. set (buffer := buffer_at level t) in *.
  destruct ((len buffer <? 4) || _) eqn:Eb; [done|].
  apply orb_false_iff in Eb as [E1%Z.ltb_ge E2%Z.ltb_ge].
  destruct (parse_handshake_message _) as [[m n]|e]; [|done]. unfold mbind, M_bind. rewrite handle_with.
  destruct (handle level m _ t) as [[[]|e] t']; [|done]. cbn [fst snd]. apply IH; rewrite buffer_at_with, length_drop;
    pose proof (from_bytes_range (slice 1 4 buffer)); unfold len in *; lia.
Qed.

(** More bytes behind a buffer do not change what is done with it. *)
Lemma slice_app_prefix {A} i j (l l' : list A) : 0 <= i → j <= len l → slice i j (l ++ l') = slice i j l.
Proof.
  intros Hi Hj. unfold slice. destruct (decide (i <= len l)) as [Hle|Hgt].
  - rewrite drop_app_le by (unfold len in *; lia). rewrite take_app_le; [done|]. rewrite length_drop. unfold len in *. lia.
  - replace (Z.to_nat (j - i)) with 0%nat by lia. done.
Qed.

Lemma receive_loop_app level extra k : ∀ k' t t1,
  (length (buffer_at level t) <= k)%nat → (length (buffer_at level t ++ extra) <= k')%nat →
  receive_loop k level t = (Ok tt, t1) →
  receive_loop k' level (with_buffer level (buffer_at level t ++ extra) t) =
    receive_loop (length (buffer_at level t1 ++ extra)) level (with_buffer level (buffer_at level t1 ++ extra) t1).
Proof.
  induction k as [|k IH]; intros k' t t1 H1 H2 Hrun.
  { assert (buffer_at level t = []) as E by (destruct (buffer_at level t); [done|cbn in H1; lia]).
    rewrite receive_loop_0 in Hrun by done. injection Hrun as <-.
    apply receive_loop_fuel; rewrite buffer_at_with; [done|lia]. }
  pose proof Hrun as Hrun'. rewrite receive_loop_S in Hrun. cbv zeta in Hrun. set (buffer := buffer_at level t) in *.
  destruct ((len buffer <? 4) || _) eqn:Eb.
  { injection Hrun as <-. fold buffer. apply receive_loop_fuel; rewrite buffer_at_with; [done|lia]. }
  apply orb_false_iff in Eb as [E1%Z.ltb_ge E2%Z.ltb_ge].
  destruct k' as [|k']; [rewrite length_app in H2; unfold len in *; lia|].
  rewrite receive_loop_S. cbv zeta. rewrite buffer_at_with. pose proof (len_nonneg extra).
  rewrite !slice_app_prefix by lia. set (n := 4 + from_bytes (slice 1 4 buffer)) in *.
  assert (4 <= n) by (pose proof (from_bytes_range (slice 1 4 buffer)); lia).
  rewrite (proj2 (Z.ltb_ge _ 4)), (proj2 (Z.ltb_ge _ n)) by (rewrite len_app; lia). cbn [orb].
  rewrite take_app_le, drop_app_le by (unfold len in *; lia).
  destruct (parse_handshake_message _) as [[m w]|e]; [|discriminate]. unfold mbind, M_bind in *.
  rewrite with_with, handle_with. rewrite handle_with in Hrun.
  destruct (handle level m _ t) as [[[]|e] t'] eqn:Eh; [|discriminate]. cbn [fst snd] in *.
  specialize (IH k' (with_buffer level (drop (Z.to_nat n) buffer) t') t1).
  rewrite buffer_at_with, with_with in IH. apply IH; [| |exact Hrun];
    rewrite ?length_app, ?length_drop in *; unfold len in *; lia.
Qed.

(** ** Receiving *)

Lemma receive_loop_now k level t : hs_now (machine_hs (receive_loop k level t).2) = hs_now (machine_hs t).
Proof.
  revert t. induction k as [|k IH]; intros t.
  { cbn [receive_loop]. unfold mbind, M_bind, get. repeat case_test; done. }
  rewrite receive_loop_S. cbv zeta. destruct (_ || _); [done|].
  assert (Hw : ∀ d, hs_now (machine_hs (with_buffer level d t)) = hs_now (machine_hs t))
    by (intros d; unfold with_buffer, rebuffer; by rewrite machine_get_set).
  destruct (parse_handshake_message _) as [[m n]|e]; [|apply Hw]. unfold mbind, M_bind.
  set (raw := take _ _). set (t' := with_buffer level _ t). pose proof (handle_now level m raw t') as Hh.
  unfold same_now in Hh. destruct (handle level m raw t') as [[[]|e] t2]; cbn [snd] in *; rewrite ?IH, Hh; apply Hw.
Qed.

Definition set_now (now : Q) (t : T) : T := set_machine_hs (set_hs_now now (machine_hs t)) t.

Lemma receive_eq level data now t :
  receive level data now t =
    let t' := with_buffer level (buffer_at level t ++ data) (set_now now t) in
    receive_loop (length (buffer_at level t')) level t'.
Proof.
  unfold receive, in_hs, zoom, mbind, M_bind, modify, get, set_now, with_buffer, buffer_at, rebuffer, put_buffers.
  rewrite !machine_get_set. done.
Qed.

Lemma set_now_same now t : hs_now (machine_hs t) = now → set_now now t = t.
Proof.
  intros E. unfold set_now. rewrite <- E. replace (set_hs_now _ _) with (machine_hs t) by (by destruct (machine_hs t)).
  apply machine_set_get.
Qed.

(** Delivering the encodings of messages is handling the messages. *)
Definition handle_all (level : EncryptionLevel) (ms : list HandshakeMessage) : M T unit :=
  each (λ m, handle level m (message_bytes m)) ms.

Lemma message_bytes_split m : wf_message m →
  4 <= len (message_bytes m) ∧ from_bytes (slice 1 4 (message_bytes m)) = len (message_bytes m) - 4.
Proof.
  intros [_ Hl]. pose proof (len_nonneg (body_bytes m)). unfold message_bytes, vec_bytes.
  rewrite !len_app, !len_be_bytes. split; [lia|]. unfold slice.
  change (Z.to_nat 1) with (length (be_bytes 1 (handshake_code (message_type_of m)))).
  rewrite drop_app_length. change (Z.to_nat (4 - 1)) with (length (be_bytes 3 (len (body_bytes m)))).
  rewrite take_app_length, from_bytes_be. change (256 ^ Z.of_nat 3) with (2 ^ 24). rewrite Z.mod_small; lia.
Qed.

Lemma receive_loop_messages level ms : ∀ k t t',
  Forall wf_message ms → (length (concat (message_bytes <$> ms)) <= k)%nat → handle_all level ms t = (Ok tt, t') →
  receive_loop k level (with_buffer level (concat (message_bytes <$> ms)) t) = (Ok tt, with_buffer level [] t').
Proof.
  unfold handle_all. induction ms as [|m ms IH]; intros k t t' Hw Hk H; cbn [each fmap list_fmap concat] in *.
  { injection H as <-. rewrite (receive_loop_fuel _ _ 0%nat), receive_loop_0; rewrite ?buffer_at_with; cbn; auto with lia. }
  apply M_bind_ok_inv in H as ([] & t1 & E & H). inversion_clear Hw as [|?? Hm Hms].
  destruct (message_bytes_split m Hm) as [H4 Hl]. rewrite length_app in Hk.
  destruct k as [|k]; [unfold len in H4; lia|]. rewrite receive_loop_S. cbv zeta. rewrite buffer_at_with.
  rewrite slice_app_prefix, Hl by lia. replace (4 + _) with (len (message_bytes m)) by lia.
  rewrite !(proj2 (Z.ltb_ge _ _)) by (rewrite len_app; pose proof (len_nonneg (concat (message_bytes <$> ms))); lia).
  cbn [orb]. rewrite Z_to_nat_len, take_app_length, drop_app_length, with_with.
  rewrite <- (app_nil_r (message_bytes m)), parse_message_complete, app_nil_r by done.
  erewrite M_bind_ok by (rewrite handle_with, E; reflexivity). apply IH; [done|unfold len in H4; lia|done].
Qed.

Lemma receive_messages level ms now t t' :
  Forall wf_message ms → buffer_at level t = [] → handle_all level ms (set_now now t) = (Ok tt, t') →
  receive level (concat (message_bytes <$> ms)) now t = (Ok tt, t').
Proof.
  intros Hw Hb H. rewrite receive_eq. cbv zeta. rewrite buffer_at_with, Hb. cbn [app].
  erewrite receive_loop_messages by done. f_equal.
  assert (buffer_at level t' = []) as Hb'; [|rewrite <- Hb'; apply with_same].
  assert (preserves (λ a b, buffer_at level b = buffer_at level a) (handle_all level ms)) as Hp.
  { assert (PreOrder (λ a b : T, buffer_at level b = buffer_at level a)) by (split; [done|]; intros a b c H1 H2; congruence).
    apply preserves_each. intros m a. apply handle_buffer_at. }
  specialize (Hp (set_now now t)). rewrite H in Hp. cbn [snd] in Hp. rewrite Hp, <- Hb.
  unfold buffer_at, set_now. by rewrite machine_get_set.
Qed.

(** So is one whose handler raises: it has left the buffer. *)
Lemma receive_raises level m now t e t' :
  wf_message m → buffer_at level t = [] → handle level m (message_bytes m) (set_now now t) = (Raise e, t') →
  receive level (message_bytes m) now t = (Raise e, t').
Proof.
  intros Hw Hb H. rewrite receive_eq. cbv zeta. rewrite buffer_at_with, Hb. cbn [app].
  destruct (message_bytes_split m Hw) as [H4 Hl].
  destruct (length (message_bytes m)) as [|k] eqn:Ek; [unfold len in H4; rewrite Ek in H4; lia|].
  rewrite receive_loop_S. cbv zeta. rewrite buffer_at_with, Hl. replace (4 + _) with (len (message_bytes m)) by lia.
  rewrite !(proj2 (Z.ltb_ge _ _)) by lia. cbn [orb]. rewrite Z_to_nat_len, firstn_all, drop_all, with_with.
  rewrite <- (app_nil_r (message_bytes m)), parse_message_complete, app_nil_r by done.
  erewrite M_bind_raise by (rewrite handle_with, H; reflexivity). f_equal.
  assert (buffer_at level t' = []) as Hb'; [|rewrite <- Hb'; apply with_same].
  pose proof (handle_buffer_at level level m (message_bytes m) (set_now now t)) as Hp. rewrite H in Hp. cbn [snd] in Hp.
  rewrite Hp, <- Hb. unfold buffer_at, set_now. by rewrite machine_get_set.
Qed.

(** An invariant of a role: kept by its handler on every encoded message,
    unless it ends in an exception outside [good], it is kept by [receive]
    unless that does. *)
Definition ends_in {A} (good : exn → Prop) (I : T → Prop) (o : result A * T) : Prop :=
  match o.1 with Ok _ => I o.2 | Raise e => good e → I o.2 end.

Lemma parse_exact_message buffer m n :
  let length := 4 + from_bytes (slice 1 4 buffer) in
  4 <= len buffer → length <= len buffer → parse_handshake_message (take (Z.to_nat length) buffer) = Ok (m, n) →
  wf_message m ∧ take (Z.to_nat length) buffer = message_bytes m.
Proof.
  cbv zeta. intros H4 Hl Hp. pose proof (parse_message_sound (take (Z.to_nat (4 + from_bytes (slice 1 4 buffer))) buffer)) as Hs.
  rewrite Hp in Hs. destruct Hs as (Hw & rest & E & _). split; [done|].
  destruct (message_bytes_split m Hw) as [Hm4 Hm]. rewrite E.
  pose proof (from_bytes_range (slice 1 4 buffer)) as Hr.
  assert (slice 1 4 buffer = slice 1 4 (message_bytes m)) as Es.
  { rewrite <- (take_drop (Z.to_nat (4 + from_bytes (slice 1 4 buffer))) buffer) at 1. rewrite E, <- app_assoc.
    by apply slice_app_prefix. }
  apply (f_equal len) in E. rewrite len_app in E. unfold len in E at 1. rewrite length_take, Es, Hm in E.
  rewrite Es, Hm in Hl. assert (len rest = 0) as Er by (unfold len in *; lia).
  destruct rest; [by rewrite app_nil_r|unfold len in Er; cbn in Er; lia].
Qed.

Section invariant.
Context (I : T → Prop) (good : exn → Prop) (level : EncryptionLevel).
Context (I_rebuffer : ∀ b t, I t → I (rebuffer b t)) (I_now : ∀ now t, I t → I (set_now now t)).
Context (I_handle : ∀ m t, wf_message m → I t → ends_in good I (handle level m (message_bytes m) t)).

Lemma receive_loop_invariant k : ∀ t, I t → ends_in good I (receive_loop k level t).
Proof.
  induction k as [|k IH]; intros t Ht.
  { cbn [receive_loop]. unfold mbind, M_bind, get. repeat case_test; [exact Ht..|intros _; exact Ht]. }
  rewrite receive_loop_S. cbv zeta. destruct (_ || _) eqn:Eb; [done|].
  apply orb_false_iff in Eb as [E1%Z.ltb_ge E2%Z.ltb_ge].
  destruct (parse_handshake_message _) as [[m n]|e] eqn:Ep; [|intros _; by apply I_rebuffer].
  apply parse_exact_message in Ep as [Hw ->]; [|done..].
  set (t0 := with_buffer level _ t). assert (I t0) as H0 by (by apply I_rebuffer).
  pose proof (I_handle m t0 Hw H0) as H. unfold mbind, M_bind.
  destruct (handle level m _ t0) as [[[]|e] t1]; [by apply IH|exact H].
Qed.

Lemma receive_invariant data now t : I t → ends_in good I (receive level data now t).
Proof. intros Ht. rewrite receive_eq. cbv zeta. apply receive_loop_invariant, I_rebuffer, I_now, Ht. Qed.
End invariant.

(** C17: how the CRYPTO stream is cut into deliveries does not matter.  If the
    first part of some handshake bytes is received without an error, receiving
    the rest after it is the same, outcome and state, as receiving both parts
    at once: messages may straddle deliveries anywhere. *)
Theorem receive_incremental level a b now t t1 (H1 : receive level a now t = (Ok tt, t1)) :
  receive level (a ++ b) now t = receive level b now t1.
Proof.
  rewrite !receive_eq in *. cbv zeta in *. rewrite !buffer_at_with in *. set (t0 := set_now now t) in *.
  assert (Hnow : hs_now (machine_hs t1) = now).
  { apply (f_equal snd) in H1. cbn [snd] in H1. rewrite <- H1, receive_loop_now. unfold with_buffer, rebuffer.
    rewrite machine_get_set. unfold t0, set_now. by rewrite machine_get_set. }
  rewrite (set_now_same now t1 Hnow), app_assoc.
  pose proof (receive_loop_app level b (length (buffer_at level t ++ a)) (length ((buffer_at level t ++ a) ++ b))
    (with_buffer level (buffer_at level t ++ a) t0) t1) as H. rewrite buffer_at_with, with_with in H. by apply H.
Qed.
End receive.


(** ** Witness: a ClientHello cut in two *)

Definition sample_hello_bytes : bytes :=
  match begin_handshake 0 (sample_client None None) with
  | Ok (EvSendData _ raw :: _, _) => raw
  | _ => []
  end.

Lemma receive_incremental_witness :
  (100 <= length sample_hello_bytes)%nat ∧
  receive L_INITIAL (take 50 sample_hello_bytes ++ drop 50 sample_hello_bytes) 0 sample_server =
    receive L_INITIAL (drop 50 sample_hello_bytes) 0 (receive L_INITIAL (take 50 sample_hello_bytes) 0 sample_server).2.
Proof.
  split; [apply Nat.leb_le; vm_compute; reflexivity|].
  apply receive_incremental. apply outcome_pair. vm_compute. reflexivity.
Defined.
