(* ===== verification/KeyDerivation.v ===== *)
(** * The key schedule as pure functions

    Under the laws of the primitives the fallible derivations of [KeySchedule]
    and the secrets the two roles emit never fail.  Here they are total
    functions of the transcript and the inputs, as RFC 8446 section 7.1 draws
    them, with the equations that rewrite the state machines' operations to
    them. *)

From Stdlib Require Import Strings.String QArith.
From S2P Require Import Prelude Buffer Crypto Protection Congestion TlsInterface Handshake Codec HandshakeProofs.
From S2P Require Import KeySchedule TlsCore.
#[local] Open Scope Z_scope.

Section derivation.
Context `{HP : Primitives}.

(** [HKDF-Expand-Label] to 32 bytes *)
Definition expand32 (secret : bytes) (label : string) (context : bytes) : bytes :=
  match hkdf_expand_label secret (ascii_bytes label) context SHA256_LENGTH with Ok d => d | Raise _ => [] end.

(** [Derive-Secret(secret, label, transcript)] *)
Definition derive_secret (secret : bytes) (label : string) (transcript : bytes) : bytes :=
  expand32 secret label (sha256 transcript).

(** The three extractions: early from the PSK, handshake from the exchange,
    master from zeros. *)
Definition early_secret (psk : option bytes) : bytes :=
  hkdf_extract (zeros SHA256_LENGTH) (match psk with Some p => p | None => zeros SHA256_LENGTH end).
Definition next_secret (secret input : bytes) : bytes :=
  hkdf_extract (derive_secret secret "derived" []) input.
Definition handshake_secret (psk : option bytes) (shared : bytes) : bytes := next_secret (early_secret psk) shared.
Definition master_secret (psk : option bytes) (shared : bytes) : bytes :=
  next_secret (handshake_secret psk shared) (zeros SHA256_LENGTH).

(** The MAC of a Finished message *)
Definition finished_mac (base transcript : bytes) : bytes := hmac_sha256 (expand32 base "finished" []) (sha256 transcript).

Lemma new_KeySchedule_eq psk : new_KeySchedule psk = mkKeySchedule [] (early_secret psk).
Proof. done. Qed.

Context `{HL : !PrimitiveLaws HP}.

Lemma expand32_ok secret label context :
  len (ascii_bytes label) <= 12 → len context <= 32 →
  hkdf_expand_label secret (ascii_bytes label) context SHA256_LENGTH = Ok (expand32 secret label context) ∧
  len (expand32 secret label context) = SHA256_LENGTH.
Proof.
  intros Hl Hc. unfold expand32.
  destruct (hkdf_expand_label_ok secret (ascii_bytes label) context SHA256_LENGTH) as (out & -> & Ho);
    [done|lia|lia|done].
Qed.

Lemma derive_ok label s :
  len (ascii_bytes label) <= 12 → derive label s = Ok (derive_secret (sch_secret s) label (sch_transcript s)).
Proof. intros Hl. apply expand32_ok; [done|]. unfold transcript_hash. by rewrite sha256_len. Qed.

Lemma extract_next_ok s input :
  extract_next s input = Ok (mkKeySchedule (sch_transcript s) (next_secret (sch_secret s) input)).
Proof.
  unfold extract_next, EMPTY_TRANSCRIPT_HASH.
  by rewrite (proj1 (expand32_ok (sch_secret s) "derived" (sha256 []) ltac:(done) ltac:(by rewrite sha256_len))).
Qed.
Lemma add_ecdhe_ok s shared :
  add_ecdhe shared s = Ok (mkKeySchedule (sch_transcript s) (next_secret (sch_secret s) shared)).
Proof. apply extract_next_ok. Qed.
Lemma advance_to_master_ok s :
  advance_to_master s = Ok (mkKeySchedule (sch_transcript s) (next_secret (sch_secret s) (zeros SHA256_LENGTH))).
Proof. apply extract_next_ok. Qed.

Lemma finished_verify_data_ok base transcript :
  finished_verify_data base (sha256 transcript) = Ok (finished_mac base transcript).
Proof.
  unfold finished_verify_data. by rewrite (proj1 (expand32_ok base "finished" [] ltac:(done) ltac:(done))).
Qed.

Lemma binder_key_ok s : binder_key s = Ok (derive_secret (sch_secret s) "res binder" []).
Proof. apply expand32_ok; [done|]. unfold EMPTY_TRANSCRIPT_HASH. by rewrite sha256_len. Qed.

Lemma resumption_psk_ok master nonce :
  len nonce <= 32 → resumption_psk master nonce = Ok (expand32 master "resumption" nonce).
Proof. intros H. by apply expand32_ok. Qed.

Lemma replace_transcript_ok s :
  replace_transcript_with_message_hash s =
    Ok (mkKeySchedule (bZ MESSAGE_HASH_TYPE :: be_bytes 3 32 ++ sha256 (sch_transcript s)) (sch_secret s)).
Proof.
  unfold replace_transcript_with_message_hash, transcript_hash. rewrite byte_literal_ok by done. cbn [mbind result_bind].
  rewrite sha256_len, to_bytes_ok by done. done.
Qed.
End derivation.

(** ** Emitted secrets *)

Section emitted.
Context `{HP : Primitives} `{HL : !PrimitiveLaws HP} `{HT : TlsPrimitives}.

Definition secret_event (level : EncryptionLevel) (d : Direction) (suite : Z) (secret : bytes) : TlsEvent :=
  EvSecretAvailable (mkSecretAvailable level d secret suite).

(** The state after [_emit_handshake_secrets] *)
Definition with_handshake_secrets (shared : bytes) (h : HandshakeState) : HandshakeState :=
  let secret := next_secret (sch_secret (hs_schedule h)) shared in
  let transcript := sch_transcript (hs_schedule h) in
  let client := derive_secret secret "c hs traffic" transcript in
  let server := derive_secret secret "s hs traffic" transcript in
  mkHandshakeState (mkKeySchedule transcript secret)
    (hs_events h ++ [secret_event L_HANDSHAKE CLIENT (hs_cipher_suite h) client;
                     secret_event L_HANDSHAKE SERVER (hs_cipher_suite h) server])
    (hs_now h) (hs_buffers h) client server (hs_client_random h) (hs_cipher_suite h) (hs_entropy h) (hs_draws h).

Lemma emit_handshake_secrets_ok shared h : emit_handshake_secrets shared h = (Ok tt, with_handshake_secrets shared h).
Proof.
  unfold emit_handshake_secrets, with_schedule, client_handshake_traffic_secret, server_handshake_traffic_secret,
    emit_secret, emit_event, get, modify, lift, mbind, M_bind.
  rewrite add_ecdhe_ok. cbn -[derive]. rewrite !derive_ok by done. cbn -[derive].
  unfold with_handshake_secrets. by rewrite <- app_assoc.
Qed.

(** The state after [_emit_application_secrets] *)
Definition with_application_secrets (h : HandshakeState) : HandshakeState :=
  let secret := next_secret (sch_secret (hs_schedule h)) (zeros SHA256_LENGTH) in
  let transcript := sch_transcript (hs_schedule h) in
  set_hs_schedule (mkKeySchedule transcript secret)
    (set_hs_events
       (hs_events h ++ [secret_event L_ONE_RTT CLIENT (hs_cipher_suite h) (derive_secret secret "c ap traffic" transcript);
                        secret_event L_ONE_RTT SERVER (hs_cipher_suite h) (derive_secret secret "s ap traffic" transcript)]) h).

Lemma emit_application_secrets_ok h : emit_application_secrets h = (Ok tt, with_application_secrets h).
Proof.
  unfold emit_application_secrets, with_schedule, client_application_traffic_secret, server_application_traffic_secret,
    emit_secret, emit_event, get, modify, lift, mbind, M_bind.
  rewrite advance_to_master_ok. cbn -[derive]. rewrite !derive_ok by done. cbn -[derive].
  unfold with_application_secrets. by rewrite <- app_assoc.
Qed.
End emitted.
