(* ===== verification/TlsSafety.v ===== *)
(** * What a connected client knows

    A client that reaches [CONNECTED] has checked the server: the Finished
    MAC, under a key that depends on our exchange (and on the ticket's PSK if
    the handshake is a resumption), and, unless it is a resumption, the
    certificate and the signature over the transcript.  The statement is an
    invariant over [client_run], every history of [start], [receive] and
    [take_events] that the connection can produce: it goes on after an alert,
    never after another exception. *)

From Stdlib Require Import Strings.String QArith.
From S2P Require Import Prelude Buffer Crypto Congestion TlsInterface Handshake Codec HandshakeProofs KeySchedule.
From S2P Require Import TlsCore TlsClient TlsServer TlsRuns TlsReceive KeyDerivation.
#[local] Open Scope Z_scope.

(** The one exception [_handle_crypto] catches. *)
Definition is_alert (e : exn) : Prop := match e with TlsAlert _ _ => True | _ => False end.

Section client.
Context `{HP : Primitives} `{HL : !PrimitiveLaws HP} `{HT : TlsPrimitives} `{HTL : !TlsLaws HT}.
Implicit Types c : TlsClient.

Definition transcript c : bytes := sch_transcript (hs_schedule (tc_hs c)).
Definition ticket_psk c : option bytes := st_psk <$> cfg_session_ticket (tc_config c).

(** ** The invariant *)

(** Before the ServerHello: the schedule starts from the ticket's PSK if there
    is a ticket, and the fallback from none. *)
Record fresh c : Prop := {
  fr_resumed : tc_resumed c = false;
  fr_secret : sch_secret (hs_schedule (tc_hs c)) = early_secret (ticket_psk c);
  fr_fallback : sch_secret <$> tc_fallback_schedule c =
                  if cfg_session_ticket (tc_config c) then Some (early_secret None) else None }.

(** After it: the server's handshake secret comes from an exchange with one of
    our keys, and from the PSK exactly when the handshake is a resumption. *)
Definition keyed c : Prop := ∃ group key peer shared prefix,
  (group, key) ∈ tc_keys c ∧ x25519_exchange key peer = Ok shared ∧
  hs_server_secret (tc_hs c) =
    derive_secret (handshake_secret (if tc_resumed c then ticket_psk c else None) shared) "s hs traffic" prefix.

(** The chain was accepted for the configured name, unless verification is
    switched off. *)
Definition verified_chain c : Prop := ∃ leaf rest, tc_leaf_certificate c = ce_data leaf ∧
  (cfg_insecure_skip_verify (tc_config c) = true ∨ verify_certificate_policy (tc_config c) leaf rest = Ok tt).

(** The leaf's key signed the transcript up to its CertificateVerify. *)
Definition proved_possession c : Prop := ∃ prefix cv rest,
  verify_certificate_verify (tc_leaf_certificate c) cv (sha256 prefix) = Ok tt ∧
  transcript c = prefix ++ message_bytes (HCertificateVerify cv) ++ rest.

Definition authenticated c : Prop :=
  (tc_resumed c = true ∧ cfg_session_ticket (tc_config c) ≠ None) ∨ (verified_chain c ∧ proved_possession c).

(** The server's Finished, over the transcript before it, was right. *)
Definition finished_checked c : Prop := ∃ prefix rest,
  transcript c = prefix ++ message_bytes (HFinished (finished_mac (hs_server_secret (tc_hs c)) prefix)) ++ rest.

Definition client_phase c : Prop :=
  match tc_state c with
  | C_START => False
  | C_WAIT_SERVER_HELLO => fresh c
  | C_WAIT_ENCRYPTED_EXTENSIONS | C_WAIT_CERTIFICATE => keyed c
  | C_WAIT_CERTIFICATE_VERIFY => keyed c ∧ verified_chain c
  | C_WAIT_FINISHED => keyed c ∧ authenticated c
  | C_CONNECTED => keyed c ∧ authenticated c ∧ finished_checked c
  end.
Definition client_inv c : Prop := (tc_resumed c = true → cfg_session_ticket (tc_config c) ≠ None) ∧ client_phase c.

(** ** Sending a hello only feeds the transcripts *)

Record same_core c c' : Prop := {
  sc_config : tc_config c' = tc_config c;
  sc_resumed : tc_resumed c' = tc_resumed c;
  sc_secret : sch_secret (hs_schedule (tc_hs c')) = sch_secret (hs_schedule (tc_hs c));
  sc_fallback : sch_secret <$> tc_fallback_schedule c' = sch_secret <$> tc_fallback_schedule c;
  sc_state : tc_state c' = tc_state c ∨ tc_state c' = C_WAIT_SERVER_HELLO }.
#[export] Instance same_core_preorder : PreOrder same_core.
Proof.
  split; [by constructor; auto|]. intros a b c [] [? ? ? ? Hs]; split; try congruence. destruct Hs as [->|Hs]; auto.
Qed.

Lemma fresh_core c c' : same_core c c' → tc_state c = C_WAIT_SERVER_HELLO → fresh c → tc_state c' = C_WAIT_SERVER_HELLO ∧ fresh c'.
Proof.
  intros [Ec Er Es Ef Et] Hs [Fr Fs Ff]. split; [by destruct Et; congruence|]. unfold ticket_psk in *. split; unfold ticket_psk; rewrite ?Ec; congruence.
Qed.

Lemma core_modify f : (∀ c, same_core c (f c)) → preserves same_core (modify f).
Proof. apply preserves_modify. Qed.
Lemma core_feed d : preserves same_core (on_hs (feed d)).
Proof. intros c. cbn. by split; auto. Qed.
Lemma core_emit_event e : preserves same_core (on_hs (emit_event e)).
Proof. intros c. cbn. by split; auto. Qed.
Lemma core_generate : preserves same_core (on_hs generate).
Proof. intros c. cbn. by split; auto. Qed.
Lemma core_message_hash : preserves same_core (on_hs (with_schedule replace_transcript_with_message_hash)).
Proof.
  intros c. unfold on_hs, zoom, with_schedule, mbind, M_bind, get, lift, modify. rewrite replace_transcript_ok. by split; auto.
Qed.
Lemma core_with_fallback f :
  (∀ s s', f s = Ok s' → sch_secret s' = sch_secret s) → preserves same_core (with_fallback f).
Proof.
  intros Hf c. unfold with_fallback, mbind, M_bind, get, lift, modify.
  destruct (tc_fallback_schedule c) as [s|] eqn:E; [|reflexivity]. destruct (f s) as [s'|e] eqn:Ef; [|reflexivity].
  split; cbn; auto. rewrite E. cbn. by rewrite (Hf _ _ Ef).
Qed.
End client.

#[export] Hint Resolve core_feed core_emit_event core_generate core_message_hash : keep.
#[export] Hint Extern 2 (preserves same_core (modify _)) => (apply core_modify; by split; auto) : keep.

Section client_steps.
Context `{HP : Primitives} `{HL : !PrimitiveLaws HP} `{HT : TlsPrimitives} `{HTL : !TlsLaws HT}.
Implicit Types c : TlsClient.

Lemma core_send_client_hello : preserves same_core send_client_hello.
Proof.
  unfold send_client_hello, build_client_hello, fill_psk_binder. keep.
  all: try (apply core_with_fallback; by intros s s' [= <-]).
  all: intros c; cbn; by split; auto.
Qed.
Hint Resolve core_send_client_hello : keep.

Lemma core_on_hello_retry_request h raw : preserves same_core (on_hello_retry_request h raw).
Proof.
  unfold on_hello_retry_request. keep.
  all: apply core_with_fallback; intros s s'; rewrite replace_transcript_ok; by intros [= <-].
Qed.

Lemma ends_in_any {A} good (I : TlsClient → Prop) (o : result A * TlsClient) : I o.2 → ends_in good I o.
Proof. intros H. unfold ends_in. by destruct o.1. Qed.

(** Steps that leave the invariant's fields alone. *)
Lemma inv_waiting c : tc_state c = C_WAIT_SERVER_HELLO → fresh c → client_inv c.
Proof. intros Hs Hf. split; [by rewrite (fr_resumed _ Hf)|]. unfold client_phase. by rewrite Hs. Qed.

(** The server's choice about the PSK settles the schedule's secret. *)
Lemma settle_psk_cases selected c :
  fresh c →
  (∃ e, settle_psk selected c = (Raise e, c)) ∨
  (∃ c', settle_psk selected c = (Ok tt, c') ∧ tc_keys c' = tc_keys c ∧
     (tc_resumed c' = true → cfg_session_ticket (tc_config c') ≠ None) ∧
     sch_secret (hs_schedule (tc_hs c')) = early_secret (if tc_resumed c' then ticket_psk c' else None)).
Proof.
  intros [Fr Fs Ff]. unfold settle_psk, mbind, M_bind, get, on_hs, zoom, modify, raise, mret. destruct selected as [i|].
  - destruct (bool_decide_reflect (cfg_session_ticket (tc_config c) = None)) as [E|E]; [by left; eauto|].
    destruct (negb _); [by left; eauto|]. right. eexists. split; [reflexivity|]. done.
  - right. unfold ticket_psk in Fs. destruct (tc_fallback_schedule c) as [s|] eqn:Es; eexists; (split; [reflexivity|]);
      cbn; rewrite Fr; (split; [done|]); (split; [done|]); destruct (cfg_session_ticket (tc_config c)); cbn in Ff; try done.
    by injection Ff.
Qed.

(** [_on_server_hello] keeps the invariant, unless the exchange fails. *)
Lemma on_server_hello_inv h raw c :
  tc_state c = C_WAIT_SERVER_HELLO → fresh c → ends_in is_alert client_inv (on_server_hello h raw c).
Proof.
  intros Hs Hf. unfold on_server_hello. destruct (bool_decide _).
  { apply ends_in_any. apply (fresh_core _ _ (core_on_hello_retry_request h raw c)) in Hf as [Hs' Hf']; [|done].
    by apply inv_waiting. }
  destruct (bool_decide _); [by apply ends_in_any, inv_waiting|].
  unfold mbind at 1, M_bind at 1, get. destruct (negb _); [by apply ends_in_any, inv_waiting|].
  erewrite (M_bind_ok (on_hs _)) by reflexivity. set (c1 := set_tc_hs _ c).
  assert (fresh c1) as Hf1 by (by destruct Hf). assert (tc_state c1 = C_WAIT_SERVER_HELLO) as Hs1 by done.
  erewrite (M_bind_ok (lift (to_bytes 2 TLS_1_3))) by reflexivity. cbv beta.
  destruct (bool_decide _); [by apply ends_in_any, inv_waiting|].
  destruct (find_extension _ EXT_KEY_SHARE) as [ks|]; [|by apply ends_in_any, inv_waiting].
  unfold mbind at 1, M_bind at 1, lift at 1.
  destruct (parse_key_share_entry ks) as [[group peer]|e]; [|by apply ends_in_any, inv_waiting].
  change (tc_keys c) with (tc_keys c1).
  destruct (d_get group (tc_keys c1)) as [key|] eqn:Ek; [|by apply ends_in_any, inv_waiting].
  clearbody c1. clear c Hs Hf. rename c1 into c, Hs1 into Hs, Hf1 into Hf.
  destruct (settle_psk_cases (find_extension (sh_extensions h) EXT_PRE_SHARED_KEY) c Hf) as [[e E]|(c' & E & Hk & Hr & Hsec)].
  { erewrite M_bind_raise by exact E. by apply ends_in_any, inv_waiting. }
  erewrite M_bind_ok by exact E. erewrite (M_bind_ok (on_hs _)) by reflexivity.
  unfold mbind at 1, M_bind at 1, lift at 1. destruct (x25519_exchange key peer) as [shared|e] eqn:Ex.
  2: { apply x25519_refuses in Ex as [msg ->]. intros []. }
  erewrite M_bind_ok by (unfold on_hs, zoom; rewrite emit_handshake_secrets_ok; reflexivity).
  split; [exact Hr|]. exists group, key, peer, shared, (transcript c' ++ raw).
  split; [cbn; rewrite Hk; by apply d_get_elem|]. split; [exact Ex|]. cbn. by rewrite Hsec.
Qed.

Lemma on_encrypted_extensions_inv l raw c :
  tc_state c = C_WAIT_ENCRYPTED_EXTENSIONS → client_inv c → ends_in is_alert client_inv (on_encrypted_extensions l raw c).
Proof.
  intros Hs Hi. pose proof Hi as [Hr Hk]. unfold client_phase in Hk. rewrite Hs in Hk. apply ends_in_any.
  unfold on_encrypted_extensions. destruct (find_extension l EXT_ALPN) as [d|]; [|exact Hi].
  unfold mbind, M_bind, lift, get, modify, raise, mret, on_hs, zoom. destruct (parse_alpn d) as [ps|e]; [|exact Hi].
  destruct ps as [|p [|]]; [exact Hi| |exact Hi]. destruct (negb _); [exact Hi|].
  destruct (find_extension l EXT_QUIC_TRANSPORT_PARAMETERS) as [tp|]; [|exact Hi].
  assert (∀ c', tc_config c' = tc_config c → tc_resumed c' = tc_resumed c → keyed c' →
    tc_state c' = (if tc_resumed c then C_WAIT_FINISHED else C_WAIT_CERTIFICATE) → client_inv c') as Hend.
  { intros c' Ec Er Hk' Es. unfold client_inv, client_phase, authenticated. rewrite Es, Ec, Er. split; [exact Hr|].
    destruct (tc_resumed c); [|exact Hk']. split; [exact Hk'|]. left. auto. }
  destruct (find_extension l EXT_EARLY_DATA); [destruct (check_early_data p c) as [[]|e]; [|exact Hi]|];
    by apply Hend.
Qed.

Lemma on_certificate_inv m raw c :
  tc_state c = C_WAIT_CERTIFICATE → client_inv c → ends_in is_alert client_inv (on_certificate m raw c).
Proof.
  intros Hs Hi. pose proof Hi as [Hr Hk]. unfold client_phase in Hk. rewrite Hs in Hk. apply ends_in_any.
  unfold on_certificate. destruct (ct_entries m) as [|leaf rest]; [exact Hi|].
  unfold mbind, M_bind, get, modify, lift, mret, on_hs, zoom. cbn -[verify_certificate_policy].
  destruct (cfg_insecure_skip_verify (tc_config c)) eqn:Ei; [|destruct (verify_certificate_policy _ _ _) as [[]|e] eqn:Ev].
  - split; [exact Hr|]. split; [exact Hk|]. exists leaf, rest. by auto.
  - split; [exact Hr|]. split; [exact Hk|]. exists leaf, rest. by auto.
  - split; [exact Hr|]. unfold client_phase. cbn. rewrite Hs. exact Hk.
Qed.

Lemma on_certificate_verify_inv m c :
  tc_state c = C_WAIT_CERTIFICATE_VERIFY → client_inv c →
  ends_in is_alert client_inv (on_certificate_verify m (message_bytes (HCertificateVerify m)) c).
Proof.
  intros Hs Hi. pose proof Hi as [Hr Hk]. unfold client_phase in Hk. rewrite Hs in Hk. destruct Hk as [Hk Hv].
  apply ends_in_any. unfold on_certificate_verify, mbind, M_bind, get, modify, lift, on_hs, zoom.
  destruct (verify_certificate_verify _ _ _) as [[]|e] eqn:Ev; [|exact Hi].
  split; [exact Hr|]. split; [exact Hk|]. right. split; [exact Hv|].
  exists (transcript c), m, []. rewrite app_nil_r. done.
Qed.

(** What is fed to the transcript later keeps what was proved before. *)
Lemma authenticated_extend c c' extra :
  authenticated c → tc_config c' = tc_config c → tc_resumed c' = tc_resumed c →
  tc_leaf_certificate c' = tc_leaf_certificate c → transcript c' = transcript c ++ extra → authenticated c'.
Proof.
  intros [[Hr Ht]|[(leaf & rest & Hl & Hp) (prefix & cv & tail & Hv & Ht)]] Ec Er El Et.
  - left. by rewrite Er, Ec.
  - right. split; [exists leaf, rest; by rewrite El, Ec|]. exists prefix, cv, (tail ++ extra). rewrite El, Et, Ht.
    by rewrite <- !app_assoc.
Qed.

Lemma on_finished_inv v c :
  tc_state c = C_WAIT_FINISHED → client_inv c →
  ends_in is_alert client_inv (on_finished v (message_bytes (HFinished v)) c).
Proof.
  intros Hs Hi. pose proof Hi as [Hr Hk]. unfold client_phase in Hk. rewrite Hs in Hk. destruct Hk as [Hk Ha].
  apply ends_in_any. unfold on_finished, transcript_hash.
  unfold mbind at 1, M_bind at 1, get. unfold mbind at 1, M_bind at 1, lift at 1. rewrite finished_verify_data_ok.
  destruct (bool_decide_reflect (v ≠ finished_mac (hs_server_secret (tc_hs c)) (sch_transcript (hs_schedule (tc_hs c)))))
    as [Hv|Hv]; [exact Hi|]. apply dec_stable in Hv.
  erewrite (M_bind_ok (on_hs (feed _))) by reflexivity.
  erewrite M_bind_ok by (unfold on_hs, zoom; rewrite emit_application_secrets_ok; reflexivity).
  unfold mbind at 1, M_bind at 1. unfold mbind at 1, M_bind at 1, lift at 1. rewrite finished_verify_data_ok.
  unfold mbind at 1, M_bind at 1, lift at 1. destruct (encode_finished _) as [fin|e].
  - split; [exact Hr|]. split; [exact Hk|]. split.
    + apply (authenticated_extend c _ (message_bytes (HFinished v) ++ fin)); [exact Ha|done..|]. rewrite app_assoc. done.
    + exists (transcript c), fin.
      change (finished_mac _ (transcript c)) with
        (finished_mac (hs_server_secret (tc_hs c)) (sch_transcript (hs_schedule (tc_hs c)))).
      rewrite <- Hv, app_assoc. done.
  - split; [exact Hr|]. unfold client_phase. cbn. rewrite Hs. split; [exact Hk|].
    by apply (authenticated_extend c _ (message_bytes (HFinished v))).
Qed.

Lemma client_handle_inv level m c :
  wf_message m → client_inv c → ends_in is_alert client_inv (client_handle level m (message_bytes m) c).
Proof.
  intros _ Hi. unfold client_handle. unfold mbind at 1, M_bind at 1, get.
  destruct (bool_decide_reflect (tc_state c = C_CONNECTED)) as [Hs|Hs].
  { apply ends_in_any. destruct m; try exact Hi. unfold store_session_ticket, mbind, M_bind, get, lift, modify, raise.
    destruct (_ && _); [exact Hi|]. destruct (resumption_master_secret _); [|exact Hi].
    destruct (resumption_psk _ _); [|exact Hi]. destruct Hi as [Hr Hk]. split; [exact Hr|].
    unfold client_phase in *. cbn. rewrite Hs in *. exact Hk. }
  destruct (CLIENT_EXPECTS (tc_state c)) as [[ty lv]|] eqn:Ee; [|by apply ends_in_any].
  unfold mbind at 1, M_bind at 1, lift, require.
  destruct (bool_decide_reflect (message_type_of m ≠ ty)) as [Ht|Ht]; [by apply ends_in_any|]. apply dec_stable in Ht.
  destruct (bool_decide _); [by apply ends_in_any|].
  destruct (tc_state c) eqn:Hst; try discriminate; cbn in Ee; injection Ee as <- <-; destruct m; try discriminate.
  - apply on_server_hello_inv; [done|]. destruct Hi as [_ Hi]. unfold client_phase in Hi. by rewrite Hst in Hi.
  - by apply on_encrypted_extensions_inv.
  - by apply on_certificate_inv.
  - by apply on_certificate_verify_inv.
  - by apply on_finished_inv.
Qed.
End client_steps.

(** ** Histories of a client *)

Section client_runs.
Context `{HP : Primitives} `{HL : !PrimitiveLaws HP} `{HT : TlsPrimitives} `{HTL : !TlsLaws HT}.
Implicit Types c : TlsClient.

Inductive client_run (config : ClientConfig) : TlsClient → Prop :=
| run_start random key entropy now c :
    start now (new_TlsClient config random key entropy) = (Ok tt, c) → client_run config c
| run_receive level data now c r c' :
    client_run config c → receive level data now c = (r, c') → (∀ e, r = Raise e → is_alert e) → client_run config c'
| run_take_events c : client_run config c → client_run config (set_tc_hs (hs_take_events (tc_hs c)).2 c).

(** The configuration never changes. *)
Definition same_config c c' : Prop := tc_config c' = tc_config c.
#[local] Instance same_config_preorder : PreOrder same_config.
Proof. split; [done|]. intros a b c H1 H2. unfold same_config in *. congruence. Qed.
Lemma config_on_hs {A} (m : M HandshakeState A) : preserves same_config (on_hs m).
Proof. intros c. unfold on_hs, zoom. by destruct (m (tc_hs c)). Qed.
#[local] Hint Resolve config_on_hs : keep.
Lemma config_client_handle level m raw : preserves same_config (client_handle level m raw).
Proof.
  unfold client_handle, store_session_ticket, on_server_hello, on_hello_retry_request, send_client_hello,
    build_client_hello, fill_psk_binder, with_fallback, settle_psk, on_encrypted_extensions, on_certificate,
    on_certificate_verify, on_finished. keep.
Qed.

Definition same_schedule (h h' : HandshakeState) : Prop := hs_schedule h' = hs_schedule h.
#[local] Instance same_schedule_preorder : PreOrder same_schedule.
Proof. split; [done|]. intros a b c H1 H2. unfold same_schedule in *. congruence. Qed.
Lemma draw_keys_schedule config random key : preserves same_schedule (draw_keys config random key).
Proof.
  assert (∀ groups keys, preserves same_schedule (generate_keys key groups keys)) as Hg.
  { induction groups as [|g groups IH]; intros keys; cbn [generate_keys]; [keep|].
    unfold generate. apply preserves_bind; [keep|intros k; apply IH]. }
  unfold draw_keys, urandom. keep.
Qed.

Lemma new_client_fresh config random key entropy :
  fresh (new_TlsClient config random key entropy) ∧ tc_config (new_TlsClient config random key entropy) = config.
Proof.
  unfold new_TlsClient. destruct (cfg_session_ticket config) as [t|] eqn:Et; cbv beta iota;
    match goal with |- context [draw_keys ?a ?b ?k ?h] =>
      pose proof (draw_keys_schedule a b k h) as Hd; destruct (draw_keys a b k h) as [[[rnd ks]|e] hs] end;
    unfold same_schedule in Hd; cbn in Hd; (split; [|done]);
    split; unfold ticket_psk; cbn; rewrite ?Hd, ?Et; done.
Qed.

Lemma start_inv now c c' :
  fresh c → start now c = (Ok tt, c') → client_inv c' ∧ tc_config c' = tc_config c.
Proof.
  intros Hf H.
  assert (preserves same_core (start now)) as Hp.
  { unfold start. pose proof core_send_client_hello. keep. intros s. cbn. by split; auto. }
  assert (tc_state c' = C_WAIT_SERVER_HELLO) as Hs.
  { unfold start in H. do 4 (apply M_bind_ok_inv in H as (? & ? & ? & H)).
    apply M_bind_ok_inv in H as (? & ? & ? & H). injection H as <-. done. }
  specialize (Hp c). rewrite H in Hp. cbn [snd] in Hp. destruct Hp as [Ec Er Es Ef _], Hf as [Fr Fs Ff].
  split; [|done]. apply inv_waiting; [done|]. split; unfold ticket_psk in *; rewrite ?Ec; congruence.
Qed.

Lemma inv_same_hs c h :
  hs_schedule h = hs_schedule (tc_hs c) → hs_server_secret h = hs_server_secret (tc_hs c) →
  client_inv c → client_inv (set_tc_hs h c).
Proof.
  intros Es Ev [Hr Hp]. split; [exact Hr|]. unfold client_phase in *. change (tc_state (set_tc_hs h c)) with (tc_state c).
  destruct (tc_state c); try exact Hp; unfold keyed, authenticated, verified_chain, proved_possession, finished_checked, transcript in *;
    change (tc_hs (set_tc_hs h c)) with h; rewrite ?Es, ?Ev; [|exact Hp..].
  destruct Hp as [Fr Fs Ff]. split; [exact Fr| |exact Ff]. change (tc_hs (set_tc_hs h c)) with h. rewrite Es. exact Fs.
Qed.

Lemma client_run_inv config c : client_run config c → client_inv c ∧ tc_config c = config.
Proof.
  induction 1 as [random key entropy now c H|level data now c r c' _ [IH Ec] H Hr|c _ [IH Ec]].
  - destruct (new_client_fresh config random key entropy) as [Hf Ec].
    apply (start_inv _ _ _ Hf) in H as [Hi Ec']. split; [done|congruence].
  - assert (ends_in is_alert (λ c, client_inv c ∧ tc_config c = config) (receive level data now c)) as Hi.
    { apply receive_invariant; [by intros b t [Ht Et]; split; [apply inv_same_hs|]|by intros t0 t [Ht Et]; split; [apply inv_same_hs|]| |done].
      intros m t Hw [Ht Et]. pose proof (client_handle_inv level m t Hw Ht) as H1.
      pose proof (config_client_handle level m (message_bytes m) t) as H2. unfold same_config in H2.
      unfold ends_in in *. cbn [handle client_machine].
      destruct (client_handle level m (message_bytes m) t) as [[[]|e] t']; cbn [fst snd] in *; intuition congruence. }
    rewrite H in Hi. unfold ends_in in Hi. cbn [fst snd] in Hi. destruct r as [[]|e]; [exact Hi|].
    by apply Hi, Hr.
  - split; [by apply inv_same_hs|exact Ec].
Qed.

Lemma run_receive_ok config level data now c :
  client_run config c → (receive level data now c).1 = Ok tt → client_run config (receive level data now c).2.
Proof. intros Hc E. eapply run_receive; [exact Hc|by apply outcome_pair|done]. Qed.

(** C1: a connected client has authenticated its server.  The histories
    are those of [client_run]: every delivery returned, or raised an alert; any
    other exception ends them, and [TlsEdges] shows what can follow one.  In
    every such history of a client that reaches [CONNECTED], however the
    server's bytes are chosen and cut: the server's handshake secret was derived from an exchange with
    one of our private keys, and from the ticket's PSK if the handshake was
    resumed; the transcript holds a Finished that carries the MAC of all
    before it under that secret; and, if the handshake was not resumed, the
    chain was accepted for the configured name (unless verification is off)
    and the transcript holds a CertificateVerify whose signature over all
    before it verifies under the leaf's key. *)
Theorem client_authenticates config c (Hrun : client_run config c) (Hc : tc_state c = C_CONNECTED) :
  tc_config c = config ∧ keyed c ∧ authenticated c ∧ finished_checked c.
Proof.
  apply client_run_inv in Hrun as [[_ Hi] Ec]. unfold client_phase in Hi. rewrite Hc in Hi. done.
Qed.
End client_runs.

(** ** Witness: a full handshake *)

(** What the sample client receives: the server's events for its hello. *)
Definition sample_started : TlsClient := (start 0 (sample_client None None)).2.
Definition sample_flight : list TlsEvent :=
  match answer 0 (hs_events (tc_hs sample_started)) sample_server with Ok (l, _) => l | Raise _ => [] end.
Definition flight_at (level : EncryptionLevel) : bytes :=
  concat (omap (λ e, match e with
                     | EvSendData l d => if bool_decide (l = level) then Some d else None
                     | _ => None end) sample_flight).
Definition sample_receive (level : EncryptionLevel) (c : TlsClient) : TlsClient := (receive level (flight_at level) 0 c).2.
Definition sample_done : TlsClient := sample_receive L_HANDSHAKE (sample_receive L_INITIAL sample_started).

Lemma client_authenticates_witness :
  tc_state sample_done = C_CONNECTED ∧ tc_resumed sample_done = false ∧
  authenticated sample_done ∧ finished_checked sample_done.
Proof.
  split; [vm_compute; reflexivity|]. split; [vm_compute; reflexivity|].
  apply (client_authenticates (sample_client_config None None)); [|vm_compute; reflexivity].
  unfold sample_done, sample_receive at 1. apply run_receive_ok; [|vm_compute; reflexivity].
  unfold sample_receive. apply run_receive_ok; [|vm_compute; reflexivity].
  unfold sample_started, sample_client. apply (run_start _ None None (sample_entropy 3) 0).
  apply outcome_pair. vm_compute. reflexivity.
Defined.
