(* ===== verification/TlsHonest.v ===== *)
(** * What honest endpoints send, and what they do with it

    The messages two honest endpoints exchange, with a bound on their sizes,
    and the effect of every handler of [TlsClient] and [TlsServer] on them as a
    total function of the state: the full handshake, and the one resumed from
    a session ticket, with and without 0-RTT data.  Proved for any lawful
    primitives; [TlsAgreement] puts the two sides together. *)

From Stdlib Require Import Strings.String QArith.
From S2P Require Import Prelude Buffer Crypto Congestion TransportParameters Retry TlsInterface Handshake Codec.
From S2P Require Import HandshakeProofs KeySchedule TlsCore TlsClient TlsServer TlsRuns TlsReceive KeyDerivation.
#[local] Open Scope Z_scope.

Lemma lift_bind {S A B} (r : result A) (k : A → M S B) s a : r = Ok a → (lift r ≫= k) s = k a s.
Proof. by intros ->. Qed.

(** ** The messages of a handshake *)

(** A handshake is full, or resumed from a ticket sealing [state], with 0-RTT
    data accepted or not. *)
Inductive mode : Type := FULL | RESUMED (state : TicketState) (early : bool).
Definition resumes (m : mode) : bool := match m with FULL => false | RESUMED _ _ => true end.
Definition accepts_early (m : mode) : bool := match m with FULL => false | RESUMED _ early => early end.
Definition psk_of (m : mode) : option bytes := match m with FULL => None | RESUMED state _ => Some (tk_psk state) end.
(** What [_select_psk] returns: our client offers one ticket. *)
Definition chosen (m : mode) : option (Z * TicketState) := match m with FULL => None | RESUMED state _ => Some (0, state) end.

(** The client's offer of extensions, encoded *)
Definition hello_extensions (config : ClientConfig) (public : bytes) : list Extension :=
  [mkExtension EXT_SERVER_NAME (vec_bytes 2 (x00 :: vec_bytes 2 (ascii_bytes (cfg_server_name config))));
   mkExtension EXT_SUPPORTED_GROUPS (vec_bytes 2 (be_bytes 2 X25519_GROUP));
   mkExtension EXT_SIGNATURE_ALGORITHMS (vec_bytes 2 (be_bytes 2 RSA_PSS_RSAE_SHA256 ++ be_bytes 2 ECDSA_SECP256R1_SHA256));
   mkExtension EXT_ALPN (alpn_bytes (cfg_alpn config));
   mkExtension EXT_SUPPORTED_VERSIONS (vec_bytes 1 (be_bytes 2 TLS_1_3));
   mkExtension EXT_KEY_SHARE (vec_bytes 2 (share_bytes X25519_GROUP public));
   mkExtension EXT_QUIC_TRANSPORT_PARAMETERS (cfg_transport_parameters config);
   mkExtension EXT_PSK_KEY_EXCHANGE_MODES (vec_bytes 1 [bZ PSK_DHE_KE])].
Definition hello_message (config : ClientConfig) (random public : bytes) : ClientHello :=
  mkClientHello random [] (cfg_cipher_suites config) (hello_extensions config public).

Definition answer_message (m : mode) (random public : bytes) (suite : Z) : ServerHello :=
  mkServerHello random [] suite
    ([mkExtension EXT_SUPPORTED_VERSIONS (be_bytes 2 TLS_1_3); mkExtension EXT_KEY_SHARE (share_bytes X25519_GROUP public)] ++
     (if resumes m then [mkExtension EXT_PRE_SHARED_KEY (be_bytes 2 0)] else [])).
Definition selection_message (m : mode) (protocol : string) (parameters : bytes) : list Extension :=
  [mkExtension EXT_ALPN (alpn_bytes [protocol]); mkExtension EXT_QUIC_TRANSPORT_PARAMETERS parameters] ++
  (if accepts_early m then [mkExtension EXT_EARLY_DATA []] else []).
Definition chain_entries (chain : list bytes) : list CertificateEntry := map (λ d, mkCertificateEntry d []) chain.
Definition chain_message (chain : list bytes) : Certificate := mkCertificate [] (chain_entries chain).

(** ** Their sizes *)

Record wf_client_config (config : ClientConfig) : Prop := {
  wc_name : forallb is_ascii (ascii_bytes (cfg_server_name config)) = true;
  wc_alpn : Forall wf_protocol (cfg_alpn config);
  wc_suites : Forall (bits 16) (cfg_cipher_suites config) ∧ len (cfg_cipher_suites config) < 2 ^ 15;
  wc_size : len (ascii_bytes (cfg_server_name config)) + len (concat (protocol_bytes <$> cfg_alpn config)) +
            len (cfg_transport_parameters config) <= 65000 }.

Lemma len_concat_suites l : len (concat (be_bytes 2 <$> l)) = 2 * len l.
Proof. induction l as [|x l IH]; [done|]. cbn [fmap list_fmap concat]. rewrite len_app, IH, len_be_bytes, len_cons. lia. Qed.

Ltac sizes := repeat (rewrite len_app || rewrite len_cons || rewrite len_vec_bytes || rewrite len_be_bytes || rewrite len_nil).

Lemma wf_hello_message config random public :
  wf_client_config config → len random = 32 → len public = 32 →
  wf_message (HClientHello (hello_message config random public)).
Proof.
  intros [Hn Ha [Hs Hs'] Hz] Hr Hp. pose proof (len_nonneg (ascii_bytes (cfg_server_name config))).
  pose proof (len_nonneg (concat (protocol_bytes <$> cfg_alpn config))).
  pose proof (len_nonneg (cfg_transport_parameters config)).
  assert (len (concat (ext_bytes <$> hello_extensions config public)) <= 65400) as Hl.
  { unfold hello_extensions, ext_bytes, share_bytes, alpn_bytes. cbn [fmap list_fmap concat ext_type ext_data].
    sizes. rewrite Hp. lia. }
  assert (wf_exts (hello_extensions config public)) as He.
  { split; [|lia]. unfold hello_extensions, alpn_bytes, share_bytes. repeat constructor; try done; cbn [ext_data]; sizes; lia. }
  split.
  - split; [done|]. split; [done|]. split; [|done]. split; [done|]. rewrite len_concat_suites. cbn. lia.
  - unfold body_bytes, exts_bytes. cbn [ch_random ch_legacy_session_id ch_cipher_suites ch_extensions hello_message].
    sizes. rewrite len_concat_suites, Hr. change (len [x00]) with 1. lia.
Qed.

Lemma wf_answer_message m random public suite :
  len random = 32 → len public <= 32 → bits 16 suite → wf_message (HServerHello (answer_message m random public suite)).
Proof.
  intros Hr Hp Hs. pose proof (len_nonneg public).
  assert (len (concat (ext_bytes <$> sh_extensions (answer_message m random public suite))) <= 52) as Hl.
  { unfold answer_message, ext_bytes, share_bytes. destruct m; cbn [resumes app fmap list_fmap concat ext_type ext_data sh_extensions];
      sizes; lia. }
  split.
  - split; [done|]. split; [done|]. split; [done|]. split; [|lia].
    destruct m; repeat constructor; try done; cbn [ext_data]; unfold share_bytes; sizes; lia.
  - unfold body_bytes, exts_bytes. sizes. cbn [sh_random sh_legacy_session_id_echo answer_message].
    change (len [x00]) with 1. rewrite Hr, len_nil. lia.
Qed.

Lemma wf_selection_message m protocol parameters :
  wf_protocol protocol → len parameters <= 65000 → wf_message (HEncryptedExtensions (selection_message m protocol parameters)).
Proof.
  intros [Hp Hl] Ht. pose proof (len_nonneg parameters).
  assert (len (concat (ext_bytes <$> selection_message m protocol parameters)) < 65400) as He.
  { unfold selection_message, ext_bytes, alpn_bytes, protocol_bytes.
    destruct (accepts_early m); cbn [app fmap list_fmap concat ext_type ext_data]; sizes; lia. }
  split.
  - split; [|lia]. unfold selection_message, alpn_bytes, protocol_bytes.
    destruct (accepts_early m); repeat constructor; try done; cbn [ext_data fmap list_fmap concat]; sizes; lia.
  - unfold body_bytes, exts_bytes. sizes. lia.
Qed.

Definition wf_chain (chain : list bytes) : Prop := len (concat (entry_bytes <$> chain_entries chain)) < 2 ^ 24 - 4.

Lemma wf_chain_message chain : wf_chain chain → wf_message (HCertificate (chain_message chain)).
Proof.
  unfold wf_chain. intros H. split.
  - split; [done|]. split; [|cbn [ct_entries chain_message]; lia]. apply Forall_forall.
    intros e He. cbn [ct_entries chain_message] in He. split.
    + apply list_elem_of_In, in_split in He as (l1 & l2 & E). rewrite E in H.
      rewrite fmap_app, concat_app, fmap_cons in H. cbn [concat] in H. unfold entry_bytes at 2 in H.
      rewrite !len_app, len_vec_bytes in H.
      pose proof (len_nonneg (concat (entry_bytes <$> l1))). pose proof (len_nonneg (concat (entry_bytes <$> l2))).
      pose proof (len_nonneg (exts_bytes (ce_extensions e))). lia.
    + apply list_elem_of_In, in_map_iff in He as (d & <- & _). split; [constructor|done].
  - unfold body_bytes. sizes. cbn [ct_entries chain_message ct_request_context]. rewrite len_nil. lia.
Qed.

Lemma wf_finished_message v : len v = 32 → wf_message (HFinished v).
Proof. intros H. split; [done|]. unfold body_bytes. lia. Qed.

(** ** The client starts *)

Section honest.
Context `{HP : Primitives} `{HL : !PrimitiveLaws HP} `{HT : TlsPrimitives} `{HTL : !TlsLaws HT}.

Lemma client_extensions_ok early c key :
  tc_keys c = [(X25519_GROUP, key)] → wf_client_config (tc_config c) →
  client_extensions early c =
    (psk ← match cfg_session_ticket (tc_config c) with
           | Some ticket => e ← psk_offer ticket (hs_now (tc_hs c)); Ok [e]
           | None => Ok []
           end;
     Ok (hello_extensions (tc_config c) (x25519_public key) ++ (if early then [mkExtension EXT_EARLY_DATA []] else []) ++ psk)).
Proof.
  intros Hk [Hn Ha _ Hz]. unfold client_extensions. rewrite Hk.
  pose proof (len_nonneg (ascii_bytes (cfg_server_name (tc_config c)))).
  pose proof (len_nonneg (concat (protocol_bytes <$> cfg_alpn (tc_config c)))).
  pose proof (len_nonneg (cfg_transport_parameters (tc_config c))).
  assert (len (share_bytes X25519_GROUP (x25519_public key)) = 36) as Hs
    by (unfold share_bytes; sizes; rewrite x25519_public_len; lia).
  rewrite (join_ok encode_share (λ e, share_bytes e.1 (x25519_public e.2)))
    by (repeat constructor; unfold encode_share; apply key_share_entry_ok; [done|rewrite x25519_public_len; done]).
  cbn [fmap list_fmap concat fst snd mbind result_bind]. rewrite (app_nil_r (share_bytes _ _)).
  assert (join (to_bytes 2) SUPPORTED_GROUPS = Ok (be_bytes 2 X25519_GROUP)) as -> by reflexivity.
  unfold str_encode. rewrite Hn. cbn [mbind result_bind].
  rewrite (vec_ok 2 (ascii_bytes _)) by (change (256 ^ _) with 65536; lia). cbn [mbind result_bind].
  rewrite (vec_ok 2 ([x00] ++ _)) by (change (256 ^ _) with 65536; sizes; lia). cbn [mbind result_bind].
  rewrite (vec_ok 2 (be_bytes 2 X25519_GROUP)) by done. cbn [mbind result_bind].
  rewrite !to_bytes_ok by done. cbn [mbind result_bind].
  rewrite (vec_ok 2 (be_bytes 2 RSA_PSS_RSAE_SHA256 ++ _)) by done. cbn [mbind result_bind].
  rewrite alpn_extension_ok by (split; [done|lia]). cbn [mbind result_bind].
  rewrite (vec_ok 1) by done. cbn [mbind result_bind].
  rewrite (vec_ok 2 (share_bytes _ _)) by (change (256 ^ _) with 65536; lia).
  reflexivity.
Qed.

(** The state of a client that has sent its hello *)
Definition started (now : Q) (raw : bytes) (c : TlsClient) : TlsClient :=
  set_tc_state C_WAIT_SERVER_HELLO (set_tc_early_data_offered false (set_tc_hs
    (set_hs_events (hs_events (tc_hs c) ++ [EvSendData L_INITIAL raw])
      (set_hs_schedule (update_transcript raw (hs_schedule (tc_hs c))) (set_hs_now now (tc_hs c)))) c)).

Lemma send_client_hello_ok c key :
  tc_keys c = [(X25519_GROUP, key)] → cfg_session_ticket (tc_config c) = None → tc_fallback_schedule c = None →
  wf_client_config (tc_config c) → len (tc_random c) = 32 →
  let raw := message_bytes (HClientHello (hello_message (tc_config c) (tc_random c) (x25519_public key))) in
  send_client_hello c =
    (Ok raw, set_tc_hs (set_hs_schedule (update_transcript raw (hs_schedule (tc_hs c))) (tc_hs c))
               (set_tc_early_data_offered false c)).
Proof.
  intros Hk Ht Hb Hw Hr raw.
  assert (build_client_hello c =
    (Ok (hello_message (tc_config c) (tc_random c) (x25519_public key)), set_tc_early_data_offered false c)) as E.
  { unfold build_client_hello, offers_early_data, mbind, M_bind, get, modify, lift, mret, M_ret. rewrite Ht.
    rewrite (client_extensions_ok false (set_tc_early_data_offered false c) key) by done.
    change (tc_config (set_tc_early_data_offered false c)) with (tc_config c). rewrite Ht. cbn [mbind result_bind].
    by rewrite !app_nil_r. }
  unfold send_client_hello. erewrite M_bind_ok by exact E.
  erewrite lift_bind by exact (encode_message_ok _ (wf_hello_message _ (tc_random c) _ Hw Hr (x25519_public_len key))).
  fold raw. erewrite (M_bind_ok get) by reflexivity. change (tc_config (set_tc_early_data_offered false c)) with (tc_config c).
  rewrite Ht. erewrite M_bind_ok by reflexivity. unfold with_fallback. unfold mbind, M_bind, get.
  change (tc_fallback_schedule (set_tc_hs _ _)) with (tc_fallback_schedule c). rewrite Hb. reflexivity.
Qed.

Lemma start_ok now c key :
  tc_keys c = [(X25519_GROUP, key)] → cfg_session_ticket (tc_config c) = None → tc_fallback_schedule c = None →
  wf_client_config (tc_config c) → len (tc_random c) = 32 →
  start now c = (Ok tt, started now
    (message_bytes (HClientHello (hello_message (tc_config c) (tc_random c) (x25519_public key)))) c).
Proof.
  intros Hk Ht Hb Hw Hr. unfold start. erewrite (M_bind_ok (on_hs _)) by reflexivity.
  erewrite M_bind_ok by (by apply send_client_hello_ok).
  repeat (erewrite M_bind_ok by reflexivity; cbv beta). reflexivity.
Qed.

(** ** The server answers *)

Definition stream (l : list HandshakeMessage) : bytes := concat (message_bytes <$> l).

Definition verify_message (key : SigningKey) (transcript : bytes) : CertificateVerify :=
  let '(algorithm, signature) := sign_certificate_verify key (sha256 transcript) in
  mkCertificateVerify algorithm signature.

(** What a server that does not resume proves itself with, behind the
    transcript [t] *)
Definition proof_messages (config : ServerConfig) (t : bytes) : list HandshakeMessage :=
  let chain := HCertificate (chain_message (scfg_certificate_chain config)) in
  [chain; HCertificateVerify (verify_message (scfg_signing_key config) (t ++ message_bytes chain))].
(** EncryptedExtensions up to the Finished *)
Definition body_messages (m : mode) (config : ServerConfig) (protocol : string) (t : bytes) : list HandshakeMessage :=
  let selection := HEncryptedExtensions (selection_message m protocol (scfg_transport_parameters config)) in
  selection :: (if resumes m then [] else proof_messages config (t ++ message_bytes selection)).
Definition finished_message (secret t : bytes) : HandshakeMessage := HFinished (finished_mac secret t).

Definition fed (raw : bytes) (s : TlsServer) : TlsServer :=
  set_ts_hs (set_hs_schedule (update_transcript raw (hs_schedule (ts_hs s))) (ts_hs s)) s.
Lemma feed_fed raw s : at_hs (feed raw) s = (Ok tt, fed raw s).
Proof. done. Qed.
Lemma fed_fed a b s : fed b (fed a s) = fed (a ++ b) s.
Proof. unfold fed, update_transcript. cbn. by rewrite app_assoc. Qed.

Lemma wf_verify_message key t : wf_message (HCertificateVerify (verify_message key t)).
Proof.
  unfold verify_message, sign_certificate_verify.
  destruct key as [k|k]; [pose proof (rsa_sign_len k (CERTIFICATE_VERIFY_CONTEXT ++ sha256 t))
                         |pose proof (ec_sign_len k (CERTIFICATE_VERIFY_CONTEXT ++ sha256 t))];
    (split; [by split|]); unfold body_bytes; cbn [cv_algorithm cv_signature]; sizes; lia.
Qed.

Lemma wf_finished_mac secret t : wf_message (finished_message secret t).
Proof. apply wf_finished_message. unfold finished_mac. apply hmac_len. Qed.

Lemma certificate_messages_ok s :
  wf_chain (scfg_certificate_chain (ts_config s)) →
  let flight := stream (proof_messages (ts_config s) (sch_transcript (hs_schedule (ts_hs s)))) in
  certificate_messages s = (Ok flight, fed flight s).
Proof.
  intros Hc flight. unfold certificate_messages. erewrite (M_bind_ok get) by reflexivity.
  erewrite lift_bind by exact (encode_message_ok _ (wf_chain_message _ Hc)).
  set (chain := message_bytes _). erewrite M_bind_ok by apply feed_fed. erewrite (M_bind_ok get) by reflexivity.
  change (ts_config (fed chain s)) with (ts_config s).
  change (transcript_hash _) with (sha256 (sch_transcript (hs_schedule (ts_hs s)) ++ chain)).
  pose proof (encode_message_ok _ (wf_verify_message (scfg_signing_key (ts_config s)) (sch_transcript (hs_schedule (ts_hs s)) ++ chain))) as Ev.
  set (verify := message_bytes _) in Ev.
  assert (flight = chain ++ verify) as ->
    by (unfold flight, proof_messages, stream; cbn [fmap list_fmap concat]; by rewrite app_nil_r).
  cbn [encode_message] in Ev. unfold verify_message in Ev. destruct (sign_certificate_verify _ _) as [a sg].
  erewrite lift_bind by exact Ev. erewrite M_bind_ok by apply feed_fed. by rewrite fed_fed.
Qed.

Record wf_server_config (config : ServerConfig) : Prop := {
  ws_parameters : len (scfg_transport_parameters config) <= 65000;
  ws_chain : wf_chain (scfg_certificate_chain config) }.

Definition sent (e : TlsEvent) (h : HandshakeState) : HandshakeState := set_hs_events (hs_events h ++ [e]) h.
Definition extended (raw : bytes) (h : HandshakeState) : HandshakeState :=
  set_hs_schedule (update_transcript raw (hs_schedule h)) h.

(** The handshake messages the server sends behind its ServerHello *)
Definition flight_messages (m : mode) (config : ServerConfig) (protocol : string) (secret t : bytes) : list HandshakeMessage :=
  let body := body_messages m config protocol t in body ++ [finished_message secret (t ++ stream body)].

Lemma wf_alpn_one protocol : wf_protocol protocol → wf_alpn [protocol].
Proof.
  intros [Hp Hl]. split; [by repeat constructor|]. unfold protocol_bytes. cbn [fmap list_fmap concat].
  sizes. lia.
Qed.

Lemma stream_app l l' : stream (l ++ l') = stream l ++ stream l'.
Proof. unfold stream. by rewrite fmap_app, concat_app. Qed.
Lemma stream_cons m l : stream (m :: l) = message_bytes m ++ stream l.
Proof. done. Qed.

Lemma send_server_flight_ok m s protocol :
  wf_protocol protocol → wf_server_config (ts_config s) → ts_early_data_accepted s = accepts_early m →
  let h := ts_hs s in
  let flight := stream (flight_messages m (ts_config s) protocol (hs_server_secret h) (sch_transcript (hs_schedule h))) in
  send_server_flight (resumes m) protocol s =
    (Ok tt, set_ts_hs (with_application_secrets (sent (EvSendData L_HANDSHAKE flight) (extended flight h))) s).
Proof.
  intros Hp [Ht Hc] He h flight. unfold send_server_flight. erewrite (M_bind_ok get) by reflexivity.
  erewrite lift_bind by (apply alpn_extension_ok; by apply wf_alpn_one). rewrite He.
  erewrite lift_bind by exact (encode_message_ok _ (wf_selection_message m _ _ Hp Ht)).
  set (ee := message_bytes (HEncryptedExtensions _)). erewrite M_bind_ok by apply feed_fed.
  set (t := sch_transcript (hs_schedule h)).
  set (body := stream (body_messages m (ts_config s) protocol t)).
  assert (body = ee ++ stream (if resumes m then [] else proof_messages (ts_config s) (t ++ ee))) as Hb by done.
  erewrite (M_bind_ok _ _ _ body (fed body s)).
  2: { rewrite Hb. destruct (resumes m); [by rewrite app_nil_r|].
       erewrite M_bind_ok by (by apply (certificate_messages_ok (fed ee s))). by rewrite fed_fed. }
  erewrite (M_bind_ok get) by reflexivity.
  erewrite lift_bind by apply finished_verify_data_ok.
  change (hs_server_secret _) with (hs_server_secret h).
  change (sch_transcript (hs_schedule (ts_hs (fed body s)))) with (t ++ body).
  erewrite lift_bind by exact (encode_message_ok _ (wf_finished_mac _ _)). set (fin := message_bytes _).
  erewrite M_bind_ok by apply feed_fed. rewrite fed_fed.
  erewrite (M_bind_ok (at_hs _)) by reflexivity.
  unfold at_hs, zoom. rewrite emit_application_secrets_ok.
  assert (flight = body ++ fin) as ->; [|reflexivity].
  unfold flight, flight_messages. cbv zeta. rewrite stream_app, stream_cons. unfold fin, body. cbn [stream fmap list_fmap concat].
  by rewrite app_nil_r.
Qed.

(** What the two configurations settle on *)
Definition common_suite (config : ClientConfig) : option Z :=
  head (List.filter (λ s, bool_decide (s ∈ SUPPORTED_CIPHER_SUITES)) (cfg_cipher_suites config)).
Definition common_protocol (config : ClientConfig) (sconfig : ServerConfig) : option string :=
  List.find (λ p, bool_decide (p ∈ cfg_alpn config)) (scfg_alpn sconfig).

Lemma common_suite_spec config suite :
  common_suite config = Some suite → suite ∈ cfg_cipher_suites config ∧
  ∃ l, List.filter (λ s, bool_decide (s ∈ SUPPORTED_CIPHER_SUITES)) (cfg_cipher_suites config) = suite :: l.
Proof.
  unfold common_suite. destruct (List.filter _ _) as [|x l] eqn:E; [done|]. intros [= ->]. split; [|eauto].
  apply list_elem_of_In. eapply (proj1 (filter_In _ _ _)). rewrite E. by left.
Qed.

(** The server's shared state once it has answered a hello *)
Definition hello_taken (random : bytes) (suite : Z) (s : TlsServer) : TlsServer :=
  set_ts_hs (set_hs_client_random random (set_hs_cipher_suite suite (ts_hs s))) s.
Definition hello_answered (answer shared : bytes) (h : HandshakeState) : HandshakeState :=
  with_handshake_secrets shared (sent (EvSendData L_INITIAL answer) (extended answer h)).
Definition flight_sent (m : mode) (config : ServerConfig) (protocol : string) (h : HandshakeState) : HandshakeState :=
  let flight := stream (flight_messages m config protocol (hs_server_secret h) (sch_transcript (hs_schedule h))) in
  with_application_secrets (sent (EvSendData L_HANDSHAKE flight) (extended flight h)).

Lemma answer_hello_ok m hello s public shared :
  ch_legacy_session_id hello = [] → len (ts_random s) = 32 → bits 16 (hs_cipher_suite (ts_hs s)) →
  x25519_exchange (ts_key s) public = Ok shared →
  answer_hello hello (chosen m) public s =
    (Ok tt, set_ts_hs (hello_answered (message_bytes (HServerHello
      (answer_message m (ts_random s) (x25519_public (ts_key s)) (hs_cipher_suite (ts_hs s))))) shared (ts_hs s)) s).
Proof.
  intros Hid Hr Hs Hx. unfold answer_hello. erewrite (M_bind_ok get) by reflexivity.
  erewrite lift_bind by reflexivity. erewrite lift_bind by (apply key_share_entry_ok; [done|by rewrite x25519_public_len]).
  rewrite (lift_bind _ _ _ (if resumes m then [mkExtension EXT_PRE_SHARED_KEY (be_bytes 2 0)] else [])) by (by destruct m).
  rewrite Hid. erewrite lift_bind by exact (encode_message_ok _ (wf_answer_message m _ _ _ Hr (Z.eq_le_incl _ _ (x25519_public_len (ts_key s))) Hs)).
  erewrite M_bind_ok by apply feed_fed. erewrite (M_bind_ok (at_hs _)) by reflexivity.
  erewrite lift_bind by exact Hx. unfold at_hs, zoom. by rewrite emit_handshake_secrets_ok.
Qed.

(** *** The decision on the offered tickets *)

Definition early_traffic (m : mode) (raw : bytes) : option bytes :=
  if accepts_early m then Some (derive_secret (early_secret (psk_of m)) "c e traffic" raw) else None.

(** The state once [_resolve_psk_offer] has settled on [m] *)
Definition resolved (m : mode) (raw : bytes) (s : TlsServer) : TlsServer :=
  mkTlsServer (set_hs_schedule (mkKeySchedule raw (early_secret (psk_of m))) (ts_hs s)) (ts_config s) (ts_random s) (ts_key s)
    (ts_hello_retry_sent s) (ts_alpn s) (ts_client_transport_parameters s) (resumes m) (accepts_early m) (early_traffic m raw)
    true (ts_state s).

Lemma resolve_psk_offer_ok m hello raw protocol modes s :
  hs_schedule (ts_hs s) = new_KeySchedule None → ts_early_secret s = None →
  select_psk hello raw s = Ok (chosen m) →
  find_extension (ch_extensions hello) EXT_PSK_KEY_EXCHANGE_MODES = Some modes → has_dhe_mode modes = true →
  accepts_early_data hello (chosen m) protocol (set_ts_client_supports_resumption true (set_ts_resumed (resumes m) s)) =
    Ok (accepts_early m) →
  resolve_psk_offer hello raw protocol s = (Ok (chosen m), resolved m raw s).
Proof.
  intros Hk He Hp Hm Hd Ha. unfold resolve_psk_offer. erewrite (M_bind_ok get) by reflexivity. erewrite lift_bind by exact Hp.
  rewrite Hm, Hd. assert (bool_decide (chosen m ≠ None) = resumes m) as -> by (by destruct m).
  do 2 (erewrite (M_bind_ok (modify _)) by reflexivity). erewrite (M_bind_ok get) by reflexivity.
  erewrite lift_bind by exact Ha. erewrite (M_bind_ok (modify _)) by reflexivity.
  unfold resolved, early_traffic. destruct m as [|state [|]]; cbn [chosen accepts_early resumes psk_of when];
    do 2 (erewrite M_bind_ok by reflexivity); erewrite (M_bind_ok get) by reflexivity.
  - erewrite M_bind_ok by reflexivity. destruct s as [h]. cbn in *. rewrite He. unfold feed, update_transcript. cbn. by rewrite Hk.
  - erewrite M_bind_ok; [reflexivity|]. erewrite lift_bind by (by apply derive_ok). reflexivity.
  - erewrite M_bind_ok by reflexivity. destruct s as [h]. cbn in *. by rewrite He.
Qed.

Definition server_answered (m : mode) (config : ClientConfig) (protocol : string) (raw random answer shared : bytes) (suite : Z)
    (s : TlsServer) : TlsServer :=
  let s' := resolved m raw (hello_taken random suite s) in
  mkTlsServer (flight_sent m (ts_config s) protocol (hello_answered answer shared (ts_hs s')))
    (ts_config s) (ts_random s) (ts_key s) (ts_hello_retry_sent s) protocol (cfg_transport_parameters config)
    (resumes m) (accepts_early m) (early_traffic m raw) true S_WAIT_FINISHED.

Lemma on_client_hello_ok m config random public extra raw s suite protocol shared :
  let hello := mkClientHello random [] (cfg_cipher_suites config) (hello_extensions config public ++ extra) in
  wf_client_config config → wf_server_config (ts_config s) → len public = 32 → len (ts_random s) = 32 →
  common_suite config = Some suite → common_protocol config (ts_config s) = Some protocol →
  resolve_psk_offer hello raw protocol (hello_taken random suite s) = (Ok (chosen m), resolved m raw (hello_taken random suite s)) →
  x25519_exchange (ts_key s) public = Ok shared →
  on_client_hello hello raw s =
    (Ok tt, server_answered m config protocol raw random
      (message_bytes (HServerHello (answer_message m (ts_random s) (x25519_public (ts_key s)) suite))) shared suite s).
Proof.
  intros hello Hw Hv Hp Hr Hs Ha Hres Hx. pose proof Hw as [_ Hal [Hsu _] Hz].
  apply common_suite_spec in Hs as (Hin & l & Hf).
  assert (bits 16 suite) as Hb by (by eapply (proj1 (Forall_forall _ _))).
  pose proof (List.find_some _ _ Ha) as [_ Hpin%bool_decide_eq_true].
  assert (wf_protocol protocol) as Hwp by (by eapply (proj1 (Forall_forall _ _))).
  pose proof (len_nonneg (ascii_bytes (cfg_server_name config))). pose proof (len_nonneg (cfg_transport_parameters config)).
  unfold on_client_hello. change (ch_cipher_suites hello) with (cfg_cipher_suites config). rewrite Hf.
  erewrite (M_bind_ok (at_hs _)) by reflexivity.
  rewrite (lift_bind (to_bytes 2 TLS_1_3) _ _ (be_bytes 2 TLS_1_3)) by reflexivity.
  change (find_extension (ch_extensions hello) EXT_SUPPORTED_VERSIONS) with (Some (vec_bytes 1 (be_bytes 2 TLS_1_3))). cbv beta iota.
  assert (is_infix (be_bytes 2 TLS_1_3) (vec_bytes 1 (be_bytes 2 TLS_1_3)) = true) as -> by reflexivity. cbn [negb].
  change (find_extension (ch_extensions hello) EXT_KEY_SHARE) with (Some (vec_bytes 2 (share_bytes X25519_GROUP public))).
  cbv beta iota. erewrite lift_bind.
  2: { rewrite <- (app_nil_r (share_bytes X25519_GROUP public)). apply client_key_share_x25519; [lia|].
       rewrite app_nil_r. unfold share_bytes. sizes. lia. }
  cbv beta iota.
  change (find_extension (ch_extensions hello) EXT_QUIC_TRANSPORT_PARAMETERS) with (Some (cfg_transport_parameters config)).
  cbv beta iota. erewrite (M_bind_ok get) by reflexivity.
  erewrite lift_bind.
  2: { unfold negotiate_alpn. change (find_extension _ EXT_ALPN) with (Some (alpn_bytes (cfg_alpn config))). cbv beta iota.
       rewrite parse_alpn_bytes by (split; [done|lia]). cbn [mbind result_bind].
       change (ts_config (set_ts_hs _ s)) with (ts_config s). unfold common_protocol in Ha. rewrite Ha. reflexivity. }
  erewrite (M_bind_ok (at_hs _)) by reflexivity.
  erewrite M_bind_ok by exact Hres. clear Hres.
  erewrite M_bind_ok by (by apply answer_hello_ok).
  assert (bool_decide (chosen m ≠ None) = resumes m) as -> by (by destruct m).
  erewrite M_bind_ok by (by apply send_server_flight_ok).
  do 2 (erewrite (M_bind_ok (modify _)) by reflexivity). reflexivity.
Qed.

(** ** The client takes the server's flight *)

(** The client's state once the server's choice has settled the schedule *)
Definition settled (m : mode) (c : TlsClient) : TlsClient :=
  set_tc_fallback_schedule None
    match m with
    | RESUMED _ _ => set_tc_resumed true c
    | FULL => match tc_fallback_schedule c with Some k => set_tc_hs (set_hs_schedule k (tc_hs c)) c | None => c end
    end.

Lemma settle_psk_ok m c :
  (resumes m = true → cfg_session_ticket (tc_config c) ≠ None) →
  settle_psk (if resumes m then Some (be_bytes 2 0) else None) c = (Ok tt, settled m c).
Proof.
  intros Ht. unfold settle_psk, settled. erewrite (M_bind_ok get) by reflexivity. destruct m as [|state early]; cbn [resumes].
  - destruct (tc_fallback_schedule c); reflexivity.
  - rewrite bool_decide_false by auto. reflexivity.
Qed.

(** A client that has taken a ServerHello *)
Definition keyed_client (m : mode) (answer shared : bytes) (suite : Z) (c : TlsClient) : TlsClient :=
  let c' := settled m (set_tc_hs (set_hs_cipher_suite suite (tc_hs c)) c) in
  set_tc_state C_WAIT_ENCRYPTED_EXTENSIONS (set_tc_hs (with_handshake_secrets shared (extended answer (tc_hs c'))) c').

(** Up to the key exchange, which comes once the choice is settled *)
Lemma on_server_hello_eq m c random public raw suite key :
  random ≠ HELLO_RETRY_REQUEST_RANDOM → len public < 2 ^ 16 → suite ∈ cfg_cipher_suites (tc_config c) →
  tc_keys c = [(X25519_GROUP, key)] → (resumes m = true → cfg_session_ticket (tc_config c) ≠ None) →
  let c' := settled m (set_tc_hs (set_hs_cipher_suite suite (tc_hs c)) c) in
  on_server_hello (answer_message m random public suite) raw c =
    (shared ← lift (x25519_exchange key public);
     _ ← on_hs (emit_handshake_secrets shared);
     modify (set_tc_state C_WAIT_ENCRYPTED_EXTENSIONS)) (set_tc_hs (extended raw (tc_hs c')) c').
Proof.
  intros Hr Hp Hs Hk Ht c'. unfold on_server_hello. cbn [sh_random sh_legacy_session_id_echo sh_cipher_suite answer_message].
  rewrite bool_decide_false by done. rewrite bool_decide_false by (intros H; by apply H).
  erewrite (M_bind_ok get) by reflexivity. rewrite bool_decide_true by done. cbn [negb].
  erewrite (M_bind_ok (on_hs _)) by reflexivity. rewrite (lift_bind (to_bytes 2 TLS_1_3) _ _ (be_bytes 2 TLS_1_3)) by reflexivity.
  change (find_extension (sh_extensions (answer_message m random public suite)) EXT_SUPPORTED_VERSIONS)
    with (Some (be_bytes 2 TLS_1_3)).
  rewrite bool_decide_false by (intros H; by apply H).
  change (find_extension (sh_extensions (answer_message m random public suite)) EXT_KEY_SHARE)
    with (Some (share_bytes X25519_GROUP public)). cbv beta iota.
  erewrite lift_bind by (apply parse_key_share_x25519; lia). cbv beta iota. rewrite Hk.
  change (d_get X25519_GROUP [(X25519_GROUP, key)]) with (Some key). cbv beta iota.
  assert (find_extension (sh_extensions (answer_message m random public suite)) EXT_PRE_SHARED_KEY =
    if resumes m then Some (be_bytes 2 0) else None) as -> by (by destruct m).
  erewrite M_bind_ok by (by apply settle_psk_ok).
  by erewrite (M_bind_ok (on_hs _)) by reflexivity.
Qed.

Lemma on_server_hello_ok m c random public raw suite key shared :
  random ≠ HELLO_RETRY_REQUEST_RANDOM → len public = 32 → suite ∈ cfg_cipher_suites (tc_config c) →
  tc_keys c = [(X25519_GROUP, key)] → (resumes m = true → cfg_session_ticket (tc_config c) ≠ None) →
  x25519_exchange key public = Ok shared →
  on_server_hello (answer_message m random public suite) raw c = (Ok tt, keyed_client m raw shared suite c).
Proof.
  intros Hr Hp Hs Hk Ht Hx. rewrite (on_server_hello_eq m c random public raw suite key) by (done || lia).
  erewrite lift_bind by exact Hx.
  erewrite M_bind_ok by (unfold on_hs, zoom; rewrite emit_handshake_secrets_ok; reflexivity). reflexivity.
Qed.

(** The client's state once it has taken the server's selection *)
Definition selection_taken (m : mode) (protocol : string) (parameters : bytes) (c : TlsClient) : TlsClient :=
  set_tc_peer_transport_parameters parameters (set_tc_alpn protocol
    (if accepts_early m then set_tc_early_data_accepted true c else c)).

Lemma on_encrypted_extensions_ok m c protocol parameters raw :
  protocol ∈ cfg_alpn (tc_config c) → wf_protocol protocol → tc_resumed c = resumes m →
  (accepts_early m = true → check_early_data protocol c = Ok tt) →
  on_encrypted_extensions (selection_message m protocol parameters) raw c =
    (Ok tt, set_tc_state (if resumes m then C_WAIT_FINISHED else C_WAIT_CERTIFICATE)
      (set_tc_hs (extended raw (tc_hs c)) (selection_taken m protocol parameters c))).
Proof.
  intros Hp Hw Hr He. unfold on_encrypted_extensions.
  change (find_extension (selection_message m protocol parameters) EXT_ALPN) with (Some (alpn_bytes [protocol])).
  cbv beta iota. erewrite lift_bind by (apply parse_alpn_bytes; by apply wf_alpn_one).
  erewrite (M_bind_ok get) by reflexivity. cbv beta iota. rewrite bool_decide_true by done. cbn [negb].
  change (find_extension (selection_message m protocol parameters) EXT_QUIC_TRANSPORT_PARAMETERS) with (Some parameters).
  cbv beta iota. unfold selection_taken.
  assert (find_extension (selection_message m protocol parameters) EXT_EARLY_DATA = if accepts_early m then Some [] else None)
    as -> by (unfold selection_message; by destruct (accepts_early m)).
  destruct (accepts_early m); [erewrite (M_bind_ok (_ ≫= _)) by (erewrite lift_bind by auto; reflexivity)
                              |erewrite (M_bind_ok (mret _)) by reflexivity];
    do 2 (erewrite (M_bind_ok (modify _)) by reflexivity); erewrite (M_bind_ok (on_hs _)) by reflexivity; unfold modify;
    cbn [tc_resumed set_tc_hs set_tc_peer_transport_parameters set_tc_alpn set_tc_early_data_accepted]; by rewrite Hr.
Qed.

(** The chain is trusted, and its leaf certifies the signing key. *)
Definition trusted (config : ClientConfig) (leaf : bytes) (rest : list bytes) : Prop :=
  cfg_insecure_skip_verify config = true ∨
  verify_certificate_policy config (mkCertificateEntry leaf []) (chain_entries rest) = Ok tt.
Definition certifies (leaf : bytes) (key : SigningKey) : Prop := ∃ certificate,
  load_der_x509_certificate leaf = Ok certificate ∧
  certificate_key certificate = Some match key with RsaKey k => inl (rsa_public k) | EcKey k => inr (ec_public k) end.

Lemma on_certificate_ok c leaf rest raw :
  trusted (tc_config c) leaf rest →
  on_certificate (chain_message (leaf :: rest)) raw c =
    (Ok tt, set_tc_state C_WAIT_CERTIFICATE_VERIFY (set_tc_hs (extended raw (tc_hs c)) (set_tc_leaf_certificate leaf c))).
Proof.
  intros Ht. unfold on_certificate. cbn [ct_entries chain_message chain_entries map].
  erewrite (M_bind_ok (modify _)) by reflexivity. erewrite (M_bind_ok get) by reflexivity.
  change (tc_config (set_tc_leaf_certificate _ c)) with (tc_config c). fold (chain_entries rest).
  erewrite M_bind_ok.
  2: { destruct Ht as [-> | ->]; [reflexivity|]. by destruct (cfg_insecure_skip_verify _). }
  reflexivity.
Qed.

Lemma verify_signed leaf key t :
  certifies leaf key → verify_certificate_verify leaf (verify_message key t) (sha256 t) = Ok tt.
Proof.
  intros (cert & El & Ek). unfold verify_certificate_verify, verify_message, sign_certificate_verify. rewrite El.
  cbn [mbind result_bind]. rewrite Ek. destruct key as [k|k]; cbn [cv_algorithm cv_signature].
  - by rewrite Z.eqb_refl, rsa_sign_verify.
  - by rewrite Z.eqb_refl, ec_sign_verify.
Qed.

Lemma on_certificate_verify_ok c key raw :
  certifies (tc_leaf_certificate c) key →
  on_certificate_verify (verify_message key (sch_transcript (hs_schedule (tc_hs c)))) raw c =
    (Ok tt, set_tc_state C_WAIT_FINISHED (set_tc_hs (extended raw (tc_hs c)) c)).
Proof.
  intros Hc. unfold on_certificate_verify. erewrite (M_bind_ok get) by reflexivity.
  erewrite lift_bind by (by apply verify_signed). reflexivity.
Qed.

(** The client's state once it has checked the server's Finished *)
Definition client_finished (raw : bytes) (alpn : string) (parameters : bytes) (h : HandshakeState) : HandshakeState :=
  let h1 := with_application_secrets (extended raw h) in
  let finished := message_bytes (finished_message (hs_client_secret h1) (sch_transcript (hs_schedule h1))) in
  sent (EvHandshakeComplete (mkHandshakeComplete alpn parameters)) (sent (EvSendData L_HANDSHAKE finished) (extended finished h1)).

Lemma on_finished_ok c raw :
  on_finished (finished_mac (hs_server_secret (tc_hs c)) (sch_transcript (hs_schedule (tc_hs c)))) raw c =
    (Ok tt, set_tc_state C_CONNECTED (set_tc_hs (client_finished raw (tc_alpn c) (tc_peer_transport_parameters c) (tc_hs c)) c)).
Proof.
  unfold on_finished. erewrite (M_bind_ok get) by reflexivity. erewrite lift_bind by apply finished_verify_data_ok.
  rewrite bool_decide_false by (intros H; by apply H). erewrite (M_bind_ok (on_hs (feed _))) by reflexivity.
  erewrite M_bind_ok by (unfold on_hs, zoom; rewrite emit_application_secrets_ok; reflexivity).
  erewrite (M_bind_ok get) by reflexivity. erewrite lift_bind by apply finished_verify_data_ok.
  erewrite lift_bind by exact (encode_message_ok _ (wf_finished_mac _ _)).
  do 3 (erewrite (M_bind_ok (on_hs _)) by reflexivity). reflexivity.
Qed.

Lemma client_handle_ok level m raw c ty :
  tc_state c ≠ C_CONNECTED → CLIENT_EXPECTS (tc_state c) = Some (ty, level) → message_type_of m = ty →
  client_handle level m raw c =
    match m with
    | HServerHello h => on_server_hello h raw
    | HEncryptedExtensions e => on_encrypted_extensions e raw
    | HCertificate m => on_certificate m raw
    | HCertificateVerify m => on_certificate_verify m raw
    | HFinished v => on_finished v raw
    | _ => mret tt
    end c.
Proof.
  intros Hs He Ht. unfold client_handle. erewrite (M_bind_ok get) by reflexivity. rewrite bool_decide_false, He by done.
  erewrite lift_bind by (unfold require; rewrite !bool_decide_false by (intros H; by apply H); reflexivity). reflexivity.
Qed.

Lemma extended_extended a b h : extended b (extended a h) = extended (a ++ b) h.
Proof. unfold extended, update_transcript. cbn. by rewrite app_assoc. Qed.

Lemma client_finished_extended a raw alpn parameters h :
  client_finished raw alpn parameters (extended a h) = client_finished (a ++ raw) alpn parameters h.
Proof. unfold client_finished. by rewrite extended_extended. Qed.

(** A resuming server sends no certificate. *)
Definition leaf_taken (m : mode) (leaf : bytes) (c : TlsClient) : TlsClient :=
  if resumes m then c else set_tc_leaf_certificate leaf c.

Definition client_completed (m : mode) (scfg : ServerConfig) (protocol : string) (leaf : bytes) (c : TlsClient) : TlsClient :=
  let h := tc_hs c in
  let flight := stream (flight_messages m scfg protocol (hs_server_secret h) (sch_transcript (hs_schedule h))) in
  set_tc_state C_CONNECTED (set_tc_hs (client_finished flight protocol (scfg_transport_parameters scfg) h)
    (leaf_taken m leaf (selection_taken m protocol (scfg_transport_parameters scfg) c))).

(** What the client demands of a server that does not resume *)
Definition proves (m : mode) (config : ClientConfig) (scfg : ServerConfig) (leaf : bytes) : Prop :=
  resumes m = false → ∃ rest, scfg_certificate_chain scfg = leaf :: rest ∧ trusted config leaf rest ∧
                              certifies leaf (scfg_signing_key scfg).

Lemma client_takes_proof m c scfg leaf :
  resumes m = false → tc_state c = C_WAIT_CERTIFICATE → proves m (tc_config c) scfg leaf →
  let messages := proof_messages scfg (sch_transcript (hs_schedule (tc_hs c))) in
  handle_all L_HANDSHAKE messages c =
    (Ok tt, set_tc_state C_WAIT_FINISHED (set_tc_hs (extended (stream messages) (tc_hs c)) (set_tc_leaf_certificate leaf c))).
Proof.
  intros Hm Hs Hp. destruct (Hp Hm) as (rest & Hch & Ht & Hc). unfold handle_all, proof_messages. cbv zeta.
  cbn [each handle client_machine stream fmap list_fmap concat]. rewrite app_nil_r. set (chain := message_bytes (HCertificate _)).
  set (cv := message_bytes (HCertificateVerify _)).
  erewrite M_bind_ok by (erewrite client_handle_ok by (rewrite ?Hs; done); rewrite Hch; by apply on_certificate_ok).
  erewrite M_bind_ok by (erewrite client_handle_ok by done; by apply on_certificate_verify_ok).
  unfold mret, M_ret. fold chain. by rewrite <- extended_extended.
Qed.

Lemma handle_all_app {T} `{!Machine T} level l l' (t t' : T) :
  handle_all level l t = (Ok tt, t') → handle_all level (l ++ l') t = handle_all level l' t'.
Proof.
  unfold handle_all. revert t. induction l as [|x l IH]; intros t; cbn [app each].
  - intros [= ->]. done.
  - intros H. apply M_bind_ok_inv in H as ([] & t1 & E & H). erewrite M_bind_ok by exact E. by apply IH.
Qed.

Lemma client_takes_flight m c scfg protocol leaf :
  tc_state c = C_WAIT_ENCRYPTED_EXTENSIONS → tc_resumed c = resumes m →
  (accepts_early m = true → check_early_data protocol c = Ok tt) →
  protocol ∈ cfg_alpn (tc_config c) → wf_protocol protocol → proves m (tc_config c) scfg leaf →
  handle_all L_HANDSHAKE (flight_messages m scfg protocol (hs_server_secret (tc_hs c)) (sch_transcript (hs_schedule (tc_hs c)))) c =
    (Ok tt, client_completed m scfg protocol leaf c).
Proof.
  intros Hs Hr He Hp Hw Hpr. unfold client_completed, flight_messages. cbv zeta.
  set (secret := hs_server_secret (tc_hs c)). set (t := sch_transcript (hs_schedule (tc_hs c))).
  set (body := body_messages m scfg protocol t).
  set (c1 := leaf_taken m leaf (selection_taken m protocol (scfg_transport_parameters scfg) c)).
  assert (Hb : handle_all L_HANDSHAKE body c = (Ok tt, set_tc_state C_WAIT_FINISHED (set_tc_hs (extended (stream body) (tc_hs c)) c1))).
  { unfold body, body_messages. cbv zeta. unfold handle_all. cbn [each handle client_machine].
    erewrite M_bind_ok by (erewrite client_handle_ok by (rewrite ?Hs; done); by apply on_encrypted_extensions_ok).
    rewrite stream_cons. set (ee := message_bytes _). unfold c1, leaf_taken. destruct (resumes m) eqn:Em.
    - cbn [each mret stream fmap list_fmap concat]. unfold M_ret. by rewrite app_nil_r.
    - set (c2 := set_tc_state C_WAIT_CERTIFICATE _).
      change (t ++ ee) with (sch_transcript (hs_schedule (tc_hs c2))).
      assert (tc_config c2 = tc_config c) as Ec by (unfold c2, selection_taken; by destruct (accepts_early m)).
      etrans; [apply (client_takes_proof m c2 scfg leaf); by rewrite ?Ec|].
      by rewrite <- extended_extended. }
  rewrite (handle_all_app _ _ _ _ _ Hb). unfold handle_all. cbn [each handle client_machine].
  unfold finished_message at 1. erewrite M_bind_ok.
  2: { erewrite client_handle_ok by done. cbv beta iota.
       apply (on_finished_ok (set_tc_state C_WAIT_FINISHED (set_tc_hs (extended (stream body) (tc_hs c)) c1))). }
  cbn [tc_hs set_tc_state set_tc_hs]. rewrite client_finished_extended, stream_app. cbn [stream fmap list_fmap concat].
  rewrite app_nil_r. unfold c1, leaf_taken, selection_taken. by destruct (resumes m), (accepts_early m).
Qed.

(** ** The server takes the client's Finished *)

Lemma on_client_finished_ok s raw s' :
  issue_session_ticket (set_ts_state S_CONNECTED (set_ts_hs (sent (EvHandshakeComplete
      (mkHandshakeComplete (ts_alpn s) (ts_client_transport_parameters s))) (extended raw (ts_hs s))) s)) = (Ok tt, s') →
  on_client_finished (finished_mac (hs_client_secret (ts_hs s)) (sch_transcript (hs_schedule (ts_hs s)))) raw s = (Ok tt, s').
Proof.
  intros Hk. unfold on_client_finished. erewrite (M_bind_ok get) by reflexivity.
  erewrite lift_bind by apply finished_verify_data_ok. rewrite bool_decide_false by (intros H; by apply H).
  do 2 (erewrite (M_bind_ok (at_hs _)) by reflexivity). erewrite (M_bind_ok (modify _)) by reflexivity. exact Hk.
Qed.

Lemma server_handle_ok level m raw s ty :
  SERVER_EXPECTS (ts_state s) = Some (ty, level) → message_type_of m = ty →
  server_handle level m raw s =
    match m with HClientHello h => on_client_hello h raw | HFinished v => on_client_finished v raw | _ => mret tt end s.
Proof.
  intros He Ht. unfold server_handle. erewrite (M_bind_ok get) by reflexivity. rewrite He.
  erewrite lift_bind by (unfold require; rewrite !bool_decide_false by (intros H; by apply H); reflexivity). reflexivity.
Qed.

(** ** Delivering flights *)

Lemma receive_one {T} `{!Machine T} `{!MachineLaws T} level m now (t t' : T) :
  wf_message m → buffer_at level t = [] → handle level m (message_bytes m) (set_now now t) = (Ok tt, t') →
  receive level (message_bytes m) now t = (Ok tt, t').
Proof.
  intros Hw Hb H. rewrite <- (app_nil_r (message_bytes m)).
  apply (receive_messages level [m]); [by constructor|done|]. unfold handle_all. cbn [each].
  by erewrite M_bind_ok by exact H.
Qed.

Definition cleared {T} `{!Machine T} (t : T) : T := set_machine_hs (set_hs_events [] (machine_hs t)) t.
Lemma answer_ok {T} `{!Machine T} now events (t t' : T) :
  deliver now events t = (Ok tt, t') → answer now events t = Ok (hs_events (machine_hs t'), cleared t').
Proof. unfold answer. by intros ->. Qed.


End honest.
