(* ===== verification/TlsTickets.v ===== *)
(** * Session tickets between honest endpoints

    What a server issues at the end of a handshake and what the client keeps
    of it ([matches]), the offer of a ticket in a hello with its binder, and
    the server's verdict on it. *)

From Stdlib Require Import Strings.String QArith Qround Lqa.
From S2P Require Import Prelude Buffer Crypto Congestion TransportParameters Retry TlsInterface Handshake Codec.
From S2P Require Import HandshakeProofs KeySchedule TlsCore TlsClient TlsServer TlsReceive KeyDerivation TlsHonest.
#[local] Open Scope Z_scope.

(** What a client keeps of a ticket, against the state sealed in it: under the
    server's key the ticket opens to the state until it expires, and both have
    the same PSK, age mask, protocol and suite. *)
Record matches `{Primitives} (key : bytes) (ticket : SessionTicket) (state : TicketState) : Prop := {
  mt_wf : wf_ticket state;
  mt_opens now lifetime : open_ticket key (st_identity ticket) now lifetime =
    if Qltb lifetime (now - inject_Z (tk_issued_at state)) then Raise (TicketError "ticket has expired") else Ok state;
  mt_psk : st_psk ticket = tk_psk state;
  mt_age_add : st_age_add ticket = tk_age_add state;
  mt_alpn : st_alpn ticket = tk_alpn state;
  mt_suite : st_cipher_suite ticket = tk_cipher_suite state;
  mt_parameters : st_transport_parameters ticket = tk_transport_parameters state;
  mt_issued : tk_issued_at state = int_of (st_received_at ticket);
  mt_early : st_max_early_data_size ticket = MAX_EARLY_DATA_SIZE }.

Section tickets.
Context `{HP : Primitives} `{HL : !PrimitiveLaws HP} `{HT : TlsPrimitives}.

(** ** Issuing *)

Definition sealed_ticket (urandom key : bytes) (state : TicketState) : bytes :=
  match seal_ticket urandom key state with Ok ticket => ticket | Raise _ => [] end.

(** The [i]-th of the next random draws *)
Definition draw (h : HandshakeState) (i : nat) (n : Z) : bytes := en_urandom (hs_entropy h) (i + hs_draws h) n.

Definition issued_state (h : HandshakeState) (alpn : string) (parameters : bytes) : TicketState :=
  mkTicketState
    (expand32 (derive_secret (sch_secret (hs_schedule h)) "res master" (sch_transcript (hs_schedule h))) "resumption"
       (draw h 0 TICKET_NONCE_LENGTH))
    (from_bytes (draw h 1 4)) alpn parameters (int_of (hs_now h)) (hs_cipher_suite h).
Definition issued_ticket (key : bytes) (h : HandshakeState) (alpn : string) (parameters : bytes) : NewSessionTicket :=
  mkNewSessionTicket SESSION_TICKET_LIFETIME (from_bytes (draw h 1 4)) (draw h 0 TICKET_NONCE_LENGTH)
    (sealed_ticket (draw h 2 TICKET_NONCE_LENGTH) key (issued_state h alpn parameters))
    [mkExtension EXT_EARLY_DATA (be_bytes 4 MAX_EARLY_DATA_SIZE)].

(** Whatever [os.urandom] draws has the length asked for. *)
Definition draws_ok (e : Entropy) : Prop := ∀ i n, 0 <= n → len (en_urandom e i n) = n.

Record can_issue (key : bytes) (h : HandshakeState) (alpn : string) (parameters : bytes) : Prop := {
  ci_key : len key = AES_256_KEY;
  ci_draws : draws_ok (hs_entropy h);
  ci_now : 0 <= int_of (hs_now h) < 2 ^ 64;
  ci_suite : bits 16 (hs_cipher_suite h);
  ci_alpn : wf_protocol alpn;
  ci_parameters : len parameters <= 65000 }.

Lemma from_bytes_bits l n : len l = n → bits (8 * n) (from_bytes l).
Proof. intros <-. unfold bits. rewrite Z.pow_mul_r; [|done|apply len_nonneg]. apply from_bytes_range. Qed.

Section issue.
Context (key : bytes) (h : HandshakeState) (alpn : string) (parameters : bytes) (Hi : can_issue key h alpn parameters).

Lemma issued_state_wf : wf_ticket (issued_state h alpn parameters).
Proof.
  destruct Hi as [Hk Hd Hn Hs Ha Hp]. split; cbn; [done| |done|done|lia|].
  - apply (from_bytes_bits _ 4). by apply Hd.
  - apply expand32_ok; [done|]. unfold draw. by rewrite Hd.
Qed.

Lemma sealed_ticket_ok :
  let state := issued_state h alpn parameters in
  let ticket := sealed_ticket (draw h 2 TICKET_NONCE_LENGTH) key state in
  seal_ticket (draw h 2 TICKET_NONCE_LENGTH) key state = Ok ticket ∧ len ticket = len (ticket_bytes state) + 28 ∧
  ∀ now lifetime, open_ticket key ticket now lifetime =
    if Qltb lifetime (now - inject_Z (tk_issued_at state)) then Raise (TicketError "ticket has expired") else Ok state.
Proof.
  intros state ticket. pose proof issued_state_wf as Hw. fold state in Hw. destruct Hi as [Hk Hd Hn Hs Ha Hp].
  assert (len (draw h 2 TICKET_NONCE_LENGTH) = TICKET_NONCE_LENGTH) as Hu by (by apply Hd).
  destruct (seal_ticket_ok key _ state Hk Hu Hw) as (sealed & E & D & Hl). unfold ticket, sealed_ticket. rewrite E.
  split; [done|]. split; [rewrite len_app, Hl, Hu; unfold TICKET_NONCE_LENGTH; lia|].
  intros now lifetime. by apply open_ticket_sealed.
Qed.

Lemma issued_size : len (nst_ticket (issued_ticket key h alpn parameters)) <= 65340.
Proof.
  destruct sealed_ticket_ok as (_ & Hl & _). cbn [nst_ticket issued_ticket]. rewrite Hl.
  destruct issued_state_wf as [_ _ _ [_ Ha] _ Hp], Hi as [_ _ _ _ _ Hz]. unfold ticket_bytes, ticket_rest, protocol_bytes.
  sizes. cbn [tk_transport_parameters tk_alpn tk_psk issued_state] in *. rewrite Hp. unfold SHA256_LENGTH. lia.
Qed.

Lemma wf_issued_ticket : wf_message (HNewSessionTicket (issued_ticket key h alpn parameters)).
Proof.
  pose proof issued_size as Hz. destruct issued_state_wf as [_ Hage _ _ _ _]. destruct Hi as [_ Hd _ _ _ _].
  assert (len (draw h 0 TICKET_NONCE_LENGTH) = TICKET_NONCE_LENGTH) as Hu by (by apply Hd).
  split.
  - split; [done|]. split; [exact Hage|]. cbn [nst_nonce issued_ticket]. rewrite Hu. split; [done|]. split; [lia|].
    split; [|done]. repeat constructor; done.
  - unfold body_bytes, exts_bytes, ext_bytes. sizes. cbn [nst_nonce nst_extensions issued_ticket fmap list_fmap concat ext_data] in *.
    rewrite Hu. sizes. unfold TICKET_NONCE_LENGTH. cbn [issued_ticket nst_ticket] in *. lia.
Qed.
End issue.

(** The shared state once the ticket is sent *)
Definition ticketed (key : option bytes) (alpn : string) (parameters : bytes) (h : HandshakeState) : HandshakeState :=
  match key with
  | None => h
  | Some key =>
      sent (EvSendData L_ONE_RTT (message_bytes (HNewSessionTicket (issued_ticket key h alpn parameters))))
        (set_hs_draws (3 + hs_draws h) h)
  end.

Lemma issue_session_ticket_ok s :
  ts_client_supports_resumption s = true →
  (∀ key, scfg_ticket_key (ts_config s) = Some key →
     can_issue key (ts_hs s) (ts_alpn s) (scfg_transport_parameters (ts_config s))) →
  issue_session_ticket s =
    (Ok tt, set_ts_hs (ticketed (scfg_ticket_key (ts_config s)) (ts_alpn s) (scfg_transport_parameters (ts_config s)) (ts_hs s)) s).
Proof.
  intros Hr Hc. unfold issue_session_ticket. erewrite (M_bind_ok get) by reflexivity. rewrite Hr. cbn [negb].
  destruct (scfg_ticket_key (ts_config s)) as [key|] eqn:Ek; [|by destruct s]. specialize (Hc key eq_refl).
  destruct (sealed_ticket_ok _ _ _ _ Hc) as (Es & _). pose proof (wf_issued_ticket _ _ _ _ Hc) as Hw.
  do 2 (erewrite (M_bind_ok (at_hs _)) by reflexivity).
  erewrite lift_bind by (by apply derive_ok).
  assert (len (draw (ts_hs s) 0 TICKET_NONCE_LENGTH) = TICKET_NONCE_LENGTH) as Hu by (by apply (ci_draws _ _ _ _ Hc)).
  erewrite lift_bind by (apply resumption_psk_ok; change (en_urandom _ _ TICKET_NONCE_LENGTH) with (draw (ts_hs s) 0 TICKET_NONCE_LENGTH);
    by rewrite Hu).
  cbv zeta. erewrite (M_bind_ok (at_hs _)) by reflexivity. erewrite lift_bind by exact Es.
  rewrite (lift_bind (to_bytes 4 MAX_EARLY_DATA_SIZE) _ _ (be_bytes 4 MAX_EARLY_DATA_SIZE)) by reflexivity.
  erewrite lift_bind by exact (encode_message_ok _ Hw). reflexivity.
Qed.

(** ** Storing *)

Definition stored_ticket (t : NewSessionTicket) (c : TlsClient) : SessionTicket :=
  let k := hs_schedule (tc_hs c) in
  mkSessionTicket (nst_ticket t)
    (expand32 (derive_secret (sch_secret k) "res master" (sch_transcript k)) "resumption" (nst_nonce t))
    (nst_age_add t) (nst_lifetime t) (hs_now (tc_hs c)) MAX_EARLY_DATA_SIZE (tc_alpn c) (tc_peer_transport_parameters c)
    (hs_cipher_suite (tc_hs c)).

Lemma store_session_ticket_ok key h alpn parameters c :
  can_issue key h alpn parameters →
  let t := issued_ticket key h alpn parameters in
  store_session_ticket t c = (Ok tt, set_tc_session_tickets (tc_session_tickets c ++ [stored_ticket t c]) c).
Proof.
  intros Hc t. unfold store_session_ticket.
  change (find_extension (nst_extensions t) EXT_EARLY_DATA) with (Some (be_bytes 4 MAX_EARLY_DATA_SIZE)).
  assert (from_bytes (be_bytes 4 MAX_EARLY_DATA_SIZE) = MAX_EARLY_DATA_SIZE) as E by reflexivity. cbv beta iota zeta. rewrite E.
  rewrite Z.eqb_refl, andb_false_r. erewrite (M_bind_ok get) by reflexivity. erewrite lift_bind by (by apply derive_ok).
  erewrite lift_bind by (apply resumption_psk_ok; cbn [nst_nonce t issued_ticket]; unfold draw; by rewrite (ci_draws _ _ _ _ Hc)).
  reflexivity.
Qed.

(** A ticket stored by a client with the server's schedule matches. *)
Lemma stored_matches key h alpn parameters c :
  can_issue key h alpn parameters → hs_schedule (tc_hs c) = hs_schedule h → hs_cipher_suite (tc_hs c) = hs_cipher_suite h →
  hs_now (tc_hs c) = hs_now h → tc_alpn c = alpn → tc_peer_transport_parameters c = parameters →
  matches key (stored_ticket (issued_ticket key h alpn parameters) c) (issued_state h alpn parameters).
Proof.
  intros Hc Hk Hs Hn Ha Hp. destruct (sealed_ticket_ok _ _ _ _ Hc) as (_ & _ & Ho).
  split; try exact (issued_state_wf _ _ _ _ Hc); try done; cbn; by rewrite ?Hk, ?Hs, ?Hn.
Qed.

(** ** Offering *)

Definition identity_bytes (i : PskIdentity) : bytes := vec_bytes 2 (pi_identity i) ++ be_bytes 4 (pi_obfuscated_ticket_age i).
Definition wf_identity (i : PskIdentity) : Prop := len (pi_identity i) < 2 ^ 16 ∧ bits 32 (pi_obfuscated_ticket_age i).
Definition offered_bytes (identities : list PskIdentity) (binders : list bytes) : bytes :=
  vec_bytes 2 (concat (identity_bytes <$> identities)) ++ vec_bytes 2 (concat (vec_bytes 1 <$> binders)).
Record wf_offer (identities : list PskIdentity) (binders : list bytes) : Prop := {
  wo_identities : Forall wf_identity identities ∧ len (concat (identity_bytes <$> identities)) < 2 ^ 16;
  wo_binders : Forall (λ b, len b < 2 ^ 8) binders ∧ len (concat (vec_bytes 1 <$> binders)) < 2 ^ 16;
  wo_paired : len identities = len binders }.

Lemma codec_identity : codec pull_psk_identity identity_bytes wf_identity parse_error.
Proof.
  eapply codec_ext; [|reflexivity|].
  - codec_seq pi_identity codec_vec16; [by intros ? []|]. intros d Hd.
    codec_seq pi_obfuscated_ticket_age codec_uint32; [by intros ? [[] _]|]. intros a Ha.
    apply codec_ret. intros [d' a']. unfold wf_identity. cbn. naive_solver.
  - intros i _. unfold identity_bytes. cbv beta. by rewrite app_nil_r.
Qed.

Lemma encode_offer_ok identities binders :
  wf_offer identities binders → encode_offered_psks identities binders = Ok (offered_bytes identities binders).
Proof.
  intros [[Hi Hil] [Hb Hbl] _]. unfold encode_offered_psks.
  rewrite (join_ok encode_psk_identity identity_bytes).
  2: { eapply Forall_impl; [exact Hi|]. intros i [Hl Ha]. unfold encode_psk_identity. by rewrite vec_ok, to_bytes_ok. }
  cbn [mbind result_bind]. rewrite vec_ok by done. cbn [mbind result_bind].
  rewrite (join_ok (vec 1) (vec_bytes 1)) by (eapply Forall_impl; [exact Hb|]; intros b Hl; by apply vec_ok).
  cbn [mbind result_bind]. by rewrite vec_ok.
Qed.

Lemma parse_offer_ok identities binders :
  wf_offer identities binders → parse_offered_psks (offered_bytes identities binders) = Ok (identities, binders).
Proof.
  intros [[Hi Hil] [Hb Hbl] Hp]. unfold parse_offered_psks, offered_bytes. rewrite new_buffer_mkbuf.
  erewrite M_bind_ok by (by apply (codec_complete (codec_vec16 _ parse_error_short))).
  erewrite lift_bind by (apply (items_complete parse_error _ _ _ codec_identity); [by intros i H%(f_equal len)|done]).
  rewrite <- (app_nil_r (vec_bytes 2 (concat (vec_bytes 1 <$> binders)))).
  erewrite M_bind_ok by (by apply (codec_complete (codec_vec16 _ parse_error_short))).
  erewrite lift_bind by (apply (items_complete parse_error _ _ _ (codec_vec8 _ parse_error_short)); [by intros b H%(f_equal len)|done]).
  by rewrite Hp, Z.eqb_refl.
Qed.

(** The client's offer of one ticket: its age, and the hello with the 32-byte
    binder [binder] at its end *)
Definition claimed_age (ticket : SessionTicket) (now : Q) : Z :=
  (int_of ((now - st_received_at ticket) * 1000) + st_age_add ticket) mod 2 ^ 32.
Definition offered_identity (ticket : SessionTicket) (now : Q) : PskIdentity :=
  mkPskIdentity (st_identity ticket) (claimed_age ticket now).
Definition early_extension (early : bool) : list Extension := if early then [mkExtension EXT_EARLY_DATA []] else [].
Definition offer_extensions (early : bool) (ticket : SessionTicket) (now : Q) (binder : bytes) : list Extension :=
  early_extension early ++ [mkExtension EXT_PRE_SHARED_KEY (offered_bytes [offered_identity ticket now] [binder])].

(** A configuration with a ticket small enough for one hello *)
Definition wf_offering (config : ClientConfig) (ticket : SessionTicket) : Prop :=
  wf_client_config config ∧
  len (ascii_bytes (cfg_server_name config)) + len (concat (protocol_bytes <$> cfg_alpn config)) +
    len (cfg_transport_parameters config) + len (st_identity ticket) <= 65000.

Lemma wf_offered config ticket now binder :
  wf_offering config ticket → len binder = 32 → wf_offer [offered_identity ticket now] [binder].
Proof.
  intros [_ Hz] Hb. pose proof (len_nonneg (ascii_bytes (cfg_server_name config))).
  pose proof (len_nonneg (concat (protocol_bytes <$> cfg_alpn config))). pose proof (len_nonneg (cfg_transport_parameters config)).
  assert (bits 32 (claimed_age ticket now)) as Ha by (apply Z.mod_pos_bound; done).
  split; [| |done].
  - split; [repeat constructor; try apply Ha; cbn; lia|]. unfold identity_bytes. cbn [fmap list_fmap concat pi_identity offered_identity].
    sizes. lia.
  - split; [repeat constructor; lia|]. cbn [fmap list_fmap concat]. sizes. lia.
Qed.

Section offer.
Context (config : ClientConfig) (random public : bytes) (early : bool) (ticket : SessionTicket) (now : Q).

Definition offering_message (binder : bytes) : ClientHello :=
  mkClientHello random [] (cfg_cipher_suites config) (hello_extensions config public ++ offer_extensions early ticket now binder).

(** The bytes of the hello that the binder covers; [35] bytes follow. *)
Definition hello_prefix : bytes :=
  let identities := vec_bytes 2 (concat (identity_bytes <$> [offered_identity ticket now])) in
  let extensions := concat (ext_bytes <$> (hello_extensions config public ++ early_extension early)) ++
    be_bytes 2 EXT_PRE_SHARED_KEY ++ be_bytes 2 (len identities + 35) ++ identities in
  let body := be_bytes 2 TLS_LEGACY_VERSION ++ random ++ vec_bytes 1 [] ++
    vec_bytes 2 (concat (be_bytes 2 <$> cfg_cipher_suites config)) ++ vec_bytes 1 [x00] ++
    be_bytes 2 (len extensions + 35) ++ extensions in
  be_bytes 1 (handshake_code CLIENT_HELLO) ++ be_bytes 3 (len body + 35) ++ body.
Definition binder_bytes (binder : bytes) : bytes := vec_bytes 2 (vec_bytes 1 binder).

Lemma len_binder_bytes binder : len binder = 32 → len (binder_bytes binder) = 35.
Proof. intros H. unfold binder_bytes. sizes. lia. Qed.

Lemma vec_bytes_tail w a binder :
  len binder = 32 → vec_bytes w (a ++ binder_bytes binder) = be_bytes w (len a + 35) ++ a ++ binder_bytes binder.
Proof. intros Hb. unfold vec_bytes at 1. by rewrite len_app, (len_binder_bytes _ Hb). Qed.

Lemma offering_message_split binder :
  len binder = 32 → message_bytes (HClientHello (offering_message binder)) = hello_prefix ++ binder_bytes binder.
Proof.
  intros Hb. unfold message_bytes, body_bytes, exts_bytes, offering_message, offer_extensions.
  cbn [ch_random ch_legacy_session_id ch_cipher_suites ch_extensions message_type_of].
  rewrite (app_assoc (hello_extensions _ _)), fmap_app, concat_app.
  change (concat (ext_bytes <$> [mkExtension EXT_PRE_SHARED_KEY (offered_bytes [offered_identity ticket now] [binder])]))
    with ((be_bytes 2 EXT_PRE_SHARED_KEY ++ vec_bytes 2 (vec_bytes 2 (concat (identity_bytes <$> [offered_identity ticket now])) ++
            vec_bytes 2 (vec_bytes 1 binder ++ []))) ++ []).
  rewrite !app_nil_r. fold (binder_bytes binder). rewrite (vec_bytes_tail 2 _ binder Hb). unfold hello_prefix.
  set (identities := vec_bytes 2 (concat (identity_bytes <$> _))). set (x := concat (ext_bytes <$> _)).
  set (extensions := x ++ be_bytes 2 EXT_PRE_SHARED_KEY ++ be_bytes 2 (len identities + 35) ++ identities).
  assert (x ++ be_bytes 2 EXT_PRE_SHARED_KEY ++ be_bytes 2 (len identities + 35) ++ identities ++ binder_bytes binder =
    extensions ++ binder_bytes binder) as -> by (unfold extensions; by rewrite <- !app_assoc).
  rewrite (vec_bytes_tail 2 _ binder Hb). clearbody extensions. clear x identities. cbv zeta.
  set (suites := vec_bytes 2 (concat (be_bytes 2 <$> _))). set (body := be_bytes 2 TLS_LEGACY_VERSION ++ random ++ vec_bytes 1 [] ++ suites ++
    vec_bytes 1 [x00] ++ be_bytes 2 (len extensions + 35) ++ extensions).
  match goal with |- _ ++ vec_bytes 3 ?b = _ => assert (b = body ++ binder_bytes binder) as -> end.
  { unfold body. by rewrite <- !app_assoc. }
  rewrite (vec_bytes_tail 3 _ binder Hb). by rewrite <- !app_assoc.
Qed.

Lemma wf_offering_message binder :
  wf_offering config ticket → len random = 32 → len public = 32 → len binder = 32 →
  wf_message (HClientHello (offering_message binder)).
Proof.
  intros Hw Hr Hp Hb. pose proof (wf_offered _ _ now binder Hw Hb) as Ho. destruct Hw as [Hw Hz].
  destruct (wf_hello_message config random public Hw Hr Hp) as [(_ & _ & Hs & He & _) _].
  pose proof (len_nonneg (ascii_bytes (cfg_server_name config))).
  pose proof (len_nonneg (concat (protocol_bytes <$> cfg_alpn config))). pose proof (len_nonneg (cfg_transport_parameters config)).
  pose proof (len_nonneg (st_identity ticket)).
  assert (len (offered_bytes [offered_identity ticket now] [binder]) = len (st_identity ticket) + 43) as Hl.
  { unfold offered_bytes, identity_bytes. cbn [fmap list_fmap concat pi_identity offered_identity]. sizes. lia. }
  assert (len (concat (ext_bytes <$> ch_extensions (offering_message binder))) <= 65500) as Hx.
  { unfold offering_message, offer_extensions, hello_extensions, early_extension, ext_bytes, share_bytes, alpn_bytes.
    destruct early; cbn [ch_extensions app fmap list_fmap concat ext_type ext_data]; sizes; rewrite Hp, Hl; lia. }
  cbn [ch_cipher_suites] in Hs. change (ch_cipher_suites (hello_message config random public)) with (cfg_cipher_suites config) in Hs.
  split.
  - split; [done|]. split; [done|]. split; [exact Hs|]. split; [|lia]. cbn [ch_extensions offering_message]. apply Forall_app_2; [exact He|].
    unfold offer_extensions, early_extension. apply Forall_app_2; [destruct early; repeat constructor; done|].
    repeat constructor; [done..|]. cbn [ext_data]. lia.
  - unfold body_bytes, exts_bytes. sizes. cbn [ch_random ch_legacy_session_id ch_cipher_suites offering_message] in *.
    rewrite Hr. change (len [x00]) with 1. rewrite len_nil. lia.
Qed.

Lemma binder_transcript_ok binder :
  len binder = 32 → binder_transcript (message_bytes (HClientHello (offering_message binder))) 1 = Ok hello_prefix.
Proof.
  intros Hb. rewrite offering_message_split by done. pose proof (len_binder_bytes _ Hb) as Hl. unfold binder_transcript, SHA256_LENGTH.
  assert (0 < len hello_prefix) as Hp.
  { unfold hello_prefix. cbv zeta. rewrite len_app, len_be_bytes, len_app. pose proof (len_nonneg (be_bytes 3 0)).
    match goal with |- context [len (be_bytes 3 ?a)] => pose proof (len_nonneg (be_bytes 3 a)) end.
    match goal with |- context [_ + (_ + len ?a)] => pose proof (len_nonneg a) end. lia. }
  rewrite len_app, Hl. cbn [Z.mul Z.add]. rewrite (proj2 (Z.leb_gt _ _)) by lia.
  replace (len hello_prefix + 35 - _) with (len hello_prefix) by lia. by rewrite Z_to_nat_len, take_app_length.
Qed.

(** The hello as it is sent: the binder is the MAC under the ticket's PSK. *)
Definition binder_mac (psk covered : bytes) : bytes := finished_mac (derive_secret (early_secret (Some psk)) "res binder" []) covered.
Definition bound_hello : ClientHello := offering_message (binder_mac (st_psk ticket) hello_prefix).

Lemma len_binder_mac psk covered : len (binder_mac psk covered) = 32.
Proof. apply hmac_len. Qed.

Lemma binder_bytes_32 binder : len binder = 32 → binder_bytes binder = (be_bytes 2 33 ++ be_bytes 1 32) ++ binder.
Proof. intros Hb. unfold binder_bytes, vec_bytes. rewrite len_app, Hb, len_be_bytes. by rewrite <- app_assoc. Qed.

Lemma fill_psk_binder_ok c :
  hs_schedule (tc_hs c) = new_KeySchedule (Some (st_psk ticket)) →
  let raw := message_bytes (HClientHello bound_hello) in
  fill_psk_binder (message_bytes (HClientHello (offering_message (zeros SHA256_LENGTH)))) c =
    (Ok raw, set_tc_hs (set_hs_schedule (mkKeySchedule raw (early_secret (Some (st_psk ticket)))) (tc_hs c)) c).
Proof.
  intros Hs raw. assert (len (zeros SHA256_LENGTH) = 32) as Hz by reflexivity.
  unfold fill_psk_binder. erewrite lift_bind by (by apply binder_transcript_ok). erewrite (M_bind_ok (on_hs _)) by reflexivity.
  erewrite (M_bind_ok get) by reflexivity. erewrite lift_bind by apply binder_key_ok.
  erewrite lift_bind by apply finished_verify_data_ok.
  cbn [tc_hs set_tc_hs hs_schedule set_hs_schedule update_transcript sch_secret sch_transcript].
  rewrite Hs, new_KeySchedule_eq. cbn [sch_secret sch_transcript app].
  fold (binder_mac (st_psk ticket) hello_prefix). set (binder := binder_mac _ _).
  assert (len binder = 32) as Hb by apply len_binder_mac.
  rewrite offering_message_split, (binder_bytes_32 _ Hz), (app_assoc hello_prefix) by done.
  rewrite length_app. replace (length binder) with (length (zeros SHA256_LENGTH)) by (unfold len in *; lia).
  rewrite Nat.add_sub, take_app_length.
  assert ((hello_prefix ++ be_bytes 2 33 ++ be_bytes 1 32) ++ binder = raw) as ->.
  { unfold raw, bound_hello. fold binder. by rewrite (offering_message_split binder Hb), (binder_bytes_32 _ Hb), <- !app_assoc. }
  assert (hello_prefix ++ drop (length hello_prefix) raw = raw) as Hd
    by (unfold raw, bound_hello; fold binder; by rewrite (offering_message_split binder Hb), drop_app_length).
  erewrite (M_bind_ok (on_hs _)) by reflexivity. unfold mret, M_ret. f_equal.
  unfold update_transcript at 1. cbn [hs_schedule tc_hs set_tc_hs set_hs_schedule sch_transcript sch_secret update_transcript app].
  by rewrite Hd.
Qed.

Lemma psk_offer_ok :
  wf_offering config ticket →
  psk_offer ticket now = Ok (mkExtension EXT_PRE_SHARED_KEY (offered_bytes [offered_identity ticket now] [zeros SHA256_LENGTH])).
Proof.
  intros Hw. pose proof (encode_offer_ok _ _ (wf_offered _ _ now (zeros SHA256_LENGTH) Hw eq_refl)) as E.
  unfold offered_identity, claimed_age in E. unfold psk_offer. cbv zeta. rewrite E. reflexivity.
Qed.

(** ** The server's verdict *)

(** What the server makes of the offered ticket *)
Definition ticket_verdict (sconfig : ServerConfig) : result (option TicketState) :=
  match scfg_ticket_key sconfig with
  | None => Ok None
  | Some key =>
      match open_ticket key (st_identity ticket) now (inject_Z SESSION_TICKET_LIFETIME) with
      | Ok state => Ok (Some state)
      | Raise (TicketError _) => Ok None
      | Raise e => Raise e
      end
  end.

Lemma offered_extension :
  find_extension (ch_extensions bound_hello) EXT_PRE_SHARED_KEY =
    Some (offered_bytes [offered_identity ticket now] [binder_mac (st_psk ticket) hello_prefix]).
Proof. unfold bound_hello, offering_message, offer_extensions. by destruct early. Qed.

Lemma select_psk_ok s verdict :
  wf_offering config ticket → ts_hello_retry_sent s = false → hs_now (ts_hs s) = now →
  ticket_verdict (ts_config s) = Ok verdict → (∀ state, verdict = Some state → tk_psk state = st_psk ticket) →
  select_psk bound_hello (message_bytes (HClientHello bound_hello)) s = Ok ((λ state, (0, state)) <$> verdict).
Proof.
  intros Hw Hr Hn Hv Hp. unfold select_psk. rewrite offered_extension.
  rewrite bool_decide_false by (unfold bound_hello, offering_message, offer_extensions; intros H; apply H; by destruct early).
  change (find_extension (ch_extensions bound_hello) EXT_PSK_KEY_EXCHANGE_MODES) with (Some (vec_bytes 1 [bZ PSK_DHE_KE])).
  cbv beta iota. assert (has_dhe_mode (vec_bytes 1 [bZ PSK_DHE_KE]) = true) as -> by reflexivity. cbn [negb].
  unfold ticket_verdict in Hv. destruct (scfg_ticket_key (ts_config s)) as [key|]; [|by injection Hv as <-].
  rewrite Hr, (parse_offer_ok _ _ (wf_offered _ _ now _ Hw (len_binder_mac _ _))). cbn [mbind result_bind select_loop pi_identity offered_identity].
  rewrite Hn. destruct (open_ticket _ _ _ _) as [state|[]]; simplify_eq; [|done].
  rewrite binder_key_ok. cbn [mbind result_bind]. change (len [_]) with 1.
  unfold bound_hello at 1. rewrite binder_transcript_ok by apply len_binder_mac. cbn [mbind result_bind].
  rewrite finished_verify_data_ok. cbn [mbind result_bind]. change ([?x] !! 0%nat) with (Some x). cbv beta iota.
  rewrite new_KeySchedule_eq, (Hp state eq_refl). cbn [sch_secret]. fold (binder_mac (st_psk ticket) hello_prefix).
  by rewrite bool_decide_false by (intros H; by apply H).
Qed.

(** The ticket still fits what is negotiated. *)
Definition fits (state : TicketState) (protocol : string) (suite : Z) (remembered current : TransportParameters) : bool :=
  bool_decide (tk_alpn state = protocol) && (tk_cipher_suite state =? suite) && negb (reduces_zero_rtt_limits remembered current).

Lemma accepts_early_data_ok state protocol s remembered current :
  wf_offering config ticket →
  decode_transport_parameters (tk_transport_parameters state) = Ok remembered →
  decode_transport_parameters (scfg_transport_parameters (ts_config s)) = Ok current →
  (Qabs.Qabs ((hs_now (ts_hs s) - inject_Z (tk_issued_at state)) * 1000
              - inject_Z ((claimed_age ticket now - tk_age_add state) mod 2 ^ 32)) <= TICKET_AGE_TOLERANCE_MS)%Q →
  accepts_early_data bound_hello (Some (0, state)) protocol s =
    Ok (early && fits state protocol (hs_cipher_suite (ts_hs s)) remembered current).
Proof.
  intros Hw Hr Hc Hf. unfold accepts_early_data, fits, ticket_is_fresh. rewrite offered_extension, Hr, Hc.
  rewrite (parse_offer_ok _ _ (wf_offered _ _ now _ Hw (len_binder_mac _ _))). cbn [mbind result_bind lookup list_lookup Z.to_nat].
  assert (find_extension (ch_extensions bound_hello) EXT_EARLY_DATA = if early then Some [] else None) as ->
    by (unfold bound_hello, offering_message, offer_extensions; by destruct early).
  destruct early; [|done]. cbn [Z.eqb andb]. destruct (bool_decide _ && _); [|done]. cbn [negb andb].
  destruct (reduces_zero_rtt_limits _ _); [done|]. apply Qle_bool_iff in Hf.
  exact (f_equal Ok Hf).
Qed.
End offer.

Lemma int_of_spec t : (0 <= t)%Q → (inject_Z (int_of t) <= t < inject_Z (int_of t) + 1)%Q ∧ 0 <= int_of t.
Proof.
  intros Ht. assert (int_of t = Qround.Qfloor t) as ->.
  { unfold int_of. destruct t as [n d]. unfold Qle in Ht. cbn in *. apply Z.quot_div_nonneg; lia. }
  split; [split; [apply Qround.Qfloor_le|]|].
  - pose proof (Qround.Qlt_floor t) as H. rewrite inject_Z_plus in H. exact H.
  - change 0 with (Qround.Qfloor 0). by apply Qround.Qfloor_resp_le.
Qed.

(** An honest client's claim about the age of its ticket is within the
    server's tolerance. *)
Lemma honest_age key ticket state now :
  matches key ticket state → (0 <= st_received_at ticket <= now)%Q →
  Qltb (inject_Z SESSION_TICKET_LIFETIME) (now - inject_Z (tk_issued_at state)) = false →
  (Qabs.Qabs ((now - inject_Z (tk_issued_at state)) * 1000
              - inject_Z ((claimed_age ticket now - tk_age_add state) mod 2 ^ 32)) <= TICKET_AGE_TOLERANCE_MS)%Q.
Proof.
  intros [_ _ _ Ha _ _ _ Hi _] [Hr Hn] Hx. apply Qltb_ge in Hx. unfold claimed_age. rewrite Ha, Hi in *.
  destruct (int_of_spec _ Hr) as [[Hi1 Hi2] _].
  assert (0 <= (now - st_received_at ticket) * 1000)%Q as Hd by lra.
  destruct (int_of_spec _ Hd) as [[Hd1 Hd2] Hd3]. set (n := int_of ((now - st_received_at ticket) * 1000)) in *.
  assert (n <= 7200000) as Hb.
  { rewrite Zle_Qle. unfold SESSION_TICKET_LIFETIME in Hx. change (inject_Z 7200000) with 7200000%Q. change (inject_Z 7200) with 7200%Q in Hx. lra. }
  assert (((n + tk_age_add state) mod 2 ^ 32 - tk_age_add state) mod 2 ^ 32 = n) as ->.
  { rewrite Zminus_mod_idemp_l, Z.add_simpl_r. apply Z.mod_small. lia. }
  unfold TICKET_AGE_TOLERANCE_MS. apply Qabs.Qabs_Qle_condition. split; lra.
Qed.
End tickets.
