(* ===== verification/TlsAgreement.v ===== *)
(** * Two honest endpoints agree

    A client and a server with compatible configurations complete the
    handshake, and agree: on the application protocol, on each other's
    transport parameters, on the four traffic secrets, which are those of the
    key schedule of RFC 8446 section 7.1 over the transcript, and on the
    session ticket issued at the end.  Proved for any lawful primitives by
    running the two state machines symbolically, from any hello the server
    settles on a [mode] for; here the full handshake, in [TlsResumption] the
    resumed one. *)

From Stdlib Require Import Strings.String QArith.
From S2P Require Import Prelude Buffer Crypto Congestion TransportParameters Retry TlsInterface Handshake Codec.
From S2P Require Import HandshakeProofs KeySchedule TlsCore TlsClient TlsServer TlsRuns TlsReceive KeyDerivation.
From S2P Require Import TlsHonest TlsTickets.
#[local] Open Scope Z_scope.

Section agree.
Context `{HP : Primitives} `{HL : !PrimitiveLaws HP} `{HT : TlsPrimitives} `{HTL : !TlsLaws HT}.

(** ** What the two sides agree on *)

(** The four traffic secrets of RFC 8446 section 7.1, over the transcript to
    the ServerHello and to the server's Finished *)
Definition traffic_secrets (psk : option bytes) (suite : Z) (shared hellos server_finished : bytes) : list SecretAvailable :=
  [mkSecretAvailable L_HANDSHAKE CLIENT (derive_secret (handshake_secret psk shared) "c hs traffic" hellos) suite;
   mkSecretAvailable L_HANDSHAKE SERVER (derive_secret (handshake_secret psk shared) "s hs traffic" hellos) suite;
   mkSecretAvailable L_ONE_RTT CLIENT (derive_secret (master_secret psk shared) "c ap traffic" server_finished) suite;
   mkSecretAvailable L_ONE_RTT SERVER (derive_secret (master_secret psk shared) "s ap traffic" server_finished) suite].

(** The two hellos of a handshake, and the flight behind them *)
Definition hellos (m : mode) (hello : bytes) (se : Entropy) (suite : Z) : bytes :=
  hello ++ message_bytes (HServerHello (answer_message m (en_urandom se 0 32) (x25519_public (en_generate se 1)) suite)).
Definition server_flight (m : mode) (sconfig : ServerConfig) (protocol : string) (shared hellos : bytes) : list HandshakeMessage :=
  flight_messages m sconfig protocol (derive_secret (handshake_secret (psk_of m) shared) "s hs traffic" hellos) hellos.
Definition agreed_secrets (m : mode) (hello : bytes) (se : Entropy) (sconfig : ServerConfig) (suite : Z) (protocol : string)
    (shared : bytes) : list SecretAvailable :=
  let hellos := hellos m hello se suite in
  traffic_secrets (psk_of m) suite shared hellos (hellos ++ stream (server_flight m sconfig protocol shared hellos)).

(** Both sides are connected, resumed or not as [m] says, with the secrets
    [agreed], the parameters the other side sent and, when the server issues
    tickets, one that matches on both sides. *)
Record agree (m : mode) (agreed : list SecretAvailable) (protocol : string) (config : ClientConfig) (sconfig : ServerConfig)
    (c : TlsClient) (s : TlsServer) (client_events server_events : list TlsEvent) : Prop := {
  ag_connected : tc_state c = C_CONNECTED ∧ ts_state s = S_CONNECTED;
  ag_client_secrets : secrets client_events = agreed;
  ag_server_secrets : secrets server_events = agreed;
  ag_client_complete : EvHandshakeComplete (mkHandshakeComplete protocol (scfg_transport_parameters sconfig)) ∈ client_events;
  ag_server_complete : EvHandshakeComplete (mkHandshakeComplete protocol (cfg_transport_parameters config)) ∈ server_events;
  ag_resumed : tc_resumed c = resumes m ∧ ts_resumed s = resumes m;
  ag_early : tc_early_data_accepted c = accepts_early m ∧ ts_early_data_accepted s = accepts_early m;
  ag_early_secret : accepts_early m = true → tc_early_secret c = ts_early_secret s ∧ ts_early_secret s ≠ None;
  ag_ticket : match scfg_ticket_key sconfig with
              | None => tc_session_tickets c = []
              | Some key => ∃ ticket state, tc_session_tickets c = [ticket] ∧ matches key ticket state
              end }.

(** ** What they need for it *)

(** Configurations with a suite and a protocol in common, and random numbers
    of the right size, none of them the one that marks a retry *)
Record negotiable (config : ClientConfig) (sconfig : ServerConfig) (ce se : Entropy) (suite : Z) (protocol : string) (now : Q)
    : Prop := {
  ng_client : wf_client_config config;
  ng_server : wf_server_config sconfig;
  ng_groups : cfg_key_share_groups config = None;
  ng_client_random : len (en_urandom ce 0 32) = 32;
  ng_server_random : len (en_urandom se 0 32) = 32;
  ng_no_retry : en_urandom se 0 32 ≠ HELLO_RETRY_REQUEST_RANDOM;
  ng_suite : common_suite config = Some suite;
  ng_protocol : common_protocol config sconfig = Some protocol;
  ng_tickets key : scfg_ticket_key sconfig = Some key → len key = AES_256_KEY ∧ draws_ok se ∧ 0 <= int_of now < 2 ^ 64 }.

(** A client that has sent a hello on which the server settles for [m] *)
Record ready (m : mode) (config : ClientConfig) (raw : bytes) (suite : Z) (protocol : string) (now : Q) (key : X25519PrivateKey)
    (c : TlsClient) : Prop := {
  rd_state : tc_state c = C_WAIT_SERVER_HELLO;
  rd_config : tc_config c = config;
  rd_keys : tc_keys c = [(X25519_GROUP, key)];
  rd_resumed : tc_resumed c = false;
  rd_accepted : tc_early_data_accepted c = false;
  rd_tickets : tc_session_tickets c = [];
  rd_hs : hs_events (tc_hs c) = [] ∧ hs_now (tc_hs c) = now ∧ hs_buffers (tc_hs c) = mkBuffers [] [] [];
  rd_schedule : hs_schedule (tc_hs (settled m c)) = mkKeySchedule raw (early_secret (psk_of m));
  rd_offered : resumes m = true → cfg_session_ticket config ≠ None;
  rd_early : accepts_early m = true → tc_early_data_offered c = true ∧ tc_early_secret c = early_traffic m raw ∧
    ∃ ticket, cfg_session_ticket config = Some ticket ∧ st_alpn ticket = protocol ∧ st_cipher_suite ticket = suite }.

(** The client once it has taken the ServerHello *)
Record keyed (m : mode) (suite : Z) (protocol : string) (now : Q) (hellos shared : bytes) (c c' : TlsClient) : Prop := {
  ky_state : tc_state c' = C_WAIT_ENCRYPTED_EXTENSIONS;
  ky_config : tc_config c' = tc_config c;
  ky_resumed : tc_resumed c' = resumes m;
  ky_accepted : tc_early_data_accepted c' = false;
  ky_tickets : tc_session_tickets c' = [];
  ky_early_secret : tc_early_secret c' = tc_early_secret c;
  ky_check : accepts_early m = true → check_early_data protocol c' = Ok tt;
  ky_hs : hs_now (tc_hs c') = now ∧ hs_buffers (tc_hs c') = mkBuffers [] [] [] ∧ hs_cipher_suite (tc_hs c') = suite;
  ky_schedule : hs_schedule (tc_hs c') = mkKeySchedule hellos (handshake_secret (psk_of m) shared);
  ky_client_secret : hs_client_secret (tc_hs c') = derive_secret (handshake_secret (psk_of m) shared) "c hs traffic" hellos;
  ky_server_secret : hs_server_secret (tc_hs c') = derive_secret (handshake_secret (psk_of m) shared) "s hs traffic" hellos;
  ky_events : hs_events (tc_hs c') =
    [secret_event L_HANDSHAKE CLIENT suite (hs_client_secret (tc_hs c'));
     secret_event L_HANDSHAKE SERVER suite (hs_server_secret (tc_hs c'))] }.

Lemma keyed_client_keyed m config raw suite protocol now key answer shared c :
  ready m config raw suite protocol now key c →
  keyed m suite protocol now (raw ++ answer) shared c (keyed_client m answer shared suite c).
Proof.
  intros [Hst Hc Hk Hr Ha Ht (He & Hn & Hb) Hs Ho Hearly]. destruct c as [h cfg tk fb res eo ea es rnd ks hr lf al pp st]. cbn in *. subst.
  unfold keyed_client, handshake_secret.
  destruct m as [|state early]; [destruct fb as [k|]|]; cbn in Hs |- *; rewrite ?Hs; split; cbn; rewrite ?Hs, ?He; try done.
  intros ->. destruct (Hearly eq_refl) as (-> & _ & ticket & Et & Eal & Esu). unfold check_early_data. cbn. rewrite Et, Eal, Esu.
  by rewrite bool_decide_false, Z.eqb_refl by (intros H; by apply H).
Qed.

(** ** The exchange *)

Lemma secrets_app l l' : secrets (l ++ l') = secrets l ++ secrets l'.
Proof. apply omap_app. Qed.
Lemma secrets_available l : secrets (EvSecretAvailable <$> l) = l.
Proof. induction l as [|x l IH]; [done|]. cbn [fmap list_fmap]. unfold secrets. cbn [omap list_omap]. f_equal. apply IH. Qed.

Lemma flights_S n now events (c c' : TlsClient) (s s' : TlsServer) cl sl ce se :
  answer now events s = Ok (se, s') → answer now se c = Ok (ce, c') →
  flights (S n) now events c s cl sl = flights n now ce c' s' (cl ++ ce) (sl ++ se).
Proof. intros E1 E2. cbn [flights]. rewrite E1. cbn [mbind result_bind]. rewrite E2. reflexivity. Qed.

Section exchange.
Context (m : mode) (config : ClientConfig) (sconfig : ServerConfig) (ce se : Entropy) (suite : Z) (protocol : string) (now : Q).
Context (share : X25519PrivateKey) (random : bytes) (extra : list Extension) (c : TlsClient) (leaf shared : bytes).

Definition sent_hello : ClientHello :=
  mkClientHello random [] (cfg_cipher_suites config) (hello_extensions config (x25519_public share) ++ extra).
Definition sent_raw : bytes := message_bytes (HClientHello sent_hello).
Definition fresh_server : TlsServer := new_TlsServer sconfig None None se.
Definition asked_server : TlsServer := hello_taken random suite (set_now now fresh_server).

Context (Hng : negotiable config sconfig ce se suite protocol now).
Context (Hwf : wf_message (HClientHello sent_hello)).
Context (Hresolve : resolve_psk_offer sent_hello sent_raw protocol asked_server = (Ok (chosen m), resolved m sent_raw asked_server)).
Context (Hready : ready m config sent_raw suite protocol now share c).
Context (Hproves : proves m config sconfig leaf).
Context (Hclient_shared : x25519_exchange share (x25519_public (en_generate se 1)) = Ok shared).
Context (Hserver_shared : x25519_exchange (en_generate se 1) (x25519_public share) = Ok shared).

Definition x_answer : HandshakeMessage :=
  HServerHello (answer_message m (en_urandom se 0 32) (x25519_public (en_generate se 1)) suite).
Definition x_hellos : bytes := hellos m sent_raw se suite.
Definition x_flight : list HandshakeMessage := server_flight m sconfig protocol shared x_hellos.
Definition x_secrets : list SecretAvailable := agreed_secrets m sent_raw se sconfig suite protocol shared.

Definition x_server : TlsServer :=
  server_answered m config protocol sent_raw random (message_bytes x_answer) shared suite (set_now now fresh_server).

Lemma x_server_answers :
  answer now [EvSendData L_INITIAL sent_raw] fresh_server = Ok (hs_events (ts_hs x_server), cleared x_server).
Proof.
  destruct Hng. refine (answer_ok (T := TlsServer) now _ _ x_server _). unfold deliver. cbn [each].
  erewrite M_bind_ok; [reflexivity|]. apply receive_one; [exact Hwf|done|].
  cbn [handle server_machine]. erewrite server_handle_ok by done. cbv beta iota.
  unfold x_server. apply on_client_hello_ok; try done. apply x25519_public_len.
Qed.

Lemma x_server_events :
  hs_events (ts_hs x_server) =
    [EvSendData L_INITIAL (message_bytes x_answer)] ++ (EvSecretAvailable <$> take 2 x_secrets) ++
    [EvSendData L_HANDSHAKE (stream x_flight)] ++ (EvSecretAvailable <$> drop 2 x_secrets).
Proof. reflexivity. Qed.

Definition x_keyed : TlsClient := keyed_client m (message_bytes x_answer) shared suite c.
Definition x_done : TlsClient := client_completed m sconfig protocol leaf x_keyed.

Lemma x_facts : bits 16 suite ∧ suite ∈ cfg_cipher_suites config ∧ wf_protocol protocol ∧ protocol ∈ cfg_alpn config.
Proof.
  destruct Hng as [Hc _ _ _ _ _ Hs Hp _]. apply common_suite_spec in Hs as [Hs _].
  apply List.find_some in Hp as [_ Hp%bool_decide_eq_true]. destruct Hc as [_ Ha [Hb _] _].
  rewrite Forall_forall in Ha. rewrite Forall_forall in Hb. auto.
Qed.

Lemma x_client_hello : receive L_INITIAL (message_bytes x_answer) now c = (Ok tt, x_keyed).
Proof.
  destruct x_facts as (Hb & Hs & _ & _). destruct Hng, Hready as [? ? ? ? ? ? (? & ? & Hbuf) ? ? ?].
  apply receive_one; [apply wf_answer_message; [done|by rewrite x25519_public_len|done]|unfold buffer_at; cbn [machine_hs client_machine]; by rewrite Hbuf|].
  rewrite set_now_same by done. cbn [handle client_machine]. erewrite client_handle_ok by (by rewrite ?rd_state0).
  unfold x_answer at 1. cbv beta iota.
  eapply on_server_hello_ok; [done|apply x25519_public_len| |done| |done]; by rewrite rd_config0.
Qed.

Lemma x_client_keyed : keyed m suite protocol now x_hellos shared c x_keyed.
Proof. by eapply keyed_client_keyed. Qed.

Lemma x_flight_wf : Forall wf_message x_flight.
Proof.
  destruct x_facts as (_ & _ & Hp & _). destruct Hng as [_ [Ht Hch] _ _ _ _ _ _ _].
  unfold x_flight, server_flight, flight_messages, body_messages. cbv zeta. apply Forall_app_2; [|apply Forall_singleton, wf_finished_mac].
  apply Forall_cons. split; [by apply wf_selection_message|]. destruct (resumes m); [constructor|].
  apply Forall_cons. split; [by apply wf_chain_message|]. apply Forall_singleton, wf_verify_message.
Qed.

Lemma x_client_flight : receive L_HANDSHAKE (stream x_flight) now x_keyed = (Ok tt, x_done).
Proof.
  destruct x_facts as (_ & _ & Hp & Hpc). pose proof x_client_keyed as [Ks Kc Kr _ _ _ Ke (Kn & Kb & _) Kt _ Kv _].
  apply receive_messages; [apply x_flight_wf| |].
  { unfold buffer_at. cbn [machine_hs client_machine]. by rewrite Kb. }
  rewrite set_now_same by exact Kn. unfold x_flight, server_flight. rewrite <- Kv.
  assert (x_hellos = sch_transcript (hs_schedule (tc_hs x_keyed))) as -> by (by rewrite Kt).
  pose proof (rd_config _ _ _ _ _ _ _ _ Hready) as Hc. rewrite Hc in Kc.
  apply client_takes_flight; rewrite ?Kc; done.
Qed.

(** The client's Finished, and everything it says *)
Definition x_finished : HandshakeMessage :=
  finished_message (derive_secret (handshake_secret (psk_of m) shared) "c hs traffic" x_hellos) (x_hellos ++ stream x_flight).
Definition x_client_events : list TlsEvent :=
  (EvSecretAvailable <$> x_secrets) ++
  [EvSendData L_HANDSHAKE (message_bytes x_finished);
   EvHandshakeComplete (mkHandshakeComplete protocol (scfg_transport_parameters sconfig))].

Lemma x_done_hs :
  hs_events (tc_hs x_done) = x_client_events ∧
  hs_schedule (tc_hs x_done) =
    mkKeySchedule ((x_hellos ++ stream x_flight) ++ message_bytes x_finished) (master_secret (psk_of m) shared) ∧
  hs_now (tc_hs x_done) = now ∧ hs_buffers (tc_hs x_done) = mkBuffers [] [] [] ∧ hs_cipher_suite (tc_hs x_done) = suite.
Proof.
  pose proof x_client_keyed as [_ _ _ _ _ _ _ (Kn & Kb & Ku) Kt Kv Kw Ke].
  unfold x_done, client_completed. cbn [tc_hs set_tc_state set_tc_hs]. unfold client_finished, with_application_secrets.
  cbn [hs_events hs_schedule hs_now hs_buffers hs_cipher_suite sent extended set_hs_schedule set_hs_events update_transcript
       sch_transcript sch_secret hs_client_secret hs_server_secret]. rewrite Ke, Kt, Kv, Kw, Ku. auto.
Qed.

Lemma x_client_answers :
  answer now (hs_events (ts_hs x_server)) c = Ok (x_client_events, cleared x_done).
Proof.
  rewrite <- (proj1 x_done_hs). refine (answer_ok (T := TlsClient) now _ _ x_done _).
  rewrite x_server_events. unfold deliver, x_secrets, agreed_secrets, traffic_secrets. cbn [take drop fmap list_fmap app each].
  erewrite M_bind_ok by apply x_client_hello. do 2 (erewrite M_bind_ok by reflexivity).
  erewrite M_bind_ok by apply x_client_flight. reflexivity.
Qed.

(** The server once the Finished has verified, and once it has issued a ticket *)
Definition x_server_finished : TlsServer :=
  let s := cleared x_server in
  set_ts_state S_CONNECTED (set_ts_hs (sent (EvHandshakeComplete (mkHandshakeComplete protocol (cfg_transport_parameters config)))
    (extended (message_bytes x_finished) (ts_hs s))) s).
Definition x_server_done : TlsServer :=
  set_ts_hs (ticketed (scfg_ticket_key sconfig) protocol (scfg_transport_parameters sconfig) (ts_hs x_server_finished)) x_server_finished.
Definition x_ticket (key : bytes) : NewSessionTicket :=
  issued_ticket key (ts_hs x_server_finished) protocol (scfg_transport_parameters sconfig).
Definition x_server_last : list TlsEvent :=
  EvHandshakeComplete (mkHandshakeComplete protocol (cfg_transport_parameters config)) ::
  match scfg_ticket_key sconfig with
  | None => []
  | Some key => [EvSendData L_ONE_RTT (message_bytes (HNewSessionTicket (x_ticket key)))]
  end.

Lemma x_can_issue key :
  scfg_ticket_key sconfig = Some key → can_issue key (ts_hs x_server_finished) protocol (scfg_transport_parameters sconfig).
Proof.
  intros Hk. destruct x_facts as (Hb & _ & Hp & _), Hng as [_ [Ht _] _ _ _ _ _ _ Hi]. destruct (Hi _ Hk) as (? & ? & ?). by split.
Qed.

Lemma x_server_finished_shape :
  let s := cleared x_server in
  ts_state s = S_WAIT_FINISHED ∧ ts_config s = sconfig ∧ ts_alpn s = protocol ∧
  ts_client_transport_parameters s = cfg_transport_parameters config ∧ ts_client_supports_resumption s = true ∧
  hs_now (ts_hs s) = now ∧ hs_buffers (ts_hs s) = mkBuffers [] [] [] ∧
  hs_client_secret (ts_hs s) = derive_secret (handshake_secret (psk_of m) shared) "c hs traffic" x_hellos ∧
  sch_transcript (hs_schedule (ts_hs s)) = x_hellos ++ stream x_flight.
Proof. done. Qed.

Lemma x_server_finishes : answer now x_client_events (cleared x_server) = Ok (x_server_last, cleared x_server_done).
Proof.
  assert (receive L_HANDSHAKE (message_bytes x_finished) now (cleared x_server) = (Ok tt, x_server_done)) as Hr.
  { pose proof x_can_issue as Hi. unfold x_server_done. fold (ts_config x_server_finished).
    destruct x_server_finished_shape as (Es & Ec & Ea & Et & Eu & En & Eb & Ev & Er). unfold x_server_finished in *. cbv zeta in *.
    generalize dependent (cleared x_server). intros s Hi Es Ec Ea Et Eu En Eb Ev Er.
    apply receive_one; [apply wf_finished_mac|unfold buffer_at; cbn [machine_hs server_machine]; by rewrite Eb|].
    rewrite set_now_same by exact En. cbn [handle server_machine]. unfold x_finished at 1, finished_message.
    erewrite server_handle_ok by (by rewrite ?Es). cbv beta iota. rewrite <- Ev, <- Er.
    apply on_client_finished_ok. rewrite Ea, Et. rewrite issue_session_ticket_ok; [|done|].
    - cbn [ts_config ts_alpn ts_hs set_ts_state set_ts_hs]. by rewrite Ec, Ea.
    - cbn [ts_config ts_alpn ts_hs set_ts_state set_ts_hs]. rewrite Ec, Ea. exact Hi. }
  assert (hs_events (ts_hs x_server_done) = x_server_last) as Hl.
  { unfold x_server_done, x_server_last, x_ticket. by destruct (scfg_ticket_key sconfig). }
  rewrite <- Hl. refine (answer_ok (T := TlsServer) now _ _ x_server_done _).
  unfold x_client_events, x_secrets, agreed_secrets, traffic_secrets, deliver. cbn [fmap list_fmap app each].
  do 4 (erewrite M_bind_ok by reflexivity). erewrite M_bind_ok by exact Hr. reflexivity.
Qed.

(** The client keeps the ticket. *)
Definition x_stored (key : bytes) : SessionTicket := stored_ticket (x_ticket key) (cleared x_done).
Definition x_client_last : TlsClient :=
  match scfg_ticket_key sconfig with
  | None => cleared x_done
  | Some key => set_tc_session_tickets [x_stored key] (cleared x_done)
  end.

Lemma x_done_shape :
  tc_state x_done = C_CONNECTED ∧ tc_alpn x_done = protocol ∧ tc_peer_transport_parameters x_done = scfg_transport_parameters sconfig ∧
  tc_session_tickets x_done = [] ∧ tc_resumed x_done = resumes m ∧ tc_early_data_accepted x_done = accepts_early m ∧
  tc_early_secret x_done = tc_early_secret c.
Proof.
  pose proof x_client_keyed as [_ _ Kr Ka Kt Ks _ _ _ _ _ _]. unfold x_done, client_completed, leaf_taken, selection_taken.
  generalize dependent x_keyed. intros k Kr Ka Kt Ks. destruct m as [|? []]; cbn in *; repeat split; assumption.
Qed.

Lemma client_stores_ticket key h alpn parameters k :
  can_issue key h alpn parameters → tc_state k = C_CONNECTED → tc_session_tickets k = [] → hs_now (tc_hs k) = now →
  hs_buffers (tc_hs k) = mkBuffers [] [] [] →
  let t := issued_ticket key h alpn parameters in
  receive L_ONE_RTT (message_bytes (HNewSessionTicket t)) now k = (Ok tt, set_tc_session_tickets [stored_ticket t k] k).
Proof.
  intros Hi Hs Ht Hn Hb t.
  apply receive_one; [by apply wf_issued_ticket|unfold buffer_at; cbn [machine_hs client_machine]; by rewrite Hb|].
  rewrite set_now_same by exact Hn. cbn [handle client_machine]. unfold client_handle. erewrite (M_bind_ok get) by reflexivity.
  rewrite bool_decide_true by exact Hs. cbv beta iota. unfold t at 1. erewrite store_session_ticket_ok by exact Hi.
  by rewrite Ht.
Qed.

Lemma x_client_stores : answer now x_server_last (cleared x_done) = Ok ([], cleared x_client_last).
Proof.
  pose proof x_can_issue as Hi. destruct x_done_shape as (Hs & _ & _ & Ht & _), x_done_hs as (_ & _ & Hn & Hb & _).
  unfold x_server_last, x_client_last. destruct (scfg_ticket_key sconfig) as [key|]; [|reflexivity].
  pose proof (client_stores_ticket _ _ _ _ (cleared x_done) (Hi key eq_refl) Hs Ht Hn Hb) as Hr. fold (x_ticket key) in Hr.
  refine (answer_ok (T := TlsClient) now _ _ (set_tc_session_tickets [x_stored key] (cleared x_done)) _).
  unfold deliver. cbn [each]. erewrite M_bind_ok by reflexivity. erewrite M_bind_ok by exact Hr. reflexivity.
Qed.

Lemma cleared_hs (k : TlsClient) :
  hs_schedule (tc_hs (cleared k)) = hs_schedule (tc_hs k) ∧ hs_cipher_suite (tc_hs (cleared k)) = hs_cipher_suite (tc_hs k) ∧
  hs_now (tc_hs (cleared k)) = hs_now (tc_hs k) ∧ tc_alpn (cleared k) = tc_alpn k ∧
  tc_peer_transport_parameters (cleared k) = tc_peer_transport_parameters k.
Proof. done. Qed.

Lemma x_server_finished_hs :
  hs_schedule (ts_hs x_server_finished) =
    mkKeySchedule ((x_hellos ++ stream x_flight) ++ message_bytes x_finished) (master_secret (psk_of m) shared) ∧
  hs_now (ts_hs x_server_finished) = now ∧ hs_cipher_suite (ts_hs x_server_finished) = suite.
Proof. done. Qed.

Lemma x_ticket_matches key :
  scfg_ticket_key sconfig = Some key → ∃ state, matches key (x_stored key) state.
Proof.
  intros Hk. pose proof (x_can_issue _ Hk) as Hi. destruct x_done_shape as (_ & Ha & Hp & _), x_done_hs as (_ & Hsch & Hn & _ & Hu).
  destruct x_server_finished_hs as (Gs & Gn & Gu), (cleared_hs x_done) as (Cs & Cu & Cn & Ca & Cp).
  exists (issued_state (ts_hs x_server_finished) protocol (scfg_transport_parameters sconfig)). unfold x_stored, x_ticket.
  generalize dependent (cleared x_done). intros k Cs Cu Cn Ca Cp.
  generalize dependent (ts_hs x_server_finished). intros h Hi Gs Gn Gu.
  apply stored_matches; [exact Hi|by rewrite Cs, Gs|by rewrite Cu, Gu|by rewrite Cn, Gn|by rewrite Ca|by rewrite Cp].
Qed.

Lemma x_server_done_shape :
  let s := cleared x_server_done in
  ts_state s = S_CONNECTED ∧ ts_resumed s = resumes m ∧ ts_early_data_accepted s = accepts_early m ∧
  ts_early_secret s = early_traffic m sent_raw.
Proof. done. Qed.

Lemma x_last_shape :
  let k := cleared x_client_last in
  tc_state k = C_CONNECTED ∧ tc_resumed k = resumes m ∧ tc_early_data_accepted k = accepts_early m ∧
  tc_early_secret k = tc_early_secret c ∧
  tc_session_tickets k = match scfg_ticket_key sconfig with None => [] | Some key => [x_stored key] end.
Proof.
  destruct x_done_shape as (Hs & _ & _ & Ht & Hr & Ha & He). unfold x_client_last. generalize dependent x_done.
  intros k Hs Ht Hr Ha He. destruct (scfg_ticket_key sconfig); cbn; auto.
Qed.

(** The handshake, from the client's first flight on *)
Lemma exchange_agrees :
  let first := [EvSendData L_INITIAL sent_raw] in
  ∃ c' s client_events server_events,
    flights 2 now first c fresh_server first [] = Ok (c', s, client_events, server_events) ∧
    agree m x_secrets protocol config sconfig c' s client_events server_events.
Proof.
  intros first. exists (cleared x_client_last), (cleared x_server_done), ((first ++ x_client_events) ++ []),
    (([] ++ hs_events (ts_hs x_server)) ++ x_server_last).
  split; [rewrite (flights_S _ _ _ _ _ _ _ _ _ _ _ x_server_answers x_client_answers),
            (flights_S _ _ _ _ _ _ _ _ _ _ _ x_server_finishes x_client_stores); reflexivity|].
  destruct x_server_done_shape as (Ss & Sr & Sa & Se), x_last_shape as (Cs & Cr & Ca & Ce & Ct).
  assert (secrets x_server_last = []) as Hl by (unfold x_server_last; by destruct (scfg_ticket_key sconfig)).
  split.
  - by split.
  - unfold x_client_events. rewrite !secrets_app, secrets_available. cbn [secrets omap list_omap first app]. by rewrite !app_nil_r.
  - rewrite x_server_events, !secrets_app, !secrets_available, Hl. cbn [secrets omap list_omap app]. by rewrite app_nil_r, take_drop.
  - unfold x_client_events. set_solver.
  - unfold x_server_last. set_solver.
  - by rewrite Cr, Sr.
  - by rewrite Ca, Sa.
  - intros Hm. rewrite Ce, Se. destruct (rd_early _ _ _ _ _ _ _ _ Hready Hm) as (_ & -> & _). split; [done|].
    unfold early_traffic. by rewrite Hm.
  - rewrite Ct. pose proof x_ticket_matches as Ht. destruct (scfg_ticket_key sconfig) as [key|]; [|done].
    destruct (Ht key eq_refl) as [state Hm]. by exists (x_stored key), state.
Qed.
End exchange.

(** ** The full handshake *)

Lemma new_client_ok config ce :
  cfg_session_ticket config = None → cfg_key_share_groups config = None →
  new_TlsClient config None None ce =
    mkTlsClient (mkHandshakeState (new_KeySchedule None) [] 0 (mkBuffers [] [] []) [] [] (en_urandom ce 0 32)
                   TLS_AES_128_GCM_SHA256 ce 2)
      config [] None false false false None (en_urandom ce 0 32) [(X25519_GROUP, en_generate ce 1)] false [] "" [] C_START.
Proof. intros Ht Hg. unfold new_TlsClient, draw_keys. rewrite Ht, Hg. reflexivity. Qed.

(** The first hello of a client without a ticket *)
Definition plain_hello (config : ClientConfig) (ce : Entropy) : bytes :=
  message_bytes (HClientHello (hello_message config (en_urandom ce 0 32) (x25519_public (en_generate ce 1)))).

(** A hello without a ticket settles for a full handshake. *)
Lemma plain_resolve config random public raw protocol s :
  let hello := hello_message config random public in
  hs_schedule (ts_hs s) = new_KeySchedule None → ts_early_secret s = None →
  resolve_psk_offer hello raw protocol s = (Ok (chosen FULL), resolved FULL raw s).
Proof. intros hello Hs He. by apply (resolve_psk_offer_ok FULL _ _ _ (vec_bytes 1 [bZ PSK_DHE_KE])). Qed.

(** C2: two honest endpoints with compatible configurations (a cipher suite and
    an application protocol in common, a chain the client trusts for the
    server's signing key) complete the full handshake and agree.  Two flights
    from each side leave both [CONNECTED] and not resumed; both have emitted the
    same four traffic secrets, in the same order, and these are the ones RFC
    8446 section 7.1 derives from the key exchange and the transcript; each side
    reports the common protocol and the transport parameters the other one sent;
    and a server with a ticket key leaves the client exactly one session ticket,
    which opens under that key to the PSK the client has kept. *)
Theorem handshake_agreement config sconfig ce se suite protocol now leaf
  (Hng : negotiable config sconfig ce se suite protocol now)
  (Hfull : cfg_session_ticket config = None) (Hproves : proves FULL config sconfig leaf) :
  ∃ shared c s client_events server_events,
    x25519_exchange (en_generate ce 1) (x25519_public (en_generate se 1)) = Ok shared ∧
    run_handshake 2 now (new_TlsClient config None None ce) (new_TlsServer sconfig None None se) =
      Ok (c, s, client_events, server_events) ∧
    agree FULL (agreed_secrets FULL (plain_hello config ce) se sconfig suite protocol shared) protocol config sconfig
      c s client_events server_events.
Proof.
  destruct (x25519_agree (en_generate ce 1) (en_generate se 1)) as (shared & Hx & Hy).
  pose proof (new_client_ok config ce Hfull (ng_groups _ _ _ _ _ _ _ Hng)) as Hc.
  assert (begin_handshake now (new_TlsClient config None None ce) =
    Ok ([EvSendData L_INITIAL (plain_hello config ce)], cleared (started now (plain_hello config ce) (new_TlsClient config None None ce)))) as Hb.
  { destruct Hng. unfold begin_handshake. rewrite Hc. erewrite start_ok by done. reflexivity. }
  unfold run_handshake. rewrite Hb, result_bind_ok. cbv beta iota.
  destruct (exchange_agrees FULL config sconfig ce se suite protocol now (en_generate ce 1) (en_urandom ce 0 32) []
    (cleared (started now (plain_hello config ce) (new_TlsClient config None None ce))) leaf shared Hng)
    as (c & s & cl & sl & Hr & Ha).
  - destruct Hng. apply wf_hello_message; [done|done|apply x25519_public_len].
  - by apply plain_resolve.
  - rewrite Hc. by split.
  - done.
  - done.
  - done.
  - exists shared, c, s, cl, sl. split; [done|]. split; [exact Hr|exact Ha].
Qed.
End agree.

(** ** Witness *)

Definition sample_leaf : bytes := sample_certificate.

Lemma sample_negotiable ticket :
  negotiable (sample_client_config ticket None) sample_server_config (sample_entropy 3) (sample_entropy 5)
    TLS_AES_128_GCM_SHA256 "hq-interop" 0.
Proof.
  split; [| |reflexivity..| |vm_compute; reflexivity|vm_compute; reflexivity|].
  - split; [reflexivity| | |apply Z.leb_le; vm_compute; reflexivity].
    + repeat constructor; apply Z.ltb_lt; vm_compute; reflexivity.
    + split; [|reflexivity]. repeat constructor; try (apply Z.leb_le; reflexivity); apply Z.ltb_lt; reflexivity.
  - split; [apply Z.leb_le; vm_compute; reflexivity|apply Z.ltb_lt; vm_compute; reflexivity].
  - intros E%(f_equal (λ l, bool_decide (l = HELLO_RETRY_REQUEST_RANDOM))). vm_compute in E. discriminate.
  - intros key [= <-]. split; [reflexivity|]. split; [|done]. intros i n Hn. cbn [en_urandom sample_entropy].
    rewrite len_be_bytes. lia.
Qed.

Lemma sample_proves config : cfg_ca_certificates config = [sample_certificate] → proves FULL config sample_server_config sample_leaf.
Proof.
  intros Hc _. exists []. split; [reflexivity|]. split; [|eexists; split; reflexivity].
  right. unfold verify_certificate_policy. rewrite Hc. vm_compute. reflexivity.
Qed.

Lemma handshake_agreement_witness :
  ∃ c s client_events server_events ticket state,
    run_handshake 2 0 (new_TlsClient (sample_client_config None None) None None (sample_entropy 3))
      (new_TlsServer sample_server_config None None (sample_entropy 5)) = Ok (c, s, client_events, server_events) ∧
    secrets server_events = secrets client_events ∧ tc_session_tickets c = [ticket] ∧ matches (zeros 32) ticket state.
Proof.
  destruct (handshake_agreement (sample_client_config None None) _ _ _ _ _ 0 sample_leaf (sample_negotiable None) eq_refl
    (sample_proves (sample_client_config None None) eq_refl))
    as (sh & c & s & cl & sl & _ & Hr & [_ Hc Hs _ _ _ _ _ (ticket & state & Ht & Hm)]).
  exists c, s, cl, sl, ticket, state. split; [exact Hr|]. split; [by rewrite Hs, Hc|]. by split.
Defined.
