(* ===== verification/TlsResumption.v ===== *)
(** * Two honest endpoints resume

    A client that offers a session ticket and a server that may know its key
    complete the handshake and agree ([agree]), whatever the server makes of
    the ticket: it resumes from it, with or without the 0-RTT data the client
    asked for, or falls back to a full handshake.  Proved by handing the hello
    of [TlsTickets] to the exchange of [TlsAgreement]. *)

From Stdlib Require Import Strings.String QArith.
From S2P Require Import Prelude Buffer Crypto Congestion TransportParameters Retry TlsInterface Handshake Codec.
From S2P Require Import HandshakeProofs KeySchedule TlsCore TlsClient TlsServer TlsRuns TlsReceive KeyDerivation.
From S2P Require Import TlsHonest TlsTickets TlsAgreement.
#[local] Open Scope Z_scope.

Section resumption.
Context `{HP : Primitives} `{HL : !PrimitiveLaws HP} `{HT : TlsPrimitives} `{HTL : !TlsLaws HT}.

(** ** The offering client *)

Section offering.
Context (config : ClientConfig) (ticket : SessionTicket) (ce : Entropy) (now : Q).

(** The client asks for 0-RTT. *)
Definition wants_early : bool :=
  cfg_early_data config && (st_max_early_data_size ticket =? MAX_EARLY_DATA_SIZE) &&
  bool_decide (st_cipher_suite ticket ∈ cfg_cipher_suites config).

Definition psk_hello : ClientHello :=
  bound_hello config (en_urandom ce 0 32) (x25519_public (en_generate ce 1)) wants_early ticket now.
Definition psk_raw : bytes := message_bytes (HClientHello psk_hello).

Definition offering_client : TlsClient :=
  let key := early_secret (Some (st_psk ticket)) in
  mkTlsClient
    (mkHandshakeState (mkKeySchedule psk_raw key) [] now (mkBuffers [] [] []) [] [] (en_urandom ce 0 32)
       (if wants_early then st_cipher_suite ticket else TLS_AES_128_GCM_SHA256) ce 2)
    config [] (Some (mkKeySchedule psk_raw (early_secret None))) false wants_early false
    (if wants_early then Some (derive_secret key "c e traffic" psk_raw) else None)
    (en_urandom ce 0 32) [(X25519_GROUP, en_generate ce 1)] false [] "" [] C_WAIT_SERVER_HELLO.

Context (Hticket : cfg_session_ticket config = Some ticket) (Hgroups : cfg_key_share_groups config = None).
Context (Hsize : wf_offering config ticket) (Hrandom : len (en_urandom ce 0 32) = 32).

(** The state [new_TlsClient] gives, with the clock set *)
Definition unsent_client : TlsClient :=
  mkTlsClient
    (mkHandshakeState (new_KeySchedule (Some (st_psk ticket))) [] now (mkBuffers [] [] []) [] [] (en_urandom ce 0 32)
       TLS_AES_128_GCM_SHA256 ce 2)
    config [] (Some (new_KeySchedule None)) false false false None (en_urandom ce 0 32) [(X25519_GROUP, en_generate ce 1)]
    false [] "" [] C_START.

(** and once the hello is built *)
Definition built_client : TlsClient :=
  let c := set_tc_early_data_offered wants_early unsent_client in
  if wants_early then set_tc_hs (set_hs_cipher_suite (st_cipher_suite ticket) (tc_hs c)) c else c.

Lemma build_offer_ok :
  build_client_hello unsent_client =
    (Ok (offering_message config (en_urandom ce 0 32) (x25519_public (en_generate ce 1)) wants_early ticket now (zeros SHA256_LENGTH)),
     built_client).
Proof.
  unfold build_client_hello. erewrite (M_bind_ok get) by reflexivity.
  assert (offers_early_data unsent_client = wants_early) as ->
    by (unfold offers_early_data; cbn [tc_config unsent_client tc_hello_retried]; rewrite Hticket; apply andb_true_r).
  erewrite (M_bind_ok (modify _)) by reflexivity. cbn [tc_config unsent_client]. rewrite Hticket.
  rewrite (M_bind_ok _ _ _ tt built_client) by (unfold built_client; by destruct wants_early).
  erewrite (M_bind_ok get) by reflexivity.
  assert (tc_keys built_client = [(X25519_GROUP, en_generate ce 1)] ∧ tc_config built_client = config ∧
    hs_now (tc_hs built_client) = now ∧ tc_random built_client = en_urandom ce 0 32) as (Hk & Hc & Hn & Hr)
    by (unfold built_client; by destruct wants_early).
  erewrite lift_bind.
  2: { erewrite client_extensions_ok by (try exact Hk; rewrite Hc; apply Hsize). rewrite Hc, Hticket, Hn.
       rewrite (psk_offer_ok config) by done. cbn [mbind result_bind]. reflexivity. }
  rewrite Hc, Hr. reflexivity.
Qed.

Lemma built_client_hs :
  hs_schedule (tc_hs built_client) = new_KeySchedule (Some (st_psk ticket)) ∧ tc_config built_client = config ∧
  tc_fallback_schedule built_client = Some (new_KeySchedule None) ∧ tc_early_data_offered built_client = wants_early.
Proof. unfold built_client. by destruct wants_early. Qed.

Lemma begin_offer :
  begin_handshake now (new_TlsClient config None None ce) = Ok ([EvSendData L_INITIAL psk_raw], offering_client).
Proof.
  assert (new_TlsClient config None None ce = set_tc_hs (set_hs_now 0 (tc_hs unsent_client)) unsent_client) as ->
    by (unfold new_TlsClient, draw_keys; by rewrite Hticket, Hgroups).
  assert (start now (set_tc_hs (set_hs_now 0 (tc_hs unsent_client)) unsent_client) =
    (Ok tt, set_tc_hs (set_hs_events [EvSendData L_INITIAL psk_raw] (tc_hs offering_client)) offering_client)) as E;
    [|unfold begin_handshake; rewrite E; reflexivity].
  unfold start. rewrite (M_bind_ok (on_hs _) _ _ tt unsent_client) by reflexivity.
  destruct built_client_hs as (Hs & Hc & Hf & Ho).
  erewrite (M_bind_ok send_client_hello).
  2: { unfold send_client_hello. erewrite M_bind_ok by exact build_offer_ok.
       erewrite lift_bind by (apply (encode_message_ok (HClientHello _)), wf_offering_message; [done|done|apply x25519_public_len|done]).
       erewrite (M_bind_ok get) by reflexivity. rewrite Hc, Hticket.
       erewrite M_bind_ok by (by apply fill_psk_binder_ok). fold psk_hello psk_raw.
       erewrite (M_bind_ok (with_fallback _)).
       2: { unfold with_fallback. erewrite (M_bind_ok get) by reflexivity.
            cbn [tc_fallback_schedule set_tc_hs]. rewrite Hf. erewrite lift_bind by reflexivity. reflexivity. }
       reflexivity. }
  erewrite (M_bind_ok get) by reflexivity. cbn [tc_early_data_offered set_tc_fallback_schedule set_tc_hs]. rewrite Ho.
  unfold offering_client, built_client. destruct wants_early; cbn [when].
  - erewrite M_bind_ok by (erewrite lift_bind by (by apply derive_ok); reflexivity).
    erewrite (M_bind_ok (on_hs _)) by reflexivity. reflexivity.
  - erewrite M_bind_ok by reflexivity. erewrite (M_bind_ok (on_hs _)) by reflexivity. reflexivity.
Qed.
End offering.

(** ** The server's choice *)

(** What comes of the server's verdict: a full handshake, or a resumed one
    whose 0-RTT data is accepted when the client asked for it and the ticket
    still fits *)
Definition outcome (config : ClientConfig) (ticket : SessionTicket) (suite : Z) (protocol : string)
    (remembered current : TransportParameters) (verdict : option TicketState) : mode :=
  match verdict with
  | None => FULL
  | Some state => RESUMED state (wants_early config ticket && fits state protocol suite remembered current)
  end.

(** The verdict on a ticket this server issued: it matches, and both sides'
    transport parameters decode. *)
Definition own_ticket (sconfig : ServerConfig) (ticket : SessionTicket) (remembered current : TransportParameters)
    (state : TicketState) : Prop :=
  (∃ key, scfg_ticket_key sconfig = Some key ∧ matches key ticket state) ∧
  decode_transport_parameters (tk_transport_parameters state) = Ok remembered ∧
  decode_transport_parameters (scfg_transport_parameters sconfig) = Ok current.

Section choice.
Context (config : ClientConfig) (sconfig : ServerConfig) (ce se : Entropy) (suite : Z) (protocol : string) (now : Q).
Context (ticket : SessionTicket) (verdict : option TicketState) (remembered current : TransportParameters).
Context (Hticket : cfg_session_ticket config = Some ticket) (Hsize : wf_offering config ticket).
Context (Hverdict : ticket_verdict ticket now sconfig = Ok verdict) (Hnow : (0 <= st_received_at ticket <= now)%Q).
Context (Hown : ∀ state, verdict = Some state → own_ticket sconfig ticket remembered current state).

#[local] Notation m := (outcome config ticket suite protocol remembered current verdict).
#[local] Notation raw := (psk_raw config ticket ce now).

Lemma verdict_psk state : verdict = Some state → tk_psk state = st_psk ticket.
Proof. intros Hv. destruct (Hown _ Hv) as ((key & _ & Hm) & _). by rewrite (mt_psk _ _ _ Hm). Qed.

(** A ticket that has been accepted is not expired. *)
Lemma verdict_alive state :
  verdict = Some state → Qltb (inject_Z SESSION_TICKET_LIFETIME) (now - inject_Z (tk_issued_at state)) = false.
Proof.
  intros Hv. destruct (Hown _ Hv) as ((key & Hk & Hm) & _). unfold ticket_verdict in Hverdict. rewrite Hk, (mt_opens _ _ _ Hm), Hv in Hverdict.
  by destruct (Qltb _ _).
Qed.

Lemma offer_resolved :
  let s := asked_server sconfig se suite now (en_urandom ce 0 32) in
  resolve_psk_offer (psk_hello config ticket ce now) raw protocol s = (Ok (chosen m), resolved m raw s).
Proof.
  intros s. apply (resolve_psk_offer_ok m _ _ _ (vec_bytes 1 [bZ PSK_DHE_KE])); [done|done| |done|done|].
  - etrans; [exact (select_psk_ok config _ _ _ ticket now s verdict Hsize eq_refl eq_refl Hverdict verdict_psk)|].
    by destruct verdict.
  - pose proof verdict_alive as Halive. destruct verdict as [state|] eqn:Ev;
      [|unfold accepts_early_data; by destruct (find_extension (ch_extensions _) EXT_EARLY_DATA)].
    destruct (Hown state eq_refl) as ((key & Hk & Hm) & Hr & Hc).
    etrans; [apply (accepts_early_data_ok config _ _ _ ticket now state protocol
              (set_ts_client_supports_resumption true (set_ts_resumed true s)) remembered current Hsize Hr Hc)|done].
    apply (honest_age key ticket state now Hm Hnow). by apply Halive.
Qed.

Lemma offer_ready : ready m config raw suite protocol now (en_generate ce 1) (offering_client config ticket ce now).
Proof.
  pose proof verdict_psk as Hp. split; try done.
  - destruct verdict as [state|]; [|done]. cbn [outcome psk_of]. rewrite (Hp state eq_refl). reflexivity.
  - intros _. by rewrite Hticket.
  - destruct verdict as [state|]; [|done]. cbn [outcome accepts_early]. intros [Hw Hf]%andb_true_iff.
    unfold early_traffic. cbn [outcome accepts_early psk_of]. rewrite Hw, Hf, (Hp state eq_refl). cbn [andb tc_early_data_offered tc_early_secret offering_client].
    rewrite Hw. split; [done|]. split; [done|]. exists ticket. split; [done|].
    destruct (Hown state eq_refl) as ((key & _ & Hm) & _). rewrite (mt_alpn _ _ _ Hm), (mt_suite _ _ _ Hm).
    unfold fits in Hf. apply andb_true_iff in Hf as [[Ha%bool_decide_eq_true Hs%Z.eqb_eq]%andb_true_iff _]. done.
Qed.
End choice.

(** ** Theorem *)

(** C3: an offered session ticket never breaks the agreement.  A client that
    offers a ticket to a compatible server, one way or the other, completes
    the handshake with it in agreement.  When the server's key opens the ticket
    and it has not expired, both sides report a resumed handshake, without any
    certificate, and the traffic secrets are those RFC 8446 derives from the
    ticket's PSK; 0-RTT data is accepted, by both sides with the same early
    secret, exactly when the client asked for it, the protocol and the suite
    are those of the ticket and no limit remembered with it is lower now.  When the server has no ticket key,
    or refuses the ticket with [TicketError], both fall back to the secrets of
    a full handshake, and no 0-RTT data is accepted. *)
Theorem resumption_agreement config sconfig ce se suite protocol now ticket verdict remembered current leaf
  (Hng : negotiable config sconfig ce se suite protocol now)
  (Hticket : cfg_session_ticket config = Some ticket) (Hsize : wf_offering config ticket)
  (Hnow : (0 <= st_received_at ticket <= now)%Q)
  (Hverdict : ticket_verdict ticket now sconfig = Ok verdict)
  (Hown : ∀ state, verdict = Some state → own_ticket sconfig ticket remembered current state)
  (Hproves : verdict = None → proves FULL config sconfig leaf) :
  let m := outcome config ticket suite protocol remembered current verdict in
  ∃ shared c s client_events server_events,
    x25519_exchange (en_generate ce 1) (x25519_public (en_generate se 1)) = Ok shared ∧
    run_handshake 2 now (new_TlsClient config None None ce) (new_TlsServer sconfig None None se) =
      Ok (c, s, client_events, server_events) ∧
    agree m (agreed_secrets m (psk_raw config ticket ce now) se sconfig suite protocol shared) protocol config sconfig
      c s client_events server_events.
Proof.
  intros m. destruct (x25519_agree (en_generate ce 1) (en_generate se 1)) as (shared & Hx & Hy).
  pose proof Hng as [_ _ Hg Hr _ _ _ _ _]. unfold run_handshake. rewrite (begin_offer config ticket) by done.
  rewrite result_bind_ok. cbv beta iota.
  destruct (exchange_agrees m config sconfig ce se suite protocol now (en_generate ce 1) (en_urandom ce 0 32)
    (offer_extensions (wants_early config ticket) ticket now (binder_mac (st_psk ticket) (hello_prefix config (en_urandom ce 0 32)
      (x25519_public (en_generate ce 1)) (wants_early config ticket) ticket now)))
    (offering_client config ticket ce now) leaf shared Hng) as (c & s & cl & sl & Hrun & Ha).
  - apply (wf_offering_message config); [done|done|apply x25519_public_len|apply len_binder_mac].
  - eapply offer_resolved; eassumption.
  - eapply offer_ready; eassumption.
  - unfold m. destruct verdict; [done|]. intros _. by apply Hproves.
  - done.
  - done.
  - exists shared, c, s, cl, sl. split; [done|]. split; [exact Hrun|exact Ha].
Qed.
End resumption.

(** ** Witness: a resumption with 0-RTT data *)

Definition sample_state : TicketState :=
  mkTicketState (zeros 32) 7 "hq-interop" sample_parameters 0 TLS_AES_128_GCM_SHA256.
Definition sample_session_ticket : SessionTicket :=
  mkSessionTicket (sealed_ticket (zeros 12) (zeros 32) sample_state) (zeros 32) 7 SESSION_TICKET_LIFETIME 0 MAX_EARLY_DATA_SIZE
    "hq-interop" sample_parameters TLS_AES_128_GCM_SHA256.
Definition resuming_config : ClientConfig := sample_client_config (Some sample_session_ticket) None.

Lemma sample_state_wf : wf_ticket sample_state.
Proof. split; cbn; unfold bits, wf_protocol; repeat split; try done; apply Z.ltb_lt; vm_compute; reflexivity. Qed.

Lemma sample_matches : matches (zeros 32) sample_session_ticket sample_state.
Proof.
  destruct (seal_ticket_ok (zeros 32) (zeros 12) sample_state eq_refl eq_refl sample_state_wf) as (sealed & E & D & _).
  split; try reflexivity; [exact sample_state_wf|]. intros now lifetime. unfold sample_session_ticket, sealed_ticket. cbn [st_identity]. rewrite E.
  exact (open_ticket_sealed (zeros 32) (zeros 12) sealed sample_state now lifetime eq_refl sample_state_wf D).
Qed.

Lemma sample_offering : wf_offering resuming_config sample_session_ticket.
Proof.
  split; [exact (ng_client _ _ _ _ _ _ _ (sample_negotiable (Some sample_session_ticket)))|].
  apply Z.leb_le. vm_compute. reflexivity.
Qed.

Lemma resumption_agreement_witness :
  ∃ c s client_events server_events,
    run_handshake 2 0 (new_TlsClient resuming_config None None (sample_entropy 3))
      (new_TlsServer sample_server_config None None (sample_entropy 5)) = Ok (c, s, client_events, server_events) ∧
    tc_resumed c = true ∧ tc_early_data_accepted c = true ∧ ts_early_data_accepted s = true ∧
    secrets server_events = secrets client_events.
Proof.
  destruct (decode_transport_parameters sample_parameters) as [p|] eqn:Ep; [|vm_compute in Ep; discriminate].
  destruct (resumption_agreement resuming_config sample_server_config _ _ _ _ 0 sample_session_ticket (Some sample_state) p p []
    (sample_negotiable (Some sample_session_ticket)) eq_refl sample_offering)
    as (sh & c & s & cl & sl & _ & Hr & [_ Hc Hs _ _ [Hres _] [Hec Hes] _ _]).
  - split; apply Qle_refl.
  - vm_compute. reflexivity.
  - intros state [= <-]. split; [|split; exact Ep]. exists (zeros 32). split; [reflexivity|exact sample_matches].
  - discriminate.
  - exists c, s, cl, sl. split; [exact Hr|]. split; [exact Hres|].
    assert (accepts_early (outcome resuming_config sample_session_ticket TLS_AES_128_GCM_SHA256 "hq-interop" p p (Some sample_state)) = true) as He.
    { cbn [outcome accepts_early]. apply andb_true_iff. split; [vm_compute; reflexivity|].
      unfold fits. assert (reduces_zero_rtt_limits p p = false) as -> by (unfold reduces_zero_rtt_limits; by rewrite !Z.ltb_irrefl).
      reflexivity. }
    rewrite He in Hec, Hes. split; [exact Hec|]. split; [exact Hes|]. by rewrite Hs, Hc.
Defined.
