(* ===== verification/TlsStates.v ===== *)
(** * The handshake automata

    The order of the handshake as two small step relations, over the state and
    whether a retry has happened, and the theorem that the state machines
    refine them: whatever bytes arrive, and however a message is refused, each
    role only ever takes steps of its automaton.  Messages out of turn are
    refused with the unexpected_message alert and change nothing, and a server
    is connected only once it has checked the client's Finished. *)

From Stdlib Require Import Strings.String QArith.
From stdpp Require Import relations.
From S2P Require Import Prelude Buffer Crypto Congestion TransportParameters TlsInterface Handshake Codec.
From S2P Require Import HandshakeProofs KeySchedule TlsCore TlsClient TlsServer TlsRuns TlsReceive KeyDerivation.
#[local] Open Scope Z_scope.

(** ** The automata *)

(** The state, and whether a HelloRetryRequest has been taken *)
Inductive client_step : ClientState * bool → ClientState * bool → Prop :=
| step_retry : client_step (C_WAIT_SERVER_HELLO, false) (C_WAIT_SERVER_HELLO, true)
| step_server_hello r : client_step (C_WAIT_SERVER_HELLO, r) (C_WAIT_ENCRYPTED_EXTENSIONS, r)
| step_extensions r : client_step (C_WAIT_ENCRYPTED_EXTENSIONS, r) (C_WAIT_CERTIFICATE, r)
| step_extensions_psk r : client_step (C_WAIT_ENCRYPTED_EXTENSIONS, r) (C_WAIT_FINISHED, r)
| step_certificate r : client_step (C_WAIT_CERTIFICATE, r) (C_WAIT_CERTIFICATE_VERIFY, r)
| step_verify r : client_step (C_WAIT_CERTIFICATE_VERIFY, r) (C_WAIT_FINISHED, r)
| step_finished r : client_step (C_WAIT_FINISHED, r) (C_CONNECTED, r).

(** The state, and whether a HelloRetryRequest has been sent; an attempt at one
    that fails leaves the mark without the state *)
Inductive server_step : ServerState * bool → ServerState * bool → Prop :=
| step_retry_mark st : st = S_START ∨ st = S_WAIT_SECOND_CLIENT_HELLO → server_step (st, false) (st, true)
| step_retry_sent st : st = S_START ∨ st = S_WAIT_SECOND_CLIENT_HELLO →
    server_step (st, false) (S_WAIT_SECOND_CLIENT_HELLO, true)
| step_client_hello st r : st = S_START ∨ st = S_WAIT_SECOND_CLIENT_HELLO → server_step (st, r) (S_WAIT_FINISHED, r)
| step_client_finished r : server_step (S_WAIT_FINISHED, r) (S_CONNECTED, r).

(** Every step goes up, so a handshake takes at most seven, and three. *)
Definition client_rank (a : ClientState * bool) : nat :=
  match a.1 with
  | C_START => 0 | C_WAIT_SERVER_HELLO => 1 + Nat.b2n a.2 | C_WAIT_ENCRYPTED_EXTENSIONS => 3
  | C_WAIT_CERTIFICATE => 4 | C_WAIT_CERTIFICATE_VERIFY => 5 | C_WAIT_FINISHED => 6 | C_CONNECTED => 7
  end.
Definition server_rank (a : ServerState * bool) : nat :=
  match a.1 with
  | S_START | S_WAIT_SECOND_CLIENT_HELLO => Nat.b2n a.2 | S_WAIT_FINISHED => 2 | S_CONNECTED => 3
  end.
Lemma client_step_rank a b : client_step a b → (client_rank a < client_rank b)%nat.
Proof. destruct 1; cbn; try lia; destruct r; cbn; lia. Qed.
Lemma server_step_rank a b : server_step a b → (server_rank a < server_rank b)%nat.
Proof. destruct 1 as [st [-> | ->]|st [-> | ->]|st r [-> | ->]|r]; cbn; try destruct r; cbn; lia. Qed.

Section states.
Context `{HP : Primitives} `{HL : !PrimitiveLaws HP} `{HT : TlsPrimitives}.

Definition client_abs (c : TlsClient) : ClientState * bool := (tc_state c, tc_hello_retried c).
Definition server_abs (s : TlsServer) : ServerState * bool := (ts_state s, ts_hello_retry_sent s).

(** ** Programs that end by entering a state *)

Section moves.
Context {S A : Type} (abs : S → A).

Definition same_abs (s s' : S) : Prop := abs s' = abs s.
#[local] Instance same_abs_preorder : PreOrder same_abs.
Proof. split; [done|]. unfold same_abs. intros a b c ??. by etransitivity. Qed.

(** [moves f m]: [m] takes the abstract state by [f] if it returns; if it
    raises it may also have left it alone. *)
Definition moved {B} (f : A → A) s (o : result B * S) : Prop :=
  match o.1 with
  | Ok _ => abs o.2 = f (abs s)
  | Raise _ => abs o.2 = abs s ∨ abs o.2 = f (abs s)
  end.
Definition moves {B} (f : A → A) (m : M S B) : Prop := ∀ s, moved f s (m s).

Lemma moves_raise {B} f e : moves f (raise e : M S B).
Proof. intros s. by left. Qed.
Lemma moves_bind {B C} f (m : M S B) (k : B → M S C) : preserves same_abs m → (∀ b, moves f (k b)) → moves f (m ≫= k).
Proof.
  intros Hm Hk s. unfold mbind, M_bind. specialize (Hm s). unfold same_abs in Hm.
  destruct (m s) as [[b|e] s']; cbn [snd] in *; [|by left]. specialize (Hk b s'). unfold moved in *. by rewrite <- Hm.
Qed.
Lemma moves_modify f g : (∀ s, abs (g s) = f (abs s)) → moves f (modify g).
Proof. intros H s. apply H. Qed.
End moves.
#[local] Existing Instance same_abs_preorder.

#[local] Hint Extern 1 (preserves (same_abs _) (modify _)) => (by intros ?) : keep.

Ltac move_step :=
  match goal with
  | |- moves _ _ (_ ≫= _) => apply moves_bind; [keep|intros ?]
  | |- moves _ _ (modify _) => apply moves_modify; by intros ?
  | |- moves _ _ (raise _) => apply moves_raise
  | |- moves _ _ (if ?b then _ else _) => destruct b
  | |- moves _ _ (match ?x with _ => _ end) => destruct x
  end.

Lemma client_on_hs {A} (m : M HandshakeState A) : preserves (same_abs client_abs) (on_hs m).
Proof. intros c. unfold on_hs, zoom. by destruct (m (tc_hs c)). Qed.
Lemma server_at_hs {A} (m : M HandshakeState A) : preserves (same_abs server_abs) (at_hs m).
Proof. intros c. unfold at_hs, zoom. by destruct (m (ts_hs c)). Qed.
#[local] Hint Resolve client_on_hs server_at_hs : keep.

(** ** The client *)

Lemma abs_send_client_hello : preserves (same_abs client_abs) send_client_hello.
Proof. unfold send_client_hello, build_client_hello, fill_psk_binder, with_fallback. keep. Qed.
#[local] Hint Resolve abs_send_client_hello : keep.
Lemma abs_with_fallback f : preserves (same_abs client_abs) (with_fallback f).
Proof. unfold with_fallback. keep. Qed.
Lemma abs_settle_psk o : preserves (same_abs client_abs) (settle_psk o).
Proof. unfold settle_psk. keep. Qed.
#[local] Hint Resolve abs_with_fallback abs_settle_psk : keep.

(** What handling a message does to the abstract state: one step if it
    returns, at most one if it raises *)
Definition steps {S A B} (abs : S → A) (step : A → A → Prop) (s : S) (o : result B * S) : Prop :=
  match o.1 with
  | Ok _ => step (abs s) (abs o.2)
  | Raise _ => abs o.2 = abs s ∨ step (abs s) (abs o.2)
  end.
Abbreviation client_moves := (steps client_abs client_step).

Lemma moved_steps {S A B} (abs : S → A) step f s (o : result B * S) : moved abs f s o → step (abs s) (f (abs s)) → steps abs step s o.
Proof. unfold moved, steps. destruct (o.1) as [b|e]; [by intros ->|]. intros [-> | ->]; auto. Qed.

(** The same after a change of the abstract state that is a step itself *)
Lemma moved_after {S A B} (abs : S → A) step f s s1 (o : result B * S) :
  moved abs f s1 o → step (abs s) (f (abs s1)) → step (abs s) (abs s1) → steps abs step s o.
Proof. unfold moved, steps. destruct (o.1) as [b|e]; [by intros ->|]. intros [-> | ->]; auto. Qed.

Lemma on_hello_retry_request_moves h raw c :
  tc_state c = C_WAIT_SERVER_HELLO → client_moves c (on_hello_retry_request h raw c).
Proof.
  intros Hs. unfold on_hello_retry_request. erewrite (M_bind_ok get) by reflexivity.
  destruct (tc_hello_retried c) eqn:Er; [by left|].
  destruct (find_extension _ _) as [share|]; [|by left]. destruct (negb _); [by left|]. cbn zeta.
  destruct (negb _); [by left|]. destruct (bool_decide _); [by left|].
  erewrite (M_bind_ok (modify _)) by reflexivity.
  match goal with |- steps _ _ _ (?m ?c1) =>
    assert (moves client_abs (λ a, (C_WAIT_SERVER_HELLO, a.2)) m) as H by (repeat move_step); specialize (H c1) end.
  apply (moved_after _ _ _ _ _ _ H); unfold client_abs; cbn; rewrite Hs, Er; constructor.
Qed.

Lemma on_server_hello_moves h raw c :
  tc_state c = C_WAIT_SERVER_HELLO → client_moves c (on_server_hello h raw c).
Proof.
  intros Hs. unfold on_server_hello. destruct (bool_decide _); [by apply on_hello_retry_request_moves|].
  match goal with |- steps _ _ _ (?m c) =>
    assert (moves client_abs (λ a, (C_WAIT_ENCRYPTED_EXTENSIONS, a.2)) m) as H by (repeat move_step) end.
  apply (moved_steps _ _ _ _ _ (H c)). unfold client_abs. rewrite Hs. constructor.
Qed.

(** EncryptedExtensions ends in one of two states. *)
Lemma on_encrypted_extensions_moves l raw c :
  tc_state c = C_WAIT_ENCRYPTED_EXTENSIONS → client_moves c (on_encrypted_extensions l raw c).
Proof.
  intros Hs. unfold on_encrypted_extensions. destruct (find_extension l EXT_ALPN) as [d|]; [|by left].
  unfold mbind, M_bind, lift, get, modify, raise, on_hs, zoom. destruct (parse_alpn d) as [[|p [|]]|e]; try by left.
  destruct (negb _); [by left|]. destruct (find_extension l EXT_QUIC_TRANSPORT_PARAMETERS); [|by left].
  destruct (find_extension l EXT_EARLY_DATA); [destruct (check_early_data p c); [|by left]|];
    unfold steps, client_abs; cbn; rewrite Hs; destruct (tc_resumed c); constructor.
Qed.

Ltac moves_to st :=
  match goal with |- steps _ _ ?c (?m ?c) =>
    assert (moves client_abs (λ a, (st, a.2)) m) as H by (repeat move_step);
    apply (moved_steps _ _ _ _ _ (H c)); unfold client_abs end.

(** Only a session ticket is taken without a step. *)
Lemma client_handle_moves level m raw c :
  client_moves c (client_handle level m raw c) ∨
  tc_state c = C_CONNECTED ∧ message_type_of m = NEW_SESSION_TICKET ∧ client_abs (client_handle level m raw c).2 = client_abs c.
Proof.
  unfold client_handle. unfold mbind at 1 3, M_bind at 1 3, get.
  destruct (bool_decide_reflect (tc_state c = C_CONNECTED)) as [Hc|_].
  { destruct m; try by left; left. right. split; [done|]. split; [done|].
    assert (preserves (same_abs client_abs) (store_session_ticket t)) as H by (unfold store_session_ticket; keep). apply H. }
  left.
  destruct (CLIENT_EXPECTS (tc_state c)) as [[ty lv]|] eqn:Ee; [|by left].
  unfold mbind at 1, M_bind at 1, lift, require.
  destruct (bool_decide_reflect (message_type_of m ≠ ty)) as [Ht|Ht]; [by left|]. apply dec_stable in Ht.
  destruct (bool_decide _); [by left|].
  destruct (tc_state c) eqn:Hs; try discriminate; cbn in Ee; injection Ee as <- <-; destruct m; try discriminate.
  - by apply on_server_hello_moves.
  - by apply on_encrypted_extensions_moves.
  - unfold on_certificate. moves_to C_WAIT_CERTIFICATE_VERIFY. rewrite Hs. constructor.
  - unfold on_certificate_verify. moves_to C_WAIT_FINISHED. rewrite Hs. constructor.
  - unfold on_finished. moves_to C_CONNECTED. rewrite Hs. constructor.
Qed.

(** ** The server *)

Abbreviation server_moves := (steps server_abs server_step).

Lemma abs_resolve_psk_offer hello raw p : preserves (same_abs server_abs) (resolve_psk_offer hello raw p).
Proof. unfold resolve_psk_offer. keep. Qed.
Lemma abs_answer_hello hello o p : preserves (same_abs server_abs) (answer_hello hello o p).
Proof. unfold answer_hello. keep. Qed.
Lemma abs_send_server_flight r p : preserves (same_abs server_abs) (send_server_flight r p).
Proof. unfold send_server_flight, certificate_messages. keep. Qed.
#[local] Hint Resolve abs_resolve_psk_offer abs_answer_hello abs_send_server_flight : keep.

(** Programs that, started where a hello is due, take at most one step *)
Definition hello_steps {A} (m : M TlsServer A) : Prop :=
  ∀ s, ts_state s = S_START ∨ ts_state s = S_WAIT_SECOND_CLIENT_HELLO → server_moves s (m s).

Lemma hello_steps_raise {A} e : hello_steps (raise e : M TlsServer A).
Proof. intros s _. by left. Qed.
Lemma hello_steps_bind {A B} (m : M TlsServer A) (k : A → M TlsServer B) :
  preserves (same_abs server_abs) m → (∀ a, hello_steps (k a)) → hello_steps (m ≫= k).
Proof.
  intros Hm Hk s Hs. unfold mbind, M_bind. specialize (Hm s). unfold same_abs in Hm.
  destruct (m s) as [[a|e] s']; cbn [snd] in *; [|by left].
  unfold steps. rewrite <- Hm. apply (Hk a s'). injection Hm as -> _. exact Hs.
Qed.
Lemma hello_steps_get {B} (k : TlsServer → M TlsServer B) :
  (∀ s, ts_state s = S_START ∨ ts_state s = S_WAIT_SECOND_CLIENT_HELLO → server_moves s (k s s)) → hello_steps (get ≫= k).
Proof. intros Hk s Hs. apply Hk, Hs. Qed.

Lemma send_hello_retry_request_moves hello raw g : hello_steps (send_hello_retry_request hello raw g).
Proof.
  apply hello_steps_get. intros s Hs. destruct (ts_hello_retry_sent s) eqn:Er; [by left|].
  erewrite (M_bind_ok (modify _)) by reflexivity.
  match goal with |- steps _ _ _ (?m ?s1) =>
    assert (moves server_abs (λ a, (S_WAIT_SECOND_CLIENT_HELLO, a.2)) m) as H by (repeat move_step); specialize (H s1) end.
  apply (moved_after _ _ _ _ _ _ H); unfold server_abs; cbn; rewrite Er; by constructor.
Qed.

Lemma on_client_hello_moves hello raw : hello_steps (on_client_hello hello raw).
Proof.
  unfold on_client_hello. destruct (List.filter _ _) as [|suite l]; [apply hello_steps_raise|].
  do 2 (apply hello_steps_bind; [keep|intros ?]). destruct (negb _); [apply hello_steps_raise|].
  apply hello_steps_bind; [keep|intros [public|]].
  - destruct (find_extension _ EXT_QUIC_TRANSPORT_PARAMETERS) as [tp|]; [|apply hello_steps_raise].
    match goal with |- hello_steps ?m =>
      assert (moves server_abs (λ a, (S_WAIT_FINISHED, a.2)) m) as H by (repeat move_step) end.
    intros s Hs. apply (moved_steps _ _ _ _ _ (H s)). by constructor.
  - apply hello_steps_bind; [keep|intros offered]. destruct (List.find _ _); [|apply hello_steps_raise].
    apply send_hello_retry_request_moves.
Qed.

Lemma server_handle_moves level m raw s : server_moves s (server_handle level m raw s).
Proof.
  unfold server_handle. unfold mbind at 1, M_bind at 1, get.
  destruct (SERVER_EXPECTS (ts_state s)) as [[ty lv]|] eqn:Ee; [|by left].
  unfold mbind at 1, M_bind at 1, lift, require.
  destruct (bool_decide_reflect (message_type_of m ≠ ty)) as [Ht|Ht]; [by left|]. apply dec_stable in Ht.
  destruct (bool_decide _); [by left|].
  destruct (ts_state s) eqn:Hs; try discriminate; cbn in Ee; injection Ee as <- <-; destruct m; try discriminate.
  - apply on_client_hello_moves. auto.
  - apply on_client_hello_moves. auto.
  - match goal with |- steps _ _ _ (on_client_finished ?v ?r ?s) =>
      assert (moves server_abs (λ a, (S_CONNECTED, a.2)) (on_client_finished v r)) as H end.
    { unfold on_client_finished. repeat (apply moves_bind; [keep|intros ?]). destruct (bool_decide _); [apply moves_raise|].
      do 2 (apply moves_bind; [keep|intros ?]). intros s1. erewrite (M_bind_ok (modify _)) by reflexivity.
      assert (preserves (same_abs server_abs) issue_session_ticket) as Hi by (unfold issue_session_ticket; keep).
      specialize (Hi (set_ts_state S_CONNECTED s1)). unfold same_abs in Hi. unfold moved.
      destruct (issue_session_ticket _).1; rewrite Hi; auto. }
    apply (moved_steps _ _ _ _ _ (H s)). unfold server_abs. rewrite Hs. constructor.
Qed.

(** ** Refinement *)

Lemma moves_rtc {A} (R : A → A → Prop) a b c : rtc R a b → c = b ∨ R b c → rtc R a c.
Proof. intros H [-> | Hs]; [done|]. by eapply rtc_r. Qed.

Lemma ends_in_always {T A} (I : T → Prop) (o : result A * T) : ends_in (λ _, True) I o → I o.2.
Proof. unfold ends_in. destruct o.1; auto. Qed.

Lemma steps_at_most_one {S A B} (abs : S → A) step s (o : result B * S) :
  steps abs step s o → abs o.2 = abs s ∨ step (abs s) (abs o.2).
Proof. unfold steps. destruct (o.1); auto. Qed.
Lemma client_at_most_one level m raw c :
  client_abs (client_handle level m raw c).2 = client_abs c ∨
  client_step (client_abs c) (client_abs (client_handle level m raw c).2).
Proof. destruct (client_handle_moves level m raw c) as [H|(_ & _ & H)]; [by apply steps_at_most_one|by left]. Qed.

Lemma client_receive_rtc level data now c : rtc client_step (client_abs c) (client_abs (receive level data now c).2).
Proof.
  apply (ends_in_always (λ c', rtc client_step (client_abs c) (client_abs c'))), receive_invariant; [done|done| |done].
  intros m t _ H. pose proof (client_at_most_one level m (message_bytes m) t) as Hm.
  unfold ends_in. cbn [handle client_machine]. destruct (client_handle level m _ t) as [[[]|e] t']; [|intros _]; by eapply moves_rtc.
Qed.
Lemma server_receive_rtc level data now s : rtc server_step (server_abs s) (server_abs (receive level data now s).2).
Proof.
  apply (ends_in_always (λ s', rtc server_step (server_abs s) (server_abs s'))), receive_invariant; [done|done| |done].
  intros m t _ H. pose proof (steps_at_most_one _ _ _ _ (server_handle_moves level m (message_bytes m) t)) as Hm.
  unfold ends_in. cbn [handle server_machine]. destruct (server_handle level m _ t) as [[[]|e] t']; [|intros _]; by eapply moves_rtc.
Qed.

Lemma nsteps_rank {A} (R : A → A → Prop) (rank : A → nat) n a b :
  (∀ a b, R a b → (rank a < rank b)%nat) → nsteps R n a b → (rank a + n <= rank b)%nat.
Proof. intros HR. induction 1 as [|n a b c Hs _ IH]; [lia|]. apply HR in Hs. lia. Qed.

Lemma client_rank_max a : (client_rank a <= 7)%nat.
Proof. destruct a as [[] []]; cbn; lia. Qed.
Lemma server_rank_max a : (server_rank a <= 3)%nat.
Proof. destruct a as [[] []]; cbn; lia. Qed.

(** C8: the state machines refine the handshake automata.  Whatever bytes
    arrive at whatever level, and whether [receive] returns or raises, the
    client's state and retry mark change by steps of [client_step], at most
    seven of them, and the server's by steps of [server_step], at most three;
    and every message a role takes without raising is exactly one step, session
    tickets of a connected client aside.  So no message is skipped or taken
    twice, and at most one HelloRetryRequest is taken or sent. *)
Theorem handshake_automata level data now (c : TlsClient) (s : TlsServer) :
  (∃ n, (n <= 7)%nat ∧ nsteps client_step n (client_abs c) (client_abs (receive level data now c).2)) ∧
  (∃ n, (n <= 3)%nat ∧ nsteps server_step n (server_abs s) (server_abs (receive level data now s).2)) ∧
  (∀ m raw c', client_handle level m raw c = (Ok tt, c') →
     client_step (client_abs c) (client_abs c') ∨
     tc_state c = C_CONNECTED ∧ message_type_of m = NEW_SESSION_TICKET ∧ client_abs c' = client_abs c) ∧
  (∀ m raw s', server_handle level m raw s = (Ok tt, s') → server_step (server_abs s) (server_abs s')).
Proof.
  split_and!.
  - destruct (proj1 (rtc_nsteps _ _) (client_receive_rtc level data now c)) as [n Hn]. exists n. split; [|done].
    pose proof (nsteps_rank _ client_rank _ _ _ client_step_rank Hn).
    pose proof (client_rank_max (client_abs (receive level data now c).2)). lia.
  - destruct (proj1 (rtc_nsteps _ _) (server_receive_rtc level data now s)) as [n Hn]. exists n. split; [|done].
    pose proof (nsteps_rank _ server_rank _ _ _ server_step_rank Hn).
    pose proof (server_rank_max (server_abs (receive level data now s).2)). lia.
  - intros m raw c' E. pose proof (client_handle_moves level m raw c) as H. by rewrite E in H.
  - intros m raw s' E. pose proof (server_handle_moves level m raw s) as H. by rewrite E in H.
Qed.

(** ** Messages out of turn *)

(** The types and levels a role takes in a state; a connected client takes
    session tickets, at any level. *)
Definition client_takes (st : ClientState) (level : EncryptionLevel) (ty : HandshakeType) : Prop :=
  CLIENT_EXPECTS st = Some (ty, level) ∨ (st = C_CONNECTED ∧ ty = NEW_SESSION_TICKET).
Definition server_takes (st : ServerState) (level : EncryptionLevel) (ty : HandshakeType) : Prop :=
  SERVER_EXPECTS st = Some (ty, level).

Lemma require_refuses ty lv level m :
  (ty, lv) ≠ (message_type_of m, level) → ∃ reason, require (ty, lv) level m = Raise (TlsAlert UNEXPECTED_MESSAGE reason).
Proof.
  intros H. unfold require. case_bool_decide as H1; [by eauto|]. case_bool_decide as H2; [by eauto|]. by subst.
Qed.

(** A handshake message out of turn is refused and changes nothing.  A
    started client and a server that get a message whose type or encryption
    level their state does not call for raise the unexpected_message alert and
    keep their whole state: transcript, secrets and events. *)
Theorem out_of_turn_refused level m raw (c : TlsClient) (s : TlsServer) :
  (tc_state c ≠ C_START → ¬ client_takes (tc_state c) level (message_type_of m) →
     ∃ reason, client_handle level m raw c = (Raise (TlsAlert UNEXPECTED_MESSAGE reason), c)) ∧
  (¬ server_takes (ts_state s) level (message_type_of m) →
     ∃ reason, server_handle level m raw s = (Raise (TlsAlert UNEXPECTED_MESSAGE reason), s)).
Proof.
  split.
  - intros Hs Hn. unfold client_handle, client_takes in *. unfold mbind at 1, M_bind at 1, get.
    case_bool_decide as Hc; [destruct m; cbn in Hn; by eauto || naive_solver|].
    destruct (CLIENT_EXPECTS (tc_state c)) as [[ty lv]|] eqn:Ee; [|by destruct (tc_state c)].
    destruct (require_refuses ty lv level m) as [reason E]; [intros [= -> ->]; apply Hn; by left|].
    exists reason. unfold mbind, M_bind, lift. by rewrite E.
  - intros Hn. unfold server_handle, server_takes in *. unfold mbind at 1, M_bind at 1, get.
    destruct (SERVER_EXPECTS (ts_state s)) as [[ty lv]|] eqn:Ee; [|by eauto].
    destruct (require_refuses ty lv level m) as [reason E]; [by intros [= -> ->]|].
    exists reason. unfold mbind, M_bind, lift. by rewrite E.
Qed.

(** ** The server's key confirmation *)

(** Every history of a server, whatever is raised on the way *)
Inductive server_run (config : ServerConfig) : TlsServer → Prop :=
| srun_new random key entropy : server_run config (new_TlsServer config random key entropy)
| srun_receive level data now s : server_run config s → server_run config (receive level data now s).2
| srun_take_events s : server_run config s → server_run config (set_ts_hs (hs_take_events (ts_hs s)).2 s).

(** The transcript ends with a client Finished that carries the right MAC. *)
Definition server_confirmed (s : TlsServer) : Prop := ∃ prefix,
  sch_transcript (hs_schedule (ts_hs s)) =
    prefix ++ message_bytes (HFinished (finished_mac (hs_client_secret (ts_hs s)) prefix)).
Definition server_inv (s : TlsServer) : Prop := ts_state s = S_CONNECTED → server_confirmed s.

Definition same_keys (h h' : HandshakeState) : Prop :=
  hs_schedule h' = hs_schedule h ∧ hs_client_secret h' = hs_client_secret h.
#[local] Instance same_keys_preorder : PreOrder same_keys.
Proof. split; [done|]. unfold same_keys. intros a b c (?&?) (?&?). by split; etransitivity. Qed.
Definition same_server_keys (s s' : TlsServer) : Prop := same_keys (ts_hs s) (ts_hs s').
#[local] Instance same_server_keys_preorder : PreOrder same_server_keys.
Proof. unfold same_server_keys. split; [done|]. intros a b c ??. by etransitivity. Qed.
Lemma keys_at_hs {A} (m : M HandshakeState A) : preserves same_keys m → preserves same_server_keys (at_hs m).
Proof. intros H s. unfold at_hs, zoom. specialize (H (ts_hs s)). by destruct (m (ts_hs s)). Qed.
#[local] Hint Extern 1 (preserves same_keys (modify _)) => (by intros ?) : keep.
Lemma keys_issue_session_ticket : preserves same_server_keys issue_session_ticket.
Proof. unfold issue_session_ticket, urandom, emit_event. keep; apply keys_at_hs; keep. Qed.

Lemma server_confirmed_keys s s' : same_server_keys s s' → server_confirmed s → server_confirmed s'.
Proof. intros [E1 E2] [prefix H]. exists prefix. by rewrite E1, E2. Qed.

Lemma on_client_finished_confirms v s :
  let s' := (on_client_finished v (message_bytes (HFinished v)) s).2 in s' = s ∨ server_confirmed s'.
Proof.
  unfold on_client_finished, transcript_hash. erewrite (M_bind_ok get) by reflexivity.
  erewrite (M_bind_ok (lift _)) by (unfold lift; rewrite finished_verify_data_ok; reflexivity).
  destruct (bool_decide_reflect (v ≠ finished_mac (hs_client_secret (ts_hs s)) (sch_transcript (hs_schedule (ts_hs s)))))
    as [Hv|Hv]; [by left|]. apply dec_stable in Hv. right.
  do 2 (erewrite (M_bind_ok (at_hs _)) by reflexivity). erewrite (M_bind_ok (modify _)) by reflexivity.
  eapply server_confirmed_keys; [apply keys_issue_session_ticket|].
  exists (sch_transcript (hs_schedule (ts_hs s))).
  change (finished_mac _ (sch_transcript (hs_schedule (ts_hs s)))) with
    (finished_mac (hs_client_secret (ts_hs s)) (sch_transcript (hs_schedule (ts_hs s)))).
  rewrite <- Hv. reflexivity.
Qed.

Lemma hello_not_connected hello raw s :
  ts_state s = S_START ∨ ts_state s = S_WAIT_SECOND_CLIENT_HELLO → ts_state (on_client_hello hello raw s).2 ≠ S_CONNECTED.
Proof.
  intros Hs. destruct (steps_at_most_one _ _ _ _ (on_client_hello_moves hello raw s Hs)) as [[= E _]|E]; [by destruct Hs as [Hs|Hs]; rewrite E, Hs|].
  unfold server_abs in E. intros Hc. rewrite Hc in E. inversion E; destruct Hs; destruct_or?; congruence.
Qed.

Lemma server_handle_inv level m s : server_inv s → server_inv (server_handle level m (message_bytes m) s).2.
Proof.
  intros Hi. unfold server_handle. erewrite (M_bind_ok get) by reflexivity.
  destruct (SERVER_EXPECTS (ts_state s)) as [[ty lv]|] eqn:Ee; [|exact Hi].
  destruct (require (ty, lv) level m) as [[]|e] eqn:Er; [|exact Hi].
  erewrite (M_bind_ok (lift _)) by reflexivity. unfold require in Er.
  destruct (bool_decide_reflect (message_type_of m ≠ ty)) as [Ht|Ht]; [done|]. apply dec_stable in Ht. clear Er.
  destruct (ts_state s) eqn:Hs; try discriminate; cbn in Ee; injection Ee as <- <-; destruct m; try discriminate.
  - intros Hc. by apply hello_not_connected in Hc; auto.
  - intros Hc. by apply hello_not_connected in Hc; auto.
  - match goal with |- server_inv (on_client_finished ?v _ _).2 => destruct (on_client_finished_confirms v s) as [E|E] end;
      [rewrite E; exact Hi|intros _; exact E].
Qed.

(** C25: a connected server has checked the client's Finished.  In every history
    of a server, whatever bytes arrive and whatever was raised on the way, if it
    is [CONNECTED] then its transcript ends with a Finished message that carries
    the MAC of everything before it under the client's handshake secret. *)
Theorem server_confirms config s (Hrun : server_run config s) (Hc : ts_state s = S_CONNECTED) : server_confirmed s.
Proof.
  revert Hc. change (server_inv s). induction Hrun as [random key entropy|level data now s _ IH|s _ IH].
  - unfold new_TlsServer. by destruct random, key.
  - apply (ends_in_always server_inv), receive_invariant; [by intros b t H|by intros q t H| |done].
    intros m t _ H. apply (server_handle_inv level m) in H. unfold ends_in. cbn [handle server_machine].
    destruct (server_handle level m _ t) as [[[]|e] t']; [exact H|intros _; exact H].
  - exact IH.
Qed.
End states.

(** ** Witnesses *)

Lemma out_of_turn_refused_witness :
  ∃ reason, client_handle L_HANDSHAKE (HFinished []) [] (start 0 (sample_client None None)).2 =
    (Raise (TlsAlert UNEXPECTED_MESSAGE reason), (start 0 (sample_client None None)).2).
Proof.
  apply (proj1 (out_of_turn_refused L_HANDSHAKE (HFinished []) [] (start 0 (sample_client None None)).2 sample_server)).
  - vm_compute. discriminate.
  - assert (tc_state (start 0 (sample_client None None)).2 = C_WAIT_SERVER_HELLO) as -> by (vm_compute; reflexivity).
    by intros [?|[? ?]].
Defined.

(** The client's part of the sample handshake, and the server after it *)
Definition sample_hello_sent : list TlsEvent := hs_events (tc_hs (start 0 (sample_client None None)).2).
Definition sent_at (level : EncryptionLevel) (events : list TlsEvent) : bytes :=
  concat (omap (λ e, match e with
                     | EvSendData l d => if bool_decide (l = level) then Some d else None
                     | _ => None end) events).
Definition sample_answered : TlsServer := (receive L_INITIAL (sent_at L_INITIAL sample_hello_sent) 0 sample_server).2.
Definition sample_finished : bytes :=
  match run_handshake 2 0 (sample_client None None) sample_server with
  | Ok (_, _, client_events, _) => sent_at L_HANDSHAKE client_events
  | Raise _ => []
  end.
Definition sample_completed : TlsServer := (receive L_HANDSHAKE sample_finished 0 sample_answered).2.

Lemma server_confirms_witness : ts_state sample_completed = S_CONNECTED ∧ server_confirmed sample_completed.
Proof.
  split; [vm_compute; reflexivity|]. apply (server_confirms sample_server_config); [|vm_compute; reflexivity].
  unfold sample_completed, sample_answered. do 2 apply srun_receive. unfold sample_server. apply srun_new.
Defined.
