(* ===== verification/TlsEdges.v ===== *)
(** * Exceptions that leave the handshake

    [receive] raises alerts for what a peer may get wrong, and the connection
    turns an alert into a close.  A peer's bytes can reach other exceptions
    too; the theorem here is what a caller that carries on after one of them
    gets: a client that takes a peer without PSK or certificate for the one it
    resumes with. *)

From Stdlib Require Import Strings.String QArith.
From S2P Require Import Prelude Buffer Crypto Congestion TransportParameters Retry TlsInterface Handshake Codec.
From S2P Require Import HandshakeProofs KeySchedule TlsCore TlsClient TlsServer TlsRuns TlsReceive KeyDerivation.
From S2P Require Import TlsHonest TlsTickets TlsAgreement TlsResumption TlsServerProofs.
#[local] Open Scope Z_scope.

(** ** A short PSK identity *)

Definition with_identity (identity : bytes) (t : SessionTicket) : SessionTicket :=
  mkSessionTicket identity (st_psk t) (st_age_add t) (st_lifetime t) (st_received_at t) (st_max_early_data_size t)
    (st_alpn t) (st_transport_parameters t) (st_cipher_suite t).
Definition first_hello (c : TlsClient) : bytes :=
  match begin_handshake 10 c with Ok (EvSendData _ raw :: _, _) => raw | _ => [] end.

Definition outcome_class {A} (r : result A) : string :=
  match r with
  | Ok _ => "returns"
  | Raise (TlsAlert _ _) => "TlsAlert"
  | Raise (ValueError _) => "ValueError"
  | Raise (BufferReadError _) => "BufferReadError"
  | Raise _ => "other"
  end.

(** ** A ServerHello after a failed one *)

Section forging.
Context `{HP : Primitives} `{HL : !PrimitiveLaws HP} `{HT : TlsPrimitives} `{HTL : !TlsLaws HT}.

(** The hello of a server that takes the key share [public] and, if asked, the
    offered PSK *)
Definition forged_hello (random public : bytes) (suite : Z) (psk : bool) : HandshakeMessage :=
  HServerHello (mkServerHello random [] suite
    ([mkExtension EXT_SUPPORTED_VERSIONS (be_bytes 2 TLS_1_3); mkExtension EXT_KEY_SHARE (share_bytes X25519_GROUP public)]
     ++ (if psk then [mkExtension EXT_PRE_SHARED_KEY (be_bytes 2 0)] else []))).

(** Its EncryptedExtensions, and the Finished it computes behind the transcript
    [t] from the key exchange alone *)
Definition forged_extensions (protocol : string) (parameters : bytes) : HandshakeMessage :=
  HEncryptedExtensions [mkExtension EXT_ALPN (alpn_bytes [protocol]); mkExtension EXT_QUIC_TRANSPORT_PARAMETERS parameters].
Definition forged_finished (shared t extensions : bytes) : HandshakeMessage :=
  HFinished (finished_mac (derive_secret (handshake_secret None shared) "s hs traffic" t) (t ++ extensions)).

(** Taking the PSK or not is one of the modes of an honest server. *)
Definition forged_mode (psk : bool) : mode := if psk then RESUMED (mkTicketState [] 0 "" [] 0 0) false else FULL.
Lemma forged_hello_answer random public suite psk :
  forged_hello random public suite psk = HServerHello (answer_message (forged_mode psk) random public suite).
Proof. by destruct psk. Qed.
Lemma forged_extensions_selection protocol parameters :
  forged_extensions protocol parameters = HEncryptedExtensions (selection_message (forged_mode true) protocol parameters).
Proof. done. Qed.

(** One attack, from the client that has sent its hello *)
Section client.
Context (config : ClientConfig) (ticket : SessionTicket) (ce : Entropy) (now : Q).
Context (Hticket : cfg_session_ticket config = Some ticket) (Hsize : wf_offering config ticket).
Context (bad public random1 random2 : bytes) (suite1 suite : Z) (e : exn) (shared : bytes).
Context (Hlen1 : len random1 = 32) (Hno1 : random1 ≠ HELLO_RETRY_REQUEST_RANDOM) (Hsuite1 : suite1 ∈ cfg_cipher_suites config).
Context (Hlen2 : len random2 = 32) (Hno2 : random2 ≠ HELLO_RETRY_REQUEST_RANDOM) (Hsuite : suite ∈ cfg_cipher_suites config).
Context (Hbad : len bad <= 32) (Hraise : x25519_exchange (en_generate ce 1) bad = Raise e).
Context (Hpublic : len public = 32) (Hshared : x25519_exchange (en_generate ce 1) public = Ok shared).

#[local] Notation c0 := (offering_client config ticket ce now).
#[local] Notation bad_hello := (message_bytes (forged_hello random1 bad suite1 false)).
#[local] Notation good_hello := (message_bytes (forged_hello random2 public suite true)).

Lemma suite_bits s : s ∈ cfg_cipher_suites config → bits 16 s.
Proof. destruct Hsize as [[_ _ [Hs _] _] _]. rewrite Forall_forall in Hs. apply Hs. Qed.

Lemma forged_wf random key s psk : len random = 32 → len key <= 32 → s ∈ cfg_cipher_suites config →
  wf_message (forged_hello random key s psk).
Proof. intros. rewrite forged_hello_answer. apply wf_answer_message; [done|done|by apply suite_bits]. Qed.

(** The hello that fails has settled for no PSK. *)
Definition failed_client : TlsClient :=
  let c := settled FULL (set_tc_hs (set_hs_cipher_suite suite1 (tc_hs c0)) c0) in
  set_tc_hs (extended bad_hello (tc_hs c)) c.

Lemma bad_hello_raises : receive L_INITIAL bad_hello now c0 = (Raise e, failed_client).
Proof.
  apply receive_raises; [by apply forged_wf|done|]. rewrite set_now_same by done. cbn [handle client_machine].
  rewrite (forged_hello_answer random1 bad suite1 false). erewrite client_handle_ok by done. cbv beta iota.
  rewrite (on_server_hello_eq (forged_mode false) _ _ _ _ _ (en_generate ce 1)) by (done || lia).
  apply M_bind_raise. unfold lift. by rewrite Hraise.
Qed.

(** The next one marks the handshake as resumed, under the schedule without a
    PSK. *)
Definition forged_client : TlsClient := keyed_client (forged_mode true) good_hello shared suite failed_client.

Lemma good_hello_taken : receive L_INITIAL good_hello now failed_client = (Ok tt, forged_client).
Proof.
  apply receive_one; [apply forged_wf; (done || lia)|done|]. rewrite set_now_same by done. cbn [handle client_machine].
  rewrite (forged_hello_answer random2 public suite true). erewrite client_handle_ok by done. cbv beta iota.
  apply (on_server_hello_ok _ _ _ _ _ _ (en_generate ce 1)); try done. intros _. cbn. by rewrite Hticket.
Qed.

Lemma forged_client_hs :
  hs_schedule (tc_hs forged_client) =
    mkKeySchedule ((psk_raw config ticket ce now ++ bad_hello) ++ good_hello) (handshake_secret None shared) ∧
  hs_server_secret (tc_hs forged_client) =
    derive_secret (handshake_secret None shared) "s hs traffic" ((psk_raw config ticket ce now ++ bad_hello) ++ good_hello) ∧
  hs_now (tc_hs forged_client) = now ∧ hs_buffers (tc_hs forged_client) = mkBuffers [] [] [].
Proof. done. Qed.

Lemma forged_flight_taken protocol parameters : protocol ∈ cfg_alpn config → len parameters <= 65000 →
  let t := psk_raw config ticket ce now ++ bad_hello ++ good_hello in
  let extensions := message_bytes (forged_extensions protocol parameters) in
  ∃ c', receive L_HANDSHAKE (extensions ++ message_bytes (forged_finished shared t extensions)) now forged_client = (Ok tt, c') ∧
    tc_state c' = C_CONNECTED ∧ tc_resumed c' = true ∧ tc_leaf_certificate c' = [] ∧ tc_config c' = config.
Proof.
  intros Hp Ht t extensions. assert (Hw : wf_protocol protocol).
  { destruct Hsize as [[_ Ha _ _] _]. rewrite Forall_forall in Ha. by apply Ha. }
  destruct forged_client_hs as (Hs & Hv & Hn & Hb). rewrite <- app_assoc in Hs, Hv. fold t in Hs, Hv.
  set (fin := forged_finished shared t extensions).
  assert (stream [forged_extensions protocol parameters; fin] = extensions ++ message_bytes fin) as <-
    by (unfold stream; cbn [fmap list_fmap concat]; by rewrite app_nil_r).
  eexists. split; [apply receive_messages|].
  - apply Forall_cons. split; [rewrite forged_extensions_selection; by apply wf_selection_message|]. apply Forall_singleton, wf_finished_mac.
  - unfold buffer_at. cbn [machine_hs client_machine]. by rewrite Hb.
  - rewrite set_now_same by exact Hn. unfold handle_all. cbn [each handle client_machine]. rewrite forged_extensions_selection.
    erewrite M_bind_ok.
    2: { erewrite client_handle_ok by done. cbv beta iota. by apply (on_encrypted_extensions_ok (forged_mode true)). }
    erewrite M_bind_ok; [reflexivity|]. erewrite client_handle_ok by done. cbv beta iota.
    unfold fin, forged_finished. cbn [forged_mode resumes selection_taken accepts_early].
    match goal with |- on_finished _ _ ?c = _ =>
      assert (finished_mac (derive_secret (handshake_secret None shared) "s hs traffic" t) (t ++ extensions) =
              finished_mac (hs_server_secret (tc_hs c)) (sch_transcript (hs_schedule (tc_hs c)))) as -> end.
    { cbn [tc_hs set_tc_state set_tc_hs extended hs_server_secret set_hs_schedule hs_schedule update_transcript sch_transcript].
      rewrite Hs, Hv. done. }
    apply on_finished_ok.
  - done.
Qed.
End client.

(** ** Theorems *)

(** C40: after an exception that is no alert a client no longer knows whom it
    talks to.  Take any client that offers a ticket, whatever it verifies; a
    ServerHello that does not take the PSK, with a key share on which X25519
    raises; a second one that takes the PSK, with a share on which X25519
    gives [shared]; any EncryptedExtensions with one of the client's
    protocols; and a Finished computed from [shared] and the bytes on the
    wire alone.  Delivering the first raises that exception; but it has
    already replaced the PSK schedule by the one without a PSK, and if the
    caller goes on using the client the others are taken.  The client is then
    [CONNECTED] and reports a resumed handshake, though its peer holds neither
    the PSK nor a certificate. *)
Theorem forged_resumption config ticket ce now bad public random1 random2 suite1 suite e shared protocol parameters
  (Hticket : cfg_session_ticket config = Some ticket) (Hsize : wf_offering config ticket)
  (Hgroups : cfg_key_share_groups config = None) (Hrandom : len (en_urandom ce 0 32) = 32)
  (Hrandoms : len random1 = 32 ∧ len random2 = 32 ∧ random1 ≠ HELLO_RETRY_REQUEST_RANDOM ∧ random2 ≠ HELLO_RETRY_REQUEST_RANDOM)
  (Hsuites : suite1 ∈ cfg_cipher_suites config ∧ suite ∈ cfg_cipher_suites config)
  (Hbad : len bad <= 32 ∧ x25519_exchange (en_generate ce 1) bad = Raise e)
  (Hgood : len public = 32 ∧ x25519_exchange (en_generate ce 1) public = Ok shared)
  (Hprotocol : protocol ∈ cfg_alpn config) (Hparameters : len parameters <= 65000) :
  let raw := psk_raw config ticket ce now in
  let bad_hello := message_bytes (forged_hello random1 bad suite1 false) in
  let good_hello := message_bytes (forged_hello random2 public suite true) in
  let extensions := message_bytes (forged_extensions protocol parameters) in
  let finished := message_bytes (forged_finished shared (raw ++ bad_hello ++ good_hello) extensions) in
  ∃ c0 c1 c2 c3,
    begin_handshake now (new_TlsClient config None None ce) = Ok ([EvSendData L_INITIAL raw], c0) ∧
    receive L_INITIAL bad_hello now c0 = (Raise e, c1) ∧
    receive L_INITIAL good_hello now c1 = (Ok tt, c2) ∧
    receive L_HANDSHAKE (extensions ++ finished) now c2 = (Ok tt, c3) ∧
    tc_state c3 = C_CONNECTED ∧ tc_resumed c3 = true ∧ tc_leaf_certificate c3 = [] ∧ tc_config c3 = config.
Proof.
  destruct Hrandoms as (? & ? & ? & ?), Hsuites, Hbad, Hgood.
  destruct (forged_flight_taken config ticket ce now Hsize bad public random1 random2 suite1 suite shared protocol parameters
    Hprotocol Hparameters) as (c3 & Hflight & Hend).
  do 3 eexists. exists c3. split; [by apply begin_offer|]. split; [by apply bad_hello_raises|].
  split; [by apply good_hello_taken|]. split; [exact Hflight|exact Hend].
Qed.
End forging.

(** ** Concrete clients *)

(** The sample client of [TlsRuns], which offers the ticket of a first handshake *)
Definition sample_offer : TlsClient := (start 10 (sample_client first_ticket None)).2.

(** A peer's bytes can raise exceptions that are not alerts.  A ClientHello
    that offers a PSK identity of seven bytes makes [receive] of a server raise
    [ValueError] (AES-GCM refuses the nonce, which [open_ticket] does not
    catch), and a ServerHello with a key share of 31 bytes makes [receive] of a
    client raise it; the connection only catches [TlsAlert]. *)
Fact handshake_value_errors :
  outcome_class (receive L_INITIAL (first_hello (sample_client (with_identity (zeros 7) <$> first_ticket) None)) 10
    sample_server).1 = "ValueError" ∧
  outcome_class (receive L_INITIAL (message_bytes (forged_hello (zeros 32) (zeros 31) TLS_AES_128_GCM_SHA256 false)) 10 sample_offer).1 =
    "ValueError".
Proof. vm_compute. done. Qed.

Lemma forged_resumption_witness :
  ∃ c0 c1 c2 c3 bad_hello good_hello flight,
    begin_handshake 0 (new_TlsClient resuming_config None None (sample_entropy 3)) = Ok c0 ∧
    receive L_INITIAL bad_hello 0 c0.2 = (Raise (ValueError "An X25519 public key is 32 bytes long"), c1) ∧
    receive L_INITIAL good_hello 0 c1 = (Ok tt, c2) ∧ receive L_HANDSHAKE flight 0 c2 = (Ok tt, c3) ∧
    tc_state c3 = C_CONNECTED ∧ tc_resumed c3 = true ∧ tc_leaf_certificate c3 = [] ∧
    cfg_insecure_skip_verify (tc_config c3) = false.
Proof.
  destruct (x25519_agree (en_generate (sample_entropy 3) 1) (en_generate (sample_entropy 5) 1)) as (shared & Hx & _).
  destruct (forged_resumption resuming_config sample_session_ticket (sample_entropy 3) 0 (zeros 31) (x25519_public (en_generate (sample_entropy 5) 1)) (zeros 32) (zeros 32)
    TLS_AES_128_GCM_SHA256 TLS_AES_128_GCM_SHA256 (ValueError "An X25519 public key is 32 bytes long") shared "hq-interop" []
    eq_refl sample_offering) as (c0 & c1 & c2 & c3 & H0 & H1 & H2 & H3 & Hs & Hr & Hl & Hc).
  - reflexivity.
  - vm_compute. reflexivity.
  - split; [done|]. split; [done|]. assert (Hz : bool_decide (zeros 32 = HELLO_RETRY_REQUEST_RANDOM) = false) by (vm_compute; reflexivity).
    split; exact (bool_decide_eq_false_1 _ Hz).
  - split; by apply (bool_decide_unpack _).
  - split; [|reflexivity]. done.
  - split; [apply x25519_public_len|exact Hx].
  - by apply (bool_decide_unpack _).
  - done.
  - do 7 eexists. split; [exact H0|]. split; [exact H1|]. split; [exact H2|]. split; [exact H3|]. rewrite Hc. auto.
Defined.
