(* ===== verification/Spaces.v ===== *)
(** * Packet number spaces (the _Space class of connection.py)

    The per-space state of [src/dsquic/connection.py] and the methods of
    [Connection] that work on one space: installing and rotating keys,
    decrypting, building acknowledgements, and the CRYPTO stream in both
    directions.  The fields of [_Space] are grouped in three records (keys,
    ECN counts, CRYPTO stream); a method that also reads the connection
    (whether the handshake is confirmed, the PTO) takes what it reads as an
    argument.  Qlog calls are left out: they only write the trace. *)

From S2P Require Import Prelude Buffer Frames FramesProofs RangeSet Streams Packet Crypto Protection.
From S2P Require Import Congestion Recovery TlsInterface.

(** ** State *)

Record KeyState : Type := mkKeyState {
  ks_send : option PacketKeys;
  ks_recv : option PacketKeys;
  ks_send_early : option PacketKeys;
  ks_recv_early : option PacketKeys;
  ks_key_phase : bool;
  ks_secret_send : bytes;
  ks_secret_recv_next : bytes;
  ks_recv_next : option PacketKeys;
  ks_recv_previous : option PacketKeys;
  ks_recv_previous_expiry : Q;
  ks_phase_first : option Z;
  ks_phase_send_first : Z }.

Record EcnState : Type := mkEcnState {
  ec_ect0 : Z; ec_ect1 : Z; ec_ce : Z;
  ec_acked_ect0 : Z; ec_acked_ect1 : Z; ec_acked_ce : Z }.

Record CryptoState : Type := mkCryptoState {
  cs_offset_sent : Z;
  cs_pending : bytes;
  cs_retransmit : list Crypto;
  cs_received : RangeSet;
  cs_buffer : bytes;
  cs_read_offset : Z }.

Record PnSpace : Type := mkPnSpace {
  ps_keys : KeyState;
  ps_next_packet_number : Z;
  ps_largest_received : Z;
  ps_ecn : EcnState;
  ps_received : RangeSet;
  ps_ack_eliciting_pending : bool;
  ps_crypto : CryptoState;
  ps_discarded : bool }.

Definition new_KeyState : KeyState :=
  mkKeyState None None None None false [] [] None None 0 (Some 0) 0.
Definition new_PnSpace : PnSpace :=
  mkPnSpace new_KeyState 0 (-1) (mkEcnState 0 0 0 0 0 0) empty_ranges false
    (mkCryptoState 0 [] [] empty_ranges [] 0) false.

(** Field updates. *)
Definition set_keys (k : KeyState) (s : PnSpace) : PnSpace :=
  mkPnSpace k (ps_next_packet_number s) (ps_largest_received s) (ps_ecn s) (ps_received s)
    (ps_ack_eliciting_pending s) (ps_crypto s) (ps_discarded s).
Definition set_next_packet_number (n : Z) (s : PnSpace) : PnSpace :=
  mkPnSpace (ps_keys s) n (ps_largest_received s) (ps_ecn s) (ps_received s)
    (ps_ack_eliciting_pending s) (ps_crypto s) (ps_discarded s).
Definition set_largest_received (n : Z) (s : PnSpace) : PnSpace :=
  mkPnSpace (ps_keys s) (ps_next_packet_number s) n (ps_ecn s) (ps_received s)
    (ps_ack_eliciting_pending s) (ps_crypto s) (ps_discarded s).
Definition set_ecn (e : EcnState) (s : PnSpace) : PnSpace :=
  mkPnSpace (ps_keys s) (ps_next_packet_number s) (ps_largest_received s) e (ps_received s)
    (ps_ack_eliciting_pending s) (ps_crypto s) (ps_discarded s).
Definition set_received (r : RangeSet) (s : PnSpace) : PnSpace :=
  mkPnSpace (ps_keys s) (ps_next_packet_number s) (ps_largest_received s) (ps_ecn s) r
    (ps_ack_eliciting_pending s) (ps_crypto s) (ps_discarded s).
Definition set_ack_eliciting_pending (b : bool) (s : PnSpace) : PnSpace :=
  mkPnSpace (ps_keys s) (ps_next_packet_number s) (ps_largest_received s) (ps_ecn s) (ps_received s)
    b (ps_crypto s) (ps_discarded s).
Definition set_crypto (c : CryptoState) (s : PnSpace) : PnSpace :=
  mkPnSpace (ps_keys s) (ps_next_packet_number s) (ps_largest_received s) (ps_ecn s) (ps_received s)
    (ps_ack_eliciting_pending s) c (ps_discarded s).

(** Key fields: the four key slots, and the phase bookkeeping. *)
Definition set_key_slots (send recv send_early recv_early : option PacketKeys) (k : KeyState) : KeyState :=
  mkKeyState send recv send_early recv_early (ks_key_phase k) (ks_secret_send k) (ks_secret_recv_next k)
    (ks_recv_next k) (ks_recv_previous k) (ks_recv_previous_expiry k) (ks_phase_first k) (ks_phase_send_first k).
Definition set_send (keys : option PacketKeys) (k : KeyState) : KeyState :=
  set_key_slots keys (ks_recv k) (ks_send_early k) (ks_recv_early k) k.
Definition set_recv (keys : option PacketKeys) (k : KeyState) : KeyState :=
  set_key_slots (ks_send k) keys (ks_send_early k) (ks_recv_early k) k.
Definition set_send_early (keys : option PacketKeys) (k : KeyState) : KeyState :=
  set_key_slots (ks_send k) (ks_recv k) keys (ks_recv_early k) k.
Definition set_recv_early (keys : option PacketKeys) (k : KeyState) : KeyState :=
  set_key_slots (ks_send k) (ks_recv k) (ks_send_early k) keys k.
Definition set_secret_send (secret : bytes) (k : KeyState) : KeyState :=
  mkKeyState (ks_send k) (ks_recv k) (ks_send_early k) (ks_recv_early k) (ks_key_phase k) secret
    (ks_secret_recv_next k) (ks_recv_next k) (ks_recv_previous k) (ks_recv_previous_expiry k)
    (ks_phase_first k) (ks_phase_send_first k).
Definition set_recv_next (secret : bytes) (keys : PacketKeys) (k : KeyState) : KeyState :=
  mkKeyState (ks_send k) (ks_recv k) (ks_send_early k) (ks_recv_early k) (ks_key_phase k) (ks_secret_send k)
    secret (Some keys) (ks_recv_previous k) (ks_recv_previous_expiry k) (ks_phase_first k) (ks_phase_send_first k).
Definition set_phase_first (n : option Z) (k : KeyState) : KeyState :=
  mkKeyState (ks_send k) (ks_recv k) (ks_send_early k) (ks_recv_early k) (ks_key_phase k) (ks_secret_send k)
    (ks_secret_recv_next k) (ks_recv_next k) (ks_recv_previous k) (ks_recv_previous_expiry k)
    n (ks_phase_send_first k).

Section spaces.
Context `{Primitives}.

(** ** Keys *)

(** [_on_secret], on the space the event names. *)
Definition on_secret (is_client : bool) (event : SecretAvailable) : M KeyState unit :=
  keys ← lift (derive_packet_keys (sa_secret event) (sa_cipher_suite event));
  let ours := if is_client then CLIENT else SERVER in
  if decide (sa_direction event = ours) then
    _ ← modify (set_send (Some keys));
    modify (set_secret_send (sa_secret event))
  else
    _ ← modify (set_recv (Some keys));
    if decide (sa_level event = L_ONE_RTT) then
      '(secret, next) ← lift (next_generation (sa_secret event) keys);
      modify (set_recv_next secret next)
    else mret tt.

(** [_note_key_phase]. *)
Definition note_key_phase (unprotected : UnprotectedHeader) (k : KeyState) : KeyState :=
  if negb (Bool.eqb (uh_key_phase unprotected) (ks_key_phase k)) then k
  else if match ks_phase_first k with
          | None => true
          | Some first => uh_packet_number unprotected <? first
          end
  then set_phase_first (Some (uh_packet_number unprotected)) k
  else k.

(** [_receive_keys]: the keys, and whether using them means an update. *)
Definition receive_keys (confirmed : bool) (level : EncryptionLevel) (unprotected : UnprotectedHeader)
    (now : Q) (k : KeyState) : result (PacketKeys * bool) :=
  match ks_recv k with
  | None => Raise AssertionError
  | Some recv =>
      if bool_decide (level ≠ L_ONE_RTT) || Bool.eqb (uh_key_phase unprotected) (ks_key_phase k) then
        Ok (recv, false)
      else if match ks_phase_first k with
              | None => true
              | Some first => uh_packet_number unprotected <? first
              end
      then match ks_recv_previous k with
           | None => Ok (recv, false)
           | Some previous =>
               if Qltb (ks_recv_previous_expiry k) now then Ok (recv, false) else Ok (previous, false)
           end
      else match ks_recv_next k with
           | None => Ok (recv, false)
           | Some next => if negb confirmed then Ok (recv, false) else Ok (next, true)
           end
  end.

(** [_rotate_keys]. *)
Definition rotate_keys (pto : Q) (next_packet_number : Z) (now : Q) : M KeyState unit :=
  k ← get;
  match ks_recv_next k, ks_send k with
  | Some recv_next, Some send =>
      let current_secret := ks_secret_recv_next k in
      _ ← put (mkKeyState (ks_send k) (Some recv_next) (ks_send_early k) (ks_recv_early k) (ks_key_phase k)
                 (ks_secret_send k) (ks_secret_recv_next k) (ks_recv_next k) (ks_recv k)
                 (now + 3 * pto) (ks_phase_first k) (ks_phase_send_first k));
      '(secret_recv_next, keys_recv_next) ← lift (next_generation current_secret recv_next);
      _ ← modify (set_recv_next secret_recv_next keys_recv_next);
      '(secret_send, keys_send) ← lift (next_generation (ks_secret_send k) send);
      modify (λ k, mkKeyState (Some keys_send) (ks_recv k) (ks_send_early k) (ks_recv_early k)
                     (negb (ks_key_phase k)) secret_send (ks_secret_recv_next k) (ks_recv_next k)
                     (ks_recv_previous k) (ks_recv_previous_expiry k) None next_packet_number)
  | _, _ => raise AssertionError
  end.

(** [except (InvalidTag, ValueError): return None]. *)
Definition catch_undecryptable {A} (r : result A) : result (option A) :=
  match r with
  | Ok a => Ok (Some a)
  | Raise InvalidTag | Raise (ValueError _) => Ok None
  | Raise e => Raise e
  end.

(** The choice of keys and both protection layers, inside the [try]. *)
Definition open_packet (confirmed : bool) (level : EncryptionLevel) (packet : bytes)
    (pn_offset largest_received : Z) (now : Q) (recv : PacketKeys) (k : KeyState)
    : result (UnprotectedHeader * bool * bytes) :=
  unprotected ← remove_header_protection recv packet pn_offset largest_received;
  '(keys, updating) ← receive_keys confirmed level unprotected now k;
  payload ← decrypt_payload keys unprotected;
  Ok (unprotected, updating, payload).

(** [_decrypt]. *)
Definition decrypt (confirmed : bool) (pto : Q) (next_packet_number largest_received : Z)
    (level : EncryptionLevel) (packet : bytes) (pn_offset : Z) (now : Q) (zero_rtt : bool)
    : M KeyState (option (Z * bytes)) :=
  k ← get;
  if zero_rtt then
    match ks_recv_early k with
    | None => raise AssertionError
    | Some early => lift (catch_undecryptable (unprotect early packet pn_offset largest_received))
    end
  else
    match ks_recv k with
    | None => raise AssertionError
    | Some recv =>
        opened ← lift (catch_undecryptable
                         (open_packet confirmed level packet pn_offset largest_received now recv k));
        match opened with
        | None => mret None
        | Some (unprotected, updating, payload) =>
            _ ← (if updating : bool then rotate_keys pto next_packet_number now else mret tt);
            _ ← (if decide (level = L_ONE_RTT) then modify (note_key_phase unprotected) else mret tt);
            mret (Some (uh_packet_number unprotected, payload))
        end
    end.

(** [initiate_key_update], given the largest packet number acknowledged. *)
Definition initiate_key_update (confirmed : bool) (largest_acked : Z) (pto : Q) (next_packet_number : Z)
    (now : Q) : M KeyState bool :=
  k ← get;
  match ks_recv_next k with
  | None => mret false
  | Some _ =>
      if negb confirmed then mret false
      else if largest_acked <? ks_phase_send_first k then mret false
      else _ ← rotate_keys pto next_packet_number now; mret true
  end.

(** [_short_header_first_byte]. *)
Definition short_header_first_byte (k : KeyState) (packet_number_length : Z) : Z :=
  let first := Z.lor 0x40 (packet_number_length - 1) in
  if ks_key_phase k then Z.lor first KEY_PHASE_BIT else first.
End spaces.

(** ** Acknowledgements *)

Definition MAX_ACK_RANGES : Z := 32.

(** [_build_ack]. *)
Definition build_ack (s : PnSpace) : option Ack :=
  if negb (ps_ack_eliciting_pending s) || (ps_largest_received s <? 0) then None
  else
    let recent := drop (length (ps_received s) - Z.to_nat MAX_ACK_RANGES) (ps_received s) in
    let ranges := (λ r : range, (r.1, r.2 - 1)) <$> reverse recent in
    let e := ps_ecn s in
    let counts :=
      if negb (ec_ect0 e =? 0) || negb (ec_ect1 e =? 0) || negb (ec_ce e =? 0)
      then Some (mkEcnCounts (ec_ect0 e) (ec_ect1 e) (ec_ce e)) else None in
    Some (mkAck (ps_largest_received s) 0 ranges counts).

Definition ECT_1 : Z := 1.
Definition ECT_0 : Z := 2.
Definition ECN_CE : Z := 3.

(** The counters [_process_packet] bumps. *)
Definition count_ecn (ecn : Z) (e : EcnState) : EcnState :=
  if ecn =? ECT_0 then
    mkEcnState (ec_ect0 e + 1) (ec_ect1 e) (ec_ce e) (ec_acked_ect0 e) (ec_acked_ect1 e) (ec_acked_ce e)
  else if ecn =? ECT_1 then
    mkEcnState (ec_ect0 e) (ec_ect1 e + 1) (ec_ce e) (ec_acked_ect0 e) (ec_acked_ect1 e) (ec_acked_ce e)
  else if ecn =? ECN_CE then
    mkEcnState (ec_ect0 e) (ec_ect1 e) (ec_ce e + 1) (ec_acked_ect0 e) (ec_acked_ect1 e) (ec_acked_ce e)
  else e.

(** What [_process_packet] records of a packet it accepts. *)
Definition record_packet (packet_number ecn : Z) (s : PnSpace) : PnSpace :=
  let s := set_received (add packet_number (packet_number + 1) (ps_received s)) s in
  let s := set_ecn (count_ecn ecn (ps_ecn s)) s in
  if packet_number >? ps_largest_received s then set_largest_received packet_number s else s.

(** ** The CRYPTO stream *)

Definition MAX_CRYPTO_BUFFER : Z := 65536.

(** The reassembly half of [_handle_crypto]: the bytes that became readable,
    or [None] while a gap remains. *)
Definition store_crypto (frame : Crypto) : M CryptoState (option bytes) :=
  c ← get;
  let stop := cr_offset frame + len (cr_data frame) in
  if stop >? MAX_CRYPTO_BUFFER then
    raise (ConnectionError_ CRYPTO_BUFFER_EXCEEDED
             ("CRYPTO offset " +:+ pretty stop +:+ " exceeds the buffer limit") (Some 0))
  else
    let buffer := if len (cs_buffer c) <? stop
                  then cs_buffer c ++ zeros (stop - len (cs_buffer c)) else cs_buffer c in
    let buffer := splice (cr_offset frame) stop (cr_data frame) buffer in
    let received := add (cr_offset frame) stop (cs_received c) in
    let readable_end := contiguous_from (cs_read_offset c) received in
    if readable_end =? cs_read_offset c then
      _ ← put (mkCryptoState (cs_offset_sent c) (cs_pending c) (cs_retransmit c) received buffer (cs_read_offset c));
      mret None
    else
      let ordered := slice (cs_read_offset c) readable_end buffer in
      _ ← put (mkCryptoState (cs_offset_sent c) (cs_pending c) (cs_retransmit c) received buffer readable_end);
      mret (Some ordered).

(** The CRYPTO part of [_pending_frames]: retransmissions first. *)
Definition take_crypto (available : Z) (c : CryptoState) : option Crypto * CryptoState :=
  match cs_retransmit c with
  | lost :: rest =>
      if available =? 0 then (None, c)
      else
        let chunk := slice 0 available (cr_data lost) in
        let retransmit :=
          if len chunk <? len (cr_data lost)
          then mkCrypto (cr_offset lost + len chunk) (drop (length chunk) (cr_data lost)) :: rest
          else rest in
        (Some (mkCrypto (cr_offset lost) chunk),
         mkCryptoState (cs_offset_sent c) (cs_pending c) retransmit (cs_received c) (cs_buffer c) (cs_read_offset c))
  | [] =>
      let chunk := slice 0 available (cs_pending c) in
      if len chunk =? 0 then (None, c)
      else (Some (mkCrypto (cs_offset_sent c) chunk),
            mkCryptoState (cs_offset_sent c + len chunk) (drop (Z.to_nat available) (cs_pending c))
              (cs_retransmit c) (cs_received c) (cs_buffer c) (cs_read_offset c))
  end.

(** A lost CRYPTO frame, and TLS data to send. *)
Definition requeue_crypto (frame : Crypto) (c : CryptoState) : CryptoState :=
  mkCryptoState (cs_offset_sent c) (cs_pending c) (cs_retransmit c ++ [frame]) (cs_received c)
    (cs_buffer c) (cs_read_offset c).
Definition queue_crypto (data : bytes) (c : CryptoState) : CryptoState :=
  mkCryptoState (cs_offset_sent c) (cs_pending c ++ data) (cs_retransmit c) (cs_received c)
    (cs_buffer c) (cs_read_offset c).

(** [_discard_space], the space's own fields. *)
Definition discard (s : PnSpace) : PnSpace :=
  mkPnSpace (set_recv None (set_send None (ps_keys s))) (ps_next_packet_number s) (ps_largest_received s)
    (ps_ecn s) (ps_received s) (ps_ack_eliciting_pending s)
    (mkCryptoState (cs_offset_sent (ps_crypto s)) [] [] (cs_received (ps_crypto s))
       (cs_buffer (ps_crypto s)) (cs_read_offset (ps_crypto s))) true.
