(* ===== verification/CryptoStream.v ===== *)
(** * The CRYPTO stream, end to end

    Two endpoints' CRYPTO halves of one encryption level ([take_crypto],
    [requeue_crypto], [queue_crypto] on one side, [store_crypto] on the other)
    with a network that loses, repeats and reorders frames in between.  The
    receiving half is the same reassembly as a stream's, so its invariant is
    [recv_inv] of [Streams], through the view [as_recv]. *)

From S2P Require Import Prelude Buffer Frames RangeSet Streams Crypto Protection Congestion Spaces.

(** ** The receiving half as a stream *)

Definition as_stream (f : Crypto) : Stream := mkStream 0 (cr_offset f) (cr_data f) false.
Definition as_recv (highest : Z) (c : CryptoState) : RecvStream :=
  mkRecvStream 0 0 0 RECV_RECV (cs_buffer c) (cs_received c) (cs_read_offset c) None highest.

Definition crypto_end (f : Crypto) : Z := cr_offset f + len (cr_data f).

(** [f] carries bytes of [written]. *)
Definition piece_of (written : bytes) (f : Crypto) : Prop := frame_of written false (as_stream f).

Definition recv_side_inv (written : bytes) (c : CryptoState) : Prop :=
  ∃ highest, recv_inv written false (as_recv highest c).

Lemma store_crypto_spec written c f :
  recv_side_inv written c → piece_of written f → crypto_end f <= MAX_CRYPTO_BUFFER →
  ∃ o c', store_crypto f c = (Ok o, c') ∧ recv_side_inv written c' ∧
    default [] o = slice (cs_read_offset c) (cs_read_offset c') written ∧
    0 <= cs_read_offset c <= cs_read_offset c' ∧
    cs_received c' = add (cr_offset f) (crypto_end f) (cs_received c) ∧
    ¬ covered (cs_received c') (cs_read_offset c').
Proof.
  intros [h Hi] Hf Hmax. unfold store_crypto. erewrite M_bind_ok by done. fold (crypto_end f).
  rewrite Z.gtb_ltb, (proj2 (Z.ltb_ge _ _)) by done.
  set (r := store_frame (as_stream f) (as_recv h c)).
  assert (Hr : recv_inv written false r) by apply (store_frame_inv _ _ _ _ Hi Hf).
  destruct (read r) as [d r'] eqn:Er. destruct (read_spec written false r d r' Hr Er) as (Hr' & Hd & Hle & Hnc & Hrec & _).
  pose proof (ri_read _ _ _ Hi) as Hro. cbn in Hro.
  assert (Er' : r' = as_recv (rs_highest_offset r) (mkCryptoState (cs_offset_sent c) (cs_pending c) (cs_retransmit c)
    (rs_received r) (rs_buffer r) (contiguous_from (cs_read_offset c) (rs_received r))))
    by (unfold read in Er; injection Er as <- <-; reflexivity).
  assert (Ed : d = slice (cs_read_offset c) (contiguous_from (cs_read_offset c) (rs_received r)) (rs_buffer r))
    by (unfold read in Er; injection Er as <- <-; reflexivity).
  set (e := contiguous_from (cs_read_offset c) (rs_received r)) in *.
  change (contiguous_from (cs_read_offset c) (add _ _ _)) with e.
  change (splice _ _ _ _) with (rs_buffer r). change (add _ _ _) with (rs_received r).
  rewrite Er' in Hd, Hle, Hnc, Hr'. cbn [rs_read_offset rs_received as_recv cs_read_offset cs_received cs_buffer] in *.
  change (rs_read_offset r) with (cs_read_offset c) in *.
  case_test; do 2 eexists; (split; [reflexivity|]); cbn [cs_read_offset cs_received default from_option id].
  - split; [exists (rs_highest_offset r); by rewrite <- E at 1|].
    rewrite slice_ge by lia. rewrite <- E at 4. split_and!; (done || lia).
  - split; [by exists (rs_highest_offset r)|]. rewrite <- Ed. split_and!; (done || lia).
Qed.

(** ** The sending half *)

Record send_side_inv (written : bytes) (c : CryptoState) : Prop := {
  ssi_offset : 0 <= cs_offset_sent c <= len written;
  ssi_pending : cs_pending c = drop (Z.to_nat (cs_offset_sent c)) written;
  ssi_lost : Forall (piece_of written) (cs_retransmit c) }.

Lemma piece_of_app written data f : piece_of written f → piece_of (written ++ data) f.
Proof. apply frame_of_app. Qed.

Lemma len_slice_prefix {A} n (l : list A) : 0 <= n → len (slice 0 n l) = Z.min n (len l).
Proof. intros. rewrite len_slice by lia. pose proof (len_nonneg l). lia. Qed.

Lemma slice_prefix_min {A} n (l : list A) : 0 <= n → slice 0 (Z.min n (len l)) l = slice 0 n l.
Proof.
  intros Hn. destruct (Z.le_ge_cases n (len l)) as [H|H]; [by rewrite Z.min_l|]. rewrite Z.min_r by done.
  unfold slice. rewrite drop_0, !Z.sub_0_r, !take_ge; [done| |]; unfold len in *; lia.
Qed.

(** The part of a piece before a cut, and the part after it. *)
Lemma piece_split written f n :
  piece_of written f → 0 <= n <= len (cr_data f) →
  piece_of written (mkCrypto (cr_offset f) (slice 0 n (cr_data f))) ∧
  piece_of written (mkCrypto (cr_offset f + n) (drop (Z.to_nat n) (cr_data f))).
Proof.
  intros (H0 & H1 & H2 & _) Hn. unfold frame_end in *. cbn in *.
  assert (L1 : len (slice 0 n (cr_data f)) = n) by (rewrite len_slice_prefix by lia; lia).
  assert (L2 : len (drop (Z.to_nat n) (cr_data f)) = len (cr_data f) - n) by (unfold len in *; rewrite length_drop; lia).
  split; (split_and!; cbn; unfold frame_end; cbn; rewrite ?L1, ?L2; [lia|lia| |done]).
  - rewrite H2 at 1. unfold slice. cbn [Z.to_nat]. rewrite drop_0, take_take. f_equal. lia.
  - rewrite H2 at 1. unfold slice. rewrite skipn_firstn_comm, drop_drop. f_equal; [|f_equal]; lia.
Qed.

Lemma take_crypto_spec written c available o c' :
  send_side_inv written c → 0 <= available → take_crypto available c = (o, c') →
  send_side_inv written c' ∧ from_option (piece_of written) True o ∧
  cs_offset_sent c <= cs_offset_sent c' ∧
  (∀ x, cs_offset_sent c <= x < cs_offset_sent c' → ∃ f, o = Some f ∧ cr_offset f <= x < crypto_end f).
Proof.
  intros [Ho Hp Hl] Ha. unfold take_crypto. destruct (cs_retransmit c) as [|lost rest] eqn:Er.
  - pose proof (len_slice_prefix available (cs_pending c) Ha) as Hlen.
    assert (Hlp : len (cs_pending c) = len written - cs_offset_sent c)
      by (rewrite Hp; unfold len in *; rewrite length_drop; lia).
    case_test; intros [= <- <-]; [split; [by split; rewrite ?Er|]; split; [done|]; split; [done|lia]|].
    rewrite Hlen in *. split.
    { split; cbn; [lia| |by constructor]. rewrite Hlp, Hp, drop_drop.
      destruct (Z.le_ge_cases available (len written - cs_offset_sent c)).
      - f_equal. lia.
      - rewrite !drop_ge; [done| |]; unfold len in *; lia. }
    split.
    { destruct (piece_split written (mkCrypto (cs_offset_sent c) (cs_pending c)) (Z.min available (len (cs_pending c)))) as [H _].
      - split_and!; unfold frame_end; cbn; [lia|lia| |done]. rewrite Hlp. unfold slice. rewrite Hp.
        symmetry. apply take_ge. rewrite length_drop. unfold len. lia.
      - cbn. lia.
      - cbn in H. by rewrite slice_prefix_min in H. }
    cbn. split; [lia|]. intros x Hx. eexists. split; [done|]. unfold crypto_end. cbn. rewrite Hlen. lia.
  - apply Forall_cons in Hl as [Hlost Hrest].
    case_test; intros [= <- <-]; [split; [split; [done|done|rewrite Er; by constructor]|]; split; [done|]; split; [done|lia]|].
    pose proof (len_slice_prefix available (cr_data lost) Ha) as Hlen.
    destruct (piece_split written lost (len (slice 0 available (cr_data lost)))) as [H1 H2].
    { done. } { rewrite Hlen. pose proof (len_nonneg (cr_data lost)). lia. }
    split; [split; cbn; [done|done|]|].
    + case_test; [|done]. constructor; [|done]. by rewrite Z_to_nat_len in H2.
    + split; [|cbn; split; [done|lia]]. cbn. by rewrite Hlen, slice_prefix_min in H1.
Qed.

(** ** The channel *)

Record crypto_channel : Type := mkCryptoChannel {
  cch_written : bytes;
  cch_send : CryptoState;
  cch_sent : list Crypto;
  cch_recv : CryptoState;
  cch_tls : bytes }.

Definition fresh_crypto : CryptoState := ps_crypto new_PnSpace.
Definition new_crypto_channel : crypto_channel := mkCryptoChannel [] fresh_crypto [] fresh_crypto [].

(** TLS queues bytes; a packet takes a CRYPTO frame; loss detection or a probe
    requeues a frame sent before; the network delivers any frame sent before,
    as often and in whatever order it likes, and what becomes readable is
    passed to the peer's TLS. *)
Inductive crypto_step : crypto_channel → crypto_channel → Prop :=
| cstep_queue ch data :
    crypto_step ch (mkCryptoChannel (cch_written ch ++ data) (queue_crypto data (cch_send ch)) (cch_sent ch)
                      (cch_recv ch) (cch_tls ch))
| cstep_send ch available f c' :
    0 <= available → take_crypto available (cch_send ch) = (Some f, c') →
    crypto_step ch (mkCryptoChannel (cch_written ch) c' (f :: cch_sent ch) (cch_recv ch) (cch_tls ch))
| cstep_lost ch f :
    f ∈ cch_sent ch →
    crypto_step ch (mkCryptoChannel (cch_written ch) (requeue_crypto f (cch_send ch)) (cch_sent ch)
                      (cch_recv ch) (cch_tls ch))
| cstep_deliver ch f o c' :
    f ∈ cch_sent ch → store_crypto f (cch_recv ch) = (Ok o, c') →
    crypto_step ch (mkCryptoChannel (cch_written ch) (cch_send ch) (cch_sent ch) c' (cch_tls ch ++ default [] o)).

Inductive crypto_reachable : crypto_channel → Prop :=
| creach_init : crypto_reachable new_crypto_channel
| creach_step ch ch' : crypto_reachable ch → crypto_step ch ch' → crypto_reachable ch'.

Record crypto_channel_inv (ch : crypto_channel) : Prop := {
  cci_send : send_side_inv (cch_written ch) (cch_send ch);
  cci_recv : recv_side_inv (cch_written ch) (cch_recv ch);
  cci_pieces : Forall (piece_of (cch_written ch)) (cch_sent ch);
  cci_sent : ∀ x, 0 <= x < cs_offset_sent (cch_send ch) →
    ∃ f, f ∈ cch_sent ch ∧ cr_offset f <= x < crypto_end f;
  cci_tls : cch_tls ch = slice 0 (cs_read_offset (cch_recv ch)) (cch_written ch);
  cci_hole : ¬ covered (cs_received (cch_recv ch)) (cs_read_offset (cch_recv ch)) }.

Lemma recv_side_app written data c : recv_side_inv written c → recv_side_inv (written ++ data) c.
Proof. intros [h H]. exists h. by apply recv_inv_app. Qed.

Lemma recv_side_read written c : recv_side_inv written c → 0 <= cs_read_offset c <= len written.
Proof. intros [h H]. apply (ri_read _ _ _ H). Qed.

Lemma recv_side_ranges written c : recv_side_inv written c → ranges_ok (cs_received c).
Proof. intros [h H]. apply (ri_ranges _ _ _ H). Qed.

(** A frame is stored exactly when it ends inside the buffer limit. *)
Lemma store_crypto_bounded f c o c' : store_crypto f c = (Ok o, c') → crypto_end f <= MAX_CRYPTO_BUFFER.
Proof.
  unfold store_crypto. erewrite M_bind_ok by done. fold (crypto_end f). case_test; [done|]. intros _. lia.
Qed.

Lemma crypto_step_inv ch ch' : crypto_channel_inv ch → crypto_step ch ch' → crypto_channel_inv ch'.
Proof.
  intros Hi Hstep. destruct Hstep; destruct Hi as [Hs Hr Hp Hx Ht Hh]; cbn in *.
  - pose proof (recv_side_read _ _ Hr). destruct Hs as [Ho Hpe Hl]. split; cbn; try done.
    + split; cbn; [autorewrite with lens; pose proof (len_nonneg data); lia| |].
      * rewrite Hpe, drop_app_le; [done|]. unfold len in Ho. lia.
      * eapply Forall_impl; [done|]. intros. by apply piece_of_app.
    + by apply recv_side_app.
    + eapply Forall_impl; [done|]. intros. by apply piece_of_app.
    + rewrite Ht. symmetry. apply slice_app_l; lia.
  - destruct (take_crypto_spec (cch_written ch) (cch_send ch) available (Some f) c') as (H1 & H2 & H3 & H4); try done.
    split; cbn; try done; [by constructor|].
    intros x Hx'. destruct (Z.lt_ge_cases x (cs_offset_sent (cch_send ch))).
    + destruct (Hx x) as (g & ? & ?); [lia|]. exists g. split; [by right|done].
    + destruct (H4 x) as (g & [= <-] & ?); [lia|]. exists f. split; [by left|done].
  - destruct Hs as [Ho Hpe Hl]. split; cbn; try done. split; cbn; [done|done|].
    apply Forall_app. split; [done|]. apply Forall_singleton. by eapply Forall_forall in Hp.
  - assert (piece_of (cch_written ch) f) as Hf by (by eapply Forall_forall in Hp).
    destruct (store_crypto_spec (cch_written ch) (cch_recv ch) f) as (o' & c2 & E & Hi & Hd & Hle & _ & Hnc);
      [done|done|by eapply store_crypto_bounded|].
    assert (o' = o ∧ c2 = c') as [-> ->] by (split; congruence).
    split; cbn; try done. rewrite Ht, Hd. apply slice_glue; lia.
Qed.

Lemma crypto_reachable_inv ch : crypto_reachable ch → crypto_channel_inv ch.
Proof.
  induction 1 as [|ch ch' _ IH Hstep]; [|by eapply crypto_step_inv].
  split; cbn; try done.
  - exists 0. apply (recv_inv_new 0 0).
  - lia.
  - apply covered_nil.
Qed.

(** ** Theorems *)

(** C18: TLS sees the handshake bytes in order.  Whatever the network does to
    the CRYPTO frames of a level (loss, repetition, reordering, and the
    splitting of retransmissions), the bytes handed to the receiving TLS are
    at every moment a prefix of the bytes the sending TLS queued, up to the
    first byte not yet received; and while the handshake stays within the
    64 KiB reassembly limit no frame of it is refused. *)
Theorem crypto_in_order ch (Hr : crypto_reachable ch) :
  cch_tls ch = slice 0 (cs_read_offset (cch_recv ch)) (cch_written ch) ∧
  0 <= cs_read_offset (cch_recv ch) <= len (cch_written ch) ∧
  (len (cch_written ch) <= MAX_CRYPTO_BUFFER →
   ∀ f, f ∈ cch_sent ch → ∃ o c', store_crypto f (cch_recv ch) = (Ok o, c')).
Proof.
  destruct (crypto_reachable_inv ch Hr) as [Hs Hv Hp Hx Ht Hh]. split; [done|].
  split; [by apply recv_side_read|]. intros Hmax f Hf.
  assert (piece_of (cch_written ch) f) as Hpf by (by eapply Forall_forall in Hp).
  destruct (store_crypto_spec _ _ f Hv Hpf) as (o & c' & E & _); [|eauto].
  destruct Hpf as (_ & H & _). unfold frame_end, crypto_end in *. cbn in *. lia.
Qed.

(** Nothing of the handshake is lost for good.  Once the sender's queue
    is empty and every frame it sent has been received at least once, the
    receiving TLS has been given all the bytes queued. *)
Theorem crypto_completes ch (Hr : crypto_reachable ch) (Hp : cs_pending (cch_send ch) = [])
  (Hd : Forall (λ f, covers (cr_offset f) (crypto_end f) (cs_received (cch_recv ch)) = true) (cch_sent ch)) :
  cch_tls ch = cch_written ch.
Proof.
  destruct (crypto_reachable_inv ch Hr) as [[Ho Hpe _] Hv Hpi Hx Ht Hh].
  pose proof (recv_side_read _ _ Hv) as Hro. pose proof (recv_side_ranges _ _ Hv) as Hok.
  assert (len (cch_written ch) = cs_offset_sent (cch_send ch)) as Hlen.
  { rewrite Hpe in Hp. apply (f_equal length) in Hp. rewrite length_drop in Hp. cbn in Hp. unfold len in *. lia. }
  destruct (Z.eq_dec (cs_read_offset (cch_recv ch)) (len (cch_written ch))) as [E|E].
  { rewrite Ht, E. apply slice_full. }
  destruct Hh. destruct (Hx (cs_read_offset (cch_recv ch))) as (f & Hf & Hin); [lia|].
  rewrite Forall_forall in Hd. specialize (Hd f Hf). by apply (proj1 (covers_spec _ _ _ Hok) Hd).
Qed.

(** ** Witness *)

Definition piece (off : Z) (data : bytes) : Crypto := mkCrypto off data.

(** Six bytes in two frames, delivered in the wrong order, one of them twice. *)
Definition sample_crypto : crypto_channel :=
  mkCryptoChannel [x01; x02; x03; x04; x05; x06] (mkCryptoState 6 [] [] [] [] 0)
    [piece 4 [x05; x06]; piece 0 [x01; x02; x03; x04]]
    (mkCryptoState 0 [] [] [(0, 6)] [x01; x02; x03; x04; x05; x06] 6)
    [x01; x02; x03; x04; x05; x06].

Lemma sample_crypto_reachable : crypto_reachable sample_crypto.
Proof.
  pose proof creach_init as H.
  eapply creach_step in H; [|apply (cstep_queue _ [x01; x02; x03; x04; x05; x06])].
  eapply creach_step in H; [|eapply (cstep_send _ 4); [lia|vm_compute; reflexivity]].
  eapply creach_step in H; [|eapply (cstep_send _ 4); [lia|vm_compute; reflexivity]].
  eapply creach_step in H; [|eapply (cstep_deliver _ (piece 4 [x05; x06])); [by left|vm_compute; reflexivity]].
  eapply creach_step in H; [|eapply (cstep_deliver _ (piece 0 [x01; x02; x03; x04])); [by right; left|vm_compute; reflexivity]].
  eapply creach_step in H; [|eapply (cstep_deliver _ (piece 4 [x05; x06])); [by left|vm_compute; reflexivity]].
  exact H.
Qed.

Lemma crypto_in_order_witness :
  cch_tls sample_crypto = slice 0 6 (cch_written sample_crypto) ∧
  (∀ f, f ∈ cch_sent sample_crypto → ∃ o c', store_crypto f (cch_recv sample_crypto) = (Ok o, c')).
Proof.
  destruct (crypto_in_order sample_crypto sample_crypto_reachable) as (H1 & _ & H2).
  split; [exact H1|]. apply H2. vm_compute. discriminate.
Defined.

Lemma crypto_completes_witness : cch_tls sample_crypto = cch_written sample_crypto.
Proof.
  apply (crypto_completes sample_crypto sample_crypto_reachable); [reflexivity|].
  repeat (apply Forall_cons_2; [reflexivity|]). apply Forall_nil_2.
Defined.
