(* ===== verification/Acks.v ===== *)
(** * Acknowledgements (the receive bookkeeping of connection.py)

    What [_process_packet] records of the packets it accepts
    ([record_packet]) against what [_build_ack] then says: an ACK frame names
    received packets only, always the largest, all of them while they form at
    most 32 ranges, with the ECN counts of exactly those packets, and it can
    be encoded. *)

From S2P Require Import Prelude Buffer Frames FramesProofs RangeSet Packet Crypto Protection Congestion.
From S2P Require Import Spaces.

(** ** Specification *)

(** Packets accepted in a space, as number and ECN codepoint. *)
Abbreviation arrivals := (list (Z * Z)).

Definition record_all (packets : arrivals) : PnSpace :=
  fold_left (λ s p, record_packet p.1 p.2 s) packets new_PnSpace.

Definition named (a : Ack) (x : Z) : Prop := ∃ r, r ∈ ack_ranges a ∧ r.1 <= x <= r.2.

Definition marked (codepoint : Z) (packets : arrivals) : Z :=
  len (List.filter (λ p, p.2 =? codepoint) packets).

(** ** The space's receive invariant *)

Record space_inv (packets : arrivals) (s : PnSpace) : Prop := {
  spi_ranges : ranges_ok (ps_received s);
  spi_covered : ∀ x, covered (ps_received s) x ↔ x ∈ packets.*1;
  spi_largest : ∀ x, x ∈ packets.*1 → x <= ps_largest_received s;
  spi_member : packets = [] ∧ ps_largest_received s = -1 ∨ ps_largest_received s ∈ packets.*1;
  spi_ecn : ec_ect0 (ps_ecn s) = marked ECT_0 packets ∧ ec_ect1 (ps_ecn s) = marked ECT_1 packets ∧
            ec_ce (ps_ecn s) = marked ECN_CE packets }.

Lemma Forall_one {A} (P : A → Prop) x : Forall P [x] → P x.
Proof. by rewrite Forall_singleton. Qed.

Lemma marked_snoc c packets p : marked c (packets ++ [p]) = marked c packets + (if p.2 =? c then 1 else 0).
Proof. unfold marked. rewrite List.filter_app, len_app. cbn. by destruct (p.2 =? c). Qed.

Lemma count_ecn_marked packets p e :
  ec_ect0 e = marked ECT_0 packets ∧ ec_ect1 e = marked ECT_1 packets ∧ ec_ce e = marked ECN_CE packets →
  let e' := count_ecn p.2 e in
  ec_ect0 e' = marked ECT_0 (packets ++ [p]) ∧ ec_ect1 e' = marked ECT_1 (packets ++ [p]) ∧
  ec_ce e' = marked ECN_CE (packets ++ [p]).
Proof.
  intros (H0 & H1 & H2). cbn zeta. rewrite !marked_snoc. unfold count_ecn, ECT_0, ECT_1, ECN_CE in *.
  repeat case_test; cbn; lia.
Qed.

Lemma record_packet_inv packets s p :
  0 <= p.1 → space_inv packets s → space_inv (packets ++ [p]) (record_packet p.1 p.2 s).
Proof.
  intros Hp [Hr Hc Hl Hm He]. pose proof (count_ecn_marked packets p (ps_ecn s) He) as He'.
  assert (Hrec : ps_received (record_packet p.1 p.2 s) = add p.1 (p.1 + 1) (ps_received s))
    by (unfold record_packet; by case_test).
  assert (Hecn : ps_ecn (record_packet p.1 p.2 s) = count_ecn p.2 (ps_ecn s))
    by (unfold record_packet; by case_test).
  assert (Hlar : ps_largest_received (record_packet p.1 p.2 s) = Z.max (ps_largest_received s) p.1)
    by (unfold record_packet; case_test; cbn in *; lia).
  split; rewrite ?Hrec, ?Hecn, ?Hlar, ?fmap_app; change ([p].*1) with [p.1]; try done.
  - auto with quic.
  - intros x. rewrite covered_add, Hc by done. rewrite elem_of_app, list_elem_of_singleton.
    split; (intros [?|?]; [by left|right; lia]).
  - intros x [Hx|Hx]%elem_of_app; [apply Hl in Hx; lia|]. apply list_elem_of_singleton in Hx. subst. lia.
  - right. rewrite elem_of_app, list_elem_of_singleton. destruct Hm as [[-> Hm]|Hm]; [right; lia|].
    destruct (Z.le_ge_cases p.1 (ps_largest_received s)); [left; by rewrite Z.max_l|right; lia].
Qed.

Lemma record_all_inv packets : Forall (λ p, 0 <= p.1) packets → space_inv packets (record_all packets).
Proof.
  induction packets as [|p packets IH] using rev_ind; intros Hp.
  - split; [apply ranges_ok_nil| | |by left|done].
    + intros x. split; [by intros ?%covered_nil|by intros ?%elem_of_nil].
    + by intros x ?%elem_of_nil.
  - apply Forall_app in Hp as [Hp H1%Forall_one]. unfold record_all. rewrite fold_left_app. cbn [fold_left].
    apply record_packet_inv; [exact H1|]. by apply IH.
Qed.

(** ** Ranges of an ACK *)

(** A half-open range as an inclusive one. *)
Definition inclusive (r : range) : Z * Z := (r.1, r.2 - 1).

Lemma ranges_ok_snoc l r : ranges_ok (l ++ [r]) → ranges_ok l ∧ r.1 < r.2 ∧ Forall (λ q, below q r) l.
Proof.
  intros [H1 H2]. apply Forall_app in H1 as [H1 H3%Forall_one].
  induction l as [|q l IH]; [split; [apply ranges_ok_nil|by split]|].
  apply Forall_cons in H1 as [Hq H1]. apply StronglySorted_inv in H2 as [H2 H4].
  apply Forall_app in H4 as [H4 H5%Forall_one]. destruct (IH H1 H2) as (Hok & _ & Hb).
  split; [by apply ranges_ok_cons|]. split; [done|]. by constructor.
Qed.

Lemma ack_chain_ranges l r :
  ranges_ok (l ++ [r]) → Forall (λ q, 0 <= q.1) l → ack_chain r.1 (inclusive <$> reverse l).
Proof.
  revert r. induction l as [|q l IH] using rev_ind; intros r Hok Hpos; [done|].
  apply ranges_ok_snoc in Hok as (Hok & Hr & Hb). apply Forall_app in Hb as [_ Hb%Forall_one].
  apply Forall_app in Hpos as [Hpos Hq%Forall_one]. rewrite reverse_app. cbn.
  pose proof (ranges_ok_snoc _ _ Hok) as (_ & Hqq & _). unfold below in Hb.
  split; [lia|]. split; [lia|]. by apply IH.
Qed.

Lemma drop_covered (n : nat) rs x : covered (drop n rs) x → covered rs x.
Proof. rewrite <- (take_drop n rs) at 2. rewrite covered_app. by right. Qed.

Lemma ranges_ok_drop (n : nat) rs : ranges_ok rs → ranges_ok (drop n rs).
Proof.
  intros [H1 H2]. split; [by apply Forall_drop|]. eapply sublist_sorted; [|done]. apply sublist_drop.
Qed.

Lemma named_inclusive rs x a : ack_ranges a = inclusive <$> reverse rs → named a x ↔ covered rs x.
Proof.
  intros E. unfold named, covered. rewrite E. split.
  - intros (r & Hr & Hx). apply list_elem_of_fmap in Hr as (q & -> & Hq). rewrite elem_of_reverse in Hq.
    exists q. cbn in Hx. split; [done|lia].
  - intros (q & Hq & Hx). exists (inclusive q). cbn. split; [|lia].
    apply list_elem_of_fmap. exists q. split; [done|]. by apply elem_of_reverse.
Qed.

Lemma marked_bounds c packets : 0 <= marked c packets <= len packets.
Proof. unfold marked, len. pose proof (List.filter_length_le (λ p : Z * Z, p.2 =? c) packets). lia. Qed.

(** The last of a non-empty list of ranges ends just above the largest. *)
Lemma last_range l r largest :
  ranges_ok (l ++ [r]) → covered (l ++ [r]) largest → (∀ x, covered (l ++ [r]) x → x <= largest) →
  largest = r.2 - 1.
Proof.
  intros Hok Hc Hmax. apply ranges_ok_snoc in Hok as (_ & Hr & Hb).
  assert (r.2 - 1 <= largest) by (apply Hmax, covered_app; right; apply covered_cons; left; lia).
  apply covered_app in Hc as [(q & Hq & Hx)|[?|[]%covered_nil]%covered_cons]; [|lia].
  rewrite Forall_forall in Hb. specialize (Hb q Hq). unfold below in Hb. lia.
Qed.

(** The ranges an ACK reports: their last is the one that ends with the
    largest packet number. *)
Lemma recent_ranges rs largest (n : nat) :
  ranges_ok rs → covered rs largest → (∀ x, covered rs x → x <= largest) → (∀ x, covered rs x → 0 <= x <= MAX_PACKET_NUMBER) →
  (0 < n)%nat →
  ∃ l r, drop (length rs - n) rs = l ++ [r] ∧ largest = r.2 - 1 ∧ ack_chain r.1 (inclusive <$> reverse l) ∧
    (length l < n)%nat ∧ 0 <= r.1 < r.2.
Proof.
  intros Hok Hc Hmax Hpos Hn. set (recent := drop (length rs - n) rs).
  assert (Hlen : (length recent = length rs `min` n)%nat) by (unfold recent; rewrite length_drop; lia).
  assert (Hrok : ranges_ok recent) by (by apply ranges_ok_drop).
  assert (Hin : ∀ x, covered recent x → covered rs x) by (intros x; apply drop_covered).
  destruct rs as [|q rs' _] using rev_ind; [by apply covered_nil in Hc|].
  assert (∃ l, recent = l ++ [q]) as [l El].
  { unfold recent. rewrite length_app. cbn. rewrite drop_app_le by lia. eauto. }
  clearbody recent. subst recent. exists l, q.
  assert (largest = q.2 - 1) by (by apply (last_range rs' q largest)).
  assert (Hq : ∀ z, z ∈ l ++ [q] → 0 <= z.1).
  { intros z Hz. destruct Hrok as [Hne _]. rewrite Forall_forall in Hne. specialize (Hne z Hz).
    apply (Hpos z.1), Hin. exists z. split; [done|lia]. }
  split; [done|]. split; [done|]. split; [|split].
  - apply ack_chain_ranges; [done|]. apply Forall_forall. intros z Hz. apply Hq. set_solver.
  - rewrite length_app in Hlen. cbn in Hlen. lia.
  - split; [apply Hq; set_solver|]. by apply ranges_ok_snoc in Hrok as (_ & ? & _).
Qed.

(** ** Theorem *)

(** C29: acknowledgements are sound.  After any non-empty sequence of accepted
    packets (their numbers in order or not, their datagrams marked or not) an
    acknowledgement that is due is built, its frame is well-formed (so it
    encodes, and the peer parses it back), it names only packet numbers that
    were received, it names the largest, it names all of them if they form at
    most 32 ranges, and the ECN counts it carries are the numbers of packets
    that arrived with each codepoint (none are carried when all are zero). *)
Theorem ack_sound (packets : arrivals) (Hne : packets ≠ [])
  (Hp : Forall (λ p, 0 <= p.1 <= MAX_PACKET_NUMBER) packets) (Hn : len packets <= VARINT_MAX) :
  let s := set_ack_eliciting_pending true (record_all packets) in
  ∃ a, build_ack s = Some a ∧ wf_frame (FAck a) ∧
    (∀ x, named a x → x ∈ packets.*1) ∧
    named a (ack_largest a) ∧ (∀ x, x ∈ packets.*1 → x <= ack_largest a) ∧
    (len (ps_received s) <= MAX_ACK_RANGES → ∀ x, x ∈ packets.*1 → named a x) ∧
    default (mkEcnCounts 0 0 0) (ack_ecn a) =
      mkEcnCounts (marked ECT_0 packets) (marked ECT_1 packets) (marked ECN_CE packets).
Proof.
  assert (Hinv : space_inv packets (record_all packets))
    by (apply record_all_inv; eapply Forall_impl; [done|]; cbn; lia).
  destruct Hinv as [Hr Hc Hl Hm (E0 & E1 & E2)]. cbn zeta. set (s := record_all packets) in *.
  destruct Hm as [[? _]|Hm]; [done|].
  assert (Hpn : ∀ x, x ∈ packets.*1 → 0 <= x <= MAX_PACKET_NUMBER).
  { intros x (p & -> & Hin)%list_elem_of_fmap. by eapply Forall_forall in Hp. }
  pose proof (Hpn _ Hm) as Hlr.
  unfold build_ack. cbn. rewrite (proj2 (Z.ltb_ge _ 0)) by lia.
  change (λ r : range, (r.1, r.2 - 1)) with inclusive.
  destruct (recent_ranges (ps_received s) (ps_largest_received s) (Z.to_nat MAX_ACK_RANGES))
    as (l & r & Er & Hmax & Hchain & Hlen & Hr1); [done|by apply Hc|intros x Hx; by apply Hl, Hc|intros x Hx; by apply Hpn, Hc|unfold MAX_ACK_RANGES; lia|].
  rewrite Er. set (counts := if negb _ || _ || _ then Some _ else None).
  assert (Hcounts : default (mkEcnCounts 0 0 0) counts =
    mkEcnCounts (marked ECT_0 packets) (marked ECT_1 packets) (marked ECN_CE packets)).
  { unfold counts. rewrite <- E0, <- E1, <- E2. case_test; cbn; [done|]. bool_cases. congruence. }
  set (a := mkAck _ _ _ _). exists a.
  assert (Hnamed : ∀ x, named a x ↔ covered (l ++ [r]) x) by (intros x; by apply named_inclusive).
  split; [done|]. split.
  { split; [cbn; unfold MAX_PACKET_NUMBER in *; unfold varint_ok, VARINT_MAX; lia|]. split; [done|]. split.
    - cbn. unfold counts. case_test; [|done]. cbn. rewrite E0, E1, E2. unfold wf_ecn, varint_ok. cbn.
      pose proof (marked_bounds ECT_0 packets). pose proof (marked_bounds ECT_1 packets).
      pose proof (marked_bounds ECN_CE packets). lia.
    - exists r.1, (inclusive <$> reverse l). change (ack_largest a) with (ps_largest_received s).
      change (ack_ranges a) with (inclusive <$> reverse (l ++ [r])).
      split; [by rewrite reverse_app, Hmax|]. split; [lia|]. split; [done|]. unfold len. rewrite length_fmap, length_reverse.
      unfold VARINT_MAX, MAX_ACK_RANGES in *. lia. }
  split; [intros x Hx%Hnamed; apply Hc; rewrite <- Er in Hx; by apply drop_covered in Hx|].
  split; [apply Hnamed, covered_app; right; apply covered_cons; left; cbn; lia|].
  split; [done|]. split; [|done]. intros Hfew x Hx%Hc. apply Hnamed. rewrite <- Er.
  replace (_ - _)%nat with 0%nat; [done|]. unfold len in Hfew. lia.
Qed.

(** ** Witness *)

(** Four packets, out of order and with a hole, one marked CE. *)
Definition sample_arrivals : arrivals := [(0, 2); (5, 2); (1, 3); (6, 2)].

Lemma ack_sound_witness :
  ∃ a, build_ack (set_ack_eliciting_pending true (record_all sample_arrivals)) = Some a ∧ wf_frame (FAck a) ∧
    (∀ x, named a x → x ∈ sample_arrivals.*1) ∧ named a (ack_largest a).
Proof.
  destruct (ack_sound sample_arrivals) as (a & H1 & H2 & H3 & H4 & _);
    [discriminate|repeat (apply Forall_cons_2; [done|]); apply Forall_nil_2|done|].
  exists a. split; [exact H1|]. split; [exact H2|]. split; [exact H3|exact H4].
Defined.
