(* ===== verification/KeyUpdate.v ===== *)
(** * Key updates (RFC 9001 section 6, the key methods of connection.py)

    The 1-RTT keys of a direction form a sequence of generations, each
    derived from the one before by [next_generation].  [epoch n] says that a
    space's keys sit at generation [n] in both directions; the theorems say
    how [_decrypt] and [initiate_key_update] move it, which generations a
    packet is ever opened with, and that an update by the peer is
    followed. *)

From S2P Require Import Prelude Buffer Frames FramesProofs Packet Crypto Protection Congestion TlsInterface Spaces.

Section epochs.
Context `{HP : Primitives} `{HL : !PrimitiveLaws HP}.

(** ** Generations *)

Fixpoint generation (secret : bytes) (keys : PacketKeys) (n : nat) : result (bytes * PacketKeys) :=
  match n with
  | O => Ok (secret, keys)
  | S k => '(s, ks) ← generation secret keys k; next_generation s ks
  end.

(** Every generation exists, and shares the header protection key. *)
Lemma generation_ok secret keys n :
  keys_ok keys →
  ∃ s k, generation secret keys n = Ok (s, k) ∧ keys_ok k ∧ pk_hp k = pk_hp keys ∧
    pk_cipher_suite k = pk_cipher_suite keys.
Proof.
  intros Hk. induction n as [|n (s & k & E & Ho & Hh & Hc)]; [by exists secret, keys|].
  destruct (next_generation_ok s k Ho) as (s' & k' & E' & Ho' & _ & Hh' & Hc').
  exists s', k'. cbn. rewrite E. cbn. rewrite E'. split_and!; congruence.
Qed.

Lemma generation_step secret keys n s k : generation secret keys n = Ok (s, k) →
  generation secret keys (S n) = next_generation s k.
Proof. intros E. cbn. by rewrite E. Qed.

(** Header protection does not depend on the generation. *)
Lemma remove_header_protection_hp k k' packet off largest :
  pk_hp k = pk_hp k' → pk_cipher_suite k = pk_cipher_suite k' →
  remove_header_protection k packet off largest = remove_header_protection k' packet off largest.
Proof. intros Hh Hc. unfold remove_header_protection, header_protection_mask. by rewrite Hh, Hc. Qed.

(** ** Epochs *)

(** The traffic secrets the handshake delivered, and the keys derived from
    them. *)
Record traffic : Type := mkTraffic {
  tr_recv_secret : bytes; tr_recv_keys : PacketKeys; tr_send_secret : bytes; tr_send_keys : PacketKeys }.

Definition traffic_ok (t : traffic) : Prop := keys_ok (tr_recv_keys t) ∧ keys_ok (tr_send_keys t).

Definition recv_gen (t : traffic) (n : nat) : result (bytes * PacketKeys) :=
  generation (tr_recv_secret t) (tr_recv_keys t) n.
Definition send_gen (t : traffic) (n : nat) : result (bytes * PacketKeys) :=
  generation (tr_send_secret t) (tr_send_keys t) n.

Record epoch (t : traffic) (n : nat) (k : KeyState) : Prop := {
  ep_recv : ∃ s r, recv_gen t n = Ok (s, r) ∧ ks_recv k = Some r;
  ep_next : ∃ r, recv_gen t (S n) = Ok (ks_secret_recv_next k, r) ∧ ks_recv_next k = Some r;
  ep_send : ∃ r, send_gen t n = Ok (ks_secret_send k, r) ∧ ks_send k = Some r;
  ep_phase : ks_key_phase k = Nat.odd n;
  ep_previous : ks_recv_previous k = None ∨
    ∃ m s r, n = S m ∧ recv_gen t m = Ok (s, r) ∧ ks_recv_previous k = Some r }.

(** Installing both application secrets, in either order. *)
Lemma on_secret_epoch (is_client recv_first : bool) rs ss suite :
  let mine := mkSecretAvailable L_ONE_RTT (if is_client then CLIENT else SERVER) ss suite in
  let theirs := mkSecretAvailable L_ONE_RTT (if is_client then SERVER else CLIENT) rs suite in
  ∃ t (k : KeyState), tr_recv_secret t = rs ∧ tr_send_secret t = ss ∧ traffic_ok t ∧
    (if recv_first then mbind (M := M KeyState) (λ _, on_secret is_client mine) (on_secret is_client theirs)
     else mbind (M := M KeyState) (λ _, on_secret is_client theirs) (on_secret is_client mine)) new_KeyState
      = (Ok tt, k) ∧
    epoch t 0 k.
Proof.
  cbn zeta. destruct (derive_packet_keys_ok rs suite) as (rk & Er & Hr & _).
  destruct (derive_packet_keys_ok ss suite) as (sk & Es & Hs & _).
  destruct (next_generation_ok rs rk Hr) as (rs' & rk' & En & _).
  exists (mkTraffic rs rk ss sk). eexists. split; [done|]. split; [done|]. split; [done|].
  split; [destruct recv_first, is_client; unfold on_secret; cbn [sa_secret sa_cipher_suite sa_direction sa_level];
    unfold mbind, M_bind, lift; rewrite ?Er, ?Es; cbn; rewrite ?En, ?Er, ?Es; cbn; rewrite ?En; cbn; reflexivity|].
  destruct recv_first, is_client; (split; [by do 2 eexists|by eexists; split; [cbn; rewrite En|]|by eexists|done|by left]).
Qed.

(** ** Rotation *)

Lemma rotate_keys_epoch t n k pto npn now :
  traffic_ok t → epoch t n k →
  ∃ k', rotate_keys pto npn now k = (Ok tt, k') ∧ epoch t (S n) k' ∧
    ks_recv_previous k' = ks_recv k ∧ ks_recv_previous_expiry k' = (now + 3 * pto)%Q ∧
    ks_phase_first k' = None ∧ ks_phase_send_first k' = npn.
Proof.
  intros [Hr Hs] [(sr & r & E1 & R1) (r' & E2 & R2) (ss & E3 & R3) Hp _].
  destruct (generation_ok (tr_recv_secret t) _ (S n) Hr) as (s2 & k2 & G2 & Hk2 & _).
  unfold recv_gen, send_gen in *. rewrite E2 in G2. injection G2 as <- <-.
  destruct (next_generation_ok (ks_secret_recv_next k) r' Hk2) as (s3 & k3 & G3 & _).
  destruct (generation_ok (tr_send_secret t) _ n Hs) as (s4 & k4 & G4 & Hk4 & _).
  rewrite E3 in G4. injection G4 as <- <-.
  destruct (next_generation_ok (ks_secret_send k) ss Hk4) as (s5 & k5 & G5 & _).
  eexists. split.
  { unfold rotate_keys. erewrite M_bind_ok by done. rewrite R2, R3.
    erewrite M_bind_ok by done. erewrite M_bind_ok by (unfold lift; by rewrite G3). cbv beta iota.
    erewrite M_bind_ok by done. erewrite M_bind_ok by (unfold lift; by rewrite G5). reflexivity. }
  split; [|done]. split; cbn -[generation recv_gen send_gen].
  - by exists (ks_secret_recv_next k), r'.
  - exists k3. split; [|done]. unfold recv_gen. by rewrite (generation_step _ _ _ _ _ E2).
  - exists k5. split; [|done]. unfold send_gen. by rewrite (generation_step _ _ _ _ _ E3).
  - by rewrite Hp, Nat.odd_succ, <- Nat.negb_odd.
  - right. exists n, sr, r. done.
Qed.

Lemma note_key_phase_epoch t n k u : epoch t n k → epoch t n (note_key_phase u k).
Proof. intros []. unfold note_key_phase. repeat case_test; by split. Qed.

(** ** Opening packets *)

(** What [unprotect] raises, for each of its two halves: the second uses keys
    the first selected. *)
Lemma remove_raises keys packet off largest e :
  keys_ok keys → 1 <= off → remove_header_protection keys packet off largest = Raise e →
  ∃ msg, e = ValueError msg.
Proof.
  intros Hk Ho H. destruct (Z.lt_ge_cases (len packet) (off + 20)) as [Hs|Hs].
  - unfold remove_header_protection, MAX_PN_LENGTH, SAMPLE_LENGTH in H.
    rewrite (proj2 (Z.ltb_lt _ 16)) in H; [injection H as <-; eauto|]. rewrite len_slice by lia. lia.
  - destruct (packet_split keys packet off Hk Ho Hs) as (y & mid & q & ct & m0 & ms & -> & -> & Hq & Hsam & Hm & Hms).
    erewrite remove_shape in H by done. discriminate.
Qed.

Lemma decrypt_raises recv keys packet off largest u e :
  keys_ok recv → keys_ok keys → 1 <= off → -1 <= largest < 2 ^ 62 → len packet <= AEAD_LIMIT →
  remove_header_protection recv packet off largest = Ok u → decrypt_payload keys u = Raise e → e = InvalidTag.
Proof.
  intros Hr Hk Ho Hl Hlen Hu Hd.
  destruct (Z.lt_ge_cases (len packet) (off + 20)) as [Hs|Hs].
  { unfold remove_header_protection, MAX_PN_LENGTH, SAMPLE_LENGTH in Hu.
    rewrite (proj2 (Z.ltb_lt _ 16)) in Hu; [done|]. rewrite len_slice by lia. lia. }
  destruct (packet_split recv packet off Hr Ho Hs) as (y & mid & q & ct & m0 & ms & -> & -> & Hq & Hsam & Hm & Hms).
  erewrite remove_shape in Hu by done. injection Hu as <-.
  pose proof (pn_length_range (flip y m0)) as Hrg. pose proof (len_zip_bxor q ms ltac:(lia)) as Hz.
  assert (0 <= decode_packet_number largest (from_bytes (zip_with bxor q ms)) (len q * 8) < 2 ^ 64) as Hdec
    by (rewrite <- Hz; apply decode_bytes_range; lia).
  unfold decrypt_payload in Hd. cbn [uh_packet_number uh_ciphertext uh_header] in Hd.
  destruct (nonce_ok (pk_iv keys) _ (ko_iv _ Hk) Hdec) as (nn & Hn & Hnl). rewrite Hn in Hd. cbn [mbind result_bind] in Hd.
  autorewrite with lens in Hlen. pose proof (len_nonneg mid). pose proof (len_nonneg ct).
  eapply (open_refuses _ _ _ (aead_ok keys Hk) [] nn ct); [done|done|lia| |done]. autorewrite with lens. lia.
Qed.

(** The generation [_receive_keys] selects. *)
Lemma receive_keys_epoch t n k confirmed u now :
  epoch t n k →
  ∃ m s keys updating, receive_keys confirmed L_ONE_RTT u now k = Ok (keys, updating) ∧
    recv_gen t m = Ok (s, keys) ∧
    (m = n ∧ updating = false ∨
     m = S n ∧ updating = true ∧ confirmed = true ∧ uh_key_phase u ≠ ks_key_phase k ∨
     n = S m ∧ updating = false ∧ (now <= ks_recv_previous_expiry k)%Q ∧ uh_key_phase u ≠ ks_key_phase k).
Proof.
  intros [(s & r & E1 & R1) (r' & E2 & R2) _ _ Hprev]. unfold receive_keys. rewrite R1, R2.
  rewrite bool_decide_false by tauto. cbn [orb].
  destruct (Bool.eqb _ _) eqn:Eq; [by exists n, s, r, false; eauto|]. apply eqb_false_iff in Eq.
  assert (∃ m s' keys updating, Ok (r, false) = Ok (keys, updating) ∧ recv_gen t m = Ok (s', keys) ∧
     (m = n ∧ updating = false ∨
     m = S n ∧ updating = true ∧ confirmed = true ∧ uh_key_phase u ≠ ks_key_phase k ∨
     n = S m ∧ updating = false ∧ (now <= ks_recv_previous_expiry k)%Q ∧ uh_key_phase u ≠ ks_key_phase k)) as Hcur
    by (exists n, s, r, false; eauto).
  destruct (match ks_phase_first k with None => true | Some first => _ end).
  - destruct Hprev as [->|(m & s' & p & -> & Ep & ->)]; [done|]. case_test; [done|]. q_cases.
    exists m, s', p, false. split; [done|]. split; [done|]. right. right. done.
  - destruct confirmed; cbn [negb]; [|done]. exists (S n), (ks_secret_recv_next k), r', true. eauto 10.
Qed.

(** ** Theorems *)

(** A received 1-RTT packet moves the keys by at most one generation, and
    only when it proves the peer updated.  From generation [n], whatever the
    packet, [_decrypt] raises nothing: it drops the packet and leaves every
    key as it was, or returns a packet number and payload that authenticate
    under generation [n], leaving the space there; under [n+1], which is only
    tried once the handshake is confirmed and moves both directions to
    [n+1] together; or under [n-1], which is only tried until the expiry set
    by the last rotation. *)
Theorem decrypt_tracks_generations t n k confirmed pto npn largest packet off now
  (Ht : traffic_ok t) (He : epoch t n k) (Ho : 1 <= off) (Hl : -1 <= largest < 2 ^ 62)
  (Hlen : len packet <= AEAD_LIMIT) :
  ∃ r k', decrypt confirmed pto npn largest L_ONE_RTT packet off now false k = (Ok r, k') ∧
  match r with
  | None => k' = k
  | Some (pn, payload) =>
      ∃ m s keys u, recv_gen t m = Ok (s, keys) ∧
        remove_header_protection (tr_recv_keys t) packet off largest = Ok u ∧
        uh_packet_number u = pn ∧ decrypt_payload keys u = Ok payload ∧
        (m = n ∧ epoch t n k' ∨
         m = S n ∧ confirmed = true ∧ uh_key_phase u ≠ ks_key_phase k ∧ epoch t (S n) k' ∨
         n = S m ∧ (now <= ks_recv_previous_expiry k)%Q ∧ epoch t n k')
  end.
Proof.
  destruct (ep_recv _ _ _ He) as (s & recv & E1 & R1). destruct Ht as [Hr Hs].
  destruct (generation_ok (tr_recv_secret t) _ n Hr) as (s1 & r1 & G1 & Hk1 & Hh1 & Hc1).
  unfold recv_gen in E1. rewrite E1 in G1. injection G1 as <- <-.
  unfold decrypt. erewrite M_bind_ok by done. rewrite R1. unfold open_packet.
  rewrite (remove_header_protection_hp recv (tr_recv_keys t)) by done.
  destruct (remove_header_protection (tr_recv_keys t) packet off largest) as [u|e] eqn:Eu.
  2: { destruct (remove_raises _ _ _ _ _ Hr Ho Eu) as [msg ->]. by exists None, k. }
  cbn [mbind result_bind].
  destruct (receive_keys_epoch t n k confirmed u now He) as (m & s' & keys & updating & -> & Ek & Hcase).
  cbn [mbind result_bind].
  destruct (generation_ok (tr_recv_secret t) _ m Hr) as (s2 & r2 & G2 & Hk2 & _).
  unfold recv_gen in Ek. rewrite Ek in G2. injection G2 as <- <-.
  destruct (decrypt_payload keys u) as [payload|e] eqn:Ed; cbn [mbind result_bind catch_undecryptable].
  2: { assert (e = InvalidTag) as -> by (by eapply (decrypt_raises (tr_recv_keys t) keys)).
       exists None, k. done. }
  erewrite (M_bind_ok (lift _)) by reflexivity. cbv beta iota.
  assert (Hdone : ∀ n' k1, epoch t n' k1 →
    (n' = n ∧ updating = false ∨ n' = S n ∧ updating = true) →
    (if updating then rotate_keys pto npn now else mret tt) k = (Ok tt, k1) →
    ∃ r k', (_ ← (if updating then rotate_keys pto npn now else mret tt);
             _ ← (if decide (L_ONE_RTT = L_ONE_RTT) then modify (note_key_phase u) else mret tt);
             mret (Some (uh_packet_number u, payload))) k = (Ok r, k') ∧
      r = Some (uh_packet_number u, payload) ∧ epoch t n' k').
  { intros n' k1 H1 _ Hrun. exists (Some (uh_packet_number u, payload)), (note_key_phase u k1).
    erewrite M_bind_ok by exact Hrun. rewrite decide_True by done.
    split; [done|]. split; [done|]. by apply note_key_phase_epoch. }
  destruct Hcase as [(-> & ->)|[(-> & -> & -> & Hph)|(-> & -> & Hx & Hph)]].
  - destruct (Hdone n k He) as (r & k' & -> & -> & Hk'); [by left|done|].
    eexists _, k'. split; [done|]. cbn. exists n, s', keys, u. split_and!; try done. by left.
  - destruct (rotate_keys_epoch t n k pto npn now (conj Hr Hs) He) as (k1 & Hrot & Hk1' & _).
    destruct (Hdone (S n) k1 Hk1') as (r & k' & -> & -> & Hk'); [by right|done|].
    eexists _, k'. split; [done|]. cbn. exists (S n), s', keys, u. split_and!; try done. right. by left.
  - destruct (Hdone (S m) k He) as (r & k' & -> & -> & Hk'); [by left|done|].
    eexists _, k'. split; [done|]. cbn. exists m, s', keys, u. split_and!; try done. right. by right.
Qed.

(** An endpoint starts a key update only when it may, and then both
    directions move.  From generation [n], [initiate_key_update] returns true
    exactly when the handshake is confirmed and the peer has acknowledged a
    packet sent in the current phase; the space is then at generation [n+1]
    with the phase bit flipped, the old receive keys kept until three PTOs
    from now, and the phase boundary at the next packet number.  Otherwise
    nothing changes. *)
Theorem key_update_guarded t n k confirmed largest_acked pto npn now
  (Ht : traffic_ok t) (He : epoch t n k) :
  ∃ started k', initiate_key_update confirmed largest_acked pto npn now k = (Ok started, k') ∧
    started = confirmed && (ks_phase_send_first k <=? largest_acked) ∧
    if started then epoch t (S n) k' ∧ ks_key_phase k' = negb (ks_key_phase k) ∧
                    ks_recv_previous k' = ks_recv k ∧ ks_recv_previous_expiry k' = (now + 3 * pto)%Q ∧
                    ks_phase_first k' = None ∧ ks_phase_send_first k' = npn
    else k' = k.
Proof.
  destruct (ep_next _ _ _ He) as (r & E2 & R2). unfold initiate_key_update. erewrite M_bind_ok by done.
  rewrite R2. destruct confirmed; cbn [negb andb]; [|by exists false, k].
  rewrite Z.leb_antisym. destruct (largest_acked <? ks_phase_send_first k); cbn [negb]; [by exists false, k|].
  destruct (rotate_keys_epoch t n k pto npn now Ht He) as (k' & Hrot & Hk' & Hrest).
  exists true, k'. erewrite M_bind_ok by exact Hrot. split; [done|]. split; [done|]. split; [done|].
  split; [|done]. by rewrite (ep_phase _ _ _ Hk'), (ep_phase _ _ _ He), Nat.odd_succ, <- Nat.negb_odd.
Qed.

(** The first byte of a short header carries the phase and the length. *)
Lemma short_first_byte k pnl :
  1 <= pnl <= 4 →
  0 <= short_header_first_byte k pnl < 256 ∧
  pn_length_of (bZ (short_header_first_byte k pnl)) = pnl ∧
  has_bit (Zb (bZ (short_header_first_byte k pnl))) KEY_PHASE_BIT = ks_key_phase k.
Proof.
  intros H. assert (pnl = 1 ∨ pnl = 2 ∨ pnl = 3 ∨ pnl = 4) as Hc by lia.
  unfold short_header_first_byte. destruct (ks_key_phase k); destruct Hc as [->|[->|[->| ->]]];
    (split; [vm_compute; split; [discriminate|reflexivity]|split; reflexivity]).
Qed.

(** C19: a key update by the peer is followed.  Two endpoints share a direction
    of traffic: the sender has moved to generation [n+1], the receiver is
    still at [n] with a confirmed handshake.  A short header packet the
    sender protects in its new phase, numbered from the receiver's current
    phase boundary on, is accepted with its number and payload, and the
    receiver is then at generation [n+1] too, with that packet as the phase's
    first. *)
Theorem peer_update_followed ts tr n ks kr send cid pn payload full largest pto npn now first
  (Ht : traffic_ok ts) (Hr : traffic_ok tr)
  (Hdir : tr_send_secret ts = tr_recv_secret tr ∧ tr_send_keys ts = tr_recv_keys tr)
  (Hs : epoch ts (S n) ks) (He : epoch tr n kr) (Hsend : ks_send ks = Some send)
  (Hfirst : ks_phase_first kr = Some first) (Hge : first <= full)
  (Hpn : 1 <= len pn <= 4) (Hbe : pn = be_bytes (length pn) full)
  (Hp : 4 - len pn <= len payload <= AEAD_LIMIT) (Hh : 1 + len cid + len pn <= AEAD_LIMIT)
  (Hl : -1 <= largest) (Hf : 0 <= full < 2 ^ 62)
  (Hw : largest + 1 - 2 ^ (8 * len pn - 1) < full <= largest + 1 + 2 ^ (8 * len pn - 1)) :
  ∃ packet kr', protect send (bZ (short_header_first_byte ks (len pn)) :: cid ++ pn) payload full = Ok packet ∧
    decrypt true pto npn largest L_ONE_RTT packet (1 + len cid) now false kr = (Ok (Some (full, payload)), kr') ∧
    epoch tr (S n) kr' ∧ ks_phase_first kr' = Some full.
Proof.
  destruct Hdir as [Hd1 Hd2]. destruct (ep_send _ _ _ Hs) as (sk & G & R). rewrite Hsend in R. injection R as <-.
  unfold send_gen in G. rewrite Hd1, Hd2 in G.
  destruct (generation_ok (tr_recv_secret tr) _ (S n) (proj1 Hr)) as (s1 & k1 & G1 & Hk1 & Hh1 & Hc1).
  rewrite G in G1. injection G1 as <- <-.
  destruct (ep_recv _ _ _ He) as (s0 & recv & E0 & R0). unfold recv_gen in E0.
  destruct (generation_ok (tr_recv_secret tr) _ n (proj1 Hr)) as (s2 & k2 & G2 & Hk2 & Hh2 & Hc2).
  rewrite E0 in G2. injection G2 as <- <-.
  destruct (ep_next _ _ _ He) as (next & E1 & R1). unfold recv_gen in E1. rewrite G in E1. injection E1 as Es <-.
  destruct (short_first_byte ks (len pn) Hpn) as (Hb & Hpl & Hph).
  destruct (protect_remove send (bZ (short_header_first_byte ks (len pn))) cid pn payload full largest)
    as (packet & ct & P1 & _ & P3 & P4); try done.
  { autorewrite with lens. lia. }
  exists packet. destruct (rotate_keys_epoch tr n kr pto npn now Hr He) as (k' & Hrot & Hk' & _ & _ & Hpf & _).
  assert (Hphase : ks_key_phase ks = ks_key_phase k') by (by rewrite (ep_phase _ _ _ Hs), (ep_phase _ _ _ Hk')).
  assert (Hdiff : Bool.eqb (ks_key_phase ks) (ks_key_phase kr) = false).
  { rewrite (ep_phase _ _ _ Hs), (ep_phase _ _ _ He), Nat.odd_succ, <- Nat.negb_odd. by destruct (Nat.odd n). }
  eexists. split; [exact P1|]. split.
  - unfold decrypt. erewrite M_bind_ok by done. rewrite R0. unfold open_packet.
    rewrite (remove_header_protection_hp recv send) by congruence. rewrite P3. cbn [mbind result_bind].
    unfold receive_keys. rewrite R0, R1, Hfirst. cbn [uh_key_phase uh_packet_number].
    rewrite bool_decide_false by tauto. rewrite Hph, Hdiff. cbn [orb negb].
    rewrite (proj2 (Z.ltb_ge _ _)) by done. cbn [mbind result_bind]. rewrite <- Hph, P4.
    cbn [mbind result_bind catch_undecryptable]. erewrite (M_bind_ok (lift _)) by reflexivity. cbv beta iota.
    erewrite M_bind_ok by exact Hrot. rewrite decide_True by done. reflexivity.
  - split; [by apply note_key_phase_epoch|]. unfold note_key_phase. cbn [uh_key_phase uh_packet_number].
    by rewrite Hph, Hphase, Bool.eqb_reflx, Hpf.
Qed.

(** ** A state at a given generation *)

Definition state_at (t : traffic) (n : nat) (phase_first : option Z) : KeyState :=
  match recv_gen t n, recv_gen t (S n), send_gen t n with
  | Ok (_, recv), Ok (next_secret, next), Ok (send_secret, send) =>
      mkKeyState (Some send) (Some recv) None None (Nat.odd n) send_secret next_secret (Some next) None 0
        phase_first 0
  | _, _, _ => new_KeyState
  end.

Lemma state_at_epoch t n f : traffic_ok t → epoch t n (state_at t n f) ∧ ks_phase_first (state_at t n f) = f ∧
  ∃ s send, send_gen t n = Ok (s, send) ∧ ks_send (state_at t n f) = Some send.
Proof.
  intros [Hr Hs]. unfold state_at, recv_gen, send_gen.
  destruct (generation_ok (tr_recv_secret t) _ n Hr) as (s1 & k1 & G1 & _).
  destruct (generation_ok (tr_recv_secret t) _ (S n) Hr) as (s2 & k2 & G2 & _).
  destruct (generation_ok (tr_send_secret t) _ n Hs) as (s3 & k3 & G3 & _).
  rewrite G1, G2, G3. split; [|split; [done|by exists s3, k3]].
  split; unfold recv_gen, send_gen; cbn -[generation]; eauto.
Qed.
End epochs.

(** ** Witnesses *)

Definition sample_traffic : traffic := mkTraffic [x01; x02] example_keys [x03] example_keys.
Definition peer_traffic : traffic := mkTraffic [x03] example_keys [x01; x02] example_keys.

Lemma sample_traffic_ok : traffic_ok sample_traffic ∧ traffic_ok peer_traffic.
Proof. split; split; apply example_keys_ok. Qed.

Lemma decrypt_tracks_generations_witness :
  ∃ r k', decrypt true (1 # 10) 7 4 L_ONE_RTT (replicate 40 x41) 9 5 false (state_at sample_traffic 0 (Some 0))
    = (Ok r, k').
Proof.
  destruct (decrypt_tracks_generations sample_traffic 0 (state_at sample_traffic 0 (Some 0)) true (1 # 10) 7 4
    (replicate 40 x41) 9 5 (proj1 sample_traffic_ok) (proj1 (state_at_epoch _ 0 (Some 0) (proj1 sample_traffic_ok))))
    as (r & k' & H & _); [lia|lia|done|].
  exists r, k'. exact H.
Defined.

Lemma key_update_guarded_witness :
  ∃ started k', initiate_key_update true 3 (1 # 10) 7 5 (state_at sample_traffic 0 (Some 0)) = (Ok started, k') ∧
    epoch sample_traffic 1 k'.
Proof.
  destruct (key_update_guarded sample_traffic 0 (state_at sample_traffic 0 (Some 0)) true 3 (1 # 10) 7 5
    (proj1 sample_traffic_ok) (proj1 (state_at_epoch _ 0 (Some 0) (proj1 sample_traffic_ok))))
    as (started & k' & H & Hs & Hr).
  exists started, k'. split; [exact H|]. rewrite Hs in Hr. exact (proj1 Hr).
Defined.

(** Packet 258 in the peer's phase 1, at an endpoint still in phase 0. *)
Lemma peer_update_followed_witness :
  ∃ send packet kr', ks_send (state_at peer_traffic 1 (Some 0)) = Some send ∧
    protect send (bZ (short_header_first_byte (state_at peer_traffic 1 (Some 0)) (len [x01; x02]))
      :: [x0a; x0b] ++ [x01; x02]) [x01; x00; x00] 258 = Ok packet ∧
    decrypt true (1 # 10) 7 250 L_ONE_RTT packet (1 + len [x0a; x0b]) 5 false (state_at sample_traffic 0 (Some 0))
      = (Ok (Some (258, [x01; x00; x00])), kr') ∧
    epoch sample_traffic 1 kr'.
Proof.
  destruct (state_at_epoch peer_traffic 1 (Some 0) (proj2 sample_traffic_ok)) as (He1 & _ & s & send & _ & Hsend).
  destruct (state_at_epoch sample_traffic 0 (Some 0) (proj1 sample_traffic_ok)) as (He0 & Hf0 & _).
  destruct (peer_update_followed peer_traffic sample_traffic 0 (state_at peer_traffic 1 (Some 0))
    (state_at sample_traffic 0 (Some 0)) send [x0a; x0b] [x01; x02] [x01; x00; x00] 258 250 (1 # 10) 7 5 0
    (proj2 sample_traffic_ok) (proj1 sample_traffic_ok) (conj eq_refl eq_refl) He1 He0 Hsend Hf0)
    as (packet & kr' & H1 & H2 & H3 & _); [done..|].
  exists send, packet, kr'. split; [exact Hsend|]. split; [exact H1|]. split; [exact H2|exact H3].
Defined.
