(* ===== verification/ConnState.v ===== *)
(** * The connection's state (connection.py)

    The [Connection] object of [src/dsquic/connection.py] as a record, its
    configuration, events and datagrams.  The TLS state machine is used
    through the class [Tls] of [TlsInterface]; which of [TlsClient] and
    [TlsServer] the attribute [tls] holds is decided by [is_client].  A Python [str] is the
    UTF-8 bytes of a [string]; destinations are opaque. *)

From S2P Require Import Prelude Frames Packet TransportParameters Streams StreamManager Congestion NewReno.
From S2P Require Import Recovery Crypto Protection Retry TlsInterface Spaces.

(** ** Constants *)

Definition MIN_INITIAL_DATAGRAM : Z := 1200.
Definition AMPLIFICATION_FACTOR : Z := 3.
Definition MAX_STREAMS_LIMIT : Z := 1 ≪ 60.
Definition PROBE_PACKETS : Z := 2.
Definition PACING_BURST_DATAGRAMS : Z := 10.

Definition LEVEL_TO_PACKET_TYPE (level : EncryptionLevel) : PacketType :=
  match level with L_INITIAL => INITIAL | _ => HANDSHAKE end.

(** ** Data *)

Inductive ConnectionState : Type := HANDSHAKING | CONNECTED | CLOSING | DRAINING | TERMINATED.
#[export] Instance ConnectionState_eq_dec : EqDecision ConnectionState.
Proof. solve_decision. Defined.

Record OutgoingDatagram : Type := mkOutgoingDatagram {
  og_data : bytes; og_destination : option bytes; og_ecn : Z }.

(** The reason of a peer's close is kept as the bytes of the frame. *)
Inductive ConnectionEvent : Type :=
| StreamDataReceived (stream_id : Z) (data : bytes) (end_stream : bool)
| HandshakeCompleted (alpn : string)
| HandshakeConfirmed (alpn : string)
| ConnectionTerminated (error_code : Z) (reason : bytes)
| VersionNegotiationReceived (versions : list Z).

Record ConnectionConfig : Type := mkConnectionConfig {
  cf_max_datagram_size : Z;
  cf_transport_parameters : TransportParameters;
  cf_key_update_interval : option Z;
  cf_retry : option RetryContext;
  cf_version : Z;
  cf_token : bytes }.

(** The dictionaries over [EncryptionLevel]. *)
Record PnSpaces : Type := mkPnSpaces { pns_initial : PnSpace; pns_handshake : PnSpace; pns_one_rtt : PnSpace }.
Definition get_pn (level : EncryptionLevel) (s : PnSpaces) : PnSpace :=
  match level with L_INITIAL => pns_initial s | L_HANDSHAKE => pns_handshake s | L_ONE_RTT => pns_one_rtt s end.
Definition set_pn (level : EncryptionLevel) (x : PnSpace) (s : PnSpaces) : PnSpaces :=
  match level with
  | L_INITIAL => mkPnSpaces x (pns_handshake s) (pns_one_rtt s)
  | L_HANDSHAKE => mkPnSpaces (pns_initial s) x (pns_one_rtt s)
  | L_ONE_RTT => mkPnSpaces (pns_initial s) (pns_handshake s) x
  end.

Record Probes : Type := mkProbes { pr_initial : Z; pr_handshake : Z; pr_one_rtt : Z }.
Definition get_probes (level : EncryptionLevel) (p : Probes) : Z :=
  match level with L_INITIAL => pr_initial p | L_HANDSHAKE => pr_handshake p | L_ONE_RTT => pr_one_rtt p end.
Definition add_probes (level : EncryptionLevel) (n : Z) (p : Probes) : Probes :=
  match level with
  | L_INITIAL => mkProbes (pr_initial p + n) (pr_handshake p) (pr_one_rtt p)
  | L_HANDSHAKE => mkProbes (pr_initial p) (pr_handshake p + n) (pr_one_rtt p)
  | L_ONE_RTT => mkProbes (pr_initial p) (pr_handshake p) (pr_one_rtt p + n)
  end.
Definition total_probes (p : Probes) : Z := pr_initial p + pr_handshake p + pr_one_rtt p.

Definition all_levels : list EncryptionLevel := [L_INITIAL; L_HANDSHAKE; L_ONE_RTT].

Section connection_state.
Context `{Tls}.

Record Connection : Type := mkConnection {
  cn_is_client : bool;
  cn_config : ConnectionConfig;
  cn_state : ConnectionState;
  cn_destination : option bytes;
  cn_alpn : string;
  cn_host_cid : bytes;
  cn_peer_cid : bytes;
  cn_initial_dcid : bytes;
  cn_server_config : option tls_server_config;
  cn_path_validated : bool;
  cn_path_challenges : list bytes;
  cn_ecn_enabled : bool;
  cn_retry_token : bytes;
  cn_new_tokens : list bytes;
  cn_retry_source_cid : option bytes;
  cn_original_dcid : option bytes;
  cn_local_parameters : TransportParameters;
  cn_peer_parameters : option TransportParameters;
  cn_tls : option tls_state;
  cn_remembered_parameters : option TransportParameters;
  cn_spaces : PnSpaces;
  cn_recovery : LossDetection NewReno;
  cn_streams : option StreamManager;
  cn_events : list ConnectionEvent;
  cn_pending : list OutgoingDatagram;
  cn_control_frames : list Frame;
  cn_probes_pending : Probes;
  cn_handshake_done_pending : bool;
  cn_pacing_credit : Q;
  cn_pacing_updated : option Q;
  cn_pacing_deadline : option Q;
  cn_close_frame : option ConnectionClose;
  cn_close_sent : bool;
  cn_bytes_received : Z;
  cn_bytes_sent : Z;
  cn_address_validated : bool;
  cn_idle_started : option Q;
  cn_closing_deadline : option Q;
  cn_peer_cid_confirmed : bool;
  cn_largest_time_received : list (EncryptionLevel * Q) }.

(** Field updates, one per attribute a method assigns. *)
Definition set_cn_state (v : ConnectionState) (c : Connection) : Connection :=
  mkConnection (cn_is_client c) (cn_config c) v (cn_destination c) (cn_alpn c) (cn_host_cid c) (cn_peer_cid c)
    (cn_initial_dcid c) (cn_server_config c) (cn_path_validated c) (cn_path_challenges c) (cn_ecn_enabled c)
    (cn_retry_token c) (cn_new_tokens c) (cn_retry_source_cid c) (cn_original_dcid c) (cn_local_parameters c)
    (cn_peer_parameters c) (cn_tls c) (cn_remembered_parameters c) (cn_spaces c) (cn_recovery c) (cn_streams c)
    (cn_events c) (cn_pending c) (cn_control_frames c) (cn_probes_pending c) (cn_handshake_done_pending c)
    (cn_pacing_credit c) (cn_pacing_updated c) (cn_pacing_deadline c) (cn_close_frame c) (cn_close_sent c)
    (cn_bytes_received c) (cn_bytes_sent c) (cn_address_validated c) (cn_idle_started c) (cn_closing_deadline c)
    (cn_peer_cid_confirmed c) (cn_largest_time_received c).
Definition set_cn_destination (v : option bytes) (c : Connection) : Connection :=
  mkConnection (cn_is_client c) (cn_config c) (cn_state c) v (cn_alpn c) (cn_host_cid c) (cn_peer_cid c)
    (cn_initial_dcid c) (cn_server_config c) (cn_path_validated c) (cn_path_challenges c) (cn_ecn_enabled c)
    (cn_retry_token c) (cn_new_tokens c) (cn_retry_source_cid c) (cn_original_dcid c) (cn_local_parameters c)
    (cn_peer_parameters c) (cn_tls c) (cn_remembered_parameters c) (cn_spaces c) (cn_recovery c) (cn_streams c)
    (cn_events c) (cn_pending c) (cn_control_frames c) (cn_probes_pending c) (cn_handshake_done_pending c)
    (cn_pacing_credit c) (cn_pacing_updated c) (cn_pacing_deadline c) (cn_close_frame c) (cn_close_sent c)
    (cn_bytes_received c) (cn_bytes_sent c) (cn_address_validated c) (cn_idle_started c) (cn_closing_deadline c)
    (cn_peer_cid_confirmed c) (cn_largest_time_received c).
Definition set_cn_alpn (v : string) (c : Connection) : Connection :=
  mkConnection (cn_is_client c) (cn_config c) (cn_state c) (cn_destination c) v (cn_host_cid c) (cn_peer_cid c)
    (cn_initial_dcid c) (cn_server_config c) (cn_path_validated c) (cn_path_challenges c) (cn_ecn_enabled c)
    (cn_retry_token c) (cn_new_tokens c) (cn_retry_source_cid c) (cn_original_dcid c) (cn_local_parameters c)
    (cn_peer_parameters c) (cn_tls c) (cn_remembered_parameters c) (cn_spaces c) (cn_recovery c) (cn_streams c)
    (cn_events c) (cn_pending c) (cn_control_frames c) (cn_probes_pending c) (cn_handshake_done_pending c)
    (cn_pacing_credit c) (cn_pacing_updated c) (cn_pacing_deadline c) (cn_close_frame c) (cn_close_sent c)
    (cn_bytes_received c) (cn_bytes_sent c) (cn_address_validated c) (cn_idle_started c) (cn_closing_deadline c)
    (cn_peer_cid_confirmed c) (cn_largest_time_received c).
Definition set_cn_peer_cid (v : bytes) (c : Connection) : Connection :=
  mkConnection (cn_is_client c) (cn_config c) (cn_state c) (cn_destination c) (cn_alpn c) (cn_host_cid c) v
    (cn_initial_dcid c) (cn_server_config c) (cn_path_validated c) (cn_path_challenges c) (cn_ecn_enabled c)
    (cn_retry_token c) (cn_new_tokens c) (cn_retry_source_cid c) (cn_original_dcid c) (cn_local_parameters c)
    (cn_peer_parameters c) (cn_tls c) (cn_remembered_parameters c) (cn_spaces c) (cn_recovery c) (cn_streams c)
    (cn_events c) (cn_pending c) (cn_control_frames c) (cn_probes_pending c) (cn_handshake_done_pending c)
    (cn_pacing_credit c) (cn_pacing_updated c) (cn_pacing_deadline c) (cn_close_frame c) (cn_close_sent c)
    (cn_bytes_received c) (cn_bytes_sent c) (cn_address_validated c) (cn_idle_started c) (cn_closing_deadline c)
    (cn_peer_cid_confirmed c) (cn_largest_time_received c).
Definition set_cn_initial_dcid (v : bytes) (c : Connection) : Connection :=
  mkConnection (cn_is_client c) (cn_config c) (cn_state c) (cn_destination c) (cn_alpn c) (cn_host_cid c)
    (cn_peer_cid c) v (cn_server_config c) (cn_path_validated c) (cn_path_challenges c) (cn_ecn_enabled c)
    (cn_retry_token c) (cn_new_tokens c) (cn_retry_source_cid c) (cn_original_dcid c) (cn_local_parameters c)
    (cn_peer_parameters c) (cn_tls c) (cn_remembered_parameters c) (cn_spaces c) (cn_recovery c) (cn_streams c)
    (cn_events c) (cn_pending c) (cn_control_frames c) (cn_probes_pending c) (cn_handshake_done_pending c)
    (cn_pacing_credit c) (cn_pacing_updated c) (cn_pacing_deadline c) (cn_close_frame c) (cn_close_sent c)
    (cn_bytes_received c) (cn_bytes_sent c) (cn_address_validated c) (cn_idle_started c) (cn_closing_deadline c)
    (cn_peer_cid_confirmed c) (cn_largest_time_received c).
Definition set_cn_path_validated (v : bool) (c : Connection) : Connection :=
  mkConnection (cn_is_client c) (cn_config c) (cn_state c) (cn_destination c) (cn_alpn c) (cn_host_cid c)
    (cn_peer_cid c) (cn_initial_dcid c) (cn_server_config c) v (cn_path_challenges c) (cn_ecn_enabled c)
    (cn_retry_token c) (cn_new_tokens c) (cn_retry_source_cid c) (cn_original_dcid c) (cn_local_parameters c)
    (cn_peer_parameters c) (cn_tls c) (cn_remembered_parameters c) (cn_spaces c) (cn_recovery c) (cn_streams c)
    (cn_events c) (cn_pending c) (cn_control_frames c) (cn_probes_pending c) (cn_handshake_done_pending c)
    (cn_pacing_credit c) (cn_pacing_updated c) (cn_pacing_deadline c) (cn_close_frame c) (cn_close_sent c)
    (cn_bytes_received c) (cn_bytes_sent c) (cn_address_validated c) (cn_idle_started c) (cn_closing_deadline c)
    (cn_peer_cid_confirmed c) (cn_largest_time_received c).
Definition set_cn_path_challenges (v : list bytes) (c : Connection) : Connection :=
  mkConnection (cn_is_client c) (cn_config c) (cn_state c) (cn_destination c) (cn_alpn c) (cn_host_cid c)
    (cn_peer_cid c) (cn_initial_dcid c) (cn_server_config c) (cn_path_validated c) v (cn_ecn_enabled c)
    (cn_retry_token c) (cn_new_tokens c) (cn_retry_source_cid c) (cn_original_dcid c) (cn_local_parameters c)
    (cn_peer_parameters c) (cn_tls c) (cn_remembered_parameters c) (cn_spaces c) (cn_recovery c) (cn_streams c)
    (cn_events c) (cn_pending c) (cn_control_frames c) (cn_probes_pending c) (cn_handshake_done_pending c)
    (cn_pacing_credit c) (cn_pacing_updated c) (cn_pacing_deadline c) (cn_close_frame c) (cn_close_sent c)
    (cn_bytes_received c) (cn_bytes_sent c) (cn_address_validated c) (cn_idle_started c) (cn_closing_deadline c)
    (cn_peer_cid_confirmed c) (cn_largest_time_received c).
Definition set_cn_ecn_enabled (v : bool) (c : Connection) : Connection :=
  mkConnection (cn_is_client c) (cn_config c) (cn_state c) (cn_destination c) (cn_alpn c) (cn_host_cid c)
    (cn_peer_cid c) (cn_initial_dcid c) (cn_server_config c) (cn_path_validated c) (cn_path_challenges c) v
    (cn_retry_token c) (cn_new_tokens c) (cn_retry_source_cid c) (cn_original_dcid c) (cn_local_parameters c)
    (cn_peer_parameters c) (cn_tls c) (cn_remembered_parameters c) (cn_spaces c) (cn_recovery c) (cn_streams c)
    (cn_events c) (cn_pending c) (cn_control_frames c) (cn_probes_pending c) (cn_handshake_done_pending c)
    (cn_pacing_credit c) (cn_pacing_updated c) (cn_pacing_deadline c) (cn_close_frame c) (cn_close_sent c)
    (cn_bytes_received c) (cn_bytes_sent c) (cn_address_validated c) (cn_idle_started c) (cn_closing_deadline c)
    (cn_peer_cid_confirmed c) (cn_largest_time_received c).
Definition set_cn_retry_token (v : bytes) (c : Connection) : Connection :=
  mkConnection (cn_is_client c) (cn_config c) (cn_state c) (cn_destination c) (cn_alpn c) (cn_host_cid c)
    (cn_peer_cid c) (cn_initial_dcid c) (cn_server_config c) (cn_path_validated c) (cn_path_challenges c)
    (cn_ecn_enabled c) v (cn_new_tokens c) (cn_retry_source_cid c) (cn_original_dcid c) (cn_local_parameters c)
    (cn_peer_parameters c) (cn_tls c) (cn_remembered_parameters c) (cn_spaces c) (cn_recovery c) (cn_streams c)
    (cn_events c) (cn_pending c) (cn_control_frames c) (cn_probes_pending c) (cn_handshake_done_pending c)
    (cn_pacing_credit c) (cn_pacing_updated c) (cn_pacing_deadline c) (cn_close_frame c) (cn_close_sent c)
    (cn_bytes_received c) (cn_bytes_sent c) (cn_address_validated c) (cn_idle_started c) (cn_closing_deadline c)
    (cn_peer_cid_confirmed c) (cn_largest_time_received c).
Definition set_cn_new_tokens (v : list bytes) (c : Connection) : Connection :=
  mkConnection (cn_is_client c) (cn_config c) (cn_state c) (cn_destination c) (cn_alpn c) (cn_host_cid c)
    (cn_peer_cid c) (cn_initial_dcid c) (cn_server_config c) (cn_path_validated c) (cn_path_challenges c)
    (cn_ecn_enabled c) (cn_retry_token c) v (cn_retry_source_cid c) (cn_original_dcid c) (cn_local_parameters c)
    (cn_peer_parameters c) (cn_tls c) (cn_remembered_parameters c) (cn_spaces c) (cn_recovery c) (cn_streams c)
    (cn_events c) (cn_pending c) (cn_control_frames c) (cn_probes_pending c) (cn_handshake_done_pending c)
    (cn_pacing_credit c) (cn_pacing_updated c) (cn_pacing_deadline c) (cn_close_frame c) (cn_close_sent c)
    (cn_bytes_received c) (cn_bytes_sent c) (cn_address_validated c) (cn_idle_started c) (cn_closing_deadline c)
    (cn_peer_cid_confirmed c) (cn_largest_time_received c).
Definition set_cn_retry_source_cid (v : option bytes) (c : Connection) : Connection :=
  mkConnection (cn_is_client c) (cn_config c) (cn_state c) (cn_destination c) (cn_alpn c) (cn_host_cid c)
    (cn_peer_cid c) (cn_initial_dcid c) (cn_server_config c) (cn_path_validated c) (cn_path_challenges c)
    (cn_ecn_enabled c) (cn_retry_token c) (cn_new_tokens c) v (cn_original_dcid c) (cn_local_parameters c)
    (cn_peer_parameters c) (cn_tls c) (cn_remembered_parameters c) (cn_spaces c) (cn_recovery c) (cn_streams c)
    (cn_events c) (cn_pending c) (cn_control_frames c) (cn_probes_pending c) (cn_handshake_done_pending c)
    (cn_pacing_credit c) (cn_pacing_updated c) (cn_pacing_deadline c) (cn_close_frame c) (cn_close_sent c)
    (cn_bytes_received c) (cn_bytes_sent c) (cn_address_validated c) (cn_idle_started c) (cn_closing_deadline c)
    (cn_peer_cid_confirmed c) (cn_largest_time_received c).
Definition set_cn_local_parameters (v : TransportParameters) (c : Connection) : Connection :=
  mkConnection (cn_is_client c) (cn_config c) (cn_state c) (cn_destination c) (cn_alpn c) (cn_host_cid c)
    (cn_peer_cid c) (cn_initial_dcid c) (cn_server_config c) (cn_path_validated c) (cn_path_challenges c)
    (cn_ecn_enabled c) (cn_retry_token c) (cn_new_tokens c) (cn_retry_source_cid c) (cn_original_dcid c) v
    (cn_peer_parameters c) (cn_tls c) (cn_remembered_parameters c) (cn_spaces c) (cn_recovery c) (cn_streams c)
    (cn_events c) (cn_pending c) (cn_control_frames c) (cn_probes_pending c) (cn_handshake_done_pending c)
    (cn_pacing_credit c) (cn_pacing_updated c) (cn_pacing_deadline c) (cn_close_frame c) (cn_close_sent c)
    (cn_bytes_received c) (cn_bytes_sent c) (cn_address_validated c) (cn_idle_started c) (cn_closing_deadline c)
    (cn_peer_cid_confirmed c) (cn_largest_time_received c).
Definition set_cn_peer_parameters (v : option TransportParameters) (c : Connection) : Connection :=
  mkConnection (cn_is_client c) (cn_config c) (cn_state c) (cn_destination c) (cn_alpn c) (cn_host_cid c)
    (cn_peer_cid c) (cn_initial_dcid c) (cn_server_config c) (cn_path_validated c) (cn_path_challenges c)
    (cn_ecn_enabled c) (cn_retry_token c) (cn_new_tokens c) (cn_retry_source_cid c) (cn_original_dcid c)
    (cn_local_parameters c) v (cn_tls c) (cn_remembered_parameters c) (cn_spaces c) (cn_recovery c) (cn_streams
    c) (cn_events c) (cn_pending c) (cn_control_frames c) (cn_probes_pending c) (cn_handshake_done_pending c)
    (cn_pacing_credit c) (cn_pacing_updated c) (cn_pacing_deadline c) (cn_close_frame c) (cn_close_sent c)
    (cn_bytes_received c) (cn_bytes_sent c) (cn_address_validated c) (cn_idle_started c) (cn_closing_deadline c)
    (cn_peer_cid_confirmed c) (cn_largest_time_received c).
Definition set_cn_tls (v : option tls_state) (c : Connection) : Connection :=
  mkConnection (cn_is_client c) (cn_config c) (cn_state c) (cn_destination c) (cn_alpn c) (cn_host_cid c)
    (cn_peer_cid c) (cn_initial_dcid c) (cn_server_config c) (cn_path_validated c) (cn_path_challenges c)
    (cn_ecn_enabled c) (cn_retry_token c) (cn_new_tokens c) (cn_retry_source_cid c) (cn_original_dcid c)
    (cn_local_parameters c) (cn_peer_parameters c) v (cn_remembered_parameters c) (cn_spaces c) (cn_recovery c)
    (cn_streams c) (cn_events c) (cn_pending c) (cn_control_frames c) (cn_probes_pending c)
    (cn_handshake_done_pending c) (cn_pacing_credit c) (cn_pacing_updated c) (cn_pacing_deadline c)
    (cn_close_frame c) (cn_close_sent c) (cn_bytes_received c) (cn_bytes_sent c) (cn_address_validated c)
    (cn_idle_started c) (cn_closing_deadline c) (cn_peer_cid_confirmed c) (cn_largest_time_received c).
Definition set_cn_spaces (v : PnSpaces) (c : Connection) : Connection :=
  mkConnection (cn_is_client c) (cn_config c) (cn_state c) (cn_destination c) (cn_alpn c) (cn_host_cid c)
    (cn_peer_cid c) (cn_initial_dcid c) (cn_server_config c) (cn_path_validated c) (cn_path_challenges c)
    (cn_ecn_enabled c) (cn_retry_token c) (cn_new_tokens c) (cn_retry_source_cid c) (cn_original_dcid c)
    (cn_local_parameters c) (cn_peer_parameters c) (cn_tls c) (cn_remembered_parameters c) v (cn_recovery c)
    (cn_streams c) (cn_events c) (cn_pending c) (cn_control_frames c) (cn_probes_pending c)
    (cn_handshake_done_pending c) (cn_pacing_credit c) (cn_pacing_updated c) (cn_pacing_deadline c)
    (cn_close_frame c) (cn_close_sent c) (cn_bytes_received c) (cn_bytes_sent c) (cn_address_validated c)
    (cn_idle_started c) (cn_closing_deadline c) (cn_peer_cid_confirmed c) (cn_largest_time_received c).
Definition set_cn_recovery (v : LossDetection NewReno) (c : Connection) : Connection :=
  mkConnection (cn_is_client c) (cn_config c) (cn_state c) (cn_destination c) (cn_alpn c) (cn_host_cid c)
    (cn_peer_cid c) (cn_initial_dcid c) (cn_server_config c) (cn_path_validated c) (cn_path_challenges c)
    (cn_ecn_enabled c) (cn_retry_token c) (cn_new_tokens c) (cn_retry_source_cid c) (cn_original_dcid c)
    (cn_local_parameters c) (cn_peer_parameters c) (cn_tls c) (cn_remembered_parameters c) (cn_spaces c) v
    (cn_streams c) (cn_events c) (cn_pending c) (cn_control_frames c) (cn_probes_pending c)
    (cn_handshake_done_pending c) (cn_pacing_credit c) (cn_pacing_updated c) (cn_pacing_deadline c)
    (cn_close_frame c) (cn_close_sent c) (cn_bytes_received c) (cn_bytes_sent c) (cn_address_validated c)
    (cn_idle_started c) (cn_closing_deadline c) (cn_peer_cid_confirmed c) (cn_largest_time_received c).
Definition set_cn_streams (v : option StreamManager) (c : Connection) : Connection :=
  mkConnection (cn_is_client c) (cn_config c) (cn_state c) (cn_destination c) (cn_alpn c) (cn_host_cid c)
    (cn_peer_cid c) (cn_initial_dcid c) (cn_server_config c) (cn_path_validated c) (cn_path_challenges c)
    (cn_ecn_enabled c) (cn_retry_token c) (cn_new_tokens c) (cn_retry_source_cid c) (cn_original_dcid c)
    (cn_local_parameters c) (cn_peer_parameters c) (cn_tls c) (cn_remembered_parameters c) (cn_spaces c)
    (cn_recovery c) v (cn_events c) (cn_pending c) (cn_control_frames c) (cn_probes_pending c)
    (cn_handshake_done_pending c) (cn_pacing_credit c) (cn_pacing_updated c) (cn_pacing_deadline c)
    (cn_close_frame c) (cn_close_sent c) (cn_bytes_received c) (cn_bytes_sent c) (cn_address_validated c)
    (cn_idle_started c) (cn_closing_deadline c) (cn_peer_cid_confirmed c) (cn_largest_time_received c).
Definition set_cn_events (v : list ConnectionEvent) (c : Connection) : Connection :=
  mkConnection (cn_is_client c) (cn_config c) (cn_state c) (cn_destination c) (cn_alpn c) (cn_host_cid c)
    (cn_peer_cid c) (cn_initial_dcid c) (cn_server_config c) (cn_path_validated c) (cn_path_challenges c)
    (cn_ecn_enabled c) (cn_retry_token c) (cn_new_tokens c) (cn_retry_source_cid c) (cn_original_dcid c)
    (cn_local_parameters c) (cn_peer_parameters c) (cn_tls c) (cn_remembered_parameters c) (cn_spaces c)
    (cn_recovery c) (cn_streams c) v (cn_pending c) (cn_control_frames c) (cn_probes_pending c)
    (cn_handshake_done_pending c) (cn_pacing_credit c) (cn_pacing_updated c) (cn_pacing_deadline c)
    (cn_close_frame c) (cn_close_sent c) (cn_bytes_received c) (cn_bytes_sent c) (cn_address_validated c)
    (cn_idle_started c) (cn_closing_deadline c) (cn_peer_cid_confirmed c) (cn_largest_time_received c).
Definition set_cn_pending (v : list OutgoingDatagram) (c : Connection) : Connection :=
  mkConnection (cn_is_client c) (cn_config c) (cn_state c) (cn_destination c) (cn_alpn c) (cn_host_cid c)
    (cn_peer_cid c) (cn_initial_dcid c) (cn_server_config c) (cn_path_validated c) (cn_path_challenges c)
    (cn_ecn_enabled c) (cn_retry_token c) (cn_new_tokens c) (cn_retry_source_cid c) (cn_original_dcid c)
    (cn_local_parameters c) (cn_peer_parameters c) (cn_tls c) (cn_remembered_parameters c) (cn_spaces c)
    (cn_recovery c) (cn_streams c) (cn_events c) v (cn_control_frames c) (cn_probes_pending c)
    (cn_handshake_done_pending c) (cn_pacing_credit c) (cn_pacing_updated c) (cn_pacing_deadline c)
    (cn_close_frame c) (cn_close_sent c) (cn_bytes_received c) (cn_bytes_sent c) (cn_address_validated c)
    (cn_idle_started c) (cn_closing_deadline c) (cn_peer_cid_confirmed c) (cn_largest_time_received c).
Definition set_cn_control_frames (v : list Frame) (c : Connection) : Connection :=
  mkConnection (cn_is_client c) (cn_config c) (cn_state c) (cn_destination c) (cn_alpn c) (cn_host_cid c)
    (cn_peer_cid c) (cn_initial_dcid c) (cn_server_config c) (cn_path_validated c) (cn_path_challenges c)
    (cn_ecn_enabled c) (cn_retry_token c) (cn_new_tokens c) (cn_retry_source_cid c) (cn_original_dcid c)
    (cn_local_parameters c) (cn_peer_parameters c) (cn_tls c) (cn_remembered_parameters c) (cn_spaces c)
    (cn_recovery c) (cn_streams c) (cn_events c) (cn_pending c) v (cn_probes_pending c)
    (cn_handshake_done_pending c) (cn_pacing_credit c) (cn_pacing_updated c) (cn_pacing_deadline c)
    (cn_close_frame c) (cn_close_sent c) (cn_bytes_received c) (cn_bytes_sent c) (cn_address_validated c)
    (cn_idle_started c) (cn_closing_deadline c) (cn_peer_cid_confirmed c) (cn_largest_time_received c).
Definition set_cn_probes_pending (v : Probes) (c : Connection) : Connection :=
  mkConnection (cn_is_client c) (cn_config c) (cn_state c) (cn_destination c) (cn_alpn c) (cn_host_cid c)
    (cn_peer_cid c) (cn_initial_dcid c) (cn_server_config c) (cn_path_validated c) (cn_path_challenges c)
    (cn_ecn_enabled c) (cn_retry_token c) (cn_new_tokens c) (cn_retry_source_cid c) (cn_original_dcid c)
    (cn_local_parameters c) (cn_peer_parameters c) (cn_tls c) (cn_remembered_parameters c) (cn_spaces c)
    (cn_recovery c) (cn_streams c) (cn_events c) (cn_pending c) (cn_control_frames c) v
    (cn_handshake_done_pending c) (cn_pacing_credit c) (cn_pacing_updated c) (cn_pacing_deadline c)
    (cn_close_frame c) (cn_close_sent c) (cn_bytes_received c) (cn_bytes_sent c) (cn_address_validated c)
    (cn_idle_started c) (cn_closing_deadline c) (cn_peer_cid_confirmed c) (cn_largest_time_received c).
Definition set_cn_handshake_done_pending (v : bool) (c : Connection) : Connection :=
  mkConnection (cn_is_client c) (cn_config c) (cn_state c) (cn_destination c) (cn_alpn c) (cn_host_cid c)
    (cn_peer_cid c) (cn_initial_dcid c) (cn_server_config c) (cn_path_validated c) (cn_path_challenges c)
    (cn_ecn_enabled c) (cn_retry_token c) (cn_new_tokens c) (cn_retry_source_cid c) (cn_original_dcid c)
    (cn_local_parameters c) (cn_peer_parameters c) (cn_tls c) (cn_remembered_parameters c) (cn_spaces c)
    (cn_recovery c) (cn_streams c) (cn_events c) (cn_pending c) (cn_control_frames c) (cn_probes_pending c) v
    (cn_pacing_credit c) (cn_pacing_updated c) (cn_pacing_deadline c) (cn_close_frame c) (cn_close_sent c)
    (cn_bytes_received c) (cn_bytes_sent c) (cn_address_validated c) (cn_idle_started c) (cn_closing_deadline c)
    (cn_peer_cid_confirmed c) (cn_largest_time_received c).
Definition set_cn_pacing_credit (v : Q) (c : Connection) : Connection :=
  mkConnection (cn_is_client c) (cn_config c) (cn_state c) (cn_destination c) (cn_alpn c) (cn_host_cid c)
    (cn_peer_cid c) (cn_initial_dcid c) (cn_server_config c) (cn_path_validated c) (cn_path_challenges c)
    (cn_ecn_enabled c) (cn_retry_token c) (cn_new_tokens c) (cn_retry_source_cid c) (cn_original_dcid c)
    (cn_local_parameters c) (cn_peer_parameters c) (cn_tls c) (cn_remembered_parameters c) (cn_spaces c)
    (cn_recovery c) (cn_streams c) (cn_events c) (cn_pending c) (cn_control_frames c) (cn_probes_pending c)
    (cn_handshake_done_pending c) v (cn_pacing_updated c) (cn_pacing_deadline c) (cn_close_frame c)
    (cn_close_sent c) (cn_bytes_received c) (cn_bytes_sent c) (cn_address_validated c) (cn_idle_started c)
    (cn_closing_deadline c) (cn_peer_cid_confirmed c) (cn_largest_time_received c).
Definition set_cn_pacing_updated (v : option Q) (c : Connection) : Connection :=
  mkConnection (cn_is_client c) (cn_config c) (cn_state c) (cn_destination c) (cn_alpn c) (cn_host_cid c)
    (cn_peer_cid c) (cn_initial_dcid c) (cn_server_config c) (cn_path_validated c) (cn_path_challenges c)
    (cn_ecn_enabled c) (cn_retry_token c) (cn_new_tokens c) (cn_retry_source_cid c) (cn_original_dcid c)
    (cn_local_parameters c) (cn_peer_parameters c) (cn_tls c) (cn_remembered_parameters c) (cn_spaces c)
    (cn_recovery c) (cn_streams c) (cn_events c) (cn_pending c) (cn_control_frames c) (cn_probes_pending c)
    (cn_handshake_done_pending c) (cn_pacing_credit c) v (cn_pacing_deadline c) (cn_close_frame c)
    (cn_close_sent c) (cn_bytes_received c) (cn_bytes_sent c) (cn_address_validated c) (cn_idle_started c)
    (cn_closing_deadline c) (cn_peer_cid_confirmed c) (cn_largest_time_received c).
Definition set_cn_pacing_deadline (v : option Q) (c : Connection) : Connection :=
  mkConnection (cn_is_client c) (cn_config c) (cn_state c) (cn_destination c) (cn_alpn c) (cn_host_cid c)
    (cn_peer_cid c) (cn_initial_dcid c) (cn_server_config c) (cn_path_validated c) (cn_path_challenges c)
    (cn_ecn_enabled c) (cn_retry_token c) (cn_new_tokens c) (cn_retry_source_cid c) (cn_original_dcid c)
    (cn_local_parameters c) (cn_peer_parameters c) (cn_tls c) (cn_remembered_parameters c) (cn_spaces c)
    (cn_recovery c) (cn_streams c) (cn_events c) (cn_pending c) (cn_control_frames c) (cn_probes_pending c)
    (cn_handshake_done_pending c) (cn_pacing_credit c) (cn_pacing_updated c) v (cn_close_frame c) (cn_close_sent
    c) (cn_bytes_received c) (cn_bytes_sent c) (cn_address_validated c) (cn_idle_started c) (cn_closing_deadline
    c) (cn_peer_cid_confirmed c) (cn_largest_time_received c).
Definition set_cn_close_frame (v : option ConnectionClose) (c : Connection) : Connection :=
  mkConnection (cn_is_client c) (cn_config c) (cn_state c) (cn_destination c) (cn_alpn c) (cn_host_cid c)
    (cn_peer_cid c) (cn_initial_dcid c) (cn_server_config c) (cn_path_validated c) (cn_path_challenges c)
    (cn_ecn_enabled c) (cn_retry_token c) (cn_new_tokens c) (cn_retry_source_cid c) (cn_original_dcid c)
    (cn_local_parameters c) (cn_peer_parameters c) (cn_tls c) (cn_remembered_parameters c) (cn_spaces c)
    (cn_recovery c) (cn_streams c) (cn_events c) (cn_pending c) (cn_control_frames c) (cn_probes_pending c)
    (cn_handshake_done_pending c) (cn_pacing_credit c) (cn_pacing_updated c) (cn_pacing_deadline c) v
    (cn_close_sent c) (cn_bytes_received c) (cn_bytes_sent c) (cn_address_validated c) (cn_idle_started c)
    (cn_closing_deadline c) (cn_peer_cid_confirmed c) (cn_largest_time_received c).
Definition set_cn_close_sent (v : bool) (c : Connection) : Connection :=
  mkConnection (cn_is_client c) (cn_config c) (cn_state c) (cn_destination c) (cn_alpn c) (cn_host_cid c)
    (cn_peer_cid c) (cn_initial_dcid c) (cn_server_config c) (cn_path_validated c) (cn_path_challenges c)
    (cn_ecn_enabled c) (cn_retry_token c) (cn_new_tokens c) (cn_retry_source_cid c) (cn_original_dcid c)
    (cn_local_parameters c) (cn_peer_parameters c) (cn_tls c) (cn_remembered_parameters c) (cn_spaces c)
    (cn_recovery c) (cn_streams c) (cn_events c) (cn_pending c) (cn_control_frames c) (cn_probes_pending c)
    (cn_handshake_done_pending c) (cn_pacing_credit c) (cn_pacing_updated c) (cn_pacing_deadline c)
    (cn_close_frame c) v (cn_bytes_received c) (cn_bytes_sent c) (cn_address_validated c) (cn_idle_started c)
    (cn_closing_deadline c) (cn_peer_cid_confirmed c) (cn_largest_time_received c).
Definition set_cn_bytes_received (v : Z) (c : Connection) : Connection :=
  mkConnection (cn_is_client c) (cn_config c) (cn_state c) (cn_destination c) (cn_alpn c) (cn_host_cid c)
    (cn_peer_cid c) (cn_initial_dcid c) (cn_server_config c) (cn_path_validated c) (cn_path_challenges c)
    (cn_ecn_enabled c) (cn_retry_token c) (cn_new_tokens c) (cn_retry_source_cid c) (cn_original_dcid c)
    (cn_local_parameters c) (cn_peer_parameters c) (cn_tls c) (cn_remembered_parameters c) (cn_spaces c)
    (cn_recovery c) (cn_streams c) (cn_events c) (cn_pending c) (cn_control_frames c) (cn_probes_pending c)
    (cn_handshake_done_pending c) (cn_pacing_credit c) (cn_pacing_updated c) (cn_pacing_deadline c)
    (cn_close_frame c) (cn_close_sent c) v (cn_bytes_sent c) (cn_address_validated c) (cn_idle_started c)
    (cn_closing_deadline c) (cn_peer_cid_confirmed c) (cn_largest_time_received c).
Definition set_cn_bytes_sent (v : Z) (c : Connection) : Connection :=
  mkConnection (cn_is_client c) (cn_config c) (cn_state c) (cn_destination c) (cn_alpn c) (cn_host_cid c)
    (cn_peer_cid c) (cn_initial_dcid c) (cn_server_config c) (cn_path_validated c) (cn_path_challenges c)
    (cn_ecn_enabled c) (cn_retry_token c) (cn_new_tokens c) (cn_retry_source_cid c) (cn_original_dcid c)
    (cn_local_parameters c) (cn_peer_parameters c) (cn_tls c) (cn_remembered_parameters c) (cn_spaces c)
    (cn_recovery c) (cn_streams c) (cn_events c) (cn_pending c) (cn_control_frames c) (cn_probes_pending c)
    (cn_handshake_done_pending c) (cn_pacing_credit c) (cn_pacing_updated c) (cn_pacing_deadline c)
    (cn_close_frame c) (cn_close_sent c) (cn_bytes_received c) v (cn_address_validated c) (cn_idle_started c)
    (cn_closing_deadline c) (cn_peer_cid_confirmed c) (cn_largest_time_received c).
Definition set_cn_address_validated (v : bool) (c : Connection) : Connection :=
  mkConnection (cn_is_client c) (cn_config c) (cn_state c) (cn_destination c) (cn_alpn c) (cn_host_cid c)
    (cn_peer_cid c) (cn_initial_dcid c) (cn_server_config c) (cn_path_validated c) (cn_path_challenges c)
    (cn_ecn_enabled c) (cn_retry_token c) (cn_new_tokens c) (cn_retry_source_cid c) (cn_original_dcid c)
    (cn_local_parameters c) (cn_peer_parameters c) (cn_tls c) (cn_remembered_parameters c) (cn_spaces c)
    (cn_recovery c) (cn_streams c) (cn_events c) (cn_pending c) (cn_control_frames c) (cn_probes_pending c)
    (cn_handshake_done_pending c) (cn_pacing_credit c) (cn_pacing_updated c) (cn_pacing_deadline c)
    (cn_close_frame c) (cn_close_sent c) (cn_bytes_received c) (cn_bytes_sent c) v (cn_idle_started c)
    (cn_closing_deadline c) (cn_peer_cid_confirmed c) (cn_largest_time_received c).
Definition set_cn_idle_started (v : option Q) (c : Connection) : Connection :=
  mkConnection (cn_is_client c) (cn_config c) (cn_state c) (cn_destination c) (cn_alpn c) (cn_host_cid c)
    (cn_peer_cid c) (cn_initial_dcid c) (cn_server_config c) (cn_path_validated c) (cn_path_challenges c)
    (cn_ecn_enabled c) (cn_retry_token c) (cn_new_tokens c) (cn_retry_source_cid c) (cn_original_dcid c)
    (cn_local_parameters c) (cn_peer_parameters c) (cn_tls c) (cn_remembered_parameters c) (cn_spaces c)
    (cn_recovery c) (cn_streams c) (cn_events c) (cn_pending c) (cn_control_frames c) (cn_probes_pending c)
    (cn_handshake_done_pending c) (cn_pacing_credit c) (cn_pacing_updated c) (cn_pacing_deadline c)
    (cn_close_frame c) (cn_close_sent c) (cn_bytes_received c) (cn_bytes_sent c) (cn_address_validated c) v
    (cn_closing_deadline c) (cn_peer_cid_confirmed c) (cn_largest_time_received c).
Definition set_cn_closing_deadline (v : option Q) (c : Connection) : Connection :=
  mkConnection (cn_is_client c) (cn_config c) (cn_state c) (cn_destination c) (cn_alpn c) (cn_host_cid c)
    (cn_peer_cid c) (cn_initial_dcid c) (cn_server_config c) (cn_path_validated c) (cn_path_challenges c)
    (cn_ecn_enabled c) (cn_retry_token c) (cn_new_tokens c) (cn_retry_source_cid c) (cn_original_dcid c)
    (cn_local_parameters c) (cn_peer_parameters c) (cn_tls c) (cn_remembered_parameters c) (cn_spaces c)
    (cn_recovery c) (cn_streams c) (cn_events c) (cn_pending c) (cn_control_frames c) (cn_probes_pending c)
    (cn_handshake_done_pending c) (cn_pacing_credit c) (cn_pacing_updated c) (cn_pacing_deadline c)
    (cn_close_frame c) (cn_close_sent c) (cn_bytes_received c) (cn_bytes_sent c) (cn_address_validated c)
    (cn_idle_started c) v (cn_peer_cid_confirmed c) (cn_largest_time_received c).
Definition set_cn_peer_cid_confirmed (v : bool) (c : Connection) : Connection :=
  mkConnection (cn_is_client c) (cn_config c) (cn_state c) (cn_destination c) (cn_alpn c) (cn_host_cid c)
    (cn_peer_cid c) (cn_initial_dcid c) (cn_server_config c) (cn_path_validated c) (cn_path_challenges c)
    (cn_ecn_enabled c) (cn_retry_token c) (cn_new_tokens c) (cn_retry_source_cid c) (cn_original_dcid c)
    (cn_local_parameters c) (cn_peer_parameters c) (cn_tls c) (cn_remembered_parameters c) (cn_spaces c)
    (cn_recovery c) (cn_streams c) (cn_events c) (cn_pending c) (cn_control_frames c) (cn_probes_pending c)
    (cn_handshake_done_pending c) (cn_pacing_credit c) (cn_pacing_updated c) (cn_pacing_deadline c)
    (cn_close_frame c) (cn_close_sent c) (cn_bytes_received c) (cn_bytes_sent c) (cn_address_validated c)
    (cn_idle_started c) (cn_closing_deadline c) v (cn_largest_time_received c).
Definition set_cn_largest_time_received (v : list (EncryptionLevel * Q)) (c : Connection) : Connection :=
  mkConnection (cn_is_client c) (cn_config c) (cn_state c) (cn_destination c) (cn_alpn c) (cn_host_cid c)
    (cn_peer_cid c) (cn_initial_dcid c) (cn_server_config c) (cn_path_validated c) (cn_path_challenges c)
    (cn_ecn_enabled c) (cn_retry_token c) (cn_new_tokens c) (cn_retry_source_cid c) (cn_original_dcid c)
    (cn_local_parameters c) (cn_peer_parameters c) (cn_tls c) (cn_remembered_parameters c) (cn_spaces c)
    (cn_recovery c) (cn_streams c) (cn_events c) (cn_pending c) (cn_control_frames c) (cn_probes_pending c)
    (cn_handshake_done_pending c) (cn_pacing_credit c) (cn_pacing_updated c) (cn_pacing_deadline c)
    (cn_close_frame c) (cn_close_sent c) (cn_bytes_received c) (cn_bytes_sent c) (cn_address_validated c)
    (cn_idle_started c) (cn_closing_deadline c) (cn_peer_cid_confirmed c) v.

(** ** Running a part of the connection *)

Definition space_at (level : EncryptionLevel) (c : Connection) : PnSpace := get_pn level (cn_spaces c).
Definition set_space_at (level : EncryptionLevel) (s : PnSpace) (c : Connection) : Connection :=
  set_cn_spaces (set_pn level s (cn_spaces c)) c.
Definition modify_space (level : EncryptionLevel) (f : PnSpace → PnSpace) : M Connection unit :=
  modify (λ c, set_space_at level (f (space_at level c)) c).
Definition in_keys {A} (level : EncryptionLevel) (m : M KeyState A) : M Connection A :=
  zoom (λ c, ps_keys (space_at level c)) (λ k c, set_space_at level (set_keys k (space_at level c)) c) m.
Definition in_crypto {A} (level : EncryptionLevel) (m : M CryptoState A) : M Connection A :=
  zoom (λ c, ps_crypto (space_at level c)) (λ k c, set_space_at level (set_crypto k (space_at level c)) c) m.
Definition in_loss_detection {A} (m : M (LossDetection NewReno) A) : M Connection A :=
  zoom cn_recovery set_cn_recovery m.
Definition modify_recovery (f : LossDetection NewReno → LossDetection NewReno) : M Connection unit :=
  modify (λ c, set_cn_recovery (f (cn_recovery c)) c).

(** A call on [self.streams], known not to be [None]. *)
Definition in_streams {A} (m : M StreamManager A) : M Connection A := λ c,
  match cn_streams c with
  | None => (Raise AssertionError, c)
  | Some s => let '(r, s') := m s in (r, set_cn_streams (Some s') c)
  end.

Definition queue_control (frame : Frame) : M Connection unit :=
  modify (λ c, set_cn_control_frames (cn_control_frames c ++ [frame]) c).
Definition emit (event : ConnectionEvent) : M Connection unit :=
  modify (λ c, set_cn_events (cn_events c ++ [event]) c).
End connection_state.
