(* ===== verification/ConnRecv.v ===== *)
(** * The connection's receive path (connection.py)

    Methods of [Connection] from [__init__] to [_confirm_handshake]:
    construction, key installation, locating and decrypting packets,
    dispatching frames, acknowledgements and loss, CRYPTO and stream data,
    and the handshake events TLS reports.  Methods run in [M Connection]:
    what they assigned before raising stays assigned.  Qlog calls are left
    out (they only write the trace). *)

From S2P Require Import Prelude Buffer Frames Packet TransportParameters RangeSet Streams StreamManager.
From S2P Require Import Congestion NewReno Recovery Crypto Protection Retry TlsInterface Spaces ConnState.

(** [str(exc)]. *)
Definition message (e : exn) : string :=
  match e with
  | BufferReadError m | ValueError m | FrameParseError m | HeaderParseError m | StreamLimitReached m
  | AckOfUnsentPacket m | TokenError m | HqError m | HandshakeParseError m | TicketError m | RuntimeError m => m
  | StreamError _ m | ConnectionError_ _ m _ | TlsAlert _ m => m
  | _ => ""
  end.

(** [ConnectionError_(code, reason)], with its default [frame_type=0]. *)
Definition connection_error (code : Z) (reason : string) : exn := ConnectionError_ code reason (Some 0).

(** [a / b] on integers, which raises when the quotient is past the largest
    float. *)
Definition true_divide (a : Z) (b : positive) : result Q :=
  if Zpos b * 2 ^ 1024 <=? Z.abs a then Raise OverflowError else Ok (a # b).

(** [_flow_limits] *)
Definition flow_limits (p : TransportParameters) : FlowControlLimits :=
  mkFlowControlLimits (initial_max_data p) (initial_max_stream_data_bidi_local p)
    (initial_max_stream_data_bidi_remote p) (initial_max_stream_data_uni p)
    (initial_max_streams_bidi p) (initial_max_streams_uni p).

(** [replace(parameters, ...)] of the three connection ID fields. *)
Definition with_connection_ids (original retry_source initial_source : option bytes) (p : TransportParameters)
    : TransportParameters :=
  mkTransportParameters original retry_source initial_source (max_idle_timeout_ms p) (max_udp_payload_size p)
    (initial_max_data p) (initial_max_stream_data_bidi_local p) (initial_max_stream_data_bidi_remote p)
    (initial_max_stream_data_uni p) (initial_max_streams_bidi p) (initial_max_streams_uni p)
    (ack_delay_exponent p) (max_ack_delay_ms p) (active_connection_id_limit p) (max_datagram_frame_size p).

(** [_parameters_for], from the attributes it reads. *)
Definition parameters_for (config : ConnectionConfig) (is_client : bool) (host_cid : bytes)
    (original_dcid retry_source_cid : option bytes) (initial_dcid : bytes) : TransportParameters :=
  let tp := cf_transport_parameters config in
  if is_client then
    with_connection_ids (original_destination_connection_id tp) (retry_source_connection_id tp) (Some host_cid) tp
  else
    let original := match original_dcid with Some o => o | None => initial_dcid end in
    with_connection_ids (Some original) retry_source_cid (Some host_cid) tp.

Section recv.
Context `{HP : Primitives} `{HT : Tls}.

(** ** Keys *)

Definition install_initial_keys (dcid : bytes) : M Connection unit :=
  secrets ← lift (derive_initial_secrets dcid);
  client_keys ← lift (derive_packet_keys (is_client secrets) TLS_AES_128_GCM_SHA256);
  server_keys ← lift (derive_packet_keys (is_server secrets) TLS_AES_128_GCM_SHA256);
  c ← get;
  modify_space L_INITIAL (λ s, set_keys
    (set_recv (Some (if cn_is_client c then server_keys else client_keys))
      (set_send (Some (if cn_is_client c then client_keys else server_keys)) (ps_keys s))) s).

(** [_decrypt], with what it reads of the connection. *)
Definition conn_decrypt (level : EncryptionLevel) (packet : bytes) (pn_offset : Z) (now : Q) (zero_rtt : bool)
    : M Connection (option (Z * bytes)) :=
  c ← get;
  let space := space_at level c in
  in_keys level (decrypt (ld_handshake_confirmed (cn_recovery c)) (pto (cn_recovery c))
    (ps_next_packet_number space) (ps_largest_received space) level packet pn_offset now zero_rtt).

(** [initiate_key_update] and [_maybe_update_keys]. *)
Definition conn_initiate_key_update (now : Q) : M Connection bool :=
  c ← get;
  in_keys L_ONE_RTT (initiate_key_update (ld_handshake_confirmed (cn_recovery c))
    (largest_acked L_ONE_RTT (cn_recovery c)) (pto (cn_recovery c))
    (ps_next_packet_number (space_at L_ONE_RTT c)) now).

Definition maybe_update_keys (now : Q) : M Connection unit :=
  c ← get;
  match cf_key_update_interval (cn_config c) with
  | None => mret tt
  | Some interval =>
      let space := space_at L_ONE_RTT c in
      if ps_next_packet_number space - ks_phase_send_first (ps_keys space) >=? interval
      then _ ← conn_initiate_key_update now; mret tt
      else mret tt
  end.

(** [_discard_space] *)
Definition conn_discard_space (level : EncryptionLevel) : M Connection unit :=
  c ← get;
  if ps_discarded (space_at level c) then mret tt
  else
    _ ← modify_space level discard;
    modify_recovery (discard_space level).

(** ** Construction *)

(** [__init__] with [_init_client_tls]; the connection IDs [os.urandom] gives
    are arguments. *)
Definition new_Connection (is_client : bool) (client_config : option tls_client_config)
    (server_config : option tls_server_config) (config : ConnectionConfig) (destination : option bytes)
    (host_cid random_peer_cid : bytes) : result Connection :=
  let peer_cid := if is_client then random_peer_cid else [] in
  let retry_source_cid := rc_source_cid <$> cf_retry config in
  let original_dcid := rc_original_destination_cid <$> cf_retry config in
  let local_parameters := parameters_for config is_client host_cid original_dcid retry_source_cid peer_cid in
  '(tls, remembered) ←
    (if is_client then
       match client_config with
       | None => Raise (ValueError "client_config is required for a client connection")
       | Some cc =>
           encoded ← encode_transport_parameters local_parameters;
           remembered ←
             (if client_early_data cc then
                match client_ticket_parameters cc with
                | Some p => r ← decode_transport_parameters p; Ok (Some r)
                | None => Ok None
                end
              else Ok None);
           Ok (Some (tls_new_client cc encoded), remembered)
       end
     else match server_config with
          | None => Raise (ValueError "server_config is required for a server connection")
          | Some _ => Ok (None, None)
          end);
  let c := mkConnection is_client config HANDSHAKING destination "" host_cid peer_cid peer_cid server_config
    true [] true [] [] retry_source_cid original_dcid local_parameters None tls remembered
    (mkPnSpaces new_PnSpace new_PnSpace new_PnSpace)
    (new_LossDetection (new_NewReno (cf_max_datagram_size config)) is_client (25 # 1000))
    None [] [] [] (mkProbes 0 0 0) false 0 None None None false 0 0 is_client None None (negb is_client) [] in
  if is_client then
    match install_initial_keys peer_cid c with
    | (Ok tt, c') => Ok c'
    | (Raise e, _) => Raise e
    end
  else Ok c.

(** [_adopt_client_initial] *)
Definition adopt_client_initial (dcid scid : bytes) : M Connection unit :=
  c ← get;
  _ ← (if cn_tls c is Some _ then mret tt
       else match cn_server_config c with
            | None => raise AssertionError
            | Some server_config =>
                _ ← modify (set_cn_initial_dcid dcid);
                let local := parameters_for (cn_config c) (cn_is_client c) (cn_host_cid c)
                               (cn_original_dcid c) (cn_retry_source_cid c) dcid in
                _ ← modify (set_cn_local_parameters local);
                encoded ← lift (encode_transport_parameters local);
                _ ← modify (set_cn_tls (Some (tls_new_server server_config encoded)));
                install_initial_keys dcid
            end);
  c ← get;
  if len (cn_peer_cid c) =? 0 then modify (set_cn_peer_cid scid) else mret tt.

(** ** Losing and resending *)

(** [_has_pending_data] *)
Definition has_pending_data (level : EncryptionLevel) (c : Connection) : bool :=
  let crypto := ps_crypto (space_at level c) in
  if negb (len (cs_pending crypto) =? 0) || negb (len (cs_retransmit crypto) =? 0) then true
  else if decide (level ≠ L_ONE_RTT) then false
  else if negb (len (cn_control_frames c) =? 0) || cn_handshake_done_pending c then true
  else match cn_streams c with
       | Some streams => negb (len (writable_streams streams) =? 0)
       | None => false
       end.

(** The body of [_requeue_lost]'s loop. *)
Definition requeue_frame (level : EncryptionLevel) (frame : Frame) : M Connection unit :=
  c ← get;
  match frame, cn_streams c with
  | FCrypto f, _ => modify_space level (λ s, set_crypto (requeue_crypto f (ps_crypto s)) s)
  | FStream f, Some _ => in_streams (on_send (st_id f) (modify (requeue f)))
  | FHandshakeDone, _ => modify (set_cn_handshake_done_pending true)
  | FNewToken _, _ | FPathChallenge _, _ => queue_control frame
  | FMaxData _, Some streams => queue_control (FMaxData (sm_local_max_data streams))
  | FMaxStreamData stream_id _, Some _ =>
      recv ← in_streams (recv_stream stream_id);
      queue_control (FMaxStreamData stream_id (rs_max_stream_data recv))
  | FMaxStreams _ bidirectional, Some streams =>
      let current := if bidirectional then sm_local_max_streams_bidi streams else sm_local_max_streams_uni streams in
      queue_control (FMaxStreams current bidirectional)
  | _, _ => mret tt
  end.

(** [_requeue_lost] *)
Definition requeue_lost (packet : SentPacket) : M Connection unit :=
  each (requeue_frame (sp_level packet)) (sp_frames packet).

(** [_resend_early_application_data] *)
Definition resend_early_application_data : M Connection unit :=
  c ← get;
  if has_pending_data L_ONE_RTT c then mret tt
  else each requeue_lost (take (Z.to_nat PROBE_PACKETS) (unacked L_ONE_RTT (cn_recovery c))).

(** [_prepare_probe] *)
Definition prepare_probe (level : EncryptionLevel) : M Connection unit :=
  c ← get;
  _ ← when (bool_decide (level = L_HANDSHAKE) && negb (ld_handshake_confirmed (cn_recovery c)))
        resend_early_application_data;
  c ← get;
  if has_pending_data level c then mret tt
  else each requeue_lost (take (Z.to_nat PROBE_PACKETS) (unacked level (cn_recovery c))).

(** ** The handshake *)

(** [_arm_idle_timer] *)
Definition arm_idle_timer (now : Q) : M Connection unit := modify (set_cn_idle_started (Some now)).

(** [_validate_peer_parameters] *)
Definition validate_peer_parameters : M Connection unit :=
  c ← get;
  match cn_peer_parameters c with
  | None => raise AssertionError
  | Some peer =>
      if match initial_source_connection_id peer with
         | Some actual => bool_decide (actual ≠ cn_peer_cid c) | None => false end
      then raise (connection_error TRANSPORT_PARAMETER_ERROR "initial_source_connection_id mismatch")
      else if negb (cn_is_client c) then mret tt
      else if match original_destination_connection_id peer with
              | Some original => bool_decide (original ≠ cn_initial_dcid c) | None => false end
      then raise (connection_error TRANSPORT_PARAMETER_ERROR "original_destination_connection_id mismatch")
      else if bool_decide (retry_source_connection_id peer ≠ cn_retry_source_cid c)
      then raise (connection_error TRANSPORT_PARAMETER_ERROR "retry_source_connection_id mismatch")
      else mret tt
  end.

(** [_confirm_handshake] *)
Definition confirm_handshake : M Connection unit :=
  _ ← modify_space L_ONE_RTT (λ s, set_keys (set_recv_early None (ps_keys s)) s);
  _ ← modify_recovery (λ d, mkLossDetection (ld_controller d) (ld_rtt d) true (ld_is_client d)
                              (ld_max_ack_delay d) (ld_pto_count d) (ld_spaces d) (ld_last_event d));
  _ ← conn_discard_space L_HANDSHAKE;
  c ← get;
  _ ← when (cn_is_client c) (conn_discard_space L_INITIAL);
  c ← get;
  emit (HandshakeConfirmed (cn_alpn c)).

(** [StreamManager(...)] under the local parameters. *)
Definition create_streams (peer : TransportParameters) : M Connection unit :=
  c ← get;
  modify (set_cn_streams (Some (new_StreamManager (cn_is_client c) (flow_limits (cn_local_parameters c))
                                  (flow_limits peer)))).

(** The stream state [_on_handshake_complete] leaves: new, or the 0-RTT
    streams under the fresh limits. *)
Definition settle_streams (peer : TransportParameters) : M Connection unit :=
  c ← get;
  match cn_streams c with
  | None => create_streams peer
  | Some streams =>
      if negb (cn_is_client c) then mret tt
      else match cn_tls c, cn_remembered_parameters c with
           | Some tls, Some remembered =>
               if tls_early_data_accepted tls && reduces_zero_rtt_limits remembered peer then
                 raise (connection_error PROTOCOL_VIOLATION
                          "limits reduced under accepted 0-RTT (RFC 9001 §7.4.1)")
               else modify (set_cn_streams (Some (update_peer_limits (flow_limits peer) streams)))
           | _, _ => raise AssertionError
           end
  end.

(** [_on_handshake_complete] *)
Definition on_handshake_complete (event : HandshakeComplete) (now : Q) : M Connection unit :=
  _ ← modify (set_cn_alpn (hc_alpn event));
  peer ← lift (decode_transport_parameters (hc_peer_transport_parameters event));
  _ ← modify (set_cn_peer_parameters (Some peer));
  _ ← validate_peer_parameters;
  _ ← settle_streams peer;
  _ ← modify_space L_ONE_RTT (λ s, set_keys (set_send_early None (ps_keys s)) s);
  c ← get;
  _ ← match cn_tls c with
      | Some tls =>
          if cn_is_client c && bool_decide (tls_early_secret tls ≠ None) && negb (tls_early_data_accepted tls) then
            let '(sent, recovery) := restart_space L_ONE_RTT (cn_recovery c) in
            _ ← modify (set_cn_recovery recovery);
            each requeue_lost sent
          else mret tt
      | None => mret tt
      end;
  _ ← modify (set_cn_state CONNECTED);
  c ← get;
  _ ← emit (HandshakeCompleted (cn_alpn c));
  _ ← when (negb (cn_is_client c)) (_ ← modify (set_cn_handshake_done_pending true); confirm_handshake);
  arm_idle_timer now.

(** [_sync_early_keys] *)
Definition sync_early_keys : M Connection unit :=
  c ← get;
  match cn_tls c with
  | None => raise AssertionError
  | Some tls =>
      let keys := ps_keys (space_at L_ONE_RTT c) in
      match tls_early_secret tls with
      | None => modify_space L_ONE_RTT (λ s, set_keys (set_send_early None (ps_keys s)) s)
      | Some secret =>
          if cn_is_client c then
            if ks_send_early keys is Some _ then mret tt
            else k ← lift (derive_packet_keys secret (tls_cipher_suite tls));
                 modify_space L_ONE_RTT (λ s, set_keys (set_send_early (Some k) (ps_keys s)) s)
          else if ks_recv_early keys is Some _ then mret tt
          else
            k ← lift (derive_packet_keys secret (tls_cipher_suite tls));
            _ ← modify_space L_ONE_RTT (λ s, set_keys (set_recv_early (Some k) (ps_keys s)) s);
            if cn_streams c is Some _ then mret tt
            else
              peer ← lift (decode_transport_parameters (tls_client_transport_parameters tls));
              _ ← modify (set_cn_peer_parameters (Some peer));
              create_streams peer
      end
  end.

(** One event of [_drain_tls_events]. *)
Definition on_tls_event (now : Q) (event : TlsEvent) : M Connection unit :=
  match event with
  | EvSendData level data => modify_space level (λ s, set_crypto (queue_crypto data (ps_crypto s)) s)
  | EvSecretAvailable s => c ← get; in_keys (sa_level s) (on_secret (cn_is_client c) s)
  | EvHandshakeComplete h => on_handshake_complete h now
  end.

(** [_drain_tls_events] *)
Definition drain_tls_events (now : Q) : M Connection unit :=
  c ← get;
  match cn_tls c with
  | None => mret tt
  | Some tls =>
      let '(events, tls') := tls_take_events tls in
      _ ← modify (set_cn_tls (Some tls'));
      _ ← each (on_tls_event now) events;
      sync_early_keys
  end.

(** ** Termination *)

(** [close]; [frame_type = None] is the application variant. *)
Definition close (error_code : Z) (reason : string) (frame_type : option Z) : M Connection unit :=
  c ← get;
  if bool_decide (cn_state c = CLOSING ∨ cn_state c = DRAINING) then mret tt
  else
    _ ← modify (set_cn_close_frame (Some (mkConnectionClose error_code (ascii_bytes reason) frame_type)));
    modify (set_cn_state CLOSING).

(** [_on_connection_close] *)
Definition on_connection_close (frame : ConnectionClose) (now : Q) : M Connection unit :=
  _ ← modify (set_cn_state DRAINING);
  c ← get;
  _ ← modify (set_cn_closing_deadline (Some (now + 3 * pto (cn_recovery c))%Q));
  emit (ConnectionTerminated (cc_error_code frame) (cc_reason frame)).

(** ** Frames *)

(** [_validate_ecn] *)
Definition validate_ecn (level : EncryptionLevel) (frame : Ack) (acked : list SentPacket) (now : Q)
    : M Connection unit :=
  match acked with
  | [] => mret tt
  | first :: rest =>
      c ← get;
      let e := ps_ecn (space_at level c) in
      match ack_ecn frame with
      | None => modify (set_cn_ecn_enabled false)
      | Some counts =>
          if (ect0 counts <? ec_acked_ect0 e) || (ect1 counts <? ec_acked_ect1 e) || (ce counts <? ec_acked_ce e)
             || (ect1 counts >? 0)
          then modify (set_cn_ecn_enabled false)
          else
            _ ← when (ce counts >? ec_acked_ce e)
                  (modify_recovery (λ d, set_controller (cc_on_ecn_ce (max_time first rest) now (ld_controller d)) d));
            modify_space level (λ s, set_ecn
              (mkEcnState (ec_ect0 (ps_ecn s)) (ec_ect1 (ps_ecn s)) (ec_ce (ps_ecn s))
                 (ect0 counts) (ect1 counts) (ce counts)) s)
      end
  end.

(** The acknowledged STREAM frames of one packet. *)
Definition on_acked_frame (frame : Frame) : M Connection unit :=
  c ← get;
  match frame, cn_streams c with
  | FStream f, Some _ => in_streams (on_send (st_id f) (modify (on_frame_acked f)))
  | _, _ => mret tt
  end.

(** [_handle_ack] *)
Definition handle_ack (level : EncryptionLevel) (frame : Ack) (now : Q) : M Connection unit :=
  c ← get;
  let exponent := match cn_peer_parameters c with Some p => ack_delay_exponent p | None => 3 end in
  ack_delay ← lift (true_divide (ack_delay frame * (1 ≪ exponent)) 1000000);
  outcome ← catch (in_loss_detection (on_ack_received level frame ack_delay now))
    (λ e, match e with
          | AckOfUnsentPacket m => Some (raise (connection_error PROTOCOL_VIOLATION m))
          | _ => None
          end);
  _ ← validate_ecn level frame (ao_acked outcome) now;
  _ ← each (λ packet, each on_acked_frame (sp_frames packet)) (ao_acked outcome);
  _ ← each requeue_lost (ao_lost outcome);
  when (cn_is_client c && bool_decide (level = L_HANDSHAKE)) (conn_discard_space L_INITIAL).

(** [_handle_limit] *)
Definition handle_limit (frame : Frame) : M Connection unit :=
  c ← get;
  match frame with
  | FMaxStreams maximum bidirectional =>
      if maximum >? MAX_STREAMS_LIMIT then
        raise (connection_error FRAME_ENCODING_ERROR ("MAX_STREAMS " +:+ pretty maximum +:+ " exceeds 2^60"))
      else when (bool_decide (cn_streams c ≠ None)) (in_streams (modify (on_max_streams maximum bidirectional)))
  | FMaxData maximum => when (bool_decide (cn_streams c ≠ None)) (in_streams (modify (on_max_data maximum)))
  | FMaxStreamData stream_id maximum =>
      when (bool_decide (cn_streams c ≠ None)) (in_streams (on_send stream_id (modify (on_max_stream_data maximum))))
  | _ => mret tt
  end.

(** [_handle_crypto] *)
Definition handle_crypto (level : EncryptionLevel) (frame : Crypto) (now : Q) : M Connection unit :=
  c ← get;
  match cn_tls c with
  | None => raise (connection_error PROTOCOL_VIOLATION "CRYPTO frame before Initial")
  | Some _ =>
      ordered ← in_crypto level (store_crypto frame);
      match ordered with
      | None => mret tt
      | Some data =>
          _ ← catch (λ c, match cn_tls c with
                          | Some tls => let '(r, tls') := tls_receive level data now tls in
                                        (r, set_cn_tls (Some tls') c)
                          | None => (Raise AssertionError, c)
                          end)
                (λ e, match e with
                      | TlsAlert alert reason => Some (raise (connection_error (CRYPTO_ERROR_BASE + alert) reason))
                      | _ => None
                      end);
          drain_tls_events now
      end
  end.

(** A method of [RecvStream] that does not raise. *)
Definition total {S A} (f : S → A * S) : M S A := λ s, let '(a, s') := f s in (Ok a, s').

(** [_maybe_extend_credit] *)
Definition maybe_extend_credit (stream_id : Z) : M Connection unit :=
  limit ← in_streams (on_recv stream_id (total credit_update));
  _ ← match limit with Some m => queue_control (FMaxStreamData stream_id m) | None => mret tt end;
  connection_limit ← in_streams (total max_data_update);
  _ ← match connection_limit with Some m => queue_control (FMaxData m) | None => mret tt end;
  each (λ bidirectional : bool,
    streams_limit ← in_streams (total (max_streams_update bidirectional));
    match streams_limit with
    | Some m => queue_control (FMaxStreams m bidirectional)
    | None => mret tt
    end) [true; false].

(** [_handle_stream] *)
Definition handle_stream (frame : Stream) : M Connection unit :=
  c ← get;
  match cn_streams c with
  | None => raise (connection_error PROTOCOL_VIOLATION "STREAM frame before transport parameters")
  | Some _ =>
      recv ← catch (in_streams (sm_on_stream_frame frame))
        (λ e, match e with
              | StreamError code reason => Some (raise (connection_error code reason))
              | _ => None
              end);
      let was_fully_read := is_fully_read recv in
      data ← in_streams (on_recv (st_id frame) (total read));
      recv ← in_streams (recv_stream (st_id frame));
      _ ← when (negb (len data =? 0) || (is_fully_read recv && negb was_fully_read))
            (emit (StreamDataReceived (st_id frame) data (is_fully_read recv)));
      maybe_extend_credit (st_id frame)
  end.

(** [_handle_frame] *)
Definition handle_frame (level : EncryptionLevel) (frame : Frame) (now : Q) : M Connection unit :=
  c ← get;
  match frame with
  | FAck a => handle_ack level a now
  | FCrypto f => handle_crypto level f now
  | FStream f => handle_stream f
  | FMaxData _ | FMaxStreamData _ _ | FMaxStreams _ _ => handle_limit frame
  | FHandshakeDone =>
      if negb (cn_is_client c) then raise (connection_error PROTOCOL_VIOLATION "client sent HANDSHAKE_DONE")
      else confirm_handshake
  | FNewToken token =>
      if negb (cn_is_client c) then raise (connection_error PROTOCOL_VIOLATION "client sent NEW_TOKEN")
      else modify (set_cn_new_tokens (cn_new_tokens c ++ [token]))
  | FPathChallenge data => queue_control (FPathResponse data)
  | FPathResponse data =>
      if bool_decide (data ∈ cn_path_challenges c) then
        _ ← modify (set_cn_path_challenges []); modify (set_cn_path_validated true)
      else mret tt
  | FConnectionClose f => on_connection_close f now
  | _ => mret tt
  end.

(** RFC 9000 Table 3, as far as [_handle_payload] checks it. *)
Definition barred_in_zero_rtt (frame : Frame) : bool :=
  match frame with FAck _ | FCrypto _ | FNewToken _ | FPathResponse _ => true | _ => false end.

(** [_handle_payload] *)
Definition handle_payload (level : EncryptionLevel) (payload : bytes) (now : Q) (zero_rtt : bool)
    : M Connection unit :=
  parsed ← catch (lift (parse_frames payload))
    (λ e, match e with
          | FrameParseError m | BufferReadError m => Some (raise (connection_error FRAME_ENCODING_ERROR m))
          | _ => None
          end);
  each (λ frame,
    if zero_rtt && barred_in_zero_rtt frame then
      raise (connection_error PROTOCOL_VIOLATION "frame not permitted in a 0-RTT packet")
    else
      _ ← when (is_ack_eliciting frame) (modify_space level (set_ack_eliciting_pending true));
      handle_frame level frame now) parsed.

(** ** Packets *)

(** [_handle_version_negotiation] *)
Definition handle_version_negotiation (data : bytes) : M Connection unit :=
  c ← get;
  if cn_peer_cid_confirmed c then mret tt
  else match parse_version_negotiation data with
       | Raise (BufferReadError _) => mret tt
       | Raise e => raise e
       | Ok packet =>
           if bool_decide (cf_version (cn_config c) ∈ vn_versions packet) then mret tt
           else if bool_decide (vn_destination_cid packet ≠ cn_host_cid c ∨ vn_source_cid packet ≠ cn_peer_cid c)
           then mret tt
           else _ ← emit (VersionNegotiationReceived (vn_versions packet)); modify (set_cn_state TERMINATED)
       end.

(** The CRYPTO frames of a packet, requeued in the Initial space. *)
Definition requeue_crypto_frame (frame : Frame) : M Connection unit :=
  match frame with
  | FCrypto f => modify_space L_INITIAL (λ s, set_crypto (requeue_crypto f (ps_crypto s)) s)
  | _ => mret tt
  end.

(** [_handle_retry] *)
Definition handle_retry (data : bytes) : M Connection unit :=
  c ← get;
  if negb (len (cn_retry_token c) =? 0) || cn_peer_cid_confirmed c then mret tt
  else match parse_retry data (cn_initial_dcid c) with
       | Raise (HeaderParseError _) | Raise (BufferReadError _) | Raise (UnsupportedVersion _) => mret tt
       | Raise e => raise e
       | Ok packet =>
           if len (rt_token packet) =? 0 then mret tt
           else
             _ ← modify (set_cn_retry_token (rt_token packet));
             _ ← modify (set_cn_retry_source_cid (Some (rt_source_cid packet)));
             _ ← modify (set_cn_peer_cid (rt_source_cid packet));
             _ ← install_initial_keys (rt_source_cid packet);
             c ← get;
             let '(sent, recovery) := restart_space L_INITIAL (cn_recovery c) in
             _ ← modify (set_cn_recovery recovery);
             each (λ p, each requeue_crypto_frame (sp_frames p)) sent
       end.

(** A packet found in a datagram: level, packet number offset, bytes, end. *)
Record located : Type := mkLocated {
  lc_level : EncryptionLevel; lc_pn_offset : Z; lc_packet : bytes; lc_end : Z }.

(** [_locate_packet] *)
Definition locate_packet (data : bytes) (now : Q) : M Connection (option located) :=
  c ← get;
  if negb (has_bit (first_byte data) 0x80) then
    h ← lift (parse_short_header data (len (cn_host_cid c)));
    mret (Some (mkLocated L_ONE_RTT (sh_pn_offset h) data (len data)))
  else if cn_is_client c && is_version_negotiation data then _ ← handle_version_negotiation data; mret None
  else if cn_is_client c && is_retry data then _ ← handle_retry data; mret None
  else
    h ← lift (parse_long_header data);
    match (match lh_packet_type h with
           | INITIAL => Some L_INITIAL | HANDSHAKE => Some L_HANDSHAKE | ZERO_RTT => Some L_ONE_RTT
           | RETRY => None end) with
    | None => mret None
    | Some level =>
        if cn_is_client c && bool_decide (lh_packet_type h = ZERO_RTT) then mret None
        else
          _ ← (if negb (cn_is_client c) && bool_decide (level = L_INITIAL) then
                 adopt_client_initial (lh_destination_cid h) (lh_source_cid h)
               else if cn_is_client c && negb (cn_peer_cid_confirmed c) then
                 _ ← modify (set_cn_peer_cid (lh_source_cid h)); modify (set_cn_peer_cid_confirmed true)
               else mret tt);
          let packet_end := lh_pn_offset h + lh_length h in
          mret (Some (mkLocated level (lh_pn_offset h) (slice 0 packet_end data) packet_end))
    end.

(** [except (HeaderParseError, BufferReadError, UnsupportedVersion)] *)
Definition undecodable (e : exn) : bool :=
  match e with HeaderParseError _ | BufferReadError _ | UnsupportedVersion _ => true | _ => false end.

(** The end of [_process_packet]: a packet that decrypted. *)
Definition accept_packet (level : EncryptionLevel) (packet_number : Z) (payload : bytes) (now : Q) (ecn : Z)
    (zero_rtt : bool) : M Connection unit :=
  c ← get;
  let larger := packet_number >? ps_largest_received (space_at level c) in
  _ ← modify_space level (record_packet packet_number ecn);
  _ ← when larger (modify (λ c, set_cn_largest_time_received (d_set level now (cn_largest_time_received c)) c));
  _ ← when (negb (cn_is_client c) && bool_decide (level = L_HANDSHAKE))
        (_ ← conn_discard_space L_INITIAL; modify (set_cn_address_validated true));
  handle_payload level payload now zero_rtt.

(** [_process_packet] *)
Definition process_packet (data : bytes) (now : Q) (ecn : Z) : M Connection Z :=
  found ← catch (locate_packet data now) (λ e, if undecodable e then Some (mret None) else None);
  match found with
  | None => mret 0
  | Some l =>
      let level := lc_level l in
      let zero_rtt := bool_decide (level = L_ONE_RTT) && has_bit (first_byte (lc_packet l)) 0x80 in
      c ← get;
      let space := space_at level c in
      let keys_recv := if zero_rtt then ks_recv_early (ps_keys space) else ks_recv (ps_keys space) in
      if bool_decide (keys_recv = None) || ps_discarded space then mret (lc_end l)
      else if bool_decide (level = L_ONE_RTT) && negb zero_rtt && bool_decide (cn_state c = HANDSHAKING)
      then mret (lc_end l)
      else
        decrypted ← conn_decrypt level (lc_packet l) (lc_pn_offset l) now zero_rtt;
        match decrypted with
        | None => mret (lc_end l)
        | Some (packet_number, payload) =>
            c ← get;
            if covers packet_number (packet_number + 1) (ps_received (space_at level c)) then mret (lc_end l)
            else _ ← accept_packet level packet_number payload now ecn zero_rtt; mret (lc_end l)
        end
  end.

(** ** Datagrams *)

(** The [while offset < len(data)] loop; every round that goes on consumes at
    least a byte, so the length of the datagram is enough fuel. *)
Fixpoint packets_loop (fuel : nat) (data : bytes) (offset : Z) (now : Q) (ecn : Z) : M Connection unit :=
  if offset <? len data then
    match fuel with
    | O => raise OutOfFuel
    | S k =>
        consumed ← process_packet (drop (Z.to_nat offset) data) now ecn;
        if consumed <=? 0 then mret tt
        else packets_loop k data (offset + consumed) now ecn
    end
  else mret tt.

(** [_datagram_received] *)
Definition receive_datagram (data : bytes) (now : Q) (source : option bytes) (ecn : Z) : M Connection unit :=
  c ← get;
  if bool_decide (cn_state c = TERMINATED ∨ cn_state c = DRAINING) then mret tt
  else
    _ ← modify (λ c, set_cn_bytes_received (cn_bytes_received c + len data) c);
    _ ← when (bool_decide (cn_destination c = None) && bool_decide (source ≠ None))
          (modify (set_cn_destination source));
    _ ← packets_loop (length data) data 0 now ecn;
    arm_idle_timer now.

(** [datagram_received] *)
Definition datagram_received (data : bytes) (now : Q) (source : option bytes) (ecn : Z) : M Connection unit :=
  catch (receive_datagram data now source ecn)
    (λ e, match e with
          | ConnectionError_ code reason frame_type =>
              Some (_ ← close code reason frame_type; emit (ConnectionTerminated code (ascii_bytes reason)))
          | _ => None
          end).
End recv.
