(* ===== verification/ConnSend.v ===== *)
(** * The connection's send path, timers and application interface (connection.py)

    The rest of [Connection]: choosing frames, building protected packets and
    coalescing them into datagrams under the anti-amplification, congestion
    and pacing limits, the close datagram, the timers, and the calls the
    application makes.  [datagrams_to_send] loops until nothing is sendable;
    its fuel is an argument. *)

From S2P Require Import Prelude Buffer Frames Packet TransportParameters RangeSet Streams StreamManager.
From S2P Require Import Congestion NewReno Recovery Crypto Protection Retry TlsInterface Spaces ConnState ConnRecv.

Section send.
Context `{HP : Primitives} `{HT : Tls}.

(** ** Choosing frames *)

(** The [while self._control_frames and used < room] loop over the frames
    queued, which pops those it takes. *)
Fixpoint control_loop (room used : Z) (chosen : list Frame) (queue : list Frame) : M Connection (list Frame * Z) :=
  match queue with
  | [] => mret (chosen, used)
  | control :: queue' =>
      if used <? room then
        encoded ← lift (encode control);
        if len encoded >? room - used then mret (chosen, used)
        else
          _ ← modify (set_cn_control_frames queue');
          control_loop room (used + len encoded) (chosen ++ [control]) queue'
      else mret (chosen, used)
  end.

(** The loop over [writable_streams()]. *)
Fixpoint streams_loop (room used : Z) (chosen : list Frame) (ids : list Z) : M Connection (list Frame * Z) :=
  match ids with
  | [] => mret (chosen, used)
  | stream_id :: ids' =>
      let available := room - used - 24 in
      if available <=? 0 then mret (chosen, used)
      else
        frame ← in_streams (sm_next_frame stream_id available);
        match frame with
        | None => streams_loop room used chosen ids'
        | Some f =>
            encoded ← lift (encode (FStream f));
            streams_loop room (used + len encoded) (chosen ++ [FStream f]) ids'
        end
  end.

(** [_application_frames] *)
Definition application_frames (room : Z) : M Connection (list Frame * Z) :=
  c ← get;
  let '(chosen, used) := if cn_handshake_done_pending c then ([FHandshakeDone], 1) else ([], 0) in
  _ ← modify (set_cn_handshake_done_pending false);
  '(chosen, used) ← control_loop room used chosen (cn_control_frames c);
  match cn_streams c with
  | None => mret (chosen, used)
  | Some streams => streams_loop room used chosen (writable_streams streams)
  end.

(** The CRYPTO frames of unacknowledged packets, oldest packet first. *)
Definition outstanding_crypto (level : EncryptionLevel) (c : Connection) : list Crypto :=
  omap (λ f, match f with FCrypto x => Some x | _ => None end) (concat (sp_frames <$> unacked level (cn_recovery c))).

(** [_probe_filler]: the first outstanding CRYPTO frame that fits. *)
Fixpoint probe_filler (room : Z) (candidates : list Crypto) : result Frame :=
  match candidates with
  | [] => Ok FPing
  | f :: rest =>
      encoded ← encode (FCrypto f);
      if len encoded <=? room then Ok (FCrypto f) else probe_filler room rest
  end.

(** The ACK at the front of a packet. *)
Definition choose_ack (level : EncryptionLevel) (room : Z) : M Connection (list Frame * Z) :=
  c ← get;
  match build_ack (space_at level c) with
  | None => mret ([], 0)
  | Some ack =>
      encoded ← lift (encode (FAck ack));
      if len encoded <=? room then
        _ ← modify_space level (set_ack_eliciting_pending false);
        mret ([FAck ack], len encoded)
      else mret ([], 0)
  end.

(** [_pending_frames] *)
Definition pending_frames (level : EncryptionLevel) (room : Z) (ack_only : bool) : M Connection (list Frame * Z) :=
  '(chosen, used) ← choose_ack level room;
  if ack_only : bool then mret (chosen, used)
  else
    let available := Z.max 0 (room - used - 16) in
    crypto ← in_crypto level (total (take_crypto available));
    '(chosen, used) ←
      match crypto with
      | Some f => encoded ← lift (encode (FCrypto f)); mret (chosen ++ [FCrypto f], used + len encoded)
      | None => mret (chosen, used)
      end;
    '(chosen, used) ←
      (if decide (level = L_ONE_RTT) then
         '(application, application_used) ← application_frames (room - used);
         mret (chosen ++ application, used + application_used)
       else mret (chosen, used));
    c ← get;
    if get_probes level (cn_probes_pending c) =? 0 then mret (chosen, used)
    else
      '(chosen, used) ←
        (if existsb is_ack_eliciting chosen then mret (chosen, used)
         else
           filler ← lift (probe_filler (room - used) (outstanding_crypto level c));
           encoded ← lift (encode filler);
           mret (chosen ++ [filler], used + len encoded));
      _ ← modify (set_cn_probes_pending (add_probes level (-1) (cn_probes_pending c)));
      mret (chosen, used).

(** ** Building packets *)

Definition HEADER_OVERHEAD : Z := 64.
Definition MINIMUM_PAYLOAD : Z := MAX_PN_LENGTH + SAMPLE_LENGTH - AEAD_TAG_LENGTH.

(** [payload += bytes(minimum - len(payload))] when it is shorter. *)
Definition pad_payload (minimum : Z) (payload : bytes) : bytes :=
  if len payload <? minimum then payload ++ zeros (minimum - len payload) else payload.

(** The token of an Initial: [self._retry_token or self.config.token]. *)
Definition initial_token (level : EncryptionLevel) (c : Connection) : bytes :=
  if decide (level = L_INITIAL)
  then if len (cn_retry_token c) =? 0 then cf_token (cn_config c) else cn_retry_token c
  else [].

Definition long_template (level : EncryptionLevel) (zero_rtt : bool) (c : Connection) : LongHeaderTemplate :=
  mkLongHeaderTemplate (if zero_rtt then ZERO_RTT else LEVEL_TO_PACKET_TYPE level) (cf_version (cn_config c))
    (cn_peer_cid c) (cn_host_cid c) (initial_token level c).

(** The header, and the payload padded to what the datagram needs. *)
Definition header_and_payload (level : EncryptionLevel) (zero_rtt : bool) (pad_datagram_to packet_number : Z)
    (pn_bytes payload : bytes) (c : Connection) : result (bytes * bytes) :=
  let pn_length := len pn_bytes in
  if bool_decide (level = L_ONE_RTT) && negb zero_rtt then
    first ← byte_literal (short_header_first_byte (ps_keys (space_at level c)) pn_length);
    Ok (first ++ cn_peer_cid c ++ pn_bytes, payload)
  else
    let template := long_template level zero_rtt c in
    payload ←
      (if pad_datagram_to =? 0 then Ok payload
       else
         trial ← build_long_header template pad_datagram_to packet_number pn_length;
         let padding := pad_datagram_to - len trial - len payload - AEAD_TAG_LENGTH in
         Ok (if padding >? 0 then payload ++ zeros padding else payload));
    header ← build_long_header template (len payload + AEAD_TAG_LENGTH) packet_number pn_length;
    Ok (header, payload).

(** [_build_packet] *)
Definition build_packet (level : EncryptionLevel) (room : Z) (now : Q) (pad_datagram_to : Z) (ack_only : bool)
    : M Connection (option bytes) :=
  c ← get;
  let keys := ps_keys (space_at level c) in
  let zero_rtt := bool_decide (level = L_ONE_RTT) && bool_decide (ks_send keys = None) in
  match (if zero_rtt then ks_send_early keys else ks_send keys) with
  | None => raise AssertionError
  | Some keys_send =>
      if room <=? HEADER_OVERHEAD + AEAD_TAG_LENGTH then mret None
      else
        '(chosen, _) ← pending_frames level (room - HEADER_OVERHEAD - AEAD_TAG_LENGTH) ack_only;
        match chosen with
        | [] => mret None
        | _ =>
            encoded ← lift (mapM_result encode chosen);
            let payload := pad_payload MINIMUM_PAYLOAD (concat encoded) in
            c ← get;
            let packet_number := ps_next_packet_number (space_at level c) in
            if packet_number >? MAX_PACKET_NUMBER then
              raise (connection_error INTERNAL_ERROR "packet number space exhausted")
            else
              _ ← modify_space level (λ s, set_next_packet_number (ps_next_packet_number s + 1) s);
              pn_bytes ← lift (encode_packet_number packet_number None);
              c ← get;
              '(header, payload) ←
                lift (header_and_payload level zero_rtt pad_datagram_to packet_number pn_bytes payload c);
              packet ← lift (protect keys_send header payload packet_number);
              let ack_eliciting := existsb is_ack_eliciting chosen in
              _ ← modify_recovery (ld_on_packet_sent
                    (mkSentPacket level packet_number now ack_eliciting ack_eliciting (len packet) chosen));
              mret (Some packet)
        end
  end.

(** ** Budgets *)

(** [_send_budget] *)
Definition send_budget (ack_only : bool) (c : Connection) : Z :=
  let controller := ld_controller (cn_recovery c) in
  let mds := cf_max_datagram_size (cn_config c) in
  let budget := if ack_only then mds else congestion_window controller - bytes_in_flight controller in
  let probes := total_probes (cn_probes_pending c) in
  let budget := if probes =? 0 then budget else Z.max budget (probes * mds) in
  if negb (cn_is_client c) && negb (cn_address_validated c)
  then Z.min budget (AMPLIFICATION_FACTOR * cn_bytes_received c - cn_bytes_sent c) else budget.

(** [_in_flight_data_pending] *)
Definition in_flight_data_pending (c : Connection) : bool :=
  existsb (λ level, negb (get_probes level (cn_probes_pending c) =? 0)) all_levels
  || existsb (λ level, has_pending_data level c) all_levels.

(** [_pacing_allowance]; [None] is the unbounded allowance. *)
Definition pacing_allowance (now : Q) : M Connection (option Q) :=
  c ← get;
  match pacing_rate (rtt_smoothed (ld_rtt (cn_recovery c))) (ld_controller (cn_recovery c)) with
  | None => mret None
  | Some rate =>
      let burst := inject_Z (PACING_BURST_DATAGRAMS * cf_max_datagram_size (cn_config c)) in
      let credit := match cn_pacing_updated c with
        | None => burst
        | Some updated => Qmin (cn_pacing_credit c + Qmax 0 (now - updated) * rate) burst
        end in
      _ ← modify (set_cn_pacing_credit credit);
      _ ← modify (set_cn_pacing_updated (Some now));
      mret (Some credit)
  end.

(** [_pacing_blocked] *)
Definition pacing_blocked (now : Q) : M Connection bool :=
  allowance ← pacing_allowance now;
  c ← get;
  let needed := inject_Z (cf_max_datagram_size (cn_config c)) in
  match allowance with
  | None => mret false
  | Some allowance =>
      if Qle_bool needed allowance then mret false
      else if negb (in_flight_data_pending c) then mret false
      else match pacing_rate (rtt_smoothed (ld_rtt (cn_recovery c))) (ld_controller (cn_recovery c)) with
           | None => mret false
           | Some rate =>
               if Qle_bool rate 0 then mret false
               else _ ← modify (set_cn_pacing_deadline (Some (now + (needed - allowance) / rate)%Q)); mret true
           end
  end.

(** ** Datagrams *)

(** Whether [_build_datagram] may build a packet at a level. *)
Definition can_send (level : EncryptionLevel) (c : Connection) : bool :=
  let space := space_at level c in
  (bool_decide (ks_send (ps_keys space) ≠ None)
   || (bool_decide (level = L_ONE_RTT) && bool_decide (ks_send_early (ps_keys space) ≠ None)))
  && negb (ps_discarded space).

(** The loop over the levels, with its [break] after an Initial. *)
Fixpoint levels_loop (budget size_limit : Z) (now : Q) (ack_only : bool) (payload : bytes)
    (levels : list EncryptionLevel) : M Connection bytes :=
  match levels with
  | [] => mret payload
  | level :: levels' =>
      c ← get;
      if negb (can_send level c) then levels_loop budget size_limit now ack_only payload levels'
      else
        let pad_to := if decide (level = L_INITIAL) then Z.min MIN_INITIAL_DATAGRAM budget else 0 in
        packet ← build_packet level (size_limit - len payload) now pad_to ack_only;
        match packet with
        | None => levels_loop budget size_limit now ack_only payload levels'
        | Some p =>
            _ ← when (cn_is_client c && bool_decide (level = L_HANDSHAKE)) (conn_discard_space L_INITIAL);
            if negb (pad_to =? 0) then mret (payload ++ p)
            else levels_loop budget size_limit now ack_only (payload ++ p) levels'
        end
  end.

(** [_build_datagram] *)
Definition build_datagram (now : Q) (ack_only : bool) : M Connection (option OutgoingDatagram) :=
  c ← get;
  let budget := send_budget ack_only c in
  if budget <=? 0 then mret None
  else
    payload ← levels_loop budget (cf_max_datagram_size (cn_config c)) now ack_only [] all_levels;
    if len payload =? 0 then mret None
    else
      _ ← modify (λ c, set_cn_bytes_sent (cn_bytes_sent c + len payload) c);
      c ← get;
      mret (Some (mkOutgoingDatagram payload (cn_destination c) (if cn_ecn_enabled c then ECT_0 else 0))).

(** The [for level in ...] loop of [_build_close_datagram]. *)
Fixpoint close_loop (frame : ConnectionClose) (now : Q) (levels : list EncryptionLevel)
    : M Connection (list OutgoingDatagram) :=
  match levels with
  | [] => mret []
  | level :: levels' =>
      c ← get;
      let space := space_at level c in
      match ks_send (ps_keys space) with
      | Some keys_send =>
          if ps_discarded space then close_loop frame now levels'
          else
            encoded ← lift (encode (FConnectionClose frame));
            let payload := pad_payload MINIMUM_PAYLOAD encoded in
            let packet_number := ps_next_packet_number space in
            _ ← modify_space level (λ s, set_next_packet_number (ps_next_packet_number s + 1) s);
            pn_bytes ← lift (encode_packet_number packet_number None);
            '(header, payload) ← lift (header_and_payload level false 0 packet_number pn_bytes payload c);
            packet ← lift (protect keys_send header payload packet_number);
            _ ← modify (set_cn_close_sent true);
            _ ← modify (λ c, set_cn_closing_deadline (Some (now + 3 * pto (cn_recovery c))%Q) c);
            mret [mkOutgoingDatagram packet (cn_destination c) 0]
      | None => close_loop frame now levels'
      end
  end.

(** [_build_close_datagram] *)
Definition build_close_datagram (now : Q) : M Connection (list OutgoingDatagram) :=
  c ← get;
  match cn_close_frame c with
  | Some frame => if cn_close_sent c then mret [] else close_loop frame now [L_ONE_RTT; L_HANDSHAKE; L_INITIAL]
  | None => mret []
  end.

(** The [while True] of [datagrams_to_send]. *)
Fixpoint send_loop (fuel : nat) (now : Q) (datagrams : list OutgoingDatagram) : M Connection (list OutgoingDatagram) :=
  match fuel with
  | O => raise OutOfFuel
  | S k =>
      paced_out ← pacing_blocked now;
      c ← get;
      let in_flight := bytes_in_flight (ld_controller (cn_recovery c)) in
      datagram ← build_datagram now paced_out;
      match datagram with
      | None => mret datagrams
      | Some d =>
          _ ← modify (λ c, set_cn_pacing_credit
                (cn_pacing_credit c - inject_Z (bytes_in_flight (ld_controller (cn_recovery c)) - in_flight))%Q c);
          send_loop k now (datagrams ++ [d])
      end
  end.

(** [datagrams_to_send] *)
Definition datagrams_to_send (fuel : nat) (now : Q) : M Connection (list OutgoingDatagram) :=
  c ← get;
  if bool_decide (cn_state c = DRAINING ∨ cn_state c = TERMINATED) then mret []
  else if cn_close_frame c is Some _ then build_close_datagram now
  else
    _ ← maybe_update_keys now;
    _ ← modify (set_cn_pacing_deadline None);
    datagrams ← send_loop fuel now [];
    c ← get;
    _ ← modify (set_cn_pending []);
    mret (cn_pending c ++ datagrams).

(** ** Timers *)

(** [_idle_deadline] *)
Definition idle_deadline (c : Connection) : option Q :=
  match cn_idle_started c with
  | None => None
  | Some started =>
      let local_ms := max_idle_timeout_ms (cn_local_parameters c) in
      let peer_ms := match cn_peer_parameters c with Some p => max_idle_timeout_ms p | None => 0 end in
      match List.filter (λ v, v >? 0) [local_ms; peer_ms] with
      | [] => None
      | first :: rest =>
          let timeout := (fold_left Z.min rest first # 1000)%Q in
          Some (started + Qmax timeout (3 * pto (cn_recovery c)))%Q
      end
  end.

Definition min_time (l : list Q) : option Q :=
  match l with [] => None | first :: rest => Some (fold_left Qmin rest first) end.

(** [next_timer] *)
Definition next_timer (c : Connection) : option Q :=
  if decide (cn_state c = TERMINATED) then None
  else
    min_time (omap id
      [cn_closing_deadline c;
       if decide (cn_state c ≠ DRAINING) then idle_deadline c else None;
       if bool_decide (cn_state c ≠ CLOSING ∧ cn_state c ≠ DRAINING)
       then loss_detection_timeout (cn_recovery c) else None;
       cn_pacing_deadline c]).

(** [deadline is not None and now >= deadline] *)
Definition due (deadline : option Q) (now : Q) : bool :=
  match deadline with Some t => Qle_bool t now | None => false end.

(** [handle_timer] *)
Definition handle_timer (now : Q) : M Connection unit :=
  c ← get;
  if due (cn_closing_deadline c) now then modify (set_cn_state TERMINATED)
  else if bool_decide (cn_state c = CLOSING ∨ cn_state c = DRAINING) then mret tt
  else if due (idle_deadline c) now then
    _ ← modify (set_cn_state TERMINATED);
    emit (ConnectionTerminated NO_ERROR (ascii_bytes "idle timeout"))
  else if due (loss_detection_timeout (cn_recovery c)) now then
    outcome ← in_loss_detection (on_loss_detection_timeout now);
    _ ← each requeue_lost (to_lost outcome);
    match to_probe_level outcome with
    | None => mret tt
    | Some level =>
        _ ← modify (λ c, set_cn_probes_pending (add_probes level PROBE_PACKETS (cn_probes_pending c)) c);
        prepare_probe level
    end
  else mret tt.

(** ** The application interface *)

(** [connect] *)
Definition connect (now : Q) : M Connection unit :=
  c ← get;
  match cn_tls c with
  | None => raise AssertionError
  | Some tls =>
      let '(r, tls') := tls_start now tls in
      _ ← modify (set_cn_tls (Some tls'));
      _ ← lift r;
      _ ← drain_tls_events now;
      c ← get;
      _ ← match tls_early_secret <$> cn_tls c, cn_remembered_parameters c with
          | Some (Some _), Some remembered => create_streams remembered
          | _, _ => mret tt
          end;
      arm_idle_timer now
  end.

(** [validate_path]; the eight bytes [os.urandom] gives are an argument. *)
Definition validate_path (urandom : bytes) : M Connection unit :=
  _ ← modify (λ c, set_cn_path_challenges (cn_path_challenges c ++ [urandom]) c);
  _ ← modify (set_cn_path_validated false);
  queue_control (FPathChallenge urandom).

(** [send_new_token] *)
Definition send_new_token (token : bytes) : M Connection unit :=
  c ← get;
  if cn_is_client c then raise AssertionError else queue_control (FNewToken token).

(** [open_stream] *)
Definition open_stream : M Connection Z :=
  c ← get;
  match cn_streams c with
  | None => raise (RuntimeError "cannot open a stream before the handshake completes")
  | Some streams =>
      catch (in_streams open_bidi)
        (λ e, match e with
              | StreamLimitReached _ =>
                  Some (_ ← queue_control (FStreamsBlocked (sm_max_streams_bidi streams) true); raise e)
              | _ => None
              end)
  end.

(** [send_stream_data] *)
Definition send_stream_data (stream_id : Z) (data : bytes) (end_stream : bool) : M Connection unit :=
  c ← get;
  match cn_streams c with
  | None => raise (RuntimeError "cannot send stream data before the handshake completes")
  | Some _ => in_streams (on_send stream_id (write data end_stream))
  end.

(** [take_events] *)
Definition take_events : M Connection (list ConnectionEvent) :=
  c ← get; _ ← modify (set_cn_events []); mret (cn_events c).

(** [keys_discarded] and [key_phase] *)
Definition keys_discarded (level : EncryptionLevel) (c : Connection) : bool := ps_discarded (space_at level c).
Definition key_phase (c : Connection) : bool := ks_key_phase (ps_keys (space_at L_ONE_RTT c)).
End send.
