(* ===== verification/ConnMonotone.v ===== *)
(** * What the connection never takes back

    A relation between connection states, [advances], that every method of
    [Connection] keeps, whether it returns or raises: the role and the
    configuration do not change, packet numbers are never reused, the largest
    received number never decreases, a retired packet number space stays
    retired, a validated address stays validated, the byte counters of the
    anti-amplification limit only grow, and nothing comes to wait in
    [_pending]. *)

From S2P Require Import Prelude Buffer Frames Packet TransportParameters RangeSet Streams StreamManager.
From S2P Require Import Congestion NewReno Recovery Crypto Protection Retry TlsInterface Spaces ConnState ConnRecv.
From S2P Require Import ConnSend.

(** ** The relation *)

Record space_advances (s s' : PnSpace) : Prop := {
  sv_next : ps_next_packet_number s <= ps_next_packet_number s';
  sv_largest : ps_largest_received s <= ps_largest_received s';
  sv_discarded : ps_discarded s = true → ps_discarded s' = true }.

#[export] Instance space_advances_preorder : PreOrder space_advances.
Proof.
  split.
  - intros s. split; (lia || done).
  - intros a b c [] []. split; [lia|lia|auto].
Qed.

Create HintDb advance.

Section monotone.
Context `{HP : Primitives} `{HT : Tls}.

Record advances (c c' : Connection) : Prop := {
  av_role : cn_is_client c' = cn_is_client c;
  av_config : cn_config c' = cn_config c;
  av_host : cn_host_cid c' = cn_host_cid c;
  av_received : cn_bytes_received c <= cn_bytes_received c';
  av_sent : cn_bytes_sent c <= cn_bytes_sent c';
  av_validated : cn_address_validated c = true → cn_address_validated c' = true;
  av_probes : ∀ level, 0 <= get_probes level (cn_probes_pending c) → 0 <= get_probes level (cn_probes_pending c');
  av_pending : cn_pending c = [] → cn_pending c' = [];
  av_space : ∀ level, space_advances (space_at level c) (space_at level c') }.

#[export] Instance advances_preorder : PreOrder advances.
Proof.
  split.
  - intros c. split; (done || lia).
  - intros a b c [] []. split; try congruence; try lia; [auto|auto|auto|]. intros level. transitivity (space_at level b); auto.
Qed.

(** ** Field updates *)

Lemma advances_space level s c : space_advances (space_at level c) s → advances c (set_space_at level s c).
Proof.
  intros H. split; cbn; (done || lia || idtac). intros l. unfold space_at, set_space_at in *. cbn.
  destruct l, level; cbn; (done || reflexivity).
Qed.

Lemma preserves_modify_space level f :
  (∀ s, space_advances s (f s)) → preserves advances (modify_space level f).
Proof. intros H. apply preserves_modify. intros c. by apply advances_space. Qed.

(** Parts of a space that no advancing field lives in. *)
Lemma space_advances_same s s' :
  ps_next_packet_number s' = ps_next_packet_number s → ps_largest_received s' = ps_largest_received s →
  ps_discarded s' = ps_discarded s → space_advances s s'.
Proof. intros E1 E2 E3. split; [lia|lia|by rewrite E3]. Qed.

Lemma preserves_in_keys {A} level (m : M KeyState A) : preserves advances (in_keys level m).
Proof.
  intros c. unfold in_keys, zoom. destruct (m _) as [r k]. cbn. apply advances_space. by apply space_advances_same.
Qed.
Lemma preserves_in_crypto {A} level (m : M CryptoState A) : preserves advances (in_crypto level m).
Proof.
  intros c. unfold in_crypto, zoom. destruct (m _) as [r k]. cbn. apply advances_space. by apply space_advances_same.
Qed.
Lemma preserves_in_loss_detection {A} (m : M (LossDetection NewReno) A) : preserves advances (in_loss_detection m).
Proof. intros c. unfold in_loss_detection, zoom. destruct (m _) as [r k]. by split. Qed.
Lemma preserves_in_streams {A} (m : M StreamManager A) : preserves advances (in_streams m).
Proof.
  intros c. unfold in_streams. destruct (cn_streams c); [|by split]. destruct (m _) as [r k]. by split.
Qed.

Lemma record_packet_advances pn ecn s : space_advances s (record_packet pn ecn s).
Proof. unfold record_packet. case_test; split; cbn in *; (lia || done). Qed.

Lemma discard_advances s : space_advances s (discard s).
Proof. by split. Qed.
End monotone.

#[export] Hint Extern 1 (preserves _ (mret _)) => apply preserves_ret : advance.
#[export] Hint Extern 1 (preserves _ (raise _)) => apply preserves_raise : advance.
#[export] Hint Extern 1 (preserves _ get) => apply preserves_get : advance.
#[export] Hint Extern 1 (preserves _ (lift _)) => apply preserves_lift : advance.
#[export] Hint Resolve preserves_in_keys preserves_in_crypto preserves_in_loss_detection preserves_in_streams record_packet_advances
  discard_advances : advance.
#[export] Hint Extern 5 (space_advances _ _) => by apply space_advances_same : advance.
#[export] Hint Extern 5 (advances _ _) => by split : advance.

(** One step into a method: hints first, then the shape of the program. *)
Ltac preserve_step :=
  match goal with
  | |- preserves _ (match ?x with _ => _ end) => destruct x
  | |- preserves _ (let '(_, _) := ?x in _) => destruct x
  | |- preserves _ (mbind _ _) => apply preserves_bind
  | |- preserves _ (each _ _) => apply preserves_each
  | |- preserves _ (when _ _) => apply preserves_when
  | |- preserves _ (catch _ _) => apply preserves_catch
  | |- preserves _ (modify_space _ _) => apply preserves_modify_space
  | |- preserves _ (modify_recovery _) => apply preserves_modify
  | |- preserves _ (queue_control _) => apply preserves_modify
  | |- preserves _ (emit _) => apply preserves_modify
  | |- preserves _ (arm_idle_timer _) => apply preserves_modify
  | |- preserves _ (modify _) => apply preserves_modify
  | |- ∀ _, _ => intros ?
  | H : (match ?e with _ => _ end) = Some _ |- _ => destruct e; try discriminate
  | H : Some _ = Some _ |- _ => injection H as <-
  end.
Ltac preserve := repeat (solve [eauto with advance nocore] || preserve_step).

(** ** Every method *)

Section methods.
Context `{HP : Primitives} `{HT : Tls}.

Lemma pres_install_initial_keys dcid : preserves advances (install_initial_keys dcid).
Proof. unfold install_initial_keys. preserve. Qed.
Lemma pres_conn_decrypt level p o n z : preserves advances (conn_decrypt level p o n z).
Proof. unfold conn_decrypt. preserve. Qed.
Lemma pres_maybe_update_keys now : preserves advances (maybe_update_keys now).
Proof. unfold maybe_update_keys, conn_initiate_key_update. preserve. Qed.
Lemma pres_conn_discard_space level : preserves advances (conn_discard_space level).
Proof. unfold conn_discard_space. preserve. Qed.
Hint Resolve pres_install_initial_keys pres_conn_decrypt pres_maybe_update_keys pres_conn_discard_space : advance.

Lemma pres_adopt_client_initial d k : preserves advances (adopt_client_initial d k).
Proof. unfold adopt_client_initial. preserve. Qed.
Lemma pres_requeue_lost p : preserves advances (requeue_lost p).
Proof. unfold requeue_lost, requeue_frame. preserve. Qed.
Hint Resolve pres_adopt_client_initial pres_requeue_lost : advance.
Lemma pres_resend_early : preserves advances resend_early_application_data.
Proof. unfold resend_early_application_data. preserve. Qed.
Hint Resolve pres_resend_early : advance.
Lemma pres_prepare_probe level : preserves advances (prepare_probe level).
Proof. unfold prepare_probe. preserve. Qed.
Lemma pres_confirm_handshake : preserves advances confirm_handshake.
Proof. unfold confirm_handshake. preserve. Qed.
Lemma pres_create_streams p : preserves advances (create_streams p).
Proof. unfold create_streams. preserve. Qed.
Lemma pres_validate_peer_parameters : preserves advances validate_peer_parameters.
Proof. unfold validate_peer_parameters. preserve. Qed.
Hint Resolve pres_prepare_probe pres_confirm_handshake pres_create_streams pres_validate_peer_parameters : advance.
Lemma pres_settle_streams p : preserves advances (settle_streams p).
Proof. unfold settle_streams. preserve. Qed.
Hint Resolve pres_settle_streams : advance.
Lemma pres_on_handshake_complete e now : preserves advances (on_handshake_complete e now).
Proof. unfold on_handshake_complete. preserve. Qed.
Lemma pres_sync_early_keys : preserves advances sync_early_keys.
Proof. unfold sync_early_keys. preserve. Qed.
Hint Resolve pres_on_handshake_complete pres_sync_early_keys : advance.
Lemma pres_drain_tls_events now : preserves advances (drain_tls_events now).
Proof. unfold drain_tls_events, on_tls_event. preserve. Qed.
Hint Resolve pres_drain_tls_events : advance.
Lemma pres_close c r f : preserves advances (close c r f).
Proof. unfold close. preserve. Qed.
Lemma pres_on_connection_close f now : preserves advances (on_connection_close f now).
Proof. unfold on_connection_close. preserve. Qed.
Lemma pres_validate_ecn l f a now : preserves advances (validate_ecn l f a now).
Proof. unfold validate_ecn. preserve. Qed.
Hint Resolve pres_close pres_on_connection_close pres_validate_ecn : advance.
Lemma pres_handle_ack l f now : preserves advances (handle_ack l f now).
Proof. unfold handle_ack, on_acked_frame. preserve. Qed.
Lemma pres_handle_limit f : preserves advances (handle_limit f).
Proof. unfold handle_limit. preserve. Qed.
Lemma pres_receive_tls level data now : preserves advances (λ c, match cn_tls c with
  | Some tls => let '(r, tls') := tls_receive level data now tls in (r, set_cn_tls (Some tls') c)
  | None => (Raise AssertionError, c) end).
Proof. intros c. destruct (cn_tls c); [|by split]. destruct (tls_receive _ _ _ _). by split. Qed.
Hint Resolve pres_handle_ack pres_handle_limit pres_receive_tls : advance.
Lemma pres_handle_crypto l f now : preserves advances (handle_crypto l f now).
Proof. unfold handle_crypto. preserve. Qed.
Lemma pres_handle_stream f : preserves advances (handle_stream f).
Proof. unfold handle_stream, maybe_extend_credit. preserve. Qed.
Hint Resolve pres_handle_crypto pres_handle_stream : advance.
Lemma pres_handle_payload l p now z : preserves advances (handle_payload l p now z).
Proof. unfold handle_payload, handle_frame. preserve. Qed.
Hint Resolve pres_handle_payload : advance.
Lemma pres_handle_version_negotiation d : preserves advances (handle_version_negotiation d).
Proof. unfold handle_version_negotiation. preserve. Qed.
Lemma pres_handle_retry d : preserves advances (handle_retry d).
Proof. unfold handle_retry, requeue_crypto_frame. preserve. Qed.
Hint Resolve pres_handle_version_negotiation pres_handle_retry : advance.
Lemma pres_locate_packet d now : preserves advances (locate_packet d now).
Proof. unfold locate_packet. preserve. Qed.
Hint Resolve pres_locate_packet : advance.
Lemma pres_accept_packet l n p now e z : preserves advances (accept_packet l n p now e z).
Proof. unfold accept_packet. preserve. Qed.
Hint Resolve pres_accept_packet : advance.
Lemma pres_process_packet d now e : preserves advances (process_packet d now e).
Proof. unfold process_packet. preserve. Qed.
Hint Resolve pres_process_packet : advance.
Lemma pres_packets_loop fuel : ∀ d o now e, preserves advances (packets_loop fuel d o now e).
Proof. induction fuel as [|k IH]; intros; cbn [packets_loop]; preserve. Qed.
Hint Resolve pres_packets_loop : advance.

Lemma advances_received n c : 0 <= n → advances c (set_cn_bytes_received (cn_bytes_received c + n) c).
Proof. intros. split; cbn; (done || lia). Qed.
Lemma advances_sent n c : 0 <= n → advances c (set_cn_bytes_sent (cn_bytes_sent c + n) c).
Proof. intros. split; cbn; (done || lia). Qed.
Lemma next_packet_number_advances s : space_advances s (set_next_packet_number (ps_next_packet_number s + 1) s).
Proof. split; cbn; (done || lia). Qed.
Hint Resolve advances_received advances_sent next_packet_number_advances len_nonneg : advance.

Lemma pres_receive_datagram d now src e : preserves advances (receive_datagram d now src e).
Proof. unfold receive_datagram. preserve. Qed.
Hint Resolve pres_receive_datagram : advance.
Lemma pres_datagram_received d now src e : preserves advances (datagram_received d now src e).
Proof. unfold datagram_received. preserve. Qed.

(** The loop over the control frames changes nothing but their queue. *)
Lemma preserves_control_loop (R : Connection → Connection → Prop) `{!PreOrder R} room queue : ∀ used chosen,
  (∀ q c, R c (set_cn_control_frames q c)) → preserves R (control_loop room used chosen queue).
Proof.
  induction queue as [|f queue IH]; intros used chosen HR; cbn [control_loop]; [apply preserves_ret|].
  case_match; [|apply preserves_ret]. apply preserves_bind; [apply preserves_lift|]. intros e.
  case_match; [apply preserves_ret|]. apply preserves_bind; [by apply preserves_modify|]. intros _. by apply IH.
Qed.

(** It takes a front part of the queue. *)
Lemma control_loop_inv room queue : ∀ used chosen c chosen' used' c', cn_control_frames c = queue →
  control_loop room used chosen queue c = (Ok (chosen', used'), c') →
  ∃ taken rest, queue = taken ++ rest ∧ chosen' = chosen ++ taken ∧ c' = set_cn_control_frames rest c.
Proof.
  induction queue as [|f queue IH]; intros used chosen c chosen' used' c' Hq; cbn [control_loop];
    assert (Hnone : ∀ q, cn_control_frames c = q → ∃ taken rest, q = taken ++ rest ∧ chosen = chosen ++ taken ∧
              c = set_cn_control_frames rest c) by (intros q <-; exists [], (cn_control_frames c); rewrite app_nil_r; by destruct c).
  { intros [= <- _ <-]. auto. }
  case_test; [|by intros [= <- _ <-]; auto]. intros (e & ? & [= _ <-] & H)%M_bind_ok_inv.
  case_test_in H; [injection H as <- _ <-; auto|]. apply M_bind_ok_inv in H as ([] & ? & [= <-] & H).
  destruct (IH _ _ (set_cn_control_frames queue c) _ _ _ eq_refl H) as (taken & rest & -> & -> & ->). exists (f :: taken), rest.
  rewrite <- app_assoc. by destruct c.
Qed.
Hint Extern 1 (preserves _ (control_loop _ _ _ _)) => refine (preserves_control_loop _ _ _ _ _ _); intros ? ? : advance.

Lemma pres_streams_loop room ids : ∀ used chosen, preserves advances (streams_loop room used chosen ids).
Proof. induction ids as [|i ids IH]; intros; cbn [streams_loop]; preserve. Qed.
Hint Resolve pres_streams_loop : advance.
Lemma pres_application_frames room : preserves advances (application_frames room).
Proof. unfold application_frames. preserve. Qed.
Lemma pres_choose_ack l r : preserves advances (choose_ack l r).
Proof. unfold choose_ack. preserve. Qed.
Hint Resolve pres_application_frames pres_choose_ack : advance.

Lemma get_add_probes level level' n p :
  get_probes level (add_probes level' n p) = get_probes level p + (if decide (level = level') then n else 0).
Proof. unfold add_probes. case_decide as E; [subst level'; by destruct level|]. destruct level, level'; cbn; (done || lia). Qed.

(** One probe is used up where some are pending, or a timeout adds some. *)
Lemma advances_probes level n c :
  (get_probes level (cn_probes_pending c) ≠ 0 ∧ n = -1) ∨ 0 <= n →
  advances c (set_cn_probes_pending (add_probes level n (cn_probes_pending c)) c).
Proof.
  intros H. split; cbn; (done || lia || idtac). intros l. rewrite get_add_probes.
  destruct (decide (l = level)) as [->|]; lia.
Qed.

(** The last part of [_pending_frames], which answers a probe. *)
Lemma pres_answer_probe level chosen used (filler : Connection → result Frame) :
  preserves advances (c ← get;
    if get_probes level (cn_probes_pending c) =? 0 then mret (chosen, used)
    else
      '(chosen, used) ←
        (if existsb is_ack_eliciting chosen then mret (chosen, used)
         else
           f ← lift (filler c);
           encoded ← lift (encode f);
           mret (chosen ++ [f], used + len encoded));
      _ ← modify (set_cn_probes_pending (add_probes level (-1) (cn_probes_pending c)));
      mret (chosen, used)).
Proof.
  intros c. unfold mbind, M_bind, lift. cbn [get]. case_test; [reflexivity|].
  destruct (existsb _ _); [|destruct (filler c) as [f|]; [destruct (encode f) eqn:Ef|]];
    cbn -[get_probes add_probes encode]; rewrite ?Ef; try reflexivity; apply advances_probes; lia.
Qed.
Hint Extern 1 (preserves _ (get ≫= _)) => apply pres_answer_probe : advance.

Lemma pres_pending_frames l r a : preserves advances (pending_frames l r a).
Proof. unfold pending_frames. preserve. Qed.
Hint Resolve pres_pending_frames : advance.
Lemma pres_build_packet l r now p a : preserves advances (build_packet l r now p a).
Proof. unfold build_packet. preserve. Qed.
Hint Resolve pres_build_packet : advance.
Lemma pres_levels_loop b sz now a levels : ∀ p, preserves advances (levels_loop b sz now a p levels).
Proof. induction levels as [|l levels IH]; intros; cbn [levels_loop]; preserve. Qed.
Hint Resolve pres_levels_loop : advance.
Lemma pres_build_datagram now a : preserves advances (build_datagram now a).
Proof. unfold build_datagram. preserve. Qed.
Hint Resolve pres_build_datagram : advance.
Lemma pres_pacing_blocked now : preserves advances (pacing_blocked now).
Proof. unfold pacing_blocked, pacing_allowance. preserve. Qed.
Hint Resolve pres_pacing_blocked : advance.
Lemma pres_send_loop fuel now : ∀ l, preserves advances (send_loop fuel now l).
Proof. induction fuel as [|k IH]; intros; cbn [send_loop]; preserve. Qed.
Lemma pres_close_loop f now levels : preserves advances (close_loop f now levels).
Proof. induction levels as [|l levels IH]; intros; cbn [close_loop]; preserve. Qed.
Hint Resolve pres_send_loop pres_close_loop : advance.
Lemma pres_datagrams_to_send fuel now : preserves advances (datagrams_to_send fuel now).
Proof. unfold datagrams_to_send, build_close_datagram. preserve. Qed.
Hint Extern 5 (advances _ (set_cn_probes_pending (add_probes _ _ _) _)) =>
  apply advances_probes; right; discriminate : advance.
Lemma pres_handle_timer now : preserves advances (handle_timer now).
Proof. unfold handle_timer. preserve. Qed.
Lemma pres_connect now : preserves advances (connect now).
Proof. unfold connect. preserve. Qed.
End methods.

#[export] Hint Extern 1 (preserves _ (control_loop _ _ _ _)) => refine (preserves_control_loop _ _ _ _ _ _); intros ? ? : advance.
