(* ===== verification/ConnRuns.v ===== *)
(** * Running two connections against each other

    A concrete instance of the [Tls] interface, small enough to evaluate, and
    whole connections run with it: the client's first flight, the server's
    answer, the handshake.  The instance exchanges transport parameters and
    fixed secrets and authenticates nothing; it stands in for tls.py where a
    theorem needs a connection that really went through its own code. *)

From S2P Require Import Prelude Buffer Frames Packet TransportParameters RangeSet Streams StreamManager.
From S2P Require Import Congestion NewReno Recovery Crypto Protection Retry TlsInterface Spaces ConnState ConnRecv.
From S2P Require Import ConnSend.

(** ** Exchanging datagrams *)

Section exchange.
Context `{HP : Primitives} `{HT : Tls}.

(** One endpoint sends all it can; the other receives it. *)
Definition send_all (now : Q) (c : Connection) : result (list bytes * Connection) :=
  match datagrams_to_send 50 now c with (Ok l, c') => Ok (og_data <$> l, c') | (Raise e, _) => Raise e end.
Fixpoint receive_all (now : Q) (l : list bytes) (c : Connection) : result Connection :=
  match l with
  | [] => Ok c
  | d :: l' => match datagram_received d now None ECT_0 c with
               | (Ok tt, c') => receive_all now l' c'
               | (Raise e, _) => Raise e
               end
  end.

(** [c] sends all it can to [s]. *)
Definition send_flight (now : Q) (c s : Connection) : result (Connection * Connection) :=
  '(l, c) ← send_all now c; s ← receive_all now l s; Ok (c, s).

(** A call on the client, its datagrams delivered to the server. *)
Definition client_sends {A} (m : M Connection A) (now : Q) (c s : Connection) : result (Connection * Connection) :=
  match m c with
  | (Ok _, c) => send_flight now c s
  | (Raise e, _) => Raise e
  end.

(** The rest of a handshake that the client [c] has started towards [s] at time
    [t]: its first flight, the server's answer, the client's second flight, and
    HANDSHAKE_DONE. *)
Definition exchange_flights (t : Q) (c s : Connection) : result (Connection * Connection) :=
  '(c, s) ← send_flight (t + (1 # 10)) c s; '(s, c) ← send_flight (t + (2 # 10)) s c;
  '(c, s) ← send_flight (t + (3 # 10)) c s; '(s, c) ← send_flight (t + (4 # 10)) s c;
  send_flight (t + (5 # 10)) c s.
End exchange.

(** ** A small handshake

    The client sends its parameters at the Initial level.  The server answers
    one byte at the Initial level and, at the Handshake level, its parameters
    (with their length in two bytes) followed by a filler of a configured
    size, the place of a certificate chain.  The client finishes with one
    byte at the Handshake level once it has the whole flight. *)

Record ToyTls : Type := mkToyTls {
  ty_client : bool; ty_parameters : bytes; ty_filler : Z; ty_buffer : bytes; ty_peer : bytes;
  ty_done : bool; ty_events : list TlsEvent }.

Definition toy_secret (level : EncryptionLevel) (d : Direction) : bytes :=
  replicate 32 (match level, d with
                | L_HANDSHAKE, CLIENT => x11 | L_HANDSHAKE, SERVER => x12
                | _, CLIENT => x21 | _, SERVER => x22 end).
Definition toy_secrets (level : EncryptionLevel) : list TlsEvent :=
  map (λ d, EvSecretAvailable (mkSecretAvailable level d (toy_secret level d) TLS_AES_128_GCM_SHA256)) [CLIENT; SERVER].

Definition toy_emit (events : list TlsEvent) (t : ToyTls) : ToyTls :=
  mkToyTls (ty_client t) (ty_parameters t) (ty_filler t) (ty_buffer t) (ty_peer t) (ty_done t) (ty_events t ++ events).

Definition toy_server_receive (level : EncryptionLevel) (data : bytes) (t : ToyTls) : ToyTls :=
  match level with
  | L_INITIAL =>
      let flight := be_bytes 2 (len (ty_parameters t)) ++ ty_parameters t ++ zeros (ty_filler t) in
      toy_emit ([EvSendData L_INITIAL [x02]] ++ toy_secrets L_HANDSHAKE ++ [EvSendData L_HANDSHAKE flight]
                ++ toy_secrets L_ONE_RTT)
        (mkToyTls (ty_client t) (ty_parameters t) (ty_filler t) [] data false (ty_events t))
  | _ => if ty_done t then t
         else toy_emit [EvHandshakeComplete (mkHandshakeComplete "hq-interop" (ty_peer t))]
                (mkToyTls (ty_client t) (ty_parameters t) (ty_filler t) [] (ty_peer t) true (ty_events t))
  end.

Definition toy_client_receive (level : EncryptionLevel) (data : bytes) (t : ToyTls) : ToyTls :=
  match level with
  | L_INITIAL => toy_emit (toy_secrets L_HANDSHAKE) t
  | _ =>
      let buffer := ty_buffer t ++ data in
      let n := from_bytes (slice 0 2 buffer) in
      let t := mkToyTls (ty_client t) (ty_parameters t) (ty_filler t) buffer (ty_peer t) (ty_done t) (ty_events t) in
      if ty_done t || (len buffer <? 2 + n + ty_filler t) then t
      else toy_emit ([EvSendData L_HANDSHAKE [x14]] ++ toy_secrets L_ONE_RTT
                     ++ [EvHandshakeComplete (mkHandshakeComplete "hq-interop" (slice 2 (2 + n) buffer))])
             (mkToyTls (ty_client t) (ty_parameters t) (ty_filler t) buffer (ty_peer t) true (ty_events t))
  end.

#[export] Instance toy_tls : Tls := {
  tls_state := ToyTls;
  tls_client_config := Z;
  tls_server_config := Z;
  client_early_data _ := false;
  client_ticket_parameters _ := None;
  tls_new_client filler p := mkToyTls true p filler [] [] false [];
  tls_new_server filler p := mkToyTls false p filler [] [] false [];
  tls_start _ t := (Ok tt, toy_emit [EvSendData L_INITIAL (ty_parameters t)] t);
  tls_receive level data _ t :=
    (Ok tt, if ty_client t then toy_client_receive level data t else toy_server_receive level data t);
  tls_take_events t :=
    (ty_events t, mkToyTls (ty_client t) (ty_parameters t) (ty_filler t) (ty_buffer t) (ty_peer t) (ty_done t) []);
  tls_early_secret _ := None;
  tls_cipher_suite _ := TLS_AES_128_GCM_SHA256;
  tls_early_data_accepted _ := false;
  tls_resumed _ := false;
  tls_client_transport_parameters t := ty_peer t }.

(** ** Runs *)

Definition toy_parameters : TransportParameters :=
  mkTransportParameters None None None 30000 65527 1048576 262144 262144 262144 100 16 3 25 2 None.
Definition toy_config : ConnectionConfig := mkConnectionConfig 1200 toy_parameters None None QUIC_V1 [].

Definition start_client (filler : Z) : result Connection :=
  c ← new_Connection true (Some filler) None toy_config None (replicate 8 xc1) (replicate 8 xd1);
  match connect 0 c with (Ok tt, c') => Ok c' | (Raise e, _) => Raise e end.
Definition start_server (filler : Z) : result Connection :=
  new_Connection false None (Some filler) toy_config None (replicate 8 xe1) [].

(** Client and server once the handshake is over on both sides. *)
Definition handshake (filler : Z) : result (Connection * Connection) :=
  c ← start_client filler; s ← start_server filler; exchange_flights 0 c s.
