(* ===== verification/ConnProofs.v ===== *)
(** * Theorems about the connection

    What holds of a connection across any sequence of calls of its interface
    ([api_step]): packet numbers are used once, nothing is taken back, a
    connection that is draining or terminated stays silent; how far the
    anti-amplification limit is kept; and, run to the end on concrete
    connections, where the code does not do what it means to. *)

From stdpp Require Import relations.
From S2P Require Import Prelude Buffer Frames Packet TransportParameters RangeSet Streams StreamManager.
From S2P Require Import Congestion NewReno Recovery Crypto Protection Retry TlsInterface Spaces ConnState ConnRecv.
From S2P Require Import ConnSend ConnMonotone ConnRuns.

Section proofs.
Context `{HP : Primitives} `{HT : Tls}.

(** ** The interface as a step relation *)

(** Every public method, whatever it returns or raises. *)
Inductive api_step : Connection → Connection → Prop :=
| api_datagram_received c data now source ecn : api_step c (datagram_received data now source ecn c).2
| api_datagrams_to_send c fuel now : api_step c (datagrams_to_send fuel now c).2
| api_handle_timer c now : api_step c (handle_timer now c).2
| api_connect c now : api_step c (connect now c).2
| api_close c code reason frame_type : api_step c (close code reason frame_type c).2
| api_key_update c now : api_step c (conn_initiate_key_update now c).2
| api_validate_path c urandom : api_step c (validate_path urandom c).2
| api_send_new_token c token : api_step c (send_new_token token c).2
| api_open_stream c : api_step c (open_stream c).2
| api_send_stream_data c i data fin : api_step c (send_stream_data i data fin c).2
| api_take_events c : api_step c (take_events c).2.

Hint Resolve pres_datagram_received pres_datagrams_to_send pres_handle_timer pres_connect pres_close : advance.

Lemma api_step_advances c c' : api_step c c' → advances c c'.
Proof.
  intros []; revert c0;
    match goal with |- ∀ c : Connection, advances c (?m c).2 => change (preserves advances m) end;
    try solve [eauto with advance nocore].
  - unfold conn_initiate_key_update. preserve.
  - unfold validate_path. preserve.
  - unfold send_new_token. preserve.
  - unfold open_stream. preserve.
  - unfold send_stream_data. preserve.
  - unfold take_events. preserve.
Qed.

Lemma api_advances c c' : rtc api_step c c' → advances c c'.
Proof. induction 1; [reflexivity|]. etransitivity; [by apply api_step_advances|done]. Qed.

(** ** Packet numbers *)

Definition next_number (level : EncryptionLevel) (c : Connection) : Z :=
  ps_next_packet_number (space_at level c).

Lemma next_number_advances level c c' : advances c c' → next_number level c <= next_number level c'.
Proof. intros H. apply (sv_next _ _ (av_space _ _ H level)). Qed.

(** The keys [_build_packet] and [_build_close_datagram] protect a packet of a
    level with: the 0-RTT keys only while the application space has no 1-RTT
    send keys. *)
Definition sending_keys (level : EncryptionLevel) (c : Connection) : option PacketKeys :=
  let keys := ps_keys (space_at level c) in
  if bool_decide (level = L_ONE_RTT) && bool_decide (ks_send keys = None) then ks_send_early keys else ks_send keys.

(** [p] was protected in [c] under the number [n], which is then used up. *)
Definition numbered (level : EncryptionLevel) (c : Connection) (p : bytes) (c' : Connection) (n : Z) : Prop :=
  ∃ keys header payload, sending_keys level c = Some keys ∧ protect keys header payload n = Ok p ∧
    next_number level c <= n ∧ next_number level c' = n + 1.

Lemma next_number_bump level c :
  next_number level (modify_space level (λ s, set_next_packet_number (ps_next_packet_number s + 1) s) c).2 =
  next_number level c + 1.
Proof. by destruct level. Qed.

Lemma next_number_other level level' f c :
  level ≠ level' → next_number level (modify_space level' f c).2 = next_number level c.
Proof. by destruct level, level'. Qed.

(** What goes into a packet: the keys, the frames with their length and
    encodings, the state they were chosen in, the truncated number, and the
    header and payload that are protected. *)
Record packet_parts : Type := mkPacketParts {
  pp_keys : PacketKeys; pp_frames : list Frame; pp_used : Z; pp_chosen : Connection; pp_encoded : list bytes;
  pp_pn : bytes; pp_header : bytes; pp_payload : bytes }.

Definition uses_early (level : EncryptionLevel) (c : Connection) : bool :=
  bool_decide (level = L_ONE_RTT) && bool_decide (ks_send (ps_keys (space_at level c)) = None).

(** The state in which the header is built: the number has been taken. *)
Definition number_taken (level : EncryptionLevel) (c : Connection) : Connection :=
  set_space_at level (set_next_packet_number (next_number level c + 1) (space_at level c)) c.

(** How a packet that [_build_packet] returns was made, step by step. *)
Record made (level : EncryptionLevel) (room : Z) (now : Q) (pad : Z) (ack_only : bool) (c : Connection) (p : bytes)
    (c' : Connection) (b : packet_parts) : Prop := {
  md_keys : sending_keys level c = Some (pp_keys b);
  md_room : HEADER_OVERHEAD + AEAD_TAG_LENGTH < room;
  md_frames : pending_frames level (room - HEADER_OVERHEAD - AEAD_TAG_LENGTH) ack_only c =
                (Ok (pp_frames b, pp_used b), pp_chosen b);
  md_some : pp_frames b ≠ [];
  md_encoded : mapM_result encode (pp_frames b) = Ok (pp_encoded b);
  md_number : next_number level (pp_chosen b) <= MAX_PACKET_NUMBER;
  md_pn : encode_packet_number (next_number level (pp_chosen b)) None = Ok (pp_pn b);
  md_header : header_and_payload level (uses_early level c) pad (next_number level (pp_chosen b)) (pp_pn b)
                (pad_payload MINIMUM_PAYLOAD (concat (pp_encoded b))) (number_taken level (pp_chosen b)) =
                Ok (pp_header b, pp_payload b);
  md_protect : protect (pp_keys b) (pp_header b) (pp_payload b) (next_number level (pp_chosen b)) = Ok p;
  md_state : c' = (modify_recovery (ld_on_packet_sent
      (mkSentPacket level (next_number level (pp_chosen b)) now (existsb is_ack_eliciting (pp_frames b))
         (existsb is_ack_eliciting (pp_frames b)) (len p) (pp_frames b))) (number_taken level (pp_chosen b))).2 }.

Lemma build_packet_inv level room now pad ack_only c p c' :
  build_packet level room now pad ack_only c = (Ok (Some p), c') → ∃ b, made level room now pad ack_only c p c' b.
Proof.
  unfold build_packet. intros (c0 & ? & [= <- <-] & H)%M_bind_ok_inv.
  destruct (if _ && _ then _ else _) as [keys|] eqn:Hk; [|discriminate]. case_test_in H; [discriminate|].
  apply M_bind_ok_inv in H as ([chosen used] & c1 & H1 & H). cbv beta iota in H.
  assert (Hne : chosen ≠ []) by (by destruct chosen). destruct chosen as [|f chosen]; [done|].
  apply M_bind_ok_inv in H as (encoded & ? & [= He <-] & H).
  apply M_bind_ok_inv in H as (? & ? & [= <- <-] & H). case_test_in H; [discriminate|].
  apply M_bind_ok_inv in H as ([] & c2 & [= <-] & H).
  apply M_bind_ok_inv in H as (pn & ? & [= Hpn <-] & H).
  apply M_bind_ok_inv in H as (? & ? & [= <- <-] & H).
  apply M_bind_ok_inv in H as ([header payload] & ? & [= Hh <-] & H). cbv beta iota in H.
  apply M_bind_ok_inv in H as (packet & ? & [= Hp <-] & H).
  apply M_bind_ok_inv in H as ([] & ? & [= <-] & [= <- <-]).
  by exists (mkPacketParts keys (f :: chosen) used c1 encoded pn header payload).
Qed.

Lemma build_packet_number level room now pad ack_only c p c' :
  build_packet level room now pad ack_only c = (Ok (Some p), c') → ∃ n, numbered level c p c' n.
Proof.
  intros (b & Hb)%build_packet_inv. destruct Hb as [Hk _ H1 _ _ _ _ _ Hp ->].
  pose proof (pres_pending_frames level (room - HEADER_OVERHEAD - AEAD_TAG_LENGTH) ack_only c) as A1.
  rewrite H1 in A1. cbn [snd] in A1. apply (next_number_advances level) in A1.
  exists (next_number level (pp_chosen b)), (pp_keys b), (pp_header b), (pp_payload b).
  split_and!; [exact Hk|exact Hp|exact A1|exact (next_number_bump level (pp_chosen b))].
Qed.

(** The close datagram is one packet, of the level chosen for it. *)
Lemma close_loop_number frame now levels c ds c' :
  close_loop frame now levels c = (Ok ds, c') → ds = [] ∨ ∃ d level n, ds = [d] ∧ numbered level c (og_data d) c' n.
Proof.
  intros H. induction levels as [|l levels IH]; cbn [close_loop] in H; [injection H as <- <-; by left|].
  apply M_bind_ok_inv in H as (? & ? & [= <- <-] & H).
  destruct (ks_send (ps_keys (space_at l c))) as [keys|] eqn:Hk; [|by apply IH].
  destruct (ps_discarded _); [by apply IH|].
  apply M_bind_ok_inv in H as (encoded & ? & [= _ <-] & H).
  apply M_bind_ok_inv in H as ([] & c2 & [= <-] & H).
  apply M_bind_ok_inv in H as (pn & ? & [= _ <-] & H).
  apply M_bind_ok_inv in H as ([header payload] & ? & [= _ <-] & H). cbv beta iota in H.
  apply M_bind_ok_inv in H as (packet & ? & [= Hp <-] & H).
  apply M_bind_ok_inv in H as ([] & ? & [= <-] & H).
  apply M_bind_ok_inv in H as ([] & ? & [= <-] & [= <- <-]). right.
  eexists _, l, (next_number l c). split; [done|]. exists keys, header, payload.
  split_and!; [|exact Hp|lia|exact (next_number_bump l c)].
  unfold sending_keys. rewrite Hk. rewrite (bool_decide_false (Some keys = None)) by done. by rewrite andb_false_r.
Qed.

(** *** The packets of a datagram *)

(** A protected packet: its level and number, what was protected with which
    keys, and the bytes that made. *)
Record SealedPacket : Type := mkSealedPacket {
  sl_level : EncryptionLevel; sl_number : Z; sl_keys : PacketKeys; sl_header : bytes; sl_payload : bytes; sl_bytes : bytes }.

(** The packets made on the way from one state to another, one after the
    other: each under a number the space had not passed, which moves the
    space past it. *)
Inductive seals : Connection → list SealedPacket → Connection → Prop :=
| seals_none c c' : advances c c' → seals c [] c'
| seals_packet c c1 p c2 ps c' : advances c c1 → advances c1 c2 →
    sending_keys (sl_level p) c1 = Some (sl_keys p) →
    protect (sl_keys p) (sl_header p) (sl_payload p) (sl_number p) = Ok (sl_bytes p) →
    next_number (sl_level p) c1 <= sl_number p < next_number (sl_level p) c2 →
    seals c2 ps c' → seals c (p :: ps) c'.

Lemma seals_after c c1 ps c' : advances c c1 → seals c1 ps c' → seals c ps c'.
Proof.
  intros H. destruct 1; [apply seals_none; by etransitivity|]. eapply seals_packet; [by etransitivity|eassumption..].
Qed.
Lemma seals_app c ps c1 qs c' : seals c ps c1 → seals c1 qs c' → seals c (ps ++ qs) c'.
Proof. induction 1; intros H'; [by eapply seals_after|]. eapply seals_packet; eauto. Qed.
Lemma seals_then c ps c1 c' : seals c ps c1 → advances c1 c' → seals c ps c'.
Proof. intros H A. rewrite <- (app_nil_r ps). eapply seals_app; [done|by apply seals_none]. Qed.

Lemma numbered_seals level c p c' n : numbered level c p c' n → advances c c' →
  ∃ b, sl_bytes b = p ∧ seals c [b] c'.
Proof.
  intros (keys & header & payload & Hk & Hp & Hn & Hn') A.
  exists (mkSealedPacket level n keys header payload p). split; [done|].
  eapply seals_packet; [reflexivity|exact A|done|done|cbn; lia|by apply seals_none].
Qed.

Lemma levels_loop_seals budget size_limit now ack_only levels : ∀ payload c q c',
  levels_loop budget size_limit now ack_only payload levels c = (Ok q, c') →
  ∃ ps, q = payload ++ concat (sl_bytes <$> ps) ∧ seals c ps c'.
Proof.
  induction levels as [|l levels IH]; intros payload c q c'; cbn [levels_loop].
  { intros [= <- <-]. exists []. split; [by rewrite app_nil_r|by apply seals_none]. }
  intros (? & ? & [= <- <-] & H)%M_bind_ok_inv. case_test_in H; [eauto|]. cbv zeta in H.
  set (pad := if decide (l = L_INITIAL) then _ else _) in H.
  apply M_bind_ok_inv in H as (o & c1 & Eb & H).
  pose proof (pres_build_packet l (size_limit - len payload) now pad ack_only c) as A. rewrite Eb in A. cbn [snd] in A.
  destruct o as [p|].
  2: { destruct (IH _ _ _ _ H) as (ps & -> & Hs). exists ps. split; [done|by eapply seals_after]. }
  destruct (build_packet_number _ _ _ _ _ _ _ _ Eb) as (n & Hn).
  destruct (numbered_seals _ _ _ _ _ Hn A) as (b & Eb' & Hb).
  apply M_bind_ok_inv in H as ([] & c2 & Hd & H).
  assert (A2 : advances c1 c2).
  { pose proof (preserves_when (R:=advances) (cn_is_client c && bool_decide (l = L_HANDSHAKE)) (conn_discard_space L_INITIAL)
      (pres_conn_discard_space L_INITIAL) c1) as A2. by rewrite Hd in A2. }
  case_test_in H.
  - injection H as <- <-. exists [b]. cbn. rewrite app_nil_r, Eb'. split; [done|].
    by eapply seals_then.
  - destruct (IH _ _ _ _ H) as (ps & -> & Hs). exists (b :: ps). cbn. rewrite Eb', <- app_assoc. split; [done|].
    eapply (seals_app _ [b]); [done|]. by eapply seals_after.
Qed.

(** The packets a datagram is made of, at least one. *)
Definition made_of (d : OutgoingDatagram) (ps : list SealedPacket) : Prop :=
  ps ≠ [] ∧ og_data d = concat (sl_bytes <$> ps).

Lemma build_datagram_seals now ack_only c o c' : build_datagram now ack_only c = (Ok o, c') →
  match o with
  | Some d => ∃ ps, made_of d ps ∧ seals c ps c'
  | None => advances c c'
  end.
Proof.
  intros E. pose proof (pres_build_datagram now ack_only c) as A. rewrite E in A. cbn [snd] in A. destruct o as [d|]; [|done].
  unfold build_datagram in E. apply M_bind_ok_inv in E as (? & ? & [= <- <-] & H). cbv zeta in H.
  case_test_in H; [discriminate|]. apply M_bind_ok_inv in H as (q & c1 & Hq & H). case_test_in H; [discriminate|].
  apply M_bind_ok_inv in H as ([] & c2 & [= <-] & H). apply M_bind_ok_inv in H as (c3 & ? & [= <- <-] & H). injection H as <- <-.
  destruct (levels_loop_seals _ _ _ _ _ _ _ _ _ Hq) as (ps & -> & Hs). exists ps. split; [split; [by intros ->|done]|].
  eapply seals_then; [exact Hs|].
  pose proof (len_nonneg (concat (sl_bytes <$> ps))). split; cbn; try done; lia.
Qed.

Lemma send_loop_seals now fuel : ∀ ds c ds' c', send_loop fuel now ds c = (Ok ds', c') →
  ∃ new packets, ds' = ds ++ new ∧ Forall2 made_of new packets ∧ seals c (concat packets) c'.
Proof.
  induction fuel as [|k IH]; intros ds c ds' c'; cbn [send_loop]; [discriminate|].
  intros (b & c1 & E1 & H)%M_bind_ok_inv. apply M_bind_ok_inv in H as (? & ? & [= <- <-] & H). cbv zeta in H.
  pose proof (pres_pacing_blocked now c) as A1. rewrite E1 in A1. cbn [snd] in A1.
  apply M_bind_ok_inv in H as (o & c2 & E2 & H). apply build_datagram_seals in E2. destruct o as [d|].
  - apply M_bind_ok_inv in H as ([] & c3 & [= <-] & H). destruct E2 as (ps & Hd & Hs).
    destruct (IH _ _ _ _ H) as (new & packets & -> & Hnew & Hs'). exists (d :: new), (ps :: packets).
    split; [by rewrite <- app_assoc|]. split; [by constructor|]. cbn. eapply seals_after; [exact A1|].
    eapply seals_app; [exact Hs|]. eapply seals_after; [|exact Hs']. by split.
  - injection H as <- <-. exists [], []. split; [by rewrite app_nil_r|]. split; [constructor|].
    apply seals_none. by etransitivity.
Qed.

Lemma datagrams_to_send_seals fuel now c ds c' : cn_pending c = [] →
  datagrams_to_send fuel now c = (Ok ds, c') →
  ∃ packets, Forall2 made_of ds packets ∧ seals c (concat packets) c'.
Proof.
  intros Hp E. pose proof (pres_datagrams_to_send fuel now c) as A. rewrite E in A. cbn [snd] in A. unfold datagrams_to_send in E.
  apply M_bind_ok_inv in E as (? & ? & [= <- <-] & H).
  destruct (bool_decide _); [injection H as <- <-; exists []; split; [done|by apply seals_none]|].
  destruct (cn_close_frame c) as [f|] eqn:Ef.
  - unfold build_close_datagram in H. apply M_bind_ok_inv in H as (? & ? & [= <- <-] & H). rewrite Ef in H.
    assert (Hd : ds = [] ∨ ∃ d level n, ds = [d] ∧ numbered level c (og_data d) c' n).
    { destruct (cn_close_sent c); [injection H as <- <-; by left|by eapply close_loop_number]. }
    destruct Hd as [->|(d & level & n & -> & Hn)]; [exists []; split; [done|by apply seals_none]|].
    destruct (numbered_seals _ _ _ _ _ Hn A) as (b & Hb & Hs). exists [[b]]. split; [|done].
    constructor; [|constructor]. split; [done|]. cbn. by rewrite app_nil_r.
  - apply M_bind_ok_inv in H as ([] & c1 & E1 & H). pose proof (pres_maybe_update_keys now c) as A1. rewrite E1 in A1. cbn [snd] in A1.
    apply M_bind_ok_inv in H as ([] & c2 & [= <-] & H). apply M_bind_ok_inv in H as (own & c3 & E3 & H).
    apply M_bind_ok_inv in H as (? & ? & [= <- <-] & H). apply M_bind_ok_inv in H as ([] & ? & [= <-] & [= <- <-]).
    assert (A2 : advances c (set_cn_pacing_deadline None c1)) by (etransitivity; [exact A1|by split]).
    pose proof (pres_send_loop fuel now [] (set_cn_pacing_deadline None c1)) as A3. rewrite E3 in A3. cbn [snd] in A3.
    rewrite (av_pending _ _ A3 (av_pending _ _ A2 Hp)).
    destruct (send_loop_seals _ _ _ _ _ _ E3) as (new & packets & -> & Hnew & Hs). exists packets. split; [done|].
    eapply seals_after; [exact A2|]. eapply seals_then; [exact Hs|by split].
Qed.

(** *** What a connection has sent *)

(** [sends c ds c']: a sequence of calls leads from [c] to [c'], and the
    datagrams its calls of [datagrams_to_send] returned are [ds], in order. *)
Inductive sends : Connection → list OutgoingDatagram → Connection → Prop :=
| sends_none c : sends c [] c
| sends_burst c fuel now ds c1 more c' :
    datagrams_to_send fuel now c = (Ok ds, c1) → sends c1 more c' → sends c (ds ++ more) c'
| sends_call c c1 ds c' : api_step c c1 → sends c1 ds c' → sends c ds c'.

Lemma sends_seals c ds c' : sends c ds c' → cn_pending c = [] →
  ∃ packets, Forall2 made_of ds packets ∧ seals c (concat packets) c'.
Proof.
  induction 1 as [c|c fuel now ds c1 more c' E _ IH|c c1 ds c' Hstep _ IH]; intros Hp.
  - exists []. split; [done|]. by apply seals_none.
  - pose proof (pres_datagrams_to_send fuel now c) as A. rewrite E in A. cbn [snd] in A.
    destruct (datagrams_to_send_seals _ _ _ _ _ Hp E) as (ps & H1 & H2). destruct (IH (av_pending _ _ A Hp)) as (qs & H3 & H4).
    exists (ps ++ qs). split; [by apply Forall2_app|]. rewrite concat_app. by eapply seals_app.
  - apply api_step_advances in Hstep. destruct (IH (av_pending _ _ Hstep Hp)) as (ps & H1 & H2).
    exists ps. split; [done|]. by eapply seals_after.
Qed.

(** A packet was protected with the send keys its level had at some moment
    between two states, under a number the space gave out in between. *)
Definition sealed_between (c c' : Connection) (p : SealedPacket) : Prop :=
  protect (sl_keys p) (sl_header p) (sl_payload p) (sl_number p) = Ok (sl_bytes p) ∧
  next_number (sl_level p) c <= sl_number p < next_number (sl_level p) c' ∧
  ∃ c1, advances c c1 ∧ advances c1 c' ∧ sending_keys (sl_level p) c1 = Some (sl_keys p).

Definition numbered_before (p q : SealedPacket) : Prop := sl_level p = sl_level q → sl_number p < sl_number q.

Lemma seals_advances c ps c' : seals c ps c' → advances c c'.
Proof. induction 1 as [|c c1 p c2 ps c' A1 A2 _ _ _ _ IH]; [done|]. by do 2 (etransitivity; [eassumption|]). Qed.

Lemma sealed_between_wider c1 c c' p : advances c1 c → sealed_between c c' p → sealed_between c1 c' p.
Proof.
  intros A (H1 & H2 & c2 & A1 & A2 & Hk). split; [done|]. pose proof (next_number_advances (sl_level p) _ _ A). split; [lia|].
  exists c2. split; [by etransitivity|done].
Qed.

Lemma seals_between c ps c' : seals c ps c' → Forall (sealed_between c c') ps ∧ StronglySorted numbered_before ps.
Proof.
  induction 1 as [|c c1 p c2 ps c' A1 A2 Hk Hp Hn Hs [IH1 IH2]]; [split; constructor|].
  pose proof (seals_advances _ _ _ Hs) as A3. pose proof (next_number_advances (sl_level p) _ _ A1).
  pose proof (next_number_advances (sl_level p) _ _ A3). split; constructor; [|eapply Forall_impl; [exact IH1|]|done|].
  - split; [done|]. split; [lia|]. exists c1. split; [done|]. split; [by etransitivity|done].
  - intros q. apply sealed_between_wider. by etransitivity.
  - eapply Forall_impl; [exact IH1|]. intros q (_ & Hq & _) E. rewrite E in *. lia.
Qed.

Lemma new_connection_pending is_client cc sc config destination host_cid random_cid c :
  new_Connection is_client cc sc config destination host_cid random_cid = Ok c → cn_pending c = [].
Proof.
  unfold new_Connection. cbv zeta. intros ([tls remembered] & _ & H)%result_bind_inv. destruct is_client.
  - match type of H with match install_initial_keys ?d ?x with _ => _ end = _ =>
      pose proof (pres_install_initial_keys d x) as A; destruct (install_initial_keys d x) as [[[]|e] c1]; [|done] end.
    injection H as <-. by apply (av_pending _ _ A).
  - by injection H as <-.
Qed.


(** C23: a connection never takes back what it committed to.  Across any
    sequence of calls, whatever they return or raise, the role, the
    configuration and the connection's own ID stay the same, in every packet
    number space the next packet number and the largest number received do
    not decrease and a retired space stays retired, a validated client
    address stays validated, and the received and sent byte counts of the
    amplification limit do not decrease. *)
Theorem connection_never_regresses c c' (Hrun : rtc api_step c c') :
  cn_is_client c' = cn_is_client c ∧ cn_config c' = cn_config c ∧ cn_host_cid c' = cn_host_cid c ∧
  (∀ level, ps_next_packet_number (space_at level c) <= ps_next_packet_number (space_at level c') ∧
            ps_largest_received (space_at level c) <= ps_largest_received (space_at level c') ∧
            (keys_discarded level c = true → keys_discarded level c' = true)) ∧
  (cn_address_validated c = true → cn_address_validated c' = true) ∧
  cn_bytes_received c <= cn_bytes_received c' ∧ cn_bytes_sent c <= cn_bytes_sent c'.
Proof.
  destruct (api_advances _ _ Hrun) as [H1 H2 H3 H4 H5 H6 Hp _ H7].
  split_and!; try done. intros level. destruct (H7 level) as [A B C]. done.
Qed.

(** ** The receive loop *)

Lemma packets_loop_fuel data now ecn fuel : ∀ fuel' offset c,
  len data - offset <= Z.of_nat fuel → len data - offset <= Z.of_nat fuel' →
  packets_loop fuel data offset now ecn c = packets_loop fuel' data offset now ecn c.
Proof.
  induction fuel as [|k IH]; intros [|k'] offset c H H'; cbn [packets_loop]; case_test; try done; try lia.
  unfold mbind, M_bind. destruct (process_packet _ _ _ c) as [[consumed|e] c1]; [|done].
  case_test; [done|]. apply IH; lia.
Qed.

Lemma packets_loop_raises data now ecn fuel : ∀ offset c,
  len data - offset <= Z.of_nat fuel → (packets_loop fuel data offset now ecn c).1 = Raise OutOfFuel →
  ∃ offset' c', (process_packet (drop (Z.to_nat offset') data) now ecn c').1 = Raise OutOfFuel.
Proof.
  induction fuel as [|k IH]; intros offset c H; cbn [packets_loop]; case_test; try done; try lia.
  unfold mbind, M_bind. destruct (process_packet _ _ _ c) as [[consumed|e] c1] eqn:Hrun.
  - case_test; [done|]. apply IH. lia.
  - cbn. intros [= ->]. exists offset, c. by rewrite Hrun.
Qed.

(** C33: the packets of a datagram are processed to the end.  With the
    datagram's length as fuel the model of the receive loop satisfies the
    loop's own equation at every offset (process the packet there, stop if it
    consumed nothing, otherwise go on behind it), with no trace of the fuel;
    and it raises [OutOfFuel] only if handling one of the packets does. *)
Theorem receive_loop_terminates data now ecn offset c (Ho : 0 <= offset) :
  packets_loop (length data) data offset now ecn c =
    (if offset <? len data then
       consumed ← process_packet (drop (Z.to_nat offset) data) now ecn;
       if consumed <=? 0 then mret tt else packets_loop (length data) data (offset + consumed) now ecn
     else mret tt) c ∧
  ((packets_loop (length data) data offset now ecn c).1 = Raise OutOfFuel →
   ∃ offset' c', (process_packet (drop (Z.to_nat offset') data) now ecn c').1 = Raise OutOfFuel).
Proof.
  split; [|apply packets_loop_raises; unfold len; lia].
  rewrite (packets_loop_fuel data now ecn _ (S (length data))) by (unfold len; lia). cbn [packets_loop].
  case_test; [|done]. unfold mbind, M_bind. destruct (process_packet _ _ _ c) as [[consumed|e] c1]; [|done].
  case_test; [done|]. done.
Qed.

(** ** Silence after termination *)

(** A connection that is draining or terminated sends nothing and hears
    nothing, and a closing connection sends its CONNECTION_CLOSE once.  In
    the first two states [datagrams_to_send] returns no datagram and
    [datagram_received] returns normally, and neither changes the connection
    at all; once the close has been sent, [datagrams_to_send] returns no
    datagram for as long as the connection holds its close frame, and changes
    nothing. *)
Theorem closed_is_silent c fuel now data source ecn :
  (cn_state c = DRAINING ∨ cn_state c = TERMINATED →
   datagrams_to_send fuel now c = (Ok [], c) ∧ datagram_received data now source ecn c = (Ok tt, c)) ∧
  (cn_close_frame c ≠ None → cn_close_sent c = true → datagrams_to_send fuel now c = (Ok [], c)).
Proof.
  split.
  - intros Hs. unfold datagrams_to_send, datagram_received, receive_datagram, catch, mbind, M_bind, get.
    rewrite !bool_decide_true by tauto. done.
  - intros Hf Hc. unfold datagrams_to_send, build_close_datagram, mbind, M_bind, get.
    case_bool_decide; [done|]. destruct (cn_close_frame c) as [f|] eqn:E; [|done]. cbn. by rewrite E, Hc.
Qed.

(** ** Anti-amplification *)

(** Building packets moves neither byte count, nor what waits in [_pending]. *)
Definition same_counts (c c' : Connection) : Prop :=
  cn_bytes_sent c' = cn_bytes_sent c ∧ cn_bytes_received c' = cn_bytes_received c ∧ cn_pending c' = cn_pending c.

#[local] Instance same_counts_preorder : PreOrder same_counts.
Proof. split; [done|]. intros a b c (? & ? & ?) (? & ? & ?). split_and!; congruence. Qed.

Lemma same_modify f : (∀ c, same_counts c (f c)) → preserves same_counts (modify f).
Proof. apply preserves_modify. Qed.
Lemma same_modify_space level f : preserves same_counts (modify_space level f).
Proof. by apply preserves_modify. Qed.
Lemma same_in_crypto {A} level (m : M CryptoState A) : preserves same_counts (in_crypto level m).
Proof. intros c. unfold in_crypto, zoom. by destruct (m _). Qed.
Lemma same_in_streams {A} (m : M StreamManager A) : preserves same_counts (in_streams m).
Proof. intros c. unfold in_streams. destruct (cn_streams c); [|done]. by destruct (m _). Qed.
Hint Resolve same_modify_space same_in_crypto same_in_streams : advance.
Hint Extern 5 (same_counts _ _) => by split_and! : advance.

Lemma same_discard level : preserves same_counts (conn_discard_space level).
Proof. unfold conn_discard_space. preserve. Qed.
Lemma same_streams_loop room ids : ∀ used chosen, preserves same_counts (streams_loop room used chosen ids).
Proof. induction ids as [|i ids IH]; intros; cbn [streams_loop]; preserve. Qed.
Hint Resolve same_discard same_streams_loop : advance.
Lemma same_pending_frames l r a : preserves same_counts (pending_frames l r a).
Proof. unfold pending_frames, choose_ack, application_frames. preserve. Qed.
Hint Resolve same_pending_frames : advance.
Lemma same_build_packet l r now p a : preserves same_counts (build_packet l r now p a).
Proof. unfold build_packet. preserve. Qed.
Hint Resolve same_build_packet : advance.
Lemma same_levels_loop b sz now a levels : ∀ p, preserves same_counts (levels_loop b sz now a p levels).
Proof. induction levels as [|l levels IH]; intros; cbn [levels_loop]; preserve. Qed.

(** How the anti-amplification limit is enforced.  A server that has not
    validated its client's address builds a datagram only while what it has
    sent is below three times what it has received, and counts exactly the
    bytes of that datagram; at or past the limit it builds nothing and
    changes nothing.  The size of the last datagram is not limited by what is
    left of the budget, so the bound this gives is the limit plus one
    datagram. *)
Theorem amplification_guard c now ack_only (Hs : cn_is_client c = false) (Hv : cn_address_validated c = false) :
  match build_datagram now ack_only c with
  | (Ok (Some d), c') =>
      cn_bytes_sent c < AMPLIFICATION_FACTOR * cn_bytes_received c ∧
      cn_bytes_sent c' = cn_bytes_sent c + len (og_data d) ∧ cn_bytes_received c' = cn_bytes_received c
  | (_, c') => cn_bytes_sent c' = cn_bytes_sent c ∧
      (AMPLIFICATION_FACTOR * cn_bytes_received c <= cn_bytes_sent c → c' = c)
  end.
Proof.
  unfold build_datagram. erewrite M_bind_ok by done.
  assert (Hb : send_budget ack_only c <= AMPLIFICATION_FACTOR * cn_bytes_received c - cn_bytes_sent c).
  { unfold send_budget. rewrite Hs, Hv. cbn [negb andb]. apply Z.le_min_r. }
  case_test; [done|].
  pose proof (same_levels_loop (send_budget ack_only c) (cf_max_datagram_size (cn_config c)) now ack_only all_levels [] c) as (S1 & S2 & _).
  unfold mbind, M_bind. destruct (levels_loop _ _ _ _ _ _ c) as [[payload|e] c1]; cbn in S1, S2.
  2: { split; [done|lia]. }
  case_test; cbn; [split; [done|lia]|]. split; [lia|]. split; lia.
Qed.
End proofs.

(** ** Runs *)

(** The limit of three times the received bytes is exceeded.  A client
    with this code sends its first datagrams; a server with this code receives
    them and, its client's address not validated, answers with a handshake
    flight of four kilobytes.  What it sends at once, before hearing from the
    client again, is more than three times what it received. *)
Theorem amplification_limit_exceeded :
  match c ← start_client 4000; s ← start_server 4000; '(c, s) ← send_flight 0 c s; send_all (1 # 10) s with
  | Ok (answer, s) =>
      cn_address_validated s = false ∧ cn_bytes_received s = 1200 ∧ sum_by len answer = 4652 ∧
      AMPLIFICATION_FACTOR * cn_bytes_received s < sum_by len answer
  | Raise _ => False
  end.
Proof. vm_compute. done. Qed.

(** The parts work together.  Run from two fresh connections, the code
    completes the handshake on both sides: both are connected, both have
    reported completion and confirmation once, and both have retired their
    Initial and Handshake keys.  A request the client then writes on the first
    stream it opens arrives at the server as one event with the same bytes
    and the end of the stream. *)
Theorem handshake_and_request :
  match '(c, s) ← handshake 100; x ← client_sends (i ← open_stream; send_stream_data i (ascii_bytes "GET /") true)
                                       (6 # 10) c s; Ok (c, s, x.2) with
  | Ok (c, s, s') =>
      cn_state c = CONNECTED ∧ cn_state s = CONNECTED ∧
      cn_events c = [HandshakeCompleted "hq-interop"; HandshakeConfirmed "hq-interop"] ∧
      cn_events s = cn_events c ∧
      map (λ l, (keys_discarded l c, keys_discarded l s)) all_levels = [(true, true); (true, true); (false, false)] ∧
      cn_events s' = cn_events s ++ [StreamDataReceived 0 (ascii_bytes "GET /") true]
  | Raise _ => False
  end.
Proof. vm_compute. done. Qed.

(** An exception escapes [datagram_received].  After a completed
    handshake, a peer's MAX_STREAM_DATA frame for a stream that was never
    opened raises [KeyError] out of the server's [datagram_received], which is
    documented to turn every such error into a CONNECTION_CLOSE. *)
Theorem unknown_stream_credit_escapes :
  ('(c, s) ← handshake 100; client_sends (queue_control (FMaxStreamData 400 1)) (6 # 10) c s) = Raise KeyError.
Proof. vm_compute. reflexivity. Qed.

(** [close] brings a terminated connection back.  A connection that has
    timed out is in its final state; a later [close] puts it in the closing
    state with a close frame to send, after which [datagrams_to_send] no
    longer treats it as terminated. *)
Theorem close_revives_terminated `{Primitives} `{Tls} c code reason frame_type (Hs : cn_state c = TERMINATED) :
  let c' := (close code reason frame_type c).2 in
  cn_state c' = CLOSING ∧ cn_close_frame c' = Some (mkConnectionClose code (ascii_bytes reason) frame_type).
Proof. unfold close, mbind, M_bind, get. rewrite bool_decide_false by (rewrite Hs; intros [?|?]; done). done. Qed.

(** ** Witnesses *)

(** A connection with nothing to send, of either role. *)
Definition blank (client : bool) (state : ConnectionState) : Connection :=
  mkConnection client toy_config state None "" [] [] [] None
    true [] true [] [] None None toy_parameters None None None (mkPnSpaces new_PnSpace new_PnSpace new_PnSpace)
    (new_LossDetection (new_NewReno 1200) client 0) None [] [] [] (mkProbes 0 0 0) false 0 None None None false 0 0
    client None None true [].

(** A client right after [connect], which has an Initial to send; and again
    once its probe timeout has expired. *)
Definition sample_client : Connection :=
  match start_client 0 with Ok c => c | Raise _ => blank true HANDSHAKING end.
Lemma start_client_run filler c : start_client filler = Ok c → ∃ c0,
  new_Connection true (Some filler) None toy_config None (replicate 8 xc1) (replicate 8 xd1) = Ok c0 ∧
  rtc api_step c0 c.
Proof.
  unfold start_client. intros (c0 & Hnew & H)%result_bind_inv. exists c0. split; [done|].
  apply rtc_once. pose proof (api_connect c0 0) as Hs.
  destruct (connect 0 c0) as [[[]|e] c1]; [|done]. injection H as <-. exact Hs.
Qed.

Lemma sample_client_started : start_client 0 = Ok sample_client.
Proof.
  assert (Hok : is_ok (start_client 0) = true) by (vm_compute; reflexivity).
  unfold sample_client. destruct (start_client 0) as [c|e]; [reflexivity|discriminate].
Qed.

(** Whether a packet is built, as a boolean to evaluate. *)
Definition builds (level : EncryptionLevel) (now : Q) (c : Connection) : bool :=
  match build_packet level 1200 now 1200 false c with (Ok (Some _), _) => true | _ => false end.

Lemma built level now c :
  builds level now c = true → ∃ p c', build_packet level 1200 now 1200 false c = (Ok (Some p), c').
Proof. unfold builds. destruct (build_packet _ _ _ _ _ _) as [[[p|]|] c']; try discriminate. eauto. Qed.

(** It sends its first flight, and two probes in one burst when nothing comes
    back. *)
Definition burst (now : Q) (c : Connection) : list OutgoingDatagram :=
  match (datagrams_to_send 100 now c).1 with Ok ds => ds | Raise _ => [] end.
Definition after_burst (now : Q) (c : Connection) : Connection := (datagrams_to_send 100 now c).2.
Definition with_probes : Connection := (handle_timer 10 (after_burst 1 sample_client)).2.

Lemma burst_run now c : is_ok (datagrams_to_send 100 now c).1 = true →
  datagrams_to_send 100 now c = (Ok (burst now c), after_burst now c).
Proof. unfold burst, after_burst. destruct (datagrams_to_send 100 now c) as [[ds|e] c']; [reflexivity|discriminate]. Qed.

Lemma api_sends c c1 ds c' : rtc api_step c c1 → sends c1 ds c' → sends c ds c'.
Proof. induction 1; [done|]. intros H'. eapply sends_call; eauto. Qed.


Lemma connection_never_regresses_witness :
  keys_discarded L_INITIAL (set_space_at L_INITIAL (discard new_PnSpace) (blank true CONNECTED)) = true ∧
  keys_discarded L_INITIAL
    (handle_timer 1 (set_space_at L_INITIAL (discard new_PnSpace) (blank true CONNECTED))).2 = true.
Proof.
  destruct (connection_never_regresses (set_space_at L_INITIAL (discard new_PnSpace) (blank true CONNECTED))
    (handle_timer 1 (set_space_at L_INITIAL (discard new_PnSpace) (blank true CONNECTED))).2
    (rtc_once _ _ (api_handle_timer _ 1))) as (_ & _ & _ & H & _).
  split; [reflexivity|]. apply (H L_INITIAL). reflexivity.
Defined.

Lemma receive_loop_terminates_witness :
  packets_loop 2 [x00; x00] 0 1 0 (blank true CONNECTED) = (Ok tt, blank true CONNECTED).
Proof.
  rewrite (proj1 (receive_loop_terminates [x00; x00] 1 0 0 (blank true CONNECTED) ltac:(lia))).
  vm_compute. reflexivity.
Defined.

Lemma closed_is_silent_witness :
  datagrams_to_send 5 1 (blank true DRAINING) = (Ok [], blank true DRAINING) ∧
  datagram_received [x01] 1 None 0 (blank true DRAINING) = (Ok tt, blank true DRAINING).
Proof. exact (proj1 (closed_is_silent (blank true DRAINING) 5 1 [x01] None 0) (or_introl eq_refl)). Defined.

Lemma build_datagram_blocked c now ack_only :
  send_budget ack_only c = 0 → build_datagram now ack_only c = (Ok None, c).
Proof. intros E. unfold build_datagram. erewrite M_bind_ok by done. by rewrite E. Qed.

Lemma amplification_guard_witness :
  cn_bytes_sent (build_datagram 1 false (blank false HANDSHAKING)).2 = 0.
Proof.
  pose proof (amplification_guard (blank false HANDSHAKING) 1 false eq_refl eq_refl) as H.
  rewrite (build_datagram_blocked (blank false HANDSHAKING)) in * by reflexivity. exact (proj1 H).
Defined.

Lemma close_revives_terminated_witness :
  cn_state (close 7 "bye" None (blank true TERMINATED)).2 = CLOSING.
Proof. exact (proj1 (close_revives_terminated (blank true TERMINATED) 7 "bye" None eq_refl)). Defined.
