(* ===== verification/SendLoop.v ===== *)
(** * The send loop comes to an end

    [datagrams_to_send] builds datagrams until there is nothing left to send
    (connection.py).  [work] measures what a connection has queued: bytes,
    lost frames, control frames, acknowledgements owed, probes owed.  Every
    frame chosen for a packet uses some of it up and nothing on the send path
    adds to it, so the loop ends, after at most [work] datagrams. *)

From stdpp Require Import relations.
From S2P Require Import Prelude Buffer Frames Packet TransportParameters RangeSet Streams StreamManager.
From S2P Require Import Congestion NewReno Recovery Crypto Protection Retry TlsInterface Spaces ConnState ConnRecv.
From S2P Require Import FramesProofs CryptoStream ConnSend ConnMonotone ConnRuns ConnProofs.

(** ** The measure *)

Definition flag (b : bool) : Z := if b then 1 else 0.

Definition work_crypto (c : CryptoState) : Z :=
  len (cs_pending c) + sum_by (λ f, len (cr_data f) + 1) (cs_retransmit c).
Definition work_space (s : PnSpace) : Z := flag (ps_ack_eliciting_pending s) + work_crypto (ps_crypto s).
Definition work_send (s : SendStream) : Z :=
  len (ss_pending s) + len (ss_retransmit s) + flag (ss_fin_queued s && negb (ss_fin_sent s)).
Definition work_half (kv : Z * Half) : Z := from_option work_send 0 (h_send kv.2).
Definition work_streams (m : StreamManager) : Z := sum_by work_half (sm_streams m).

Lemma flag_nonneg b : 0 <= flag b.
Proof. by destruct b. Qed.
Lemma work_crypto_nonneg c : 0 <= work_crypto c.
Proof.
  unfold work_crypto. pose proof (len_nonneg (cs_pending c)).
  pose proof (sum_by_nonneg (λ f, len (cr_data f) + 1) (cs_retransmit c)) as H'.
  enough (0 <= sum_by (λ f, len (cr_data f) + 1) (cs_retransmit c)) by lia. apply H'. intros f _.
  pose proof (len_nonneg (cr_data f)). lia.
Qed.
Lemma work_space_nonneg s : 0 <= work_space s.
Proof. unfold work_space. pose proof (flag_nonneg (ps_ack_eliciting_pending s)). pose proof (work_crypto_nonneg (ps_crypto s)). lia. Qed.
Lemma work_send_nonneg s : 0 <= work_send s.
Proof.
  unfold work_send. pose proof (len_nonneg (ss_pending s)). pose proof (len_nonneg (ss_retransmit s)).
  pose proof (flag_nonneg (ss_fin_queued s && negb (ss_fin_sent s))). lia.
Qed.
Lemma work_streams_nonneg m : 0 <= work_streams m.
Proof. apply sum_by_nonneg. intros [k [[s|] r]] _; [apply work_send_nonneg|done]. Qed.

Lemma discard_work s : work_space (discard s) <= work_space s.
Proof.
  unfold work_space. cbn [ps_ack_eliciting_pending ps_crypto discard]. pose proof (work_crypto_nonneg (ps_crypto s)).
  enough (work_crypto (ps_crypto (discard s)) = 0) by (cbn [ps_crypto discard] in *; lia). done.
Qed.

(** Taking CRYPTO data uses some up, or takes nothing. *)
Lemma take_crypto_work available c o c' : 0 <= available →
  take_crypto available c = (o, c') → work_crypto c' + flag (bool_decide (is_Some o)) <= work_crypto c.
Proof.
  intros Ha. unfold take_crypto, work_crypto. destruct (cs_retransmit c) as [|lost rest] eqn:Er.
  - pose proof (len_slice_prefix available (cs_pending c) Ha) as Hl. case_test; intros [= <- <-]; cbn; rewrite ?Er; cbn; [lia|].
    unfold len in *. rewrite length_drop. lia.
  - case_test; intros [= <- <-]; rewrite ?Er; cbn -[Z.add sum_by]; [lia|].
    pose proof (len_slice_prefix available (cr_data lost) Ha) as Hl. pose proof (len_nonneg (cr_data lost)).
    case_test; rewrite ?sum_by_cons; cbn; [|lia]. unfold len in *. rewrite length_drop. lia.
Qed.

(** So does taking a stream's next frame. *)
Lemma next_frame_work max_bytes credit s o s' :
  next_frame max_bytes credit s = (o, s') → work_send s' + flag (bool_decide (is_Some o)) <= work_send s.
Proof.
  assert (Hnew : next_new_frame max_bytes credit s = (o, s') → work_send s' + flag (bool_decide (is_Some o)) <= work_send s).
  { unfold next_new_frame, work_send. cbn zeta. set (b := Z.max _ 0).
    assert (Hb : 0 <= b <= len (ss_pending s)) by (pose proof (len_nonneg (ss_pending s)); lia).
    assert (Hc : len (take (Z.to_nat b) (ss_pending s)) = b) by (unfold len in *; rewrite length_take; lia).
    assert (Hd : len (drop (Z.to_nat b) (ss_pending s)) = len (ss_pending s) - b) by (unfold len in *; rewrite length_drop; lia).
    rewrite Hc. destruct (ss_fin_queued s) eqn:Eq, (ss_fin_sent s) eqn:Es; cbn [andb negb];
      case_test; intros [= <- <-]; cbn -[Z.add]; rewrite ?Hd, ?Eq, ?Es; cbn -[Z.add]; try lia.
    destruct (b =? len (ss_pending s)) eqn:Eb; cbn -[Z.add]; lia. }
  unfold next_frame. destruct (ss_retransmit s) as [|lost rest] eqn:Er; [done|]. case_test; [|done].
  intros [= <- <-]. unfold work_send. cbn -[Z.add]. rewrite Er, len_cons. lia.
Qed.

Lemma sm_next_frame_work k max_bytes m o m' :
  sm_next_frame k max_bytes m = (Ok o, m') → work_streams m' + flag (bool_decide (is_Some o)) <= work_streams m.
Proof.
  unfold sm_next_frame. destruct (send_stream_cases m k) as [(h & s & Ek & Es & E)|[e E]].
  2: { by erewrite M_bind_raise by exact E. }
  erewrite M_bind_ok by exact E. erewrite M_bind_ok by done. cbn zeta.
  destruct (next_frame max_bytes _ s) as [o' s'] eqn:En. apply next_frame_work in En.
  erewrite M_bind_ok by done. unfold store_send. rewrite Ek.
  assert (Hw : work_streams (set_streams (d_set k (mkHalf (Some s') (h_recv h)) (sm_streams m)) m) =
               work_streams m - work_send s + work_send s').
  { unfold work_streams. cbn [sm_streams set_streams]. rewrite (sum_by_d_set _ _ h) by done.
    unfold work_half. cbn. by rewrite Es. }
  destruct o' as [f|]; (erewrite M_bind_ok by done); intros [= <- <-]; cbn -[Z.add work_streams] in *;
    [change (work_streams (set_counters ?a ?b ?x)) with (work_streams x)|]; lia.
Qed.

(** ** Where the fuel marker cannot come from

    [OutOfFuel] marks a loop of the model that ran out of fuel; no Python
    code raises it.  The library the source calls does not either. *)

Definition clean {A} (r : result A) : Prop := r ≠ Raise OutOfFuel.
Definition cleanly {S A} (m : M S A) : Prop := ∀ s, clean (m s).1.

Class PythonPrimitives `{Primitives} : Prop := {
  py_hkdf_expand i n s : clean (hkdf_expand i n s);
  py_aesgcm_encrypt k n d a : clean (aesgcm_encrypt k n d a);
  py_chacha_encrypt k n d a : clean (chacha_encrypt k n d a);
  py_aes_ecb k d : clean (aes_ecb k d);
  py_chacha20_stream k n d : clean (chacha20_stream k n d) }.

Create HintDb clean.

Lemma clean_ok {A} (a : A) : clean (Ok a).
Proof. done. Qed.
Lemma clean_raise {A} e : e ≠ OutOfFuel → clean (@Raise A e).
Proof. by intros H [= ->]. Qed.
Lemma clean_bind {A B} (m : result A) (k : A → result B) : clean m → (∀ a, clean (k a)) → clean (m ≫= k).
Proof. intros Hm Hk. destruct m; [apply Hk|]. intros [= ->]. by apply Hm. Qed.
Lemma clean_mapM {A B} (f : A → result B) l : (∀ x, clean (f x)) → clean (mapM_result f l).
Proof.
  intros Hf. induction l as [|x l IH]; cbn [mapM_result]; [done|].
  apply clean_bind; [done|]. intros ?. by apply clean_bind.
Qed.
Lemma cleanly_ret {S A} (a : A) : cleanly (mret a : M S A).
Proof. done. Qed.
Lemma cleanly_raise {S A} e : e ≠ OutOfFuel → cleanly (raise e : M S A).
Proof. by intros H s [= ->]. Qed.
Lemma cleanly_bind {S A B} (m : M S A) (k : A → M S B) : cleanly m → (∀ a, cleanly (k a)) → cleanly (m ≫= k).
Proof.
  intros Hm Hk s. unfold mbind, M_bind. specialize (Hm s). destruct (m s) as [[a|e] s']; [apply Hk|].
  intros [= ->]. by apply Hm.
Qed.
Lemma cleanly_zoom {S T A} (view : S → T) set (m : M T A) : cleanly m → cleanly (zoom view set m).
Proof. intros Hm s. unfold zoom. specialize (Hm (view s)). by destruct (m _). Qed.
Lemma cleanly_total {S A} (f : S → A * S) : cleanly (total f).
Proof. intros s. unfold total. by destruct (f s). Qed.
Lemma cleanly_when {S} b (m : M S unit) : cleanly m → cleanly (when b m).
Proof. by destruct b. Qed.

(** One step into a computation of either monad. *)
Ltac clean_step :=
  match goal with
  | |- clean (match ?x with _ => _ end) => destruct x
  | |- cleanly (match ?x with _ => _ end) => destruct x
  | |- clean (mbind _ _) => apply clean_bind
  | |- cleanly (mbind _ _) => apply cleanly_bind
  | |- clean (mapM_result _ _) => apply clean_mapM
  | |- cleanly (zoom _ _ _) => apply cleanly_zoom
  | |- cleanly (when _ _) => apply cleanly_when
  | |- clean (Raise _) => apply clean_raise
  | |- cleanly (raise _) => apply cleanly_raise
  | |- cleanly (lift ?r) => let H := fresh in assert (H : clean r); [|intros ?; exact H]
  | |- ∀ _, _ => intros ?
  | |- _ ≠ OutOfFuel => discriminate
  | _ => progress cbv zeta
  end.
Ltac cleans := repeat (solve [eauto 2 with clean nocore] || (by intros ?) || clean_step).
#[export] Hint Resolve clean_ok cleanly_ret cleanly_total : clean.

Section clean.
Context `{HP : Primitives} `{HT : Tls} `{HPy : !PythonPrimitives}.

Lemma clean_to_bytes n v : clean (to_bytes n v).
Proof. unfold to_bytes. cleans. Qed.
Lemma clean_byte_literal v : clean (byte_literal v).
Proof. unfold byte_literal. cleans. Qed.
Hint Resolve clean_to_bytes clean_byte_literal : clean.
Lemma clean_encode_varint v : clean (encode_varint v).
Proof. unfold encode_varint. cleans. Qed.
Hint Resolve clean_encode_varint : clean.
Lemma clean_encode_varints l : clean (encode_varints l).
Proof. induction l; cbn [encode_varints]; cleans. Qed.
Lemma clean_encode_ack_ranges l : ∀ low, clean (encode_ack_ranges low l).
Proof. induction l as [|[] l IH]; intros; cbn [encode_ack_ranges]; cleans. Qed.
Lemma clean_with_length d : clean (with_length d).
Proof. unfold with_length. cleans. Qed.
Hint Resolve clean_encode_varints clean_with_length clean_encode_ack_ranges : clean.
Lemma clean_encode f : clean (encode f).
Proof.
  destruct f; cbn [encode]; unfold_encode;
    unfold Ack_encode, Crypto_encode, Stream_encode, NewConnectionId_encode, ConnectionClose_encode; cleans.
Qed.
Hint Resolve clean_encode : clean.

Lemma clean_probe_filler room l : clean (probe_filler room l).
Proof. induction l as [|f l IH]; cbn [probe_filler]; cleans. Qed.
Lemma clean_encode_packet_number n o : clean (encode_packet_number n o).
Proof. unfold encode_packet_number. cleans. Qed.
Lemma clean_build_long_header t n pn l : clean (build_long_header t n pn l).
Proof. unfold build_long_header. cleans. Qed.
Lemma clean_py_get {A} i (l : list A) : clean (py_get i l).
Proof. unfold py_get. cleans. Qed.
Hint Resolve clean_probe_filler clean_encode_packet_number clean_build_long_header clean_py_get : clean.
Hint Resolve py_hkdf_expand py_aesgcm_encrypt py_chacha_encrypt py_aes_ecb py_chacha20_stream : clean.
Lemma clean_xor_at i m l : clean (xor_at i m l).
Proof. unfold xor_at. cleans. Qed.
Hint Resolve clean_xor_at : clean.
Lemma clean_xor_packet_number n offset mask : ∀ i l, clean (xor_packet_number n offset i mask l).
Proof. induction n as [|n IH]; intros; cbn [xor_packet_number]; cleans. Qed.
Hint Resolve clean_xor_packet_number : clean.
Lemma clean_protect k h p n : clean (protect k h p n).
Proof. unfold protect, nonce, aead_encrypt, header_protection_mask. cleans. Qed.
Lemma clean_expand_label s l c n : clean (hkdf_expand_label s l c n).
Proof. unfold hkdf_expand_label, hkdf_label. cleans. Qed.
Hint Resolve clean_protect clean_expand_label : clean.
Lemma clean_next_generation s k : clean (next_generation s k).
Proof. unfold next_generation, derive_packet_keys. cleans. Qed.
Lemma clean_header_and_payload l z pad pn b p c : clean (header_and_payload l z pad pn b p c).
Proof. unfold header_and_payload. cleans. Qed.
Hint Resolve clean_next_generation clean_header_and_payload : clean.

(** ** The send path's own computations *)

Lemma cleanly_sm_next_frame k n : cleanly (sm_next_frame k n).
Proof. unfold sm_next_frame, send_stream, get_half. cleans. Qed.
Lemma cleanly_in_streams {A} (m : M StreamManager A) : cleanly m → cleanly (in_streams m).
Proof. intros Hm c. unfold in_streams. destruct (cn_streams c) as [s|]; [|done]. specialize (Hm s). by destruct (m s). Qed.
Hint Resolve cleanly_sm_next_frame cleanly_in_streams : clean.
Lemma cleanly_streams_loop room ids : ∀ used chosen, cleanly (streams_loop room used chosen ids).
Proof. induction ids as [|i ids IH]; intros; cbn [streams_loop]; cleans. Qed.
Lemma cleanly_control_loop room queue : ∀ used chosen, cleanly (control_loop room used chosen queue).
Proof. induction queue as [|f queue IH]; intros; cbn [control_loop]; cleans. Qed.
Hint Resolve cleanly_streams_loop cleanly_control_loop : clean.
Lemma cleanly_pending_frames level room ack_only : cleanly (pending_frames level room ack_only).
Proof. unfold pending_frames, choose_ack, application_frames, in_crypto. cleans. Qed.
Hint Resolve cleanly_pending_frames : clean.
Lemma cleanly_build_packet level room now pad ack_only : cleanly (build_packet level room now pad ack_only).
Proof. unfold build_packet. cleans. Qed.
Hint Resolve cleanly_build_packet : clean.
Lemma cleanly_levels_loop b sz now ack_only levels : ∀ p, cleanly (levels_loop b sz now ack_only p levels).
Proof. induction levels as [|l levels IH]; intros; cbn [levels_loop]; unfold conn_discard_space; cleans. Qed.
Hint Resolve cleanly_levels_loop : clean.
Lemma cleanly_build_datagram now ack_only : cleanly (build_datagram now ack_only).
Proof. unfold build_datagram. cleans. Qed.
Lemma cleanly_pacing_blocked now : cleanly (pacing_blocked now).
Proof. unfold pacing_blocked, pacing_allowance. cleans. Qed.
Lemma cleanly_close_loop f now levels : cleanly (close_loop f now levels).
Proof. induction levels as [|l levels IH]; cbn [close_loop]; cleans. Qed.
Lemma cleanly_maybe_update_keys now : cleanly (maybe_update_keys now).
Proof. unfold maybe_update_keys, conn_initiate_key_update, in_keys, initiate_key_update, rotate_keys. cleans. Qed.
End clean.

Section send_loop.
Context `{HP : Primitives} `{HT : Tls} `{HPy : !PythonPrimitives}.

(** What a connection has to send: per space the acknowledgement owed and the
    CRYPTO data, the streams, the control queue, HANDSHAKE_DONE, the probes. *)
Definition work (c : Connection) : Z :=
  sum_by (λ level, work_space (space_at level c)) all_levels +
  from_option work_streams 0 (cn_streams c) + len (cn_control_frames c) +
  flag (cn_handshake_done_pending c) + total_probes (cn_probes_pending c).

Definition probes_ok (c : Connection) : Prop := ∀ level, 0 <= get_probes level (cn_probes_pending c).

Lemma total_probes_nonneg c : probes_ok c → 0 <= total_probes (cn_probes_pending c).
Proof. intros H. pose proof (H L_INITIAL). pose proof (H L_HANDSHAKE). pose proof (H L_ONE_RTT). unfold total_probes. cbn in *. lia. Qed.

Lemma work_nonneg c : probes_ok c → 0 <= work c.
Proof.
  intros Hp. unfold work. pose proof (total_probes_nonneg c Hp). pose proof (len_nonneg (cn_control_frames c)).
  pose proof (flag_nonneg (cn_handshake_done_pending c)).
  assert (0 <= from_option work_streams 0 (cn_streams c)) by (destruct (cn_streams c); [apply work_streams_nonneg|done]).
  pose proof (sum_by_nonneg (λ level, work_space (space_at level c)) all_levels (λ l _, work_space_nonneg _)). lia.
Qed.

(** ** Paying for frames

    [pays m n]: whenever [m] returns [a], the work left is less than what
    there was by [n a] at least. *)
Definition pays {A} (m : M Connection A) (n : A → Z) : Prop :=
  ∀ c a c', m c = (Ok a, c') → work c' + n a <= work c.

Lemma pays_bind {A B} (m : M Connection A) (k : A → M Connection B) n1 n2 :
  pays m n1 → (∀ a, pays (k a) (λ b, n2 b - n1 a)) → pays (m ≫= k) n2.
Proof.
  intros Hm Hk c b c' (a & s & E & H)%M_bind_ok_inv. apply Hm in E. apply (Hk a) in H. lia.
Qed.
Lemma pays_ret {A} (a : A) n : n a <= 0 → pays (mret a) n.
Proof. intros H c ? ? [= <- <-]. lia. Qed.
Lemma pays_raise {A} e (n : A → Z) : pays (raise e) n.
Proof. by intros c ? ?. Qed.
Lemma pays_lift {A} (r : result A) n : (∀ a, r = Ok a → n a <= 0) → pays (lift r) n.
Proof. intros H c ? ? [= -> <-]. specialize (H _ eq_refl). lia. Qed.
Lemma pays_get n : (∀ c, n c <= 0) → pays get n.
Proof. intros H c ? ? [= <- <-]. specialize (H c). lia. Qed.
Lemma pays_modify f (n : unit → Z) : (∀ c, work (f c) + n tt <= work c) → pays (modify f) n.
Proof. intros H c [] ? [= <-]. apply H. Qed.
Lemma pays_weaken {A} (m : M Connection A) n1 n2 : pays m n1 → (∀ a, n2 a <= n1 a) → pays m n2.
Proof. intros H Hn c a c' E. specialize (H _ _ _ E). specialize (Hn a). lia. Qed.

(** Work after a change of one space. *)
Lemma work_set_space level s c :
  work (set_space_at level s c) = work c - work_space (space_at level c) + work_space s.
Proof. unfold work, space_at, set_space_at. destruct level; cbn -[Z.add total_probes]; lia. Qed.

Lemma work_modify_space level f c : (work_space (f (space_at level c)) <= work_space (space_at level c)) →
  work (modify_space level f c).2 <= work c.
Proof. intros H. cbn. rewrite work_set_space. lia. Qed.

Ltac pay := cbn -[work Z.add len]; unfold len in *; rewrite ?length_app; cbn [length]; lia.

(** ** Choosing frames *)

Lemma pays_choose_ack level room : pays (choose_ack level room) (λ r, len r.1).
Proof.
  unfold choose_ack. intros c r c' (? & ? & [= <- <-] & H)%M_bind_ok_inv.
  destruct (build_ack _) as [ack|] eqn:Ea; [|injection H as <- <-; pay].
  apply M_bind_ok_inv in H as (enc & ? & [= _ <-] & H). case_test_in H; [|injection H as <- <-; pay].
  apply M_bind_ok_inv in H as ([] & c1 & [= <-] & H). injection H as <- <-. cbn -[work]. rewrite work_set_space.
  unfold build_ack in Ea. case_test_in Ea; [discriminate|]. bool_cases.
  unfold work_space. cbn. destruct (ps_ack_eliciting_pending _); [pay|discriminate].
Qed.

Lemma pays_take_crypto level available : 0 <= available →
  pays (in_crypto level (total (take_crypto available))) (λ o, flag (bool_decide (is_Some o))).
Proof.
  intros Ha c o c'. unfold in_crypto, zoom, total.
  destruct (take_crypto available (ps_crypto (space_at level c))) as [o' k] eqn:E. intros [= <- <-].
  rewrite work_set_space. unfold work_space. cbn -[Z.add]. apply take_crypto_work in E; [|done]. lia.
Qed.

Lemma pays_in_streams k n : pays (in_streams (sm_next_frame k n)) (λ o, flag (bool_decide (is_Some o))).
Proof.
  intros c o c'. unfold in_streams. destruct (cn_streams c) as [m|] eqn:Em; [|done].
  destruct (sm_next_frame k n m) as [r m'] eqn:E. intros [= -> <-]. apply sm_next_frame_work in E.
  unfold work. rewrite Em. cbn -[Z.add total_probes work_streams] in *. lia.
Qed.

Lemma pays_streams_loop room ids : ∀ used chosen,
  pays (streams_loop room used chosen ids) (λ r, len r.1 - len chosen).
Proof.
  induction ids as [|i ids IH]; intros used chosen; cbn [streams_loop]; [apply pays_ret; pay|].
  cbn zeta. case_test; [apply pays_ret; pay|]. eapply pays_bind; [apply pays_in_streams|]. intros [f|]; cbn.
  - eapply pays_bind; [apply (pays_lift _ (λ _, 0)); done|]. intros enc. eapply pays_weaken; [apply IH|].
    intros r. pay.
  - eapply pays_weaken; [apply IH|]. intros r. pay.
Qed.

Lemma work_take_control queue c :
  work (set_cn_control_frames queue (set_cn_handshake_done_pending false c)) =
  work c - flag (cn_handshake_done_pending c) - len (cn_control_frames c) + len queue.
Proof. unfold work, space_at. cbn -[sum_by Z.add total_probes]. lia. Qed.

Lemma pays_application_frames room : pays (application_frames room) (λ r, len r.1).
Proof.
  unfold application_frames. intros c r c' (? & ? & [= <- <-] & H)%M_bind_ok_inv.
  destruct (if cn_handshake_done_pending c then _ else _) as [chosen used] eqn:Ed.
  assert (Hd : len chosen = flag (cn_handshake_done_pending c)) by (by destruct (cn_handshake_done_pending c); injection Ed as <- <-).
  apply M_bind_ok_inv in H as ([] & c1 & [= <-] & H).
  apply M_bind_ok_inv in H as ([chosen' used'] & ? & Ec & H). cbn [fst].
  apply control_loop_inv in Ec as (taken & queue & Eq & -> & ->); [|done]. apply (f_equal len) in Eq. rewrite len_app in Eq.
  pose proof (work_take_control queue c) as Hw. pose proof (len_app chosen taken). destruct (cn_streams c) as [streams|].
  - apply pays_streams_loop in H. lia.
  - injection H as <- <-. rewrite Hw. pay.
Qed.
Lemma pays_answer_probe level chosen used (filler : Connection → result Frame) :
  pays (c ← get;
    if get_probes level (cn_probes_pending c) =? 0 then mret (chosen, used)
    else
      '(chosen, used) ←
        (if existsb is_ack_eliciting chosen then mret (chosen, used)
         else
           f ← lift (filler c);
           encoded ← lift (encode f);
           mret (chosen ++ [f], used + len encoded));
      _ ← modify (set_cn_probes_pending (add_probes level (-1) (cn_probes_pending c)));
      mret (chosen, used)) (λ r, len r.1 - len chosen).
Proof.
  intros c r c' (? & ? & [= <- <-] & H)%M_bind_ok_inv. case_test_in H; [injection H as <- <-; pay|].
  apply M_bind_ok_inv in H as ([chosen' used'] & c1 & Hf & H). apply M_bind_ok_inv in H as ([] & c2 & [= <-] & H).
  injection H as <- <-. assert (c1 = c ∧ len chosen' <= len chosen + 1) as [-> Hl].
  { case_test_in Hf; [injection Hf as <- _ <-; split; [done|lia]|].
    apply M_bind_ok_inv in Hf as (f & ? & [= _ <-] & Hf). apply M_bind_ok_inv in Hf as (e & ? & [= _ <-] & Hf).
    injection Hf as <- _ <-. split; [done|]. pay. }
  unfold work, space_at, total_probes. destruct level; cbn -[sum_by Z.add] in *; lia.
Qed.

Lemma pays_pending_frames level room ack_only : pays (pending_frames level room ack_only) (λ r, len r.1).
Proof.
  unfold pending_frames. eapply pays_bind; [apply pays_choose_ack|]. intros [chosen used].
  destruct ack_only; [apply pays_ret; pay|]. cbv zeta. eapply pays_bind; [apply pays_take_crypto; lia|].
  intros o. apply pays_bind with (n1 := λ r, len r.1 - len chosen - flag (bool_decide (is_Some o))).
  { destruct o as [f|]; [|apply pays_ret; pay]. eapply pays_bind; [apply (pays_lift _ (λ _, 0)); done|].
    intros e. apply pays_ret. pay. }
  intros [chosen1 used1]. apply pays_bind with (n1 := λ r, len r.1 - len chosen1).
  { case_decide; [|apply pays_ret; pay]. eapply pays_bind; [apply pays_application_frames|].
    intros [application au]. apply pays_ret. pay. }
  intros [chosen2 used2]. eapply pays_weaken; [apply pays_answer_probe|]. intros r. pay.
Qed.

(** ** Packets and datagrams *)

Definition emitted {A} (o : option A) : Z := flag (bool_decide (is_Some o)).

Lemma pays_build_packet level room now pad ack_only :
  pays (build_packet level room now pad ack_only) emitted.
Proof.
  unfold build_packet. eapply pays_bind; [apply (pays_get (λ _, 0)); done|]. intros c.
  destruct (if _ && _ then _ else _) as [keys|]; [|apply pays_raise]. case_test; [apply pays_ret; pay|].
  eapply pays_bind; [apply pays_pending_frames|]. intros [[|f chosen] used]; [apply pays_ret; pay|].
  eapply pays_bind; [apply (pays_lift _ (λ _, 0)); done|]. intros encoded. cbv zeta.
  eapply pays_bind; [apply (pays_get (λ _, 0)); done|]. intros c1. case_test; [apply pays_raise|].
  eapply pays_bind. { apply (pays_modify _ (λ _, 0)). intros c2. rewrite work_set_space. unfold work_space. cbn -[Z.add]. lia. }
  intros []. eapply pays_bind; [apply (pays_lift _ (λ _, 0)); done|]. intros pn_bytes.
  eapply pays_bind; [apply (pays_get (λ _, 0)); done|]. intros c2.
  eapply pays_bind; [apply (pays_lift _ (λ _, 0)); done|]. intros [header payload].
  eapply pays_bind; [apply (pays_lift _ (λ _, 0)); done|]. intros packet.
  eapply pays_bind. { apply (pays_modify _ (λ _, 0)). intros c3. unfold work, space_at. cbn -[sum_by Z.add total_probes]. lia. }
  intros []. apply pays_ret. pay.
Qed.

Lemma pays_discard level : pays (conn_discard_space level) (λ _, 0).
Proof.
  intros c [] c' (? & ? & [= <- <-] & H)%M_bind_ok_inv. case_test_in H; [injection H as <-; lia|].
  apply M_bind_ok_inv in H as ([] & c1 & [= <-] & [= <-]).
  match goal with |- work (set_cn_recovery ?r ?c1) + 0 <= _ => change (work (set_cn_recovery r c1)) with (work c1) end.
  rewrite work_set_space. pose proof (discard_work (space_at level c)). lia.
Qed.

Lemma pays_levels_loop budget size_limit now ack_only levels : ∀ payload,
  pays (levels_loop budget size_limit now ack_only payload levels) (λ p, flag (negb (len p =? len payload))).
Proof.
  assert (Hsame : ∀ p : bytes, flag (negb (len p =? len p)) = 0) by (intros; by rewrite Z.eqb_refl).
  induction levels as [|level levels IH]; intros payload; cbn [levels_loop]; [apply pays_ret; rewrite Hsame; lia|].
  eapply pays_bind; [apply (pays_get (λ _, 0)); done|]. intros c.
  case_test; [eapply pays_weaken; [apply IH|]; intros; cbv beta; lia|]. cbv zeta.
  eapply pays_bind; [apply pays_build_packet|]. intros [p|].
  2: { eapply pays_weaken; [apply IH|]; intros; cbv beta; change (emitted None) with 0; lia. }
  apply pays_bind with (n1 := λ _, 0).
  { unfold when. case_match; [apply pays_discard|]. apply pays_ret. lia. }
  intros []. assert (Hflag : ∀ b, flag b <= 1) by (by intros []).
  case_test; [apply pays_ret|eapply pays_weaken; [apply IH|intros q]].
  - specialize (Hflag (negb (len (payload ++ p) =? len payload))). cbv beta. change (emitted (Some p)) with 1. lia.
  - specialize (Hflag (negb (len q =? len payload))). pose proof (flag_nonneg (negb (len q =? len (payload ++ p)))).
    cbv beta. change (emitted (Some p)) with 1. lia.
Qed.

Lemma pays_build_datagram now ack_only : pays (build_datagram now ack_only) emitted.
Proof.
  unfold build_datagram. eapply pays_bind; [apply (pays_get (λ _, 0)); done|]. intros c. cbv zeta.
  case_test; [apply pays_ret; pay|]. eapply pays_bind; [apply pays_levels_loop|]. intros payload.
  case_test; [apply pays_ret; pose proof (flag_nonneg (negb (len payload =? len (@nil byte)))); cbv beta; change (emitted None) with 0; lia|].
  eapply pays_bind; [apply (pays_modify _ (λ _, 0)); intros c1; unfold work, space_at; cbn -[sum_by Z.add total_probes]; lia|].
  intros []. eapply pays_bind; [apply (pays_get (λ _, 0)); done|]. intros c1. apply pays_ret.
  cbv beta. change (len (@nil byte)) with 0. destruct (Z.eqb_spec (len payload) 0); [done|]. cbn. lia.
Qed.

Lemma pays_pacing_blocked now : pays (pacing_blocked now) (λ _, 0).
Proof.
  assert (Hw : ∀ (c : Connection) f, work (f c) = work c → work (f c) + 0 <= work c) by (intros; lia).
  unfold pacing_blocked, pacing_allowance.
  repeat first [progress cbv zeta | case_match | apply pays_ret; lia
    | apply (pays_modify _ (λ _, 0)); intros ?; apply Hw; reflexivity
    | apply (pays_get (λ _, 0)); done
    | eapply pays_bind with (n1 := λ _, 0); [|intros ?; eapply pays_weaken with (n1 := λ _, 0); [|intros; lia]]].
Qed.

(** ** The loop *)

Lemma advances_probes_ok c c' : advances c c' → probes_ok c → probes_ok c'.
Proof. intros H Hp level. apply (av_probes _ _ H), Hp. Qed.

(** One round that built a datagram leaves less work. *)
Lemma round_work now c b c1 d c2 :
  pacing_blocked now c = (Ok b, c1) → build_datagram now b c1 = (Ok (Some d), c2) → probes_ok c →
  ∀ q, probes_ok (set_cn_pacing_credit q c2) ∧ work (set_cn_pacing_credit q c2) + 1 <= work c.
Proof.
  intros H1 H2 Hp q. pose proof (pays_pacing_blocked now _ _ _ H1) as W1.
  pose proof (pays_build_datagram now b _ _ _ H2) as W2. change (emitted (Some d)) with 1 in W2.
  pose proof (pres_pacing_blocked now c) as A1. rewrite H1 in A1.
  pose proof (pres_build_datagram now b c1) as A2. rewrite H2 in A2. cbn [snd] in *.
  split; [|change (work (set_cn_pacing_credit q c2)) with (work c2); lia].
  change (probes_ok c2). eauto using advances_probes_ok.
Qed.

Lemma send_loop_spec now fuel : ∀ ds c, work c < Z.of_nat fuel → probes_ok c →
  clean (send_loop fuel now ds c).1 ∧
  (∀ fuel', work c < Z.of_nat fuel' → send_loop fuel' now ds c = send_loop fuel now ds c) ∧
  ∀ ds' c', send_loop fuel now ds c = (Ok ds', c') → work c' + len ds' <= work c + len ds.
Proof.
  induction fuel as [|k IH]; intros ds c Hf Hp; [pose proof (work_nonneg c Hp); lia|].
  destruct (pacing_blocked now c) as [[b|e] c1] eqn:E1.
  2: { pose proof (cleanly_pacing_blocked now c) as N. rewrite E1 in N. cbn [send_loop]. unfold mbind, M_bind. rewrite E1.
       split; [intros [= ->]; by apply N|]. split; [|done]. intros [|k'] ?; [pose proof (work_nonneg c Hp); lia|].
       cbn [send_loop]. unfold mbind, M_bind. by rewrite E1. }
  destruct (build_datagram now b c1) as [[[d|]|e] c2] eqn:E2.
  - set (c3 := set_cn_pacing_credit (cn_pacing_credit c2 - inject_Z (bytes_in_flight (ld_controller (cn_recovery c2)) -
                 bytes_in_flight (ld_controller (cn_recovery c1))))%Q c2).
    destruct (round_work now c b c1 d c2 E1 E2 Hp (cn_pacing_credit c2 - inject_Z (bytes_in_flight (ld_controller (cn_recovery c2)) -
                 bytes_in_flight (ld_controller (cn_recovery c1))))%Q) as [Hp3 Hw3].
    assert (Hstep : ∀ n, send_loop (S n) now ds c = send_loop n now (ds ++ [d]) c3).
    { intros n. cbn [send_loop]. unfold mbind, M_bind. rewrite E1. cbn [get]. rewrite E2. done. }
    destruct (IH (ds ++ [d]) c3) as (I1 & I2 & I3); [unfold c3; lia|done|].
    rewrite Hstep. split; [done|]. split.
    + intros [|k'] ?; [pose proof (work_nonneg c Hp); lia|]. rewrite Hstep. apply I2. unfold c3. lia.
    + intros ds' c' H. apply I3 in H. unfold c3 in H. rewrite len_app in H. change (len [d]) with 1 in H. lia.
  - assert (Hstep : ∀ n, send_loop (S n) now ds c = (Ok ds, c2)).
    { intros n. cbn [send_loop]. unfold mbind, M_bind. rewrite E1. cbn [get]. by rewrite E2. }
    rewrite Hstep. split; [done|]. split.
    + intros [|k'] ?; [pose proof (work_nonneg c Hp); lia|]. by rewrite Hstep.
    + intros ds' c' [= <- <-]. pose proof (pays_pacing_blocked now _ _ _ E1). pose proof (pays_build_datagram now b _ _ _ E2) as W.
      change (emitted None) with 0 in W. cbv beta in *. lia.
  - pose proof (cleanly_build_datagram now b c1) as N. rewrite E2 in N.
    assert (Hstep : ∀ n, send_loop (S n) now ds c = (Raise e, c2)).
    { intros n. cbn [send_loop]. unfold mbind, M_bind. rewrite E1. cbn [get]. by rewrite E2. }
    rewrite Hstep. split; [intros [= ->]; by apply N|]. split; [|done].
    intros [|k'] ?; [pose proof (work_nonneg c Hp); lia|]. by rewrite Hstep.
Qed.

Definition same_work (c c' : Connection) : Prop := work c' = work c.
#[local] Instance same_work_preorder : PreOrder same_work.
Proof. split; [done|]. unfold same_work. intros a b c -> ->. done. Qed.

Lemma same_work_update_keys now : preserves same_work (maybe_update_keys now).
Proof.
  assert (Hk : ∀ A (m : M KeyState A), preserves same_work (in_keys L_ONE_RTT m)).
  { intros A m c. unfold in_keys, zoom, same_work. destruct (m _) as [r k]. cbn [snd]. rewrite work_set_space.
    unfold work_space. cbn [ps_ack_eliciting_pending ps_crypto set_keys]. lia. }
  unfold maybe_update_keys, conn_initiate_key_update.
  repeat (apply preserves_get || apply preserves_ret || apply Hk || preserve_step).
Qed.

Lemma close_loop_short f now levels : ∀ c ds c', close_loop f now levels c = (Ok ds, c') → len ds <= 1.
Proof.
  induction levels as [|l levels IH]; intros c ds c'; cbn [close_loop]; [by intros [= <- _]|].
  intros (? & ? & [= <- <-] & H)%M_bind_ok_inv. destruct (ks_send _); [|by eapply IH].
  destruct (ps_discarded _); [by eapply IH|].
  repeat (apply M_bind_ok_inv in H as (? & ? & _ & H); try case_match). injection H as <- _. done.
Qed.

(** The loop leaves the datagrams waiting in [_pending] alone. *)
Definition same_pending (c c' : Connection) : Prop := cn_pending c' = cn_pending c.
#[local] Instance same_pending_preorder : PreOrder same_pending.
Proof. split; [done|]. unfold same_pending. intros a b c -> ->. done. Qed.
Hint Extern 5 (same_pending _ _) => reflexivity : advance.
Lemma same_pending_in_keys {A} level (m : M KeyState A) : preserves same_pending (in_keys level m).
Proof. intros c. unfold in_keys, zoom. by destruct (m _). Qed.
Lemma same_pending_levels_loop b sz now a levels p : preserves same_pending (levels_loop b sz now a p levels).
Proof. intros c. apply same_levels_loop. Qed.
Hint Resolve same_pending_in_keys same_pending_levels_loop : advance.
Lemma same_pending_update_keys now : preserves same_pending (maybe_update_keys now).
Proof. unfold maybe_update_keys, conn_initiate_key_update. preserve. Qed.
Lemma same_pending_send_loop now fuel : ∀ ds, preserves same_pending (send_loop fuel now ds).
Proof.
  induction fuel as [|k IH]; intros ds; cbn [send_loop];
    unfold pacing_blocked, pacing_allowance, build_datagram; preserve.
Qed.

Lemma new_connection_probes is_client cc sc config destination host_cid random_cid c :
  new_Connection is_client cc sc config destination host_cid random_cid = Ok c → probes_ok c.
Proof.
  unfold new_Connection. cbv zeta. intros ([tls remembered] & _ & H)%result_bind_inv.
  assert (Hp : ∀ c0 : Connection, cn_probes_pending c0 = mkProbes 0 0 0 → probes_ok c0) by (intros c0 E []; rewrite E; done).
  destruct is_client.
  - match type of H with match install_initial_keys ?d ?x with _ => _ end = _ =>
      pose proof (pres_install_initial_keys d x) as A; destruct (install_initial_keys d x) as [[[]|e] c1]; [|done] end.
    injection H as <-. apply (advances_probes_ok _ _ A). by apply Hp.
  - injection H as <-. by apply Hp.
Qed.

(** C24: [datagrams_to_send] always comes to an end.  Whatever calls led from a
    new connection to [c], fuel above [work c], a count of the bytes, frames,
    acknowledgements and probes queued, is enough: the loop does not run out
    of it, more fuel gives the same result in the same state, and a
    connection that is not closing sends no more datagrams than it had work
    (besides those that were waiting in [_pending]), each one leaving less
    to do; a closing one sends at most one. *)
Theorem sending_terminates is_client cc sc config destination host_cid random_cid c0 c fuel now
    (Hnew : new_Connection is_client cc sc config destination host_cid random_cid = Ok c0)
    (Hrun : rtc api_step c0 c) (Hf : work c < Z.of_nat fuel) :
  (datagrams_to_send fuel now c).1 ≠ Raise OutOfFuel ∧
  (∀ fuel', work c < Z.of_nat fuel' → datagrams_to_send fuel' now c = datagrams_to_send fuel now c) ∧
  ∀ ds c', datagrams_to_send fuel now c = (Ok ds, c') →
    if cn_close_frame c is Some _ then len ds <= 1 else len ds + work c' <= len (cn_pending c) + work c.
Proof.
  assert (Hp : probes_ok c) by eauto using advances_probes_ok, api_advances, new_connection_probes.
  pose proof (work_nonneg c Hp). unfold datagrams_to_send.
  setoid_rewrite (M_bind_ok get _ _ _ _ eq_refl). destruct (bool_decide (_ ∨ _)).
  { split; [done|]. split; [done|]. intros ds c' [= <- <-]. pose proof (len_nonneg (cn_pending c)).
    case_match; [done|]. change (len (@nil OutgoingDatagram)) with 0. lia. }
  destruct (cn_close_frame c) as [f|] eqn:Ef.
  { unfold build_close_datagram. rewrite !(M_bind_ok get _ _ _ _ eq_refl), Ef. split; [|split; [done|]].
    - destruct (cn_close_sent c); [done|]. apply cleanly_close_loop.
    - intros ds c' H'. destruct (cn_close_sent c); [by injection H' as <- _|]. by apply close_loop_short in H'. }
  pose proof (same_work_update_keys now c) as Hw. pose proof (pres_maybe_update_keys now c) as A.
  pose proof (cleanly_maybe_update_keys now c) as N. destruct (maybe_update_keys now c) as [[[]|e] c1] eqn:E1; cbn [fst snd] in *.
  2: { setoid_rewrite (M_bind_raise _ _ _ _ _ E1). split; [intros [= ->]; by apply N|done]. }
  set (c2 := set_cn_pacing_deadline None c1).
  assert (Hrest : ∀ n, (_ ← maybe_update_keys now; _ ← modify (set_cn_pacing_deadline None);
      datagrams ← send_loop n now []; c ← get; _ ← modify (set_cn_pending []); mret (cn_pending c ++ datagrams)) c =
    (datagrams ← send_loop n now []; c ← get; _ ← modify (set_cn_pending []); mret (cn_pending c ++ datagrams)) c2).
  { intros n. unfold mbind, M_bind. rewrite E1. done. }
  setoid_rewrite Hrest. clear Hrest. unfold same_work in Hw. change (work c1) with (work c2) in Hw.
  assert (Hp2 : probes_ok c2) by (apply (advances_probes_ok _ _ A Hp)).
  destruct (send_loop_spec now fuel [] c2 ltac:(lia) Hp2) as (S1 & S2 & S3). split; [|split].
  - destruct (send_loop fuel now [] c2) as [[ds|e] c3] eqn:E; unfold mbind, M_bind; rewrite E; [done|].
    intros [= ->]. by apply S1.
  - intros fuel' Hf'. unfold mbind, M_bind. rewrite S2 by lia. done.
  - intros ds c' (l & c3 & E & H')%M_bind_ok_inv. injection H' as <- <-. specialize (S3 _ _ E).
    pose proof (same_pending_send_loop now fuel [] c2) as Hq. rewrite E in Hq. cbn [snd] in Hq.
    pose proof (same_pending_update_keys now c) as Hq1. rewrite E1 in Hq1. cbn [snd] in Hq1.
    rewrite len_app. change (work (set_cn_pending [] c3)) with (work c3). change (len (@nil OutgoingDatagram)) with 0 in S3.
    unfold same_pending in *. rewrite Hq. change (cn_pending c2) with (cn_pending c1). rewrite Hq1. lia.
Qed.
End send_loop.

(** ** A client's first flight *)

#[export] Instance toy_python_primitives : PythonPrimitives.
Proof.
  assert (H : ∀ sizes k n p a, clean (toy_encrypt sizes k n p a)) by (intros; unfold toy_encrypt; cleans).
  split; intros; cbn; [done|apply H|apply H|cleans|done].
Qed.

Lemma sending_terminates_witness :
  work sample_client = 62 ∧ (datagrams_to_send 63 1 sample_client).1 ≠ Raise OutOfFuel ∧
  datagrams_to_send 1000 1 sample_client = datagrams_to_send 63 1 sample_client.
Proof.
  assert (Hw : work sample_client = 62) by (vm_compute; reflexivity). split; [exact Hw|].
  destruct (start_client_run 0 sample_client sample_client_started) as (c0 & Hnew & Hrun).
  assert (Hf : work sample_client < Z.of_nat 63) by (rewrite Hw; reflexivity).
  destruct (sending_terminates _ _ _ _ _ _ _ c0 sample_client 63 1 Hnew Hrun Hf) as (H1 & H2 & _).
  split; [exact H1|]. apply H2. rewrite Hw. reflexivity.
Defined.
