(* ===== verification/SendSize.v ===== *)
(** * How large a datagram can get

    [_build_packet] leaves [header_overhead] = 64 bytes and the AEAD tag free
    in the room it is given (connection.py).  That covers the header of every
    packet except the token of an Initial: the datagrams a connection builds
    are at most [max_datagram_size] long, plus the length of that token. *)

From S2P Require Import Prelude Buffer Frames FramesProofs Packet TransportParameters RangeSet Streams StreamManager.
From S2P Require Import Congestion NewReno Recovery Crypto Protection Retry TlsInterface Spaces ConnState ConnRecv.
From S2P Require Import CryptoStream ConnSend ConnMonotone ConnRuns ConnProofs.

(** ** Lengths of what is encoded *)

Lemma varint_len v bs : encode_varint v = Ok bs → len bs = varint_size v ∧ 0 <= v.
Proof. intros [Hv ->]%encode_varint_inv. split; [by apply len_varint_bytes|lia]. Qed.

Lemma varint_size_le4 v : v < 2 ^ 30 → varint_size v <= 4.
Proof. unfold varint_size, MAX_IN_4_BYTES. intros. repeat case_test; lia. Qed.

Lemma varint_size_mono v w : v <= w → varint_size v <= varint_size w.
Proof. unfold varint_size, MAX_IN_1_BYTE, MAX_IN_2_BYTES, MAX_IN_4_BYTES. intros. repeat case_test; lia. Qed.

Lemma with_length_len d bs : with_length d = Ok bs → len bs = varint_size (len d) + len d.
Proof. unfold with_length. intros (n & Hn & [= <-])%result_bind_inv. apply varint_len in Hn. rewrite len_app. lia. Qed.

Lemma varints_len vs : ∀ bs, encode_varints vs = Ok bs → len bs = sum_by varint_size vs.
Proof.
  induction vs as [|v vs IH]; intros bs; cbn [encode_varints]; [by intros [= <-]|].
  intros (a & Ha & (b & Hb & [= <-])%result_bind_inv)%result_bind_inv.
  apply varint_len in Ha as [Ha _]. apply IH in Hb. rewrite len_app, sum_by_cons. lia.
Qed.

Lemma crypto_len c bs : encode (FCrypto c) = Ok bs → len (cr_data c) < 2 ^ 30 → len bs <= 13 + len (cr_data c).
Proof.
  cbn [encode]. unfold Crypto_encode. intros (h & Hh & (b & Hb & [= <-])%result_bind_inv)%result_bind_inv Hd.
  apply varints_len in Hh. apply with_length_len in Hb. rewrite !sum_by_cons in Hh. change (sum_by varint_size []) with 0 in Hh.
  change (varint_size CRYPTO_TYPE) with 1 in Hh. pose proof (varint_size_pos (cr_offset c)).
  pose proof (varint_size_le4 _ Hd). rewrite len_app. lia.
Qed.

Lemma stream_len s bs : encode (FStream s) = Ok bs → len (st_data s) < 2 ^ 30 → len bs <= 21 + len (st_data s).
Proof.
  cbn [encode]. unfold Stream_encode. cbv zeta. set (ty := if st_fin s then _ else _).
  assert (Hty : varint_size ty = 1) by (unfold ty; by destruct (st_fin s), (negb (st_offset s =? 0))).
  intros (h & Hh & (o & Ho & (b & Hb & [= <-])%result_bind_inv)%result_bind_inv)%result_bind_inv Hd.
  apply varints_len in Hh. apply with_length_len in Hb. rewrite !sum_by_cons, Hty in Hh.
  change (sum_by varint_size []) with 0 in Hh. pose proof (varint_size_pos (st_id s)). pose proof (varint_size_le4 _ Hd).
  assert (len o <= 8).
  { case_test_in Ho; [|by injection Ho as <-]. apply varint_len in Ho as [-> _]. apply varint_size_pos. }
  rewrite !len_app. lia.
Qed.

Lemma len_last_bytes n l : 0 < n <= len l → len (last_bytes n l) = n.
Proof. intros H. unfold last_bytes. case_test; [|lia]. unfold len in *. rewrite length_drop. lia. Qed.

Lemma packet_number_len n o bs : encode_packet_number n o = Ok bs → 1 <= len bs <= 4.
Proof.
  unfold encode_packet_number. intros (l & [_ ->]%to_bytes_inv & [= <-])%result_bind_inv.
  assert (1 <= packet_number_bytes n o <= 4) by (unfold packet_number_bytes; lia).
  rewrite len_last_bytes; [done|]. match goal with |- context [len ?l] => change (len l) with 8 end. lia.
Qed.

(** The token and its length, in an Initial. *)
Definition token_size (t : LongHeaderTemplate) : Z :=
  if decide (lt_packet_type t = INITIAL) then varint_size (len (lt_token t)) + len (lt_token t) else 0.

Lemma long_header_len t n pn k bs : build_long_header t n pn k = Ok bs → 1 <= k <= 4 →
  len bs = 7 + len (lt_destination_cid t) + len (lt_source_cid t) + token_size t + varint_size (k + n) + k.
Proof.
  unfold build_long_header, token_size. cbv zeta.
  intros (h & [_ ->]%byte_literal_inv & (v & [_ ->]%to_bytes_inv & (dl & [_ ->]%byte_literal_inv & (sl & [_ ->]%byte_literal_inv &
    (tok & Ht & (l & [Hl _]%varint_len & (p & [_ ->]%to_bytes_inv & [= <-])%result_bind_inv)%result_bind_inv)%result_bind_inv)
    %result_bind_inv)%result_bind_inv)%result_bind_inv)%result_bind_inv Hk.
  assert (len tok = if decide (lt_packet_type t = INITIAL) then varint_size (len (lt_token t)) + len (lt_token t) else 0).
  { case_decide; [by apply with_length_len|by injection Ht as <-]. }
  repeat rewrite ?len_cons, ?len_app. rewrite len_last_bytes; [lia|].
  match goal with |- context [len ?l] => change (len l) with 8 end. lia.
Qed.

(** ** Protection adds the tag *)

Lemma len_xor_at i v l bs : xor_at i v l = Ok bs → len bs = len l.
Proof. unfold xor_at. destruct (py_index i l); [|done]. intros [= <-]. unfold len. by rewrite length_alter. Qed.

Lemma len_xor_packet_number n offset mask : ∀ i l bs, xor_packet_number n offset i mask l = Ok bs → len bs = len l.
Proof.
  induction n as [|n IH]; intros i l bs; cbn [xor_packet_number]; [by intros [= <-]|].
  intros (m & _ & (l' & Hl & H)%result_bind_inv)%result_bind_inv. apply len_xor_at in Hl. apply IH in H. lia.
Qed.

Section size.
Context `{HP : Primitives} `{HT : Tls} `{HL : !PrimitiveLaws HP}.

Lemma protect_len keys header payload n bs : keys_ok keys → len payload <= AEAD_LIMIT → len header <= AEAD_LIMIT →
  protect keys header payload n = Ok bs → len bs = len header + len payload + AEAD_TAG_LENGTH.
Proof.
  intros Hk Hp Hh. unfold protect. cbv zeta.
  intros (x & _ & (no & Hn & (ct & Hc & (mask & _ & (m0 & _ & (pr & Hx & H)%result_bind_inv)%result_bind_inv)%result_bind_inv)
    %result_bind_inv)%result_bind_inv)%result_bind_inv.
  apply nonce_inv in Hn; [|apply Hk]. apply len_xor_packet_number in H. apply len_xor_at in Hx.
  destruct (seal_open _ _ _ (aead_ok keys Hk) [] no payload header I Hn Hp Hh) as (c & Hc' & Hl & _).
  rewrite Hc in Hc'. injection Hc' as <-. rewrite len_app in Hx. unfold AEAD_TAG_LENGTH. lia.
Qed.

(** ** Results

    [yields m P]: whatever [m] returns satisfies [P]. *)
Definition yields {S A} (m : M S A) (P : A → Prop) : Prop := ∀ s a s', m s = (Ok a, s') → P a.

Lemma yields_bind {S A B} (m : M S A) (k : A → M S B) P Q :
  yields m P → (∀ a, P a → yields (k a) Q) → yields (m ≫= k) Q.
Proof. intros Hm Hk s b s' (a & s1 & E & H)%M_bind_ok_inv. eapply Hk; eauto. Qed.
Lemma yields_ret {S A} (a : A) P : P a → yields (mret a : M S A) P.
Proof. by intros H s b s' [= <- <-]. Qed.
Lemma yields_lift {S A} (r : result A) : yields (lift r : M S A) (λ a, r = Ok a).
Proof. by intros s b s' [= -> <-]. Qed.
Lemma yields_any {S A} (m : M S A) : yields m (λ _, True).
Proof. done. Qed.
Lemma yields_weaken {S A} (m : M S A) (P Q : A → Prop) : yields m P → (∀ a, P a → Q a) → yields m Q.
Proof. intros H HQ s a s' E. eauto. Qed.

(** [used] is the encoded length of the frames [chosen]. *)
Definition measured (chosen : list Frame) (used : Z) : Prop :=
  ∃ encoded, mapM_result encode chosen = Ok encoded ∧ len (concat encoded) = used.

Lemma measured_nil : measured [] 0.
Proof. by exists []. Qed.
Lemma measured_app a b u v : measured a u → measured b v → measured (a ++ b) (u + v).
Proof.
  intros (ea & Ha & <-) (eb & Hb & <-). exists (ea ++ eb).
  split; [by rewrite mapM_result_app, Ha, Hb|]. by rewrite concat_app, len_app.
Qed.
Lemma measured_one f bs : encode f = Ok bs → measured [f] (len bs).
Proof. intros H. exists [bs]. cbn. rewrite H. split; [done|]. cbn. by rewrite app_nil_r. Qed.

(** ** What a packet's frames amount to *)

Lemma choose_ack_size level room : 0 <= room → yields (choose_ack level room) (λ r, measured r.1 r.2 ∧ 0 <= r.2 <= room).
Proof.
  intros Hr. unfold choose_ack. eapply yields_bind; [apply yields_any|]. intros c _.
  destruct (build_ack _) as [ack|]; [|by apply yields_ret; split; [apply measured_nil|cbn; lia]].
  eapply yields_bind; [apply yields_lift|]. intros e He. case_test.
  - eapply yields_bind; [apply yields_any|]. intros _ _. apply yields_ret. cbn. pose proof (len_nonneg e).
    split; [by apply measured_one|lia].
  - apply yields_ret. split; [apply measured_nil|cbn; lia].
Qed.

Lemma take_crypto_size level available : 0 <= available →
  yields (in_crypto level (total (take_crypto available))) (λ o, ∀ f, o = Some f → 0 < available ∧ len (cr_data f) <= available).
Proof.
  intros Ha c o c'. unfold in_crypto, zoom, total. destruct (take_crypto available _) as [o' k] eqn:E. intros [= <- _].
  unfold take_crypto in E. intros f ->. destruct (cs_retransmit _) as [|lost rest].
  - pose proof (len_slice_prefix available (cs_pending (ps_crypto (space_at level c))) Ha) as Hl.
    pose proof (len_nonneg (cs_pending (ps_crypto (space_at level c)))).
    case_test_in E; [discriminate|]. injection E as <- _. cbn. lia.
  - pose proof (len_slice_prefix available (cr_data lost) Ha) as Hl.
    case_test_in E; [discriminate|]. injection E as <- _. cbn. lia.
Qed.

Lemma next_frame_size max_bytes credit s f s' : 0 < max_bytes →
  next_frame max_bytes credit s = (Some f, s') → len (st_data f) <= max_bytes.
Proof.
  intros Hm. assert (Hnew : next_new_frame max_bytes credit s = (Some f, s') → len (st_data f) <= max_bytes).
  { unfold next_new_frame. cbv zeta. set (b := Z.max _ 0). case_test; [discriminate|]. intros [= <- _]. cbn.
    unfold len at 1. rewrite length_take. unfold b, len. lia. }
  unfold next_frame. destruct (ss_retransmit s); [done|]. case_test; [|done]. by intros [= <- _].
Qed.

Lemma sm_next_frame_size k n : 0 < n → yields (in_streams (sm_next_frame k n)) (λ o, ∀ f, o = Some f → len (st_data f) <= n).
Proof.
  intros Hn c o c'. unfold in_streams. destruct (cn_streams c) as [m|]; [|done].
  destruct (sm_next_frame k n m) as [r m'] eqn:E. intros [= -> _]. unfold sm_next_frame in E.
  apply M_bind_ok_inv in E as (s & ? & _ & E). apply M_bind_ok_inv in E as (m1 & ? & [= <- <-] & E). cbv zeta in E.
  destruct (next_frame n _ s) as [o' s'] eqn:En.
  apply M_bind_ok_inv in E as (? & ? & _ & E). apply M_bind_ok_inv in E as (? & ? & _ & [= <- _]).
  intros f ->. by eapply next_frame_size.
Qed.

Lemma streams_loop_size room ids : room < 2 ^ 30 → ∀ used chosen, measured chosen used → 0 <= used →
  yields (streams_loop room used chosen ids) (λ r, measured r.1 r.2 ∧ 0 <= r.2 <= Z.max used room).
Proof.
  intros Hr. induction ids as [|i ids IH]; intros used chosen Hm Hu; cbn [streams_loop]; [apply yields_ret; cbn; split; [done|lia]|].
  cbv zeta. case_test; [apply yields_ret; cbn; split; [done|lia]|].
  eapply yields_bind; [apply sm_next_frame_size; lia|]. intros [f|] Hf; [|by apply IH].
  eapply yields_bind; [apply yields_lift|]. intros e He. specialize (Hf f eq_refl).
  apply stream_len in He as Hl; [|lia]. pose proof (len_nonneg e).
  eapply yields_weaken; [apply IH; [apply measured_app; [done|by apply measured_one]|lia]|].
  cbn. intros r [? ?]. split; [done|lia].
Qed.

Lemma control_loop_size room queue : ∀ used chosen, measured chosen used → 0 <= used →
  yields (control_loop room used chosen queue) (λ r, measured r.1 r.2 ∧ 0 <= r.2 <= Z.max used room).
Proof.
  induction queue as [|f queue IH]; intros used chosen Hm Hu; cbn [control_loop]; [apply yields_ret; split; [done|cbn; lia]|].
  case_test; [|apply yields_ret; split; [done|cbn; lia]].
  eapply yields_bind; [apply yields_lift|]. intros e He. pose proof (len_nonneg e).
  case_test; [apply yields_ret; split; [done|cbn; lia]|]. eapply yields_bind; [apply yields_any|]. intros _ _.
  eapply yields_weaken; [apply IH; [apply measured_app; [done|by apply measured_one]|lia]|].
  intros r [? ?]. split; [done|lia].
Qed.

Lemma application_frames_size room : 0 <= room < 2 ^ 30 →
  yields (application_frames room) (λ r, measured r.1 r.2 ∧ 0 <= r.2 <= room + 1).
Proof.
  intros Hr. unfold application_frames. eapply yields_bind; [apply yields_any|]. intros c _.
  destruct (if cn_handshake_done_pending c then _ else _) as [chosen used] eqn:Ed.
  assert (Hd : measured chosen used ∧ 0 <= used <= 1).
  { destruct (cn_handshake_done_pending c); injection Ed as <- <-; (split; [|lia]); [|apply measured_nil].
    by apply (measured_one FHandshakeDone [x1e]). }
  eapply yields_bind; [apply yields_any|]. intros _ _.
  eapply yields_bind; [apply control_loop_size; [apply Hd|lia]|]. intros [chosen' used'] [Hm Hu]. cbn [fst snd] in Hm, Hu. destruct (cn_streams c).
  - eapply yields_weaken; [apply streams_loop_size; [lia|done|lia]|]. intros r [? ?]. split; [done|lia].
  - apply yields_ret. split; [done|cbn; lia].
Qed.

Lemma probe_filler_size room l f : probe_filler room l = Ok f → ∀ e, encode f = Ok e → len e <= Z.max room 1.
Proof.
  induction l as [|x l IH]; cbn [probe_filler]; [by intros [= <-] e [= <-]; unfold len; cbn; lia|].
  intros (e & He & H)%result_bind_inv. case_test_in H; [|by apply IH]. injection H as <-. intros e' He'.
  rewrite He in He'. injection He' as <-. lia.
Qed.

Lemma pending_frames_size level room ack_only : 0 <= room < 2 ^ 30 →
  yields (pending_frames level room ack_only) (λ r, measured r.1 r.2 ∧ 0 <= r.2 <= room + 2).
Proof.
  intros Hr. unfold pending_frames. eapply yields_bind; [apply choose_ack_size; lia|]. intros [chosen used] [Hm Hu]. cbn in Hm, Hu.
  destruct ack_only; [apply yields_ret; split; [done|cbn; lia]|]. cbv zeta.
  eapply yields_bind; [apply take_crypto_size; lia|]. intros o Ho.
  apply yields_bind with (P := λ r, measured r.1 r.2 ∧ 0 <= r.2 <= room).
  { destruct o as [f|]; [|apply yields_ret; split; [done|cbn; lia]]. destruct (Ho f eq_refl) as [Hpos Hlen].
    eapply yields_bind; [apply yields_lift|]. intros e He. apply crypto_len in He as Hl; [|lia]. pose proof (len_nonneg e).
    apply yields_ret. cbn. split; [apply measured_app; [done|by apply measured_one]|lia]. }
  intros [chosen1 used1] [Hm1 Hu1]. cbn in Hm1, Hu1.
  apply yields_bind with (P := λ r, measured r.1 r.2 ∧ 0 <= r.2 <= room + 1).
  { case_decide; [|apply yields_ret; split; [done|cbn; lia]].
    eapply yields_bind; [apply application_frames_size; lia|]. intros [app au] [Ha Hau]. cbn in Ha, Hau.
    apply yields_ret. cbn. split; [by apply measured_app|lia]. }
  intros [chosen2 used2] [Hm2 Hu2]. cbn in Hm2, Hu2. eapply yields_bind; [apply yields_any|]. intros c _.
  case_test; [apply yields_ret; split; [done|cbn; lia]|].
  apply yields_bind with (P := λ r, measured r.1 r.2 ∧ 0 <= r.2 <= room + 2).
  { case_test; [apply yields_ret; split; [done|cbn; lia]|]. eapply yields_bind; [apply yields_lift|]. intros f Hf.
    eapply yields_bind; [apply yields_lift|]. intros e He. pose proof (probe_filler_size _ _ _ Hf e He). pose proof (len_nonneg e).
    apply yields_ret. cbn. split; [apply measured_app; [done|by apply measured_one]|lia]. }
  intros [chosen3 used3] H3. eapply yields_bind; [apply yields_any|]. intros _ _. by apply yields_ret.
Qed.

(** ** Packets *)

(** What the bound needs of a connection: a datagram size in the range the
    configuration allows, connection IDs of version 1, a token that fits a
    four-byte length, and send keys of the sizes their suites fix. *)
Record sendable (c : Connection) : Prop := {
  sd_mds : MIN_INITIAL_DATAGRAM <= cf_max_datagram_size (cn_config c) < 2 ^ 29;
  sd_peer : len (cn_peer_cid c) <= 20;
  sd_host : len (cn_host_cid c) <= 20;
  sd_token : len (initial_token L_INITIAL c) < 2 ^ 29;
  sd_keys : ∀ level keys, ks_send (ps_keys (space_at level c)) = Some keys ∨
                          ks_send_early (ps_keys (space_at level c)) = Some keys → keys_ok keys }.

(** What headers and protection read stays as it is while packets are built. *)
Record same_headers (c c' : Connection) : Prop := {
  sh_config : cn_config c' = cn_config c;
  sh_peer : cn_peer_cid c' = cn_peer_cid c;
  sh_host : cn_host_cid c' = cn_host_cid c;
  sh_retry : cn_retry_token c' = cn_retry_token c;
  sh_keys : ∀ level keys, ks_send (ps_keys (space_at level c')) = Some keys ∨ ks_send_early (ps_keys (space_at level c')) = Some keys →
                          ks_send (ps_keys (space_at level c)) = Some keys ∨ ks_send_early (ps_keys (space_at level c)) = Some keys }.

#[local] Instance same_headers_preorder : PreOrder same_headers.
Proof. split; [by split|]. intros a b c [] []. split; try congruence. auto. Qed.

Lemma same_headers_token c c' : same_headers c c' → initial_token L_INITIAL c' = initial_token L_INITIAL c.
Proof. intros []. unfold initial_token. cbn. by rewrite sh_config0, sh_retry0. Qed.

Lemma same_headers_sendable c c' : same_headers c c' → sendable c → sendable c'.
Proof.
  intros Hs []. pose proof (same_headers_token _ _ Hs) as Ht. destruct Hs.
  split; rewrite ?sh_config0, ?sh_peer0, ?sh_host0, ?Ht; eauto.
Qed.

Lemma same_headers_space level s c :
  (∀ keys, ks_send (ps_keys s) = Some keys ∨ ks_send_early (ps_keys s) = Some keys →
     ks_send (ps_keys (space_at level c)) = Some keys ∨ ks_send_early (ps_keys (space_at level c)) = Some keys) →
  same_headers c (set_space_at level s c).
Proof. intros H. split; try done. intros l keys. by destruct l, level; auto. Qed.

Hint Extern 5 (same_headers _ (set_space_at _ _ _)) => apply same_headers_space; intros ? Hk; (exact Hk || destruct Hk as [[=]|]; auto) : advance.
Hint Extern 6 (same_headers _ _) => by split : advance.
Lemma same_headers_in_crypto {A} level (m : M CryptoState A) : preserves same_headers (in_crypto level m).
Proof. intros c. unfold in_crypto, zoom. destruct (m _). apply same_headers_space. auto. Qed.
Lemma same_headers_in_streams {A} (m : M StreamManager A) : preserves same_headers (in_streams m).
Proof. intros c. unfold in_streams. destruct (cn_streams c); [|reflexivity]. by destruct (m _). Qed.
Hint Resolve same_headers_in_crypto same_headers_in_streams : advance.
Lemma same_headers_modify_space level f : (∀ c, same_headers c (set_space_at level (f (space_at level c)) c)) →
  preserves same_headers (modify_space level f).
Proof. intros H. by apply preserves_modify. Qed.
Lemma same_headers_discard level : preserves same_headers (conn_discard_space level).
Proof. unfold conn_discard_space, modify_space. preserve. Qed.
Lemma same_headers_streams_loop room ids : ∀ used chosen, preserves same_headers (streams_loop room used chosen ids).
Proof. induction ids as [|i ids IH]; intros; cbn [streams_loop]; preserve. Qed.
Hint Resolve same_headers_streams_loop : advance.
Lemma same_headers_pending_frames l r a : preserves same_headers (pending_frames l r a).
Proof. unfold pending_frames, choose_ack, application_frames, modify_space. preserve. Qed.
Hint Resolve same_headers_pending_frames : advance.
Lemma same_headers_build_packet l r now p a : preserves same_headers (build_packet l r now p a).
Proof. unfold build_packet, modify_space. preserve. Qed.

(** The part of a packet's size that is its token, with its length. *)
Definition token_room (level : EncryptionLevel) (c : Connection) : Z :=
  if decide (level = L_INITIAL) then len (initial_token L_INITIAL c) else 0.

Lemma template_token_size level zero_rtt c : sendable c →
  0 <= token_size (long_template level zero_rtt c) <= 4 + token_room level c.
Proof.
  intros []. unfold token_size, token_room, long_template. cbn [lt_packet_type lt_token].
  pose proof (len_nonneg (initial_token L_INITIAL c)).
  case_decide as E; [|case_decide; lia]. destruct zero_rtt; [discriminate|]. destruct level; try discriminate.
  rewrite decide_True by done. pose proof (varint_size_le4 (len (initial_token L_INITIAL c)) ltac:(lia)).
  pose proof (varint_size_pos (len (initial_token L_INITIAL c))). lia.
Qed.

Lemma header_and_payload_size level zero_rtt pad pn pn_bytes payload c header payload' :
  sendable c → 1 <= len pn_bytes <= 4 → len payload < 2 ^ 29 + 10 → 0 <= pad < 2 ^ 29 →
  header_and_payload level zero_rtt pad pn pn_bytes payload c = Ok (header, payload') →
  len header + len payload' + AEAD_TAG_LENGTH <= Z.max pad (75 + len payload + token_room level c).
Proof.
  intros Hs Hpn Hp Hpad. unfold header_and_payload. cbv zeta.
  pose proof (template_token_size level zero_rtt c Hs) as Ht. destruct Hs. pose proof (len_nonneg payload).
  case_test.
  { intros (first & [_ ->]%byte_literal_inv & [= <- <-])%result_bind_inv. rewrite len_cons, !len_app.
    pose proof (len_nonneg (initial_token L_INITIAL c)). unfold AEAD_TAG_LENGTH, token_room in *. case_decide; lia. }
  assert (Hhead : ∀ n bs, n < 2 ^ 30 - 4 → build_long_header (long_template level zero_rtt c) n pn (len pn_bytes) = Ok bs →
            len bs <= 59 + token_room level c).
  { intros n bs Hn Hb. apply long_header_len in Hb; [|done]. cbn [lt_destination_cid lt_source_cid long_template] in Hb.
    pose proof (varint_size_le4 (len pn_bytes + n) ltac:(lia)). lia. }
  intros (pl & Hpl & (h & Hh & [= <- <-])%result_bind_inv)%result_bind_inv.
  assert (Hplain : pl = payload → len h + len pl + AEAD_TAG_LENGTH <= Z.max pad (75 + len payload + token_room level c)).
  { intros ->. apply Hhead in Hh; unfold AEAD_TAG_LENGTH in *; lia. }
  case_test_in Hpl; [injection Hpl as <-; by apply Hplain|].
  apply result_bind_inv in Hpl as (trial & Htr & [= <-]). case_test; [|by apply Hplain].
  rewrite len_app, len_zeros in *. apply long_header_len in Htr as Ltr; [|done]. apply long_header_len in Hh as Lh; [|done].
  pose proof (varint_size_mono (len pn_bytes + (len payload + Z.max 0 (pad - len trial - len payload - AEAD_TAG_LENGTH) + AEAD_TAG_LENGTH))
                (len pn_bytes + pad)) as Hmono. pose proof (len_nonneg trial). unfold AEAD_TAG_LENGTH in *. lia.
Qed.

Lemma build_packet_size level room now pad ack_only c p c' : sendable c → room < 2 ^ 29 → 0 <= pad <= room →
  build_packet level room now pad ack_only c = (Ok (Some p), c') → len p <= room + token_room level c.
Proof.
  intros Hs Hr Hpad (b & Hb)%build_packet_inv. destruct Hb as [Hk Hroom H1 _ Henc' _ Hpn Hh Hp _].
  assert (Hkeys : keys_ok (pp_keys b)) by (apply (sd_keys _ Hs level); unfold sending_keys in Hk; case_test_in Hk; auto).
  unfold HEADER_OVERHEAD, AEAD_TAG_LENGTH in *. set (c1 := pp_chosen b) in *.
  pose proof (pending_frames_size level (room - 64 - 16) ack_only ltac:(lia) _ _ _ H1) as [(enc & Henc & Hlen) Hused].
  pose proof (same_headers_pending_frames level (room - 64 - 16) ack_only c) as Hsame. rewrite H1 in Hsame.
  cbn [fst snd] in *. assert (pp_encoded b = enc) as E by congruence. rewrite E in Hh.
  apply packet_number_len in Hpn.
  assert (Hsame2 : same_headers c (number_taken level c1)) by (etransitivity; [exact Hsame|apply same_headers_space; auto]).
  pose proof (same_headers_token _ _ Hsame2) as Htok.
  assert (Hpay : len (pad_payload MINIMUM_PAYLOAD (concat enc)) <= Z.max 4 (room - 78)).
  { unfold pad_payload. change MINIMUM_PAYLOAD with 4. case_test; [rewrite len_app, len_zeros|]; lia. }
  apply header_and_payload_size in Hh as Hsz; [|by apply (same_headers_sendable c)|lia|lia|lia].
  unfold token_room in *. rewrite Htok in Hsz. pose proof (len_nonneg (pp_header b)). pose proof (len_nonneg (pp_payload b)).
  pose proof (sd_token _ Hs). pose proof (len_nonneg (initial_token L_INITIAL c)).
  apply protect_len in Hp; [|done|unfold AEAD_LIMIT, AEAD_TAG_LENGTH in *; case_decide; lia..].
  rewrite Hp. unfold AEAD_TAG_LENGTH in *. case_decide; lia.
Qed.

(** ** Datagrams *)

Lemma token_room_nonneg level c : 0 <= token_room level c.
Proof. unfold token_room. pose proof (len_nonneg (initial_token L_INITIAL c)). case_decide; lia. Qed.

(** At the levels after the Initial's. *)
Lemma later_levels_size budget size_limit now ack_only levels : ∀ payload c q c',
  L_INITIAL ∉ levels → sendable c → size_limit < 2 ^ 29 → len payload <= size_limit →
  levels_loop budget size_limit now ack_only payload levels c = (Ok q, c') → len q <= size_limit.
Proof.
  induction levels as [|l levels IH]; intros payload c q c' Hl Hs Hlim Hp; cbn [levels_loop]; [by intros [= <- _]|].
  apply not_elem_of_cons in Hl as [Hl Hlev]. intros (? & ? & [= <- <-] & H)%M_bind_ok_inv.
  case_test_in H; [eauto|]. cbv zeta in H. rewrite decide_False in H by done.
  apply M_bind_ok_inv in H as (o & c1 & Eb & H).
  pose proof (same_headers_build_packet l (size_limit - len payload) now 0 ack_only c) as Hsame. rewrite Eb in Hsame. cbn [snd] in Hsame.
  pose proof (same_headers_sendable _ _ Hsame Hs) as Hs1. destruct o as [p|]; [|by eapply IH].
  apply M_bind_ok_inv in H as ([] & c2 & Hd & H). cbn [Z.eqb negb] in H.
  assert (Hs2 : sendable c2).
  { unfold when in Hd. case_test_in Hd; [|by injection Hd as <-].
    pose proof (same_headers_discard L_INITIAL c1) as Hsd. rewrite Hd in Hsd. by eapply same_headers_sendable. }
  pose proof (len_nonneg payload). assert (Hpl : len p <= size_limit - len payload).
  { apply build_packet_size in Eb; [|done|lia|lia]. unfold token_room in Eb. rewrite decide_False in Eb by done. lia. }
  eapply IH; [done|exact Hs2|done| |exact H]. rewrite len_app. lia.
Qed.

(** C34: how large a datagram can get.  For a connection whose
    [max_datagram_size] is at least the 1200 bytes QUIC requires, whose
    connection IDs are at most 20 bytes and whose send keys are well formed,
    every datagram [_build_datagram] returns is at most [max_datagram_size]
    long once the Initial level can no longer send; before that it is at most
    [max_datagram_size] plus the length of the token its Initials carry, for
    which the 64 bytes reserved for the header leave no room.  The
    CONNECTION_CLOSE datagram, which [_build_close_datagram] makes, is not
    covered. *)
Theorem datagram_size_bounded c now ack_only d c' (Hs : sendable c)
    (Hd : build_datagram now ack_only c = (Ok (Some d), c')) :
  len (og_data d) <= cf_max_datagram_size (cn_config c) + (if can_send L_INITIAL c then len (initial_token L_INITIAL c) else 0).
Proof.
  unfold build_datagram in Hd. apply M_bind_ok_inv in Hd as (? & ? & [= <- <-] & H). cbv zeta in H.
  case_test_in H; [discriminate|]. apply M_bind_ok_inv in H as (q & c1 & Hq & H). case_test_in H; [discriminate|].
  apply M_bind_ok_inv in H as ([] & c2 & _ & H). apply M_bind_ok_inv in H as (c3 & ? & _ & H). injection H as <- _. cbn [og_data].
  pose proof (sd_mds _ Hs) as Hm. unfold MIN_INITIAL_DATAGRAM in Hm. set (mds := cf_max_datagram_size (cn_config c)) in *.
  assert (Hlater : ∀ c0, sendable c0 → levels_loop (send_budget ack_only c) mds now ack_only [] [L_HANDSHAKE; L_ONE_RTT] c0 = (Ok q, c1) →
                     len q <= mds).
  { intros c0 Hs0 H0. eapply later_levels_size; [|exact Hs0| | |exact H0]; [|lia|unfold len; cbn; lia].
    intros Hin. by repeat (apply elem_of_cons in Hin as [Hin|Hin]; [discriminate|]); apply elem_of_nil in Hin. }
  unfold all_levels in Hq. change (levels_loop ?b ?s now ack_only [] (L_INITIAL :: ?l)) with
    (c0 ← get; if negb (can_send L_INITIAL c0) then levels_loop b s now ack_only [] l
      else
        packet ← build_packet L_INITIAL (s - len (@nil byte)) now (Z.min MIN_INITIAL_DATAGRAM b) ack_only;
        match packet with
        | None => levels_loop b s now ack_only [] l
        | Some p =>
            _ ← when (cn_is_client c0 && bool_decide (L_INITIAL = L_HANDSHAKE)) (conn_discard_space L_INITIAL);
            if negb (Z.min MIN_INITIAL_DATAGRAM b =? 0) then mret ([] ++ p) else levels_loop b s now ack_only ([] ++ p) l
        end) in Hq.
  apply M_bind_ok_inv in Hq as (? & ? & [= <- <-] & Hq). pose proof (len_nonneg (initial_token L_INITIAL c)).
  destruct (can_send L_INITIAL c); cbn [negb] in Hq; [|apply Hlater in Hq; [lia|done]].
  apply M_bind_ok_inv in Hq as (o & c4 & Eb & Hq).
  pose proof (same_headers_build_packet L_INITIAL (mds - len (@nil byte)) now (Z.min MIN_INITIAL_DATAGRAM (send_budget ack_only c)) ack_only c) as Hsame.
  rewrite Eb in Hsame. cbn [snd] in Hsame. pose proof (same_headers_sendable _ _ Hsame Hs) as Hs4.
  destruct o as [p|]; [|apply Hlater in Hq; [lia|done]].
  apply M_bind_ok_inv in Hq as ([] & c5 & _ & Hq). unfold MIN_INITIAL_DATAGRAM in *.
  case_test_in Hq; [|lia]. injection Hq as <- _. cbn [app] in *.
  change (len (@nil byte)) with 0 in Eb. apply build_packet_size in Eb; [|done|lia|lia].
  unfold token_room in Eb. rewrite decide_True in Eb by done. lia.
Qed.
End size.

(** ** Concrete clients *)

Definition sized_keys (o : option PacketKeys) : bool :=
  match o with
  | None => true
  | Some k => (len (pk_key k) =? key_length (pk_cipher_suite k)) && (len (pk_iv k) =? 12)
              && (len (pk_hp k) =? key_length (pk_cipher_suite k))
  end.
Definition sized (c : Connection) : bool :=
  (1200 <=? cf_max_datagram_size (cn_config c)) && (cf_max_datagram_size (cn_config c) <? 2 ^ 29)
  && (len (cn_peer_cid c) <=? 20) && (len (cn_host_cid c) <=? 20) && (len (initial_token L_INITIAL c) <? 2 ^ 29)
  && forallb (λ l, sized_keys (ks_send (ps_keys (space_at l c))) && sized_keys (ks_send_early (ps_keys (space_at l c)))) all_levels.

Lemma sized_keys_ok k : sized_keys (Some k) = true → keys_ok k.
Proof. cbn. intros H. bool_cases. by split. Qed.

Lemma sized_sendable c : sized c = true → sendable c.
Proof.
  unfold sized. intros H. bool_cases. split; unfold MIN_INITIAL_DATAGRAM; try lia.
  intros level keys Hk. rewrite forallb_forall in *. apply sized_keys_ok.
  match goal with H : ∀ l, _ → _ = true |- _ => specialize (H level); assert (Hl := H ltac:(destruct level; cbn; auto)) end.
  apply andb_true_iff in Hl as [Hl1 Hl2]. destruct Hk as [E|E]; by rewrite E in *.
Qed.

(** The toy client of [ConnRuns] with a token from an earlier connection. *)
Definition token_client (n : nat) : Connection :=
  match new_Connection true (Some 0) None (mkConnectionConfig 1200 toy_parameters None None QUIC_V1 (replicate n x00)) None
          (replicate 8 xc1) (replicate 8 xd1) with
  | Ok c => (connect 0 c).2
  | Raise _ => blank true HANDSHAKING
  end.

(** The length of the datagram built, or -1. *)
Definition built_length (c : Connection) : Z :=
  match build_datagram 1 false c with (Ok (Some d), _) => len (og_data d) | _ => -1 end.

Lemma built_length_run c n : built_length c = n → 0 <= n → ∃ d c', build_datagram 1 false c = (Ok (Some d), c') ∧ len (og_data d) = n.
Proof. unfold built_length. destruct (build_datagram 1 false c) as [[[d|]|e] c']; try lia. intros <- _. by exists d, c'. Qed.

Lemma datagram_size_bounded_witness :
  ∃ d c', build_datagram 1 false (token_client 100) = (Ok (Some d), c') ∧ len (og_data d) = 1200 ∧ len (og_data d) <= 1200 + 100.
Proof.
  destruct (built_length_run (token_client 100) 1200 ltac:(vm_compute; reflexivity) ltac:(lia)) as (d & c' & E & Hl).
  exists d, c'. split; [exact E|]. split; [exact Hl|].
  assert (Hb : cf_max_datagram_size (cn_config (token_client 100)) +
    (if can_send L_INITIAL (token_client 100) then len (initial_token L_INITIAL (token_client 100)) else 0) = 1200 + 100)
    by (vm_compute; reflexivity).
  assert (Hs : sized (token_client 100) = true) by (vm_compute; reflexivity).
  rewrite <- Hb. exact (datagram_size_bounded (token_client 100) 1 false d c' (sized_sendable _ Hs) E).
Defined.

(** A token of 1150 bytes, which a Retry packet or a NEW_TOKEN frame may
    carry, makes a client send a datagram longer than [max_datagram_size]. *)
Lemma token_overflows_datagram :
  cf_max_datagram_size (cn_config (token_client 1150)) = 1200 ∧ built_length (token_client 1150) = 1259.
Proof. split; vm_compute; reflexivity. Qed.
