(* ===== verification/ConnInvariants.v ===== *)
(** * The components inside a connection

    What [Recovery] and [StreamManager] keep on their own they keep inside a
    [Connection], whatever datagrams, timers and calls it meets and whether
    its methods return or raise: the congestion controller charges exactly the
    packets outstanding, no outstanding packet carries a number the space has
    not given out, and the stream manager's accounts are exact.  The relation
    [keeps] says that a method takes a [sound] connection to a sound one; each
    method is walked through with the tactic of [ConnMonotone]. *)

From stdpp Require Import relations.
From S2P Require Import Prelude Buffer Frames Packet TransportParameters RangeSet Streams StreamManager StreamNetwork.
From S2P Require Import Congestion NewReno Recovery RecoveryProofs Crypto Protection Retry TlsInterface Spaces ConnState.
From S2P Require Import ConnRecv ConnSend ConnMonotone ConnRuns ConnProofs SendLoop.

(** ** Parameters off the wire *)

Lemma varint_or_nonneg raw v x : varint_or raw v (id : Z → Z) = Ok x → 0 <= v → 0 <= x.
Proof.
  destruct raw as [[|b r]|]; cbn [varint_or]; try (by intros [= <-]).
  intros (y & Hy & [= <-])%result_bind_inv _. rewrite new_buffer_mkbuf in Hy.
  destruct (reads_pull_varint short_read (λ _ H, H) [] (b :: r)) as (bs & rest & _ & _ & H). rewrite Hy in H. unfold id. lia.
Qed.

Lemma decoded_limits data p : decode_transport_parameters data = Ok p → limits_ok (flow_limits p).
Proof.
  unfold decode_transport_parameters, parameters_of. intros (l & _ & H)%result_bind_inv.
  repeat apply result_bind_inv in H as (? & ? & H). injection H as <-. unfold limits_ok, flow_limits. cbn.
  repeat constructor; (eapply varint_or_nonneg; [eassumption|done]).
Qed.

(** The early data a server does not reject was sent under limits such as
    [network_never_refuses] asks for. *)
Lemma accepted_limits_le remembered current :
  reduces_zero_rtt_limits remembered current = false → limits_le (flow_limits remembered) (flow_limits current).
Proof. intros H%zero_rtt_limits_kept. unfold limits_le, flow_limits. cbn. tauto. Qed.

Lemma flow_limits_for config is_client host original retry dcid :
  flow_limits (parameters_for config is_client host original retry dcid) = flow_limits (cf_transport_parameters config).
Proof. unfold parameters_for. by destruct is_client. Qed.

(** ** Loss detection, whatever is reported *)

Definition numbers_kept (d d' : LossDetection NewReno) : Prop :=
  ∀ level, sc_largest_sent (space_of level d') = sc_largest_sent (space_of level d).

Lemma detect_numbers level now (d d' : LossDetection NewReno) lost :
  ld_inv d → detect_and_remove_lost level now d = (Ok lost, d') → numbers_kept d d'.
Proof.
  intros Hi E. destruct (li_spaces _ Hi level) as (Hd & _).
  destruct (detect_spec level now d Hd) as (lost' & d1 & E' & _ & _ & _ & _ & Hls & _ & _ & _ & _ & Hsame).
  rewrite E' in E. injection E as -> ->. intros l. destruct (decide (l = level)) as [->|Hne]; [done|].
  destruct Hsame as (_ & _ & _ & _ & _ & Hsame). by rewrite Hsame.
Qed.

Lemma ack_keeps level ack delay now (d : LossDetection NewReno) :
  ld_inv d → let d' := (on_ack_received level ack delay now d).2 in ld_inv d' ∧ numbers_kept d d'.
Proof.
  intros Hi. destruct (li_spaces _ Hi level) as (Hd & _). cbn zeta.
  destruct (ack_spec level ack delay now d Hd) as [(_ & msg & E)|(Hle & o & d1 & E & Hsp)].
  - rewrite E. by destruct (ld_inv_same d (set_last_event now d) eq_refl eq_refl Hi).
  - pose proof (inv_ack _ _ _ _ _ _ _ Hi E) as [Hi' _]. rewrite E. split; [done|].
    destruct Hsp as (_ & _ & _ & _ & _ & Hls & _ & _ & _ & Hother & _).
    intros l. cbn. destruct (decide (l = level)) as [->|Hne]; [done|]. by rewrite Hother.
Qed.

Lemma timeout_keeps now (d : LossDetection NewReno) :
  ld_inv d → let d' := (on_loss_detection_timeout now d).2 in ld_inv d' ∧ numbers_kept d d'.
Proof.
  intros Hi. cbn zeta. destruct (ld_inv_same d (set_last_event now d) eq_refl eq_refl Hi) as [Hi1 _].
  unfold on_loss_detection_timeout. do 2 erewrite M_bind_ok by done.
  destruct (earliest_loss_time (set_last_event now d)) as [[t level]|].
  - destruct (li_spaces _ Hi1 level) as (Hd & _).
    destruct (detect_spec level now _ Hd) as (lost & d1 & E & _). erewrite M_bind_ok by exact E. cbn.
    split; [by destruct (inv_detect _ _ _ _ _ Hi1 E)|]. exact (detect_numbers _ _ _ _ _ Hi1 E).
  - do 2 erewrite M_bind_ok by done.
    destruct (ld_inv_same d (set_pto_count (ld_pto_count (set_last_event now d) + 1) (set_last_event now d)) eq_refl eq_refl Hi) as [Hi2 _].
    by destruct (earliest_pto _) as [[t level]|].
Qed.

Lemma cleared_numbers level (d : LossDetection NewReno) : numbers_kept d (discard_space level d) ∧ numbers_kept d (restart_space level d).2.
Proof. split; intros l; unfold discard_space, restart_space, space_of; cbn; by destruct level, l. Qed.

Lemma sent_numbers p (d : LossDetection NewReno) level :
  sc_largest_sent (space_of level (ld_on_packet_sent p d)) =
    if decide (level = sp_level p) then Z.max (sc_largest_sent (space_of level d)) (sp_packet_number p)
    else sc_largest_sent (space_of level d).
Proof. unfold ld_on_packet_sent, space_of. cbn. by destruct (sp_level p), level. Qed.

(** ** Sound connections *)

Section sound.
Context `{HP : Primitives} `{HT : Tls}.

(** What was sent is within the peer's limit on the connection. *)
Definition allowed (m : StreamManager) : Prop := sm_data_sent m <= sm_max_data m.

(** The limit may be lowered only under a client that remembers parameters for
    0-RTT; every server, and every client that sends no early data, keeps
    within it. *)
Record sound (c : Connection) : Prop := mk_sound {
  so_recovery : ld_inv (cn_recovery c);
  so_numbers : ∀ level, sc_largest_sent (space_of level (cn_recovery c)) < next_number level c;
  so_streams : ∀ m, cn_streams c = Some m → manager_inv m ∧ (cn_remembered_parameters c = None → allowed m);
  so_local : limits_ok (flow_limits (cn_local_parameters c));
  so_config : limits_ok (flow_limits (cf_transport_parameters (cn_config c)));
  so_remembered : ∀ p, cn_remembered_parameters c = Some p → limits_ok (flow_limits p) }.

Definition keeps (c c' : Connection) : Prop := sound c → sound c'.

#[export] Instance keeps_preorder : PreOrder keeps.
Proof. split; unfold keeps; [by intros c|intros a b c; auto]. Qed.

Lemma keeps_get {A} (k : Connection → M Connection A) :
  (∀ c, sound c → preserves keeps (k c)) → preserves keeps (get ≫= k).
Proof. intros H c Hc. by apply (H c Hc). Qed.

Lemma keeps_lift {A B} (r : result A) (k : A → M Connection B) :
  (∀ a, r = Ok a → preserves keeps (k a)) → preserves keeps (lift r ≫= k).
Proof. intros H c Hc. unfold mbind, M_bind, lift. destruct r; [by apply H|done]. Qed.

Lemma keeps_bind_at {A B} (m : M Connection A) (k : A → M Connection B) c :
  (∀ a, preserves keeps (k a)) → sound (m c).2 → sound ((m ≫= k) c).2.
Proof. intros Hk. unfold mbind, M_bind. destruct (m c) as [[a|e] c']; [|done]. apply Hk. Qed.

Lemma keeps_space level s c :
  ps_next_packet_number (space_at level c) <= ps_next_packet_number s → keeps c (set_space_at level s c).
Proof.
  intros H []. constructor; try done. intros l. specialize (so_numbers0 l). unfold next_number, space_at, set_space_at in *. cbn.
  destruct l, level; cbn in *; lia.
Qed.

Lemma keeps_modify_space level f :
  (∀ s, ps_next_packet_number s <= ps_next_packet_number (f s)) → preserves keeps (modify_space level f).
Proof. intros H c. by apply keeps_space. Qed.

Lemma keeps_in_keys {A} level (m : M KeyState A) : preserves keeps (in_keys level m).
Proof. intros c. unfold in_keys, zoom. destruct (m _) as [r k]. by apply keeps_space. Qed.
Lemma keeps_in_crypto {A} level (m : M CryptoState A) : preserves keeps (in_crypto level m).
Proof. intros c. unfold in_crypto, zoom. destruct (m _) as [r k]. by apply keeps_space. Qed.

Lemma keeps_recovery d c :
  (sound c → ld_inv d ∧ numbers_kept (cn_recovery c) d) → keeps c (set_cn_recovery d c).
Proof.
  intros H Hc. destruct (H Hc) as [Hi Hn]. destruct Hc. constructor; try done. intros level. cbn. rewrite Hn. apply so_numbers0.
Qed.

Lemma keeps_in_loss_detection {A} (m : M (LossDetection NewReno) A) :
  (∀ d, ld_inv d → ld_inv (m d).2 ∧ numbers_kept d (m d).2) → preserves keeps (in_loss_detection m).
Proof.
  intros H c. unfold in_loss_detection, zoom. specialize (H (cn_recovery c)). destruct (m (cn_recovery c)) as [r d]. cbn in *.
  apply keeps_recovery. intros []. auto.
Qed.

Lemma keeps_modify_recovery f :
  (∀ d, ld_inv d → ld_inv (f d) ∧ numbers_kept d (f d)) → preserves keeps (modify_recovery f).
Proof. intros H c. apply keeps_recovery. intros []. auto. Qed.

Lemma keeps_in_streams {A} (m : M StreamManager A) :
  (∀ s, manager_inv s → manager_inv (m s).2 ∧ (allowed s → allowed (m s).2)) → preserves keeps (in_streams m).
Proof.
  intros H c. unfold in_streams. destruct (cn_streams c) as [s|] eqn:Es; [|by intros ?]. specialize (H s).
  destruct (m s) as [r s']. cbn in *. intros []. constructor; try done. intros m' [= <-].
  destruct (so_streams0 s Es) as [Hi Ha]. destruct (H Hi) as [Hi' Ha']. split; [done|]. auto.
Qed.

Lemma keeps_create_streams p : limits_ok (flow_limits p) → preserves keeps (create_streams p).
Proof.
  intros Hp. unfold create_streams. apply keeps_get. intros c Hc. apply preserves_modify. intros c' [].
  constructor; try done. intros m [= <-]. split; [apply manager_inv_new; [by destruct Hc|done]|].
  intros _. unfold allowed. cbn. by apply limits_ok_all in Hp as (Hm & _).
Qed.
End sound.

Lemma record_packet_next pn ecn s : ps_next_packet_number (record_packet pn ecn s) = ps_next_packet_number s.
Proof. unfold record_packet. by case_test. Qed.

Create HintDb sound.
#[export] Hint Extern 1 (preserves _ (mret _)) => apply preserves_ret : sound.
#[export] Hint Extern 1 (preserves _ (raise _)) => apply preserves_raise : sound.
#[export] Hint Extern 1 (preserves _ get) => apply preserves_get : sound.
#[export] Hint Extern 1 (preserves _ (lift _)) => apply preserves_lift : sound.
#[export] Hint Extern 1 (preserves _ (control_loop _ _ _ _)) => refine (preserves_control_loop _ _ _ _ _ _); intros ? ? : sound.
#[export] Hint Resolve keeps_in_keys keeps_in_crypto keeps_create_streams decoded_limits : sound.
#[export] Hint Extern 5 (keeps _ _) => solve [intros []; by constructor] : sound.

Ltac keep_step :=
  match goal with
  | |- preserves keeps (get ≫= _) => apply keeps_get; intros ? ?
  | |- preserves keeps (lift _ ≫= _) => apply keeps_lift; intros ? ?
  | |- preserves keeps (modify_space _ _) => 
      apply keeps_modify_space; intros ?; first [done | by rewrite record_packet_next | cbn; lia]
  | |- preserves keeps (modify_recovery _) => fail 1
  | |- _ => preserve_step
  end.
Ltac keep := repeat (solve [eauto with sound nocore] || keep_step).

(** ** Calls on the stream manager *)

Definition stream_call {A} (m : M StreamManager A) : Prop :=
  ∀ s, manager_inv s → manager_inv (m s).2 ∧ (allowed s → allowed (m s).2).

(** Every call but [update_peer_limits]. *)
Lemma exec_call op : op_ok op → (∀ p, op ≠ OpUpdatePeerLimits p) → stream_call (exec op).
Proof.
  intros Ha Hno s Hs. destruct (exec op s) as [r s'] eqn:E. destruct (exec_inv op s r s' Hs Ha E) as [Hi _].
  destruct (exec_grown op s r s' Hs E) as [Hg Hm]. specialize (Hm Hno). split; [done|]. unfold allowed. cbn. lia.
Qed.

Lemma void_call {A} (m : M StreamManager A) : stream_call (void m) → stream_call m.
Proof.
  intros H s Hs. specialize (H s Hs). unfold void, mbind, M_bind in H. destruct (m s) as [[a|e] s']; done.
Qed.

Lemma call_open : stream_call open_bidi.
Proof. apply void_call. apply (exec_call OpOpenBidi); done. Qed.
Lemma call_frame f : stream_call (sm_on_stream_frame f).
Proof. apply void_call. apply (exec_call (OpStreamFrame f)); done. Qed.
Lemma call_next_frame k n : stream_call (sm_next_frame k n).
Proof. apply void_call. apply (exec_call (OpNextFrame k n)); done. Qed.
Lemma call_write k data fin : stream_call (on_send k (write data fin)).
Proof. apply (exec_call (OpWrite k data fin)); done. Qed.
Lemma call_acked f : stream_call (on_send (st_id f) (modify (on_frame_acked f))).
Proof. apply (exec_call (OpAcked (st_id f) f)); done. Qed.
Lemma call_requeue f : stream_call (on_send (st_id f) (modify (requeue f))).
Proof. apply (exec_call (OpRequeue (st_id f) f)); done. Qed.
Lemma call_max_stream_data k v : stream_call (on_send k (modify (on_max_stream_data v))).
Proof. apply (exec_call (OpMaxStreamData k v)); done. Qed.
Lemma call_read k : stream_call (on_recv k (total read)).
Proof. apply void_call. apply (exec_call (OpRead k)); done. Qed.
Lemma call_credit_update k : stream_call (on_recv k (total credit_update)).
Proof. apply void_call. apply (exec_call (OpCreditUpdate k)); done. Qed.
Lemma call_max_data v : stream_call (modify (on_max_data v)).
Proof. apply (exec_call (OpMaxData v)); done. Qed.
Lemma call_max_streams v b : stream_call (modify (on_max_streams v b)).
Proof. apply (exec_call (OpMaxStreams v b)); done. Qed.
Lemma call_max_data_update : stream_call (total max_data_update).
Proof. apply void_call. apply (exec_call OpMaxDataUpdate); done. Qed.
Lemma call_max_streams_update b : stream_call (total (max_streams_update b)).
Proof. apply void_call. apply (exec_call (OpMaxStreamsUpdate b)); done. Qed.
Lemma call_recv_stream k : stream_call (recv_stream k).
Proof. intros s Hs. by destruct (recv_stream_cases s k) as [(h & r & _ & _ & ->)|[e ->]]. Qed.

#[export] Hint Resolve keeps_in_streams : sound.
#[export] Hint Resolve call_open call_frame call_next_frame call_write call_acked call_requeue call_max_stream_data call_read
  call_credit_update call_max_data call_max_streams call_max_data_update call_max_streams_update call_recv_stream : sound.
#[export] Hint Extern 2 (∀ s, manager_inv s → manager_inv _ ∧ _) => change stream_call : sound.
#[export] Hint Unfold stream_call : sound.

(** ** Every method *)

Section methods.
Context `{HP : Primitives} `{HT : Tls}.

Lemma keeps_streams_call {A} (m : M StreamManager A) : stream_call m → preserves keeps (in_streams m).
Proof. exact (keeps_in_streams m). Qed.
Hint Resolve keeps_streams_call : sound.

Lemma sound_install_initial_keys dcid : preserves keeps (install_initial_keys dcid).
Proof. unfold install_initial_keys. keep. Qed.
Lemma sound_conn_decrypt level p o n z : preserves keeps (conn_decrypt level p o n z).
Proof. unfold conn_decrypt. keep. Qed.
Lemma sound_maybe_update_keys now : preserves keeps (maybe_update_keys now).
Proof. unfold maybe_update_keys, conn_initiate_key_update. keep. Qed.
Lemma sound_conn_discard_space level : preserves keeps (conn_discard_space level).
Proof.
  unfold conn_discard_space. keep. apply keeps_modify_recovery. intros d Hd.
  split; [by destruct (inv_clear level d true Hd)|by destruct (cleared_numbers level d)].
Qed.
Hint Resolve sound_install_initial_keys sound_conn_decrypt sound_maybe_update_keys sound_conn_discard_space : sound.

Lemma sound_adopt_client_initial d k : preserves keeps (adopt_client_initial d k).
Proof.
  unfold adopt_client_initial. keep. intros []. constructor; try done. cbn [cn_local_parameters set_cn_local_parameters]. rewrite flow_limits_for. by apply so_config.
Qed.
Lemma sound_requeue_lost p : preserves keeps (requeue_lost p).
Proof. unfold requeue_lost, requeue_frame. keep. Qed.
Hint Resolve sound_adopt_client_initial sound_requeue_lost : sound.

Lemma sound_resend_early : preserves keeps resend_early_application_data.
Proof. unfold resend_early_application_data. keep. Qed.
Hint Resolve sound_resend_early : sound.
Lemma sound_prepare_probe level : preserves keeps (prepare_probe level).
Proof. unfold prepare_probe. keep. Qed.

Lemma confirmed_keeps (d : LossDetection NewReno) : ld_inv d → ld_inv (mark_confirmed d) ∧ numbers_kept d (mark_confirmed d).
Proof. intros Hd. by destruct (ld_inv_same d (mark_confirmed d) eq_refl eq_refl Hd). Qed.
Lemma ecn_keeps sent now (d : LossDetection NewReno) :
  ld_inv d → let d' := set_controller (cc_on_ecn_ce sent now (ld_controller d)) d in ld_inv d' ∧ numbers_kept d d'.
Proof. intros Hd. cbn zeta. by destruct (ld_inv_same d (set_controller (cc_on_ecn_ce sent now (ld_controller d)) d) eq_refl (law_ecn_ce _ _ _) Hd). Qed.

Lemma sound_confirm_handshake : preserves keeps confirm_handshake.
Proof. unfold confirm_handshake. keep. apply keeps_modify_recovery. apply confirmed_keeps. Qed.
Lemma sound_validate_peer_parameters : preserves keeps validate_peer_parameters.
Proof. unfold validate_peer_parameters. keep. Qed.
Hint Resolve sound_prepare_probe sound_confirm_handshake sound_validate_peer_parameters : sound.

(** The streams are made under limits that came off the wire; those of early
    data are given others. *)
Lemma sound_settle_streams p : limits_ok (flow_limits p) → preserves keeps (settle_streams p).
Proof.
  intros Hp c Hc. unfold settle_streams. erewrite M_bind_ok by done. destruct (cn_streams c) as [m|] eqn:Es.
  2: by apply keeps_create_streams.
  destruct (negb _); [done|]. destruct (cn_tls c); [|done]. destruct (cn_remembered_parameters c) as [q|] eqn:Er; [|done].
  destruct (_ && _); [done|]. destruct Hc. constructor; try done. intros m' [= <-]. destruct (so_streams0 m Es) as [Hi _].
  split; [by apply inv_update_peer_limits|]. cbn. congruence.
Qed.
Hint Resolve sound_settle_streams : sound.

Lemma sound_restarted level c sent d :
  restart_space level (cn_recovery c) = (sent, d) → sound c → sound (set_cn_recovery d c).
Proof.
  intros E%(f_equal snd). cbn [snd] in E. rewrite <- E. apply keeps_recovery. intros [].
  split; [by destruct (inv_clear level (cn_recovery c) (sc_discarded (space_of level (cn_recovery c))) so_recovery0)
         |by destruct (cleared_numbers level (cn_recovery c))].
Qed.

(** The packets of a space leave loss detection, which the connection read
    just before. *)
Lemma sound_restart_space level (f : list SentPacket → M Connection unit) : (∀ sent, preserves keeps (f sent)) →
  preserves keeps (c ← get;
    let '(sent, recovery) := restart_space level (cn_recovery c) in
    _ ← modify (set_cn_recovery recovery);
    f sent).
Proof.
  intros Hf c Hc. erewrite M_bind_ok by done. destruct (restart_space level (cn_recovery c)) as [sent d] eqn:E.
  erewrite M_bind_ok by done. apply Hf. by eapply sound_restarted.
Qed.

(** Rejected 0-RTT packets, likewise. *)
Lemma sound_restart {A} (k : unit → M Connection A) : (∀ x, preserves keeps (k x)) →
  preserves keeps (c ← get;
    x ← match cn_tls c with
        | Some tls =>
            if cn_is_client c && bool_decide (tls_early_secret tls ≠ None) && negb (tls_early_data_accepted tls) then
              let '(sent, recovery) := restart_space L_ONE_RTT (cn_recovery c) in
              _ ← modify (set_cn_recovery recovery);
              each requeue_lost sent
            else mret tt
        | None => mret tt
        end;
    k x).
Proof.
  intros Hk c Hc. erewrite M_bind_ok by done. apply (keeps_bind_at _ _ _ Hk). destruct (cn_tls c) as [tls|]; [|done].
  case_test; [|done].
  destruct (restart_space L_ONE_RTT (cn_recovery c)) as [sent d] eqn:E. erewrite M_bind_ok by done.
  assert (Hr : preserves keeps (each requeue_lost sent)) by keep. apply Hr. by eapply sound_restarted.
Qed.

Lemma sound_on_handshake_complete e now : preserves keeps (on_handshake_complete e now).
Proof.
  unfold on_handshake_complete. repeat (solve [eauto with sound nocore] || (apply sound_restart; intros ?) || keep_step).
Qed.
Lemma sound_sync_early_keys : preserves keeps sync_early_keys.
Proof. unfold sync_early_keys. keep. Qed.
Hint Resolve sound_on_handshake_complete sound_sync_early_keys : sound.
Lemma sound_drain_tls_events now : preserves keeps (drain_tls_events now).
Proof. unfold drain_tls_events, on_tls_event. keep. Qed.
Hint Resolve sound_drain_tls_events : sound.
Lemma sound_close c r f : preserves keeps (close c r f).
Proof. unfold close. keep. Qed.
Lemma sound_on_connection_close f now : preserves keeps (on_connection_close f now).
Proof. unfold on_connection_close. keep. Qed.
Lemma sound_validate_ecn l f a now : preserves keeps (validate_ecn l f a now).
Proof. unfold validate_ecn. keep. apply keeps_modify_recovery. intros d. apply ecn_keeps. Qed.
Lemma sound_ack_received l f delay now : preserves keeps (in_loss_detection (on_ack_received l f delay now)).
Proof. apply keeps_in_loss_detection. intros d. apply ack_keeps. Qed.
Lemma sound_timeout now : preserves keeps (in_loss_detection (on_loss_detection_timeout now)).
Proof. apply keeps_in_loss_detection. intros d. apply timeout_keeps. Qed.
Hint Resolve sound_close sound_on_connection_close sound_validate_ecn sound_ack_received sound_timeout : sound.
Lemma sound_handle_ack l f now : preserves keeps (handle_ack l f now).
Proof. unfold handle_ack, on_acked_frame. keep. Qed.
Lemma sound_handle_limit f : preserves keeps (handle_limit f).
Proof. unfold handle_limit. keep. Qed.
Lemma sound_receive_tls level data now : preserves keeps (λ c, match cn_tls c with
  | Some tls => let '(r, tls') := tls_receive level data now tls in (r, set_cn_tls (Some tls') c)
  | None => (Raise AssertionError, c) end).
Proof. intros c Hc. destruct (cn_tls c); [|done]. destruct (tls_receive _ _ _ _). destruct Hc. by constructor. Qed.
Hint Resolve sound_handle_ack sound_handle_limit sound_receive_tls : sound.
Lemma sound_handle_crypto l f now : preserves keeps (handle_crypto l f now).
Proof. unfold handle_crypto. keep. Qed.
Lemma sound_handle_stream f : preserves keeps (handle_stream f).
Proof. unfold handle_stream, maybe_extend_credit. keep. Qed.
Hint Resolve sound_handle_crypto sound_handle_stream : sound.
Lemma sound_handle_payload l p now z : preserves keeps (handle_payload l p now z).
Proof. unfold handle_payload, handle_frame. keep. Qed.
Hint Resolve sound_handle_payload : sound.
Lemma sound_handle_version_negotiation d : preserves keeps (handle_version_negotiation d).
Proof. unfold handle_version_negotiation. keep. Qed.
Lemma sound_handle_retry d : preserves keeps (handle_retry d).
Proof.
  unfold handle_retry, requeue_crypto_frame.
  repeat (solve [eauto with sound nocore] || (apply sound_restart_space; intros ?) || keep_step).
Qed.
Hint Resolve sound_handle_version_negotiation sound_handle_retry : sound.
Lemma sound_locate_packet d now : preserves keeps (locate_packet d now).
Proof. unfold locate_packet. keep. Qed.
Hint Resolve sound_locate_packet : sound.
Lemma sound_accept_packet l n p now e z : preserves keeps (accept_packet l n p now e z).
Proof. unfold accept_packet. keep. Qed.
Hint Resolve sound_accept_packet : sound.
Lemma sound_process_packet d now e : preserves keeps (process_packet d now e).
Proof. unfold process_packet. keep. Qed.
Hint Resolve sound_process_packet : sound.
Lemma sound_packets_loop fuel : ∀ d o now e, preserves keeps (packets_loop fuel d o now e).
Proof. induction fuel as [|k IH]; intros; cbn [packets_loop]; keep. Qed.
Hint Resolve sound_packets_loop : sound.
Lemma sound_receive_datagram d now src e : preserves keeps (receive_datagram d now src e).
Proof. unfold receive_datagram. keep. Qed.
Hint Resolve sound_receive_datagram : sound.
Lemma sound_datagram_received d now src e : preserves keeps (datagram_received d now src e).
Proof. unfold datagram_received. keep. Qed.

(** *** Sending *)

Lemma sound_streams_loop room ids : ∀ used chosen, preserves keeps (streams_loop room used chosen ids).
Proof. induction ids as [|i ids IH]; intros; cbn [streams_loop]; keep. Qed.
Hint Resolve sound_streams_loop : sound.
Lemma sound_application_frames room : preserves keeps (application_frames room).
Proof. unfold application_frames. keep. Qed.
Lemma sound_choose_ack l r : preserves keeps (choose_ack l r).
Proof. unfold choose_ack. keep. Qed.
Hint Resolve sound_application_frames sound_choose_ack : sound.
Lemma sound_pending_frames l r a : preserves keeps (pending_frames l r a).
Proof. unfold pending_frames. keep. Qed.
Hint Resolve sound_pending_frames : sound.

Lemma next_number_bumped level level' c :
  next_number level' (set_space_at level (set_next_packet_number (ps_next_packet_number (space_at level c) + 1) (space_at level c)) c) =
  next_number level' c + (if decide (level' = level) then 1 else 0).
Proof.
  unfold next_number, space_at, set_space_at. cbn [cn_spaces set_cn_spaces]. case_decide as E; [subst level'; by destruct level|].
  rewrite Z.add_0_r. by destruct level, level'.
Qed.

(** A packet takes the next number of its space and is then recorded under
    it. *)
Lemma sound_sent level c p :
  sp_level p = level → sp_packet_number p = next_number level c → sound c →
  let c1 := set_space_at level (set_next_packet_number (ps_next_packet_number (space_at level c) + 1) (space_at level c)) c in
  sound (set_cn_recovery (ld_on_packet_sent p (cn_recovery c1)) c1).
Proof.
  intros Hl Hp Hc c1. destruct Hc. constructor; try done.
  - apply inv_sent; [done|]. change (cn_recovery c1) with (cn_recovery c). rewrite Hl, Hp. apply so_numbers0.
  - intros level'. change (next_number level' (set_cn_recovery _ c1)) with (next_number level' c1).
    rewrite (next_number_bumped level level' c : next_number level' c1 = _). cbn [cn_recovery set_cn_recovery]. rewrite sent_numbers, Hl, Hp.
    change (cn_recovery c1) with (cn_recovery c). specialize (so_numbers0 level'). case_decide; [subst level'|]; lia.
Qed.

Lemma sound_number_packet level (now : Q) (chosen : list Frame) (e : exn)
    (head : Z → bytes → Connection → result (bytes * bytes)) (seal : Z → bytes → bytes → result bytes) :
  preserves keeps (c ← get;
    let packet_number := ps_next_packet_number (space_at level c) in
    if packet_number >? MAX_PACKET_NUMBER then raise e
    else
      _ ← modify_space level (λ s, set_next_packet_number (ps_next_packet_number s + 1) s);
      pn_bytes ← lift (encode_packet_number packet_number None);
      c ← get;
      '(header, payload) ← lift (head packet_number pn_bytes c);
      packet ← lift (seal packet_number header payload);
      let ack_eliciting := existsb is_ack_eliciting chosen in
      _ ← modify_recovery (ld_on_packet_sent
            (mkSentPacket level packet_number now ack_eliciting ack_eliciting (len packet) chosen));
      mret (Some packet)).
Proof.
  intros c Hc. erewrite M_bind_ok by done. cbn zeta. case_test; [done|]. erewrite M_bind_ok by done.
  assert (Hs : sound (modify_space level (λ s, set_next_packet_number (ps_next_packet_number s + 1) s) c).2)
    by (apply keeps_modify_space; [intros s; cbn; lia|done]).
  unfold lift, mbind, M_bind. destruct (encode_packet_number _ _); [|done]. cbn [get].
  destruct (head _ _ _) as [[header payload]|]; [|done]. destruct (seal _ _ _); [|done].
  by apply sound_sent.
Qed.

Lemma sound_build_packet l r now p a : preserves keeps (build_packet l r now p a).
Proof.
  unfold build_packet.
  repeat (solve [eauto with sound nocore]
    || apply (sound_number_packet l now _ _ (λ pn bs c, header_and_payload l _ p pn bs _ c) (λ pn h b, protect _ h b pn))
    || keep_step).
Qed.
Hint Resolve sound_build_packet : sound.
Lemma sound_levels_loop b sz now a levels : ∀ p, preserves keeps (levels_loop b sz now a p levels).
Proof. induction levels as [|l levels IH]; intros; cbn [levels_loop]; keep. Qed.
Hint Resolve sound_levels_loop : sound.
Lemma sound_build_datagram now a : preserves keeps (build_datagram now a).
Proof. unfold build_datagram. keep. Qed.
Hint Resolve sound_build_datagram : sound.
Lemma sound_pacing_blocked now : preserves keeps (pacing_blocked now).
Proof. unfold pacing_blocked, pacing_allowance. keep. Qed.
Hint Resolve sound_pacing_blocked : sound.
Lemma sound_send_loop fuel now : ∀ l, preserves keeps (send_loop fuel now l).
Proof. induction fuel as [|k IH]; intros; cbn [send_loop]; keep. Qed.
Lemma sound_close_loop f now levels : preserves keeps (close_loop f now levels).
Proof. induction levels as [|l levels IH]; intros; cbn [close_loop]; keep. Qed.
Hint Resolve sound_send_loop sound_close_loop : sound.
Lemma sound_datagrams_to_send fuel now : preserves keeps (datagrams_to_send fuel now).
Proof. unfold datagrams_to_send, build_close_datagram. keep. Qed.
Lemma sound_handle_timer now : preserves keeps (handle_timer now).
Proof. unfold handle_timer. keep. Qed.

(** Early data opens its streams under the limits remembered. *)
Lemma sound_early_streams c : sound c → preserves keeps (match tls_early_secret <$> cn_tls c, cn_remembered_parameters c with
  | Some (Some _), Some remembered => create_streams remembered
  | _, _ => mret tt
  end).
Proof.
  intros Hc. pose proof (so_remembered _ Hc) as Hr. destruct (cn_remembered_parameters c) as [q|].
  - specialize (Hr q eq_refl). keep.
  - keep.
Qed.
Hint Resolve sound_early_streams : sound.
Lemma sound_connect now : preserves keeps (connect now).
Proof. unfold connect. keep. Qed.
Hint Resolve sound_datagram_received sound_datagrams_to_send sound_handle_timer sound_connect : sound.

Lemma api_step_sound c c' : api_step c c' → sound c → sound c'.
Proof.
  intros []; revert c0;
    match goal with |- ∀ c : Connection, sound c → sound (?m c).2 => change (preserves keeps m) end;
    try solve [eauto with sound nocore].
  - unfold conn_initiate_key_update. keep.
  - unfold validate_path. keep.
  - unfold send_new_token. keep.
  - unfold open_stream. keep.
  - unfold send_stream_data. keep.
  - unfold take_events. keep.
Qed.

Lemma api_sound c c' : rtc api_step c c' → sound c → sound c'.
Proof. induction 1; [done|]. eauto using api_step_sound. Qed.

(** ** A new connection *)

Lemma new_connection_sound is_client client_config server_config config destination host_cid random_cid c :
  limits_ok (flow_limits (cf_transport_parameters config)) →
  new_Connection is_client client_config server_config config destination host_cid random_cid = Ok c →
  sound c.
Proof.
  intros Hl Hnew. unfold new_Connection in Hnew. cbv zeta in Hnew.
  apply result_bind_inv in Hnew as ([tls remembered] & Htls & H). set (c0 := mkConnection _ _ _ _ _ _ _ _ _ _ _ _ _ _ _ _ _ _ _ _ _ _ _ _ _ _ _ _ _ _ _ _ _ _ _ _ _ _ _ _) in H.
  assert (Hs : sound c0).
  { constructor; try done; [by apply ld_inv_new|by intros []|cbn; by rewrite flow_limits_for|]. cbn. intros p ->.
    destruct is_client; [|by destruct server_config]. destruct client_config as [cc|]; [|done].
    apply result_bind_inv in Htls as (e & _ & (r & Hr & [= <- ->])%result_bind_inv).
    case_test_in Hr; [|done]. destruct (client_ticket_parameters cc) as [b|]; [|done].
    apply result_bind_inv in Hr as (q & Hq & [= ->]). by eapply decoded_limits. }
  destruct is_client; [|by injection H as <-].
  pose proof (sound_install_initial_keys random_cid c0 Hs) as Hk.
  by destruct (install_initial_keys _ c0) as [[[]|e] c1]; [injection H as <-|].
Qed.

(** ** Theorem *)

End methods.

(** ** Witness: a client that sent its first Initial *)

Definition flight_client : Connection := (datagrams_to_send 63 1 sample_client).2.

Lemma toy_limits_ok : limits_ok (flow_limits (cf_transport_parameters toy_config)).
Proof. unfold limits_ok. cbn. repeat (apply Forall_cons_2; [lia|]). apply Forall_nil_2. Qed.

