(* ===== verification/ConnDelivery.v ===== *)
(** * From one connection to the other

    What [_build_packet] puts on the wire is what [_process_packet] of the peer
    handles (connection.py): the header one side builds is parsed by the
    other, the keys the two hold undo each other, and the payload parses back
    into the frames that were chosen and recorded as sent.  The file composes
    the round trips of [FramesProofs], [Packet] and [Protection] through the
    methods of [ConnSend] and [ConnRecv]. *)

From S2P Require Import Prelude Buffer Frames FramesProofs Packet TransportParameters RangeSet Streams StreamManager.
From S2P Require Import Congestion NewReno Recovery Crypto Protection Retry TlsInterface Spaces KeyUpdate ConnState.
From S2P Require Import ConnRecv CryptoStream ConnSend ConnMonotone ConnRuns ConnProofs SendSize.

(** ** Frames a connection sends

    [plain f]: [f] is a kind of frame [_pending_frames] emits, and what its
    encoder does not check holds.  What it does check follows from its
    returning. *)
Definition plain (f : Frame) : Prop :=
  match f with
  | FPadding _ | FNewConnectionId _ => False
  | FAck a => Forall (λ r, 0 <= r.1) (ack_ranges a)
  | FPathChallenge d | FPathResponse d => len d = 8
  | _ => True
  end.

Lemma encode_varint_range v bs : encode_varint v = Ok bs → varint_ok v.
Proof. by intros [? _]%encode_varint_inv. Qed.

Lemma encode_varints_range vs : ∀ bs, encode_varints vs = Ok bs → Forall varint_ok vs.
Proof.
  induction vs as [|v vs IH]; intros bs; cbn [encode_varints]; [by constructor|].
  intros (a & ?%encode_varint_range & (b & ?%IH & _)%result_bind_inv)%result_bind_inv. by constructor.
Qed.

Lemma with_length_range d bs : with_length d = Ok bs → varint_ok (len d).
Proof. unfold with_length. by intros (? & ?%encode_varint_range & _)%result_bind_inv. Qed.

Lemma encode_ack_ranges_chain ranges : ∀ low bs, encode_ack_ranges low ranges = Ok bs →
  Forall (λ r : Z * Z, 0 <= r.1) ranges → ack_chain low ranges.
Proof.
  induction ranges as [|[l h] ranges IH]; intros low bs; cbn [encode_ack_ranges ack_chain]; [done|].
  intros (a & Ha%encode_varint_range & (b & Hb%encode_varint_range & (c & Hc & _)%result_bind_inv)%result_bind_inv)%result_bind_inv.
  intros [Hl Hr]%Forall_cons. cbn in Hl. apply IH in Hc; [|done]. unfold varint_ok in *. split_and!; try lia; done.
Qed.

Lemma encode_ack_wf a bs : Ack_encode a = Ok bs → Forall (λ r, 0 <= r.1) (ack_ranges a) → wf_ack a.
Proof.
  unfold Ack_encode, wf_ack. destruct (ack_ranges a) as [|[l h] rs] eqn:E; [done|].
  case_test; [done|]. bool_cases. subst h.
  intros (hd & Hh%encode_varints_range & (tl & Ht & (e & He & _)%result_bind_inv)%result_bind_inv)%result_bind_inv [Hl Hr]%Forall_cons.
  cbn in Hl. eapply encode_ack_ranges_chain in Ht; [|done]. rewrite len_cons in Hh. rewrite !Forall_cons in Hh.
  destruct Hh as (_ & Hla & Hd & Hn & Hf & _). unfold varint_ok in *. split; [done|]. split; [done|]. split.
  - destruct (ack_ecn a) as [c|]; [|done]. apply encode_varints_range in He. rewrite !Forall_cons in He. cbn. by destruct He as (? & ? & ? & _).
  - exists l, rs. split; [done|]. split; [lia|]. split; [done|lia].
Qed.

Ltac ranges H :=
  repeat match type of H with
  | (_ ≫= _) = Ok _ => let a := fresh "a" in let Ha := fresh "Ha" in apply result_bind_inv in H as (a & Ha & H)
  end;
  repeat match goal with
  | Ha : encode_varints _ = Ok _ |- _ => apply encode_varints_range in Ha; rewrite ?Forall_cons in Ha
  | Ha : encode_varint _ = Ok _ |- _ => apply encode_varint_range in Ha
  | Ha : with_length _ = Ok _ |- _ => apply with_length_range in Ha
  end.

(** An encoder that returns was given a frame the parser reads back. *)
Lemma plain_wf f bs : plain f → encode f = Ok bs → wf_frame f.
Proof.
  destruct f; intros Hp H; cbn [encode] in H; cbn [wf_frame plain] in *; try done;
    try (unfold_encode; unfold Crypto_encode, ConnectionClose_encode in H; ranges H; tauto).
  - by eapply encode_ack_wf.
  - unfold Stream_encode in H. ranges H. destruct (st_offset s =? 0) eqn:E; cbn [negb] in *; [|ranges H; tauto].
    bool_cases. rewrite E. unfold varint_ok in *. unfold VARINT_MAX. split_and!; try tauto; lia.
  - unfold ConnectionClose_encode in H. ranges H. destruct (cc_frame_type c); ranges H; cbn; tauto.
Qed.

Lemma plain_not_padding f : plain f → is_padding f = false.
Proof. by destruct f. Qed.

Lemma separated_plain fs k : Forall plain fs → padding_separated (fs ++ [FPadding k]).
Proof.
  induction 1 as [|f fs Hf Hfs IH]; [done|]. cbn [app]. destruct fs as [|g fs]; cbn in *; rewrite (plain_not_padding f Hf); done.
Qed.

(** Zero bytes after the frames are one PADDING frame. *)
Definition padding (n : Z) : list Frame := if 0 <? n then [FPadding n] else [].

Lemma parse_padded frames encoded n :
  Forall plain frames → frames ≠ [] → mapM_result encode frames = Ok encoded →
  parse_frames (concat encoded ++ zeros n) = Ok (frames ++ padding n).
Proof.
  intros Hp Hne He.
  assert (Hwf : Forall wf_frame frames).
  { clear Hne. revert encoded He. induction Hp as [|f fs Hf Hfs IH]; intros encoded; cbn [mapM_result]; [by constructor|].
    intros (e & He & (es & Hes & _)%result_bind_inv)%result_bind_inv. constructor; [by eapply plain_wf|by eapply IH]. }
  rewrite (mapM_encode_ok _ Hwf) in He. injection He as <-. unfold padding. case_test.
  - assert (concat (frame_bytes <$> frames) ++ zeros n = frames_bytes (frames ++ [FPadding n])) as ->.
    { unfold frames_bytes. rewrite fmap_app, concat_app. cbn [fmap list_fmap concat]. rewrite app_nil_r. f_equal.
      unfold frame_bytes. cbn [frame_type_of frame_body]. rewrite zeros_succ by lia. done. }
    apply parse_frames_bytes; [|by apply separated_plain|by destruct frames].
    apply Forall_app. split; [done|]. constructor; [cbn; lia|constructor].
  - rewrite (app_nil_r frames). replace (zeros n) with (@nil byte) by (unfold zeros; by replace (Z.to_nat n) with 0%nat by lia).
    rewrite app_nil_r. apply parse_frames_bytes; [done| |done]. clear Hne.
    induction Hp as [|f fs Hf Hfs IH]; [done|]. destruct fs as [|g fs]; [done|]. apply Forall_cons in Hwf as [_ Hwf].
    split; [by rewrite (plain_not_padding f Hf)|by apply IH].
Qed.

(** ** What packets are built from *)

Section choice.
Context `{HP : Primitives} `{HT : Tls}.

(** [gives P m Q]: from a state satisfying [P], if [m] returns, the state
    satisfies [P] again and the value [Q]. *)
Definition gives {S A} (P : S → Prop) (m : M S A) (Q : A → Prop) : Prop :=
  ∀ s a s', P s → m s = (Ok a, s') → P s' ∧ Q a.

Lemma gives_bind {S A B} (P : S → Prop) (m : M S A) (k : A → M S B) Q R :
  gives P m Q → (∀ a, Q a → gives P (k a) R) → gives P (m ≫= k) R.
Proof. intros Hm Hk s b s' Hs (a & s1 & E & H)%M_bind_ok_inv. destruct (Hm _ _ _ Hs E). eapply Hk; eauto. Qed.
Lemma gives_ret {S A} (P : S → Prop) (a : A) (Q : A → Prop) : Q a → gives P (mret a) Q.
Proof. by intros H s b s' Hs [= <- <-]. Qed.
Lemma gives_get {S} (P : S → Prop) : gives P get P.
Proof. by intros s a s' Hs [= <- <-]. Qed.
Lemma gives_lift {S A} (P : S → Prop) (r : result A) : gives P (lift r) (λ a, r = Ok a).
Proof. by intros s a s' Hs [= -> <-]. Qed.
Lemma gives_modify {S} (P : S → Prop) f : (∀ s, P s → P (f s)) → gives P (modify f) (λ _, True).
Proof. intros H s a s' Hs [= <- <-]. split; [by apply H|done]. Qed.

(** The frames queued are plain and the packet numbers received are numbers. *)
Record orderly (c : Connection) : Prop := {
  od_control : Forall plain (cn_control_frames c);
  od_received : ∀ level, Forall (λ r : Z * Z, 0 <= r.1) (ps_received (space_at level c)) }.

Lemma orderly_space level s c :
  ps_received s = ps_received (space_at level c) → orderly c → orderly (set_space_at level s c).
Proof.
  intros E []. split; [done|]. intros l. specialize (od_received0 l). unfold space_at, set_space_at in *. cbn.
  destruct l, level; cbn in *; congruence.
Qed.

Lemma orderly_in_crypto {A} level (m : M CryptoState A) : gives orderly (in_crypto level m) (λ _, True).
Proof.
  intros c a c' Hc. unfold in_crypto, zoom. destruct (m _) as [r k]. intros [= -> <-]. split; [|done].
  by apply orderly_space.
Qed.

Lemma orderly_in_streams {A} (m : M StreamManager A) : gives orderly (in_streams m) (λ _, True).
Proof.
  intros c a c' Hc. unfold in_streams. destruct (cn_streams c) as [s|]; [|done]. destruct (m s) as [r s'].
  intros [= -> <-]. split; [|done]. destruct Hc. by split.
Qed.

Lemma orderly_modify f : (∀ c, cn_control_frames (f c) = cn_control_frames c) →
  (∀ c, cn_spaces (f c) = cn_spaces c) → gives orderly (modify f) (λ _, True).
Proof.
  intros H1 H2. apply gives_modify. intros c []. split; [by rewrite H1|]. intros l. unfold space_at. rewrite H2. apply od_received0.
Qed.

Lemma Forall_snoc {A} (P : A → Prop) l x : Forall P l → P x → Forall P (l ++ [x]).
Proof. intros. apply Forall_app. by split; [|constructor]. Qed.

Lemma choose_ack_plain level room : gives orderly (choose_ack level room) (λ r, Forall plain r.1).
Proof.
  unfold choose_ack. eapply gives_bind; [apply gives_get|]. intros c Hc.
  destruct (build_ack _) as [ack|] eqn:Ea; [|by apply gives_ret; constructor].
  eapply gives_bind; [apply gives_lift|]. intros e _. case_test; [|by apply gives_ret; constructor].
  eapply gives_bind; [apply gives_modify; intros c' Hc'; by apply orderly_space|].
  intros _ _. apply gives_ret. cbn. constructor; [|constructor]. cbn [plain].
  unfold build_ack in Ea. case_test_in Ea; [discriminate|]. injection Ea as <-. cbn [ack_ranges].
  apply Forall_fmap. apply Forall_reverse, Forall_drop. apply (od_received _ Hc level).
Qed.

Lemma streams_loop_plain room ids : ∀ used chosen, Forall plain chosen →
  gives orderly (streams_loop room used chosen ids) (λ r, Forall plain r.1).
Proof.
  induction ids as [|i ids IH]; intros used chosen Hch; cbn [streams_loop]; [by apply gives_ret|].
  cbv zeta. case_test; [by apply gives_ret|]. eapply gives_bind; [apply orderly_in_streams|]. intros [f|] _; [|by apply IH].
  eapply gives_bind; [apply gives_lift|]. intros e _. apply IH. by apply Forall_snoc.
Qed.

Lemma control_loop_plain room queue : ∀ used chosen, Forall plain queue → Forall plain chosen →
  gives orderly (control_loop room used chosen queue) (λ r, Forall plain r.1).
Proof.
  induction queue as [|f queue IH]; intros used chosen Hq Hch; cbn [control_loop]; [by apply gives_ret|].
  case_test; [|by apply gives_ret]. eapply gives_bind; [apply gives_lift|]. intros e _.
  case_test; [by apply gives_ret|]. apply Forall_cons in Hq as [Hf Hq].
  eapply gives_bind; [apply gives_modify; intros c []; by split|]. intros _ _. apply IH; [done|]. by apply Forall_snoc.
Qed.

Lemma application_frames_plain room : gives orderly (application_frames room) (λ r, Forall plain r.1).
Proof.
  unfold application_frames. eapply gives_bind; [apply gives_get|]. intros c Hc.
  destruct (if cn_handshake_done_pending c then _ else _) as [chosen used] eqn:Ed.
  assert (Hd : Forall plain chosen) by (destruct (cn_handshake_done_pending c); injection Ed as <- <-; by repeat constructor).
  eapply gives_bind; [by apply orderly_modify|]. intros _ _. 
  eapply gives_bind; [apply control_loop_plain; [by destruct Hc|done]|]. intros [chosen' used'] Hch. cbn in Hch.
  destruct (cn_streams c); [by apply streams_loop_plain|by apply gives_ret].
Qed.

Lemma probe_filler_plain room l f : probe_filler room l = Ok f → plain f.
Proof.
  induction l as [|x l IH]; cbn [probe_filler]; [by intros [= <-]|].
  intros (e & _ & H)%result_bind_inv. case_test_in H; [by injection H as <-|by apply IH].
Qed.

(** Everything [_pending_frames] chooses is a plain frame. *)
Lemma pending_frames_plain level room ack_only : gives orderly (pending_frames level room ack_only) (λ r, Forall plain r.1).
Proof.
  unfold pending_frames. eapply gives_bind; [apply choose_ack_plain|]. intros [chosen used] Hch. cbn in Hch.
  destruct ack_only; [by apply gives_ret|]. cbv zeta. eapply gives_bind; [apply orderly_in_crypto|]. intros o _.
  eapply gives_bind with (Q := λ r, Forall plain r.1).
  { destruct o as [f|]; [|by apply gives_ret]. eapply gives_bind; [apply gives_lift|]. intros e _. apply gives_ret. by apply Forall_snoc. }
  intros [chosen1 used1] H1. cbn in H1. eapply gives_bind with (Q := λ r, Forall plain r.1).
  { case_decide; [|by apply gives_ret]. eapply gives_bind; [apply application_frames_plain|]. intros [app au] Ha.
    apply gives_ret. by apply Forall_app. }
  intros [chosen2 used2] H2. cbn in H2. eapply gives_bind; [apply gives_get|]. intros c _. case_test; [by apply gives_ret|].
  eapply gives_bind with (Q := λ r, Forall plain r.1).
  { case_test; [by apply gives_ret|]. eapply gives_bind; [apply gives_lift|]. intros f Hf%probe_filler_plain.
    eapply gives_bind; [apply gives_lift|]. intros e _. apply gives_ret. by apply Forall_snoc. }
  intros [chosen3 used3] H3. eapply gives_bind; [by apply orderly_modify|]. intros _ _. by apply gives_ret.
Qed.
End choice.

(** ** What choosing frames leaves alone *)

Section delivery.
Context `{HP : Primitives} `{HT : Tls} `{HL : !PrimitiveLaws HP}.

(** Choosing frames touches nothing a header, the keys or loss detection
    depend on. *)
Record untouched (c c' : Connection) : Prop := {
  ut_client : cn_is_client c' = cn_is_client c;
  ut_config : cn_config c' = cn_config c;
  ut_peer : cn_peer_cid c' = cn_peer_cid c;
  ut_host : cn_host_cid c' = cn_host_cid c;
  ut_retry : cn_retry_token c' = cn_retry_token c;
  ut_recovery : cn_recovery c' = cn_recovery c;
  ut_keys : ∀ level, ps_keys (space_at level c') = ps_keys (space_at level c);
  ut_next : ∀ level, next_number level c' = next_number level c }.

#[local] Instance untouched_preorder : PreOrder untouched.
Proof. split; [by split|]. intros a b c [] []. split; intros; etransitivity; eauto. Qed.

Lemma untouched_space level s c :
  ps_keys s = ps_keys (space_at level c) → ps_next_packet_number s = next_number level c → untouched c (set_space_at level s c).
Proof. intros H1 H2. split; try done; intros l; unfold next_number; by destruct l, level. Qed.

Lemma untouched_in_crypto {A} level (m : M CryptoState A) : preserves untouched (in_crypto level m).
Proof. intros c. unfold in_crypto, zoom. destruct (m _). by apply untouched_space. Qed.
Lemma untouched_in_streams {A} (m : M StreamManager A) : preserves untouched (in_streams m).
Proof. intros c. unfold in_streams. destruct (cn_streams c); [|reflexivity]. by destruct (m _). Qed.
Hint Resolve untouched_in_crypto untouched_in_streams : advance.
Hint Extern 5 (untouched _ (set_space_at _ _ _)) => by apply untouched_space : advance.
Hint Extern 6 (untouched _ _) => by split : advance.
Lemma untouched_streams_loop room ids : ∀ used chosen, preserves untouched (streams_loop room used chosen ids).
Proof. induction ids as [|i ids IH]; intros; cbn [streams_loop]; preserve. Qed.
Hint Resolve untouched_streams_loop : advance.
Lemma untouched_pending_frames l r a : preserves untouched (pending_frames l r a).
Proof. unfold pending_frames, choose_ack, application_frames, modify_space. preserve. Qed.

(** ** The header both sides see *)

Lemma encode_packet_number_bytes n o pn : encode_packet_number n o = Ok pn →
  1 <= len pn <= 4 ∧ len pn = packet_number_bytes n o ∧ pn = be_bytes (length pn) n ∧ 0 <= n.
Proof.
  intros H. pose proof (packet_number_len _ _ _ H) as Hl. unfold encode_packet_number in H.
  apply result_bind_inv in H as (l & [Hn El]%to_bytes_inv & H).
  assert (pn = last_bytes (packet_number_bytes n o) (be_bytes 8 n)) as -> by congruence. clear H.
  assert (1 <= packet_number_bytes n o <= 4) by (unfold packet_number_bytes; lia).
  rewrite last_bytes_be, len_be_bytes in Hl by lia.
  rewrite last_bytes_be, len_be_bytes by lia. split; [done|]. split; [lia|]. split; [|lia]. f_equal. pose proof (len_be_bytes (Z.to_nat (packet_number_bytes n o)) n) as E.
  unfold len in E. lia.
Qed.

Lemma build_long_header_range t pl n pnl bs : build_long_header t pl n pnl = Ok bs →
  varint_ok (pnl + pl) ∧ 0 <= n < 2 ^ 64.
Proof.
  unfold build_long_header. cbv zeta. intros H. do 5 apply result_bind_inv in H as (? & _ & H).
  apply result_bind_inv in H as (? & ?%encode_varint_range & H).
  by apply result_bind_inv in H as (? & [? _]%to_bytes_inv & _).
Qed.

Lemma long_template_wf level zero_rtt c : sendable c → cf_version (cn_config c) = QUIC_V1 →
  (level = L_ONE_RTT ↔ zero_rtt = true) → wf_template (long_template level zero_rtt c).
Proof.
  intros [] Hv Hz. unfold wf_template, long_template, MAX_CID_LENGTH. cbn. rewrite Hv.
  split_and!; try done.
  - destruct zero_rtt; [done|]. by destruct level.
  - assert (len (initial_token level c) < 2 ^ 29); [|unfold VARINT_MAX; lia].
    destruct level; [done|reflexivity..].
  - intros Hni. unfold initial_token. rewrite decide_False; [done|]. intros ->. destruct zero_rtt; [|done].
    by destruct Hz as [_ Hz]; specialize (Hz eq_refl).
Qed.

(** Whether [_build_packet] writes a short header. *)
Definition short (level : EncryptionLevel) (zero_rtt : bool) : bool := bool_decide (level = L_ONE_RTT) && negb zero_rtt.

(** The header ends with the truncated number its first byte announces; the
    payload may have grown by padding. *)
Lemma header_and_payload_shape level zero_rtt pad n pn payload c header payload' :
  sendable c → cf_version (cn_config c) = QUIC_V1 → (zero_rtt = true → level = L_ONE_RTT) →
  1 <= len pn <= 4 → pn = be_bytes (length pn) n →
  header_and_payload level zero_rtt pad n pn payload c = Ok (header, payload') →
  ∃ j x mid, 0 <= j ∧ payload' = payload ++ zeros j ∧ header = x :: mid ++ pn ∧ pn_length_of x = len pn ∧
    if short level zero_rtt
    then x = bZ (short_header_first_byte (ps_keys (space_at level c)) (len pn)) ∧ mid = cn_peer_cid c
    else let t := long_template level zero_rtt c in
         wf_template t ∧ x = bZ (long_first (lt_packet_type t) (len pn)) ∧
         mid = long_header_tail t (len pn + (len payload' + AEAD_TAG_LENGTH)) ∧
         0 <= len pn + (len payload' + AEAD_TAG_LENGTH) <= VARINT_MAX.
Proof.
  intros Hs Hv Hz Hpn Hbe. unfold header_and_payload. cbv zeta. fold (short level zero_rtt).
  destruct (short level zero_rtt) eqn:Esh.
  { intros (first & [Hr ->]%byte_literal_inv & [= <- <-])%result_bind_inv.
    destruct (short_first_byte (ps_keys (space_at level c)) (len pn) Hpn) as (_ & Hp & _).
    exists 0, (bZ (short_header_first_byte (ps_keys (space_at level c)) (len pn))), (cn_peer_cid c).
    split; [done|]. split; [by rewrite app_nil_r|]. done. }
  assert (Hw : wf_template (long_template level zero_rtt c)).
  { apply long_template_wf; [done..|]. split; [|done]. intros ->. unfold short in Esh. rewrite bool_decide_true in Esh by done. by destruct zero_rtt. }
  intros (pl & Hpl & (h & Hh & [= <- <-])%result_bind_inv)%result_bind_inv.
  assert (∃ j, 0 <= j ∧ pl = payload ++ zeros j) as (j & Hj & ->).
  { case_test_in Hpl; [injection Hpl as <-; exists 0; split; [done|by rewrite app_nil_r]|].
    apply result_bind_inv in Hpl as (trial & _ & [= <-]). case_test; [eexists; split; [|done]; lia|].
    exists 0. split; [done|by rewrite app_nil_r]. }
  pose proof (build_long_header_range _ _ _ _ _ Hh) as [Hvr Hn]. pose proof (len_nonneg (payload ++ zeros j)).
  unfold varint_ok, AEAD_TAG_LENGTH in *. rewrite build_long_header_ok in Hh by (done || lia). injection Hh as <-.
  rewrite Z_to_nat_len, <- Hbe. set (t := long_template level zero_rtt c) in *.
  exists j, (bZ (long_first (lt_packet_type t) (len pn))), (long_header_tail t (len pn + (len (payload ++ zeros j) + 16))).
  split; [done|]. split; [done|]. split; [done|]. split; [|done].
  destruct (long_first_byte (lt_packet_type t) (len pn) Hpn) as (_ & Hr & _ & _ & _ & Hl).
  unfold pn_length_of, PN_LENGTH_BITS. rewrite Zb_bZ_small by done. lia.
Qed.

(** ** Finding the packet *)

(** What a first packet does to an endpoint that has not heard of its peer: a
    server creates its TLS state and Initial keys, a client takes over the
    server's connection ID. *)
Definition greet (level : EncryptionLevel) (dcid scid : bytes) : M Connection unit :=
  c ← get;
  if negb (cn_is_client c) && bool_decide (level = L_INITIAL) then adopt_client_initial dcid scid
  else if cn_is_client c && negb (cn_peer_cid_confirmed c) then
    _ ← modify (set_cn_peer_cid scid); modify (set_cn_peer_cid_confirmed true)
  else mret tt.

Lemma flip_has_bit x m k : 5 <= k → has_bit (Zb (flip x m)) (2 ^ k) = has_bit (Zb x) (2 ^ k).
Proof. intros. rewrite !has_bit_testbit by lia. by apply flip_high. Qed.

(** Header protection leaves the form, the fixed bit and the type alone. *)
Lemma flip_first t pnl m : 1 <= pnl <= 4 → let y := flip (bZ (long_first t pnl)) m in
  has_bit (Zb y) HEADER_FORM_LONG = true ∧ has_bit (Zb y) FIXED_BIT = true ∧
  PacketType_of (Z.land (Zb y) 0x30 ≫ 4) = Ok t.
Proof.
  intros Hp. destruct (long_first_byte t pnl Hp) as (_ & Hr & H1 & H2 & H3 & _). cbv zeta.
  set (x := bZ (long_first t pnl)). assert (Hx : Zb x = long_first t pnl) by (by apply Zb_bZ_small).
  rewrite <- Hx in H1, H2, H3. split; [|split].
  - change HEADER_FORM_LONG with (2 ^ 7) in *. by rewrite flip_has_bit.
  - change FIXED_BIT with (2 ^ 6) in *. by rewrite flip_has_bit.
  - rewrite <- H3. f_equal. apply Z.bits_inj'. intros k Hk. rewrite !Z.shiftr_spec, !Z.land_spec by done.
    f_equal. apply flip_long; [done|lia].
Qed.

Lemma flip_short first m : Zb first < 128 → has_bit (Zb first) FIXED_BIT = true →
  has_bit (Zb (flip first m)) HEADER_FORM_LONG = false ∧ has_bit (Zb (flip first m)) FIXED_BIT = true.
Proof.
  intros Hf H. change HEADER_FORM_LONG with (2 ^ 7). change FIXED_BIT with (2 ^ 6) in *. rewrite !flip_has_bit by done.
  split; [|done]. rewrite has_bit_testbit by done. apply Z.bits_above_log2; [apply Zb_range|].
  pose proof (Zb_range first). destruct (Z.eq_dec (Zb first) 0) as [->|]; [done|]. apply Z.log2_lt_pow2; [lia|]. done.
Qed.

Lemma long_version t length y rest : wf_template t →
  from_bytes (slice 1 VERSION_END (y :: long_header_tail t length ++ rest)) = QUIC_V1.
Proof.
  intros (_ & Hv & _). unfold long_header_tail. rewrite Hv, <- app_assoc.
  reflexivity.
Qed.

Lemma long_not_special t length y rest : wf_template t → PacketType_of (Z.land (Zb y) 0x30 ≫ 4) = Ok (lt_packet_type t) →
  let data := y :: long_header_tail t length ++ rest in is_version_negotiation data = false ∧ is_retry data = false.
Proof.
  intros Hw Ht. cbv zeta. unfold is_version_negotiation, is_retry. rewrite long_version by done. cbn [first_byte]. rewrite Ht.
  destruct Hw as [Hr _]. split; [by case_test|]. case_test; [done|]. cbn. by destruct (lt_packet_type t).
Qed.

(** The level a packet type belongs to. *)
Lemma locate_long level zero_rtt c y length packet rest now r r0 :
  let t := long_template level zero_rtt c in
  wf_template t → (zero_rtt = true → level = L_ONE_RTT) → (level = L_ONE_RTT → zero_rtt = true) →
  has_bit (Zb y) HEADER_FORM_LONG = true → has_bit (Zb y) FIXED_BIT = true →
  PacketType_of (Z.land (Zb y) 0x30 ≫ 4) = Ok (lt_packet_type t) →
  0 <= length <= VARINT_MAX → len packet = length →
  (zero_rtt = true → cn_is_client r = false) → greet level (cn_peer_cid c) (cn_host_cid c) r = (Ok tt, r0) →
  let p := y :: long_header_tail t length ++ packet in
  locate_packet (p ++ rest) now r = (Ok (Some (mkLocated level (1 + len (long_header_tail t length)) p (len p))), r0).
Proof.
  intros t Hw Hz1 Hz2 H1 H2 H3 Hl Hlen Hrole Hg p. unfold p.
  replace ((y :: long_header_tail t length ++ packet) ++ rest) with (y :: long_header_tail t length ++ (packet ++ rest)) by (by app_norm).
  destruct (long_not_special t length y (packet ++ rest) Hw H3) as [Hvn Hrt].
  unfold locate_packet. erewrite M_bind_ok by done. cbn [first_byte]. change 0x80 with HEADER_FORM_LONG. rewrite H1. cbn [negb].
  rewrite Hvn, Hrt, !andb_false_r.
  assert (Hpar : parse_long_header (y :: long_header_tail t length ++ (packet ++ rest)) =
            Ok (mkLongHeader (lt_packet_type t) (lt_version t) (lt_destination_cid t) (lt_source_cid t) (lt_token t) length
                  (len (y :: long_header_tail t length)))).
  { unfold parse_long_header. rewrite new_buffer_mkbuf.
    change (y :: long_header_tail t length ++ (packet ++ rest)) with ((y :: long_header_tail t length) ++ (packet ++ rest)).
    by rewrite (read_long_header_first t length y (packet ++ rest)). }
  erewrite M_bind_ok by (unfold lift; by rewrite Hpar). cbn [lh_packet_type lh_destination_cid lh_source_cid lh_pn_offset lh_length].
  assert (Hty : lt_packet_type t = if zero_rtt then ZERO_RTT else LEVEL_TO_PACKET_TYPE level) by done.
  assert (Hlv : match lt_packet_type t with INITIAL => Some L_INITIAL | HANDSHAKE => Some L_HANDSHAKE | ZERO_RTT => Some L_ONE_RTT
                | RETRY => None end = Some level).
  { rewrite Hty. destruct zero_rtt; [by rewrite (Hz1 eq_refl)|]. destruct level; [done|done|by specialize (Hz2 eq_refl)]. }
  rewrite Hlv. replace (cn_is_client r && bool_decide (lt_packet_type t = ZERO_RTT)) with false.
  2: { rewrite Hty. symmetry. destruct zero_rtt; [by rewrite (Hrole eq_refl)|]. destruct level; by rewrite ?andb_false_r. }
  unfold greet in Hg. erewrite M_bind_ok in Hg by done. change (lt_destination_cid t) with (cn_peer_cid c).
  change (lt_source_cid t) with (cn_host_cid c). erewrite M_bind_ok by exact Hg. unfold mret, M_ret. do 4 f_equal.
  - by rewrite len_cons.
  - rewrite <- Hlen, <- len_app. change (y :: long_header_tail t (len packet) ++ packet ++ rest) with
      ((y :: long_header_tail t (len packet)) ++ packet ++ rest). rewrite app_assoc. unfold slice. rewrite drop_0, Z.sub_0_r, Z_to_nat_len.
    by rewrite take_app_length.
  - rewrite <- Hlen, len_cons, len_cons, len_app. lia.
Qed.

Lemma locate_short first m cid packet now r : Zb first < 128 → has_bit (Zb first) FIXED_BIT = true →
  len (cn_host_cid r) = len cid →
  let p := flip first m :: cid ++ packet in
  locate_packet p now r = (Ok (Some (mkLocated L_ONE_RTT (1 + len cid) p (len p))), r).
Proof.
  intros Hf Hb Hc p. destruct (flip_short first m Hf Hb) as [H1 H2]. unfold locate_packet. erewrite M_bind_ok by done.
  unfold p at 1. cbn [first_byte]. change 0x80 with HEADER_FORM_LONG. rewrite H1. cbn [negb].
  assert (Hpar : parse_short_header p (len (cn_host_cid r)) = Ok (mkShortHeader cid (1 + len cid))).
  { unfold parse_short_header, read_short_header, p. rewrite new_buffer_mkbuf, Hc. erewrite M_bind_ok by apply pull_uint8_cons.
    rewrite H1, H2. cbn [negb]. erewrite M_bind_ok by (by apply pull_bytes_app). unfold mbind, M_bind, gets, mret, M_ret. cbn.
    by rewrite len_cons. }
  erewrite M_bind_ok by (unfold lift; by rewrite Hpar). done.
Qed.

(** ** Opening it *)

(** The receiver can open packet [n], which it has not seen: it has the keys,
    its largest number is close enough to complete the truncated one, and for a
    1-RTT packet it is past the handshake and in the sender's key phase. *)
Record ready (level : EncryptionLevel) (zero_rtt phase : bool) (n : Z) (keys : PacketKeys) (r : Connection) : Prop := {
  rd_keys : (if zero_rtt then ks_recv_early (ps_keys (space_at level r)) else ks_recv (ps_keys (space_at level r))) = Some keys;
  rd_live : ps_discarded (space_at level r) = false;
  rd_fresh : covers n (n + 1) (ps_received (space_at level r)) = false;
  rd_largest : -1 <= ps_largest_received (space_at level r);
  rd_window : let w := 2 ^ (8 * packet_number_bytes n None - 1) in
    ps_largest_received (space_at level r) + 1 - w < n <= ps_largest_received (space_at level r) + 1 + w;
  rd_phase : short level zero_rtt = true → cn_state r ≠ HANDSHAKING ∧ ks_key_phase (ps_keys (space_at level r)) = phase }.

(** The packet counts as one of the current key phase. *)
Definition opened (level : EncryptionLevel) (zero_rtt : bool) (n : Z) (r : Connection) : Connection :=
  if short level zero_rtt then
    (modify_space level (λ s, set_keys (
       let k := ps_keys s in
       if match ks_phase_first k with None => true | Some first => n <? first end then set_phase_first (Some n) k else k) s) r).2
  else r.

Lemma set_same_keys level r : set_space_at level (set_keys (ps_keys (space_at level r)) (space_at level r)) r = r.
Proof. destruct r as [? ? ? ? ? ? ? ? ? ? ? ? ? ? ? ? ? ? ? ? [[] [] []]]. by destruct level. Qed.

Lemma decrypt_ready level zero_rtt phase n keys r p off now u payload :
  ready level zero_rtt phase n keys r → (zero_rtt = true → level = L_ONE_RTT) →
  remove_header_protection keys p off (ps_largest_received (space_at level r)) = Ok u → decrypt_payload keys u = Ok payload →
  uh_packet_number u = n → (short level zero_rtt = true → uh_key_phase u = phase) →
  conn_decrypt level p off now zero_rtt r = (Ok (Some (n, payload)), opened level zero_rtt n r).
Proof.
  intros [Hk _ _ _ _ Hph] Hz Hu Hd Hn Hph'. unfold conn_decrypt. erewrite M_bind_ok by done. unfold in_keys, zoom, decrypt.
  erewrite M_bind_ok by done. unfold opened. destruct zero_rtt.
  { rewrite Hk. unfold unprotect, lift. rewrite Hu. cbn [mbind result_bind]. rewrite Hd. cbn [mbind result_bind catch_undecryptable].
    unfold short. rewrite andb_false_r, Hn, set_same_keys. done. }
  rewrite Hk. unfold open_packet. rewrite Hu. cbn [mbind result_bind].
  assert (Hrk : receive_keys (ld_handshake_confirmed (cn_recovery r)) level u now (ps_keys (space_at level r)) = Ok (keys, false)).
  { unfold receive_keys. rewrite Hk. destruct (decide (level = L_ONE_RTT)) as [->|Hne]; [|by rewrite bool_decide_true].
    destruct (Hph eq_refl) as [_ E]. rewrite (Hph' eq_refl), E, Bool.eqb_reflx. by rewrite orb_true_r. }
  rewrite Hrk. cbn [mbind result_bind]. rewrite Hd. cbn [mbind result_bind catch_undecryptable].
  erewrite (M_bind_ok (lift _)) by reflexivity. cbv beta iota. erewrite M_bind_ok by done. rewrite Hn. unfold short.
  destruct (decide (level = L_ONE_RTT)) as [->|Hne].
  - rewrite bool_decide_true by done. cbn [negb andb]. destruct (Hph eq_refl) as [_ E].
    erewrite M_bind_ok by done. unfold mret, M_ret, note_key_phase. rewrite (Hph' eq_refl), E, Bool.eqb_reflx, Hn. done.
  - rewrite bool_decide_false by done. cbn [andb]. erewrite M_bind_ok by done. unfold mret, M_ret. by rewrite set_same_keys.
Qed.

(** ** Handling it *)

(** [_handle_payload] on frames. *)
Definition handle_frames (level : EncryptionLevel) (frames : list Frame) (now : Q) (zero_rtt : bool) : M Connection unit :=
  each (λ frame,
    if zero_rtt && barred_in_zero_rtt frame then
      raise (connection_error PROTOCOL_VIOLATION "frame not permitted in a 0-RTT packet")
    else
      _ ← when (is_ack_eliciting frame) (modify_space level (set_ack_eliciting_pending true));
      handle_frame level frame now) frames.

(** The peer's frames reach this endpoint in packet [n]: no bytes involved. *)
Definition deliver (level : EncryptionLevel) (n : Z) (frames : list Frame) (now : Q) (ecn : Z) (zero_rtt : bool)
    : M Connection unit :=
  c ← get;
  let larger := n >? ps_largest_received (space_at level c) in
  _ ← modify_space level (record_packet n ecn);
  _ ← when larger (modify (λ c, set_cn_largest_time_received (d_set level now (cn_largest_time_received c)) c));
  _ ← when (negb (cn_is_client c) && bool_decide (level = L_HANDSHAKE))
        (_ ← conn_discard_space L_INITIAL; modify (set_cn_address_validated true));
  handle_frames level frames now zero_rtt.

Lemma M_bind_ext {S A B} (m : M S A) (k k' : A → M S B) s : (∀ a s, k a s = k' a s) → (m ≫= k) s = (m ≫= k') s.
Proof. intros H. unfold mbind, M_bind. destruct (m s) as [[a|e] s']; [apply H|done]. Qed.

Lemma each_padding {S A} (f : A → M S unit) l k : (∀ s, f k s = (Ok tt, s)) → ∀ s, each f (l ++ [k]) s = each f l s.
Proof.
  intros Hf. induction l as [|x l IH]; intros s; cbn [app each].
  - erewrite M_bind_ok by apply Hf. done.
  - unfold mbind, M_bind. destruct (f x s) as [[[]|e] s']; [apply IH|done].
Qed.

Lemma handle_padding level frames n now zero_rtt c :
  handle_frames level (frames ++ padding n) now zero_rtt c = handle_frames level frames now zero_rtt c.
Proof.
  unfold padding. destruct (0 <? n).
  - apply each_padding. intros s. by destruct zero_rtt.
  - rewrite (app_nil_r frames). reflexivity.
Qed.

Lemma accept_deliver level n payload now ecn zero_rtt frames j c :
  parse_frames payload = Ok (frames ++ padding j) →
  accept_packet level n payload now ecn zero_rtt c = deliver level n frames now ecn zero_rtt c.
Proof.
  intros Hp. unfold accept_packet, deliver. do 4 (apply M_bind_ext; intros ? ?).
  unfold handle_payload. erewrite M_bind_ok; [exact (handle_padding level frames j now zero_rtt _)|]. unfold catch, lift. by rewrite Hp.
Qed.

Lemma process_located level zero_rtt phase n keys p off data now ecn r r0 u payload frames j :
  locate_packet data now r = (Ok (Some (mkLocated level off p (len p))), r0) →
  bool_decide (level = L_ONE_RTT) && has_bit (first_byte p) 0x80 = zero_rtt → (zero_rtt = true → level = L_ONE_RTT) →
  ready level zero_rtt phase n keys r0 →
  remove_header_protection keys p off (ps_largest_received (space_at level r0)) = Ok u → decrypt_payload keys u = Ok payload →
  uh_packet_number u = n → (short level zero_rtt = true → uh_key_phase u = phase) →
  parse_frames payload = Ok (frames ++ padding j) →
  process_packet data now ecn r = (_ ← deliver level n frames now ecn zero_rtt; mret (len p)) (opened level zero_rtt n r0).
Proof.
  intros Hloc Hzr Hz Hrd Hu Hd Hn Hph Hpar. unfold process_packet.
  erewrite M_bind_ok by (unfold catch; by rewrite Hloc). cbv beta iota zeta. cbn [lc_level lc_packet lc_pn_offset lc_end].
  rewrite Hzr. erewrite M_bind_ok by done. rewrite (rd_live _ _ _ _ _ _ Hrd), (rd_keys _ _ _ _ _ _ Hrd).
  rewrite (bool_decide_false (Some keys = None)) by done. cbn [orb].
  replace (bool_decide (level = L_ONE_RTT) && negb zero_rtt && bool_decide (cn_state r0 = HANDSHAKING)) with false.
  2: { symmetry. fold (short level zero_rtt). destruct (short level zero_rtt) eqn:E; [|done].
       destruct (rd_phase _ _ _ _ _ _ Hrd E) as [Hst _]. by apply bool_decide_false. }
  erewrite M_bind_ok by (by eapply decrypt_ready). cbv beta iota. erewrite M_bind_ok by done.
  assert (Hrec : ps_received (space_at level (opened level zero_rtt n r0)) = ps_received (space_at level r0)).
  { unfold opened. destruct (short level zero_rtt); [|done]. by destruct level. }
  rewrite Hrec, (rd_fresh _ _ _ _ _ _ Hrd). unfold mbind, M_bind. by rewrite (accept_deliver _ _ _ _ _ _ _ _ _ Hpar).
Qed.

Lemma short_first_range k pnl : 1 <= pnl <= 4 → let x := bZ (short_header_first_byte k pnl) in Zb x < 128 ∧ has_bit (Zb x) FIXED_BIT = true.
Proof.
  intros H. assert (pnl = 1 ∨ pnl = 2 ∨ pnl = 3 ∨ pnl = 4) as Hc by lia. unfold short_header_first_byte.
  destruct (ks_key_phase k); destruct Hc as [->|[->|[->| ->]]]; split; reflexivity.
Qed.

(** The first meeting: a long header may be the first the peer hears of us. *)
Definition meet (level : EncryptionLevel) (zero_rtt : bool) (dcid scid : bytes) : M Connection unit :=
  if short level zero_rtt then mret tt else greet level dcid scid.

(** The packet on the wire, as the receiver finds and opens it. *)
Lemma sealed_packet level zero_rtt pad c n pn payload header payload' keys p rest now r r0 :
  sendable c → cf_version (cn_config c) = QUIC_V1 → (zero_rtt = true → level = L_ONE_RTT) → (zero_rtt = true → cn_is_client r = false) →
  encode_packet_number n None = Ok pn → n <= MAX_PACKET_NUMBER → MINIMUM_PAYLOAD <= len payload → len payload < 2 ^ 29 → 0 <= pad < 2 ^ 29 →
  header_and_payload level zero_rtt pad n pn payload c = Ok (header, payload') → keys_ok keys → protect keys header payload' n = Ok p →
  len (cn_host_cid r) = len (cn_peer_cid c) → (short level zero_rtt = true → rest = []) →
  meet level zero_rtt (cn_peer_cid c) (cn_host_cid c) r = (Ok tt, r0) →
  ready level zero_rtt (ks_key_phase (ps_keys (space_at level c))) n keys r0 →
  ∃ j off u, 0 <= j ∧ payload' = payload ++ zeros j ∧
    locate_packet (p ++ rest) now r = (Ok (Some (mkLocated level off p (len p))), r0) ∧
    bool_decide (level = L_ONE_RTT) && has_bit (first_byte p) 0x80 = zero_rtt ∧
    remove_header_protection keys p off (ps_largest_received (space_at level r0)) = Ok u ∧
    decrypt_payload keys u = Ok payload' ∧ uh_packet_number u = n ∧
    (short level zero_rtt = true → uh_key_phase u = ks_key_phase (ps_keys (space_at level c))).
Proof.
  intros Hs Hv Hz Hsrv Hpn Hmax Hmin Hlen Hpad Hh Hk Hp Hcid Hrest Hm Hrd.
  pose proof (encode_packet_number_bytes _ _ _ Hpn) as (Hl & Hlpn & Hbe & Hn0).
  pose proof (header_and_payload_size level zero_rtt pad n pn payload c header payload' Hs Hl ltac:(lia) Hpad Hh) as Hsz.
  apply header_and_payload_shape in Hh as (j & x & mid & Hj & Hp' & Hhd & Hx & Hshape); [|done..].
  pose proof (len_nonneg (initial_token L_INITIAL c)). pose proof (sd_token _ Hs).
  assert (Hbig : len header + len payload' < 2 ^ 30 + 100).
  { unfold token_room, AEAD_TAG_LENGTH in Hsz. case_decide; lia. }
  pose proof (len_nonneg header). pose proof (len_nonneg payload'). pose proof (len_zeros j).
  assert (MINIMUM_PAYLOAD <= len payload') by (rewrite Hp', len_app; pose proof (len_nonneg (zeros j)); lia).
  change MINIMUM_PAYLOAD with 4 in *. pose proof (rd_window _ _ _ _ _ _ Hrd) as Hw. cbv zeta in Hw. rewrite <- Hlpn in Hw.
  unfold MAX_PACKET_NUMBER in Hmax.
  destruct (protect_remove_shape keys x mid pn payload' n (ps_largest_received (space_at level r0)))
    as (m0 & q & ct & E & Hq & Hct & Hrm & Hdec); [done|done|done|unfold AEAD_LIMIT; lia|rewrite <- Hhd; unfold AEAD_LIMIT; lia
      |by destruct Hrd|lia|exact Hw|].
  rewrite Hhd, E in Hp. injection Hp as <-. exists j, (1 + len mid).
  exists (mkUnprotectedHeader n (has_bit (Zb x) KEY_PHASE_BIT) (x :: mid ++ pn) ct). split; [done|]. split; [done|]. unfold meet in Hm. destruct (short level zero_rtt) eqn:Esh.
  - destruct Hshape as [Ex ->]. rewrite (Hrest eq_refl), app_nil_r. injection Hm as <-.
    assert (level = L_ONE_RTT ∧ zero_rtt = false) as [-> ->].
    { unfold short in Esh. apply andb_true_iff in Esh as [?%bool_decide_eq_true ?%negb_true_iff]. done. }
    destruct (short_first_range (ps_keys (space_at L_ONE_RTT c)) (len pn) Hl) as [S1 S2]. rewrite <- Ex in S1, S2.
    split; [by apply locate_short|]. split; [|split; [exact Hrm|]; split; [exact Hdec|]; split; [done|]].
    + cbn [first_byte]. change 0x80 with HEADER_FORM_LONG. by destruct (flip_short x m0 S1 S2) as [-> _].
    + intros _. rewrite Ex. by apply short_first_byte.
  - destruct Hshape as (Hw' & Ex & -> & Hr). destruct (flip_first (lt_packet_type (long_template level zero_rtt c)) (len pn) m0 Hl) as (F1 & F2 & F3).
    rewrite <- Ex in F1, F2, F3.
    assert (Hz' : level = L_ONE_RTT → zero_rtt = true).
    { intros ->. unfold short in Esh. rewrite bool_decide_true in Esh by done. by destruct zero_rtt. }
    split. { refine (locate_long level zero_rtt c (flip x m0) _ (q ++ ct) rest now r r0 Hw' Hz Hz' F1 F2 F3 Hr _ Hsrv Hm). rewrite len_app. unfold AEAD_TAG_LENGTH. lia. }
    split; [|split; [exact Hrm|]; split; [exact Hdec|]; done].
    cbn [first_byte]. change 0x80 with HEADER_FORM_LONG. rewrite F1, andb_true_r. destruct zero_rtt; [by rewrite bool_decide_true by auto|].
    apply bool_decide_false. intros Hone. by specialize (Hz' Hone).
Qed.

Lemma pad_payload_shape m payload : 0 <= m → ∃ j, 0 <= j ∧ pad_payload m payload = payload ++ zeros j ∧ m <= len (payload ++ zeros j) ∧
  len (payload ++ zeros j) <= Z.max m (len payload).
Proof.
  intros Hm. unfold pad_payload. case_test; [exists (m - len payload)|exists 0]; rewrite len_app, len_zeros;
    (split; [lia|]; split; [by rewrite ?app_nil_r|lia]).
Qed.

Lemma zeros_app a b : 0 <= a → 0 <= b → zeros a ++ zeros b = zeros (a + b).
Proof. intros. unfold zeros. rewrite <- replicate_add. f_equal. lia. Qed.

(** What is common to [c] and the connection the header is built in. *)
Lemma taken_same level c c1 : untouched c c1 → same_headers c (number_taken level c1) ∧
  cn_recovery (number_taken level c1) = cn_recovery c ∧ ps_keys (space_at level (number_taken level c1)) = ps_keys (space_at level c).
Proof.
  intros []. split; [|split; [done|]].
  - split; try done. intros l keys. rewrite <- (ut_keys0 l). by destruct l, level.
  - rewrite <- (ut_keys0 level). by destruct level.
Qed.

(** C4: what one connection sends is what the other handles.  A packet that
    [_build_packet] returns, at any level and of either header form, alone or
    (with a long header) followed by any bytes in the datagram, is located,
    opened and parsed by [_process_packet] of a connection of the other role
    that holds the packet's keys: it then does exactly what handling the chosen
    frames under the packet's number does, no byte of the header, the padding
    or the protection left, and it consumes the packet's length.  Those frames
    and that number are what the sender's loss detection has on record.  The
    receiver must be [ready] once it has met the sender: keys not discarded, the number new and within
    reach of its truncation, and in 1-RTT past the handshake and in the
    same key phase. *)
Theorem packet_delivered level room now pad ack_only c p c' rest now' ecn keys r r0
  (Hs : sendable c) (Ho : orderly c) (Hv : cf_version (cn_config c) = QUIC_V1)
  (Hroom : room < 2 ^ 29) (Hpad : 0 <= pad <= room)
  (Hb : build_packet level room now pad ack_only c = (Ok (Some p), c'))
  (Hearly : uses_early level c = true → cn_is_client c = true)
  (Hrole : cn_is_client r = negb (cn_is_client c)) (Hcid : len (cn_host_cid r) = len (cn_peer_cid c))
  (Hrest : short level (uses_early level c) = true → rest = [])
  (Hm : meet level (uses_early level c) (cn_peer_cid c) (cn_host_cid c) r = (Ok tt, r0))
  (Hk : sending_keys level c = Some keys)
  (Hr : ready level (uses_early level c) (ks_key_phase (ps_keys (space_at level c))) (next_number level c) keys r0) :
  let n := next_number level c in
  ∃ frames, frames ≠ [] ∧
    cn_recovery c' = ld_on_packet_sent (mkSentPacket level n now (existsb is_ack_eliciting frames)
                       (existsb is_ack_eliciting frames) (len p) frames) (cn_recovery c) ∧
    next_number level c' = n + 1 ∧
    process_packet (p ++ rest) now' ecn r =
      (_ ← deliver level n frames now' ecn (uses_early level c); mret (len p)) (opened level (uses_early level c) n r0).
Proof.
  intros n. apply build_packet_inv in Hb as (b & [Hk' Hrm Hfr Hne Henc Hmax Hpn Hhd Hpr ->]). rewrite Hk in Hk'. injection Hk' as ->.
  destruct (pending_frames_plain level (room - HEADER_OVERHEAD - AEAD_TAG_LENGTH) ack_only _ _ _ Ho Hfr) as [_ Hplain].
  pose proof (untouched_pending_frames level (room - HEADER_OVERHEAD - AEAD_TAG_LENGTH) ack_only c) as Hu.
  pose proof (pending_frames_size level (room - HEADER_OVERHEAD - AEAD_TAG_LENGTH) ack_only
    ltac:(unfold HEADER_OVERHEAD, AEAD_TAG_LENGTH in *; lia) _ _ _ Hfr) as [(enc & Henc' & Hlen) Hused].
  rewrite Hfr in Hu. cbn [fst snd] in *. rewrite Henc in Henc'. injection Henc' as <-.
  destruct (taken_same level c _ Hu) as (Hsame & Hrec & Hkeys). rewrite (ut_next _ _ Hu level) in *. fold n in Hmax, Hpn, Hhd, Hpr |- *.
  set (c2 := number_taken level (pp_chosen b)) in *. unfold HEADER_OVERHEAD, AEAD_TAG_LENGTH in *.
  destruct (pad_payload_shape MINIMUM_PAYLOAD (concat (pp_encoded b)) ltac:(done)) as (i & Hi & Epad & Hmin & Hmaxp). rewrite Epad in Hhd.
  assert (Hko : keys_ok (pp_keys b)) by (apply (sd_keys _ Hs level); unfold sending_keys in Hk; case_test_in Hk; auto).
  rewrite <- (sh_peer _ _ Hsame), <- ?(sh_host _ _ Hsame), <- Hkeys in *. change MINIMUM_PAYLOAD with 4 in *.
  assert (Hv2 : cf_version (cn_config c2) = QUIC_V1) by (by rewrite (sh_config _ _ Hsame)).
  assert (Hone : uses_early level c = true → level = L_ONE_RTT).
  { unfold uses_early. by intros [?%bool_decide_eq_true _]%andb_true_iff. }
  assert (Hsrv : uses_early level c = true → cn_is_client r = false) by (intros E; by rewrite Hrole, (Hearly E)).
  destruct (sealed_packet level (uses_early level c) pad c2 n (pp_pn b) _ _ _ (pp_keys b) p rest now' r r0
    (same_headers_sendable _ _ Hsame Hs) Hv2 Hone Hsrv Hpn Hmax Hmin ltac:(lia) ltac:(lia) Hhd Hko Hpr Hcid Hrest Hm Hr)
    as (j & off & u & Hj & Epay & Hloc & Hz & Hru & Hdu & Hun & Hph).
  rewrite <- app_assoc, zeros_app in Epay by done.
  pose proof (parse_padded (pp_frames b) _ (i + j) Hplain Hne Henc) as Hpar. rewrite <- Epay in Hpar.
  exists (pp_frames b). split; [done|]. split; [by rewrite <- Hrec|]. split.
  { transitivity (next_number level (pp_chosen b) + 1); [|by rewrite (ut_next _ _ Hu level)]. unfold c2, number_taken. by destruct level. }
  by eapply process_located.
Qed.

(** A datagram counted, and its source taken for the peer's address when none
    is known: what [_datagram_received] does before it looks for packets. *)
Definition counted (data : bytes) (source : option bytes) (r : Connection) : Connection :=
  let r := set_cn_bytes_received (cn_bytes_received r + len data) r in
  if bool_decide (cn_destination r = None) && bool_decide (source ≠ None) then set_cn_destination source r else r.

(** A datagram that is one packet: the receiver handles its frames and starts
    its idle timer over. *)
Lemma datagram_delivered (m : M Connection unit) data now source ecn r s :
  0 < len data → cn_state r ≠ TERMINATED → cn_state r ≠ DRAINING →
  process_packet data now ecn (counted data source r) = (_ ← m; mret (len data)) s →
  receive_datagram data now source ecn r = (_ ← m; arm_idle_timer now) s.
Proof.
  intros Hd Ht Hdr Hp. unfold receive_datagram. erewrite M_bind_ok by done. rewrite bool_decide_false by tauto.
  erewrite M_bind_ok by done. cbv zeta.
  assert (Hw : when (bool_decide (cn_destination (set_cn_bytes_received (cn_bytes_received r + len data) r) = None) && bool_decide (source ≠ None))
            (modify (set_cn_destination source)) (set_cn_bytes_received (cn_bytes_received r + len data) r) = (Ok tt, counted data source r)).
  { unfold counted, when. by destruct (_ && _). }
  assert (Hd0 : cn_destination (set_cn_bytes_received (cn_bytes_received r + len data) r) = cn_destination r) by done.
  rewrite Hd0 in Hw. erewrite M_bind_ok by exact Hw.
  assert (Hl : packets_loop (length data) data 0 now ecn (counted data source r) = (_ ← m; mret tt) s).
  { destruct data as [|x data]; [done|]. cbn [length packets_loop]. rewrite (proj2 (Z.ltb_lt 0 _)) by done.
    unfold mbind at 1, M_bind at 1. change (drop (Z.to_nat 0) (x :: data)) with (x :: data). rewrite Hp.
    unfold mbind, M_bind. destruct (m s) as [[[]|e] s']; [|done]. cbn. rewrite (proj2 (Z.leb_gt _ _)) by done.
    destruct (length data); cbn [packets_loop]; by rewrite Z.ltb_irrefl. }
  unfold mbind, M_bind in Hl |- *. rewrite Hl. by destruct (m s) as [[[]|e] s'].
Qed.
End delivery.

(** ** Concrete deliveries *)

Definition plainb (f : Frame) : bool :=
  match f with
  | FPadding _ | FNewConnectionId _ => false
  | FAck a => forallb (λ r, 0 <=? r.1) (ack_ranges a)
  | FPathChallenge d | FPathResponse d => len d =? 8
  | _ => true
  end.

Lemma plainb_plain f : plainb f = true → plain f.
Proof.
  destruct f; cbn; try done; try (by intros ?%Z.eqb_eq).
  rewrite forallb_forall. intros H. apply Forall_forall. intros r Hr. apply Z.leb_le, H. by apply list_elem_of_In.
Qed.

Definition orderlyb (c : Connection) : bool :=
  forallb plainb (cn_control_frames c) &&
  forallb (λ level, forallb (λ r, 0 <=? r.1) (ps_received (space_at level c))) all_levels.

Lemma orderlyb_orderly c : orderlyb c = true → orderly c.
Proof.
  unfold orderlyb. rewrite andb_true_iff, !forallb_forall. intros [H1 H2]. split.
  - apply Forall_forall. intros f Hf. by apply plainb_plain, H1, list_elem_of_In.
  - intros level. assert (Hl : In level all_levels) by (destruct level; cbn; auto). specialize (H2 level Hl).
    rewrite forallb_forall in H2. apply Forall_forall. intros r Hr. by apply Z.leb_le, H2, list_elem_of_In.
Qed.

Definition readyb (level : EncryptionLevel) (zero_rtt phase : bool) (n : Z) (r : Connection) : bool :=
  let s := space_at level r in
  let w := 2 ^ (8 * packet_number_bytes n None - 1) in
  negb (ps_discarded s) && negb (covers n (n + 1) (ps_received s)) && (-1 <=? ps_largest_received s)
  && (ps_largest_received s + 1 - w <? n) && (n <=? ps_largest_received s + 1 + w)
  && (negb (short level zero_rtt)
      || negb (bool_decide (cn_state r = HANDSHAKING)) && Bool.eqb (ks_key_phase (ps_keys s)) phase).

Lemma readyb_ready level (zero_rtt phase : bool) n keys (r : Connection) :
  (if zero_rtt then ks_recv_early (ps_keys (space_at level r)) else ks_recv (ps_keys (space_at level r))) = Some keys →
  readyb level zero_rtt phase n r = true → ready level zero_rtt phase n keys r.
Proof.
  intros Hk H. unfold readyb in H. cbv zeta in H. bool_cases. constructor; try done.
  intros Hs. rewrite Hs in *. cbn [negb orb] in *. bool_cases.
  match goal with H : bool_decide _ = false |- _ => apply bool_decide_eq_false in H end.
  split; [done|]. by apply Bool.eqb_prop.
Qed.

(** The client's first Initial and the server that hears of it, and a request
    of a client whose handshake is over. *)
Definition fresh_server : Connection :=
  match start_server 0 with Ok s => s | Raise _ => blank false HANDSHAKING end.
Definition greeted_server : Connection :=
  (meet L_INITIAL false (cn_peer_cid sample_client) (cn_host_cid sample_client) fresh_server).2.

Definition request : M (Connection (H := toy_tls)) unit := _ ← open_stream; send_stream_data 0 [x47; x45; x54] true.
Definition with_request (r : result (Connection * Connection)) : Connection * Connection :=
  match r with Ok (c, s) => ((request c).2, s) | Raise _ => (blank true HANDSHAKING, blank false HANDSHAKING) end.
Definition settled : Connection * Connection := Eval vm_compute in with_request (handshake 0).

Definition key_in (level : EncryptionLevel) (c : Connection) : PacketKeys := default example_keys (sending_keys level c).

Lemma packet_delivered_witness :
  (∃ p c' frames, build_packet L_INITIAL 1200 0 1200 false sample_client = (Ok (Some p), c') ∧ frames ≠ [] ∧
     process_packet (p ++ [x00]) 1 0 fresh_server =
       (_ ← deliver L_INITIAL 0 frames 1 0 false; mret (len p)) (opened L_INITIAL false 0 greeted_server)) ∧
  (∃ p c' frames, build_packet L_ONE_RTT 1200 1 1200 false settled.1 = (Ok (Some p), c') ∧ frames ≠ [] ∧
     process_packet (p ++ []) 2 0 settled.2 =
       (_ ← deliver L_ONE_RTT 1 frames 2 0 false; mret (len p)) (opened L_ONE_RTT false 1 settled.2)).
Proof.
  assert (N0 : next_number L_INITIAL sample_client = 0 ∧ uses_early L_INITIAL sample_client = false) by (vm_compute; done).
  assert (N1 : next_number L_ONE_RTT settled.1 = 1 ∧ uses_early L_ONE_RTT settled.1 = false) by (vm_compute; done).
  destruct N0 as [N0 Z0], N1 as [N1 Z1]. split.
  - destruct (built L_INITIAL 0 sample_client ltac:(vm_compute; reflexivity)) as (p & c' & E).
    destruct (packet_delivered L_INITIAL 1200 0 1200 false sample_client p c' [x00] 1 0 (key_in L_INITIAL sample_client)
      fresh_server greeted_server) as (frames & Hne & _ & _ & H).
    + apply sized_sendable. vm_compute. reflexivity.
    + apply orderlyb_orderly. vm_compute. reflexivity.
    + vm_compute. reflexivity.
    + lia.
    + lia.
    + exact E.
    + vm_compute. discriminate.
    + vm_compute. reflexivity.
    + vm_compute. reflexivity.
    + vm_compute. discriminate.
    + vm_compute. reflexivity.
    + vm_compute. reflexivity.
    + apply readyb_ready; vm_compute; reflexivity.
    + exists p, c', frames. split; [exact E|]. split; [exact Hne|]. rewrite N0, Z0 in H. exact H.
  - destruct (built L_ONE_RTT 1 settled.1 ltac:(vm_compute; reflexivity)) as (p & c' & E).
    destruct (packet_delivered L_ONE_RTT 1200 1 1200 false settled.1 p c' [] 2 0 (key_in L_ONE_RTT settled.1)
      settled.2 settled.2) as (frames & Hne & _ & _ & H).
    + apply sized_sendable. vm_compute. reflexivity.
    + apply orderlyb_orderly. vm_compute. reflexivity.
    + vm_compute. reflexivity.
    + lia.
    + lia.
    + exact E.
    + vm_compute. discriminate.
    + vm_compute. reflexivity.
    + vm_compute. reflexivity.
    + reflexivity.
    + vm_compute. reflexivity.
    + vm_compute. reflexivity.
    + apply readyb_ready; vm_compute; reflexivity.
    + exists p, c', frames. split; [exact E|]. split; [exact Hne|]. rewrite N1, Z1 in H. exact H.
Defined.
