(* ===== verification/Json.v ===== *)
(** * JSON text

    What [json.dumps(value, separators=(",", ":"))] writes, as qlog.py calls
    it: the values the traces contain, the escaping of strings to ASCII
    ([ensure_ascii], the default), integers and the rest.  A Python string is
    a list of code points.  The text of a float is [float.__repr__], which
    stays abstract ([FloatText]).  [loads] is the specification: a reader of
    that text, and [loads_dumps] says it recovers the value. *)

From Stdlib Require Import QArith.
From S2P Require Import Prelude.
Local Open Scope Z_scope.

Definition text : Type := list Z.

(** The code points of an ASCII literal. *)
Definition codes (s : string) : text := Zb <$> (Ascii.byte_of_ascii <$> String.list_ascii_of_string s).

Inductive Json : Type :=
| JNull
| JBool (b : bool)
| JInt (n : Z)
| JFloat (q : Q)
| JStr (s : text)
| JList (l : list Json)
| JObj (fields : list (text * Json)).

(** [float.__repr__] of a finite float: its characters are those of a number,
    it is told from an integer by a point or an exponent, and reading it back
    gives the float ([float(repr(x)) == x]).  [is_float] holds of the
    rationals that are floats. *)
Definition number_char (c : Z) : bool :=
  ((48 <=? c) && (c <=? 57)) || (c =? 43) || (c =? 45) || (c =? 46) || (c =? 101).
Definition float_mark (c : Z) : bool := (c =? 46) || (c =? 101).

Class FloatText : Type := {
  float_repr : Q → text;
  float_parse : text → option Q;
  is_float : Q → bool;
  float_chars q : is_float q = true → forallb number_char (float_repr q) = true;
  float_marked q : is_float q = true → existsb float_mark (float_repr q) = true;
  float_round_trip q : is_float q = true → float_parse (float_repr q) = Some q }.

(** ** Writing *)

Definition hex_digit (n : Z) : Z := if n <? 10 then 48 + n else 87 + n.

(** ["\\u{0:04x}".format(n)] *)
Definition u_escape (n : Z) : text :=
  [92; 117; hex_digit (n / 4096); hex_digit (n / 256 mod 16); hex_digit (n / 16 mod 16); hex_digit (n mod 16)].

Definition escape_char (c : Z) : text :=
  if c =? 34 then [92; 34]
  else if c =? 92 then [92; 92]
  else if c =? 10 then [92; 110]
  else if c =? 13 then [92; 114]
  else if c =? 9 then [92; 116]
  else if c =? 12 then [92; 102]
  else if c =? 8 then [92; 98]
  else if (32 <=? c) && (c <=? 126) then [c]
  else if c <? 0x10000 then u_escape c
  else
    let n := c - 0x10000 in
    u_escape (0xd800 + n / 1024 mod 1024) ++ u_escape (0xdc00 + n mod 1024).

Definition dumps_str (s : text) : text := 34 :: concat (map escape_char s) ++ [34].

(** [str(n)] for an integer; a number has at most as many decimal digits as
    binary ones. *)
Fixpoint decimal (fuel : nat) (n : Z) : text :=
  match fuel with
  | O => []
  | S k => (if n <? 10 then [] else decimal k (n / 10)) ++ [48 + n mod 10]
  end.
Definition digits (n : Z) : text := decimal (S (Z.to_nat (Z.log2 n))) n.
Definition dumps_int (n : Z) : text := if n <? 0 then 45 :: digits (- n) else digits n.

(** [",".join(l)] *)
Fixpoint join_commas (l : list text) : text :=
  match l with
  | [] => []
  | [t] => t
  | t :: l' => t ++ 44 :: join_commas l'
  end.

Section json.
Context `{FloatText}.

Fixpoint dumps (v : Json) : text :=
  match v with
  | JNull => codes "null"
  | JBool true => codes "true"
  | JBool false => codes "false"
  | JInt n => dumps_int n
  | JFloat q => float_repr q
  | JStr s => dumps_str s
  | JList l => 91 :: join_commas (map dumps l) ++ [93]
  | JObj fields => 123 :: join_commas (map (λ kv, dumps_str kv.1 ++ 58 :: dumps kv.2) fields) ++ [125]
  end.

(** ** Reading *)

Definition hex_value (c : Z) : option Z :=
  if (48 <=? c) && (c <=? 57) then Some (c - 48)
  else if (97 <=? c) && (c <=? 102) then Some (c - 87) else None.

Definition hex4 (a b c d : Z) : option Z :=
  match hex_value a, hex_value b, hex_value c, hex_value d with
  | Some a, Some b, Some c, Some d => Some (a * 4096 + b * 256 + c * 16 + d)
  | _, _, _, _ => None
  end.

(** The character a two-character escape stands for. *)
Definition short_escape (e : Z) : option Z :=
  if e =? 34 then Some 34 else if e =? 92 then Some 92 else if e =? 110 then Some 10
  else if e =? 114 then Some 13 else if e =? 116 then Some 9 else if e =? 102 then Some 12
  else if e =? 98 then Some 8 else None.

Definition cons_char (c : Z) (r : option (text * text)) : option (text * text) :=
  match r with Some (s, rest) => Some (c :: s, rest) | None => None end.

(** A string's characters up to the closing quote; a high surrogate takes the
    escape of its low surrogate with it. *)
Fixpoint read_chars (t : text) : option (text * text) :=
  match t with
  | [] => None
  | c :: t1 =>
      if c =? 34 then Some ([], t1)
      else if c =? 92 then
        match t1 with
        | e :: t2 =>
            if e =? 117 then
              match t2 with
              | x1 :: x2 :: x3 :: x4 :: t3 =>
                  match hex4 x1 x2 x3 x4 with
                  | Some n =>
                      if (0xd800 <=? n) && (n <? 0xdc00) then
                        match t3 with
                        | 92 :: 117 :: y1 :: y2 :: y3 :: y4 :: t4 =>
                            match hex4 y1 y2 y3 y4 with
                            | Some m => cons_char (0x10000 + (n - 0xd800) * 1024 + (m - 0xdc00)) (read_chars t4)
                            | None => None
                            end
                        | _ => None
                        end
                      else cons_char n (read_chars t3)
                  | None => None
                  end
              | _ => None
              end
            else match short_escape e with Some n => cons_char n (read_chars t2) | None => None end
        | [] => None
        end
      else cons_char c (read_chars t1)
  end.

(** The longest prefix of number characters. *)
Fixpoint span_number (t : text) : text * text :=
  match t with
  | c :: t' => if number_char c then let '(a, b) := span_number t' in (c :: a, b) else ([], t)
  | [] => ([], [])
  end.

Definition read_int (t : text) : Z :=
  match t with
  | 45 :: ds => - fold_left (λ n d, n * 10 + (d - 48)) ds 0
  | _ => fold_left (λ n d, n * 10 + (d - 48)) t 0
  end.

Definition read_number (t : text) : option (Json * text) :=
  let '(token, rest) := span_number t in
  if existsb float_mark token then match float_parse token with Some q => Some (JFloat q, rest) | None => None end
  else if len token =? 0 then None else Some (JInt (read_int token), rest).

(** Strip a keyword. *)
Fixpoint strip (word t : text) : option text :=
  match word, t with
  | [], _ => Some t
  | w :: word', c :: t' => if w =? c then strip word' t' else None
  | _, [] => None
  end.

Definition keyword (word : string) (v : Json) (t : text) : option (Json * text) :=
  match strip (codes word) t with Some rest => Some (v, rest) | None => None end.

Fixpoint read_value (fuel : nat) (t : text) : option (Json * text) :=
  match fuel, t with
  | S k, c :: t1 =>
      if c =? 34 then match read_chars t1 with Some (s, rest) => Some (JStr s, rest) | None => None end
      else if c =? 91 then
        match t1 with
        | [] => None
        | e :: rest =>
            if e =? 93 then Some (JList [], rest)
            else match read_items k t1 with Some (l, rest) => Some (JList l, rest) | None => None end
        end
      else if c =? 123 then
        match t1 with
        | [] => None
        | e :: rest =>
            if e =? 125 then Some (JObj [], rest)
            else match read_fields k t1 with Some (l, rest) => Some (JObj l, rest) | None => None end
        end
      else if c =? 110 then keyword "null" JNull t
      else if c =? 116 then keyword "true" (JBool true) t
      else if c =? 102 then keyword "false" (JBool false) t
      else read_number t
  | _, _ => None
  end
with read_items (fuel : nat) (t : text) : option (list Json * text) :=
  match fuel with
  | S k =>
      match read_value k t with
      | Some (v, 44 :: t1) => match read_items k t1 with Some (l, rest) => Some (v :: l, rest) | None => None end
      | Some (v, 93 :: t1) => Some ([v], t1)
      | _ => None
      end
  | O => None
  end
with read_fields (fuel : nat) (t : text) : option (list (text * Json) * text) :=
  match fuel, t with
  | S k, 34 :: t1 =>
      match read_chars t1 with
      | Some (key, 58 :: t2) =>
          match read_value k t2 with
          | Some (v, 44 :: t3) =>
              match read_fields k t3 with Some (l, rest) => Some ((key, v) :: l, rest) | None => None end
          | Some (v, 125 :: t3) => Some ([(key, v)], t3)
          | _ => None
          end
      | _ => None
      end
  | _, _ => None
  end.

(** A whole text: one value and nothing after it. *)
Definition loads (t : text) : option Json :=
  match read_value (2 * length t + 2) t with Some (v, []) => Some v | _ => None end.

(** ** Induction *)

Lemma json_induction (P : Json → Prop) :
  P JNull → (∀ b, P (JBool b)) → (∀ n, P (JInt n)) → (∀ q, P (JFloat q)) → (∀ s, P (JStr s)) →
  (∀ l, Forall P l → P (JList l)) → (∀ fields, Forall (λ kv, P kv.2) fields → P (JObj fields)) → ∀ v, P v.
Proof.
  intros H1 H2 H3 H4 H5 HL HO. fix IH 1. intros [|b|n|q|s|l|fields]; [exact H1|apply H2|apply H3|apply H4|apply H5|..].
  - apply HL. induction l as [|v l IHl]; constructor; [apply IH|exact IHl].
  - apply HO. induction fields as [|[k v] l IHl]; constructor; [apply IH|exact IHl].
Qed.

(** ** Strings *)

(** A Unicode scalar value: what a [str] decoded from bytes contains. *)
Definition scalar (c : Z) : bool := (0 <=? c) && (c <? 0x110000) && negb ((0xd800 <=? c) && (c <? 0xe000)).

Lemma hex_value_digit n : 0 <= n < 16 → hex_value (hex_digit n) = Some n.
Proof.
  intros Hn. unfold hex_value, hex_digit. destruct (Z.ltb_spec n 10).
  - rewrite (proj2 (Z.leb_le 48 _)), (proj2 (Z.leb_le _ 57)) by lia. cbn [andb]. f_equal. lia.
  - rewrite (proj2 (Z.leb_gt (87 + n) 57)), andb_false_r by lia.
    rewrite (proj2 (Z.leb_le 97 _)), (proj2 (Z.leb_le _ 102)) by lia. cbn [andb]. f_equal. lia.
Qed.

Lemma hex4_digits n : 0 <= n < 0x10000 →
  hex4 (hex_digit (n / 4096)) (hex_digit (n / 256 mod 16)) (hex_digit (n / 16 mod 16)) (hex_digit (n mod 16)) = Some n.
Proof.
  intros Hn. unfold hex4.
  assert (0 <= n / 4096 < 16) by (split; [apply Z.div_pos; lia|apply Z.div_lt_upper_bound; lia]).
  rewrite !hex_value_digit by (done || apply Z.mod_pos_bound; lia). f_equal.
  pose proof (Z.div_mod n 16 ltac:(lia)). pose proof (Z.div_mod (n / 16) 16 ltac:(lia)).
  pose proof (Z.div_mod (n / 256) 16 ltac:(lia)).
  assert (n / 16 / 16 = n / 256) as E1 by (by rewrite Z.div_div).
  assert (n / 256 / 16 = n / 4096) as E2 by (by rewrite Z.div_div). rewrite E1, E2 in *. lia.
Qed.

Lemma read_chars_u n t : 0 <= n < 0x10000 → (0xd800 <=? n) && (n <? 0xdc00) = false →
  read_chars (u_escape n ++ t) = cons_char n (read_chars t).
Proof.
  intros Hn Hs. unfold u_escape. cbn [app read_chars]. cbn [Z.eqb Pos.eqb]. rewrite hex4_digits by done. by rewrite Hs.
Qed.

Lemma read_chars_pair n t : 0 <= n < 0x100000 →
  read_chars ((u_escape (0xd800 + n / 1024 mod 1024) ++ u_escape (0xdc00 + n mod 1024)) ++ t) =
  cons_char (0x10000 + n) (read_chars t).
Proof.
  intros Hn. rewrite <- app_assoc.
  assert (Hd : 0 <= n / 1024 < 1024) by (split; [apply Z.div_pos; lia|apply Z.div_lt_upper_bound; lia]).
  rewrite (Z.mod_small (n / 1024)) by done. pose proof (Z.mod_pos_bound n 1024 ltac:(lia)).
  unfold u_escape at 1. cbn [app read_chars]. cbn [Z.eqb Pos.eqb]. rewrite hex4_digits by lia.
  rewrite (proj2 (andb_true_iff _ _)) by (split; [apply Z.leb_le|apply Z.ltb_lt]; lia).
  unfold u_escape at 1. cbn [app]. rewrite hex4_digits by lia. f_equal. pose proof (Z.div_mod n 1024 ltac:(lia)). lia.
Qed.

Lemma read_chars_escape c t : scalar c = true → read_chars (escape_char c ++ t) = cons_char c (read_chars t).
Proof.
  unfold scalar. intros [[Hlo Hhi]%andb_true_iff Hs%negb_true_iff%andb_false_iff]%andb_true_iff. bool_cases. unfold escape_char.
  destruct (Z.eqb_spec c 34) as [->|]; [done|]. destruct (Z.eqb_spec c 92) as [->|]; [done|].
  destruct (Z.eqb_spec c 10) as [->|]; [done|]. destruct (Z.eqb_spec c 13) as [->|]; [done|].
  destruct (Z.eqb_spec c 9) as [->|]; [done|]. destruct (Z.eqb_spec c 12) as [->|]; [done|].
  destruct (Z.eqb_spec c 8) as [->|]; [done|]. case_test.
  { cbn [app read_chars]. by rewrite !(proj2 (Z.eqb_neq _ _)). }
  case_test.
  - apply read_chars_u; [lia|]. apply andb_false_iff.
    destruct Hs as [Hs|Hs]; bool_cases; [left; by apply Z.leb_gt|right; apply Z.ltb_ge; lia].
  - cbv zeta. rewrite read_chars_pair by lia. f_equal. lia.
Qed.

Lemma read_chars_str s t : forallb scalar s = true → read_chars (concat (map escape_char s) ++ 34 :: t) = Some (s, t).
Proof.
  induction s as [|c s IH]; cbn [forallb]; [done|]. intros [Hc Hs]%andb_true_iff.
  cbn [map concat]. rewrite <- app_assoc, read_chars_escape by done. by rewrite IH.
Qed.

(** ** Numbers *)

Lemma decimal_spec k : ∀ n, 0 <= n < 2 ^ Z.of_nat k → (0 < k)%nat →
  (∀ acc, fold_left (λ n d, n * 10 + (d - 48)) (decimal k n) acc = acc * 10 ^ len (decimal k n) + n) ∧
  Forall (λ c, 48 <= c <= 57) (decimal k n) ∧ 1 <= len (decimal k n).
Proof.
  induction k as [|k IH]; intros n Hn Hk; [lia|]. cbn [decimal].
  pose proof (Z.mod_pos_bound n 10 ltac:(lia)) as Hm. pose proof (Z.div_mod n 10 ltac:(lia)) as Hd.
  case_test.
  - cbn [app fold_left]. rewrite Z.mod_small by lia. change (len [_]) with 1. split; [intros; lia|].
    split; [|lia]. apply Forall_singleton. lia.
  - assert (Hq : 0 <= n / 10 < 2 ^ Z.of_nat k).
    { rewrite Nat2Z.inj_succ, Z.pow_succ_r in Hn by lia. lia. }
    assert (0 < k)%nat as Hk'. { destruct k; [|lia]. cbn in Hq. lia. }
    destruct (IH _ Hq Hk') as (I1 & I2 & I3). rewrite len_app. change (len [_]) with 1. split; [|split; [|lia]].
    + intros acc. rewrite fold_left_app, I1. cbn [fold_left]. rewrite Z.pow_add_r by lia. lia.
    + apply Forall_app. split; [done|]. apply Forall_singleton. lia.
Qed.

Lemma digits_spec n : 0 <= n →
  fold_left (λ n d, n * 10 + (d - 48)) (digits n) 0 = n ∧ Forall (λ c, 48 <= c <= 57) (digits n) ∧ 1 <= len (digits n).
Proof.
  intros Hn. unfold digits. destruct (decimal_spec (S (Z.to_nat (Z.log2 n))) n) as (H1 & H2 & H3); [|lia|].
  - pose proof (Z.log2_nonneg n). rewrite Nat2Z.inj_succ, Z2Nat.id by done. split; [done|].
    destruct (Z.eq_dec n 0) as [->|]; [done|]. apply Z.log2_spec. lia.
  - split; [|done]. rewrite H1. lia.
Qed.

(** The text of a number stops where a number's characters stop. *)
Definition stops (t : text) : Prop := match t with [] => True | c :: _ => number_char c = false end.

Lemma span_number_app token rest : forallb number_char token = true → stops rest →
  span_number (token ++ rest) = (token, rest).
Proof.
  intros Ht Hr. induction token as [|c token IH].
  - destruct rest as [|c rest]; [done|]. cbn in *. by rewrite Hr.
  - cbn [forallb] in Ht. apply andb_true_iff in Ht as [Hc Ht]. cbn. by rewrite Hc, IH.
Qed.

Lemma digits_chars l : Forall (λ c, 48 <= c <= 57) l → forallb number_char l = true ∧ existsb float_mark l = false.
Proof.
  induction 1 as [|c l Hc Hl [I1 I2]]; [done|]. cbn. rewrite I1, I2. unfold number_char, float_mark.
  rewrite (proj2 (Z.leb_le 48 c)), (proj2 (Z.leb_le c 57)), !(proj2 (Z.eqb_neq c _)) by lia. done.
Qed.

Lemma read_int_text n : read_int (dumps_int n) = n.
Proof.
  unfold dumps_int. destruct (Z.ltb_spec n 0).
  - destruct (digits_spec (- n) ltac:(lia)) as (H1 & _). cbn [read_int]. lia.
  - destruct (digits_spec n ltac:(lia)) as (H1 & H2 & _). transitivity (fold_left (λ n d, n * 10 + (d - 48)) (digits n) 0); [|done].
    unfold read_int. destruct H2 as [|c l Hc _]; [done|].
    destruct c as [|p|p]; try lia. repeat (destruct p as [p|p|]; try done). lia.
Qed.

Lemma int_text n : forallb number_char (dumps_int n) = true ∧ existsb float_mark (dumps_int n) = false ∧ 1 <= len (dumps_int n).
Proof.
  unfold dumps_int. destruct (Z.ltb_spec n 0).
  - destruct (digits_spec (- n) ltac:(lia)) as (_ & H2 & H3). destruct (digits_chars _ H2) as [H4 H5].
    cbn [forallb existsb]. rewrite H4, H5, len_cons. split; [done|]. split; [done|lia].
  - destruct (digits_spec n ltac:(lia)) as (_ & H2 & H3). by destruct (digits_chars _ H2) as [H4 H5].
Qed.

Lemma read_number_int n rest : stops rest → read_number (dumps_int n ++ rest) = Some (JInt n, rest).
Proof.
  intros Hr. unfold read_number. destruct (int_text n) as (H1 & H2 & H3).
  rewrite span_number_app by done. rewrite H2, (proj2 (Z.eqb_neq _ 0)) by lia. by rewrite read_int_text.
Qed.

Lemma read_number_float q rest : is_float q = true → stops rest → read_number (float_repr q ++ rest) = Some (JFloat q, rest).
Proof.
  intros Hq Hr. unfold read_number. rewrite span_number_app by (by apply float_chars || done).
  by rewrite float_marked, float_round_trip.
Qed.

(** ** Values *)

(** Strings are made of scalar values and floats are floats. *)
Fixpoint json_ok (v : Json) : bool :=
  match v with
  | JFloat q => is_float q
  | JStr s => forallb scalar s
  | JList l => forallb json_ok l
  | JObj fields => forallb (λ kv, forallb scalar kv.1 && json_ok kv.2) fields
  | _ => true
  end.

(** The fuel reading a value back takes. *)
Definition need_all (l : list nat) : nat := foldr (λ n m, S (max n m)) 1%nat l.
Fixpoint need (v : Json) : nat :=
  match v with
  | JList l => S (need_all (map need l))
  | JObj fields => S (need_all (map (λ kv, need kv.2) fields))
  | _ => 1%nat
  end.

Lemma read_value_number k c t : number_char c = true → read_value (S k) (c :: t) = read_number (c :: t).
Proof.
  unfold number_char. intros Hc. cbn [read_value].
  assert (c <= 57 ∨ c = 101) as Hr.
  { repeat (apply orb_true_iff in Hc as [Hc|Hc]); bool_cases; lia. }
  assert (c ≠ 34) by (intros ->; discriminate).
  rewrite !(proj2 (Z.eqb_neq c _)) by lia. done.
Qed.

Lemma int_head n : ∃ c t, dumps_int n = c :: t ∧ number_char c = true.
Proof.
  destruct (int_text n) as (H1 & _ & H3). destruct (dumps_int n) as [|c t]; [done|]. exists c, t.
  cbn in H1. by apply andb_true_iff in H1 as [? _].
Qed.

Lemma float_head q : is_float q = true → ∃ c t, float_repr q = c :: t ∧ number_char c = true.
Proof.
  intros Hq. pose proof (float_marked q Hq) as Hm. pose proof (float_chars q Hq) as Hc.
  destruct (float_repr q) as [|c t]; [done|]. exists c, t. cbn in Hc. by apply andb_true_iff in Hc as [? _].
Qed.

(** No value's text starts like the end of a list or of an object. *)
Lemma dumps_head v : json_ok v = true → ∃ c t, dumps v = c :: t ∧ c ≠ 93 ∧ c ≠ 125.
Proof.
  assert (Hn : ∀ c, number_char c = true → c ≠ 93 ∧ c ≠ 125) by (intros c Hc; split; intros ->; discriminate).
  destruct v as [|[]|n|q|s|l|fields]; intros Hv; try (by eexists _, _; split; [reflexivity|]).
  - destruct (int_head n) as (c & t & E & Hc). exists c, t. split; [exact E|auto].
  - destruct (float_head q Hv) as (c & t & E & Hc). exists c, t. split; [exact E|auto].
Qed.

Definition reads (v : Json) : Prop := ∀ fuel rest, (need v <= fuel)%nat → stops rest →
  read_value fuel (dumps v ++ rest) = Some (v, rest).

Lemma read_items_dumps l : l ≠ [] → Forall reads l → ∀ fuel rest, (need_all (map need l) <= fuel)%nat →
  read_items fuel (join_commas (map dumps l) ++ 93 :: rest) = Some (l, rest).
Proof.
  intros Hl Hr. induction Hr as [|v l Hv Hr IH]; [done|]. intros fuel rest Hf.
  change (S (max (need v) (need_all (map need l))) <= fuel)%nat in Hf.
  destruct fuel as [|k]; [lia|]. cbn [read_items]. destruct l as [|w l].
  - cbn [map join_commas]. rewrite Hv by (done || lia). done.
  - change (join_commas (map dumps (v :: w :: l))) with (dumps v ++ 44 :: join_commas (map dumps (w :: l))).
    rewrite <- app_assoc, <- app_comm_cons. rewrite Hv by (done || lia). rewrite IH by (done || lia). done.
Qed.

Lemma read_fields_dumps l : l ≠ [] → Forall (λ kv, reads kv.2) l → forallb (λ kv, forallb scalar kv.1) l = true →
  ∀ fuel rest, (need_all (map (λ kv, need kv.2) l) <= fuel)%nat →
  read_fields fuel (join_commas (map (λ kv, dumps_str kv.1 ++ 58 :: dumps kv.2) l) ++ 125 :: rest) = Some (l, rest).
Proof.
  intros Hl Hr. induction Hr as [|[key v] l Hv Hr IH]; [done|]. intros [Hkey Hks]%andb_true_iff fuel rest Hf. cbn in Hkey.
  change (S (max (need v) (need_all (map (λ kv, need kv.2) l))) <= fuel)%nat in Hf.
  destruct fuel as [|k]; [lia|]. cbn [read_fields]. destruct l as [|w l].
  - cbn [map join_commas fst snd]. unfold dumps_str. cbn [app]. rewrite <- !app_assoc. cbn [app].
    rewrite read_chars_str by done. cbn in Hv. rewrite Hv by (done || lia). done.
  - change (join_commas (map (λ kv, dumps_str kv.1 ++ 58 :: dumps kv.2) ((key, v) :: w :: l))) with
      ((dumps_str key ++ 58 :: dumps v) ++ 44 :: join_commas (map (λ kv, dumps_str kv.1 ++ 58 :: dumps kv.2) (w :: l))).
    unfold dumps_str at 1. cbn [app]. rewrite <- !app_assoc. cbn [app].
    rewrite read_chars_str by done. cbn in Hv. rewrite Hv by (done || lia). rewrite IH by (done || lia). done.
Qed.

Lemma read_value_dumps v : json_ok v = true → reads v.
Proof.
  induction v as [|b|n|q|s|l IH|fields IH] using json_induction; intros Hok fuel rest Hf Hr;
    (destruct fuel as [|k]; [cbn in Hf; lia|]).
  - done.
  - by destruct b.
  - destruct (int_head n) as (c & t & E & Hc). cbn [dumps]. rewrite E. cbn [app]. rewrite read_value_number by done.
    change (c :: t ++ rest) with ((c :: t) ++ rest). rewrite <- E. by apply read_number_int.
  - destruct (float_head q Hok) as (c & t & E & Hc). cbn [dumps]. rewrite E. cbn [app]. rewrite read_value_number by done.
    change (c :: t ++ rest) with ((c :: t) ++ rest). rewrite <- E. by apply read_number_float.
  - cbn [dumps]. unfold dumps_str. cbn [app read_value Z.eqb Pos.eqb]. rewrite <- app_assoc. cbn [app].
    by rewrite read_chars_str.
  - change (S (need_all (map need l)) <= S k)%nat in Hf. cbn [json_ok] in Hok. rewrite forallb_forall in Hok.
    assert (Hall : Forall reads l).
    { apply Forall_forall. intros x Hx. rewrite Forall_forall in IH. apply IH; [done|]. apply Hok. by apply list_elem_of_In. }
    cbn [dumps app read_value Z.eqb Pos.eqb]. rewrite <- app_assoc. cbn [app]. destruct l as [|v l]; [done|].
    pose proof (read_items_dumps (v :: l) ltac:(done) Hall k rest ltac:(lia)) as Hi.
    destruct (dumps_head v) as (c & t & E & Hc & _); [apply Hok; by left|].
    assert (∃ t', join_commas (map dumps (v :: l)) = c :: t') as [t' E'].
    { cbn [map]. destruct (map dumps l); cbn [join_commas]; rewrite E; eexists; reflexivity. }
    rewrite E' in *. cbn [app] in *. rewrite (proj2 (Z.eqb_neq c 93)) by done. by rewrite Hi.
  - change (S (need_all (map (λ kv, need kv.2) fields)) <= S k)%nat in Hf. cbn [json_ok] in Hok.
    rewrite forallb_forall in Hok.
    assert (Hall : Forall (λ kv, reads kv.2) fields).
    { apply Forall_forall. intros x Hx. rewrite Forall_forall in IH. apply IH; [done|].
      apply list_elem_of_In in Hx. specialize (Hok x Hx). by apply andb_true_iff in Hok as [_ ?]. }
    assert (Hkeys : forallb (λ kv : text * Json, forallb scalar kv.1) fields = true).
    { apply forallb_forall. intros x Hx. specialize (Hok x Hx). by apply andb_true_iff in Hok as [? _]. }
    cbn [dumps app read_value Z.eqb Pos.eqb]. rewrite <- app_assoc. cbn [app]. destruct fields as [|[key v] l]; [done|].
    pose proof (read_fields_dumps ((key, v) :: l) ltac:(done) Hall Hkeys k rest (le_S_n _ _ Hf)) as Hi.
    assert (∃ t', join_commas (map (λ kv, dumps_str kv.1 ++ 58 :: dumps kv.2) ((key, v) :: l)) = 34 :: t') as [t' E'].
    { cbn [map fst]. destruct (map _ l); cbn [join_commas dumps_str app]; eexists; reflexivity. }
    rewrite E' in *. cbn [app] in *. by rewrite Hi.
Qed.

(** ** The whole text *)

Lemma need_pos v : (1 <= need v)%nat.
Proof. destruct v; cbn; lia. Qed.

Lemma need_all_join (f : Json → nat) {A} (g : A → Json) (w : A → text) l :
  Forall (λ x, (1 <= f (g x) <= 2 * length (w x))%nat) l →
  (need_all (map (λ x, f (g x)) l) <= 2 * length (join_commas (map w l)) + 1)%nat.
Proof.
  induction 1 as [|x l Hx Hl IH]; [cbn; lia|].
  change (need_all (map (λ x, f (g x)) (x :: l))) with (S (max (f (g x)) (need_all (map (λ x, f (g x)) l)))).
  destruct l as [|y l]; [cbn in *; lia|].
  change (join_commas (map w (x :: y :: l))) with (w x ++ 44 :: join_commas (map w (y :: l))).
  rewrite length_app. cbn [length]. lia.
Qed.

Lemma need_bound v : json_ok v = true → (need v <= 2 * length (dumps v))%nat.
Proof.
  assert (Hleaf : ∀ v, json_ok v = true → (1 <= 2 * length (dumps v))%nat).
  { intros w Hw. destruct (dumps_head w Hw) as (c & t & -> & _). cbn. lia. }
  induction v as [|b|n|q|s|l IH|fields IH] using json_induction; intros Hok; try (by apply Hleaf).
  - pose proof (need_all_join need id dumps l) as Hj. cbn [dumps length]. rewrite length_app. cbn [length].
    change (need (JList l)) with (S (need_all (map (λ x, need (id x)) l))).
    enough (need_all (map (λ x, need (id x)) l) <= 2 * length (join_commas (map dumps l)) + 1)%nat by lia.
    apply Hj. cbn [json_ok] in Hok. rewrite forallb_forall in Hok. rewrite Forall_forall in IH |- *.
    intros x Hx. split; [apply need_pos|]. apply IH; [done|]. apply Hok. by apply list_elem_of_In.
  - pose proof (need_all_join need snd (λ kv : text * Json, dumps_str kv.1 ++ 58 :: dumps kv.2) fields) as Hj.
    cbn [dumps length]. rewrite length_app. cbn [length].
    change (need (JObj fields)) with (S (need_all (map (λ x : text * Json, need x.2) fields))).
    enough (need_all (map (λ x : text * Json, need x.2) fields) <=
      2 * length (join_commas (map (λ kv : text * Json, dumps_str kv.1 ++ 58%Z :: dumps kv.2) fields)) + 1)%nat by lia.
    apply Hj. cbn [json_ok] in Hok. rewrite forallb_forall in Hok. rewrite Forall_forall in IH |- *.
    intros x Hx. specialize (IH x Hx). apply list_elem_of_In in Hx. specialize (Hok x Hx).
    apply andb_true_iff in Hok as [_ Hok]. specialize (IH Hok). cbn beta in *. rewrite length_app. cbn [length].
    pose proof (need_pos x.2). lia.
Qed.

(** Reading what was written gives the value back. *)
Lemma loads_dumps v : json_ok v = true → loads (dumps v) = Some v.
Proof.
  intros Hok. unfold loads. rewrite <- (app_nil_r (dumps v)) at 2.
  rewrite (read_value_dumps v Hok); [done| |done]. pose proof (need_bound v Hok). lia.
Qed.

(** ** The text is printable ASCII *)

Definition printable (c : Z) : Prop := 32 <= c <= 126.

Lemma number_printable c : number_char c = true → printable c.
Proof.
  unfold number_char, printable. intros Hc. repeat (apply orb_true_iff in Hc as [Hc|Hc]); bool_cases; lia.
Qed.

Lemma hex_printable n : 0 <= n < 16 → printable (hex_digit n).
Proof. intros Hn. unfold hex_digit, printable. case_test; lia. Qed.

Lemma u_escape_printable n : 0 <= n < 0x10000 → Forall printable (u_escape n).
Proof.
  intros Hn. assert (0 <= n / 4096 < 16) by (split; [apply Z.div_pos; lia|apply Z.div_lt_upper_bound; lia]).
  unfold u_escape. repeat constructor; try (unfold printable; lia); apply hex_printable; (done || apply Z.mod_pos_bound; lia).
Qed.

Lemma escape_printable c : scalar c = true → Forall printable (escape_char c).
Proof.
  unfold scalar. intros [[Hlo Hhi]%andb_true_iff _]%andb_true_iff. bool_cases. unfold escape_char.
  repeat (case_test; [repeat constructor; unfold printable; lia|]). case_test; [apply u_escape_printable; lia|].
  cbv zeta. pose proof (Z.mod_pos_bound ((c - 0x10000) / 1024) 1024 ltac:(lia)). pose proof (Z.mod_pos_bound (c - 0x10000) 1024 ltac:(lia)).
  apply Forall_app. split; apply u_escape_printable; lia.
Qed.

Lemma dumps_str_printable s : forallb scalar s = true → Forall printable (dumps_str s).
Proof.
  intros Hs. unfold dumps_str. constructor; [unfold printable; lia|]. apply Forall_app. split; [|repeat constructor; unfold printable; lia].
  induction s as [|c s IH]; [constructor|]. cbn [forallb] in Hs. apply andb_true_iff in Hs as [Hc Hs].
  cbn [map concat]. apply Forall_app. split; [by apply escape_printable|auto].
Qed.

Lemma join_printable l : Forall (Forall printable) l → Forall printable (join_commas l).
Proof.
  induction 1 as [|t l Ht Hl IH]; [constructor|]. destruct l as [|u l]; [done|].
  change (join_commas (t :: u :: l)) with (t ++ 44 :: join_commas (u :: l)). apply Forall_app. split; [done|].
  constructor; [unfold printable; lia|done].
Qed.

Lemma numbers_printable l : forallb number_char l = true → Forall printable l.
Proof. intros Hl. rewrite forallb_forall in Hl. apply Forall_forall. intros c Hc. apply number_printable, Hl. by apply list_elem_of_In. Qed.

Lemma dumps_printable v : json_ok v = true → Forall printable (dumps v).
Proof.
  assert (Hc : ∀ c : Z, 32 <=? c = true → c <=? 126 = true → printable c) by (intros; bool_cases; by split).
  induction v as [|b|n|q|s|l IH|fields IH] using json_induction; intros Hok; cbn [dumps json_ok] in *.
  - repeat constructor; by apply Hc.
  - destruct b; repeat constructor; by apply Hc.
  - apply numbers_printable, int_text.
  - apply numbers_printable. by apply float_chars.
  - by apply dumps_str_printable.
  - rewrite forallb_forall in Hok. constructor; [by apply Hc|]. apply Forall_app. split; [|repeat constructor; by apply Hc].
    apply join_printable. apply Forall_forall. intros t (x & -> & Hx)%list_elem_of_fmap. rewrite Forall_forall in IH.
    apply IH; [done|]. apply Hok. by apply list_elem_of_In.
  - rewrite forallb_forall in Hok. constructor; [by apply Hc|]. apply Forall_app. split; [|repeat constructor; by apply Hc].
    apply join_printable. apply Forall_forall. intros t (x & -> & Hx)%list_elem_of_fmap. rewrite Forall_forall in IH.
    specialize (IH x Hx). apply list_elem_of_In in Hx. specialize (Hok x Hx). apply andb_true_iff in Hok as [H1 H2].
    apply Forall_app. split; [by apply dumps_str_printable|]. constructor; [by apply Hc|by apply IH].
Qed.
End json.

(** ** Whole numbers of milliseconds

    A concrete instance: floats that are integers, written with [".0"]. *)

#[export] Instance toy_float_text : FloatText.
Proof.
  refine {| float_repr q := dumps_int (Qnum q) ++ [46; 48];
            float_parse t := Some (read_int (take (length t - 2) t) # 1);
            is_float q := (Zpos (Qden q) =? 1) |}.
  - intros q _. rewrite forallb_app. by rewrite (proj1 (int_text _)).
  - intros q _. rewrite existsb_app. by rewrite orb_true_r.
  - intros [n d] Hd%Z.eqb_eq. cbn [Qden] in Hd. injection Hd as ->. cbn [Qnum].
    rewrite length_app, Nat.add_sub, take_app_length. by rewrite read_int_text.
Defined.
