(* ===== verification/Qlog.v ===== *)
(** * qlog traces (qlog.py)

    The trace of one connection as [src/dsquic/qlog.py] writes it: one JSON
    record per event, between a record separator and a newline, after a
    record that describes the trace; the descriptions of frames; and the
    events [src/dsquic/connection.py] logs, each with the dict it passes
    ([event_name], [event_data]).  A trace holds the records given to [emit],
    in order. *)

From Stdlib Require Import QArith.
From S2P Require Import Prelude Buffer Frames Packet TransportParameters RangeSet Streams.
From S2P Require Import Congestion NewReno Recovery TlsInterface Spaces ConnState Json.
Local Open Scope Z_scope.

(** ** Constants *)

Definition RECORD_SEPARATOR : Z := 0x1e.
Definition FILE_SCHEMA : string := "urn:ietf:params:qlog:file:sequential".
Definition EVENT_SCHEMA : string := "urn:ietf:params:qlog:events:quic-13".
Definition SERIALIZATION_FORMAT : string := "application/qlog+json-seq".
Definition LEGACY_VERSION : string := "0.3".
Definition LEGACY_FORMAT : string := "JSON-SEQ".
Definition PACKET_SENT : string := "quic:packet_sent".
Definition PACKET_RECEIVED : string := "quic:packet_received".
Definition PACKET_DROPPED : string := "quic:packet_dropped".
Definition PACKET_LOST : string := "quic:packet_lost".
Definition PARAMETERS_SET : string := "quic:parameters_set".
Definition RECOVERY_METRICS_UPDATED : string := "quic:recovery_metrics_updated".
Definition KEY_UPDATED : string := "quic:key_updated".
Definition KEY_DISCARDED : string := "quic:key_discarded".
Definition CONNECTION_STARTED : string := "quic:connection_started".
Definition CONNECTION_CLOSED : string := "quic:connection_closed".
Definition DROP_KEY_UNAVAILABLE : string := "key_unavailable".
Definition DROP_DECRYPTION_FAILURE : string := "decryption_failure".
Definition DROP_DUPLICATE : string := "duplicate".
Definition DROP_INVALID : string := "invalid".
Definition DROP_UNSUPPORTED : string := "unsupported".
Definition DROP_GENERAL : string := "general".
Definition code_version : string := "0.0.1".

(** ** Frames *)

(** [FRAME_TYPES] *)
Definition FRAME_TYPES : list (string * string) :=
  [("Padding", "padding"); ("Ping", "ping"); ("Ack", "ack"); ("ResetStream", "reset_stream");
   ("StopSending", "stop_sending"); ("Crypto", "crypto"); ("NewToken", "new_token"); ("Stream", "stream");
   ("MaxData", "max_data"); ("MaxStreamData", "max_stream_data"); ("MaxStreams", "max_streams");
   ("DataBlocked", "data_blocked"); ("StreamDataBlocked", "stream_data_blocked");
   ("StreamsBlocked", "streams_blocked"); ("NewConnectionId", "new_connection_id");
   ("RetireConnectionId", "retire_connection_id"); ("PathChallenge", "path_challenge");
   ("PathResponse", "path_response"); ("ConnectionClose", "connection_close");
   ("HandshakeDone", "handshake_done"); ("Datagram", "datagram")]%string.

(** [type(frame).__name__] *)
Definition class_name (f : Frame) : string :=
  match f with
  | FPadding _ => "Padding" | FPing => "Ping" | FAck _ => "Ack" | FResetStream _ => "ResetStream"
  | FStopSending _ _ => "StopSending" | FCrypto _ => "Crypto" | FNewToken _ => "NewToken" | FStream _ => "Stream"
  | FMaxData _ => "MaxData" | FMaxStreamData _ _ => "MaxStreamData" | FMaxStreams _ _ => "MaxStreams"
  | FDataBlocked _ => "DataBlocked" | FStreamDataBlocked _ _ => "StreamDataBlocked"
  | FStreamsBlocked _ _ => "StreamsBlocked" | FNewConnectionId _ => "NewConnectionId"
  | FRetireConnectionId _ => "RetireConnectionId" | FPathChallenge _ => "PathChallenge"
  | FPathResponse _ => "PathResponse" | FConnectionClose _ => "ConnectionClose"
  | FHandshakeDone => "HandshakeDone" | FDatagram _ => "Datagram"
  end.

(** [name.lower()] of an ASCII string. *)
Definition lower_ascii (a : Ascii.ascii) : Ascii.ascii :=
  let n := Ascii.nat_of_ascii a in
  if ((65 <=? n) && (n <=? 90))%nat then Ascii.ascii_of_nat (n + 32) else a.
Definition lower (s : string) : string :=
  String.string_of_list_ascii (map lower_ascii (String.list_ascii_of_string s)).

(** [frame_type] *)
Definition frame_type (f : Frame) : string :=
  match d_get (class_name f) FRAME_TYPES with Some t => t | None => lower (class_name f) end.

(** [getattr(frame, name, None)] for the names [frame_detail] asks for. *)
Definition frame_attribute (f : Frame) (name : string) : option Json :=
  if decide (name = "stream_id"%string) then
    match f with
    | FResetStream r => Some (JInt (rst_stream_id r))
    | FStopSending stream_id _ | FMaxStreamData stream_id _ | FStreamDataBlocked stream_id _ => Some (JInt stream_id)
    | FStream s => Some (JInt (st_id s))
    | _ => None
    end
  else if decide (name = "offset"%string) then
    match f with FCrypto c => Some (JInt (cr_offset c)) | FStream s => Some (JInt (st_offset s)) | _ => None end
  else if decide (name = "fin"%string) then
    match f with FStream s => Some (JBool (st_fin s)) | _ => None end
  else if decide (name = "maximum"%string) then
    match f with
    | FMaxData maximum | FMaxStreamData _ maximum | FMaxStreams maximum _ => Some (JInt maximum)
    | _ => None
    end
  else if decide (name = "limit"%string) then
    match f with
    | FDataBlocked limit | FStreamDataBlocked _ limit | FStreamsBlocked limit _ => Some (JInt limit)
    | _ => None
    end
  else if decide (name = "ranges"%string) then
    match f with
    | FAck a => Some (JList (map (λ r, JList [JInt r.1; JInt r.2]) (ack_ranges a)))
    | _ => None
    end
  else None.

Definition FRAME_FIELDS : list string := ["stream_id"; "offset"; "fin"; "maximum"; "limit"]%string.
Definition RENAMED_FRAME_FIELDS : list (string * string) := [("ranges", "acked_ranges")]%string.

(** A dict entry, and a string of literal text. *)
Definition field (name : string) (v : Json) : text * Json := (codes name, v).
Definition lit (s : string) : Json := JStr (codes s).

(** [frame_detail] *)
Definition frame_detail (f : Frame) : Json :=
  let detail := [field "frame_type" (lit (frame_type f))] in
  let detail := detail ++ omap (λ name, field name <$> frame_attribute f name) FRAME_FIELDS in
  let detail := detail ++ omap (λ names : string * string, field names.2 <$> frame_attribute f names.1) RENAMED_FRAME_FIELDS in
  let ecn := match f with FAck a => ack_ecn a | _ => None end in
  JObj (detail ++ match ecn with
                  | Some e => [field "ect0" (JInt (ect0 e)); field "ect1" (JInt (ect1 e)); field "ce" (JInt (ce e))]
                  | None => []
                  end).

Section qlog.
Context `{FloatText}.

(** ** Records and traces *)

(** [_record] *)
Definition record (value : Json) : text := RECORD_SEPARATOR :: dumps value ++ [10].

Record Trace : Type := mkTrace { tr_reference_time : Q; tr_emitted : list text }.

(** What [__init__] writes first. *)
Definition trace_header (group_id : text) (is_client : bool) (wall_clock_time : option text) : Json :=
  let reference := [field "clock_type" (lit "monotonic"); field "epoch" (lit "unknown")]
    ++ match wall_clock_time with Some t => [field "wall_clock_time" (JStr t)] | None => [] end in
  JObj [field "file_schema" (lit FILE_SCHEMA); field "serialization_format" (lit SERIALIZATION_FORMAT);
        field "qlog_version" (lit LEGACY_VERSION); field "qlog_format" (lit LEGACY_FORMAT);
        field "title" (lit "dsquic qlog"); field "code_version" (lit code_version);
        field "trace" (JObj
          [field "event_schemas" (JList [lit EVENT_SCHEMA]);
           field "vantage_point" (JObj [field "type" (lit (if is_client then "client" else "server"))]);
           field "common_fields" (JObj [field "group_id" (JStr group_id); field "reference_time" (JObj reference)])])].

(** [QlogTrace.__init__] *)
Definition new_QlogTrace (group_id : text) (is_client : bool) (reference_time : Q) (wall_clock_time : option text) : Trace :=
  mkTrace reference_time [record (trace_header group_id is_client wall_clock_time)].

(** The object [log] serializes, and [QlogTrace.log]. *)
Definition log_entry (reference now : Q) (name : string) (data : Json) : Json :=
  JObj [field "time" (JFloat ((now - reference) * 1000)); field "name" (lit name); field "data" data].
Definition log (now : Q) (name : string) (data : Json) (t : Trace) : Trace :=
  mkTrace (tr_reference_time t) (tr_emitted t ++ [record (log_entry (tr_reference_time t) now name data)]).

(** ** What the connection logs *)

(** [_QLOG_PACKET_TYPE] *)
Definition QLOG_PACKET_TYPE (level : EncryptionLevel) : string :=
  match level with L_INITIAL => "initial" | L_HANDSHAKE => "handshake" | L_ONE_RTT => "1RTT" end.

(** One constructor for each call of [_log] and [_drop], with what the call's
    dict is made of. *)
Inductive QlogEvent : Type :=
| ConnectionStarted (group_id : bytes)
| KeyUpdated (key_phase : bool)
| KeyDiscarded (level : EncryptionLevel)
| ClosedLocally (error_code : Z) (reason : text)
| ClosedRemotely (error_code : Z) (reason : text)
| IdleTimeout
| ReceivedVersionNegotiation
| ReceivedRetry
| PacketReceived (level : EncryptionLevel) (zero_rtt : bool) (packet_number length : Z) (parsed : list Frame)
| PacketSent (level : EncryptionLevel) (zero_rtt : bool) (packet_number length : Z) (chosen : list Frame)
| PacketLost (level : EncryptionLevel) (packet_number : Z)
| PacketDropped (trigger : string) (length : Z) (level : option EncryptionLevel) (packet_number : option Z)
| ParametersSet (peer : TransportParameters)
| RecoveryMetrics (recovery : LossDetection NewReno).

(** [b.hex()] *)
Definition hex (b : bytes) : text := concat (map (λ x, [hex_digit (Zb x / 16); hex_digit (Zb x mod 16)]) b).

(** The dicts the calls of [_log] pass. *)
Definition connection_started_data (group_id : bytes) : Json := JObj [field "dst_cid" (JStr (hex group_id))].
Definition key_updated_data (key_phase : bool) : Json :=
  JObj [field "key_type" (lit "1RTT"); field "key_phase" (JInt (if key_phase then 1 else 0))].
Definition key_discarded_data (level : EncryptionLevel) : Json := JObj [field "key_type" (lit (QLOG_PACKET_TYPE level))].
Definition closed_locally_data (error_code : Z) (reason : text) : Json :=
  JObj [field "initiator" (lit "local"); field "error_code" (JInt error_code); field "reason" (JStr reason)].
Definition closed_remotely_data (error_code : Z) (reason : text) : Json :=
  JObj [field "initiator" (lit "remote"); field "error_code" (JInt error_code); field "reason" (JStr reason)].
Definition idle_timeout_data : Json := JObj [field "initiator" (lit "local"); field "trigger" (lit "idle_timeout")].
Definition version_negotiation_data : Json := JObj [field "header" (JObj [field "packet_type" (lit "version_negotiation")])].
Definition retry_data : Json := JObj [field "header" (JObj [field "packet_type" (lit "retry")])].

(** [_process_packet] builds the header and the length, [_handle_payload] adds
    the frames. *)
Definition packet_received_data (level : EncryptionLevel) (zero_rtt : bool) (packet_number length : Z) (parsed : list Frame) : Json :=
  let received :=
    [field "header" (JObj [field "packet_type" (lit (if zero_rtt then "0RTT" else QLOG_PACKET_TYPE level));
                           field "packet_number" (JInt packet_number)]);
     field "raw" (JObj [field "length" (JInt length)])] in
  JObj (received ++ [field "frames" (JList (map frame_detail parsed))]).
Definition packet_sent_data (level : EncryptionLevel) (zero_rtt : bool) (packet_number length : Z) (chosen : list Frame) : Json :=
  JObj [field "header" (JObj [field "packet_type" (lit (if zero_rtt then "0RTT" else QLOG_PACKET_TYPE level));
                              field "packet_number" (JInt packet_number)]);
        field "raw" (JObj [field "length" (JInt length)]);
        field "frames" (JList (map frame_detail chosen))].
Definition packet_lost_data (level : EncryptionLevel) (packet_number : Z) : Json :=
  JObj [field "header" (JObj [field "packet_type" (lit (QLOG_PACKET_TYPE level)); field "packet_number" (JInt packet_number)])].
Definition parameters_set_data (peer : TransportParameters) : Json :=
  JObj [field "initiator" (lit "remote"); field "initial_max_data" (JInt (initial_max_data peer));
        field "initial_max_streams_bidi" (JInt (initial_max_streams_bidi peer));
        field "max_idle_timeout" (JInt (max_idle_timeout_ms peer))].

(** [_drop] *)
Definition drop_data (trigger : string) (length : Z) (level : option EncryptionLevel) (packet_number : option Z) : Json :=
  let header := match level with Some l => [field "packet_type" (lit (QLOG_PACKET_TYPE l))] | None => [] end
    ++ match packet_number with Some n => [field "packet_number" (JInt n)] | None => [] end in
  let data := [field "trigger" (lit trigger); field "raw" (JObj [field "length" (JInt length)])] in
  JObj (data ++ match header with [] => [] | _ => [field "header" (JObj header)] end).

(** [_log_recovery_metrics] *)
Definition recovery_metrics (r : LossDetection NewReno) : Json :=
  JObj [field "congestion_window" (JInt (congestion_window (ld_controller r)));
        field "bytes_in_flight" (JInt (bytes_in_flight (ld_controller r)));
        field "smoothed_rtt" (JFloat (rtt_smoothed (ld_rtt r) * 1000));
        field "rtt_variance" (JFloat (rtt_var (ld_rtt r) * 1000));
        field "latest_rtt" (JFloat (rtt_latest (ld_rtt r) * 1000));
        field "pto_count" (JInt (ld_pto_count r))].

(** The event's name. *)
Definition event_name (e : QlogEvent) : string :=
  match e with
  | ConnectionStarted _ => CONNECTION_STARTED
  | KeyUpdated _ => KEY_UPDATED
  | KeyDiscarded _ => KEY_DISCARDED
  | ClosedLocally _ _ | ClosedRemotely _ _ | IdleTimeout => CONNECTION_CLOSED
  | ReceivedVersionNegotiation | ReceivedRetry | PacketReceived _ _ _ _ _ => PACKET_RECEIVED
  | PacketSent _ _ _ _ _ => PACKET_SENT
  | PacketLost _ _ => PACKET_LOST
  | PacketDropped _ _ _ _ => PACKET_DROPPED
  | ParametersSet _ => PARAMETERS_SET
  | RecoveryMetrics _ => RECOVERY_METRICS_UPDATED
  end.

Definition event_data (e : QlogEvent) : Json :=
  match e with
  | ConnectionStarted group_id => connection_started_data group_id
  | KeyUpdated key_phase => key_updated_data key_phase
  | KeyDiscarded level => key_discarded_data level
  | ClosedLocally error_code reason => closed_locally_data error_code reason
  | ClosedRemotely error_code reason => closed_remotely_data error_code reason
  | IdleTimeout => idle_timeout_data
  | ReceivedVersionNegotiation => version_negotiation_data
  | ReceivedRetry => retry_data
  | PacketReceived level zero_rtt packet_number length parsed => packet_received_data level zero_rtt packet_number length parsed
  | PacketSent level zero_rtt packet_number length chosen => packet_sent_data level zero_rtt packet_number length chosen
  | PacketLost level packet_number => packet_lost_data level packet_number
  | PacketDropped trigger length level packet_number => drop_data trigger length level packet_number
  | ParametersSet peer => parameters_set_data peer
  | RecoveryMetrics recovery => recovery_metrics recovery
  end.

(** [_log] on the attribute [_qlog]; an event at a time. *)
Definition log_event (now : Q) (e : QlogEvent) (qlog : option Trace) : option Trace :=
  log now (event_name e) (event_data e) <$> qlog.
Definition log_events (events : list (Q * QlogEvent)) (qlog : option Trace) : option Trace :=
  fold_left (λ q e, log_event e.1 e.2 q) events qlog.

(** [_open_qlog]: the trace starts once, where the configuration asks for one. *)
Definition open_qlog (factory : option (bytes → bool → Q → option Trace)) (group_id : bytes) (is_client : bool) (now : Q)
    (qlog : option Trace) : option Trace :=
  match qlog, factory with
  | Some t, _ => Some t
  | None, None => None
  | None, Some make => log_event now (ConnectionStarted group_id) (make group_id is_client now)
  end.

(** [qlog_trace] of endpoints/__init__.py: the value of [$QLOGDIR] and the wall
    clock are arguments; the file the records are appended to is named apart. *)
Definition qlog_trace (qlogdir : option text) (wall_clock_time : text) (group_id : bytes) (is_client : bool)
    (reference_time : Q) : option Trace :=
  match qlogdir with
  | None | Some [] => None
  | Some _ => Some (new_QlogTrace (hex group_id) is_client reference_time (Some wall_clock_time))
  end.

(** The file a trace ends up as. *)
Definition trace_text (t : Trace) : text := concat (tr_emitted t).
End qlog.

(** ** Reading a trace back *)

(** The chunks between separators. *)
Fixpoint split_on (sep : Z) (t : text) : list text :=
  match t with
  | [] => [[]]
  | c :: t' =>
      if c =? sep then [] :: split_on sep t'
      else match split_on sep t' with
           | chunk :: chunks => (c :: chunk) :: chunks
           | [] => []
           end
  end.

Section reading.
Context `{FloatText}.

(** A JSON-SEQ reader: every chunk after a separator is one text and a
    newline. *)
Definition read_record (chunk : text) : option Json :=
  if decide (last chunk = Some 10) then loads (removelast chunk) else None.
Fixpoint read_records (chunks : list text) : option (list Json) :=
  match chunks with
  | [] => Some []
  | chunk :: chunks' =>
      match read_record chunk, read_records chunks' with
      | Some v, Some vs => Some (v :: vs)
      | _, _ => None
      end
  end.
Definition read_trace (t : text) : option (list Json) :=
  match split_on RECORD_SEPARATOR t with
  | [] :: chunks => read_records chunks
  | _ => None
  end.

Lemma split_on_cons sep t : ∃ chunk chunks, split_on sep t = chunk :: chunks.
Proof.
  induction t as [|c t (chunk & chunks & IH)]; [by exists [], []|]. cbn [split_on]. rewrite IH.
  case_test; eexists _, _; reflexivity.
Qed.

Lemma split_on_app sep a t : sep ∉ a → ∃ chunk chunks, split_on sep t = chunk :: chunks ∧
  split_on sep (a ++ t) = (a ++ chunk) :: chunks.
Proof.
  intros Ha. induction a as [|c a IH].
  - destruct (split_on_cons sep t) as (chunk & chunks & E). by exists chunk, chunks.
  - apply not_elem_of_cons in Ha as [Hc Ha]. destruct (IH Ha) as (chunk & chunks & E1 & E2).
    exists chunk, chunks. split; [done|]. cbn [app split_on]. rewrite (proj2 (Z.eqb_neq c sep)) by done. by rewrite E2.
Qed.

(** The text of a well-formed value holds neither separator nor newline. *)
Lemma dumps_no_separator v : json_ok v = true → RECORD_SEPARATOR ∉ dumps v ++ [10].
Proof.
  intros Hv Hin. apply elem_of_app in Hin as [Hin|Hin]; [|by apply list_elem_of_singleton in Hin].
  pose proof (dumps_printable v Hv) as Hp. rewrite Forall_forall in Hp. by destruct (Hp _ Hin).
Qed.

Lemma read_record_dumps v : json_ok v = true → read_record (dumps v ++ [10]) = Some v.
Proof.
  intros Hv. unfold read_record. rewrite decide_True by apply last_snoc. rewrite removelast_last. by apply loads_dumps.
Qed.

Lemma split_on_records vs : Forall (λ v, json_ok v = true) vs →
  split_on RECORD_SEPARATOR (concat (map record vs)) = [] :: map (λ v, dumps v ++ [10]) vs.
Proof.
  induction 1 as [|v vs Hv Hvs IH]; [done|]. cbn [map concat]. unfold record at 1. rewrite <- app_comm_cons.
  cbn [split_on]. rewrite (proj2 (Z.eqb_eq _ _)) by done. f_equal.
  destruct (split_on_app RECORD_SEPARATOR (dumps v ++ [10]) (concat (map record vs)) (dumps_no_separator v Hv)) as (chunk & chunks & E1 & ->).
  rewrite IH in E1. injection E1 as <- <-. by rewrite app_nil_r.
Qed.

Lemma read_trace_records vs : Forall (λ v, json_ok v = true) vs → read_trace (concat (map record vs)) = Some vs.
Proof.
  intros Hvs. unfold read_trace. rewrite split_on_records by done.
  induction Hvs as [|v vs Hv Hvs IH]; [done|]. cbn [map read_records]. by rewrite read_record_dumps, IH.
Qed.

(** ** What is logged is well formed *)

Lemma codes_scalar s : forallb scalar (codes s) = true.
Proof.
  apply forallb_forall. intros c Hc. apply list_elem_of_In in Hc. unfold codes in Hc.
  apply list_elem_of_fmap in Hc as (b & -> & _). pose proof (Zb_range b). unfold scalar.
  rewrite (proj2 (Z.leb_le 0 _)), (proj2 (Z.ltb_lt _ 0x110000)), (proj2 (Z.leb_gt 0xd800 _)) by lia. done.
Qed.

Lemma hex_scalar b : forallb scalar (hex b) = true.
Proof.
  unfold hex. induction b as [|x b IH]; [done|]. cbn [map concat]. rewrite forallb_app, IH, andb_true_r.
  pose proof (Zb_range x). pose proof (Z.mod_pos_bound (Zb x) 16 ltac:(lia)).
  assert (0 <= Zb x / 16 < 16) by (split; [apply Z.div_pos; lia|apply Z.div_lt_upper_bound; lia]).
  assert (Hd : ∀ n, 0 <= n < 16 → scalar (hex_digit n) = true).
  { intros n Hn. destruct (hex_printable n Hn) as [Hlo Hhi]. unfold scalar.
    rewrite (proj2 (Z.leb_le 0 _)), (proj2 (Z.ltb_lt _ 0x110000)), (proj2 (Z.leb_gt 0xd800 _)) by lia. done. }
  cbn [forallb]. by rewrite !Hd.
Qed.

(** A dict is well formed when its values are: its keys are literals. *)
Lemma obj_ok l : forallb (λ kv : text * Json, forallb scalar kv.1 && json_ok kv.2) l = true → json_ok (JObj l) = true.
Proof. done. Qed.
Lemma field_ok name v : json_ok v = true → forallb scalar (field name v).1 && json_ok (field name v).2 = true.
Proof. intros Hv. cbn. by rewrite codes_scalar. Qed.

Lemma attribute_ok f name v : frame_attribute f name = Some v → json_ok v = true.
Proof.
  unfold frame_attribute. repeat (case_decide; [destruct f; intros [= <-]; try done|]); [|done].
  cbn [json_ok]. apply forallb_forall. intros x (r & <- & _)%in_map_iff. done.
Qed.

Lemma frame_detail_ok f : json_ok (frame_detail f) = true.
Proof.
  unfold frame_detail. cbv zeta. apply obj_ok. rewrite !forallb_app.
  assert (Hattr : ∀ (A : Type) (l : list A) (src dst : A → string),
    forallb (λ kv : text * Json, forallb scalar kv.1 && json_ok kv.2) (omap (λ x, field (dst x) <$> frame_attribute f (src x)) l) = true).
  { intros A l src dst. apply forallb_forall. intros kv Hin. apply list_elem_of_In, list_elem_of_omap in Hin as (x & _ & Hx).
    destruct (frame_attribute f (src x)) as [v|] eqn:E; [|done]. injection Hx as <-. apply field_ok. by eapply attribute_ok. }
  pose proof (Hattr string FRAME_FIELDS (λ x, x) (λ x, x)) as A1. pose proof (Hattr _ RENAMED_FRAME_FIELDS fst snd) as A2.
  cbv beta in A1, A2. rewrite A1, A2. cbn [forallb andb].
  rewrite field_ok by apply codes_scalar. cbn [andb]. destruct f; try done. by destruct (ack_ecn a).
Qed.

(** The floats an event carries are floats, and the reason of a close is text. *)
Definition event_ok (reference now : Q) (e : QlogEvent) : bool :=
  is_float ((now - reference) * 1000) &&
  match e with
  | ClosedLocally _ reason | ClosedRemotely _ reason => forallb scalar reason
  | RecoveryMetrics r =>
      is_float (rtt_smoothed (ld_rtt r) * 1000) && is_float (rtt_var (ld_rtt r) * 1000) && is_float (rtt_latest (ld_rtt r) * 1000)
  | _ => true
  end.

Ltac fields_ok := repeat first
  [ done
  | progress apply obj_ok
  | rewrite field_ok
  | apply codes_scalar
  | apply hex_scalar
  | rewrite forallb_app
  | progress cbn [forallb andb json_ok lit] ].

Lemma frames_ok frames : forallb json_ok (map frame_detail frames) = true.
Proof. apply forallb_forall. intros v (f & <- & _)%in_map_iff. apply frame_detail_ok. Qed.

Lemma drop_data_ok trigger n level pn : json_ok (drop_data trigger n level pn) = true.
Proof. unfold drop_data. destruct level, pn; cbn [app]; fields_ok. Qed.

Lemma log_entry_ok reference now e : event_ok reference now e = true →
  json_ok (log_entry reference now (event_name e) (event_data e)) = true.
Proof.
  unfold event_ok. intros [Ht He]%andb_true_iff. unfold log_entry. fields_ok.
  destruct e; cbn [event_data]; try apply drop_data_ok; fields_ok; try apply frames_ok;
    by apply andb_true_iff in He as [[? ?]%andb_true_iff ?].
Qed.

Lemma trace_header_ok group_id is_client wall : forallb scalar group_id = true → from_option (forallb scalar) true wall = true →
  json_ok (trace_header group_id is_client wall) = true.
Proof. intros Hg Hw. unfold trace_header. destruct wall; cbn [app]; fields_ok. Qed.

(** A trace after a run of events: its records, one by one. *)
Lemma log_events_emitted events : ∀ t, ∃ t', log_events events (Some t) = Some t' ∧ tr_reference_time t' = tr_reference_time t ∧
  tr_emitted t' = tr_emitted t ++ map record (map (λ e : Q * QlogEvent, log_entry (tr_reference_time t) e.1 (event_name e.2) (event_data e.2)) events).
Proof.
  induction events as [|[now e] events IH]; intros t; [exists t; split_and!; [done|done|by rewrite app_nil_r]|].
  cbn [log_events fold_left]. destruct (IH (log now (event_name e) (event_data e) t)) as (t' & E1 & E2 & E3).
  exists t'. split_and!; [exact E1|exact E2|]. rewrite E3. cbn [log tr_emitted tr_reference_time map]. by rewrite <- app_assoc.
Qed.

(** C37: a trace can be read back.  Take the trace [qlog_trace] opens for a
    connection (named by its group ID, with a wall clock that is text), log
    [CONNECTION_STARTED] and any sequence of the connection's events, whose
    times are floats and whose close reasons are text, whatever the peer put
    in them.  Then the file, split at the record separators, is exactly the
    header followed by one entry per event in the order they were logged,
    each JSON text reading back as the object that was logged: nothing in a
    name, a reason or a frame can end a record or start another. *)
Theorem trace_readable qlogdir wall group_id is_client start events
    (Hdir : qlogdir ≠ []) (Hwall : forallb scalar wall = true)
    (Hstart : is_float ((start - start) * 1000) = true)
    (Hevents : forallb (λ e : Q * QlogEvent, event_ok start e.1 e.2) events = true) :
  ∃ t, log_events events (open_qlog (Some (qlog_trace (Some qlogdir) wall)) group_id is_client start None) = Some t ∧
    read_trace (trace_text t) =
      Some (trace_header (hex group_id) is_client (Some wall)
            :: map (λ e : Q * QlogEvent, log_entry start e.1 (event_name e.2) (event_data e.2))
                 ((start, ConnectionStarted group_id) :: events)).
Proof.
  assert (Hopen : open_qlog (Some (qlog_trace (Some qlogdir) wall)) group_id is_client start None =
    log_event start (ConnectionStarted group_id) (Some (new_QlogTrace (hex group_id) is_client start (Some wall)))).
  { unfold open_qlog, qlog_trace. by destruct qlogdir. }
  rewrite Hopen. change (log_events events (log_event start (ConnectionStarted group_id) ?q)) with
    (log_events ((start, ConnectionStarted group_id) :: events) q).
  set (all := (start, ConnectionStarted group_id) :: events).
  destruct (log_events_emitted all (new_QlogTrace (hex group_id) is_client start (Some wall))) as (t & E1 & _ & E3).
  exists t. split; [exact E1|]. unfold trace_text. rewrite E3. cbn [new_QlogTrace tr_emitted tr_reference_time].
  change ([record ?h] ++ map record ?l) with (map record (h :: l)). apply read_trace_records. constructor.
  - apply trace_header_ok; [apply hex_scalar|exact Hwall].
  - apply Forall_forall. intros v Hv. apply list_elem_of_fmap in Hv as ([now e] & -> & Hin). apply log_entry_ok.
    unfold all in Hin. apply elem_of_cons in Hin as [[= -> ->]|Hin]; [unfold event_ok; cbn [fst snd]; by rewrite Hstart|].
    rewrite forallb_forall in Hevents. apply list_elem_of_In in Hin. by apply (Hevents (now, e)).
Qed.
End reading.

(** ** A trace on a concrete connection *)

(** A close whose reason holds a quote, a newline, a record separator and an
    emoji, after a packet with an acknowledgement. *)
Definition sample_events : list (Q * QlogEvent) :=
  [(2%Q, PacketSent L_INITIAL false 0 1200 [FAck (mkAck 5 0 [(3, 5); (0, 1)] None); FPing]);
   (3%Q, ClosedRemotely 7 [34; 10; 30; 0x1F600])].

Definition sample_qlog : option Trace :=
  log_events sample_events (open_qlog (Some (qlog_trace (Some (codes "/tmp")) (codes "now"))) [x0a; xff] true 1 None).
Definition records_of (q : option Trace) : nat := match q with Some t => length (tr_emitted t) | None => 0%nat end.

Lemma trace_readable_witness :
  ∃ t, sample_qlog = Some t ∧ records_of sample_qlog = 4%nat ∧
    read_trace (trace_text t) =
      Some (trace_header (hex [x0a; xff]) true (Some (codes "now"))
            :: map (λ e : Q * QlogEvent, log_entry 1 e.1 (event_name e.2) (event_data e.2))
                 ((1%Q, ConnectionStarted [x0a; xff]) :: sample_events)).
Proof.
  destruct (trace_readable (codes "/tmp") (codes "now") [x0a; xff] true 1 sample_events) as (t & E & Hr);
    [discriminate|reflexivity|reflexivity|reflexivity|].
  exists t. split; [exact E|]. split; [vm_compute; reflexivity|exact Hr].
Defined.

(** Every frame class has a name of its own in the schema. *)
Lemma frame_types_named f g :
  d_get (class_name f) FRAME_TYPES = Some (frame_type f) ∧
  (frame_type f = frame_type g → class_name f = class_name g).
Proof.
  assert (Hback : ∀ h, d_get (frame_type h) (map (λ kv, (kv.2, kv.1)) FRAME_TYPES) = Some (class_name h)) by (by intros []).
  split; [by destruct f|]. intros E. pose proof (Hback f) as Hf. rewrite E, Hback in Hf. by injection Hf.
Qed.
