(* ===== verification/DocumentRoot.v ===== *)
(** * Files under the document root ([resolve] of endpoints/server.py)

    [resolve] maps a request path to the bytes of a file: it joins the path to
    the document root, follows symbolic links ([Path.resolve] of Python 3.12,
    the version the project asks for: [os.path.realpath] and then a [stat]
    that finds loops of links), and reads the file only when what it arrived
    at lies under the resolved root.  A file system is a finite map from
    absolute paths to files, directories and links; what matters of [lstat],
    [readlink], [stat] and [read_bytes] is what they find there (every file is
    readable, no name is too long).  Paths are lists of names. *)

From S2P Require Import Prelude Hq.

(** ** Model *)

Abbreviation path := (list str).

Inductive Node : Type := File (data : bytes) | Directory | Link (target : str).

Abbreviation FileSystem := (list (path * Node)).

(** The names of a path, as [pathlib] reads them: empty ones and [.] do not
    count. *)
Definition is_dot (n : str) : bool := bool_decide (n = []) || bool_decide (n = [DOT]).
Definition components (s : str) : path := List.filter (λ n, negb (is_dot n)) (split_slash s).

Definition has_null (name : str) : bool := existsb (Z.eqb 0) name.

(** [os.lstat]: [None] stands for [FileNotFoundError], which [realpath]
    catches; a name with a null character raises before the system is asked. *)
Definition lstat (fs : FileSystem) (p : path) : result (option Node) :=
  if existsb has_null p then Raise (ValueError "embedded null byte") else Ok (d_get p fs).

Definition is_absolute (s : str) : bool := starts_with_str [SLASH] s.

(** *** [os.path.realpath]

    A string is kept as what [split("/")] makes of it.  [os.path.join] of a
    path and the rest of another: the rest alone when it starts with a slash,
    which it does after a doubled one. *)
Definition join_rest (p : list str) (rest : list str) : list str :=
  match rest with [] :: _ :: _ => rest | _ => p ++ rest end.

(** What [_joinrealpath] returns: a path with every link resolved, or, when a
    link led back to itself, the string as far as it came, the rest of it as
    it was. *)
Inductive Walked : Type := Reached (p : path) | Cut (raw : list str).

(** [_joinrealpath] of [posixpath]: [p] resolved so far, [rest] to go, [seen]
    the links met and what they resolved to ([None] while being resolved). *)
Fixpoint join_realpath (fuel : nat) (fs : FileSystem) (seen : list (path * option path)) (p : path) (rest : list str)
    : result (Walked * list (path * option path)) :=
  match rest with
  | [] => Ok (Reached p, seen)
  | name :: rest' =>
      match fuel with
      | O => Raise OutOfFuel
      | S fuel' =>
          if is_dot name then join_realpath fuel' fs seen p rest'
          else if bool_decide (name = [DOT; DOT]) then join_realpath fuel' fs seen (removelast p) rest'
          else
            let newpath := p ++ [name] in
            node ← lstat fs newpath;
            match node with
            | Some (Link target) =>
                match d_get newpath seen with
                | Some (Some q) => join_realpath fuel' fs seen q rest'
                | Some None => Ok (Cut (join_rest ([] :: newpath) rest'), seen)
                | None =>
                    '(w, seen) ← join_realpath fuel' fs (d_set newpath None seen)
                                   (if is_absolute target then [] else p) (split_slash target);
                    match w with
                    | Reached q => join_realpath fuel' fs (d_set newpath (Some q) seen) q rest'
                    | Cut raw => Ok (Cut (join_rest raw rest'), seen)
                    end
                end
            | _ => join_realpath fuel' fs seen newpath rest'
            end
      end
  end.

(** A bound on the depth of that recursion: the names to go, and those of each
    link, once. *)
Definition link_weight (e : path * Node) : Z :=
  match e.2 with Link target => 1 + len (split_slash target) | _ => 0 end.
Definition realpath_fuel (fs : FileSystem) (rest : list str) : nat :=
  Z.to_nat (len rest + sum_by link_weight fs).

(** The walk from the root. *)
Definition walk (fs : FileSystem) (rest : path) : result Walked :=
  '(w, _) ← join_realpath (realpath_fuel fs rest) fs [] [] rest; Ok w.

(** [os.path.normpath] of an absolute string: [..] takes the name before it
    off, link or not.  A path of exactly two leading slashes keeps them, which
    an empty name in front stands for. *)
Definition normpath (raw : list str) : path :=
  let names := fold_left (λ p n, if is_dot n then p else if bool_decide (n = [DOT; DOT]) then removelast p else p ++ [n]) raw [] in
  match raw with
  | [] :: [] :: [] :: _ :: _ => names
  | [] :: [] :: _ :: _ => [] :: names
  | _ => names
  end.

(** [os.path.realpath] of an absolute path. *)
Definition realpath (fs : FileSystem) (rest : path) : result path :=
  w ← walk fs rest; Ok (match w with Reached p => p | Cut raw => normpath raw end).

(** *** [os.stat]: the system's own walk *)

(** What it finds at the end: a node, nothing (a name that is missing, or one
    below something that is no directory), or more than 40 links on the way. *)
Inductive Found : Type := FoundNode (n : Node) | NotFound | TooManyLinks.

Definition node_at (fs : FileSystem) (p : path) : option Node := if p is [] then Some Directory else d_get p fs.
Definition is_directory (fs : FileSystem) (p : path) : bool :=
  match node_at fs p with Some Directory => true | _ => false end.

Fixpoint follow (links : nat) (fs : FileSystem) : path → list str → Found :=
  fix go (p : path) (rest : list str) : Found :=
    match rest with
    | [] => match node_at fs p with Some n => FoundNode n | None => NotFound end
    | name :: rest' =>
        if negb (is_directory fs p) then NotFound
        else if is_dot name then go p rest'
        else if bool_decide (name = [DOT; DOT]) then go (removelast p) rest'
        else
          match d_get (p ++ [name]) fs with
          | Some (Link target) =>
              match links with
              | O => TooManyLinks
              | S k => follow k fs (if is_absolute target then [] else p) (split_slash target ++ rest')
              end
          | Some _ => go (p ++ [name]) rest'
          | None => NotFound
          end
    end.

Definition MAX_LINKS : nat := 40.

Definition stat (fs : FileSystem) (p : path) : result Found :=
  if existsb has_null p then Raise (ValueError "embedded null byte") else Ok (follow MAX_LINKS fs [] p).

(** [Path.resolve] of an absolute path; the path its error names is left out. *)
Definition path_resolve (fs : FileSystem) (p : path) : result path :=
  q ← realpath fs p;
  found ← stat fs q;
  match found with TooManyLinks => Raise (RuntimeError "Symlink loop") | _ => Ok q end.

Definition is_relative_to (p top : path) : bool := bool_decide (take (length top) p = top).

(** [is_file] and [read_bytes], which follow links, of a path [Path.resolve]
    returned (so one without a null character). *)
Definition read_file (fs : FileSystem) (p : path) : result (option bytes) :=
  found ← stat fs p;
  Ok (match found with FoundNode (File data) => Some data | _ => None end).

(** [resolve]; [root] is the absolute document root. *)
Definition resolve (fs : FileSystem) (root : path) (request : str) : result (option bytes) :=
  candidate ← path_resolve fs (root ++ components (lstrip (Z.eqb SLASH) request));
  top ← path_resolve fs root;
  if negb (is_relative_to candidate top) then Ok None else read_file fs candidate.

(** ** The walk ends *)

(** What the links not met yet may still add. *)
Definition unseen (seen : list (path * option path)) (e : path * Node) : Z :=
  if d_get e.1 seen is Some _ then 0 else link_weight e.
Definition budget (fs : FileSystem) (seen : list (path * option path)) : Z := sum_by (unseen seen) fs.

Lemma link_weight_nonneg e : 0 <= link_weight e.
Proof. unfold link_weight. destruct (e.2) as [| |target]; try lia. pose proof (len_nonneg (split_slash target)). lia. Qed.
Lemma unseen_nonneg seen e : 0 <= unseen seen e.
Proof. unfold unseen. pose proof (link_weight_nonneg e). by case_match. Qed.

Lemma budget_grow fs seen seen' :
  (∀ k, is_Some (d_get k seen) → is_Some (d_get k seen')) → budget fs seen' <= budget fs seen.
Proof.
  intros H. apply sum_by_le. intros [k n]. unfold unseen. cbn. pose proof (link_weight_nonneg (k, n)).
  destruct (d_get k seen) eqn:E; [|by case_match]. destruct (H k) as [x ->]; [by eexists|done].
Qed.

Lemma budget_meet fs seen p target x :
  d_get p fs = Some (Link target) → d_get p seen = None →
  budget fs (d_set p x seen) + 1 + len (split_slash target) <= budget fs seen.
Proof.
  intros Hp Hs. apply d_get_elem in Hp as (l1 & l2 & ->)%list_elem_of_split.
  unfold budget. rewrite !sum_by_app, !sum_by_cons.
  assert (Hle : ∀ l, sum_by (unseen (d_set p x seen)) l <= sum_by (unseen seen) l).
  { intros l. apply budget_grow. intros k [y Hk]. destruct (decide (p = k)) as [<-|]; [by rewrite Hk in Hs|].
    rewrite d_get_set_ne by done. by eexists. }
  pose proof (Hle l1). pose proof (Hle l2).
  assert (E1 : unseen (d_set p x seen) (p, Link target) = 0) by (unfold unseen; cbn; by rewrite d_get_set_eq).
  assert (E2 : unseen seen (p, Link target) = 1 + len (split_slash target)) by (unfold unseen; cbn; by rewrite Hs).
  lia.
Qed.

Definition walked {A} (r : result A) (P : A → Prop) : Prop :=
  match r with Ok a => P a | Raise e => e = ValueError "embedded null byte" end.

(** With fuel for its budget the walk ends: it returns, having met at least
    the links it knew, or a name has a null character. *)
Lemma join_realpath_ends fuel fs : ∀ seen p rest,
  len rest + budget fs seen <= Z.of_nat fuel →
  walked (join_realpath fuel fs seen p rest)
    (λ r, ∀ k, is_Some (d_get k seen) → is_Some (d_get k r.2)).
Proof.
  assert (Hset : ∀ (k q : path) (x : option path) (d : list (path * option path)),
    is_Some (d_get k d) → is_Some (d_get k (d_set q x d))).
  { intros k q x d [y Hy]. destruct (decide (q = k)) as [<-|]; [rewrite d_get_set_eq|rewrite d_get_set_ne by done]; by eexists. }
  induction fuel as [|fuel IH]; intros seen p [|name rest] Hf; cbn [join_realpath walked snd]; try done.
  - pose proof (len_nonneg rest). assert (0 <= budget fs seen) by (apply sum_by_nonneg; intros; apply unseen_nonneg).
    rewrite len_cons in Hf. lia.
  - rewrite len_cons in Hf. destruct (is_dot name); [apply IH; lia|]. destruct (bool_decide _); [apply IH; lia|].
    unfold lstat. destruct (existsb has_null _); [done|]. cbn [mbind result_bind].
    destruct (d_get (p ++ [name]) fs) as [[data| |target]|] eqn:En; try (apply IH; lia).
    destruct (d_get (p ++ [name]) seen) as [[q|]|] eqn:Es; [apply IH; lia|by cbn|].
    pose proof (budget_meet fs seen (p ++ [name]) target None En Es) as Hb. pose proof (len_nonneg rest).
    specialize (IH (d_set (p ++ [name]) None seen)) as IH1.
    specialize (IH1 (if is_absolute target then [] else p) (split_slash target) ltac:(lia)).
    destruct (join_realpath fuel fs _ _ _) as [[w seen']|e]; cbn [mbind result_bind walked] in *; [|done].
    assert (Hkeep : ∀ k, is_Some (d_get k seen) → is_Some (d_get k seen')) by (intros k Hk; apply IH1; cbn; auto).
    destruct w as [q|raw]; [|exact Hkeep].
    specialize (IH (d_set (p ++ [name]) (Some q) seen') q rest).
    assert (Hb' : budget fs (d_set (p ++ [name]) (Some q) seen') <= budget fs (d_set (p ++ [name]) None seen)).
    { apply budget_grow. intros k Hk. apply Hset. by apply IH1. }
    pose proof (len_nonneg (split_slash target)). specialize (IH ltac:(lia)).
    destruct (join_realpath fuel fs _ q rest) as [[w' seen'']|e]; cbn in *; [|done]. intros k Hk. apply IH. auto.
Qed.

Lemma walk_ends fs rest : walked (walk fs rest) (λ _, True).
Proof.
  unfold walk. pose proof (join_realpath_ends (realpath_fuel fs rest) fs [] [] rest) as H.
  assert (Hb : budget fs [] = sum_by link_weight fs) by done. pose proof (len_nonneg rest).
  assert (0 <= sum_by link_weight fs) by (apply sum_by_nonneg; intros; apply link_weight_nonneg).
  unfold realpath_fuel in *. specialize (H ltac:(lia)).
  destruct (join_realpath _ _ _ _ _) as [[w seen]|e]; done.
Qed.

(** ** What it arrives at *)

(** A name that stands for an entry of a directory. *)
Definition proper (n : str) : Prop := is_dot n = false ∧ n ≠ [DOT; DOT] ∧ has_null n = false.

(** No link on the way, no name that is not an entry. *)
Definition canonical (fs : FileSystem) (p : path) : Prop :=
  Forall proper p ∧ ∀ q t, q `prefix_of` p → d_get q fs = Some (Link t) → q = [].

Lemma canonical_nil fs : canonical fs [].
Proof. split; [constructor|]. intros q t Hq _. by apply prefix_nil_inv in Hq. Qed.

Lemma canonical_prefix fs p q : q `prefix_of` p → canonical fs p → canonical fs q.
Proof.
  intros Hq [Hn Hl]. split; [|intros x t Hx; apply Hl; by etransitivity].
  destruct Hq as [k ->]. by apply Forall_app in Hn as [? _].
Qed.

Lemma prefix_of_snoc {A} (q p : list A) n : q `prefix_of` p ++ [n] → q `prefix_of` p ∨ q = p ++ [n].
Proof.
  intros [k Hk]. destruct k as [|x k _] using rev_ind; [right; by rewrite app_nil_r in Hk|].
  rewrite app_assoc in Hk. apply app_inj_tail in Hk as [-> _]. left. by exists k.
Qed.

Lemma canonical_snoc fs p n :
  canonical fs p → proper n → (∀ t, d_get (p ++ [n]) fs ≠ Some (Link t)) → canonical fs (p ++ [n]).
Proof.
  intros [Hn Hl] Hp Hg. split; [apply Forall_app; split; [done|by constructor]|].
  intros q t [Hq| ->]%prefix_of_snoc Hqt; [by eapply Hl|by destruct (Hg t)].
Qed.

Lemma canonical_parent fs p : canonical fs p → canonical fs (removelast p).
Proof.
  apply canonical_prefix. destruct p as [|x p _] using rev_ind; [done|]. rewrite removelast_last. by exists [x].
Qed.

Lemma canonical_null fs p : canonical fs p → existsb has_null p = false.
Proof.
  intros [Hp _]. induction Hp as [|n p (_ & _ & Hn) _ IH]; [done|]. cbn [existsb]. by rewrite Hn.
Qed.

(** Links remembered as resolved are canonical. *)
Definition resolved (fs : FileSystem) (seen : list (path * option path)) : Prop :=
  ∀ k q, d_get k seen = Some (Some q) → canonical fs q.

Lemma resolved_set fs seen k x :
  resolved fs seen → (∀ q, x = Some q → canonical fs q) → resolved fs (d_set k x seen).
Proof.
  intros Hs Hx k' q. destruct (decide (k = k')) as [<-|].
  - rewrite d_get_set_eq. intros [= ->]. by apply Hx.
  - rewrite d_get_set_ne by done. apply Hs.
Qed.

Lemma join_realpath_canonical fuel fs : ∀ seen p rest w seen',
  canonical fs p → resolved fs seen → join_realpath fuel fs seen p rest = Ok (w, seen') →
  (∀ q, w = Reached q → canonical fs q) ∧ resolved fs seen'.
Proof.
  induction fuel as [|fuel IH]; intros seen p [|name rest] w seen' Hp Hs; cbn [join_realpath];
    try (by intros [= <- <-]; split; try (intros q [= <-])).
  destruct (is_dot name) eqn:Edot; [by apply IH|]. case_bool_decide as Hdots; [apply IH; auto using canonical_parent|].
  intros (node & Hnode & H)%result_bind_inv. unfold lstat in Hnode. case_test_in Hnode; [done|]. injection Hnode as <-.
  assert (Hname : proper name).
  { split_and!; try done. rewrite existsb_app in *. cbn [existsb] in *. by destruct (has_null name), (existsb has_null p). }
  destruct (d_get (p ++ [name]) fs) as [[data| |target]|] eqn:En;
    try (eapply IH in H; [exact H| |done]; apply canonical_snoc; [done|done|intros t; by rewrite En]).
  destruct (d_get (p ++ [name]) seen) as [[x|]|] eqn:Es.
  - eapply IH in H; [exact H|by eapply Hs|done].
  - by injection H as <- <-.
  - apply result_bind_inv in H as ([x seenx] & Hx & H). eapply IH in Hx as [Hcx Hsx]; [| |by apply resolved_set].
    + destruct x as [x|raw]; [|by injection H as <- <-]. eapply IH in H; [exact H|by apply Hcx|].
      apply resolved_set; [done|]. intros y [= <-]. by apply Hcx.
    + destruct (is_absolute target); [apply canonical_nil|done].
Qed.

Lemma walk_canonical fs rest p : walk fs rest = Ok (Reached p) → canonical fs p.
Proof.
  unfold walk. intros ([w seen] & E & [= ->])%result_bind_inv.
  eapply join_realpath_canonical in E as [H _]; [by apply H|apply canonical_nil|done].
Qed.

Lemma follow_step links fs p name rest : follow links fs p (name :: rest) =
  if negb (is_directory fs p) then NotFound
  else if is_dot name then follow links fs p rest
  else if bool_decide (name = [DOT; DOT]) then follow links fs (removelast p) rest
  else
    match d_get (p ++ [name]) fs with
    | Some (Link target) =>
        match links with
        | O => TooManyLinks
        | S k => follow k fs (if is_absolute target then [] else p) (split_slash target ++ rest)
        end
    | Some _ => follow links fs (p ++ [name]) rest
    | None => NotFound
    end.
Proof. by destruct links. Qed.
Lemma follow_end links fs p : follow links fs p [] = match node_at fs p with Some n => FoundNode n | None => NotFound end.
Proof. by destruct links. Qed.

(** The system finds at a canonical path what the tree has there, and follows
    no link. *)
Lemma follow_canonical links fs rest : ∀ p, canonical fs (p ++ rest) →
  match follow links fs p rest with
  | FoundNode n => node_at fs (p ++ rest) = Some n
  | NotFound => True
  | TooManyLinks => False
  end.
Proof.
  induction rest as [|name rest IH]; intros p Hc; [rewrite follow_end, app_nil_r; by destruct (node_at fs p)|].
  rewrite follow_step. destruct (is_directory fs p); cbn [negb]; [|done].
  destruct Hc as [Hn Hl]. pose proof Hn as [_ [(Hd & Hdd & _) _]%Forall_cons_1]%Forall_app. rewrite Hd, bool_decide_false by done.
  assert (Hpre : p ++ [name] `prefix_of` p ++ name :: rest) by (exists rest; by rewrite <- app_assoc).
  specialize (IH (p ++ [name])). rewrite <- app_assoc in IH. cbn [app] in IH.
  destruct (d_get (p ++ [name]) fs) as [[]|] eqn:E; try done; try (by apply IH). specialize (Hl _ _ Hpre E). by destruct p.
Qed.

Lemma stat_canonical fs p : canonical fs p →
  ∃ found, stat fs p = Ok found ∧
    match found with FoundNode n => node_at fs p = Some n | NotFound => True | TooManyLinks => False end.
Proof.
  intros Hc. unfold stat. rewrite (canonical_null fs p Hc). eexists. split; [done|]. by apply (follow_canonical _ _ _ []).
Qed.

Lemma stat_ends fs p : walked (stat fs p) (λ _, True).
Proof. unfold stat. by destruct (existsb has_null p). Qed.

(** ** A tree without links *)

(** Names that are followed downwards. *)
Definition downward (p : path) : Prop := Forall (λ n, is_dot n = false ∧ n ≠ [DOT; DOT]) p.

Definition no_links (fs : FileSystem) : Prop := ∀ k t, d_get k fs ≠ Some (Link t).

(** What has an entry is a directory. *)
Definition hierarchical (fs : FileSystem) : Prop := ∀ p n, d_get (p ++ [n]) fs ≠ None → is_directory fs p = true.

Lemma join_realpath_plain fuel fs : ∀ seen p rest,
  no_links fs → downward rest → existsb has_null p = false → len rest <= Z.of_nat fuel →
  join_realpath fuel fs seen p rest =
    if existsb has_null rest then Raise (ValueError "embedded null byte") else Ok (Reached (p ++ rest), seen).
Proof.
  intros seen p rest Hl. revert seen p rest. induction fuel as [|fuel IH]; intros seen p [|name rest] Hd Hp Hf; cbn [join_realpath].
  - by rewrite app_nil_r.
  - rewrite len_cons in Hf. pose proof (len_nonneg rest). lia.
  - by rewrite app_nil_r.
  - apply Forall_cons in Hd as [[Hdot Hdd] Hd']. rewrite Hdot, bool_decide_false by done. rewrite len_cons in Hf.
    unfold lstat. rewrite existsb_app, Hp. cbn [existsb orb]. rewrite orb_false_r. destruct (has_null name) eqn:En; [done|].
    cbn [mbind result_bind orb]. assert (Hp' : existsb has_null (p ++ [name]) = false) by (rewrite existsb_app, Hp; cbn; by rewrite En).
    specialize (Hl (p ++ [name])). rewrite (app_assoc p [name] rest : p ++ name :: rest = _).
    destruct (d_get (p ++ [name]) fs) as [[| |t]|]; try (apply IH; (done || lia)). by destruct (Hl t).
Qed.

Lemma walk_plain fs rest : no_links fs → downward rest →
  walk fs rest = if existsb has_null rest then Raise (ValueError "embedded null byte") else Ok (Reached rest).
Proof.
  intros Hl Hd. unfold walk. rewrite join_realpath_plain; try done; [by destruct (existsb has_null rest)|].
  unfold realpath_fuel. assert (0 <= sum_by link_weight fs) by (apply sum_by_nonneg; intros; apply link_weight_nonneg). lia.
Qed.

Lemma hierarchical_above fs p name rest :
  hierarchical fs → d_get (p ++ name :: rest) fs ≠ None → is_directory fs p = true.
Proof.
  intros Ht. induction rest as [|x rest IH] using rev_ind; [apply Ht|]. intros H. apply IH.
  assert (Hd : is_directory fs (p ++ name :: rest) = true) by (apply (Ht _ x); by rewrite <- app_assoc).
  unfold is_directory, node_at in Hd. destruct (p ++ name :: rest) eqn:E; [by destruct p|]. intros E'. by rewrite E' in Hd.
Qed.

Lemma follow_plain links fs rest : no_links fs → hierarchical fs → downward rest → ∀ p,
  follow links fs p rest = match node_at fs (p ++ rest) with Some n => FoundNode n | None => NotFound end.
Proof.
  intros Hl Ht. induction 1 as [|name rest [Hdot Hdd] _ IH]; intros p; [by rewrite follow_end, app_nil_r|].
  rewrite follow_step, Hdot, bool_decide_false by done.
  assert (Hnode : node_at fs (p ++ name :: rest) = d_get (p ++ name :: rest) fs) by (unfold node_at; by destruct p).
  rewrite Hnode. destruct (is_directory fs p) eqn:Ed; cbn [negb].
  2: { destruct (d_get (p ++ name :: rest) fs) eqn:E; [|done]. by rewrite (hierarchical_above fs p name rest Ht) in Ed by (by rewrite E). }
  specialize (IH (p ++ [name])). rewrite <- app_assoc in IH. cbn [app] in IH. rewrite Hnode in IH. specialize (Hl (p ++ [name])).
  destruct (d_get (p ++ [name]) fs) as [[| |t]|] eqn:E; [exact IH|exact IH|by destruct (Hl t)|].
  destruct (d_get (p ++ name :: rest) fs) eqn:E'; [|done]. destruct rest as [|x rest]; [by rewrite E in E'|].
  assert (Hd : is_directory fs (p ++ [name]) = true).
  { apply (hierarchical_above fs _ x rest Ht). rewrite <- app_assoc. cbn [app]. by rewrite E'. }
  unfold is_directory, node_at in Hd. destruct (p ++ [name]) eqn:E2; [by destruct p|]. by rewrite E in Hd.
Qed.

Lemma components_slash s : components (SLASH :: s) = components s.
Proof. done. Qed.

Lemma components_lstrip s : components (lstrip (Z.eqb SLASH) s) = components s.
Proof.
  induction s as [|c s IH]; [done|]. cbn [lstrip]. destruct (Z.eqb_spec SLASH c) as [<-|]; [|done].
  by rewrite components_slash.
Qed.

Lemma split_slash_null s : existsb has_null (split_slash s) = has_null s.
Proof.
  induction s as [|c s IH]; [done|]. cbn [split_slash]. destruct (Z.eqb_spec c SLASH) as [->|].
  - cbn [existsb]. rewrite IH. done.
  - change (has_null (c :: s)) with ((0 =? c) || has_null s). rewrite <- IH.
    destruct (split_slash s) as [|seg segs]; [unfold has_null; cbn; by rewrite !orb_false_r|]. cbn [existsb].
    change (has_null (c :: seg)) with ((0 =? c) || has_null seg). by rewrite orb_assoc.
Qed.

Lemma components_names s : Forall (λ n, n ≠ [] ∧ n ≠ [DOT]) (components s).
Proof.
  apply Forall_forall. intros n Hn. unfold components, is_dot in Hn. apply list_elem_of_In, filter_In in Hn as [_ Hn].
  by destruct (decide (n = [])), (decide (n = [DOT])); subst.
Qed.

Lemma components_null s : existsb has_null (components s) = has_null s.
Proof.
  rewrite <- split_slash_null. unfold components. induction (split_slash s) as [|n l IH]; [done|]. cbn [List.filter existsb].
  destruct (is_dot n) eqn:Ed; cbn [negb existsb]; rewrite IH; [|done].
  unfold is_dot in Ed. apply orb_true_iff in Ed as [E|E]; apply bool_decide_eq_true in E as ->; done.
Qed.

Lemma components_downward s : [DOT; DOT] ∉ split_slash s → downward (components s).
Proof.
  intros H. apply Forall_forall. intros n Hn. unfold components in Hn. apply list_elem_of_In, filter_In in Hn as [Hin Hn].
  split; [by destruct (is_dot n)|]. intros ->. by apply H, list_elem_of_In.
Qed.

(** ** Theorems *)

(** A walk that meets a link leading back to itself. *)
Definition loops (fs : FileSystem) (p : path) : Prop := ∃ raw, walk fs p = Ok (Cut raw).


(** In a tree without links a request without [..] names exactly the file at
    its path under the root; one with a null character raises. *)
Theorem resolve_plain fs root request
  (Hlinks : no_links fs) (Htree : hierarchical fs)
  (Hroot : downward root ∧ existsb has_null root = false) (Hdots : [DOT; DOT] ∉ split_slash request) :
  resolve fs root request =
    if has_null request then Raise (ValueError "embedded null byte")
    else Ok (match node_at fs (root ++ components request) with Some (File data) => Some data | _ => None end).
Proof.
  destruct Hroot as [Hr Hn]. unfold resolve. rewrite components_lstrip.
  assert (Hres : ∀ p, downward p → path_resolve fs p = if existsb has_null p then Raise (ValueError "embedded null byte") else Ok p).
  { intros p Hp. unfold path_resolve, realpath, stat. rewrite walk_plain by done. destruct (existsb has_null p) eqn:E; [done|].
    cbn [mbind result_bind]. rewrite E. cbn [mbind result_bind]. rewrite follow_plain by done. by destruct (node_at _ _). }
  assert (Hd : downward (root ++ components request)) by (apply Forall_app; split; [done|by apply components_downward]).
  rewrite !Hres by done. rewrite existsb_app, Hn, components_null. cbn [orb]. destruct (has_null request) eqn:Enull; [done|].
  cbn [mbind result_bind]. unfold is_relative_to. rewrite take_app_length, bool_decide_true by done. cbn [negb].
  unfold read_file, stat. rewrite existsb_app, Hn, components_null, Enull. cbn [orb mbind result_bind].
  rewrite follow_plain by done. rewrite app_nil_l. by destruct (node_at _ _) as [[]|].
Qed.

(** ** Witnesses

    A tree with a file under the root, a link to it, a link out of the root,
    two links that lead to each other, and links that lead to themselves and
    go on from there. *)
Definition sample_root : path := [code "srv"; code "www"].
Definition sample_tree : FileSystem :=
  [([code "srv"], Directory); (sample_root, Directory); (sample_root ++ [code "index.html"], File [x68; x69]);
   (sample_root ++ [code "home"], Link (code "index.html")); (sample_root ++ [code "passwd"], Link (code "/etc/passwd"));
   (sample_root ++ [code "up"], Link (code "../../etc")); (sample_root ++ [code "a"], Link (code "b"));
   (sample_root ++ [code "b"], Link (code "./a")); (sample_root ++ [code "c"], Link (code "c/../passwd"));
   (sample_root ++ [code "d"], Link (code "d//srv/www/passwd")); (sample_root ++ [code "e"], Link (code "none/../e"));
   ([code "etc"], Directory); ([code "etc"; code "passwd"], File [x21])].

Example sample_served :
  map (resolve sample_tree sample_root)
    [code "/index.html"; code "//./index.html"; code "/home"; code "/passwd"; code "/up/passwd"; code "/a"; code "/e"; code "/none"; code "/"] =
  [Ok (Some [x68; x69]); Ok (Some [x68; x69]); Ok (Some [x68; x69]); Ok None; Ok None; Raise (RuntimeError "Symlink loop");
   Ok None; Ok None; Ok None].
Proof. by vm_compute. Qed.

(** Where a loop of links goes on with [..], or after a doubled slash,
    [realpath] gives up and leaves the rest to [normpath]; the path it returns
    ends in a link nobody resolved, lies under the root by its names, and
    [read_bytes] follows that link out of the root. *)
Fact loop_escapes :
  resolve sample_tree sample_root (code "/passwd") = Ok None ∧
  map (resolve sample_tree sample_root) [code "/c"; code "/d"] = [Ok (Some [x21]); Ok (Some [x21])] ∧
  d_get [code "etc"; code "passwd"] sample_tree = Some (File [x21]).
Proof. by vm_compute. Qed.


Lemma hierarchical_check fs : forallb (λ e, is_directory fs (removelast e.1)) fs = true → hierarchical fs.
Proof.
  intros H p n Hn. destruct (d_get (p ++ [n]) fs) as [x|] eqn:E; [|done]. apply d_get_elem, list_elem_of_In in E.
  rewrite forallb_forall in H. specialize (H _ E). cbn [fst] in H. by rewrite removelast_last in H.
Qed.

Lemma resolve_plain_witness :
  resolve [([code "srv"], Directory); (sample_root, Directory); (sample_root ++ [code "f"], File [x21])] sample_root [SLASH; 0] =
    Raise (ValueError "embedded null byte").
Proof.
  rewrite resolve_plain; [reflexivity| | | |].
  - intros k t. cbn. by repeat case_decide.
  - by apply hierarchical_check.
  - split; [|reflexivity]. by repeat constructor.
  - apply (bool_decide_unpack _). reflexivity.
Defined.
