(* ===== verification/TlsInstance.v ===== *)
(** * The TLS state machines behind the connection

    [TlsClient] and [TlsServer] as an instance of the class [Tls] the connection
    is modelled over, so that every theorem about connections holds of
    connections that run the handshake of [src/dsquic/tls.py]; and whole
    connections run that way. *)

From Stdlib Require Import Strings.String QArith.
From S2P Require Import Prelude Buffer Frames Packet TransportParameters RangeSet Streams StreamManager.
From S2P Require Import Congestion NewReno Recovery Crypto Protection Retry TlsInterface Spaces ConnState ConnRecv.
From S2P Require Import ConnSend ConnRuns Handshake KeySchedule TlsCore TlsClient TlsServer TlsRuns.
#[local] Open Scope Z_scope.

Section instance.
Context `{HP : Primitives} `{HT : TlsPrimitives}.

(** [replace(config, transport_parameters=...)] *)
Definition with_client_parameters (p : bytes) (c : ClientConfig) : ClientConfig :=
  mkClientConfig (cfg_server_name c) (cfg_alpn c) p (cfg_ca_certificates c) (cfg_insecure_skip_verify c)
    (cfg_verification_time c) (cfg_key_share_groups c) (cfg_session_ticket c) (cfg_cipher_suites c) (cfg_early_data c).
Definition with_server_parameters (p : bytes) (c : ServerConfig) : ServerConfig :=
  mkServerConfig (scfg_certificate_chain c) (scfg_signing_key c) (scfg_alpn c) p (scfg_ticket_key c).

(** [Connection.tls] when it is set *)
Definition TlsMachine : Type := TlsClient + TlsServer.

(** A method both classes inherit *)
Definition on_machine {A} (m : M HandshakeState A) : M TlsMachine A := λ t,
  match t with
  | inl c => let '(r, c') := on_hs m c in (r, inl c')
  | inr s => let '(r, s') := at_hs m s in (r, inr s')
  end.

Definition machine_start (now : Q) : M TlsMachine unit := λ t,
  match t with
  | inl c => let '(r, c') := start now c in (r, inl c')
  | inr _ => (Raise AssertionError, t)
  end.
Definition machine_receive (level : EncryptionLevel) (data : bytes) (now : Q) : M TlsMachine unit := λ t,
  match t with
  | inl c => let '(r, c') := receive level data now c in (r, inl c')
  | inr s => let '(r, s') := receive level data now s in (r, inr s')
  end.
Definition machine_take_events (t : TlsMachine) : list TlsEvent * TlsMachine :=
  match t with
  | inl c => let '(l, h) := hs_take_events (tc_hs c) in (l, inl (set_tc_hs h c))
  | inr s => let '(l, h) := hs_take_events (ts_hs s) in (l, inr (set_ts_hs h s))
  end.

(** Each connection draws its random values and keys from its own source. *)
Definition tls_machines : Tls := {|
  tls_state := TlsMachine;
  tls_client_config := ClientConfig * Entropy;
  tls_server_config := ServerConfig * Entropy;
  client_early_data c := cfg_early_data c.1;
  client_ticket_parameters c := st_transport_parameters <$> cfg_session_ticket c.1;
  tls_new_client c p := inl (new_TlsClient (with_client_parameters p c.1) None None c.2);
  tls_new_server c p := inr (new_TlsServer (with_server_parameters p c.1) None None c.2);
  tls_start := machine_start;
  tls_receive := machine_receive;
  tls_take_events := machine_take_events;
  tls_early_secret t := match t with inl c => tc_early_secret c | inr s => ts_early_secret s end;
  tls_cipher_suite t := match t with inl c => hs_cipher_suite (tc_hs c) | inr s => hs_cipher_suite (ts_hs s) end;
  tls_early_data_accepted t := match t with inl c => tc_early_data_accepted c | inr s => ts_early_data_accepted s end;
  tls_resumed t := match t with inl c => tc_resumed c | inr s => ts_resumed s end;
  tls_client_transport_parameters t := match t with inl _ => [] | inr s => ts_client_transport_parameters s end |}.
End instance.

(** ** Connections over the real handshake *)

#[local] Existing Instance tls_machines | 0.

Abbreviation TlsConnection := (Connection (H := tls_machines)).

Definition tls_client_connection (now : Q) (ticket : option SessionTicket) : result TlsConnection :=
  c ← new_Connection true (Some (sample_client_config ticket None, sample_entropy 3)) None toy_config None
        (replicate 8 xc1) (replicate 8 xd1);
  match connect now c with (Ok tt, c') => Ok c' | (Raise e, _) => Raise e end.
Definition tls_server_connection : result TlsConnection :=
  new_Connection false None (Some (sample_server_config, sample_entropy 5)) toy_config None (replicate 8 xe1) [].

(** A request on the first stream *)
Definition request : M TlsConnection unit := i ← open_stream; send_stream_data i (ascii_bytes "GET /") true.

(** A first connection, and the ticket it leaves the client *)
Definition tls_handshake : result (TlsConnection * TlsConnection) :=
  c ← tls_client_connection 0 None; s ← tls_server_connection; exchange_flights 0 c s.
Definition ticket_of_connection (c : TlsConnection) : option SessionTicket :=
  match cn_tls c with Some (inl t) => head (tc_session_tickets t) | _ => None end.

(** A second one that offers the ticket and asks before the handshake *)
Definition tls_resumption (ticket : option SessionTicket) : result (TlsConnection * TlsConnection) :=
  c ← tls_client_connection 5 ticket; s ← tls_server_connection;
  match request c with
  | (Ok _, c) => exchange_flights 5 c s
  | (Raise e, _) => Raise e
  end.

(** The parts work together over the real handshake.  Two connections whose
    TLS is the client and the server of tls.py complete a first handshake, and
    the client is left with one session ticket.  A second connection that offers
    it and writes a request before its first datagram leaves is resumed with
    early data accepted: the server has the whole request, the end of the stream
    included, before the handshake completes, and both sides then complete and
    confirm it. *)
Theorem zero_rtt_over_tls :
  match '(c1, s1) ← tls_handshake; '(c2, s2) ← tls_resumption (ticket_of_connection c1); Ok (c1, s1, c2, s2) with
  | Ok (c1, s1, c2, s2) =>
      cn_state c1 = CONNECTED ∧ cn_state s1 = CONNECTED ∧ cn_state c2 = CONNECTED ∧ cn_state s2 = CONNECTED ∧
      cn_events c2 = [HandshakeCompleted "hq-interop"; HandshakeConfirmed "hq-interop"] ∧
      cn_events s2 = StreamDataReceived 0 (ascii_bytes "GET /") true :: cn_events c2 ∧
      (tls_early_data_accepted <$> cn_tls c2) = Some true ∧ (tls_early_data_accepted <$> cn_tls s2) = Some true
  | Raise _ => False
  end.
Proof. vm_compute. repeat split. Qed.
