(* ===== verification/Endpoints.v ===== *)
(** * What the endpoints share (endpoints/__init__.py)

    How long an endpoint sleeps and how it reads a datagram's ECN codepoint,
    from [src/dsquic/endpoints/__init__.py].  The select call and the sockets
    are I/O; the deadlines, the time and the ancillary data are inputs.  The
    constants are those of Linux, and integers are little-endian. *)

From Stdlib Require Import QArith.
From S2P Require Import Prelude Buffer Congestion.
#[local] Open Scope Z_scope.

Definition IPPROTO_IP : Z := 0.
Definition IPPROTO_IPV6 : Z := 41.

(** [_ecn_of] *)
Fixpoint ecn_of (ancdata : list (Z * Z * bytes)) : Z :=
  match ancdata with
  | [] => 0
  | (level, _, data) :: ancdata' =>
      if ((level =? IPPROTO_IP) || (level =? IPPROTO_IPV6)) && negb (len data =? 0) then
        let value := if len data =? 1 then Zb (default x00 (head data)) else from_bytes (reverse (slice 0 4 data)) in
        Z.land value 3
      else ecn_of ancdata'
  end.

(** [min(values)] *)
Definition min_deadline (first : Q) (values : list Q) : Q := fold_left (λ m v, if Qltb v m then v else m) values first.

(** The timeout [wait_for_readable] selects with *)
Definition wait_time (deadlines : list (option Q)) (now : Q) : option Q :=
  match omap id deadlines with
  | [] => None
  | t :: ts => let wait := (min_deadline t ts - now)%Q in Some (if Qltb wait 0 then 0%Q else wait)
  end.

(** ** Lemmas *)

Lemma min_deadline_spec t ts : min_deadline t ts ∈ t :: ts ∧ ∀ v, v ∈ t :: ts → (min_deadline t ts <= v)%Q.
Proof.
  unfold min_deadline. revert t. induction ts as [|v ts IH]; intros t; cbn [fold_left].
  - split; [set_solver|]. intros v ->%list_elem_of_singleton. apply Qle_refl.
  - destruct (IH (if Qltb v t then v else t)) as [Hin Hle]. split; [destruct (Qltb v t); set_solver|].
    assert (∀ x, (x <= t)%Q ∧ (x <= v)%Q ↔ (x <= (if Qltb v t then v else t))%Q) as Hmin.
    { intros x. destruct (Qltb v t) eqn:E.
      - apply Qltb_lt in E. split; [tauto|]. intros H. split; [|done]. eapply Qle_trans; [exact H|]. by apply Qlt_le_weak.
      - apply Qltb_ge in E. split; [tauto|]. intros H. split; [done|]. by eapply Qle_trans. }
    destruct (proj2 (Hmin _) (Hle _ ltac:(left))) as [Ht Hv].
    intros u [-> |[-> |Hu]%elem_of_cons]%elem_of_cons; [done|done|]. apply Hle. by right.
Qed.

(** The wait ends no later than every deadline still to come, is over at once
    when one has passed, and is no shorter than the earliest asks. *)
Lemma wait_time_spec deadlines now :
  match wait_time deadlines now with
  | None => ∀ d, d ∈ deadlines → d = None
  | Some wait => (0 <= wait)%Q ∧
      (∀ t, Some t ∈ deadlines → (now <= t)%Q → (now + wait <= t)%Q) ∧
      (∀ t, Some t ∈ deadlines → (t <= now)%Q → (wait == 0)%Q) ∧
      ((0 < wait)%Q → ∃ t, Some t ∈ deadlines ∧ (wait == t - now)%Q)
  end.
Proof.
  assert (∀ t, t ∈ omap id deadlines ↔ Some t ∈ deadlines) as Hin.
  { intros t. rewrite list_elem_of_omap. unfold id. split; [by intros (? & ? & ->)|eauto]. }
  unfold wait_time. destruct (omap id deadlines) as [|t ts].
  { intros [d|] Hd; [|done]. apply Hin in Hd. by apply not_elem_of_nil in Hd. }
  destruct (min_deadline_spec t ts) as [He Hle]. set (m := min_deadline t ts) in *. destruct (Qltb (m - now) 0) eqn:E.
  - apply Qltb_lt in E. split; [apply Qle_refl|]. split_and!; [|by intros; apply Qeq_refl|by intros []%Qlt_irrefl].
    intros u _ Hu. by rewrite Qplus_0_r.
  - apply Qltb_ge in E. split; [done|]. split_and!.
    + intros u Hu%Hin%Hle _. assert (now + (m - now) == m)%Q as Em by ring. by rewrite Em.
    + intros u Hu%Hin%Hle Hn. apply Qle_antisym; [|done]. rewrite <- (Qplus_opp_r now).
      apply Qplus_le_compat; [|apply Qle_refl]. by eapply Qle_trans.
    + intros _. exists m. split; [by apply Hin|apply Qeq_refl].
Qed.

Lemma ecn_of_range ancdata : 0 <= ecn_of ancdata <= 3.
Proof.
  induction ancdata as [|[[level k] data] ancdata IH]; cbn [ecn_of]; [done|]. case_test; [|exact IH].
  match goal with |- 0 <= Z.land ?v _ <= _ =>
    change (Z.land v 3) with (Z.land v (Z.ones 2)); rewrite Z.land_ones by done;
    pose proof (Z.mod_pos_bound v (2 ^ 2) eq_refl) end.
  change (2 ^ 2) with 4 in *. lia.
Qed.
