(* ===== verification/Sockets.v ===== *)
(** * What the endpoints do to their sockets (endpoints/__init__.py)

    [enable_ecn], [_set_ecn], the body of [send_pending] and the receive loop of
    [wait_for_readable] in [src/dsquic/endpoints/__init__.py].  A socket is its
    family, the options set on it and what was sent from it.  The operating
    system is the class [SocketLayer]: which options it takes, which ECN
    codepoint an outgoing datagram carries, and the ancillary data of an
    incoming one; what the socket API documents of it is the class
    [SocketLaws].  The constants are those of Linux. *)

From Stdlib Require Import QArith.
From S2P Require Import Prelude Buffer Frames Packet TransportParameters RangeSet Streams StreamManager.
From S2P Require Import Congestion NewReno Recovery Crypto Protection Retry TlsInterface Spaces ConnState Endpoints.
#[local] Open Scope Z_scope.

Definition AF_INET : Z := 2.
Definition AF_INET6 : Z := 10.
Definition SOL_SOCKET : Z := 1.
Definition SO_REUSEADDR : Z := 2.
Definition IPV6_V6ONLY : Z := 26.
Definition IP_TOS : Z := 1.
Definition IP_RECVTOS : Z := 13.
Definition IPV6_RECVTCLASS : Z := 66.
Definition IPV6_TCLASS : Z := 67.
Definition MAX_DATAGRAM_RECV : Z := 65536.

Abbreviation options := (list (Z * Z * Z)).

(** The operating system, by address family: whether [setsockopt] takes an
    option, the ECN codepoint under which a datagram leaves for an address, and
    the ancillary data of a datagram that arrived from one under a codepoint. *)
Class SocketLayer : Type := {
  supports : Z → Z → Z → bool;
  outgoing_ecn : Z → options → bytes → Z;
  ancillary : Z → options → bytes → Z → list (Z * Z * bytes) }.

Record Socket : Type := mkSocket {
  so_family : Z; so_options : options; so_sent : list (bytes * bytes * Z) }.

Section sockets.
Context `{HS : SocketLayer}.

Definition setsockopt (level option value : Z) : M Socket unit := λ s,
  if supports (so_family s) level option
  then (Ok tt, mkSocket (so_family s) (d_set (level, option) value (so_options s)) (so_sent s))
  else (Raise OSError, s).

(** [try: ... except OSError: pass] *)
Definition ignore_os_error (m : M Socket unit) : M Socket unit :=
  catch m (λ e, match e with OSError => Some (mret tt) | _ => None end).

(** [enable_ecn] *)
Definition enable_ecn : M Socket unit :=
  s ← get;
  if so_family s =? AF_INET then setsockopt IPPROTO_IP IP_RECVTOS 1
  else
    _ ← setsockopt IPPROTO_IPV6 IPV6_RECVTCLASS 1;
    ignore_os_error (setsockopt IPPROTO_IP IP_RECVTOS 1).

(** [_set_ecn] *)
Definition sock_set_ecn (ecn : Z) : M Socket unit :=
  s ← get;
  if so_family s =? AF_INET then setsockopt IPPROTO_IP IP_TOS ecn
  else
    _ ← setsockopt IPPROTO_IPV6 IPV6_TCLASS ecn;
    ignore_os_error (setsockopt IPPROTO_IP IP_TOS ecn).

(** How [main] of the server prepares the socket it binds *)
Definition prepare_listener : M Socket unit :=
  s ← get;
  _ ← when (so_family s =? AF_INET6) (setsockopt IPPROTO_IPV6 IPV6_V6ONLY 0);
  setsockopt SOL_SOCKET SO_REUSEADDR 1.

Definition sock_sendto (data address : bytes) : M Socket unit :=
  modify (λ s, mkSocket (so_family s) (so_options s)
                 (so_sent s ++ [(data, address, outgoing_ecn (so_family s) (so_options s) address)])).

(** [send_pending], given the datagrams the connection has due *)
Definition send_datagrams (datagrams : list OutgoingDatagram) : M Socket unit :=
  each (λ d, match og_destination d with
             | Some destination => _ ← sock_set_ecn (og_ecn d); sock_sendto (og_data d) destination
             | None => mret tt
             end) datagrams.
End sockets.

(** The [while True] of [wait_for_readable] on one socket: what [recvmsg] gives
    (data, ancillary data, source) until it would block. *)
Definition drain (incoming : list (bytes * list (Z * Z * bytes) * bytes)) : list (bytes * bytes * Z) :=
  map (λ '(data, ancdata, source), (take (Z.to_nat MAX_DATAGRAM_RECV) data, source, ecn_of ancdata)) incoming.

(** [wait_for_readable]: how long it selects, and what it returns given what
    the readable sockets hold when the wait is over. *)
Definition wait_for_readable (deadlines : list (option Q)) (now : Q)
    (readable : list (list (bytes * list (Z * Z * bytes) * bytes))) : option Q * list (bytes * bytes * Z) :=
  (wait_time deadlines now, concat (drain <$> readable)).

(** What the socket API documents.  [carries_v4 family a]: traffic with [a] is
    IPv4, always so on an [AF_INET] socket, and for the mapped addresses of a
    dual-stack one.  IPv4 takes its codepoint from the type of service, IPv6
    from the traffic class, and each reports it in ancillary data of its own
    when asked to. *)
Class SocketLaws `(HS : SocketLayer) : Type := {
  carries_v4 : Z → bytes → bool;
  inet_is_v4 a : carries_v4 AF_INET a = true;
  sol_supports f o : supports f SOL_SOCKET o = true;
  inet_supports o : supports AF_INET IPPROTO_IP o = true;
  inet6_supports f o : f ≠ AF_INET → supports f IPPROTO_IPV6 o = true;
  outgoing_v4 f o a : carries_v4 f a = true →
    outgoing_ecn f o a = Z.land (default 0 (d_get (IPPROTO_IP, IP_TOS) o)) 3;
  outgoing_v6 f o a : carries_v4 f a = false →
    outgoing_ecn f o a = Z.land (default 0 (d_get (IPPROTO_IPV6, IPV6_TCLASS) o)) 3;
  ancillary_v4 f o a ecn : carries_v4 f a = true → d_get (IPPROTO_IP, IP_RECVTOS) o = Some 1 → 0 <= ecn <= 3 →
    ∃ tos, Z.land (Zb tos) 3 = ecn ∧ ancillary f o a ecn = [(IPPROTO_IP, IP_TOS, [tos])];
  ancillary_v6 f o a ecn : carries_v4 f a = false → d_get (IPPROTO_IPV6, IPV6_RECVTCLASS) o = Some 1 → 0 <= ecn <= 3 →
    ∃ class, len class = 4 ∧ Z.land (from_bytes (reverse class)) 3 = ecn ∧ ancillary f o a ecn = [(IPPROTO_IPV6, IPV6_TCLASS, class)] }.

Section facts.
Context `{HL : SocketLaws}.

(** The socket takes what IPv4 traffic with [a] needs: on a dual-stack socket
    some platforms refuse it. *)
Definition served (family : Z) (option : Z) (a : bytes) : Prop :=
  carries_v4 family a = true → supports family IPPROTO_IP option = true.

(** The pattern of [enable_ecn] and [_set_ecn]: afterwards the option holds for
    every kind of traffic the socket serves. *)
Lemma options_set o4 o6 v s :
  ∃ s', (if so_family s =? AF_INET then setsockopt IPPROTO_IP o4 v
         else _ ← setsockopt IPPROTO_IPV6 o6 v; ignore_os_error (setsockopt IPPROTO_IP o4 v)) s = (Ok tt, s') ∧
    so_family s' = so_family s ∧ so_sent s' = so_sent s ∧
    ∀ a, served (so_family s) o4 a →
      d_get (if carries_v4 (so_family s) a then (IPPROTO_IP, o4) else (IPPROTO_IPV6, o6)) (so_options s') = Some v.
Proof.
  unfold ignore_os_error, catch, setsockopt, served. destruct (Z.eqb_spec (so_family s) AF_INET) as [Ef|Ef].
  - rewrite Ef, inet_supports. eexists. split; [done|]. split; [done|]. split; [done|]. intros a _.
    rewrite inet_is_v4. apply d_get_set_eq.
  - erewrite M_bind_ok by (by rewrite inet6_supports). cbn [so_family].
    destruct (supports (so_family s) IPPROTO_IP o4) eqn:Es; (eexists; split; [done|]); (split; [done|]); (split; [done|]);
      intros a Ha; cbn [so_options].
    + destruct (carries_v4 (so_family s) a); [apply d_get_set_eq|]. rewrite d_get_set_ne by done. apply d_get_set_eq.
    + destruct (carries_v4 (so_family s) a); [by specialize (Ha eq_refl)|]. apply d_get_set_eq.
Qed.

(** The server's socket takes both protocols: an IPv6 one serves mapped IPv4
    peers too, and [enable_ecn] leaves that as it is. *)
Lemma listener_prepared s : ∃ s', (_ ← prepare_listener; enable_ecn) s = (Ok tt, s') ∧ so_family s' = so_family s ∧ so_sent s' = so_sent s ∧
  (so_family s = AF_INET6 → d_get (IPPROTO_IPV6, IPV6_V6ONLY) (so_options s') = Some 0).
Proof.
  assert (∃ s1, prepare_listener s = (Ok tt, s1) ∧ so_family s1 = so_family s ∧ so_sent s1 = so_sent s ∧
    (so_family s = AF_INET6 → d_get (IPPROTO_IPV6, IPV6_V6ONLY) (so_options s1) = Some 0)) as (s1 & E1 & Hf1 & Hs1 & Ho1).
  { unfold prepare_listener. erewrite M_bind_ok by done. unfold when. destruct (Z.eqb_spec (so_family s) AF_INET6) as [Ef|Ef].
    - erewrite M_bind_ok by (unfold setsockopt; by rewrite inet6_supports by (by rewrite Ef)).
      unfold setsockopt. cbn [so_family so_options so_sent]. rewrite sol_supports. eexists. split; [done|]. split; [done|]. split; [done|].
      intros _. cbn [so_options]. rewrite d_get_set_ne by done. apply d_get_set_eq.
    - erewrite M_bind_ok by done. unfold setsockopt. rewrite sol_supports. eexists. split; [done|]. by repeat split. }
  erewrite M_bind_ok by exact E1. unfold enable_ecn. erewrite M_bind_ok by done. unfold ignore_os_error, catch, setsockopt.
  destruct (Z.eqb_spec (so_family s1) AF_INET) as [Ef|Ef].
  - rewrite Ef, inet_supports. eexists. split; [done|]. split; [by rewrite <- Hf1, Ef|]. split; [done|]. intros H. by rewrite H, Ef in Hf1.
  - erewrite M_bind_ok by (by rewrite inet6_supports). cbn [so_family].
    destruct (supports (so_family s1) IPPROTO_IP IP_RECVTOS); (eexists; split; [done|]); (split; [done|]); (split; [done|]); cbn [so_options];
      intros H; repeat (rewrite d_get_set_ne by done); auto.
Qed.

(** The datagrams with a destination, as they must leave. *)
Definition addressed (l : list OutgoingDatagram) : list (bytes * bytes * Z) :=
  omap (λ d, (λ a, (og_data d, a, og_ecn d)) <$> og_destination d) l.

Lemma land_codepoint e : 0 <= e <= 3 → Z.land e 3 = e.
Proof. intros. change 3 with (Z.ones 2). rewrite Z.land_ones by done. apply Z.mod_small. change (2 ^ 2) with 4. lia. Qed.

(** Each datagram leaves under the codepoint the connection chose for it,
    whatever was sent before it. *)
Lemma codepoints_stamped l : ∀ s,
  Forall (λ d, 0 <= og_ecn d <= 3 ∧ ∀ a, og_destination d = Some a → served (so_family s) IP_TOS a) l →
  ∃ s', send_datagrams l s = (Ok tt, s') ∧ so_family s' = so_family s ∧ so_sent s' = so_sent s ++ addressed l.
Proof.
  induction l as [|d l IH]; intros s Hl; [by exists s; rewrite app_nil_r|]. apply Forall_cons in Hl as [[He Hs] Hl].
  unfold send_datagrams, addressed in *. cbn [each omap list_omap]. destruct (og_destination d) as [a|]; cbn [fmap option_fmap option_map].
  2: { erewrite M_bind_ok by done. by apply IH. }
  destruct (options_set IP_TOS IPV6_TCLASS (og_ecn d) s) as (s1 & E & Hf & Hsent & Ho).
  erewrite M_bind_ok by (unfold sock_set_ecn; erewrite M_bind_ok by (erewrite M_bind_ok by done; exact E); reflexivity).
  destruct (IH (mkSocket (so_family s1) (so_options s1) (so_sent s1 ++ [(og_data d, a, outgoing_ecn (so_family s1) (so_options s1) a)])))
    as (s' & E' & Hf' & Hsent').
  { cbn [so_family]. by rewrite Hf. }
  exists s'. split; [exact E'|]. cbn [so_family so_sent] in *. split; [congruence|]. rewrite Hsent', Hsent, <- app_assoc. do 2 f_equal.
  cbn [app]. do 2 f_equal. rewrite Hf. specialize (Ho a (Hs a eq_refl)).
  destruct (carries_v4 (so_family s) a) eqn:Ev; [rewrite outgoing_v4 by done|rewrite outgoing_v6 by done]; rewrite Ho; by apply land_codepoint.
Qed.

(** And is read under it on a socket whose [enable_ecn] ran. *)
Lemma codepoint_read s : ∃ s', enable_ecn s = (Ok tt, s') ∧ so_family s' = so_family s ∧ ∀ source ecn,
  served (so_family s) IP_RECVTOS source → 0 <= ecn <= 3 → ecn_of (ancillary (so_family s) (so_options s') source ecn) = ecn.
Proof.
  destruct (options_set IP_RECVTOS IPV6_RECVTCLASS 1 s) as (s' & E & Hf & _ & Ho). exists s'.
  split; [unfold enable_ecn; by erewrite M_bind_ok by done|]. split; [done|]. intros source ecn Hs He. specialize (Ho source Hs).
  destruct (carries_v4 (so_family s) source) eqn:Ev.
  - destruct (ancillary_v4 _ _ _ _ Ev Ho He) as (tos & Ht & ->). exact Ht.
  - destruct (ancillary_v6 _ _ _ _ Ev Ho He) as (class & Hlen & Hc & ->). cbn [ecn_of]. rewrite Hlen. cbn.
    rewrite <- Hc. f_equal. f_equal. f_equal. unfold slice. cbn. rewrite drop_0. apply take_ge. unfold len in Hlen. lia.
Qed.

(** C36: datagrams and their ECN codepoints cross the sockets unharmed.  What
    the connection has due for some destination is sent, in order and once
    each, under the codepoint it chose, whatever options earlier datagrams left
    on the socket; and when those datagrams arrive at a socket that has
    [enable_ecn] behind it, the receive loop hands each over with its bytes,
    its source and that codepoint, over IPv4, over IPv6, and over a dual-stack
    socket, as far as the platform lets one set the IPv4 options there. *)
Theorem datagrams_cross l s r source
  (Hl : Forall (λ d, 0 <= og_ecn d <= 3 ∧ len (og_data d) <= MAX_DATAGRAM_RECV ∧
                     ∀ a, og_destination d = Some a → served (so_family s) IP_TOS a) l)
  (Hr : served (so_family r) IP_RECVTOS source) :
  ∃ s' r', send_datagrams l s = (Ok tt, s') ∧ so_sent s' = so_sent s ++ addressed l ∧ enable_ecn r = (Ok tt, r') ∧
    drain (map (λ '(data, _, ecn), (data, ancillary (so_family r') (so_options r') source ecn, source)) (addressed l)) =
      map (λ '(data, _, ecn), (data, source, ecn)) (addressed l).
Proof.
  destruct (codepoints_stamped l s) as (s' & E & _ & Hsent). { eapply Forall_impl; [exact Hl|]. cbn. tauto. }
  destruct (codepoint_read r) as (r' & E' & Hf & Hread). exists s', r'. split; [done|]. split; [done|]. split; [done|].
  unfold drain. rewrite map_map. apply map_ext_in. intros [[data a] ecn] Hin%list_elem_of_In.
  apply list_elem_of_omap in Hin as (d & Hd & Ha). rewrite Forall_forall in Hl. destruct (Hl d Hd) as (He & Hlen & _).
  destruct (og_destination d); [|discriminate]. injection Ha as <- <- <-. rewrite Hf, Hread by done. do 2 f_equal.
  apply take_ge. unfold len in Hlen. lia.
Qed.
End facts.

(** ** A concrete system

    Dual-stack sockets take both protocols' options; addresses of four bytes
    are IPv4. *)
#[export] Instance linux : SocketLayer := {
  supports f level o := (level =? IPPROTO_IP) || (level =? SOL_SOCKET) || negb (f =? AF_INET);
  outgoing_ecn f o a :=
    Z.land (default 0 (d_get (if (f =? AF_INET) || (len a =? 4) then (IPPROTO_IP, IP_TOS) else (IPPROTO_IPV6, IPV6_TCLASS)) o)) 3;
  ancillary f o a ecn :=
    if (f =? AF_INET) || (len a =? 4)
    then if bool_decide (d_get (IPPROTO_IP, IP_RECVTOS) o = Some 1) then [(IPPROTO_IP, IP_TOS, [bZ ecn])] else []
    else if bool_decide (d_get (IPPROTO_IPV6, IPV6_RECVTCLASS) o = Some 1) then [(IPPROTO_IPV6, IPV6_TCLASS, [bZ ecn; x00; x00; x00])] else [] }.

#[export] Instance linux_laws : SocketLaws linux.
Proof.
  refine {| carries_v4 := λ f a, (f =? AF_INET) || (len a =? 4) |}; cbn.
  - done.
  - done.
  - done.
  - intros f o Hf. by apply negb_true_iff, Z.eqb_neq.
  - by intros f o a ->.
  - by intros f o a ->.
  - intros f o a ecn -> Ho He. exists (bZ ecn). rewrite bool_decide_true by done. split; [|done].
    rewrite Zb_bZ_small by lia. by apply land_codepoint.
  - intros f o a ecn -> Ho He. exists [bZ ecn; x00; x00; x00]. rewrite bool_decide_true by done. split; [done|]. split; [|done].
    assert (ecn = 0 ∨ ecn = 1 ∨ ecn = 2 ∨ ecn = 3) as [->|[->|[->| ->]]] by lia; reflexivity.
Defined.

Definition sample_datagrams : list OutgoingDatagram :=
  [mkOutgoingDatagram [x01] (Some [x7f; x00; x00; x01]) 2; mkOutgoingDatagram [x02] None 0;
   mkOutgoingDatagram [x03; x04] (Some (replicate 16 x00)) 0].

Lemma datagrams_cross_witness :
  ∃ s' r', send_datagrams sample_datagrams (mkSocket 10 [] []) = (Ok tt, s') ∧
    so_sent s' = [([x01], [x7f; x00; x00; x01], 2); ([x03; x04], replicate 16 x00, 0)] ∧
    enable_ecn (mkSocket AF_INET [] []) = (Ok tt, r') ∧
    drain (map (λ '(data, _, ecn), (data, ancillary AF_INET (so_options r') [x7f] ecn, [x7f])) (addressed sample_datagrams)) =
      [([x01], [x7f], 2); ([x03; x04], [x7f], 0)].
Proof.
  destruct (datagrams_cross sample_datagrams (mkSocket 10 [] []) (mkSocket AF_INET [] []) [x7f]) as (s' & r' & H1 & H2 & H3 & H4).
  - repeat constructor; done.
  - done.
  - exists s', r'. split; [exact H1|]. split; [exact H2|]. split; [exact H3|]. vm_compute in H3. injection H3 as <-. exact H4.
Defined.
