(* ===== verification/ServerEndpoint.v ===== *)
(** * The reference server (endpoints/server.py)

    [Server] of [src/dsquic/endpoints/server.py]: the table of sessions by
    connection ID, address validation with Retry and NEW_TOKEN tokens, the
    requests, and the reaping of finished connections.  A session is an object
    two connection IDs point at, so sessions live in a store and the table
    holds indices into it.  What is sent on the socket is collected in a list;
    what [recvmsg] returns, the two clocks and [os.urandom] are inputs, and so
    is the file system: [sv_resolve] is [resolve] of [DocumentRoot] at the tree
    being served.  Readings of one clock within one step are taken as one.  A socket
    address is the bytes a token binds itself to. *)

From Stdlib Require Import Strings.String QArith.
From S2P Require Import Prelude Buffer Frames Packet TransportParameters RangeSet Streams StreamManager.
From S2P Require Import Congestion NewReno Recovery Crypto Protection Retry Hq TlsInterface Spaces ConnState ConnRecv.
From S2P Require Import ConnSend Endpoints.
#[local] Open Scope Z_scope.

Definition TOKEN_LIFETIME : Q := 60.
Definition NEW_TOKEN_LIFETIME : Q := 3600.
Definition CONNECTION_ID_LENGTH : Z := 8.

(** [_address_bytes] *)
Definition address_bytes (source : option bytes) : bytes :=
  match source with Some a => a | None => ascii_bytes "None" end.

(** [_initial_header] *)
Definition initial_header (data : bytes) : result (option LongHeader) :=
  if (len data =? 0) || negb (has_bit (first_byte data) HEADER_FORM_LONG) then Ok None
  else match parse_long_header data with
  | Ok header => Ok (if bool_decide (lh_packet_type header = INITIAL) then Some header else None)
  | Raise (HeaderParseError _) | Raise (UnsupportedVersion _) => Ok None
  | Raise e => Raise e
  end.

(** The defaults of [ConnectionConfig] *)
Definition default_connection_config (retry : option RetryContext) : ConnectionConfig :=
  mkConnectionConfig 1200
    (mkTransportParameters None None None 30000 65527 1048576 262144 262144 262144 100 16
       DEFAULT_ACK_DELAY_EXPONENT DEFAULT_MAX_ACK_DELAY_MS 2 None)
    None retry QUIC_V1 [].

Section server.
Context `{HP : Primitives} `{HT : Tls}.

(** [_Session] *)
Record Session : Type := mkSession {
  ss_connection : Connection; ss_requests : list (Z * bytes); ss_deadline : Q }.

(** [Server]: its settings, then its state.  [sv_config i] is the TLS
    configuration, its ticket key set, with the randomness the [i]-th
    connection draws. *)
Record Server : Type := mkServer {
  sv_config : nat → tls_server_config;
  sv_resolve : str → result (option bytes);
  sv_idle_timeout : Q;
  sv_token_key : bytes;
  sv_retry : bool;
  sv_urandom : nat → Z → bytes;
  sv_draws : nat;
  sv_store : list Session;
  sv_sessions : list (bytes * nat);
  sv_sent : list (bytes * bytes);
  sv_served : Z;
  sv_resumed : Z;
  sv_early_data : Z }.

Definition set_sv_draws (v : nat) (s : Server) : Server :=
  mkServer (sv_config s) (sv_resolve s) (sv_idle_timeout s) (sv_token_key s) (sv_retry s) (sv_urandom s) v
    (sv_store s) (sv_sessions s) (sv_sent s) (sv_served s) (sv_resumed s) (sv_early_data s).
Definition set_sv_store (v : list Session) (s : Server) : Server :=
  mkServer (sv_config s) (sv_resolve s) (sv_idle_timeout s) (sv_token_key s) (sv_retry s) (sv_urandom s) (sv_draws
    s) v (sv_sessions s) (sv_sent s) (sv_served s) (sv_resumed s) (sv_early_data s).
Definition set_sv_sessions (v : list (bytes * nat)) (s : Server) : Server :=
  mkServer (sv_config s) (sv_resolve s) (sv_idle_timeout s) (sv_token_key s) (sv_retry s) (sv_urandom s) (sv_draws
    s) (sv_store s) v (sv_sent s) (sv_served s) (sv_resumed s) (sv_early_data s).
Definition set_sv_sent (v : list (bytes * bytes)) (s : Server) : Server :=
  mkServer (sv_config s) (sv_resolve s) (sv_idle_timeout s) (sv_token_key s) (sv_retry s) (sv_urandom s) (sv_draws
    s) (sv_store s) (sv_sessions s) v (sv_served s) (sv_resumed s) (sv_early_data s).
Definition set_sv_served (v : Z) (s : Server) : Server :=
  mkServer (sv_config s) (sv_resolve s) (sv_idle_timeout s) (sv_token_key s) (sv_retry s) (sv_urandom s) (sv_draws
    s) (sv_store s) (sv_sessions s) (sv_sent s) v (sv_resumed s) (sv_early_data s).
Definition set_sv_resumed (v : Z) (s : Server) : Server :=
  mkServer (sv_config s) (sv_resolve s) (sv_idle_timeout s) (sv_token_key s) (sv_retry s) (sv_urandom s) (sv_draws
    s) (sv_store s) (sv_sessions s) (sv_sent s) (sv_served s) v (sv_early_data s).
Definition set_sv_early_data (v : Z) (s : Server) : Server :=
  mkServer (sv_config s) (sv_resolve s) (sv_idle_timeout s) (sv_token_key s) (sv_retry s) (sv_urandom s) (sv_draws
    s) (sv_store s) (sv_sessions s) (sv_sent s) (sv_served s) (sv_resumed s) v.

(** [Server.__init__] *)
Definition new_Server (config : nat → tls_server_config) (resolve : str → result (option bytes)) (idle_timeout : Q)
    (token_key : bytes) (retry : bool) (urandom : nat → Z → bytes) : Server :=
  mkServer config resolve idle_timeout token_key retry urandom 0 [] [] [] 0 0 0.

(** ** Helpers *)

Definition draw (n : Z) : M Server bytes :=
  s ← get; _ ← modify (set_sv_draws (S (sv_draws s))); mret (sv_urandom s (sv_draws s) n).
Definition sendto (data address : bytes) : M Server unit := modify (λ s, set_sv_sent (sv_sent s ++ [(data, address)]) s).

(** Work on the session with this index *)
Definition on_session {A} (i : nat) (m : M Session A) : M Server A := λ s,
  match sv_store s !! i with
  | Some session => let '(r, session') := m session in (r, set_sv_store (<[i:=session']> (sv_store s)) s)
  | None => (Raise KeyError, s)
  end.
Definition in_connection {A} (m : M Connection A) : M Session A :=
  zoom ss_connection (λ c s, mkSession c (ss_requests s) (ss_deadline s)) m.
Definition set_ss_requests (v : list (Z * bytes)) (s : Session) : Session := mkSession (ss_connection s) v (ss_deadline s).
Definition set_ss_deadline (v : Q) (s : Session) : Session := mkSession (ss_connection s) (ss_requests s) v.

(** [send_pending] *)
Definition send_pending (fuel : nat) (now : Q) (i : nat) : M Server unit :=
  datagrams ← on_session i (in_connection (datagrams_to_send fuel now));
  each (λ d, match og_destination d with Some a => sendto (og_data d) a | None => mret tt end) datagrams.

(** ** New connections *)

(** [_send_retry] *)
Definition send_retry (header : LongHeader) (source : option bytes) (wall : Q) : M Server unit :=
  s ← get;
  retry_cid ← draw CONNECTION_ID_LENGTH;
  nonce ← draw NONCE_LENGTH;
  token ← lift (mint_token nonce (sv_token_key s) (lh_destination_cid header) (address_bytes source) wall);
  packet ← lift (build_retry (lh_source_cid header) retry_cid token (lh_destination_cid header));
  match source with Some a => sendto packet a | None => mret tt end.

Inductive Validation : Type := ValidRetry (c : RetryContext) | ValidToken | NotValid.

(** [_validate_address] *)
Definition validate_address (data cid : bytes) (source : option bytes) (wall : Q) : M Server Validation :=
  header ← lift (initial_header data);
  match header with
  | None => mret NotValid
  | Some header =>
      if len (lh_token header) =? 0 then _ ← send_retry header source wall; mret NotValid
      else
        s ← get;
        let checked :=
          if starts_with NEW_TOKEN (lh_token header) then
            _ ← validate_new_token (sv_token_key s) (lh_token header) (address_bytes source) wall NEW_TOKEN_LIFETIME;
            Ok ValidToken
          else
            original ← validate_token (sv_token_key s) (lh_token header) (address_bytes source) wall TOKEN_LIFETIME;
            Ok (ValidRetry (mkRetryContext original cid)) in
        match checked with
        | Raise (TokenError _) => _ ← send_retry header source wall; mret NotValid
        | Raise e => raise e
        | Ok v => mret v
        end
  end.

(** [_accept] *)
Definition accept (cid : bytes) (retry : option RetryContext) (now : Q) : M Server nat :=
  host_cid ← draw CONNECTION_ID_LENGTH;
  s ← get;
  let i := length (sv_store s) in
  connection ← lift (new_Connection false None (Some (sv_config s i)) (default_connection_config retry) None host_cid []);
  _ ← modify (set_sv_store (sv_store s ++ [mkSession connection [] (now + sv_idle_timeout s)]));
  _ ← modify (λ s, set_sv_sessions (d_set cid i (sv_sessions s)) s);
  mret i.

(** ** Routing *)

(** A datagram whose connection ID is not in the table: the index of the
    session it starts, or None when it is answered without one *)
Definition admission (data cid : bytes) (source : option bytes) (now wall : Q) : M Server (option nat) :=
  random ← draw 1;
  negotiation ← lift (version_negotiation_response (default x00 (head random)) data);
  match negotiation with
  | Some packet => _ ← match source with Some a => sendto packet a | None => mret tt end; mret None
  | None =>
      if negb (has_bit (first_byte data) HEADER_FORM_LONG) then mret None
      else
        s ← get;
        validated ← (if sv_retry s then validate_address data cid source wall else mret ValidToken);
        match validated with
        | NotValid => mret None
        | ValidRetry context => i ← accept cid (Some context) now; mret (Some i)
        | ValidToken => i ← accept cid None now; mret (Some i)
        end
  end.

(** The end of [_route], once the session is known *)
Definition hand_over (i : nat) (data : bytes) (source : option bytes) (ecn : Z) (now : Q) : M Server unit :=
  _ ← on_session i (in_connection (datagram_received data now source ecn));
  s ← get;
  _ ← on_session i (modify (set_ss_deadline (now + sv_idle_timeout s)));
  host_cid ← on_session i (in_connection (gets cn_host_cid));
  modify (λ s, match d_get host_cid (sv_sessions s) with
               | Some _ => s
               | None => set_sv_sessions (d_set host_cid i (sv_sessions s)) s
               end).

(** [_route] *)
Definition route (data : bytes) (source : option bytes) (ecn : Z) (now wall : Q) : M Server unit :=
  match destination_connection_id data CONNECTION_ID_LENGTH with
  | None => mret tt
  | Some cid =>
      s ← get;
      session ← match d_get cid (sv_sessions s) with
                | Some i => mret (Some i)
                | None => admission data cid source now wall
                end;
      match session with
      | Some i => hand_over i data source ecn now
      | None => mret tt
      end
  end.

(** ** Requests *)

(** One event of [_serve_requests] *)
Definition serve_event (i : nat) (now wall : Q) (event : ConnectionEvent) : M Server unit :=
  match event with
  | HandshakeCompleted _ =>
      s ← get;
      destination ← on_session i (in_connection (gets cn_destination));
      nonce ← draw NONCE_LENGTH;
      token ← lift (mint_new_token nonce (sv_token_key s) (address_bytes destination) wall);
      on_session i (in_connection (send_new_token token))
  | StreamDataReceived stream_id data end_stream =>
      s ← get;
      _ ← on_session i (modify (set_ss_deadline (now + sv_idle_timeout s)));
      buffer ← on_session i (gets (λ ss, default [] (d_get stream_id (ss_requests ss)) ++ data));
      _ ← on_session i (modify (λ ss, set_ss_requests (d_set stream_id buffer (ss_requests ss)) ss));
      if negb end_stream then mret tt
      else match parse_request buffer with
      | Raise (HqError _) => on_session i (in_connection (send_stream_data stream_id [] true))
      | Raise e => raise e
      | Ok path =>
          body ← lift (sv_resolve s path);
          on_session i (in_connection (send_stream_data stream_id (default [] body) true))
      end
  | _ => mret tt
  end.

(** [_serve_requests] *)
Definition serve_requests (i : nat) (now wall : Q) : M Server unit :=
  events ← on_session i (in_connection take_events);
  each (serve_event i now wall) events.

(** ** Reaping *)

Definition is_finished (now : Q) (s : Server) (i : nat) : bool :=
  match sv_store s !! i with
  | Some session => bool_decide (cn_state (ss_connection session) = TERMINATED) || Qltb (ss_deadline session) now
  | None => false
  end.
Definition count_if (p : Connection → bool) (s : Server) (l : list nat) : Z :=
  len (List.filter (λ i, match sv_store s !! i with Some ss => p (ss_connection ss) | None => false end) l).
Definition tls_flag (f : tls_state → bool) (c : Connection) : bool :=
  match cn_tls c with Some t => f t | None => false end.

(** [_reap] *)
Definition reap (now : Q) : M Server unit :=
  s ← get;
  let finished := List.filter (λ e, is_finished now s e.2) (sv_sessions s) in
  let kept := List.filter (λ e, negb (is_finished now s e.2)) (sv_sessions s) in
  let departing := List.filter (λ i, negb (bool_decide (i ∈ kept.*2))) (remove_dups finished.*2) in
  modify (λ s, set_sv_early_data (sv_early_data s + count_if (tls_flag tls_early_data_accepted) s departing)
              (set_sv_resumed (sv_resumed s + count_if (tls_flag tls_resumed) s departing)
              (set_sv_served (sv_served s + len departing) (set_sv_sessions kept s)))).

(** The deadlines [poll] waits for *)
Definition poll_deadlines (now : Q) (s : Server) : list (option Q) :=
  let sessions := omap (λ i, sv_store s !! i) (sv_sessions s).*2 in
  let deadlines := map (λ ss, next_timer (ss_connection ss)) sessions ++ map (λ ss, Some (ss_deadline ss)) sessions in
  match deadlines with
  | [] => [Some (now + sv_idle_timeout s)%Q]
  | _ => deadlines
  end.

(** [poll], given what arrived: datagrams with their source, ECN codepoint and
    time *)
Definition poll (fuel : nat) (before : Q) (arrived : list (bytes * option bytes * Z * Q)) (now wall : Q) : M Server unit :=
  s ← get;
  _ ← each (send_pending fuel before) (sv_sessions s).*2;
  _ ← each (λ '(data, source, ecn, at_), route data source ecn at_ wall) arrived;
  s ← get;
  _ ← each (λ i, _ ← on_session i (in_connection (handle_timer now));
                 _ ← serve_requests i now wall;
                 send_pending fuel now i) (sv_sessions s).*2;
  reap now.

(** What one round of [serve] meets: the time before the wait, what arrived,
    the two clocks after it *)
Abbreviation Round := (Q * list (bytes * option bytes * Z * Q) * Q * Q)%type.

(** [serve] over the rounds that happen: whether it came to an end, or is still
    serving after the last of them *)
Fixpoint serve (fuel : nat) (connection_limit : option Z) (rounds : list Round) : M Server bool :=
  s ← get;
  if match connection_limit with Some n => n <=? sv_served s | None => false end then mret true
  else match rounds with
  | [] => mret false
  | (before, arrived, now, wall) :: rounds' =>
      _ ← poll fuel before arrived now wall;
      serve fuel connection_limit rounds'
  end.

(** [serve_one]: a server without address validation, until it has served a
    connection *)
Definition serve_one (config : nat → tls_server_config) (resolve : str → result (option bytes)) (idle_timeout : Q)
    (token_key : bytes) (urandom : nat → Z → bytes) (fuel : nat) (rounds : list Round) : result bool * Server :=
  serve fuel (Some 1) rounds (new_Server config resolve idle_timeout token_key false urandom).
End server.
