(* ===== verification/ClientEndpoint.v ===== *)
(** * The reference client (endpoints/client.py)

    The loop of [fetch] in [src/dsquic/endpoints/client.py] with [pump] of the
    endpoint helpers: issuing requests as stream credit allows, applying the
    connection's events, the configuration a fetch builds from its options
    and the session store, a whole [fetch] over the rounds that happen, and the
    modes built on it.  The socket is a list of what was sent and an input of
    what arrived; the clock is an input. *)

From Stdlib Require Import Strings.String QArith.
From stdpp Require Import pretty.
From S2P Require Import Prelude Buffer Frames Packet TransportParameters RangeSet Streams StreamManager.
From S2P Require Import Congestion NewReno Recovery Crypto Protection Retry Hq TlsInterface Spaces ConnState ConnRecv.
From S2P Require Import ConnSend Handshake KeySchedule TlsCore TlsClient TlsServer TlsInstance ServerEndpoint.
#[local] Open Scope Z_scope.

Definition DEFAULT_TIMEOUT : Q := 30.
Definition GREASE_VERSION : Z := 0x1A2A3A4A.

(** What one round of the loop of [fetch] meets: the time at its head, the time before the
    wait, what arrived, the time after it *)
Abbreviation FetchRound := (Q * Q * list (bytes * option bytes * Z * Q) * Q)%type.

Section client.
Context `{HP : Primitives} `{HT : Tls}.

(** The local variables of [fetch], and what it sent *)
Record Fetch : Type := mkFetch {
  ft_connection : Connection;
  ft_pending : list str;
  ft_stream_paths : list (Z * str);
  ft_bodies : list (Z * bytes);
  ft_finished : list Z;
  ft_connected : bool;
  ft_sent : list (bytes * bytes) }.

Definition set_ft_connection (v : Connection) (f : Fetch) : Fetch :=
  mkFetch v (ft_pending f) (ft_stream_paths f) (ft_bodies f) (ft_finished f) (ft_connected f) (ft_sent f).
Definition set_ft_pending (v : list str) (f : Fetch) : Fetch :=
  mkFetch (ft_connection f) v (ft_stream_paths f) (ft_bodies f) (ft_finished f) (ft_connected f) (ft_sent f).
Definition set_ft_stream_paths (v : list (Z * str)) (f : Fetch) : Fetch :=
  mkFetch (ft_connection f) (ft_pending f) v (ft_bodies f) (ft_finished f) (ft_connected f) (ft_sent f).
Definition set_ft_bodies (v : list (Z * bytes)) (f : Fetch) : Fetch :=
  mkFetch (ft_connection f) (ft_pending f) (ft_stream_paths f) v (ft_finished f) (ft_connected f) (ft_sent f).
Definition set_ft_finished (v : list Z) (f : Fetch) : Fetch :=
  mkFetch (ft_connection f) (ft_pending f) (ft_stream_paths f) (ft_bodies f) v (ft_connected f) (ft_sent f).
Definition set_ft_connected (v : bool) (f : Fetch) : Fetch :=
  mkFetch (ft_connection f) (ft_pending f) (ft_stream_paths f) (ft_bodies f) (ft_finished f) v (ft_sent f).
Definition set_ft_sent (v : list (bytes * bytes)) (f : Fetch) : Fetch :=
  mkFetch (ft_connection f) (ft_pending f) (ft_stream_paths f) (ft_bodies f) (ft_finished f) (ft_connected f) v.

Definition on_connection {A} (m : M Connection A) : M Fetch A := zoom ft_connection set_ft_connection m.

(** [issue_requests]; each round takes one pending path *)
Fixpoint issue_requests (pending : list str) : M Fetch unit :=
  match pending with
  | [] => modify (set_ft_pending [])
  | path :: pending' =>
      f ← get;
      match open_stream (ft_connection f) with
      | (Raise (StreamLimitReached _), c) => _ ← modify (set_ft_connection c); modify (set_ft_pending pending)
      | (Raise e, c) => _ ← modify (set_ft_connection c); _ ← modify (set_ft_pending pending); raise e
      | (Ok stream_id, c) =>
          _ ← modify (set_ft_connection c);
          _ ← modify (set_ft_pending pending');
          _ ← modify (λ f, set_ft_stream_paths (d_set stream_id path (ft_stream_paths f)) f);
          _ ← modify (λ f, set_ft_bodies (d_set stream_id [] (ft_bodies f)) f);
          request ← lift (encode_request path);
          _ ← on_connection (send_stream_data stream_id request true);
          issue_requests pending'
      end
  end.

(** One event of [_apply_events] *)
Definition apply_connection_event (event : ConnectionEvent) : M Fetch unit :=
  match event with
  | ConnectionTerminated code reason =>
      raise (RuntimeError ("connection closed: " +:+ (if len reason =? 0 then pretty code else string_of_bytes reason)))
  | VersionNegotiationReceived versions => raise (VersionNegotiationRequired versions)
  | HandshakeCompleted _ => modify (set_ft_connected true)
  | HandshakeConfirmed _ => mret tt
  | StreamDataReceived stream_id data end_stream =>
      _ ← modify (λ f, set_ft_bodies (d_set stream_id (default [] (d_get stream_id (ft_bodies f)) ++ data) (ft_bodies f)) f);
      when end_stream (modify (λ f, set_ft_finished (list_union (ft_finished f) [stream_id]) f))
  end.

(** [_apply_events], whose result is kept in [ft_connected] *)
Definition apply_events : M Fetch unit := events ← on_connection take_events; each apply_connection_event events.

(** [pump], given what arrived *)
Definition pump (fuel : nat) (before : Q) (arrived : list (bytes * option bytes * Z * Q)) (now : Q) : M Fetch unit :=
  datagrams ← on_connection (datagrams_to_send fuel before);
  _ ← each (λ d, match og_destination d with
                 | Some a => modify (λ f, set_ft_sent (ft_sent f ++ [(og_data d, a)]) f)
                 | None => mret tt
                 end) datagrams;
  _ ← each (λ '(data, source, ecn, at_), on_connection (datagram_received data at_ source ecn)) arrived;
  on_connection (handle_timer now).

(** The start of [fetch]: connect, and the requests that may ride 0-RTT *)
Definition fetch_start (now : Q) : M Fetch unit :=
  _ ← on_connection (connect now);
  f ← get;
  if cn_streams (ft_connection f) is Some _ then issue_requests (ft_pending f) else mret tt.

(** One round of its loop; the result says whether the loop is left *)
Definition fetch_round (fuel : nat) (paths : Z) (before : Q) (arrived : list (bytes * option bytes * Z * Q)) (now : Q)
    : M Fetch bool :=
  _ ← pump fuel before arrived now;
  _ ← apply_events;
  f ← get;
  _ ← when (ft_connected f || (if cn_streams (ft_connection f) is Some _ then true else false)) (issue_requests (ft_pending f));
  f ← get;
  mret (ft_connected f && (len (ft_pending f) =? 0) && (len (ft_finished f) =? paths)).

(** The loop over the rounds that happen: whether it was left, or still waits
    after the last of them *)
Fixpoint fetch_rounds (fuel : nat) (paths : Z) (deadline : Q) (rounds : list FetchRound) : M Fetch bool :=
  match rounds with
  | [] => mret false
  | (head, before, arrived, now) :: rounds' =>
      if Qltb head deadline then
        finished ← fetch_round fuel paths before arrived now;
        if (finished : bool) then mret true else fetch_rounds fuel paths deadline rounds'
      else raise TimeoutError
  end.

(** What [fetch] returns: the bodies by path *)
Fixpoint bodies_by_path (paths : list (Z * str)) (bodies : list (Z * bytes)) (acc : list (str * bytes))
    : result (list (str * bytes)) :=
  match bodies with
  | [] => Ok acc
  | (stream_id, body) :: bodies' =>
      match d_get stream_id paths with
      | Some path => bodies_by_path paths bodies' (d_set path body acc)
      | None => Raise KeyError
      end
  end.
Definition fetch_result (f : Fetch) : result (list (str * bytes)) := bodies_by_path (ft_stream_paths f) (ft_bodies f) [].
End client.

(** ** Configuration *)

Record ClientOptions : Type := mkClientOptions {
  co_ca_certificates : list bytes;
  co_insecure : bool;
  co_server_name : option string;
  co_timeout : Q;
  co_key_update_interval : option Z;
  co_resume : bool;
  co_early_data : bool;
  co_chacha20 : bool;
  co_version : Z }.

Record SessionStore : Type := mkSessionStore { so_tickets : list SessionTicket; so_tokens : list bytes }.

(** The [ClientConfig] of [fetch] *)
Definition fetch_client_config (host : string) (options : ClientOptions) (session : option SessionStore)
    (verification_time : Q) : ClientConfig :=
  mkClientConfig (default host (co_server_name options)) ["hq-interop"] []
    (if co_insecure options then [] else co_ca_certificates options) (co_insecure options) (Some verification_time) None
    (s ← session; last (so_tickets s))
    (if co_chacha20 options then [TLS_CHACHA20_POLY1305_SHA256] else SUPPORTED_CIPHER_SUITES) (co_early_data options).

(** [session.tokens.pop() if session is not None and session.tokens else b""] *)
Definition pop_token (session : option SessionStore) : bytes * option SessionStore :=
  match session with
  | Some s => match last (so_tokens s) with
              | Some token => (token, Some (mkSessionStore (so_tickets s) (take (length (so_tokens s) - 1) (so_tokens s))))
              | None => ([], session)
              end
  | None => ([], None)
  end.

(** The [ConnectionConfig] of [fetch], given the token *)
Definition fetch_connection_config (options : ClientOptions) (token : bytes) : ConnectionConfig :=
  let base := default_connection_config None in
  mkConnectionConfig (cf_max_datagram_size base) (cf_transport_parameters base) (co_key_update_interval options) None
    (co_version options) token.

(** The end of [fetch]: what the connection leaves in the store, and the last
    datagrams *)
Definition collect_session `{HP : Primitives} `{HT : TlsPrimitives} (c : Connection (H := tls_machines)) (session : SessionStore) : SessionStore :=
  match cn_tls c with
  | Some (inl t) => mkSessionStore (so_tickets session ++ tc_session_tickets t) (so_tokens session ++ cn_new_tokens c)
  | _ => session
  end.
Definition fetch_finish `{HP : Primitives} `{HT : Tls} (fuel : nat) (before : Q)
    (arrived : list (bytes * option bytes * Z * Q)) (now : Q) : M Fetch unit :=
  _ ← on_connection (close 0 "" None);
  pump fuel before arrived now.

(** ** One fetch

    The time a fetch starts at is also that of [connect]; [wall] is the wall
    clock, [fresh] what [os.urandom] gives the TLS and the connection,
    [final] what the last [pump] meets. *)
Record Fresh `{HT : TlsPrimitives} : Type := mkFresh { fr_entropy : Entropy; fr_host_cid : bytes; fr_destination_cid : bytes }.

(** [fetch], on the session store; nothing is returned while the loop still
    waits.  The socket is closed in every case, so what is left of the
    connection is what [collect_session] took from it. *)
Definition fetch `{HP : Primitives} `{HT : TlsPrimitives} (fuel : nat) (host : string) (address : bytes) (fresh : Fresh)
    (start wall : Q) (rounds : list FetchRound) (final : Q * list (bytes * option bytes * Z * Q) * Q)
    (paths : list str) (options : ClientOptions) : M (option SessionStore) (option (list (str * bytes))) :=
  session ← get;
  let '(token, session') := pop_token session in
  _ ← modify (λ _, session');
  c ← lift (new_Connection (HT := tls_machines) true (Some (fetch_client_config host options session wall, fr_entropy fresh)) None
              (fetch_connection_config options token) (Some address) (fr_host_cid fresh) (fr_destination_cid fresh));
  '(finished, f) ← lift (match (_ ← fetch_start start; fetch_rounds fuel (len paths) (start + co_timeout options) rounds)
                               (mkFetch c paths [] [] [] false []) with
                         | (Ok finished, f) => Ok (finished, f)
                         | (Raise e, _) => Raise e
                         end);
  if (finished : bool) then
    _ ← modify (fmap (collect_session (ft_connection f)));
    let '(before, arrived, now) := final in
    f ← lift (match fetch_finish fuel before arrived now f with (Ok _, f) => Ok f | (Raise e, _) => Raise e end);
    bodies ← lift (fetch_result f);
    mret (Some bodies)
  else mret None.

(** ** The modes of the client

    Each runs [fetch] one or more times.  Here [fetch] takes the paths, the
    options and the store, which it returns as it left it; [W] is what it acts
    on, and [clock] reads [time.monotonic]. *)

Definition with_timeout (v : Q) (o : ClientOptions) : ClientOptions :=
  mkClientOptions (co_ca_certificates o) (co_insecure o) (co_server_name o) v (co_key_update_interval o) (co_resume o)
    (co_early_data o) (co_chacha20 o) (co_version o).
Definition with_early_data (v : bool) (o : ClientOptions) : ClientOptions :=
  mkClientOptions (co_ca_certificates o) (co_insecure o) (co_server_name o) (co_timeout o) (co_key_update_interval o)
    (co_resume o) v (co_chacha20 o) (co_version o).
Definition with_version (v : Z) (o : ClientOptions) : ClientOptions :=
  mkClientOptions (co_ca_certificates o) (co_insecure o) (co_server_name o) (co_timeout o) (co_key_update_interval o)
    (co_resume o) (co_early_data o) (co_chacha20 o) v.

(** [bodies.update(more)] *)
Definition d_update (bodies more : list (str * bytes)) : list (str * bytes) := fold_left (λ d e, d_set e.1 e.2 d) more bodies.

Section modes.
Context {W : Type} (clock : M W Q).
Context (fetch : list str → ClientOptions → option SessionStore → M W (list (str * bytes) * option SessionStore)).

Definition time_left (deadline : Q) : M W Q :=
  now ← clock; if Qle_bool (deadline - now) 0 then raise TimeoutError else mret (deadline - now)%Q.

(** The loop of [fetch_each] *)
Fixpoint fetch_each_loop (deadline : Q) (options : ClientOptions) (session : option SessionStore)
    (bodies : list (str * bytes)) (paths : list str) : M W (list (str * bytes)) :=
  match paths with
  | [] => mret bodies
  | path :: paths' =>
      timeout ← time_left deadline;
      '(more, session) ← fetch [path] (with_timeout timeout options) session;
      fetch_each_loop deadline options session (d_update bodies more) paths'
  end.

(** [fetch_each] *)
Definition fetch_each (paths : list str) (options : ClientOptions) : M W (list (str * bytes)) :=
  now ← clock;
  fetch_each_loop (now + co_timeout options) options (if co_resume options then Some (mkSessionStore [] []) else None) [] paths.

(** [fetch_negotiating] *)
Definition fetch_negotiating (paths : list str) (options : ClientOptions) : M W (list (str * bytes)) :=
  '(bodies, _) ← catch (fetch paths (with_version GREASE_VERSION options) None)
    (λ e, match e with
          | VersionNegotiationRequired versions => Some
              (if bool_decide (QUIC_V1 ∈ versions) then fetch paths options None
               else raise (RuntimeError "no version in common with the server"))
          | _ => None
          end);
  mret bodies.

(** [fetch_zero_rtt] *)
Definition fetch_zero_rtt (paths : list str) (options : ClientOptions) : M W (list (str * bytes)) :=
  now ← clock;
  '(bodies, session) ← fetch (take 1 paths) options (Some (mkSessionStore [] []));
  if (if session is Some s then len (so_tickets s) =? 0 else true) then
    raise (RuntimeError "the first connection produced no session ticket")
  else
    timeout ← time_left (now + co_timeout options);
    '(more, _) ← fetch (drop 1 paths) (with_timeout timeout (with_early_data true options)) session;
    mret (d_update bodies more).
End modes.

(** ** What a fetch comes to *)

Section rounds.
Context `{HP : Primitives} `{HT : Tls}.

(** The loop is left only when the handshake is complete, every path was
    requested and as many streams as paths ended; it goes on waiting only while
    every head was before the deadline, so it is over at the latest in the
    round that starts at or after it. *)
Lemma fetch_rounds_outcome fuel paths deadline rounds : ∀ f f' finished,
  fetch_rounds fuel paths deadline rounds f = (Ok finished, f') →
  if finished then ft_connected f' = true ∧ ft_pending f' = [] ∧ len (ft_finished f') = paths
  else Forall (λ r : FetchRound, (r.1.1.1 < deadline)%Q) rounds.
Proof.
  induction rounds as [|[[[head before] arrived] now] rounds IH]; intros f f' finished E; cbn [fetch_rounds] in E.
  { by injection E as <- <-. }
  destruct (Qltb head deadline) eqn:Eh; [|discriminate]. apply Qltb_lt in Eh.
  apply M_bind_ok_inv in E as (done & f1 & E1 & E). destruct done.
  - injection E as <- <-. unfold fetch_round in E1. do 4 (apply M_bind_ok_inv in E1 as (? & ? & _ & E1)).
    erewrite M_bind_ok in E1 by done. injection E1 as E1 <-.
    match type of E1 with _ && _ && _ = true => apply andb_true_iff in E1 as [[E1 E2]%andb_true_iff E3] end.
    apply Z.eqb_eq in E2, E3. split; [done|]. split; [|done]. by apply length_zero_iff_nil, Nat2Z.inj.
  - specialize (IH _ _ _ E). destruct finished; [done|]. by constructor.
Qed.
End rounds.

(** What a fetch does to the store of sessions: nothing without one; otherwise
    the token it offered is gone, however it ended, so no token is offered
    twice, and what it collected comes after what was there. *)
Lemma fetch_store `{HP : Primitives} `{HT : TlsPrimitives} fuel host address fresh start wall rounds final paths options session r session' :
  fetch fuel host address fresh start wall rounds final paths options session = (r, session') →
  match session with
  | None => session' = None
  | Some s => ∃ tickets tokens, session' = Some (mkSessionStore (so_tickets s ++ tickets) (take (length (so_tokens s) - 1) (so_tokens s) ++ tokens))
  end.
Proof.
  intros E. unfold fetch in E. erewrite M_bind_ok in E by done. destruct (pop_token session) as [token popped] eqn:Ep.
  erewrite M_bind_ok in E by done.
  assert (Hend : session' = popped ∨ ∃ c, session' = collect_session c <$> popped).
  { apply M_bind_inv in E as [(c & s1 & E1 & E)|(e & E1 & ->)]; [|injection E1 as _ <-; by left]. injection E1 as _ <-.
    apply M_bind_inv in E as [([finished f] & s1 & E1 & E)|(e & E1 & ->)]; [|injection E1 as _ <-; by left]. injection E1 as _ <-.
    destruct finished; [|injection E as _ <-; by left]. erewrite M_bind_ok in E by done. destruct final as [[before arrived] now].
    right. exists (ft_connection f).
    repeat (apply M_bind_inv in E as [(? & ? & E1 & E)|(? & E1 & ->)]; [|by injection E1 as _ <-]; injection E1 as _ <-).
    by injection E as _ <-. }
  destruct session as [s|]; [|injection Ep as _ <-; by destruct Hend as [->|[c ->]]].
  assert (popped = Some (mkSessionStore (so_tickets s) (take (length (so_tokens s) - 1) (so_tokens s)))) as ->.
  { unfold pop_token in Ep. destruct s as [tickets tokens]. cbn [so_tokens so_tickets] in *. destruct (last tokens) eqn:El; [by injection Ep as _ <-|].
    apply last_None in El as ->. by injection Ep as _ <-. }
  destruct Hend as [->|[c ->]].
  - exists [], []. by rewrite !app_nil_r.
  - unfold collect_session. cbn [fmap option_fmap option_map]. destruct (cn_tls c) as [[t|t]|]; [|exists [], []; by rewrite !app_nil_r..].
    by eexists _, _.
Qed.
