(* ===== verification/EndpointRuns.v ===== *)
(** * The client endpoint against the server endpoint

    Whole fetches: the loop of the reference client and the poll of the
    reference server over a network that delivers everything, with the real
    handshake between them. *)

From Stdlib Require Import Strings.String QArith.
From S2P Require Import Prelude Buffer Frames Packet TransportParameters RangeSet Streams StreamManager.
From S2P Require Import Congestion NewReno Recovery Crypto Protection Retry Hq TlsInterface Spaces ConnState ConnRecv.
From S2P Require Import ConnSend Handshake KeySchedule TlsCore TlsClient TlsServer TlsRuns TlsInstance.
From S2P Require Import DocumentRoot ServerEndpoint ClientEndpoint.
#[local] Open Scope Z_scope.
#[local] Existing Instance tls_machines | 0.

Abbreviation TlsFetch := (Fetch (HT := tls_machines)).
Abbreviation TlsEndpoint := (Server (HT := tls_machines)).

Definition client_address : bytes := ascii_bytes "('192.0.2.1', 50000)".
Definition server_address : bytes := ascii_bytes "('192.0.2.2', 4433)".

(** The files of the server *)
Definition sample_files : str → result (option bytes) :=
  resolve [([code "www"], Directory); ([code "www"; code "index.html"], File (ascii_bytes "hello"))] [code "www"].
Definition sample_endpoint (retry : bool) : TlsEndpoint :=
  new_Server (λ i, (sample_server_config, sample_entropy (5 + 100 * Z.of_nat i))) sample_files 30 (zeros 32) retry
    (λ i n, be_bytes (Z.to_nat n) (1000 + 7 * Z.of_nat i)).

Definition sample_options : ClientOptions :=
  mkClientOptions [sample_certificate] false (Some "example.org") DEFAULT_TIMEOUT None true false false QUIC_V1.

(** ** The world of a client: the server, the time, and the connections made
    so far, each with connection IDs and keys of its own *)

Record World : Type := mkWorld {
  w_server : TlsEndpoint;
  w_now : Q;
  w_connections : nat;
  w_datagrams : list nat }.

Definition read_clock : M World Q := gets w_now.

(** A fetch about to start *)
Definition new_fetch (i : nat) (options : ClientOptions) (session : option SessionStore) (token : bytes) (paths : list str)
    : result TlsFetch :=
  c ← new_Connection true (Some (fetch_client_config "localhost" options session 0, sample_entropy (3 + 100 * Z.of_nat i)))
        None (fetch_connection_config options token) (Some server_address) (bZ (Z.of_nat i) :: replicate 7 xc1)
        (bZ (Z.of_nat i) :: replicate 7 xd1);
  Ok (mkFetch c paths [] [] [] false []).

(** What the client sent, delivered to the server's poll; what the server
    answers *)
Definition deliver (t : Q) (datagrams : list (bytes * bytes)) (s : TlsEndpoint)
    : result (list (bytes * option bytes * Z * Q) * TlsEndpoint) :=
  match poll 20 t (map (λ e, (e.1, Some client_address, ECT_0, t)) datagrams) t t s with
  | (Ok _, s') => Ok (map (λ e, (e.1, Some server_address, ECT_0, t)) (drop (length (sv_sent s)) (sv_sent s')), s')
  | (Raise e, _) => Raise e
  end.

(** The loop of [fetch], a tenth of a second a round, every datagram delivered;
    [fuel] bounds the rounds *)
Fixpoint fetch_loop (fuel : nat) (paths : Z) (t deadline : Q) (arrived : list (bytes * option bytes * Z * Q)) (f : TlsFetch)
    (s : TlsEndpoint) : result (Q * TlsFetch * TlsEndpoint) :=
  match fuel with
  | O => Raise OutOfFuel
  | S fuel' =>
      if negb (Qltb t deadline) then Raise TimeoutError
      else match fetch_round 20 paths t arrived t f with
      | (Raise e, _) => Raise e
      | (Ok finished, f') =>
          '(arrived, s) ← deliver t (drop (length (ft_sent f)) (ft_sent f')) s;
          if (finished : bool) then Ok (t, f', s) else fetch_loop fuel' paths (t + (1 # 10)) deadline arrived f' s
      end
  end.

(** It is the loop of [fetch], over the rounds that the network makes. *)
Lemma fetch_loop_rounds fuel paths deadline : ∀ t arrived f s t' f' s',
  fetch_loop fuel paths t deadline arrived f s = Ok (t', f', s') → ∃ rounds, fetch_rounds 20 paths deadline rounds f = (Ok true, f').
Proof.
  induction fuel as [|fuel IH]; intros t arrived f s t' f' s' E; [discriminate|]. cbn [fetch_loop] in E.
  destruct (Qltb t deadline) eqn:Et; [|discriminate]. cbn [negb] in E.
  destruct (fetch_round 20 paths t arrived t f) as [[finished|e] f1] eqn:Er; [|discriminate].
  apply result_bind_inv in E as ([arrived1 s1] & _ & E). destruct finished.
  - injection E as _ <- _. exists [(t, t, arrived, t)]. cbn [fetch_rounds]. rewrite Et. by erewrite M_bind_ok by exact Er.
  - apply IH in E as [rounds E]. exists ((t, t, arrived, t) :: rounds). cbn [fetch_rounds]. rewrite Et. by erewrite M_bind_ok by exact Er.
Qed.

(** [fetch] *)
Definition fetch_over (paths : list str) (options : ClientOptions) (session : option SessionStore)
    : M World (list (str * bytes) * option SessionStore) :=
  w ← get;
  let '(token, session) := pop_token session in
  f ← lift (new_fetch (w_connections w) options session token paths);
  _ ← modify (λ w, mkWorld (w_server w) (w_now w) (S (w_connections w)) (w_datagrams w));
  '(t, f, s) ← lift (match fetch_start (w_now w) f with
                     | (Ok _, f) => fetch_loop 10 (len paths) (w_now w) (w_now w + co_timeout options) [] f (w_server w)
                     | (Raise e, _) => Raise e
                     end);
  let session := (λ store, collect_session (ft_connection f) store) <$> session in
  '(f, s) ← lift (match fetch_finish 20 t [] t f with
                  | (Ok _, f') => '(_, s) ← deliver t (drop (length (ft_sent f)) (ft_sent f')) s; Ok (f', s)
                  | (Raise e, _) => Raise e
                  end);
  _ ← modify (λ w, mkWorld s (t + 1) (w_connections w) (w_datagrams w ++ [length (ft_sent f)]));
  bodies ← lift (fetch_result f);
  mret (bodies, session).

Definition sample_world (retry : bool) : World := mkWorld (sample_endpoint retry) 0 0 [].

(** ** Runs

    What came of a run: the result, the datagrams the client sent on each
    connection, and for each connection of the server whether it was resumed
    and whether it took early data.  (A fetch that raises leaves the world as
    it was.) *)
Definition outcome {A} (r : result A * World) : result (A * list nat * list (bool * bool)) :=
  match r with
  | (Ok a, w) => Ok (a, w_datagrams w,
      map (λ ss, (tls_flag tls_resumed (ss_connection ss), tls_flag tls_early_data_accepted (ss_connection ss)))
        (sv_store (w_server w)))
  | (Raise e, _) => Raise e
  end.

Definition sample_paths : list str := [code "/index.html"; code "/none"].
Definition sample_bodies : list (str * bytes) := [(code "/index.html", ascii_bytes "hello"); (code "/none", [])].

(** The two endpoints, whole, run over the real handshake and the real packet
    protection.  The reference client fetches a file the server has and one it
    has not: it gets the file's content and an empty body.  With address
    validation the same fetch succeeds with one datagram more, the Initial that
    answers the Retry.  In the 0-RTT mode, still with address validation, the
    first path is fetched over a full connection, which leaves the client a
    ticket and an address token, and the second over a connection that is
    resumed, takes early data, and needs no Retry. *)
Fact fetch_end_to_end :
  outcome (('(bodies, _) ← fetch_over sample_paths sample_options None; mret bodies) (sample_world false)) =
    Ok (sample_bodies, [5%nat], [(false, false)]) ∧
  outcome (('(bodies, _) ← fetch_over sample_paths sample_options None; mret bodies) (sample_world true)) =
    Ok (sample_bodies, [6%nat], [(false, false)]) ∧
  outcome (fetch_zero_rtt read_clock fetch_over sample_paths sample_options (sample_world true)) =
    Ok (sample_bodies, [6%nat; 3%nat], [(false, false); (true, true)]).
Proof. split_and!; vm_compute; reflexivity. Qed.

(** Version negotiation end to end.  Dialled with the reserved version, the
    server answers with the versions it speaks and keeps no connection; the
    client takes the offer and fetches with version 1. *)
Theorem negotiation_end_to_end :
  (∃ w, fetch_over sample_paths (with_version GREASE_VERSION sample_options) None (sample_world false) =
     (Raise (VersionNegotiationRequired [QUIC_V1]), w)) ∧
  outcome (fetch_negotiating fetch_over sample_paths sample_options (sample_world false)) =
    Ok (sample_bodies, [5%nat], [(false, false)]).
Proof.
  split; [|vm_compute; reflexivity].
  eexists. apply outcome_pair. vm_compute. reflexivity.
Qed.

(** After a fetch, a STREAM frame on the stream 3 the server may open: the
    connection accepts it and reports it, and the result of the finished fetch
    is lost. *)
Definition with_server_stream : result (result (list (str * bytes))) :=
  f ← new_fetch 0 sample_options None [] [code "/index.html"];
  '(t, f, _) ← match fetch_start 0 f with
               | (Ok _, f) => fetch_loop 10 1 0 30 [] f (sample_endpoint false)
               | (Raise e, _) => Raise e
               end;
  match (_ ← on_connection (handle_stream (mkStream 3 0 [x01] true)); apply_events) f with
  | (Ok _, f) => Ok (fetch_result f)
  | (Raise e, _) => Raise e
  end.

Fact server_stream_reported : with_server_stream = Ok (Raise KeyError).
Proof. vm_compute. reflexivity. Qed.

(** A request whose path has a null character, which [parse_request] accepts:
    [resolve] raises, nothing between it and the server's loop catches the
    exception, and the server stops. *)
Fact null_character_stops_server :
  outcome (('(bodies, _) ← fetch_over [[SLASH; 0]] sample_options None; mret bodies) (sample_world false)) =
    Raise (ValueError "embedded null byte").
Proof. vm_compute. reflexivity. Qed.
