(* ===== verification/EndpointProofs.v ===== *)
(** * Properties of the endpoints

    About [Server] (ServerEndpoint.v): every connection it accepts is in its
    table or has been counted as served, once; with address validation it
    keeps no state for a client whose token it has not checked; and the token
    of its Retry admits the client it was sent to.  About [fetch]
    (ClientEndpoint.v): the requests that stream credit holds back wait in
    order and are not lost. *)

From Stdlib Require Import Strings.String QArith.
From stdpp Require Import gmap relations.
From S2P Require Import Prelude Buffer Frames FramesProofs Packet TransportParameters RangeSet Streams StreamManager.
From S2P Require Import Congestion NewReno Recovery Crypto Protection Retry Hq TlsInterface Spaces ConnState ConnRecv.
From S2P Require Import ConnSend ConnRuns ConnProofs Handshake KeySchedule TlsCore TlsClient TlsServer TlsRuns TlsInstance Endpoints ServerEndpoint ClientEndpoint EndpointRuns.
#[local] Open Scope Z_scope.

Section server_facts.
Context `{HP : Primitives} `{HT : Tls}.
Implicit Types (s : Server) (i : nat).

(** ** Accounting *)

(** The sessions the table still points at *)
Definition live s : gset nat := list_to_set (sv_sessions s).*2.

(** Every session accepted is either live or counted as served; the keys of
    the table are distinct and its entries exist; the two counters of special
    connections count some of those served. *)
Record accounted s : Prop := {
  ac_keys : NoDup (sv_sessions s).*1;
  ac_stored : ∀ i, i ∈ live s → (i < length (sv_store s))%nat;
  ac_once : sv_served s + Z.of_nat (size (live s)) = len (sv_store s);
  ac_resumed : 0 <= sv_resumed s <= sv_served s;
  ac_early_data : 0 <= sv_early_data s <= sv_served s }.

Definition keeps_accounts s s' : Prop := accounted s → accounted s'.
#[local] Instance keeps_accounts_preorder : PreOrder keeps_accounts.
Proof. split; unfold keeps_accounts; [by intros ? ?|auto]. Qed.

(** What neither the table nor the counters depend on *)
Definition same_table s s' : Prop :=
  sv_sessions s' = sv_sessions s ∧ length (sv_store s') = length (sv_store s) ∧ sv_served s' = sv_served s ∧
  sv_resumed s' = sv_resumed s ∧ sv_early_data s' = sv_early_data s.
#[local] Instance same_table_preorder : PreOrder same_table.
Proof. split; unfold same_table; [done|]. intros s1 s2 s3 (?&?&?&?&?) (?&?&?&?&?). split_and!; congruence. Qed.

Lemma same_table_live s s' : same_table s s' → live s' = live s.
Proof. unfold live. by intros (-> & _). Qed.
Lemma same_table_accounts s s' : same_table s s' → keeps_accounts s s'.
Proof.
  intros E [K S O R D]. pose proof (same_table_live _ _ E) as L. destruct E as (T & N & V & R' & D').
  split; rewrite ?T, ?L, ?V, ?R', ?D'; try done; unfold len in *; rewrite N; done.
Qed.

Lemma preserves_on_session {A} i (m : M Session A) : preserves same_table (on_session i m).
Proof.
  intros s. unfold on_session. destruct (sv_store s !! i); [|cbn; reflexivity].
  destruct (m s0). unfold same_table. cbn. by rewrite length_insert.
Qed.
Lemma preserves_draw n : preserves same_table (draw n).
Proof. by intros s. Qed.
Lemma preserves_sendto d a : preserves same_table (sendto d a).
Proof. by intros s. Qed.

(** One step of a proof that a computation leaves the table alone *)
Ltac table_step :=
  match goal with
  | |- preserves _ (mret _) => apply preserves_ret
  | |- preserves _ (raise _) => apply preserves_raise
  | |- preserves _ get => apply preserves_get
  | |- preserves _ (lift _) => apply preserves_lift
  | |- preserves _ (draw _) => apply preserves_draw
  | |- preserves _ (sendto _ _) => apply preserves_sendto
  | |- preserves _ (on_session _ _) => apply preserves_on_session
  | |- preserves _ (mbind _ _) => apply preserves_bind; [|intros ?]
  | |- preserves _ (each _ _) => apply preserves_each; intros ?
  | |- preserves _ (if ?b then _ else _) => destruct b
  | |- preserves _ (match ?x with _ => _ end) => destruct x
  end.

Lemma preserves_send_pending fuel now i : preserves same_table (send_pending fuel now i).
Proof. unfold send_pending. repeat table_step. Qed.
Lemma preserves_send_retry header source wall : preserves same_table (send_retry header source wall).
Proof. unfold send_retry. repeat table_step. Qed.
Lemma preserves_validate_address data cid source wall : preserves same_table (validate_address data cid source wall).
Proof. unfold validate_address. repeat (apply preserves_send_retry || table_step). Qed.
Lemma preserves_serve_requests i now wall : preserves same_table (serve_requests i now wall).
Proof. unfold serve_requests, serve_event. repeat table_step. Qed.

Lemma live_get s cid i : d_get cid (sv_sessions s) = Some i → i ∈ live s.
Proof. intros E%d_get_elem. unfold live. apply elem_of_list_to_set, list_elem_of_fmap. by exists (cid, i). Qed.

(** A new key of the table *)
Lemma live_set s cid i :
  d_get cid (sv_sessions s) = None → live (set_sv_sessions (d_set cid i (sv_sessions s)) s) = live s ∪ {[i]}.
Proof.
  intros E%d_get_None. unfold live. cbn. rewrite d_set_new, fmap_app by done. cbn.
  rewrite list_to_set_app_L. cbn. set_solver.
Qed.

Lemma live_bounded s : accounted s → (length (sv_store s) ∉ live s)%nat.
Proof. intros [_ B _ _ _] H. specialize (B _ H). lia. Qed.

(** The state after [_accept] of this connection *)
Definition accepted (cid : bytes) (connection : Connection) (now : Q) s : Server :=
  set_sv_sessions (d_set cid (length (sv_store s)) (sv_sessions s))
    (set_sv_store (sv_store s ++ [mkSession connection [] (now + sv_idle_timeout s)]) (set_sv_draws (S (sv_draws s)) s)).

Lemma accept_cases cid retry now s :
  (∃ c, accept cid retry now s = (Ok (length (sv_store s)), accepted cid c now s)) ∨
  (∃ e, accept cid retry now s = (Raise e, set_sv_draws (S (sv_draws s)) s)).
Proof.
  unfold accept. rewrite (M_bind_ok _ _ _ _ _ (eq_refl : draw CONNECTION_ID_LENGTH s = (Ok _, _))).
  rewrite (M_bind_ok get _ _ _ _ eq_refl). destruct (new_Connection false _ _ _ _ _ _) as [c|e]; [left; by exists c|right; by exists e].
Qed.

(** [_accept] adds one session to both sides of the account. *)
Lemma accepted_accounts cid c now s :
  d_get cid (sv_sessions s) = None → accounted s →
  length (sv_store s) ∈ live (accepted cid c now s) ∧ accounted (accepted cid c now s).
Proof.
  intros E A. set (s' := set_sv_store (sv_store s ++ [mkSession c [] (now + sv_idle_timeout s)]) (set_sv_draws (S (sv_draws s)) s)).
  pose proof (live_set s' cid (length (sv_store s)) E) as L. change (live s') with (live s) in L.
  change (set_sv_sessions _ s') with (accepted cid c now s) in L.
  pose proof (live_bounded _ A) as F. destruct A as [K B O R D]. split; [rewrite L; set_solver|].
  split; [by apply d_set_NoDup| | |done|done].
  - intros i. rewrite L, elem_of_union, elem_of_singleton. cbn. rewrite length_app. cbn.
    intros [Hi| ->]; [specialize (B _ Hi)|]; lia.
  - rewrite L, size_union, size_singleton by set_solver. cbn [sv_served sv_store accepted set_sv_sessions set_sv_store].
    rewrite len_app, <- O. change (len [_]) with 1. cbn. lia.
Qed.

(** ** Routing *)

Definition keeps_entry i s s' : Prop := i ∈ live s ∧ accounted s → i ∈ live s' ∧ accounted s'.
#[local] Instance keeps_entry_preorder i : PreOrder (keeps_entry i).
Proof. split; unfold keeps_entry; [by intros ? ?|auto]. Qed.

Lemma same_table_entry i s s' : same_table s s' → keeps_entry i s s'.
Proof. intros E [Hi A]. rewrite (same_table_live _ _ E). split; [done|]. by eapply same_table_accounts. Qed.

Lemma index_entry i cid :
  preserves (keeps_entry i) (modify (λ s, match d_get cid (sv_sessions s) with
                                          | Some _ => s
                                          | None => set_sv_sessions (d_set cid i (sv_sessions s)) s
                                          end)).
Proof.
  apply preserves_modify. intros s [Hi A]. destruct (d_get cid _) eqn:E; [done|].
  pose proof (live_set _ _ i E) as L. replace (live s ∪ {[i]}) with (live s) in L by set_solver.
  rewrite L. split; [done|]. destruct A as [K B O R D]. split; rewrite ?L; cbn; try done. by apply d_set_NoDup.
Qed.

Lemma preserves_hand_over i data source ecn now : preserves (keeps_entry i) (hand_over i data source ecn now).
Proof.
  unfold hand_over. repeat (apply index_entry || (apply preserves_bind; [|intros ?])).
  all: intros s; apply same_table_entry; first [apply preserves_on_session | done].
Qed.

Lemma weaken_table {A} (m : M Server A) : preserves same_table m → preserves keeps_accounts m.
Proof. intros H s. by apply same_table_accounts. Qed.

(** A computation that leaves the table alone, then one that keeps the
    account from any table equal to the first *)
Lemma bind_accounts {A B} (m : M Server A) (k : A → M Server B) s :
  preserves same_table m → accounted s → (∀ a s', same_table s s' → accounted s' → accounted (k a s').2) →
  accounted ((m ≫= k) s).2.
Proof.
  intros Hm A0 Hk. unfold mbind, M_bind. pose proof (Hm s) as T. destruct (m s) as [[a|e] s']; cbn in T |- *.
  - apply Hk; [done|]. by apply (same_table_accounts s).
  - by apply (same_table_accounts s).
Qed.

(** At most one datagram sent, to that address, and no session touched *)
Definition answered (source : option bytes) s s' : Prop :=
  sv_store s' = sv_store s ∧ sv_sessions s' = sv_sessions s ∧ sv_served s' = sv_served s ∧
  sv_resumed s' = sv_resumed s ∧ sv_early_data s' = sv_early_data s ∧
  (sv_sent s' = sv_sent s ∨ ∃ packet address, source = Some address ∧ sv_sent s' = sv_sent s ++ [(packet, address)]).

Lemma answered_table source s s' : answered source s s' → same_table s s'.
Proof. intros (E & ? & ? & ? & ? & _). unfold same_table. by rewrite E. Qed.

(** The packet is an Initial whose token one of the validators accepts. *)
Definition token_valid (data : bytes) (source : option bytes) (wall : Q) s : Prop :=
  ∃ header, initial_header data = Ok (Some header) ∧
    (validate_new_token (sv_token_key s) (lh_token header) (address_bytes source) wall NEW_TOKEN_LIFETIME = Ok tt ∨
     ∃ original, validate_token (sv_token_key s) (lh_token header) (address_bytes source) wall TOKEN_LIFETIME = Ok original).

Lemma send_retry_answers header source wall s n :
  answered source s (send_retry header source wall (set_sv_draws n s)).2.
Proof.
  unfold send_retry, draw, sendto, mbind, M_bind, get, modify, lift, mret, M_ret. cbn -[mint_token build_retry].
  destruct (mint_token _ _ _ _ _) as [token|]; [|by repeat split; left].
  destruct (build_retry _ _ _ _) as [packet|]; [|by repeat split; left].
  destruct source as [a|]; repeat split; [right; by exists packet, a|by left].
Qed.

(** The outcomes of [_validate_address] *)
Definition validated data source wall s n (outcome : result Validation * Server) : Prop :=
  match outcome.1 with
  | Ok (ValidRetry _) | Ok ValidToken => outcome.2 = set_sv_draws n s ∧ token_valid data source wall s
  | Ok NotValid | Raise _ => answered source s outcome.2
  end.

Lemma refused_answers data header source wall s n :
  validated data source wall s n ((_ ← send_retry header source wall; mret NotValid) (set_sv_draws n s)).
Proof.
  pose proof (send_retry_answers header source wall s n) as R. unfold validated, mbind, M_bind.
  by destruct (send_retry _ _ _ _) as [[]?].
Qed.

Lemma validate_address_cases data cid source wall s n :
  validated data source wall s n (validate_address data cid source wall (set_sv_draws n s)).
Proof.
  unfold validate_address. destruct (initial_header data) as [[header|]|e] eqn:E; [|by repeat split; left..].
  rewrite (M_bind_ok (lift _) _ _ _ _ eq_refl). case_test; [apply refused_answers|].
  rewrite (M_bind_ok get _ _ _ _ eq_refl). cbn [sv_token_key set_sv_draws].
  destruct (starts_with NEW_TOKEN _).
  - destruct (validate_new_token _ _ _ _ _) as [[]|e] eqn:V; cbn [mbind result_bind].
    + split; [done|]. exists header. by split; [|left].
    + destruct e; try apply refused_answers; by repeat split; left.
  - destruct (validate_token _ _ _ _ _) as [original|e] eqn:V; cbn [mbind result_bind].
    + split; [done|]. exists header. split; [done|right; by exists original].
    + destruct e; try apply refused_answers; by repeat split; left.
Qed.

(** The outcomes of a datagram with an unknown connection ID *)
Definition admitted data cid source now wall s (outcome : result (option nat) * Server) : Prop :=
  match outcome.1 with
  | Ok (Some i) => i = length (sv_store s) ∧ (sv_retry s = true → token_valid data source wall s) ∧
                   ∃ c n, outcome.2 = accepted cid c now (set_sv_draws n s)
  | Ok None | Raise _ => answered source s outcome.2
  end.

Lemma accept_admits data cid source retry now wall s n :
  (sv_retry s = true → token_valid data source wall s) →
  admitted data cid source now wall s ((i ← accept cid retry now; mret (Some i)) (set_sv_draws n s)).
Proof.
  intros V. unfold mbind, M_bind, admitted.
  destruct (accept_cases cid retry now (set_sv_draws n s)) as [[c ->]|[e ->]]; cbn [fst snd mret M_ret].
  - split_and!; [done|done|by exists c, n].
  - by repeat split; left.
Qed.

Lemma admit_cases data cid source now wall s :
  admitted data cid source now wall s (admission data cid source now wall s).
Proof.
  unfold admission. rewrite (M_bind_ok _ _ _ _ _ (eq_refl : draw 1 s = (Ok _, _))).
  destruct (version_negotiation_response _ data) as [[packet|]|e]; [|..|by repeat split; left].
  { destruct source as [a|]; [|by repeat split; left]. repeat split. right. by exists packet, a. }
  rewrite (M_bind_ok (lift _) _ _ _ _ eq_refl). case_test; [by repeat split; left|].
  rewrite (M_bind_ok get _ _ _ _ eq_refl). cbn [sv_retry set_sv_draws].
  destruct (sv_retry s) eqn:R; [|by apply accept_admits; rewrite R].
  pose proof (validate_address_cases data cid source wall s (S (sv_draws s))) as V.
  unfold validated in V. unfold mbind at 1, M_bind at 1. destruct (validate_address _ _ _ _ _) as [[[]|] s']; cbn in V; try done.
  all: destruct V as [-> V]; by apply accept_admits.
Qed.

Lemma route_accounts data source ecn now wall : preserves keeps_accounts (route data source ecn now wall).
Proof.
  intros s A. unfold route. destruct (destination_connection_id _ _) as [cid|]; [|done].
  rewrite (M_bind_ok get _ _ _ _ eq_refl). destruct (d_get cid (sv_sessions s)) as [i|] eqn:E.
  { apply preserves_hand_over. by split; [eapply live_get|]. }
  pose proof (admit_cases data cid source now wall s) as H. unfold admitted in H. unfold mbind, M_bind.
  destruct (admission _ _ _ _ _ _) as [[[i|]|e] s']; cbn [fst snd] in *.
  - destruct H as (-> & _ & c & n & ->). apply preserves_hand_over. apply (accepted_accounts cid c now (set_sv_draws n s)); [done|].
    by apply (same_table_accounts s).
  - apply (same_table_accounts s); [by eapply answered_table|done].
  - apply (same_table_accounts s); [by eapply answered_table|done].
Qed.

(** ** Reaping *)

Lemma elem_of_filter_list {A} (p : A → bool) (l : list A) x : x ∈ List.filter p l ↔ p x = true ∧ x ∈ l.
Proof. rewrite !list_elem_of_In, filter_In. tauto. Qed.

Lemma NoDup_filter_list {A} (p : A → bool) (l : list A) : NoDup l → NoDup (List.filter p l).
Proof. intros H%NoDup_ListNoDup. apply NoDup_ListNoDup. by apply List.NoDup_filter. Qed.

Lemma filter_keys (p : bytes * nat → bool) l : NoDup l.*1 → NoDup (List.filter p l).*1.
Proof.
  induction l as [|[k v] l IH]; cbn; [done|]. intros [Hk Hl]%NoDup_cons. destruct (p _); cbn; [|auto].
  apply NoDup_cons. split; [|auto]. intros (x & -> & [_ Hx]%elem_of_filter_list)%list_elem_of_fmap.
  apply Hk. by apply list_elem_of_fmap_2.
Qed.

(** The sessions that leave the table *)
Definition departing (now : Q) s : list nat :=
  List.filter (λ i, negb (bool_decide (i ∈ (List.filter (λ e, negb (is_finished now s e.2)) (sv_sessions s)).*2)))
    (remove_dups (List.filter (λ e, is_finished now s e.2) (sv_sessions s)).*2).

Lemma elem_of_live_filter p s i :
  i ∈ (List.filter (λ e : bytes * nat, p e.2) (sv_sessions s)).*2 ↔ p i = true ∧ i ∈ live s.
Proof.
  unfold live. rewrite elem_of_list_to_set, !list_elem_of_fmap. split.
  - intros ([k j] & -> & [H1 H2]%elem_of_filter_list). cbn in *. split; [done|by exists (k, j)].
  - intros (H & [k j] & -> & Hj). exists (k, j). split; [done|]. by apply elem_of_filter_list.
Qed.

Lemma elem_of_kept now s i :
  i ∈ (List.filter (λ e, negb (is_finished now s e.2)) (sv_sessions s)).*2 ↔ is_finished now s i = false ∧ i ∈ live s.
Proof. rewrite <- negb_true_iff. apply (elem_of_live_filter (λ i, negb (is_finished now s i))). Qed.

Lemma elem_of_departing now s i : i ∈ departing now s ↔ is_finished now s i = true ∧ i ∈ live s.
Proof.
  unfold departing. rewrite elem_of_filter_list, elem_of_remove_dups, elem_of_live_filter.
  rewrite negb_true_iff, bool_decide_eq_false, elem_of_kept.
  destruct (is_finished now s i); naive_solver.
Qed.

Lemma live_reap now s : live (reap now s).2 = filter (λ i, is_finished now s i = false) (live s).
Proof.
  apply leibniz_equiv. intros i. rewrite elem_of_filter. unfold live at 1. rewrite elem_of_list_to_set.
  apply elem_of_kept.
Qed.

Lemma live_split now s : size (live s) = (size (live (reap now s).2) + length (departing now s))%nat.
Proof.
  rewrite live_reap. rewrite <- (size_list_to_set (C := gset nat) (departing now s)).
  2: { apply NoDup_filter_list, NoDup_remove_dups. }
  rewrite <- size_union; [f_equal; apply leibniz_equiv|]; [intros i|intros i].
  - rewrite elem_of_union, elem_of_filter, elem_of_list_to_set, elem_of_departing.
    destruct (is_finished now s i); naive_solver.
  - rewrite elem_of_filter, elem_of_list_to_set, elem_of_departing. naive_solver congruence.
Qed.

Lemma count_if_bound p s l : 0 <= count_if p s l <= len l.
Proof. unfold count_if, len. pose proof (List.filter_length_le (λ i, match sv_store s !! i with Some ss => p (ss_connection ss) | None => false end) l). lia. Qed.

Lemma reap_accounts now : preserves keeps_accounts (reap now).
Proof.
  intros s A. pose proof (live_split now s) as L. pose proof (live_reap now s) as F.
  destruct A as [K B O R D].
  pose proof (count_if_bound (tls_flag tls_early_data_accepted) s (departing now s)).
  pose proof (count_if_bound (tls_flag tls_resumed) s (departing now s)).
  assert (sv_served (reap now s).2 = sv_served s + len (departing now s)) as V by done.
  assert (sv_resumed (reap now s).2 = sv_resumed s + count_if (tls_flag tls_resumed) s (departing now s)) as VR by done.
  assert (sv_early_data (reap now s).2 = sv_early_data s + count_if (tls_flag tls_early_data_accepted) s (departing now s))
    as VE by done.
  split; rewrite ?V, ?VR, ?VE; [| | |lia..].
  - cbn. by apply filter_keys.
  - intros i. rewrite F, elem_of_filter. intros [_ Hi]. cbn. auto.
  - change (sv_store (reap now s).2) with (sv_store s). unfold len in *. lia.
Qed.

Lemma poll_accounts fuel before arrived now wall : preserves keeps_accounts (poll fuel before arrived now wall).
Proof.
  unfold poll. repeat first [apply reap_accounts | apply weaken_table; solve [repeat (apply preserves_send_pending || apply preserves_serve_requests || table_step)]
    | apply preserves_bind; [|intros ?] | apply preserves_each; intros ?].
  destruct x as [[[data source] ecn] at_]. apply route_accounts.
Qed.

(** ** Waiting *)

(** The server sleeps until it has something to do and no longer.  The
    wait is never open-ended and never negative; it ends by the loss, idle or
    close timer of every session and by every session's deadline still ahead,
    is over at once when one of them has passed, and is otherwise exactly the
    time to one of them. *)
Theorem poll_wakes_in_time now s
  (Hlive : ∀ cid i, (cid, i) ∈ sv_sessions s → is_Some (sv_store s !! i)) :
  ∃ wait, wait_time (poll_deadlines now s) now = Some wait ∧ (0 <= wait)%Q ∧
    (∀ cid i session t, (cid, i) ∈ sv_sessions s → sv_store s !! i = Some session →
       next_timer (ss_connection session) = Some t ∨ ss_deadline session = t →
       if Qle_bool now t then (now + wait <= t)%Q else (wait == 0)%Q) ∧
    ((0 < wait)%Q → ∃ t, Some t ∈ poll_deadlines now s ∧ (wait == t - now)%Q).
Proof.
  pose proof (wait_time_spec (poll_deadlines now s) now) as W.
  assert (∀ cid i session t, (cid, i) ∈ sv_sessions s → sv_store s !! i = Some session →
     next_timer (ss_connection session) = Some t ∨ ss_deadline session = t → Some t ∈ poll_deadlines now s) as Hin.
  { intros cid i session t Hi Hs Ht. unfold poll_deadlines.
    assert (session ∈ omap (λ i, sv_store s !! i) (sv_sessions s).*2) as Hm.
    { apply list_elem_of_omap. exists i. split; [|done]. by apply (list_elem_of_fmap_2 snd _ (cid, i)). }
    destruct (omap _ _) as [|session0 sessions]; [by apply not_elem_of_nil in Hm|]. apply elem_of_app.
    destruct Ht as [Ht|Ht]; [left|right]; apply list_elem_of_fmap; exists session; by rewrite Ht. }
  assert (∃ t, Some t ∈ poll_deadlines now s) as [t0 H0].
  { destruct (sv_sessions s) as [|[cid i] l] eqn:E.
    - exists (now + sv_idle_timeout s)%Q. unfold poll_deadlines. rewrite E. left.
    - destruct (Hlive cid i) as [session Hs]; [by left|]. exists (ss_deadline session).
      apply (Hin cid i session); [by left|done|by right]. }
  destruct (wait_time _ _) as [wait|]; [|by specialize (W _ H0)]. destruct W as (W0 & Wle & Wz & Wt).
  exists wait. split_and!; try done. intros cid i session t Hi Hs Ht.
  pose proof (Hin cid i session t Hi Hs Ht) as Hd. destruct (Qle_bool now t) eqn:E.
  - apply Wle; [done|]. by apply Qle_bool_iff.
  - apply (Wz t); [done|]. apply Qlt_le_weak, Qnot_le_lt. intros H%Qle_bool_iff. congruence.
Qed.

(** One I/O step of the server *)
Definition polled s s' : Prop := ∃ fuel before arrived now wall, s' = (poll fuel before arrived now wall s).2.

Lemma new_Server_accounts config resolve idle_timeout token_key retry urandom :
  accounted (new_Server config resolve idle_timeout token_key retry urandom).
Proof. split; cbn; [constructor|set_solver|by rewrite size_empty|done|done]. Qed.

(** C9: a connection is served once, however many connection IDs pointed at
    it.  After any sequence of polls, whatever arrived and whatever was
    raised, the connections the server accepted are those its table still
    points at and those it counts as served; the connections it counts as
    resumed and as having used 0-RTT are no more than these; and the table is
    a dictionary of sessions that exist. *)
Theorem connections_served_once config resolve idle_timeout token_key retry urandom s
  (Hrun : rtc polled (new_Server config resolve idle_timeout token_key retry urandom) s) :
  sv_served s + Z.of_nat (size (live s)) = len (sv_store s) ∧
  0 <= sv_resumed s <= sv_served s ∧ 0 <= sv_early_data s <= sv_served s ∧
  NoDup (sv_sessions s).*1 ∧ ∀ cid i, (cid, i) ∈ sv_sessions s → is_Some (sv_store s !! i).
Proof.
  assert (accounted s) as [K B O R D].
  { pose proof (new_Server_accounts config resolve idle_timeout token_key retry urandom) as A.
    induction Hrun as [|s1 s2 s3 (fuel & before & arrived & now & wall & ->) _ IH]; [done|].
    by apply IH, poll_accounts. }
  split_and!; try done; try lia. intros cid i Hi. apply lookup_lt_is_Some, B.
  unfold live. apply elem_of_list_to_set. by apply (list_elem_of_fmap_2 snd _ (cid, i)).
Qed.

(** [serve] is polls; when it returns under a limit, the limit is reached. *)
Theorem serve_ends fuel n rounds s :
  rtc polled s (serve fuel (Some n) rounds s).2 ∧
  ((serve fuel (Some n) rounds s).1 = Ok true → n <= sv_served (serve fuel (Some n) rounds s).2).
Proof.
  revert s. induction rounds as [|[[[before arrived] now] wall] rounds IH]; intros s; cbn [serve];
    erewrite M_bind_ok by done; (case_test; [split; [done|cbn; lia]|]); [done|].
  assert (Hp : polled s (poll fuel before arrived now wall s).2) by (by exists fuel, before, arrived, now, wall).
  unfold mbind, M_bind. destruct (poll fuel before arrived now wall s) as [[[]|e] s1]; cbn [snd] in Hp.
  - destruct (IH s1) as [H1 H2]. split; [|done]. by eapply rtc_l.
  - split; [|done]. by apply rtc_once.
Qed.

(** C27: address validation commits no state.  While the server validates
    addresses, a datagram with a connection ID it does not know leaves its
    sessions alone and draws at most one datagram, to the address it came
    from, unless it is an Initial whose token one of the two validators
    accepts for that address. *)
Theorem no_state_before_validation data cid source ecn now wall s
  (Hretry : sv_retry s = true) (Hcid : destination_connection_id data CONNECTION_ID_LENGTH = Some cid)
  (Hnew : d_get cid (sv_sessions s) = None) :
  answered source s (route data source ecn now wall s).2 ∨ token_valid data source wall s.
Proof.
  unfold route. rewrite Hcid, (M_bind_ok get _ _ _ _ eq_refl), Hnew.
  pose proof (admit_cases data cid source now wall s) as H. unfold admitted in H. unfold mbind, M_bind.
  destruct (admission _ _ _ _ _ _) as [[[i|]|e] s']; cbn [fst snd mret M_ret] in *; [|by left..].
  right. by apply H.
Qed.
End server_facts.

(** ** Tokens *)

Section tokens.
Context `{HP : Primitives} `{HL : !PrimitiveLaws HP} `{HT : Tls}.
Implicit Types (s : Server).

(** The server's randomness has the length asked for. *)
Definition draws_bytes s : Prop := ∀ i n, 0 <= n → len (sv_urandom s i n) = n.

Lemma initial_header_ok data h :
  initial_header data = Ok (Some h) → parse_long_header data = Ok h ∧ lh_packet_type h = INITIAL.
Proof.
  unfold initial_header. case_test; [done|].
  destruct (parse_long_header data) as [h'|[]]; try done. case_bool_decide; [|done]. by intros [= <-].
Qed.

Lemma initial_header_cids data h :
  initial_header data = Ok (Some h) → len (lh_destination_cid h) <= MAX_CID_LENGTH ∧ len (lh_source_cid h) <= MAX_CID_LENGTH.
Proof.
  intros [E _]%initial_header_ok. pose proof (parse_long_header_total data) as T. rewrite E in T.
  destruct T as [(_ & _ & Hd & Hs & _) _]. done.
Qed.

(** What [_send_retry] sends *)
Lemma send_retry_ok h a wall s :
  len (sv_token_key s) = AES_256_KEY → draws_bytes s → short_field a → 0 <= int_of wall < 2 ^ 64 →
  len (lh_destination_cid h) <= MAX_CID_LENGTH → len (lh_source_cid h) <= MAX_CID_LENGTH →
  ∃ nonce c packet s', send_retry h (Some a) wall s = (Ok tt, s') ∧
    sv_sent s' = sv_sent s ++ [(packet, a)] ∧ len nonce = NONCE_LENGTH ∧
    aesgcm_decrypt (sv_token_key s) nonce c RETRY_TOKEN = Ok (token_payload [lh_destination_cid h; a] wall) ∧
    is_retry packet = true ∧
    ∃ retry_cid, parse_retry packet (lh_destination_cid h) =
      Ok (mkRetry QUIC_V1 (lh_source_cid h) retry_cid (RETRY_TOKEN ++ nonce ++ c)).
Proof.
  intros Hk Hu Ha Hw Hd Hs. unfold MAX_CID_LENGTH in *.
  set (retry_cid := sv_urandom s (sv_draws s) CONNECTION_ID_LENGTH).
  set (nonce := sv_urandom s (S (sv_draws s)) NONCE_LENGTH).
  assert (len retry_cid = CONNECTION_ID_LENGTH) as Hr by (by apply Hu).
  assert (len nonce = NONCE_LENGTH) as Hn by (by apply Hu).
  destruct (mint_token_ok (sv_token_key s) nonce (lh_destination_cid h) a wall) as (c & Em & D & Hc); try done.
  { unfold short_field. lia. }
  destruct (retry_roundtrip (lh_source_cid h) retry_cid (RETRY_TOKEN ++ nonce ++ c) (lh_destination_cid h))
    as (packet & Eb & Ei & Ep); [done|by rewrite Hr|lia| |].
  { rewrite !len_app, Hn. unfold NONCE_LENGTH. change (len RETRY_TOKEN) with 1. lia. }
  exists nonce, c, packet. unfold send_retry.
  rewrite (M_bind_ok get _ _ _ _ eq_refl), (M_bind_ok _ _ _ _ _ (eq_refl : draw _ s = (Ok retry_cid, _))).
  rewrite (M_bind_ok _ _ _ _ _ (eq_refl : draw NONCE_LENGTH (set_sv_draws (S (sv_draws s)) s) = (Ok nonce, _))).
  cbn [address_bytes]. rewrite Em, (M_bind_ok (lift _) _ _ _ _ eq_refl), Eb, (M_bind_ok (lift _) _ _ _ _ eq_refl).
  eexists. split; [done|]. split_and!; try done. by exists retry_cid.
Qed.

Definition is_valid (r : result Validation) : bool :=
  match r with Ok (ValidRetry _) | Ok ValidToken => true | _ => false end.

Lemma refused_invalid h source wall s :
  answered source s ((_ ← send_retry h source wall; mret NotValid) s).2 ∧
  is_valid ((_ ← send_retry h source wall; mret NotValid) s).1 = false.
Proof.
  pose proof (send_retry_answers h source wall s (sv_draws s)) as R.
  replace (set_sv_draws (sv_draws s) s) with s in R by (by destruct s). unfold mbind, M_bind.
  destruct (send_retry h source wall s) as [[]?]; by split.
Qed.

(** C10: the Retry admits the client it was sent to, and no other.  An Initial
    without a token is answered, at the address it came from, with one Retry
    the client can read: it verifies under the connection ID the client chose
    and is addressed to the client's own.  From then on, in whatever state
    the server is, an Initial that carries that token from the same address
    within the token's lifetime is validated, with the original connection ID
    the handshake must echo; from another address or later it is not, and
    draws at most another Retry. *)
Theorem retry_admits data h cid a wall s
  (Hkey : len (sv_token_key s) = AES_256_KEY) (Hrandom : draws_bytes s) (Ha : short_field a)
  (Hwall : 0 <= int_of wall < 2 ^ 64) (Hinitial : initial_header data = Ok (Some h)) (Htoken : lh_token h = []) :
  ∃ packet retry s', validate_address data cid (Some a) wall s = (Ok NotValid, s') ∧
    sv_sent s' = sv_sent s ++ [(packet, a)] ∧ is_retry packet = true ∧
    parse_retry packet (lh_destination_cid h) = Ok retry ∧ rt_destination_cid retry = lh_source_cid h ∧
    ∀ data' h' cid' source' wall' s2, sv_token_key s2 = sv_token_key s → initial_header data' = Ok (Some h') →
      lh_token h' = rt_token retry →
      if binding_ok a (address_bytes source') (int_of wall) wall' TOKEN_LIFETIME
      then validate_address data' cid' source' wall' s2 = (Ok (ValidRetry (mkRetryContext (lh_destination_cid h) cid')), s2)
      else answered source' s2 (validate_address data' cid' source' wall' s2).2 ∧
           is_valid (validate_address data' cid' source' wall' s2).1 = false.
Proof.
  destruct (initial_header_cids _ _ Hinitial) as [Hd Hs].
  destruct (send_retry_ok h a wall s) as (nonce & c & packet & s' & E & Hsent & Hn & D & Hr & retry_cid & P); try done.
  exists packet, (mkRetry QUIC_V1 (lh_source_cid h) retry_cid (RETRY_TOKEN ++ nonce ++ c)), s'.
  split_and!; try done.
  { unfold validate_address. rewrite Hinitial, (M_bind_ok (lift _) _ _ _ _ eq_refl), Htoken.
    change (len (@nil byte) =? 0) with true. cbv iota.
    by rewrite (M_bind_ok _ _ _ _ _ E). }
  intros data' h' cid' source' wall' s2 Hk' Hi' Ht'. cbn [rt_token] in Ht'. unfold validate_address.
  rewrite Hi', (M_bind_ok (lift _) _ _ _ _ eq_refl), Ht'.
  rewrite (proj2 (Z.eqb_neq _ _)).
  2: { rewrite len_app. change (len RETRY_TOKEN) with 1. pose proof (len_nonneg (nonce ++ c)). lia. }
  rewrite (M_bind_ok get _ _ _ _ eq_refl), Hk'.
  change (starts_with NEW_TOKEN (RETRY_TOKEN ++ nonce ++ c)) with false. cbv iota zeta.
  assert (short_field (lh_destination_cid h)) by (unfold short_field, MAX_CID_LENGTH in *; lia).
  rewrite (validate_minted (sv_token_key s) nonce (lh_destination_cid h) a c wall) by done.
  pose proof (check_binding_spec a (address_bytes source') (int_of wall) wall' TOKEN_LIFETIME) as B.
  destruct (binding_ok _ _ _ _ _); [by rewrite B|]. destruct B as [msg ->]. apply refused_invalid.
Qed.

Lemma parsed_first_byte data h :
  parse_long_header data = Ok h → (len data =? 0) = false ∧ has_bit (first_byte data) HEADER_FORM_LONG = true.
Proof.
  intros (b0 & ver & r & -> & _ & Hb & _)%long_header_prefix. split; [|done].
  rewrite len_cons. apply Z.eqb_neq. match goal with |- 1 + len ?l ≠ 0 => pose proof (len_nonneg l) end. lia.
Qed.

Lemma short_token_escapes_validation data h kind tail cid source wall s :
  parse_long_header data = Ok h → lh_packet_type h = INITIAL → (kind = RETRY_TOKEN ∨ kind = NEW_TOKEN) →
  lh_token h = kind ++ tail → len tail < 8 →
  ∃ msg s', validate_address data cid source wall s = (Raise (ValueError msg), s').
Proof.
  intros Hparse Htype Hkind Htoken Hshort. destruct (parsed_first_byte _ _ Hparse) as [Hlen Hb].
  unfold validate_address, initial_header. rewrite Hlen, Hb, Hparse. cbn [negb orb].
  rewrite bool_decide_eq_true_2, (M_bind_ok (lift _) _ _ _ _ eq_refl), Htoken by done.
  replace (len (kind ++ tail) =? 0) with false.
  2: { symmetry. apply Z.eqb_neq. rewrite len_app. pose proof (len_nonneg tail). assert (len kind = 1) by (by destruct Hkind as [-> | ->]). lia. }
  rewrite (M_bind_ok get _ _ _ _ eq_refl).
  destruct (short_token_escapes (sv_token_key s) tail (address_bytes source) wall TOKEN_LIFETIME Hshort) as [[m1 E1] _].
  destruct (short_token_escapes (sv_token_key s) tail (address_bytes source) wall NEW_TOKEN_LIFETIME Hshort) as [_ [m2 E2]].
  destruct Hkind as [-> | ->].
  - change (starts_with NEW_TOKEN (RETRY_TOKEN ++ tail)) with false. rewrite E1. by exists m1, s.
  - rewrite starts_with_app, E2. by exists m2, s.
Qed.

(** Datagrams with this connection ID that nothing on the way guards against:
    a long header cut short behind its connection IDs, and an Initial whose
    token cannot hold a nonce *)
Inductive unguarded (data cid : bytes) : Prop :=
| truncated_header msg :
    destination_connection_id data CONNECTION_ID_LENGTH = Some cid → has_bit (first_byte data) HEADER_FORM_LONG = true →
    len data < MIN_VERSION_NEGOTIATION_DATAGRAM → parse_long_header data = Raise (BufferReadError msg) → unguarded data cid
| short_token h kind tail :
    parse_long_header data = Ok h → lh_packet_type h = INITIAL → lh_destination_cid h = cid →
    (kind = RETRY_TOKEN ∨ kind = NEW_TOKEN) → lh_token h = kind ++ tail → len tail < 8 → unguarded data cid.

(** What it raises instead of [TokenError] *)
Definition unguarded_error (e : exn) : Prop :=
  match e with BufferReadError _ | ValueError _ => True | _ => False end.

Lemma unguarded_escapes data cid source wall s :
  unguarded data cid →
  destination_connection_id data CONNECTION_ID_LENGTH = Some cid ∧ has_bit (first_byte data) HEADER_FORM_LONG = true ∧
  (∀ urandom, version_negotiation_response urandom data = Ok None) ∧
  ∃ e s', unguarded_error e ∧ validate_address data cid source wall s = (Raise e, s').
Proof.
  intros [msg Hd Hb Hl Hp|h kind tail Hp Ht <- Hk Htok Hs].
  - split_and!; try done.
    + intros u. unfold version_negotiation_response. by rewrite (proj2 (Z.ltb_lt _ _)).
    + exists (BufferReadError msg), s. split; [done|]. unfold validate_address, initial_header. rewrite Hb, Hp.
      destruct data; [done|]. rewrite len_cons. pose proof (len_nonneg data). by rewrite (proj2 (Z.eqb_neq _ _)) by lia.
  - pose proof (parse_long_header_total data) as T. rewrite Hp in T. destruct T as [(_ & Hv & _) _].
    destruct (routing_agrees_with_parsing data CONNECTION_ID_LENGTH ltac:(done)) as [D _].
    destruct (parsed_first_byte _ _ Hp) as [_ Hb]. split_and!; [by apply D|done|by eauto using version_one_not_negotiated|].
    destruct (short_token_escapes_validation data h kind tail (lh_destination_cid h) source wall s) as (msg & s' & V); try done.
    by exists (ValueError msg), s'.
Qed.

(** C39: one datagram can stop the server.  While it validates addresses, a long
    header cut short behind its connection IDs, or an Initial whose token is
    too short to hold a nonce, is neither dropped nor answered with a Retry:
    the parser's [BufferReadError] and the AEAD's [ValueError] pass the
    handlers for [HeaderParseError] and [TokenError], [_route] raises, and
    [poll] with it. *)
Theorem unguarded_datagram_stops_server data cid source ecn at_ now wall fuel before rest s
  (Hretry : sv_retry s = true) (Hdata : unguarded data cid) (Hnew : d_get cid (sv_sessions s) = None) :
  ∃ e, unguarded_error e ∧ (route data source ecn at_ wall s).1 = Raise e ∧
    (sv_sessions s = [] → (poll fuel before ((data, source, ecn, at_) :: rest) now wall s).1 = Raise e).
Proof.
  destruct (unguarded_escapes data cid source wall (set_sv_draws (S (sv_draws s)) s) Hdata)
    as (D & Hb & N & e & s' & He & V).
  assert (route data source ecn at_ wall s = (Raise e, s')) as R.
  { unfold route, admission. rewrite D, (M_bind_ok get _ _ _ _ eq_refl), Hnew. apply M_bind_raise.
    rewrite (M_bind_ok _ _ _ _ _ (eq_refl : draw 1 s = (Ok _, _))), N, (M_bind_ok (lift _) _ _ _ _ eq_refl), Hb. cbn [negb].
    rewrite (M_bind_ok get _ _ _ _ eq_refl). cbn [sv_retry set_sv_draws]. rewrite Hretry. by apply M_bind_raise. }
  exists e. split; [done|]. rewrite R. split; [done|]. intros Hs. unfold poll.
  rewrite (M_bind_ok get _ _ _ _ eq_refl), Hs. change (([] : list (bytes * nat)).*2) with ([] : list nat).
  rewrite (M_bind_ok (each (send_pending fuel before) []) _ s tt s eq_refl).
  erewrite M_bind_raise; [done|]. cbn [each]. by apply M_bind_raise.
Qed.
End tokens.

(** ** Requests *)

Section requests.
Context `{HP : Primitives} `{HT : Tls}.
Implicit Types (f : Fetch) (m : StreamManager).

(** The ID of the next stream this side opens *)
Definition next_id m : Z := 4 * sm_next_bidi_sequence m + local_bit (sm_is_client m).
Definition credit m : Z := sm_max_streams_bidi m - sm_next_bidi_sequence m.

(** The stream holds the whole request for the path, and nothing follows it. *)
Definition carries m (k : Z) (path : str) : Prop :=
  ∃ h s request, d_get k (sm_streams m) = Some h ∧ h_send h = Some s ∧ encode_request path = Ok request ∧
    ss_pending s = request ∧ ss_fin_queued s = true ∧ ss_base_offset s = 0.

(** A fetch between two rounds *)
Record requesting f m : Prop := {
  rq_streams : cn_streams (ft_connection f) = Some m;
  rq_manager : manager_inv m;
  rq_paths : Forall (λ p, is_ok (encode_request p) = true) (ft_pending f);
  rq_keys : Forall (λ k, k < next_id m) (ft_stream_paths f).*1 }.

(** The stream manager and the fetch after one request *)
Definition with_request m (request : bytes) : StreamManager :=
  let k := next_id m in
  set_streams (d_set k (mkHalf (Some (write request true (new_SendStream k (fl_max_stream_data_bidi_remote (sm_peer m)))).2)
                               (Some (new_RecvStream k (fl_max_stream_data_bidi_local (sm_local m))))) (sm_streams m))
    (set_sequence (sm_next_bidi_sequence m + 1) m).
Definition issued_one f m (path : str) (request : bytes) (pending : list str) : Fetch :=
  mkFetch (set_cn_streams (Some (with_request m request)) (ft_connection f)) pending
    (d_set (next_id m) path (ft_stream_paths f)) (d_set (next_id m) [] (ft_bodies f)) (ft_finished f) (ft_connected f) (ft_sent f).

Lemma d_set_set {V} (k : Z) (v w : V) d : d_set k v (d_set k w d) = d_set k v d.
Proof. induction d as [|[k' v'] d IH]; cbn; repeat case_decide; try done; cbn; repeat case_decide; try done. by rewrite IH. Qed.

Lemma on_send_run {A} m k (call : M SendStream A) h s :
  d_get k (sm_streams m) = Some h → h_send h = Some s →
  on_send k call m = ((call s).1, set_streams (d_set k (mkHalf (Some (call s).2) (h_recv h)) (sm_streams m)) m).
Proof.
  intros Ek Es. unfold on_send, send_stream, get_half.
  unfold mbind, M_bind, get, modify, lift. rewrite Ek. cbn. rewrite Es. cbn. destruct (call s). cbn.
  unfold store_send. by rewrite Ek.
Qed.

Lemma with_request_run m request :
  manager_inv m → 0 < credit m →
  ∃ m1, open_bidi m = (Ok (next_id m), m1) ∧ on_send (next_id m) (write request true) m1 = (Ok tt, with_request m request) ∧
    manager_inv (with_request m request).
Proof.
  intros Hi Hc. unfold credit in Hc. destruct (open_bidi_cases m Hi) as [[? _]|(_ & _ & E)]; [lia|].
  eexists. split; [exact E|]. destruct (inv_open_bidi _ _ _ Hi E) as [Hi1 _].
  match type of Hi1 with manager_inv ?m1 =>
    assert (on_send (next_id m) (write request true) m1 = (Ok tt, with_request m request)) as W end.
  { erewrite on_send_run; [|by apply d_get_set_eq|done]. unfold with_request. cbn -[d_set]. by rewrite d_set_set. }
  split; [exact W|]. by apply (inv_on_send _ _ _ _ _ (write_ok request true) Hi1 W).
Qed.

Lemma issue_requests_cons f m path request pending :
  requesting f m → 0 < credit m → encode_request path = Ok request →
  issue_requests (path :: pending) f = issue_requests pending (issued_one f m path request pending).
Proof.
  intros [Hs Hi _ _] Hc He. destruct (with_request_run m request Hi Hc) as (m1 & E1 & E2 & _).
  cbn [issue_requests]. rewrite (M_bind_ok get _ _ _ _ eq_refl).
  unfold open_stream, mbind at 1, M_bind at 1, get. rewrite Hs. unfold catch, in_streams. rewrite Hs, E1.
  rewrite He, !(M_bind_ok (modify _) _ _ _ _ eq_refl), (M_bind_ok (lift _) _ _ _ _ eq_refl).
  rewrite (M_bind_ok (on_connection _) _ _ tt (issued_one f m path request pending)); [done|].
  unfold on_connection, zoom, send_stream_data, mbind, M_bind, get, in_streams.
  cbn -[on_send d_set write]. by rewrite E2.
Qed.

Lemma issue_requests_stop f m path pending :
  requesting f m → credit m <= 0 →
  ∃ c, issue_requests (path :: pending) f = (Ok tt, set_ft_pending (path :: pending) (set_ft_connection c f)) ∧ cn_streams c = Some m.
Proof.
  intros [Hs Hi _ _] Hc. unfold credit in Hc. destruct (open_bidi_cases m Hi) as [[_ E]|[? _]]; [|lia].
  exists (set_cn_control_frames (cn_control_frames (ft_connection f) ++ [FStreamsBlocked (sm_max_streams_bidi m) true])
            (set_cn_streams (Some m) (ft_connection f))).
  split; [|done]. cbn [issue_requests]. rewrite (M_bind_ok get _ _ _ _ eq_refl).
  unfold open_stream, mbind at 1, M_bind at 1, get. rewrite Hs. unfold catch, in_streams. by rewrite Hs, E.
Qed.

Lemma requesting_step f m path request pending :
  requesting f m → 0 < credit m → encode_request path = Ok request → ft_pending f = path :: pending →
  requesting (issued_one f m path request pending) (with_request m request) ∧
  ft_stream_paths (issued_one f m path request pending) = ft_stream_paths f ++ [(next_id m, path)].
Proof.
  intros [Hs Hi Hp Hk] Hc He Ef. destruct (with_request_run m request Hi Hc) as (_ & _ & _ & Hi').
  assert (d_set (next_id m) path (ft_stream_paths f) = ft_stream_paths f ++ [(next_id m, path)]) as D.
  { apply d_set_new. rewrite Forall_forall in Hk. intros ?%Hk. lia. }
  split; [|exact D]. rewrite Ef in Hp. apply Forall_cons in Hp as [_ Hp]. constructor; try done.
  cbn -[d_set]. rewrite D, fmap_app. unfold next_id in *. cbn. apply Forall_app. split; [|by repeat constructor; cbn; lia].
  eapply Forall_impl; [exact Hk|]. cbn. lia.
Qed.

(** The IDs of the next streams this side opens *)
Definition next_ids m (n : nat) : list Z := (λ j : nat, next_id m + 4 * Z.of_nat j) <$> seq 0 n.

Lemma next_id_with_request m request : next_id (with_request m request) = next_id m + 4.
Proof. unfold next_id, with_request. cbn -[Z.mul Z.add]. lia. Qed.

Lemma next_ids_S m request n : next_ids m (S n) = next_id m :: next_ids (with_request m request) n.
Proof.
  unfold next_ids. cbn [seq fmap list_fmap]. f_equal; [lia|]. rewrite <- fmap_S_seq, <- list_fmap_compose.
  apply list_fmap_ext. intros _ j _. cbn -[Z.of_nat Z.mul]. rewrite next_id_with_request. lia.
Qed.

Lemma with_request_carries m path request :
  encode_request path = Ok request → carries (with_request m request) (next_id m) path.
Proof. intros He. do 3 eexists. split; [apply d_get_set_eq|]. by split_and!. Qed.

(** Requests are issued in order, once each, as far as stream credit goes,
    and none is lost.  Called with any paths it can encode, [issue_requests]
    returns; it has taken from the front of the pending paths exactly as many
    as the peer's stream limit has room for and left the others pending in
    order; the i-th of them is recorded under the i-th of the next stream
    IDs, whose stream holds the whole request and the end of the stream; and
    no other stream is touched. *)
Theorem requests_issued_in_order f m (Hf : requesting f m) :
  let n := Z.to_nat (credit m) in
  let issued := take n (ft_pending f) in
  let ids := next_ids m (length issued) in
  ∃ f' m', issue_requests (ft_pending f) f = (Ok tt, f') ∧ requesting f' m' ∧
    ft_pending f' = drop n (ft_pending f) ∧
    ft_stream_paths f' = ft_stream_paths f ++ zip ids issued ∧
    Forall2 (carries m') ids issued ∧
    credit m' = credit m - len issued ∧
    ∀ k, k < next_id m → d_get k (sm_streams m') = d_get k (sm_streams m).
Proof.
  cbn zeta. remember (ft_pending f) as pending eqn:Ep. symmetry in Ep.
  revert f m Hf Ep. induction pending as [|path pending IH]; intros f m Hf Ep.
  { exists (set_ft_pending [] f), m. rewrite take_nil, drop_nil. cbn. rewrite app_nil_r. split_and!; try done; [|rewrite len_nil; lia].
    destruct Hf as [? ? _ ?]. by constructor. }
  destruct (decide (0 < credit m)) as [Hc|Hc].
  - assert (∃ request, encode_request path = Ok request) as [request He].
    { pose proof (rq_paths _ _ Hf) as P. rewrite Ep in P. apply Forall_cons in P as [P _].
      destruct (encode_request path); [eauto|done]. }
    destruct (requesting_step f m path request pending Hf Hc He Ep) as [Hf1 Hk1].
    rewrite (issue_requests_cons f m path request pending Hf Hc He).
    destruct (IH _ _ Hf1 eq_refl) as (f' & m' & E & Hf' & Hp & Hs & Hw & Hcr & Hfr).
    assert (credit (with_request m request) = credit m - 1) as Hcr1 by (unfold credit; cbn; lia).
    rewrite next_id_with_request in Hfr. rewrite Hcr1 in *.
    assert (Z.to_nat (credit m) = S (Z.to_nat (credit m - 1))) as -> by lia.
    cbn [take drop length]. rewrite (next_ids_S m request). cbn [zip zip_with].
    rewrite Hk1, <- app_assoc in Hs. exists f', m'. split_and!; try done.
    + constructor; [|exact Hw]. destruct (with_request_carries m path request He) as (h & s & r & Hg & ?).
      exists h, s, r. rewrite Hfr by lia. done.
    + rewrite len_cons. lia.
    + intros k Hk. rewrite Hfr by lia. cbn -[d_set]. apply d_get_set_ne. lia.
  - destruct (issue_requests_stop f m path pending Hf) as (c & E & Hc'); [lia|].
    replace (Z.to_nat (credit m)) with 0%nat by lia. rewrite E. do 2 eexists. split; [done|].
    cbn [take drop length next_ids zip zip_with seq fmap list_fmap]. rewrite app_nil_r, len_nil. split_and!; try done; [|lia].
    destruct Hf as [? ? P ?]. rewrite Ep in P. by constructor.
Qed.
End requests.

(** ** Streams the server opens *)

Section unsolicited.
Context `{HP : Primitives} `{HT : Tls}.

Lemma bodies_without_path paths bodies k acc :
  k ∈ bodies.*1 → d_get k paths = None → bodies_by_path paths bodies acc = Raise KeyError.
Proof.
  intros Hk Hp. revert acc. induction bodies as [|[j b] bodies IH]; cbn [bodies_by_path fmap list_fmap fst]; intros acc; [by apply not_elem_of_nil in Hk|].
  apply elem_of_cons in Hk as [-> | Hk]; [by cbn in Hp; rewrite Hp|]. destruct (d_get j paths); [by apply IH|done].
Qed.

(** Data on a stream the client did not open spoils the fetch.  The client
    lets a peer open streams, and [_apply_events] files whatever arrives under
    its stream: from then on the streams finished are no longer the responses,
    and the dictionary [fetch] returns cannot be built, because the stream has
    no path: [KeyError], however many responses are complete. *)
Theorem unsolicited_stream_spoils_fetch (f : Fetch) k data
  (Hk : d_get k (ft_stream_paths f) = None) :
  let f' := (apply_connection_event (StreamDataReceived k data true) f).2 in
  (apply_connection_event (StreamDataReceived k data true) f).1 = Ok tt ∧ k ∈ ft_finished f' ∧ fetch_result f' = Raise KeyError.
Proof.
  cbn zeta. split; [done|]. split.
  - cbn. unfold list_union. set_solver.
  - apply (bodies_without_path _ _ k); [|done]. apply list_elem_of_fmap. eexists (k, _). split; [done|].
    apply d_get_elem. cbn -[d_get d_set]. apply d_get_set_eq.
Qed.
End unsolicited.

(** ** Witnesses *)

(** Five paths to request and room for four streams *)
Definition asking : Fetch :=
  mkFetch (set_cn_streams (Some (new_StreamManager true sample_limits sample_limits)) (blank true CONNECTED))
    [code "/a"; code "/b"; code "/c"; code "/d"; code "/e"] [] [] [] true [].

Lemma requests_issued_in_order_witness :
  ∃ f' m', issue_requests (ft_pending asking) asking = (Ok tt, f') ∧
    ft_pending f' = [code "/e"] ∧ ft_stream_paths f' = [(0, code "/a"); (4, code "/b"); (8, code "/c"); (12, code "/d")] ∧
    Forall2 (carries m') [0; 4; 8; 12] [code "/a"; code "/b"; code "/c"; code "/d"].
Proof.
  destruct (requests_issued_in_order asking (new_StreamManager true sample_limits sample_limits))
    as (f' & m' & E & _ & Hp & Hs & Hc & _).
  { constructor; [done|apply manager_inv_new; apply sample_limits_ok|repeat constructor|constructor]. }
  exists f', m'. exact (conj E (conj Hp (conj Hs Hc))).
Defined.

Lemma unsolicited_stream_spoils_fetch_witness :
  fetch_result (apply_connection_event (StreamDataReceived 3 [x21] true) asking).2 = Raise KeyError.
Proof. apply (unsolicited_stream_spoils_fetch asking 3 [x21]). done. Defined.

#[local] Existing Instance tls_machines | 0.

(** A bare Initial header with this token *)
Definition initial_with (token : bytes) : bytes :=
  [xc3] ++ be_bytes 4 QUIC_V1 ++ (x08 :: replicate 8 xd1) ++ (x08 :: replicate 8 xc1) ++ lb token ++ [x00].
Definition header_with (token : bytes) : LongHeader :=
  mkLongHeader INITIAL QUIC_V1 (replicate 8 xd1) (replicate 8 xc1) token 0 (len (initial_with token)).

(** One poll, in which an Initial starts a connection *)
Definition polled_once : TlsEndpoint :=
  (poll 3 0 [(initial_with [], Some client_address, 0, 0%Q)] 0 0 (sample_endpoint false)).2.

Lemma connections_served_once_witness :
  len (sv_store polled_once) = 1 ∧ sv_served polled_once + Z.of_nat (size (live polled_once)) = len (sv_store polled_once).
Proof.
  split; [vm_compute; reflexivity|].
  apply (connections_served_once (HT := tls_machines) (λ i, (sample_server_config, sample_entropy (5 + 100 * Z.of_nat i))) sample_files 30 (zeros 32) false
    (λ i n, be_bytes (Z.to_nat n) (1000 + 7 * Z.of_nat i)) polled_once).
  apply rtc_once. by exists 3%nat, 0%Q, [(initial_with [], Some client_address, 0, 0%Q)], 0%Q, 0%Q.
Defined.

Lemma no_state_before_validation_witness :
  let s := sample_endpoint true in
  answered (Some client_address) s (route (initial_with []) (Some client_address) 0 0 0 s).2 ∨
  token_valid (initial_with []) (Some client_address) 0 s.
Proof.
  apply (no_state_before_validation (initial_with []) (replicate 8 xd1) (Some client_address) 0 0 0 (sample_endpoint true)); done.
Defined.

Lemma retry_admits_witness :
  let s := sample_endpoint true in
  ∃ packet retry s', validate_address (initial_with []) (replicate 8 xd1) (Some client_address) 5 s = (Ok NotValid, s') ∧
    sv_sent s' = [(packet, client_address)] ∧ is_retry packet = true ∧
    parse_retry packet (replicate 8 xd1) = Ok retry ∧
    ∀ s2, sv_token_key s2 = sv_token_key s → initial_header (initial_with (rt_token retry)) = Ok (Some (header_with (rt_token retry))) →
      validate_address (initial_with (rt_token retry)) (rt_source_cid retry) (Some client_address) 65 s2 =
        (Ok (ValidRetry (mkRetryContext (replicate 8 xd1) (rt_source_cid retry))), s2).
Proof.
  destruct (retry_admits (initial_with []) (header_with []) (replicate 8 xd1) client_address 5 (sample_endpoint true))
    as (packet & retry & s' & E & Hs & Hr & P & _ & A); [done| |done|done|done|done|].
  { intros i n Hn. cbn. rewrite len_be_bytes. lia. }
  exists packet, retry, s'. split_and!; try done. intros s2 Hk Hi.
  exact (A _ _ (rt_source_cid retry) (Some client_address) 65%Q s2 Hk Hi eq_refl).
Defined.

Lemma unguarded_datagram_stops_server_witness :
  let truncated := take 15 (initial_with []) in
  (∃ e, unguarded_error e ∧ (route truncated None 0 0 0 (sample_endpoint true)).1 = Raise e) ∧
  ∃ e, unguarded_error e ∧ (poll 3 0 [(initial_with [x01; x07], None, 0, 0%Q)] 0 0 (sample_endpoint true)).1 = Raise e.
Proof.
  split.
  - destruct (unguarded_datagram_stops_server (take 15 (initial_with [])) (replicate 8 xd1) None 0 0 0 0 3 0 []
      (sample_endpoint true)) as (e & He & R & _); [done| |done|by exists e].
    by eapply truncated_header; [reflexivity..|vm_compute; reflexivity].
  - destruct (unguarded_datagram_stops_server (initial_with [x01; x07]) (replicate 8 xd1) None 0 0 0 0 3 0 []
      (sample_endpoint true)) as (e & He & _ & P); [done| |done|exists e; split; [exact He|by apply P]].
    apply (short_token _ _ (header_with [x01; x07]) RETRY_TOKEN [x07]); try done. by left.
Defined.

Lemma poll_wakes_in_time_witness :
  ∃ wait, wait_time (poll_deadlines 7 (sample_endpoint true)) 7 = Some wait ∧ (0 <= wait)%Q.
Proof.
  destruct (poll_wakes_in_time 7 (sample_endpoint true)) as (wait & E & H & _); [|by exists wait].
  intros cid i Hi. by apply not_elem_of_nil in Hi.
Defined.
