(* ===== verification/CommandLine.v ===== *)
(** * Around the endpoints: files and command lines (endpoints/)

    PEM files and the key log of [src/dsquic/endpoints/__init__.py], with the
    lines [_keylog] of [src/dsquic/tls.py] writes to it; [load_credentials] and
    [main] of [endpoints/server.py]; [main] of [endpoints/client.py]: which
    combinations of options it refuses, which mode it runs, and where the
    bodies go.  Reading PEM is the [cryptography] package's, the class
    [PemLibrary]; the parsing of the command line is [argparse]'s, so the
    arguments are a record. *)

From Stdlib Require Import Strings.String QArith.
From S2P Require Import Prelude Buffer Packet Congestion Crypto Retry Hq TlsInterface Handshake KeySchedule TlsCore TlsClient TlsServer.
From S2P Require Import Protection ConnState DocumentRoot TlsRuns TlsInstance ServerEndpoint ClientEndpoint EndpointRuns.
#[local] Open Scope Z_scope.

(** ** Splitting *)

(** [data.split(sep)] for a non-empty [sep]: [current] is the piece being read;
    every round drops a byte at least, so the length of the data is enough
    fuel. *)
Fixpoint split_from (fuel : nat) (sep current data : bytes) : list bytes :=
  match fuel with
  | O => [current ++ data]
  | S k =>
      if starts_with sep data then current :: split_from k sep [] (drop (length sep) data)
      else match data with
           | [] => [current]
           | b :: data' => split_from k sep (current ++ [b]) data'
           end
  end.
Definition bytes_split (sep data : bytes) : list bytes := split_from (S (length data)) sep [] data.

(** [piece] holds no separator, not even one that the next begins. *)
Definition free (sep piece : bytes) : Prop := ∀ i, (i < length piece)%nat → starts_with sep (drop i (piece ++ sep)) = false.

Lemma starts_with_more sep s rest : (length sep <= length s)%nat → starts_with sep (s ++ rest) = starts_with sep s.
Proof. intros H. unfold starts_with. by rewrite take_app_le. Qed.

Lemma free_cons sep b piece : free sep (b :: piece) → starts_with sep ((b :: piece) ++ sep) = false ∧ free sep piece.
Proof. intros H. split; [by apply (H 0%nat); cbn; lia|]. intros i Hi. apply (H (S i)). cbn. lia. Qed.

Section split.
Context (sep : bytes) (Hsep : sep ≠ []).

Lemma sep_positive : (0 < length sep)%nat.
Proof. destruct sep; [done|cbn; lia]. Qed.

(** Reading up to the next separator. *)
Lemma split_piece piece : ∀ fuel current rest, free sep piece → (length (piece ++ sep ++ rest) < fuel)%nat →
  ∃ fuel', (length rest < fuel')%nat ∧
    split_from fuel sep current (piece ++ sep ++ rest) = (current ++ piece) :: split_from fuel' sep [] rest.
Proof.
  pose proof sep_positive. induction piece as [|b piece IH]; intros fuel current rest Hf Hl; destruct fuel as [|fuel]; try lia;
    cbn [split_from app].
  - rewrite starts_with_app, drop_app_length, (app_nil_r current). exists fuel. split; [|done].
    cbn [app] in Hl. rewrite length_app in Hl. lia.
  - apply free_cons in Hf as [Hb Hf].
    assert (E : starts_with sep (b :: piece ++ sep ++ rest) = false).
    { rewrite <- Hb. change (b :: piece ++ sep ++ rest) with ((b :: piece) ++ sep ++ rest). rewrite app_assoc.
      apply starts_with_more. rewrite length_app. lia. }
    rewrite E. destruct (IH fuel (current ++ [b]) rest Hf) as (fuel' & Hf' & Es); [cbn in Hl; lia|].
    exists fuel'. split; [done|]. rewrite Es. by rewrite <- app_assoc.
Qed.

(** The last piece. *)
Lemma split_last piece : ∀ fuel current, free sep piece → (length piece < fuel)%nat → split_from fuel sep current piece = [current ++ piece].
Proof.
  pose proof sep_positive. induction piece as [|b piece IH]; intros fuel current Hf Hl; destruct fuel as [|fuel]; try lia; cbn [split_from].
  - unfold starts_with. rewrite take_nil, bool_decide_false by done. by rewrite app_nil_r.
  - apply free_cons in Hf as [Hb Hf].
    assert (E : starts_with sep (b :: piece) = false).
    { destruct (starts_with sep (b :: piece)) eqn:E; [|done]. rewrite starts_with_more in Hb; [congruence|].
      apply bool_decide_eq_true in E. rewrite <- E, length_take. lia. }
    rewrite E, IH; [|done|cbn in Hl; lia]. by rewrite <- app_assoc.
Qed.

(** Joining pieces with separators, [sep.join(pieces)], and splitting. *)
Fixpoint join_pieces (first : bytes) (pieces : list bytes) : bytes :=
  match pieces with [] => first | p :: pieces' => first ++ sep ++ join_pieces p pieces' end.

Lemma split_join first pieces : free sep first → Forall (free sep) pieces → bytes_split sep (join_pieces first pieces) = first :: pieces.
Proof.
  intros Hf Hp. unfold bytes_split. set (fuel := S _). assert (Hl : (length (join_pieces first pieces) < fuel)%nat) by (subst fuel; lia).
  clearbody fuel. revert fuel first Hf Hl. induction Hp as [|p pieces Hfp Hp IH]; intros fuel first Hf Hl; cbn [join_pieces] in *.
  - by rewrite split_last.
  - destruct (split_piece first fuel [] (join_pieces p pieces) Hf Hl) as (fuel' & Hl' & ->). by rewrite (IH fuel' p).
Qed.
End split.

(** ** PEM files *)

Definition PEM_CERTIFICATE_MARKER : bytes := ascii_bytes "-----BEGIN CERTIFICATE-----".

(** [load_pem_private_key] gives an RSA or an EC key, or a key of another kind
    ([None]); [read_bytes] is the file system's. *)
Class PemLibrary `{TlsPrimitives} : Type := {
  Certificate : Type;
  load_pem_x509_certificate : bytes → result Certificate;
  public_bytes_der : Certificate → bytes;
  load_pem_private_key : bytes → result (option SigningKey);
  read_bytes : str → result bytes }.

Section pem.
Context `{HT : TlsPrimitives} `{HP : !PemLibrary}.

(** [split_pem_chain] *)
Definition split_pem_chain (data : bytes) : result (list Certificate) :=
  mapM_result (λ block, load_pem_x509_certificate (PEM_CERTIFICATE_MARKER ++ block)) (drop 1 (bytes_split PEM_CERTIFICATE_MARKER data)).

(** [load_pem_certificates] *)
Definition load_pem_certificates (path : str) : result (list bytes) :=
  data ← read_bytes path; certificates ← split_pem_chain data; Ok (map public_bytes_der certificates).

(** [load_credentials] *)
Definition load_credentials (certificate private_key : str) : result (list bytes * SigningKey) :=
  chain ← load_pem_certificates certificate;
  data ← read_bytes private_key;
  key ← load_pem_private_key data;
  match key with None => Raise (ValueError "private key must be RSA or EC") | Some k => Ok (chain, k) end.

(** The certificates of a bundle are those of its PEM blocks, each from its
    marker to the next, in file order; what precedes the first is skipped. *)
Lemma pem_bundle_blocks preamble bodies : free PEM_CERTIFICATE_MARKER preamble → Forall (free PEM_CERTIFICATE_MARKER) bodies →
  split_pem_chain (preamble ++ concat (map (app PEM_CERTIFICATE_MARKER) bodies)) =
    mapM_result load_pem_x509_certificate (map (app PEM_CERTIFICATE_MARKER) bodies).
Proof.
  intros Hp Hb. assert (∀ first l, first ++ concat (map (app PEM_CERTIFICATE_MARKER) l) = join_pieces PEM_CERTIFICATE_MARKER first l) as Hj.
  { intros first l. revert first. induction l as [|b l IH]; intros first; cbn [map concat join_pieces]; [by rewrite app_nil_r|].
    rewrite <- IH. by app_norm. }
  unfold split_pem_chain. rewrite Hj, split_join by done. change (drop 1 (preamble :: bodies)) with bodies.
  clear. induction bodies as [|b l IH]; [done|]. cbn [map mapM_result]. by rewrite IH.
Qed.
End pem.

(** ** The key log *)

(** [data.hex()], as the characters of the line. *)
Definition hex_char (d : Z) : byte := if d <? 10 then bZ (48 + d) else bZ (87 + d).
Definition bytes_hex (data : bytes) : bytes := concat (map (λ b, [hex_char (Zb b / 16); hex_char (Zb b mod 16)]) data).

Definition SPACE : byte := x20.
Definition NEWLINE : byte := x0a.

(** The line of [_keylog] *)
Definition keylog_line (label client_random secret : bytes) : bytes :=
  label ++ [SPACE] ++ bytes_hex client_random ++ [SPACE] ++ bytes_hex secret.

(** [keylog_writer]: with [SSLKEYLOGFILE] unset or empty nothing is written;
    otherwise the lines are appended to the file it names. *)
Definition keylog_writer (environ : option str) : option (bytes → M bytes unit) :=
  match environ with
  | None | Some [] => None
  | Some _ => Some (λ line, modify (λ file, file ++ line ++ [NEWLINE]))
  end.

Record KeylogEntry : Type := mkKeylogEntry { kl_label : bytes; kl_random : bytes; kl_secret : bytes }.
Definition entry_line (e : KeylogEntry) : bytes := keylog_line (kl_label e) (kl_random e) (kl_secret e).

(** A reader of the format: the lines of the file, three fields each. *)
Definition digit_value (b : byte) : option Z :=
  let v := Zb b in
  if (48 <=? v) && (v <=? 57) then Some (v - 48) else if (97 <=? v) && (v <=? 102) then Some (v - 87) else None.
Fixpoint unhex (s : bytes) : option bytes :=
  match s with
  | [] => Some []
  | h :: l :: s' => hi ← digit_value h; lo ← digit_value l; rest ← unhex s'; Some (bZ (16 * hi + lo) :: rest)
  | _ => None
  end.
Definition read_line (line : bytes) : option KeylogEntry :=
  match bytes_split [SPACE] line with
  | [label; random; secret] => r ← unhex random; s ← unhex secret; Some (mkKeylogEntry label r s)
  | _ => None
  end.
Definition read_keylog (file : bytes) : list (option KeylogEntry) :=
  map read_line (removelast (bytes_split [NEWLINE] file)).

Lemma hex_char_value d : 0 <= d < 16 → digit_value (hex_char d) = Some d.
Proof.
  intros Hd. unfold digit_value, hex_char. destruct (Z.ltb_spec d 10); rewrite Zb_bZ_small by lia; cbv zeta; repeat case_test; f_equal; lia.
Qed.

Lemma nibbles b : 0 <= Zb b / 16 < 16 ∧ 0 <= Zb b mod 16 < 16.
Proof.
  pose proof (Zb_range b). split; [|apply Z.mod_pos_bound; lia].
  split; [apply Z.div_pos; lia|apply Z.div_lt_upper_bound; lia].
Qed.

Lemma unhex_hex data : unhex (bytes_hex data) = Some data.
Proof.
  induction data as [|b data IH]; [done|]. unfold bytes_hex in *. cbn [map concat app unhex]. destruct (nibbles b) as [Hh Hl].
  rewrite !hex_char_value by done. cbn [mbind option_bind]. rewrite IH. cbn [mbind option_bind]. f_equal. f_equal.
  apply Zb_inj. rewrite Zb_bZ_small; [|pose proof (Zb_range b)]; pose proof (Z.div_mod (Zb b) 16 ltac:(lia)); lia.
Qed.

(** One character is no part of a piece that does not contain it. *)
Lemma free_char x piece : x ∉ piece → free [x] piece.
Proof.
  intros Hx i Hi. unfold starts_with. apply bool_decide_eq_false. intros E. apply Hx.
  destruct (lookup_lt_is_Some_2 piece i Hi) as [y Hy].
  assert (drop i (piece ++ [x]) = y :: drop (S i) (piece ++ [x])) as Ed by (apply drop_S; by apply lookup_app_l_Some).
  rewrite Ed in E. injection E as ->. by eapply list_elem_of_lookup_2.
Qed.

Lemma hex_char_plain d x : 0 <= d < 16 → x = SPACE ∨ x = NEWLINE → hex_char d ≠ x.
Proof.
  intros Hd Hx E. pose proof (hex_char_value d Hd) as H. rewrite E in H. by destruct Hx as [-> | ->].
Qed.

Lemma hex_plain data x : x = SPACE ∨ x = NEWLINE → x ∉ bytes_hex data.
Proof.
  intros Hx Hin. apply list_elem_of_In, in_concat in Hin as (l & Hl & Hin). apply in_map_iff in Hl as (b & <- & _).
  destruct (nibbles b). destruct Hin as [E|[E|[]]]; by apply (hex_char_plain _ x) in E.
Qed.

(** A label such as [_keylog] is given. *)
Definition plain_label (label : bytes) : Prop := SPACE ∉ label ∧ NEWLINE ∉ label.

Lemma read_entry e : plain_label (kl_label e) → read_line (entry_line e) = Some e.
Proof.
  intros [Hs _]. destruct e as [label random secret]. cbn [kl_label] in Hs. unfold read_line.
  assert (entry_line (mkKeylogEntry label random secret) = join_pieces [SPACE] label [bytes_hex random; bytes_hex secret]) as -> by done.
  rewrite split_join; [|done|by apply free_char|repeat constructor; apply free_char, hex_plain; by left].
  by rewrite !unhex_hex.
Qed.

Lemma entry_free e : plain_label (kl_label e) → free [NEWLINE] (entry_line e).
Proof.
  intros [_ Hn]. apply free_char. unfold entry_line, keylog_line. rewrite !not_elem_of_app.
  split_and!; try (apply hex_plain; by right); [done|by intros ?%list_elem_of_singleton..].
Qed.

(** Writing entries one after the other to a file. *)
Definition log_entries (write : bytes → M bytes unit) (entries : list KeylogEntry) : M bytes unit :=
  each (λ e, write (entry_line e)) entries.

Lemma log_entries_file entries : ∀ file, log_entries (λ line, modify (λ file, file ++ line ++ [NEWLINE])) entries file =
  (Ok tt, file ++ concat (map (λ e, entry_line e ++ [NEWLINE]) entries)).
Proof.
  unfold log_entries. induction entries as [|e entries IH]; intros file; cbn [each map concat]; [by rewrite app_nil_r|].
  erewrite M_bind_ok by done. rewrite IH. by app_norm.
Qed.

(** The key log reads back.  With [SSLKEYLOGFILE] unset or empty there is no
    writer; otherwise whatever entries are written, one after the other, to an
    empty file, a reader that cuts the file into lines, each line at its
    spaces, and decodes the hexadecimal finds those entries in order, whatever
    bytes the secrets and the client random are. *)
Theorem keylog_readable environ entries (Hl : Forall (λ e, plain_label (kl_label e)) entries) :
  match keylog_writer environ with
  | None => environ = None ∨ environ = Some []
  | Some write => ∃ file, log_entries write entries [] = (Ok tt, file) ∧ read_keylog file = Some <$> entries
  end.
Proof.
  destruct environ as [[|x path]|]; cbn [keylog_writer]; [by right| |by left]. eexists. split; [apply log_entries_file|].
  cbn [app]. assert (Hj : ∀ l, concat (map (λ e, entry_line e ++ [NEWLINE]) l) =
    match map entry_line l ++ [[]] with p :: ps => join_pieces [NEWLINE] p ps | [] => [] end).
  { induction l as [|e l IH]; [done|]. cbn [map concat app]. rewrite IH. destruct (map entry_line l); cbn [app join_pieces]; by app_norm. }
  unfold read_keylog. rewrite Hj.
  assert (Hs : bytes_split [NEWLINE] (match map entry_line entries ++ [[]] with p :: ps => join_pieces [NEWLINE] p ps | [] => [] end) =
    map entry_line entries ++ [[]]).
  { assert (Hf : Forall (free [NEWLINE]) (map entry_line entries ++ [[]])).
    { apply Forall_app. split; [|by repeat constructor; intros ? ?; cbn in *; lia]. apply List.Forall_map.
      eapply Forall_impl; [exact Hl|]. intros e. apply entry_free. }
    destruct (map entry_line entries ++ [[]]) as [|p ps] eqn:E; [by destruct (map entry_line entries)|].
    apply Forall_cons in Hf as [Hp Hps]. by apply split_join. }
  rewrite Hs, removelast_last. clear Hs Hj. induction Hl as [|e l He Hl IH]; [done|]. cbn [map fmap list_fmap].
  rewrite read_entry by done. f_equal. exact IH.
Qed.

Definition sample_entries : list KeylogEntry :=
  [mkKeylogEntry (ascii_bytes "CLIENT_HANDSHAKE_TRAFFIC_SECRET") (replicate 32 xa0) [x20; x0a];
   mkKeylogEntry (ascii_bytes "SERVER_TRAFFIC_SECRET_0") (replicate 32 xa0) [x01; xff]].

Lemma keylog_readable_witness :
  ∃ file, log_entries (λ line, modify (λ file, file ++ line ++ [NEWLINE])) sample_entries [] = (Ok tt, file) ∧
    read_keylog file = Some <$> sample_entries.
Proof.
  refine (keylog_readable (Some (code "/tmp/keys")) sample_entries _).
  apply Forall_cons; split; [|apply Forall_cons; split; [|by apply Forall_nil]];
    (split; intros H%list_elem_of_In; vm_compute in H; intuition discriminate).
Defined.

(** ** The client's command line *)

(** What [argparse] leaves in [args]. *)
Record ClientArguments : Type := mkClientArguments {
  ca_host : string;
  ca_port : Z;
  ca_paths : list str;
  ca_ca : option str;
  ca_insecure : bool;
  ca_server_name : option string;
  ca_output_dir : option str;
  ca_timeout : Q;
  ca_key_update_interval : option Z;
  ca_connection_per_request : bool;
  ca_resume : bool;
  ca_negotiate_version : bool;
  ca_chacha20 : bool;
  ca_zero_rtt : bool }.

(** The combinations [main] rejects with [parser.error] *)
Definition argument_error (args : ClientArguments) : option string :=
  if negb (ca_insecure args) && bool_decide (ca_ca args = None) then Some "--ca is required unless --insecure is given"
  else if ca_resume args && negb (ca_connection_per_request args) then Some "--resume requires --connection-per-request"
  else if ca_zero_rtt args && ca_connection_per_request args then
    Some "--zero-rtt and --connection-per-request are different splits"
  else None.

Definition client_options (args : ClientArguments) (ca_certificates : list bytes) : ClientOptions :=
  mkClientOptions ca_certificates (ca_insecure args) (ca_server_name args) (ca_timeout args) (ca_key_update_interval args)
    (ca_resume args) false (ca_chacha20 args) QUIC_V1.

(** [Path(path).name]: the last component, none for the root *)
Definition path_name (path : str) : str := List.last (components path) [].

(** What a run leaves: the files of the output directory, the lines printed
    (path and length), and the bytes written to standard output. *)
Record Output : Type := mkOutput { out_files : list (str * bytes); out_printed : list (str * Z); out_raw : bytes }.

(** [(output_dir / name).write_bytes(body)]: [..] names a directory.  (What
    [mkdir] and the file system may raise besides is left out.) *)
Definition write_file (name : str) (body : bytes) : M Output unit :=
  if bool_decide (name = [DOT; DOT]) then raise OSError
  else modify (λ o, mkOutput (d_set name body (out_files o)) (out_printed o) (out_raw o)).

(** The loop over the bodies *)
Definition write_bodies (output_dir : option str) (bodies : list (str * bytes)) : M Output unit :=
  each (λ '(path, body),
    if bool_decide (output_dir ≠ None) && negb (bool_decide (path_name path = [])) then
      _ ← write_file (path_name path) body;
      modify (λ o, mkOutput (out_files o) (out_printed o ++ [(path, len body)]) (out_raw o))
    else modify (λ o, mkOutput (out_files o) (out_printed o) (out_raw o ++ body))) bodies.

Section main.
Context `{HT : TlsPrimitives} `{HP : !PemLibrary}.
Context {W : Type} (clock : M W Q).
Context (fetch : list str → ClientOptions → option SessionStore → M W (list (str * bytes) * option SessionStore)).

(** The choice of [run], and the run *)
Definition run_mode (args : ClientArguments) (ca_certificates : list bytes) : M W (list (str * bytes)) :=
  let options := client_options args ca_certificates in
  if ca_zero_rtt args then fetch_zero_rtt clock fetch (ca_paths args) options
  else if ca_negotiate_version args then fetch_negotiating fetch (ca_paths args) options
  else if ca_connection_per_request args then fetch_each clock fetch (ca_paths args) options
  else '(bodies, _) ← fetch (ca_paths args) options None; mret bodies.

(** [main] of the client, on parsed arguments; the exit status *)
Definition client_main (args : ClientArguments) : M (W * Output) Z :=
  match argument_error args with
  | Some _ => raise (SystemExit 2)
  | None =>
      ca_certificates ← lift (match ca_ca args with Some path => load_pem_certificates path | None => Ok [] end);
      bodies ← zoom fst (λ w s, (w, s.2)) (run_mode args ca_certificates);
      _ ← zoom snd (λ o s, (s.1, o)) (write_bodies (ca_output_dir args) bodies);
      mret 0
  end.
End main.

(** ** The server's command line *)

Record ServerArguments : Type := mkServerArguments {
  sa_certificate : str;
  sa_private_key : str;
  sa_www : path;
  sa_idle_timeout : Q;
  sa_retry : bool;
  sa_once : bool }.

Section server_main.
Context `{HT : TlsPrimitives} `{HB : !PemLibrary} `{HP : Primitives}.

(** The [ServerConfig] of [main] *)
Definition main_server_config (args : ServerArguments) : result ServerConfig :=
  '(chain, key) ← load_credentials (sa_certificate args) (sa_private_key args);
  Ok (mkServerConfig chain key ["hq-interop"] [] None).

(** What [Server.__init__] makes of it: a ticket key is drawn when none is
    configured. *)
Definition with_ticket_key (drawn : bytes) (c : ServerConfig) : ServerConfig :=
  match scfg_ticket_key c with
  | Some _ => c
  | None => mkServerConfig (scfg_certificate_chain c) (scfg_signing_key c) (scfg_alpn c) (scfg_transport_parameters c) (Some drawn)
  end.

(** [main] of the server over the rounds that happen; the keys drawn, and for
    each connection its random numbers, are arguments. *)
Definition server_main (args : ServerArguments) (ticket_key token_key : bytes) (entropy : nat → Entropy) (fs : FileSystem)
    (urandom : nat → Z → bytes) (fuel : nat) (rounds : list (Q * list (bytes * option bytes * Z * Q) * Q * Q))
    : result (result bool * Server (HT := tls_machines)) :=
  config ← main_server_config args;
  Ok (serve fuel (if sa_once args then Some 1 else None) rounds
        (new_Server (HT := tls_machines) (λ i, (with_ticket_key ticket_key config, entropy i)) (resolve fs (sa_www args))
           (sa_idle_timeout args) token_key (sa_retry args) urandom)).
End server_main.

(** ** Where the bodies go *)

Lemma split_slash_no_slash s : Forall (λ n, SLASH ∉ n) (split_slash s).
Proof.
  induction s as [|c s IH]; cbn [split_slash]; [apply Forall_cons; split; [apply not_elem_of_nil|by apply Forall_nil]|].
  destruct (Z.eqb_spec c SLASH) as [->|Hc]; [apply Forall_cons; split; [apply not_elem_of_nil|done]|].
  destruct (split_slash s) as [|seg segs]; [apply Forall_cons; split; [by intros H%list_elem_of_singleton|by apply Forall_nil]|].
  apply Forall_cons in IH as [Hs Hss]. apply Forall_cons. split; [|done]. by intros [?|?]%elem_of_cons.
Qed.

(** An entry of a directory: one name, none of the special ones. *)
Definition entry_name (n : str) : Prop := SLASH ∉ n ∧ n ≠ [] ∧ n ≠ [DOT] ∧ n ≠ [DOT; DOT].

Lemma path_name_entry p : path_name p ≠ [] → path_name p ≠ [DOT; DOT] → entry_name (path_name p).
Proof.
  unfold path_name, entry_name. intros Hne Hdd.
  assert (Hin : List.last (components p) [] ∈ components p).
  { destruct (components p) as [|n l] eqn:E; [done|]. rewrite <- E in *. rewrite (app_removelast_last [] (l := components p)) at 2 by (by rewrite E).
    apply elem_of_app. right. by apply list_elem_of_singleton. }
  pose proof (components_names p) as Hp. rewrite Forall_forall in Hp. destruct (Hp _ Hin) as [_ Hdot].
  split_and!; try done. unfold components in Hin. apply list_elem_of_In, filter_In in Hin as [Hin _].
  pose proof (split_slash_no_slash p) as Hs. rewrite Forall_forall in Hs. apply Hs. by apply list_elem_of_In.
Qed.

(** The client writes nothing outside its output directory.  Whatever the
    paths asked for and the bodies that came, and whether writing them runs to
    its end or stops at an error, every file that is there afterwards and was
    not before has a name that is a single component (no slash, neither empty
    nor [.] nor [..]), which is the last component of a path that was fetched, and
    holds the body of that path; and nothing is written without an output
    directory. *)
Theorem output_confined output_dir bodies o r o' name data
  (Hw : write_bodies output_dir bodies o = (r, o')) (Hd : d_get name (out_files o') = Some data) :
  d_get name (out_files o) = Some data ∨
  (output_dir ≠ None ∧ entry_name name ∧ ∃ path, (path, data) ∈ bodies ∧ path_name path = name).
Proof.
  revert o Hw. induction bodies as [|[path body] bodies IH]; intros o Hw.
  { injection Hw as _ <-. by left. }
  unfold write_bodies in Hw, IH. cbn [each] in Hw. destruct (bool_decide (output_dir ≠ None) && negb (bool_decide (path_name path = []))) eqn:E.
  2: { erewrite M_bind_ok in Hw by done. destruct (IH _ Hw) as [H|(H1 & H2 & p & Hp & H3)]; [by left|right].
       split; [done|]. split; [done|]. exists p. split; [by right|done]. }
  apply andb_true_iff in E as [Ho%bool_decide_eq_true Hn%negb_true_iff%bool_decide_eq_false].
  unfold write_file in Hw. destruct (decide (path_name path = [DOT; DOT])) as [Edd|Hdd].
  { rewrite (bool_decide_true (path_name path = _)) in Hw by done. change ((Raise OSError, o) = (r, o')) in Hw. injection Hw as _ <-. by left. }
  rewrite (bool_decide_false (path_name path = _)) in Hw by done. erewrite M_bind_ok in Hw by reflexivity. cbn [out_files] in Hw.
  destruct (IH _ Hw) as [H|(H1 & H2 & p & Hp & H3)]; cbn [out_files] in *.
  2: { right. split; [done|]. split; [done|]. exists p. split; [by right|done]. }
  destruct (decide (path_name path = name)) as [<-|Hname]; [|left; by rewrite d_get_set_ne in H].
  rewrite d_get_set_eq in H. injection H as ->. right. split; [done|]. split; [by apply path_name_entry|].
  exists path. split; [by left|done].
Qed.

Definition no_output : Output := mkOutput [] [] [].

Lemma output_confined_witness :
  ∃ o', write_bodies (Some (code "out")) [(code "/a/x", [x01]); (code "/..", [x02])] no_output = (Raise OSError, o') ∧
    out_files o' = [(code "x", [x01])] ∧ entry_name (code "x").
Proof.
  destruct (write_bodies (Some (code "out")) [(code "/a/x", [x01]); (code "/..", [x02])] no_output) as [r o'] eqn:E.
  destruct (output_confined (Some (code "out")) [(code "/a/x", [x01]); (code "/..", [x02])] no_output r o' (code "x") [x01] E)
    as [H|(_ & H & _)].
  - vm_compute in E. injection E as <- <-. reflexivity.
  - discriminate H.
  - exists o'. vm_compute in E. injection E as <- <-. split; [reflexivity|]. split; [reflexivity|exact H].
Defined.

(** Two paths whose last components agree share a file: the first body is
    overwritten, though both are announced. *)
Lemma same_name_overwritten :
  write_bodies (Some (code "out")) [(code "/a/x", [x01]); (code "/b/x", [x02])] no_output =
    (Ok tt, mkOutput [(code "x", [x02])] [(code "/a/x", 1); (code "/b/x", 1)] []).
Proof. vm_compute. reflexivity. Qed.

Section modes.
Context `{HT : TlsPrimitives} `{HP : !PemLibrary}.
Context {W : Type} (clock : M W Q).
Context (fetch : list str → ClientOptions → option SessionStore → M W (list (str * bytes) * option SessionStore)).

(** [main] rejects the two splits together, but [--negotiate-version] beside
    [--zero-rtt] is accepted and has no effect: no fetch dials the reserved
    version. *)
Lemma negotiate_ignored_in_zero_rtt args ca : ca_zero_rtt args = true → ca_connection_per_request args = false →
  run_mode clock fetch args ca = fetch_zero_rtt clock fetch (ca_paths args) (client_options args ca) ∧
  co_version (client_options args ca) = QUIC_V1.
Proof. intros Hz _. unfold run_mode. by rewrite Hz. Qed.

(** Likewise [--resume] (which [--connection-per-request] must accompany) beside
    [--negotiate-version]: one path after the other is not what runs. *)
Lemma resume_ignored_in_negotiation args ca : ca_zero_rtt args = false → ca_negotiate_version args = true →
  run_mode clock fetch args ca = fetch_negotiating fetch (ca_paths args) (client_options args ca).
Proof. intros Hz Hn. unfold run_mode. by rewrite Hz, Hn. Qed.

(** The exit status is 0 or the error status of [argparse]; a refused command
    line touches nothing. *)
Lemma refused_command_line args w o msg : argument_error args = Some msg →
  client_main clock fetch args (w, o) = (Raise (SystemExit 2), (w, o)).
Proof. intros E. unfold client_main. by rewrite E. Qed.
End modes.

(** ** A run of the client's command

    From the command line to the files: the trust anchor read from a PEM bundle,
    the fetches over the real handshake against the server of [EndpointRuns]. *)

#[local] Existing Instance tls_machines | 0.

(** PEM blocks that hold DER as it is; one file *)
#[local] Instance bare_pem : PemLibrary := {
  Certificate := bytes;
  load_pem_x509_certificate block := Ok (drop (length PEM_CERTIFICATE_MARKER) block);
  public_bytes_der c := c;
  load_pem_private_key _ := Ok None;
  read_bytes path := if bool_decide (path = code "ca.pem") then Ok (ascii_bytes "anchors" ++ PEM_CERTIFICATE_MARKER ++ sample_certificate)
                     else Raise OSError }.

Definition sample_arguments (paths : list str) (zero_rtt negotiate_version : bool) : ClientArguments :=
  mkClientArguments "localhost" 4433 paths (Some (code "ca.pem")) false (Some "example.org") (Some (code "out")) DEFAULT_TIMEOUT None
    false false negotiate_version false zero_rtt.
Definition run_command (args : ClientArguments) : result Z * Output * list nat :=
  match client_main read_clock fetch_over args (sample_world false, no_output) with
  | (r, (w, o)) => (r, o, w_datagrams w)
  end.

(** Three paths fetched over one connection, two of them written under their last
    components; the third ends in [..], which stops the command after the
    fetch. *)
Fact client_command_runs :
  run_command (sample_arguments (sample_paths ++ [code "/index.html/.."]) false false) =
    (Raise OSError, mkOutput [(code "index.html", ascii_bytes "hello"); (code "none", [])] [(code "/index.html", 5); (code "/none", 0)] [],
     [5%nat]).
Proof. vm_compute. reflexivity. Qed.
